(* ===== verification/_CoqProject ===== *)
-Q . S2P
Prelude.v
Types.v
Mem.v
Str.v
Lottery.v
Layout.v
Hart.v
HartSpec.v
Kalloc.v
Vm.v
VmTables.v
VmMap.v
VmSpace.v
VmUser.v
VmCopy.v
State.v
Spinlock.v
Printf.v
Proc.v
ProcSpec.v
Sleeplock.v
Seq.v
Bio.v
BioSpec.v
BioInit.v
Virtio.v
VirtioSpec.v
VirtioInv.v
VirtioOps.v
VirtioRefine.v
VirtioSim.v
Log.v
LogSpec.v
LogCrash.v
Console.v
Pipe.v
PipeSpec.v
FsTx.v
FsSource.v
Fs.v
FsInode.v
FsBlocks.v
FsMap.v
FsBmap.v
FsFile.v
FsTrunc.v
FsDirSpec.v
FsAtomic.v
FsDir.v
File.v
FsCrash.v
FsIO.v
FsLink.v
Exec.v
Fork.v
Syscall.v
Plic.v
Trap.v
Usys.v
Ulib.v
Uprintf.v
Uprogs.v
UprogsSpec.v
Sh.v
ShLex.v
ShParse.v
ShPrint.v
ShRefine.v
ShSpec.v
ShRun.v
Grep.v
Umalloc.v
UmallocSpec.v
MallocSpec.v
MallocClient.v
Mkfs.v
MkfsSpec.v
MkfsAppend.v
MkfsImage.v
MkfsBuild.v
