(* ===== verification/Prelude.v ===== *)
(** * xv6 with a lottery scheduler and null-pointer protection

    A model of xv6-riscv as it is in this repository: the kernel with its assembly, the
    disk driver, the shell, the user library and utilities, and the program that builds
    the file system image.  This variant of xv6 schedules by lottery (settickets,
    getpinfo), counts system calls (getcnt) and leaves the first page of every address
    space unmapped.

    ** How code is modelled

    Kernel code is a resumption in the monad [M] of this file: it returns ([Ok]), stops
    the machine ([Panic]), gives up the CPU with a continuation ([Swtch]) or, in the loops
    that the source does not bound, ends the fuel of the model ([NoFuel]).  C integers are
    [Z] with their wrap-around written out.  Physical memory is a function from addresses
    to bytes, and page tables, free lists, trap frames and heaps live in it at their C
    offsets.  Pointers into a static array are indices, null is [None].  Undefined
    behaviour of C is [panic "undefined"], except the overflow of signed integers, which
    wraps as the RISC-V instructions do.  User programs are trees of system calls
    (Usys.v).  Definitions have the names of the C functions; a loop of a C function is a
    [Fixpoint] of its own.

    ** The parts

    - Machine and data: Types.v (param.h, riscv.h, memlayout.h, proc.h), Mem.v and Str.v
      (string.c), Layout.v (the addresses kernel.ld provides, as a class), State.v (all
      global variables of the kernel as one record [kernel]).
    - Assembly: Hart.v has swtch.S, trampoline.S, kernelvec.S, entry.S and start.c
      instruction by instruction, HartSpec.v what they do.
    - Memory: Kalloc.v (kalloc.c); Vm.v (vm.c) with VmTables.v, VmMap.v, VmSpace.v,
      VmUser.v and VmCopy.v about page tables as maps, address spaces and the copying
      between kernel and user.
    - Processes: Lottery.v (the generator and the two passes of the scheduler),
      Spinlock.v (spinlock.c, with several harts in [Smp]), Proc.v (proc.c), ProcSpec.v,
      Sleeplock.v (sleeplock.c; in Module [Sleeping] the instructions of sleep, wakeup,
      yield and the sleep locks, interleaved over harts), Fork.v (fork, exit, wait), Seq.v (code that finds its
      locks free behaves like the code without locks).
    - Disk: Bio.v (bio.c) above the class [Disk]; BioSpec.v and BioInit.v refine it to a
      map of blocks.  Virtio.v (virtio_disk.c, virtio.h) is the driver, and VirtioSpec.v
      has a device of which only the virtio specification is known; VirtioInv.v,
      VirtioOps.v, VirtioRefine.v and VirtioSim.v prove that both together are a disk
      with atomic transfers.  [DiskOK] is what the cache assumes of it; the two models of
      the driver are not composed in a theorem.
    - File system: Log.v (log.c) with LogSpec.v and LogCrash.v; Fs.v (fs.c), File.v
      (file.c, pipealloc), Pipe.v (pipe.c) with PipeSpec.v.  The contents of files are
      proved bottom up: FsTx.v (blocks in a transaction), FsSource.v (the buffers
      of reads and writes, in the kernel or in user memory), FsInode.v (inode locks,
      inodes on the disk), FsBlocks.v (the bitmap and balloc), FsMap.v and
      FsBmap.v (the block map and bmap), FsFile.v (readi, writei and iupdate), FsTrunc.v
      (itrunc), FsAtomic.v (begin_op and end_op around them), FsCrash.v (the
      theorems), FsIO.v (fileread, filewrite).
      Directories follow in FsDirSpec.v (bytes as a map of names), FsDir.v (dirlookup,
      dirlink, iget and iput) and FsLink.v (the theorems).
    - Upper half: Exec.v (exec.c), Syscall.v (syscall.c, sysproc.c, sysfile.c), Trap.v
      (trap.c, main.c, forkret), Plic.v (plic.c), Console.v (console.c, uart.c), Printf.v
      (printf.c).
    - User space: Usys.v, Ulib.v (ulib.c), Uprintf.v (printf.c), Uprogs.v and UprogsSpec.v
      (cat, wc, echo, ls and other utilities), Grep.v (grep.c), Umalloc.v (umalloc.c) with
      UmallocSpec.v, MallocSpec.v and MallocClient.v, Sh.v (sh.c) with ShLex.v, ShParse.v,
      ShPrint.v, ShRefine.v, ShSpec.v and ShRun.v.
    - Host: Mkfs.v (mkfs.c) with MkfsSpec.v, MkfsAppend.v, MkfsImage.v and MkfsBuild.v.

    A system call enters through [uservec] (Hart.v) and [usertrap] (Trap.v), is dispatched
    by [syscall] (Syscall.v), and its handler runs on files (File.v), which are pipes,
    devices or inodes (Fs.v); inodes are blocks of the cache (Bio.v) under the log (Log.v).
    A process that waits gives up the CPU in [sched] (Proc.v), and [scheduler] runs the
    winner of the lottery.  [scheduler] is the loop of one hart; its wfi is a no-op.

    ** What the theorems show

    - Disk: the driver and its device refine an atomic disk ([virtio_refines]); the cache
      refines a map of blocks ([bcache_refines]); a crash at any write of a commit leaves
      the old or the new contents ([commit_crash_atomic]), and recovery is safe against
      crashes ([initlog_recovers]).  A transaction as large as the log cannot commit
      ([commit_full_log_panics]).
    - Files: writing an open file is atomic across a crash and the next boot, and touches
      no other file ([write_crash_atomic]); filewrite writes the user's memory in such
      pieces, moves the offset by what is written, and a crash leaves whole pieces
      ([filewrite_pieces]); fileread copies the contents to the process, into pages that
      are allocated on demand where needed ([fileread_reads]); what is written is read
      back ([write_read_roundtrip], [read_contents]); a write of the size filewrite uses stays
      within its reservation in the log ([write_fits_reservation]).  Directories are maps:
      dirlookup reads the map and takes one reference to the inode it finds
      ([dirlookup_finds]), dirlink adds one name to it atomically ([link_crash_atomic]) and
      refuses a name that exists, keeping no reference ([link_exists]).  Truncation
      frees the blocks of the file and no other, atomically ([trunc_crash_atomic]).
      These are about one process with no other transaction open and an inode that is in
      memory; the user memory that filewrite reads is mapped.
    - Pipes: any readers and writers see a queue of the bytes of the writers' buffers,
      each run of a call up to its next sleep being a step; a writer sleeps only when the
      pipe is full, a reader only when it is empty ([pipe_fifo]).
    - File system image: mkfs stores what it is given ([mkfs_roundtrip]) in an image with
      disjoint blocks and an exact bitmap ([mkfs_wellformed]).
    - Scheduling: the two passes agree and a draw is fair ([lottery_draw_fair]), the
      generator has full period ([rand_next_full_period]) and over it every process gets
      its share ([lottery_proportional_share]); a round of the real scheduler runs the
      winner ([scheduler_refines_lottery], [lottery_progress]).  These need the tickets of
      the runnable processes to be positive and to add up to at most INT_MAX, which
      settickets does not enforce: with a sum that is a multiple of 2^32 no process runs
      ([lottery_overflow_idles]).
    - Processes: mutual exclusion of spin locks ([spinlock_mutual_exclusion]), no lost
      wakeups on sleep locks in any interleaving ([sleep_no_lost_wakeup]), and the behaviour
      of sleep, yield, kkill and kgetpinfo.
    - Memory: pages are never handed out twice ([kalloc_ownership]); [uvmalloc],
      [uvmcopy] and [vmfault] give a process the memory they promise or nothing, and never
      the first page; a fault in the lazily grown part is always served while three pages
      are free ([vmfault_lazy_null]); [copyout], [copyin] and [copyinstr] are safe for every
      address.
    - Assembly: a trap and a context switch restore every register
      ([trampoline_roundtrip], [swtch_roundtrip], [kernelvec_transparent]), and every hart
      boots into main.
    - Shell: the parser returns on every line ([sh_parse_terminates]), reads back every
      printed command ([sh_roundtrip]), and the processes forked run the programs with the
      right arguments and descriptors ([sh_runs_line]).
    - User programs: [umalloc_safe], [grep_match_correct], [grep_prints_matching],
      [wc_counts]; memmove and strncpy (Str.v).

    ** Bounds and fuel

    Loops over memory take the number of bytes or pages as fuel, which is what they need.
    A loop around [sleep] may go round any number of times: [wakes] (Sleeplock.v) bounds
    it and theorems hold for every value.  Where a run could end for lack of fuel, the
    theorem either shows that it returns or is about every state of a step relation.
    Waiting for a lock that another hart holds is [NoFuel].

    ** Assumptions

    What is outside the sources is a parameter with its documented behaviour as a law:
    the layout of the linked kernel ([KernelLayout], [KernelLayoutOK]), address
    translation ([MMU] in Hart.v), the virtio device ([dev_step]), the sbrk system call
    under malloc ([sbrk_ok]), the kernel's answers to user programs (handlers of Usys.v).

    ** Not modelled

    - The test programs usertests, grind, forktest, stressfs, logstress, nulltest and
      testlottery: they are scripts that make sense on a running kernel only.
    - kernel.ld and the build; the values the UART registers are initialised to.
    - Errors of the host file system in mkfs, disk errors (the driver panics on them in
      the model as in the code).
    - Memory order: harts interleave at single memory accesses ([Smp] in Spinlock.v) or,
      under a lock, at whole critical sections; fences are no-ops. *)

From Stdlib Require Import ZArith Lia List Ascii.
From stdpp Require Import base list numbers strings.
Open Scope Z_scope.

(** ** Machine integers

    C integers are [Z] with the wrap-around of their width written out.
    [u8], [u16], [u32], [u64] are the conversions to the unsigned types;
    [i32] is the conversion to [int].  Signed overflow is undefined in C; the
    model gives it the two's complement value the RISC-V [addw] computes. *)

Definition u8 (x : Z) : Z := x mod 2 ^ 8.
Definition u16 (x : Z) : Z := x mod 2 ^ 16.
Definition u32 (x : Z) : Z := x mod 2 ^ 32.
Definition u64 (x : Z) : Z := x mod 2 ^ 64.
Definition i16 (x : Z) : Z := (x + 2 ^ 15) mod 2 ^ 16 - 2 ^ 15.
Definition i32 (x : Z) : Z := (x + 2 ^ 31) mod 2 ^ 32 - 2 ^ 31.
Definition i64 (x : Z) : Z := (x + 2 ^ 63) mod 2 ^ 64 - 2 ^ 63.

Definition INT_MAX : Z := 2 ^ 31 - 1.

Lemma u32_range x : 0 <= u32 x < 2 ^ 32.
Proof. unfold u32. apply Z.mod_pos_bound. lia. Qed.
Lemma u64_range x : 0 <= u64 x < 2 ^ 64.
Proof. unfold u64. apply Z.mod_pos_bound. lia. Qed.
Lemma u8_range x : 0 <= u8 x < 2 ^ 8.
Proof. unfold u8. apply Z.mod_pos_bound. lia. Qed.
Lemma i32_range x : - 2 ^ 31 <= i32 x < 2 ^ 31.
Proof. unfold i32. pose proof (Z.mod_pos_bound (x + 2 ^ 31) (2 ^ 32)). lia. Qed.

Lemma u32_small x : 0 <= x < 2 ^ 32 -> u32 x = x.
Proof. intros. unfold u32. apply Z.mod_small. lia. Qed.
Lemma u64_small x : 0 <= x < 2 ^ 64 -> u64 x = x.
Proof. intros. unfold u64. apply Z.mod_small. lia. Qed.
Lemma u8_small x : 0 <= x < 2 ^ 8 -> u8 x = x.
Proof. intros. unfold u8. apply Z.mod_small. lia. Qed.
Lemma i32_small x : - 2 ^ 31 <= x < 2 ^ 31 -> i32 x = x.
Proof. intros. unfold i32. rewrite Z.mod_small; lia. Qed.

Lemma u32_idemp x : u32 (u32 x) = u32 x.
Proof. apply u32_small, u32_range. Qed.
Lemma u64_idemp x : u64 (u64 x) = u64 x.
Proof. apply u64_small, u64_range. Qed.

(** Wrapping a summand early changes nothing. *)
Lemma u32_add_l x y : u32 (u32 x + y) = u32 (x + y).
Proof. unfold u32. apply Zplus_mod_idemp_l. Qed.
Lemma u32_add_r x y : u32 (x + u32 y) = u32 (x + y).
Proof. unfold u32. apply Zplus_mod_idemp_r. Qed.
Lemma u32_mul_l x y : u32 (u32 x * y) = u32 (x * y).
Proof. unfold u32. apply Zmult_mod_idemp_l. Qed.
Lemma u32_sub_l x y : u32 (u32 x - y) = u32 (x - y).
Proof. unfold u32. apply Zminus_mod_idemp_l. Qed.
Lemma u32_sub_r x y : u32 (x - u32 y) = u32 (x - y).
Proof. unfold u32. apply Zminus_mod_idemp_r. Qed.

Create HintDb ints.
Create Rewrite HintDb ints.
#[export] Hint Resolve u8_range u32_range u64_range i32_range : ints.
#[export] Hint Rewrite u32_idemp u64_idemp u32_add_l u32_add_r u32_mul_l u32_sub_l u32_sub_r
  : ints.

(** The bytes of a string literal. *)
Fixpoint bytes (s : string) : list Z :=
  match s with
  | EmptyString => []
  | String c s' => Z.of_N (Ascii.N_of_ascii c) :: bytes s'
  end.

(** ** Running kernel code

    Kernel code is a resumption: started in a state it returns a value and a
    state ([Ok]), stops the machine ([Panic]), gives up the CPU with a
    continuation that is run when the scheduler comes back to it ([Swtch]), or,
    for the few loops without a bound in the source, exhausts the fuel of the
    model ([NoFuel]). *)

Inductive res (S A : Type) : Type :=
  | Ok (a : A) (s : S)
  | Panic (msg : string)
  | Swtch (s : S) (k : S -> res S A)
  | NoFuel.
Arguments Ok {S A} a s.
Arguments Panic {S A} msg.
Arguments Swtch {S A} s k.
Arguments NoFuel {S A}.

Definition M (S A : Type) : Type := S -> res S A.

Section monad.
Context {S : Type}.

Fixpoint rbind {A B : Type} (f : A -> M S B) (r : res S A) : res S B :=
  match r with
  | Ok a s => f a s
  | Panic m => Panic m
  | Swtch s k => Swtch s (fun s' => rbind f (k s'))
  | NoFuel => NoFuel
  end.

#[global] Instance M_ret : MRet (M S) := fun _ a s => Ok a s.
#[global] Instance M_bind : MBind (M S) := fun _ _ f c s => rbind f (c s).
#[global] Instance M_fmap : FMap (M S) := fun _ _ f c s => rbind (fun a => mret (f a)) (c s).

Definition panic {A} (msg : string) : M S A := fun _ => Panic msg.
Definition get : M S S := fun s => Ok s s.
Definition gets {A} (f : S -> A) : M S A := fun s => Ok (f s) s.
Definition put (s : S) : M S unit := fun _ => Ok tt s.
Definition modify (f : S -> S) : M S unit := fun s => Ok tt (f s).
Definition nofuel {A} : M S A := fun _ => NoFuel.

(** A C [for] loop over the elements of a list, without early exit. *)
Fixpoint foreach {A} (l : list A) (f : A -> M S unit) : M S unit :=
  match l with
  | [] => mret tt
  | x :: l' => f x ;; foreach l' f
  end.

(** A C [for] loop whose body may leave it early ([break], [return] or
    [goto]): the body answers [Some b] to leave with [b]. *)
Fixpoint search {A B} (l : list A) (f : A -> M S (option B)) : M S (option B) :=
  match l with
  | [] => mret None
  | x :: l' => r ← f x; match r with Some b => mret (Some b) | None => search l' f end
  end.

(** [runs r Q]: the run returns, with a result that satisfies [Q]. *)
Definition runs {A} (r : res S A) (Q : A -> S -> Prop) : Prop :=
  match r with Ok a s => Q a s | _ => False end.

Lemma runs_bind {A B} (c : M S A) (f : A -> M S B) s Q :
  runs (c s) (fun a s' => runs (f a s') Q) -> runs ((x ← c; f x) s) Q.
Proof. unfold mbind, M_bind. destruct (c s); simpl; tauto. Qed.

(** Two steps of a sequence taken together. *)
Lemma runs_two {A B C} (c : M S A) (f : A -> M S B) (g : B -> M S C) s Q :
  runs ((x ← c; f x) s) (fun b s' => runs (g b s') Q) -> runs ((x ← c; y ← f x; g y) s) Q.
Proof.
  unfold mbind, M_bind. destruct (c s) as [a s'| | |]; cbn [rbind]; [|intros []..].
  intros H. by apply runs_bind.
Qed.

Lemma runs_ok {A} (r : res S A) Q : runs r Q <-> exists a s, r = Ok a s /\ Q a s.
Proof.
  split.
  - destruct r; simpl; try tauto. eauto.
  - intros (a & s & -> & H). exact H.
Qed.

Lemma runs_mono {A} (r : res S A) (P Q : A -> S -> Prop) :
  runs r P -> (forall a s, P a s -> Q a s) -> runs r Q.
Proof. destruct r; simpl; auto. Qed.

(** [foreach] with an invariant indexed by the part of the list already done. *)
Lemma runs_foreach {A} (l : list A) (f : A -> M S unit) (I : list A -> S -> Prop) s :
  I [] s ->
  (forall pre x rest s', l = pre ++ x :: rest -> I pre s' ->
     runs (f x s') (fun _ => I (pre ++ [x]))) ->
  runs (foreach l f s) (fun _ => I l).
Proof.
  intros H0 Hstep.
  enough (forall rest pre s', l = pre ++ rest -> I pre s' ->
            runs (foreach rest f s') (fun _ => I l)) as H by (apply (H l []); auto).
  induction rest as [|x rest IH]; intros pre s' Hl HI; simpl.
  - rewrite app_nil_r in Hl. subst. exact HI.
  - apply runs_bind. eapply runs_mono; [eapply Hstep; eauto|].
    intros [] s'' HI''. apply (IH (pre ++ [x])); [|exact HI'']. by rewrite <- app_assoc.
Qed.
End monad.

(** Running a component's code inside a larger state. *)
Class Lens (S T : Type) := { lget : S -> T; lput : T -> S -> S;
  lget_lput : forall t s, lget (lput t s) = t;
  lput_lget : forall s, lput (lget s) s = s;
  lput_lput : forall t t' s, lput t (lput t' s) = lput t s }.

Fixpoint rlift {S T A} `{Lens S T} (s : S) (r : res T A) : res S A :=
  match r with
  | Ok a t => Ok a (lput t s)
  | Panic m => Panic m
  | Swtch t k => Swtch (lput t s) (fun s' => rlift s' (k (lget s')))
  | NoFuel => NoFuel
  end.

Definition zoom {S T A} `{Lens S T} (c : M T A) : M S A := fun s => rlift s (c (lget s)).

Lemma runs_zoom {S T A} `{Lens S T} (c : M T A) s Q :
  runs (c (lget s)) (fun a t => Q a (lput t s)) -> runs (zoom c s) Q.
Proof. unfold zoom. destruct (c (lget s)); simpl; tauto. Qed.

(** Running a [bind] whose first part is known. *)
Lemma bind_ok {S A B} (c : M S A) (f : A -> M S B) s a s' :
  c s = Ok a s' -> (x ← c; f x) s = f a s'.
Proof. intros H. unfold mbind, M_bind. by rewrite H. Qed.
Lemma bind_cong {S A B} (c c' : M S A) (f : A -> M S B) s :
  c s = c' s -> (x ← c; f x) s = (x ← c'; f x) s.
Proof. intros H. unfold mbind, M_bind. by rewrite H. Qed.
Lemma bind_panic {S A B} (c : M S A) (f : A -> M S B) s msg :
  c s = Panic msg -> (x ← c; f x) s = Panic msg.
Proof. intros H. unfold mbind, M_bind. by rewrite H. Qed.
Lemma bind_nofuel {S A B} (c : M S A) (f : A -> M S B) s :
  c s = NoFuel -> (x ← c; f x) s = NoFuel.
Proof. intros H. unfold mbind, M_bind. by rewrite H. Qed.
Lemma bind_swtch {S A B} (c : M S A) (f : A -> M S B) s s' k :
  c s = Swtch s' k -> (x ← c; f x) s = Swtch s' (fun t => rbind f (k t)).
Proof. intros H. unfold mbind, M_bind. by rewrite H. Qed.
Lemma bind_gets {S A B} (g : S -> A) (f : A -> M S B) s : (x ← gets g; f x) s = f (g s) s.
Proof. done. Qed.
Lemma bind_modify {S B} (g : S -> S) (f : unit -> M S B) s : (x ← modify g; f x) s = f tt (g s).
Proof. done. Qed.
Lemma bind_ret {S A B} (a : A) (f : A -> M S B) s : (x ← mret a; f x) s = f a s.
Proof. done. Qed.

(** Run the leading primitive operations of the goal. *)
Ltac mstep := repeat (rewrite bind_gets || rewrite bind_modify || rewrite bind_ret).
