(* ===== verification/Types.v ===== *)
(** * Constants and shared structures

    The constants of param.h, memlayout.h, riscv.h and fs.h, and the structures
    of proc.h: process states, [struct context] and [struct proc].  Pointers to
    kernel objects that live in a static array are indices of that array
    ([option nat], [None] for the null pointer); pointers to physical pages are
    addresses ([Z], 0 for the null pointer). *)

From S2P Require Import Prelude.
From Stdlib Require Import ZArith Lia.
From stdpp Require Import base list numbers strings.
Open Scope Z_scope.

(** ** param.h *)
Definition NPROC : nat := 64.
Definition NCPU : nat := 8.
Definition NOFILE : nat := 16.
Definition NFILE : nat := 100.
Definition NINODE : nat := 50.
Definition NDEV : Z := 10.
Definition ROOTDEV : Z := 1.
Definition MAXARG : nat := 32.
Definition MAXOPBLOCKS : Z := 10.
Definition LOGBLOCKS : Z := MAXOPBLOCKS * 3.
Definition NBUF : nat := 30.
Definition FSSIZE : Z := 2000.
Definition MAXPATH : Z := 128.
Definition USERSTACK : Z := 1.

(** ** riscv.h: pages and page-table entries *)
Definition PGSIZE : Z := 4096.
Definition PGSHIFT : Z := 12.
Definition PGROUNDUP (sz : Z) : Z := Z.land (u64 (u64 (sz + PGSIZE) - 1)) (u64 (Z.lnot (PGSIZE - 1))).
Definition PGROUNDDOWN (a : Z) : Z := Z.land a (u64 (Z.lnot (PGSIZE - 1))).
Definition PTE_V : Z := Z.shiftl 1 0.
Definition PTE_R : Z := Z.shiftl 1 1.
Definition PTE_W : Z := Z.shiftl 1 2.
Definition PTE_X : Z := Z.shiftl 1 3.
Definition PTE_U : Z := Z.shiftl 1 4.
Definition PA2PTE (pa : Z) : Z := u64 (Z.shiftl (Z.shiftr pa 12) 10).
Definition PTE2PA (pte : Z) : Z := u64 (Z.shiftl (Z.shiftr pte 10) 12).
Definition PTE_FLAGS (pte : Z) : Z := Z.land pte 0x3FF.
Definition PXMASK : Z := 0x1FF.
Definition PXSHIFT (level : Z) : Z := PGSHIFT + 9 * level.
Definition PX (level va : Z) : Z := Z.land (Z.shiftr va (PXSHIFT level)) PXMASK.
Definition MAXVA : Z := Z.shiftl 1 (9 + 9 + 9 + 12 - 1).

(** ** memlayout.h *)
Definition UART0 : Z := 0x10000000.
Definition UART0_IRQ : Z := 10.
Definition VIRTIO0 : Z := 0x10001000.
Definition VIRTIO0_IRQ : Z := 1.
Definition PLIC : Z := 0x0c000000.
Definition KERNBASE : Z := 0x80000000.
Definition PHYSTOP : Z := KERNBASE + 128 * 1024 * 1024.
Definition TRAMPOLINE : Z := MAXVA - PGSIZE.
Definition KSTACK (p : Z) : Z := TRAMPOLINE - (p + 1) * 2 * PGSIZE.
Definition TRAPFRAME : Z := TRAMPOLINE - PGSIZE.

(** ** proc.h *)
Inductive procstate := UNUSED | USED | SLEEPING | RUNNABLE | RUNNING | ZOMBIE.
#[global] Instance procstate_eqdec : EqDecision procstate.
Proof. solve_decision. Defined.

(** The sleep locks of the kernel: one in every buffer of the block cache and
    one in every entry of the inode table. *)
Inductive slid := SlBuf (i : nat) | SlInode (i : nat).
#[global] Instance slid_eqdec : EqDecision slid.
Proof. solve_decision. Defined.

(** The addresses the kernel sleeps on.  Each constructor is one object whose
    address is used as a wait channel. *)
Inductive channel :=
  | ChProc (i : nat)        (* &proc[i], in kwait *)
  | ChTicks                 (* &ticks *)
  | ChLog                   (* &log *)
  | ChSleeplock (l : slid)  (* a struct sleeplock *)
  | ChPipeRead (pi : Z)     (* &pi->nread *)
  | ChPipeWrite (pi : Z)    (* &pi->nwrite *)
  | ChConsR                 (* &cons.r *)
  | ChUartTx                (* &tx_chan *)
  | ChDiskFree              (* &disk.free[0] *)
  | ChBuf (b : nat).        (* a struct buf *)
#[global] Instance channel_eqdec : EqDecision channel.
Proof. solve_decision. Defined.

Record context := mkcontext { ctx_ra : Z; ctx_sp : Z; ctx_s0 : Z; ctx_s1 : Z; ctx_s2 : Z;
  ctx_s3 : Z; ctx_s4 : Z; ctx_s5 : Z; ctx_s6 : Z; ctx_s7 : Z; ctx_s8 : Z; ctx_s9 : Z;
  ctx_s10 : Z; ctx_s11 : Z }.
Definition zero_context : context := mkcontext 0 0 0 0 0 0 0 0 0 0 0 0 0 0.

Record proc := mkproc {
  p_state : procstate;  (* Process state *)
  p_chan : option channel;  (* If non-zero, sleeping on chan *)
  p_killed : Z;  (* If non-zero, have been killed *)
  p_xstate : Z;  (* Exit status *)
  p_pid : Z;  (* Process ID *)
  p_parent : option nat;  (* Parent process, an index of proc[] *)
  p_kstack : Z;  (* Virtual address of kernel stack *)
  p_sz : Z;  (* Size of process memory (bytes) *)
  p_pagetable : Z;  (* User page table, a physical address *)
  p_trapframe : Z;  (* Trapframe page, a physical address *)
  p_context : context;  (* swtch() here to run process *)
  p_ofile : list (option nat);  (* Open files, indices of ftable.file[] *)
  p_cwd : option nat;  (* Current directory, an index of itable.inode[] *)
  p_name : list Z;  (* Process name, 16 bytes *)
  p_tickets : Z;  (* Number of lottery tickets *)
  p_ticks : Z   (* Number of times scheduled *)
}.

(** A process slot of the zeroed .bss. *)
Definition zero_proc : proc :=
  mkproc UNUSED None 0 0 0 None 0 0 0 0 zero_context (replicate NOFILE None) None (replicate 16 0) 0 0.

(** Assignments to one field. *)
Definition set_state (x : procstate) (p : proc) : proc :=
  mkproc x (p.(p_chan)) (p.(p_killed)) (p.(p_xstate)) (p.(p_pid)) (p.(p_parent)) (p.(p_kstack)) (p.(p_sz))
    (p.(p_pagetable)) (p.(p_trapframe)) (p.(p_context)) (p.(p_ofile)) (p.(p_cwd)) (p.(p_name)) (p.(p_tickets)) (p.(p_ticks)).
Definition set_chan (x : option channel) (p : proc) : proc :=
  mkproc (p.(p_state)) x (p.(p_killed)) (p.(p_xstate)) (p.(p_pid)) (p.(p_parent)) (p.(p_kstack)) (p.(p_sz))
    (p.(p_pagetable)) (p.(p_trapframe)) (p.(p_context)) (p.(p_ofile)) (p.(p_cwd)) (p.(p_name)) (p.(p_tickets)) (p.(p_ticks)).
Definition set_killed (x : Z) (p : proc) : proc :=
  mkproc (p.(p_state)) (p.(p_chan)) x (p.(p_xstate)) (p.(p_pid)) (p.(p_parent)) (p.(p_kstack)) (p.(p_sz))
    (p.(p_pagetable)) (p.(p_trapframe)) (p.(p_context)) (p.(p_ofile)) (p.(p_cwd)) (p.(p_name)) (p.(p_tickets)) (p.(p_ticks)).
Definition set_xstate (x : Z) (p : proc) : proc :=
  mkproc (p.(p_state)) (p.(p_chan)) (p.(p_killed)) x (p.(p_pid)) (p.(p_parent)) (p.(p_kstack)) (p.(p_sz))
    (p.(p_pagetable)) (p.(p_trapframe)) (p.(p_context)) (p.(p_ofile)) (p.(p_cwd)) (p.(p_name)) (p.(p_tickets)) (p.(p_ticks)).
Definition set_pid (x : Z) (p : proc) : proc :=
  mkproc (p.(p_state)) (p.(p_chan)) (p.(p_killed)) (p.(p_xstate)) x (p.(p_parent)) (p.(p_kstack)) (p.(p_sz))
    (p.(p_pagetable)) (p.(p_trapframe)) (p.(p_context)) (p.(p_ofile)) (p.(p_cwd)) (p.(p_name)) (p.(p_tickets)) (p.(p_ticks)).
Definition set_parent (x : option nat) (p : proc) : proc :=
  mkproc (p.(p_state)) (p.(p_chan)) (p.(p_killed)) (p.(p_xstate)) (p.(p_pid)) x (p.(p_kstack)) (p.(p_sz))
    (p.(p_pagetable)) (p.(p_trapframe)) (p.(p_context)) (p.(p_ofile)) (p.(p_cwd)) (p.(p_name)) (p.(p_tickets)) (p.(p_ticks)).
Definition set_kstack (x : Z) (p : proc) : proc :=
  mkproc (p.(p_state)) (p.(p_chan)) (p.(p_killed)) (p.(p_xstate)) (p.(p_pid)) (p.(p_parent)) x (p.(p_sz))
    (p.(p_pagetable)) (p.(p_trapframe)) (p.(p_context)) (p.(p_ofile)) (p.(p_cwd)) (p.(p_name)) (p.(p_tickets)) (p.(p_ticks)).
Definition set_sz (x : Z) (p : proc) : proc :=
  mkproc (p.(p_state)) (p.(p_chan)) (p.(p_killed)) (p.(p_xstate)) (p.(p_pid)) (p.(p_parent)) (p.(p_kstack)) x
    (p.(p_pagetable)) (p.(p_trapframe)) (p.(p_context)) (p.(p_ofile)) (p.(p_cwd)) (p.(p_name)) (p.(p_tickets)) (p.(p_ticks)).
Definition set_pagetable (x : Z) (p : proc) : proc :=
  mkproc (p.(p_state)) (p.(p_chan)) (p.(p_killed)) (p.(p_xstate)) (p.(p_pid)) (p.(p_parent)) (p.(p_kstack)) (p.(p_sz))
    x (p.(p_trapframe)) (p.(p_context)) (p.(p_ofile)) (p.(p_cwd)) (p.(p_name)) (p.(p_tickets)) (p.(p_ticks)).
Definition set_trapframe (x : Z) (p : proc) : proc :=
  mkproc (p.(p_state)) (p.(p_chan)) (p.(p_killed)) (p.(p_xstate)) (p.(p_pid)) (p.(p_parent)) (p.(p_kstack)) (p.(p_sz))
    (p.(p_pagetable)) x (p.(p_context)) (p.(p_ofile)) (p.(p_cwd)) (p.(p_name)) (p.(p_tickets)) (p.(p_ticks)).
Definition set_context (x : context) (p : proc) : proc :=
  mkproc (p.(p_state)) (p.(p_chan)) (p.(p_killed)) (p.(p_xstate)) (p.(p_pid)) (p.(p_parent)) (p.(p_kstack)) (p.(p_sz))
    (p.(p_pagetable)) (p.(p_trapframe)) x (p.(p_ofile)) (p.(p_cwd)) (p.(p_name)) (p.(p_tickets)) (p.(p_ticks)).
Definition set_ofile (x : list (option nat)) (p : proc) : proc :=
  mkproc (p.(p_state)) (p.(p_chan)) (p.(p_killed)) (p.(p_xstate)) (p.(p_pid)) (p.(p_parent)) (p.(p_kstack)) (p.(p_sz))
    (p.(p_pagetable)) (p.(p_trapframe)) (p.(p_context)) x (p.(p_cwd)) (p.(p_name)) (p.(p_tickets)) (p.(p_ticks)).
Definition set_cwd (x : option nat) (p : proc) : proc :=
  mkproc (p.(p_state)) (p.(p_chan)) (p.(p_killed)) (p.(p_xstate)) (p.(p_pid)) (p.(p_parent)) (p.(p_kstack)) (p.(p_sz))
    (p.(p_pagetable)) (p.(p_trapframe)) (p.(p_context)) (p.(p_ofile)) x (p.(p_name)) (p.(p_tickets)) (p.(p_ticks)).
Definition set_name (x : list Z) (p : proc) : proc :=
  mkproc (p.(p_state)) (p.(p_chan)) (p.(p_killed)) (p.(p_xstate)) (p.(p_pid)) (p.(p_parent)) (p.(p_kstack)) (p.(p_sz))
    (p.(p_pagetable)) (p.(p_trapframe)) (p.(p_context)) (p.(p_ofile)) (p.(p_cwd)) x (p.(p_tickets)) (p.(p_ticks)).
Definition set_tickets (x : Z) (p : proc) : proc :=
  mkproc (p.(p_state)) (p.(p_chan)) (p.(p_killed)) (p.(p_xstate)) (p.(p_pid)) (p.(p_parent)) (p.(p_kstack)) (p.(p_sz))
    (p.(p_pagetable)) (p.(p_trapframe)) (p.(p_context)) (p.(p_ofile)) (p.(p_cwd)) (p.(p_name)) x (p.(p_ticks)).
Definition set_ticks (x : Z) (p : proc) : proc :=
  mkproc (p.(p_state)) (p.(p_chan)) (p.(p_killed)) (p.(p_xstate)) (p.(p_pid)) (p.(p_parent)) (p.(p_kstack)) (p.(p_sz))
    (p.(p_pagetable)) (p.(p_trapframe)) (p.(p_context)) (p.(p_ofile)) (p.(p_cwd)) (p.(p_name)) (p.(p_tickets)) x.
