(* ===== verification/Str.v ===== *)
(** * kernel/string.c: the loops

    Each C loop is a recursion on its counter.  [memset_loop] and [memmove_loop]
    compute the bulk operations of [Mem.v]; the string functions are
    characterised by the bytes they read up to the first NUL. *)

From S2P Require Import Prelude Types Mem.
From Stdlib Require Import ZArith Lia.
From stdpp Require Import base list numbers.
Open Scope Z_scope.

(** ** Model *)

(** for(i = 0; i < n; i++) cdst[i] = c; *)
Fixpoint memset_loop (m : mem) (dst c : Z) (n : nat) : mem :=
  match n with
  | O => m
  | S n' => memset_loop (upd m dst (u8 c)) (dst + 1) c n'
  end.

Fixpoint memcmp (m : mem) (s1 s2 : Z) (n : nat) : Z :=
  match n with
  | O => 0
  | S n' => if m s1 =? m s2 then memcmp m (s1 + 1) (s2 + 1) n' else m s1 - m s2
  end.

(** while(n-- > 0) *d++ = *s++; *)
Fixpoint copy_forward (m : mem) (d s : Z) (n : nat) : mem :=
  match n with
  | O => m
  | S n' => copy_forward (upd m d (m s)) (d + 1) (s + 1) n'
  end.

(** while(n-- > 0) *--d = *--s; *)
Fixpoint copy_backward (m : mem) (d s : Z) (n : nat) : mem :=
  match n with
  | O => m
  | S n' => copy_backward (upd m (d - 1) (m (s - 1))) (d - 1) (s - 1) n'
  end.

Definition memmove_loop (m : mem) (dst src : Z) (n : nat) : mem :=
  if Nat.eqb n 0 then m
  else if (src <? dst) && (dst <? src + Z.of_nat n)
       then copy_backward m (dst + Z.of_nat n) (src + Z.of_nat n) n
       else copy_forward m dst src n.

Fixpoint strncmp (m : mem) (p q : Z) (n : nat) : Z :=
  match n with
  | O => 0
  | S n' => if negb (m p =? 0) && (m p =? m q) then strncmp m (p + 1) (q + 1) n' else m p - m q
  end.

(** while(n-- > 0) *s++ = 0; *)
Fixpoint zero_fill (m : mem) (s : Z) (n : nat) : mem :=
  match n with O => m | S n' => zero_fill (upd m s 0) (s + 1) n' end.

Fixpoint strncpy (m : mem) (s t : Z) (n : nat) : mem :=
  match n with
  | O => m
  | S n' =>
      let m' := upd m s (m t) in
      if m t =? 0 then zero_fill m' (s + 1) n' else strncpy m' (s + 1) (t + 1) n'
  end.

(** while(--n > 0 && ( *s++ = *t++ ) != 0) ; *s = 0;  where [k] is [n - 1]. *)
Fixpoint safestrcpy_loop (m : mem) (s t : Z) (k : nat) : mem :=
  match k with
  | O => upd m s 0
  | S k' =>
      let m' := upd m s (m t) in
      if m t =? 0 then upd m' (s + 1) 0 else safestrcpy_loop m' (s + 1) (t + 1) k'
  end.
Definition safestrcpy (m : mem) (s t n : Z) : mem :=
  if n <=? 0 then m else safestrcpy_loop m s t (Z.to_nat (n - 1)).

(** The loop has no bound in C; [fuel] bounds the bytes examined. *)
Fixpoint strlen (fuel : nat) (m : mem) (s : Z) : option Z :=
  match fuel with
  | O => None
  | S f => if m s =? 0 then Some 0 else (fun n => n + 1) <$> strlen f m (s + 1)
  end.

(** ** Lemmas *)

Lemma upd_eq m a v : upd m a v a = v.
Proof. unfold upd. by rewrite Z.eqb_refl. Qed.
Lemma upd_ne m a v x : x ≠ a -> upd m a v x = m x.
Proof. intros H. unfold upd. by destruct (Z.eqb_spec x a). Qed.

Ltac upd_simpl :=
  repeat match goal with
  | |- context [upd ?m ?a ?v ?a] => rewrite (upd_eq m a v)
  | |- context [upd ?m ?a ?v ?x] => rewrite (upd_ne m a v x) by lia
  end.

Lemma memset_loop_spec n m dst c x : memset_loop m dst c n x = memset m dst c (Z.of_nat n) x.
Proof.
  revert m dst. induction n as [|n IH]; intros m dst; cbn [memset_loop].
  { by rewrite memset_out by lia. }
  rewrite IH. destruct (Z.eq_dec x dst) as [->|Hne].
  - rewrite memset_out, memset_in by lia. apply upd_eq.
  - assert (dst + 1 <= x < dst + 1 + Z.of_nat n \/ ~ (dst <= x < dst + Z.of_nat (S n))) as [H|H] by lia.
    + by rewrite !memset_in by lia.
    + rewrite !memset_out by lia. by rewrite upd_ne.
Qed.

Lemma copy_forward_spec n m d s x :
  ~ (s < d < s + Z.of_nat n) -> copy_forward m d s n x = memmove m d s (Z.of_nat n) x.
Proof.
  revert m d s. induction n as [|n IH]; intros m d s H; cbn [copy_forward].
  { by rewrite memmove_out by lia. }
  rewrite IH by lia. destruct (Z.eq_dec x d) as [->|Hne].
  - rewrite memmove_out, memmove_in by lia. rewrite upd_eq. f_equal. lia.
  - assert (d + 1 <= x < d + 1 + Z.of_nat n \/ ~ (d <= x < d + Z.of_nat (S n))) as [Hx|Hx] by lia.
    + rewrite !memmove_in by lia. rewrite upd_ne by lia. f_equal. lia.
    + rewrite !memmove_out by lia. by rewrite upd_ne.
Qed.

Lemma copy_backward_spec n m d s x :
  s <= d -> copy_backward m (d + Z.of_nat n) (s + Z.of_nat n) n x = memmove m d s (Z.of_nat n) x.
Proof.
  revert m. induction n as [|n IH]; intros m H; cbn [copy_backward].
  { by rewrite memmove_out by lia. }
  replace (d + Z.of_nat (S n) - 1) with (d + Z.of_nat n) by lia.
  replace (s + Z.of_nat (S n) - 1) with (s + Z.of_nat n) by lia.
  rewrite IH by lia. destruct (Z.eq_dec x (d + Z.of_nat n)) as [->|Hne].
  - rewrite memmove_out, memmove_in by lia. rewrite upd_eq. f_equal. lia.
  - assert (d <= x < d + Z.of_nat n \/ ~ (d <= x < d + Z.of_nat (S n))) as [Hx|Hx] by lia.
    + rewrite !memmove_in by lia. by rewrite upd_ne by lia.
    + rewrite !memmove_out by lia. by rewrite upd_ne by lia.
Qed.

Lemma zero_fill_spec n m s x :
  zero_fill m s n x = if (s <=? x) && (x <? s + Z.of_nat n) then 0 else m x.
Proof.
  revert m s. induction n as [|n IH]; intros m s; cbn [zero_fill].
  - destruct (Z.leb_spec s x), (Z.ltb_spec x (s + Z.of_nat 0)); simpl; try done; lia.
  - rewrite IH. unfold upd.
    destruct (Z.leb_spec (s + 1) x), (Z.ltb_spec x (s + 1 + Z.of_nat n)), (Z.eqb_spec x s),
      (Z.leb_spec s x), (Z.ltb_spec x (s + Z.of_nat (S n))); simpl; try done; lia.
Qed.

(** No NUL among the first [i] bytes of the string at [t]. *)
Definition no_nul (m : mem) (t : Z) (i : Z) : Prop := forall j, 0 <= j < i -> m (t + j) ≠ 0.

(** [strncpy] writes the string padded with NULs, and nothing else. *)
Lemma strncpy_spec n m s t x :
  (s + Z.of_nat n <= t \/ t + Z.of_nat n <= s) ->
  (no_nul m t (x - s) -> s <= x < s + Z.of_nat n -> strncpy m s t n x = m (t + (x - s))) /\
  (~ no_nul m t (x - s) -> s <= x < s + Z.of_nat n -> strncpy m s t n x = 0) /\
  (~ (s <= x < s + Z.of_nat n) -> strncpy m s t n x = m x).
Proof.
  revert m s t. induction n as [|n IH]; intros m s t Hd; cbn [strncpy]; [repeat split; intros; lia|].
  destruct (Z.eqb_spec (m t) 0) as [Ht|Ht].
  - assert (Hz : forall x, zero_fill (upd m s (m t)) (s + 1) n x =
        if (s <=? x) && (x <? s + Z.of_nat (S n)) then 0 else m x).
    { intros y. rewrite zero_fill_spec. unfold upd.
      destruct (Z.leb_spec (s + 1) y), (Z.ltb_spec y (s + 1 + Z.of_nat n)), (Z.eqb_spec y s),
        (Z.leb_spec s y), (Z.ltb_spec y (s + Z.of_nat (S n))); simpl; try done; lia. }
    rewrite Hz. destruct (Z.leb_spec s x), (Z.ltb_spec x (s + Z.of_nat (S n))); simpl;
      repeat split; intros; try lia.
    destruct (Z.eq_dec x s) as [->|]; [rewrite <- Ht; f_equal; lia|].
    exfalso. apply (H1 0); [lia|]. by rewrite Z.add_0_r.
  - destruct (Z.eq_dec x s) as [->|Hx].
    + destruct (IH (upd m s (m t)) (s + 1) (t + 1) ltac:(lia)) as (_ & _ & H).
      rewrite H by lia. rewrite upd_eq. rewrite Z.sub_diag.
      repeat split; intros Hn; try lia; [intros; f_equal; lia|].
      exfalso. apply Hn. intros j. lia.
    + destruct (IH (upd m s (m t)) (s + 1) (t + 1) ltac:(lia)) as (H1 & H2 & H3).
      assert (Hnn : s <= x < s + Z.of_nat (S n) ->
                    no_nul (upd m s (m t)) (t + 1) (x - (s + 1)) <-> no_nul m t (x - s)).
      { intros Hin. split; intros Hn j Hj.
        - destruct (Z.eq_dec j 0) as [->|]; [by rewrite Z.add_0_r|].
          specialize (Hn (j - 1) ltac:(lia)). rewrite upd_ne in Hn by lia.
          by replace (t + 1 + (j - 1)) with (t + j) in Hn by lia.
        - rewrite upd_ne by lia. replace (t + 1 + j) with (t + (j + 1)) by lia. apply Hn. lia. }
      split; [intros Hn Hin|split; [intros Hn Hin|intros Hout]].
      * rewrite H1 by (rewrite ?Hnn; auto; lia). rewrite upd_ne by lia. f_equal. lia.
      * apply H2; [rewrite Hnn; auto|lia].
      * rewrite H3 by lia. by rewrite upd_ne.
Qed.

(** [strncmp] answers 0 exactly when the strings agree up to the first NUL or
    [n] bytes. *)
Lemma strncmp_zero n m p q :
  strncmp m p q n = 0 <->
  forall i, 0 <= i < Z.of_nat n -> no_nul m p i -> m (p + i) = m (q + i).
Proof.
  revert p q. induction n as [|n IH]; intros p q; cbn [strncmp]; [split; [intros; lia|done]|].
  destruct (Z.eqb_spec (m p) 0) as [Hp|Hp], (Z.eqb_spec (m p) (m q)) as [He|He]; simpl.
  - split; [|lia]. intros _ i Hi Hn. destruct (Z.eq_dec i 0) as [->|]; [by rewrite !Z.add_0_r|].
    exfalso. apply (Hn 0); [lia|]. by rewrite Z.add_0_r.
  - split; [lia|]. intros H. exfalso. apply He. specialize (H 0 ltac:(lia)).
    rewrite !Z.add_0_r in H. apply H. intros j. lia.
  - rewrite IH. split; intros H i Hi Hn.
    + destruct (Z.eq_dec i 0) as [->|]; [by rewrite !Z.add_0_r|].
      specialize (H (i - 1) ltac:(lia)). replace (p + 1 + (i - 1)) with (p + i) in H by lia.
      replace (q + 1 + (i - 1)) with (q + i) in H by lia. apply H. intros j Hj.
      replace (p + 1 + j) with (p + (j + 1)) by lia. apply Hn. lia.
    + specialize (H (i + 1) ltac:(lia)). replace (p + (i + 1)) with (p + 1 + i) in H by lia.
      replace (q + (i + 1)) with (q + 1 + i) in H by lia. apply H. intros j Hj.
      destruct (Z.eq_dec j 0) as [->|]; [by rewrite Z.add_0_r|].
      replace (p + j) with (p + 1 + (j - 1)) by lia. apply Hn. lia.
  - split; [lia|]. intros H. exfalso. apply He. specialize (H 0 ltac:(lia)).
    rewrite !Z.add_0_r in H. apply H. intros j. lia.
Qed.

(** [safestrcpy] leaves, within its [n] bytes, the source string cut to at most
    [n - 1] bytes and a NUL. *)
Lemma safestrcpy_loop_spec k m s t :
  (s + Z.of_nat k + 1 <= t \/ t + Z.of_nat k <= s) ->
  exists i, 0 <= i <= Z.of_nat k /\ safestrcpy_loop m s t k (s + i) = 0 /\
    (forall j, 0 <= j < i -> safestrcpy_loop m s t k (s + j) = m (t + j) /\ m (t + j) ≠ 0) /\
    (i < Z.of_nat k -> m (t + i) = 0) /\
    (forall x, ~ (s <= x < s + Z.of_nat k + 1) -> safestrcpy_loop m s t k x = m x).
Proof.
  revert m s t. induction k as [|k IH]; intros m s t Hd; cbn [safestrcpy_loop].
  { exists 0. rewrite Z.add_0_r. repeat split; try lia; [apply upd_eq|intros x Hx].
    by rewrite upd_ne by lia. }
  destruct (Z.eqb_spec (m t) 0) as [Ht|Ht].
  - exists 0. rewrite !Z.add_0_r. repeat split; try lia.
    + upd_simpl. done.
    + intros x Hx. by upd_simpl.
  - destruct (IH (upd m s (m t)) (s + 1) (t + 1) ltac:(lia)) as (i & Hi & Hz & Hc & Hn & Ho).
    exists (i + 1). split; [lia|]. split; [by replace (s + (i + 1)) with (s + 1 + i) by lia|].
    split; [|split].
    + intros j Hj. destruct (Z.eq_dec j 0) as [->|].
      * rewrite !Z.add_0_r. rewrite Ho by lia. by rewrite upd_eq.
      * specialize (Hc (j - 1) ltac:(lia)). rewrite upd_ne in Hc by lia.
        replace (s + 1 + (j - 1)) with (s + j) in Hc by lia.
        by replace (t + 1 + (j - 1)) with (t + j) in Hc by lia.
    + intros Hlt. specialize (Hn ltac:(lia)). rewrite upd_ne in Hn by lia.
      by replace (t + (i + 1)) with (t + 1 + i) by lia.
    + intros x Hx. rewrite Ho by lia. by rewrite upd_ne by lia.
Qed.

(** ** Theorems *)

(** [memmove] copies correctly whatever the overlap: afterwards every byte of
    the destination is the byte the source held before the call, and the rest
    of memory is unchanged. *)
Theorem memmove_loop_correct m dst src n x :
  memmove_loop m dst src n x = memmove m dst src (Z.of_nat n) x.
Proof.
  unfold memmove_loop. destruct (Nat.eqb_spec n 0) as [->|Hn]; [by rewrite memmove_out by lia|].
  destruct (Z.ltb_spec src dst), (Z.ltb_spec dst (src + Z.of_nat n)); simpl;
    try (apply copy_forward_spec; lia).
  apply copy_backward_spec. lia.
Qed.

(** Directory names survive being stored: comparing (as [namecmp] does) a
    name with the field [strncpy] filled from it answers 0, whether or not the
    name fits the field with a NUL. *)
Theorem strncpy_strncmp m s t n :
  (s + Z.of_nat n <= t \/ t + Z.of_nat n <= s) -> strncmp (strncpy m s t n) t s n = 0.
Proof.
  intros Hd. apply strncmp_zero. intros i Hi Hn.
  assert (Ht : forall j, 0 <= j < Z.of_nat n -> strncpy m s t n (t + j) = m (t + j)).
  { intros j Hj. destruct (strncpy_spec n m s t (t + j) Hd) as (_ & _ & H). apply H. lia. }
  rewrite Ht by lia.
  destruct (strncpy_spec n m s t (s + i) Hd) as (H1 & _ & _).
  replace (s + i - s) with i in H1 by lia. symmetry. apply H1; [|lia].
  intros j Hj. rewrite <- Ht by lia. by apply Hn.
Qed.

(** [safestrcpy] NUL-terminates: within [n] bytes the destination holds the
    source string cut to [n - 1] bytes followed by a NUL, and no byte outside
    them changes. *)
Theorem safestrcpy_terminates m s t n :
  0 < n -> (s + n <= t \/ t + n <= s) ->
  exists i, 0 <= i < n /\ safestrcpy m s t n (s + i) = 0 /\
    (forall j, 0 <= j < i -> safestrcpy m s t n (s + j) = m (t + j) /\ m (t + j) ≠ 0) /\
    (i < n - 1 -> m (t + i) = 0) /\
    (forall x, ~ (s <= x < s + n) -> safestrcpy m s t n x = m x).
Proof.
  intros Hn Hd. unfold safestrcpy. destruct (Z.leb_spec n 0); [lia|].
  destruct (safestrcpy_loop_spec (Z.to_nat (n - 1)) m s t ltac:(lia)) as (i & H1 & H2 & H3 & H4 & H5).
  exists i. split; [lia|]. split; [done|]. split; [done|]. split; intros; [apply H4|apply H5]; lia.
Qed.

(** ** Witnesses *)

Lemma strncpy_strncmp_witness :
  strncmp (strncpy (fun a => if a =? 100 then 46 else 0) 0 100 14) 100 0 14 = 0.
Proof. apply (strncpy_strncmp (fun a => if a =? 100 then 46 else 0) 0 100 14). lia. Defined.

Lemma safestrcpy_terminates_witness :
  exists i, 0 <= i < 16 /\ safestrcpy (fun a => a mod 7) 0 100 16 (0 + i) = 0 /\
    (forall j, 0 <= j < i -> safestrcpy (fun a => a mod 7) 0 100 16 (0 + j) = (100 + j) mod 7 /\
       (100 + j) mod 7 ≠ 0) /\
    (i < 16 - 1 -> (100 + i) mod 7 = 0) /\
    (forall x, ~ (0 <= x < 0 + 16) -> safestrcpy (fun a => a mod 7) 0 100 16 x = x mod 7).
Proof. apply (safestrcpy_terminates (fun a => a mod 7) 0 100 16); lia. Defined.
