(* ===== verification/Lottery.v ===== *)
(** * The lottery: kernel/proc.c, [rand_next] and the two passes of [scheduler]

    The random number generator, the ticket count of the first pass, the draw
    and the second pass that finds the winner, as functions of the process
    table the passes read.  [Proc.v] runs them in the kernel.

    The theorems show that a draw picks each runnable process for exactly as
    many winning tickets as it holds, that the generator has full period, that
    over one period every process wins in proportion to its tickets, for a
    ticket total that fits an [int], and what happens beyond. *)

From S2P Require Import Prelude Types.
From Stdlib Require Import ZArith Lia.
From stdpp Require Import base list numbers.
Open Scope Z_scope.

(** ** Model *)

(** [rand_state * 1664525 + 1013904223] in [uint] arithmetic: the new state,
    which is also the value returned. *)
Definition rand_next (rand_state : Z) : Z := u32 (rand_state * 1664525 + 1013904223).

Definition runnable (p : proc) : bool := bool_decide (p.(p_state) = RUNNABLE).

(** First pass: the tickets of the RUNNABLE processes, summed in an [int]. *)
Definition total_tickets (ps : list proc) : Z :=
  foldl (fun total p => if runnable p then i32 (total + p.(p_tickets)) else total) 0 ps.

(** [int winner = rand_next() % total]: the [int] operand is converted to
    [uint], and the result back to [int]. *)
Definition draw (r total : Z) : Z := i32 (r mod u32 total).

(** Second pass, from slot [i] on with the tickets seen so far in [counter]. *)
Fixpoint pick_from (winner counter : Z) (i : nat) (ps : list proc) : option nat :=
  match ps with
  | [] => None
  | p :: ps' =>
      if runnable p then
        let counter' := i32 (counter + p.(p_tickets)) in
        if winner <? counter' then Some i else pick_from winner counter' (S i) ps'
      else pick_from winner counter (S i) ps'
  end.
Definition pick (winner : Z) (ps : list proc) : option nat := pick_from winner 0 0 ps.

(** One round of [scheduler] over an undisturbed table: the new generator state
    and the slot to run, [None] when the CPU idles. *)
Definition lottery (rand_state : Z) (ps : list proc) : Z * option nat :=
  let total := total_tickets ps in
  if total =? 0 then (rand_state, None)
  else let r := rand_next rand_state in (r, pick (draw r total) ps).

(** ** Counting *)

Definition count {A} (P : A -> Prop) `{!forall x, Decision (P x)} (l : list A) : nat :=
  length (filter P l).

Section count.
Context {A : Type}.
Implicit Types P Q : A -> Prop.

Lemma count_app P `{!forall x, Decision (P x)} l1 l2 :
  count P (l1 ++ l2) = (count P l1 + count P l2)%nat.
Proof. unfold count. by rewrite list.filter_app, length_app. Qed.

Lemma count_ext P Q `{!forall x, Decision (P x)} `{!forall x, Decision (Q x)} l :
  (forall x, x ∈ l -> P x <-> Q x) -> count P l = count Q l.
Proof.
  unfold count. induction l as [|x l IH]; intros HP; [done|].
  rewrite !filter_cons.
  assert (IH' : length (filter P l) = length (filter Q l)) by (apply IH; intros; apply HP; by right).
  assert (P x <-> Q x) by (apply HP; by left).
  repeat case_decide; simpl; try tauto; lia.
Qed.

Lemma count_fmap {B} (f : B -> A) P `{!forall x, Decision (P x)} (l : list B) :
  count P (f <$> l) = count (fun x => P (f x)) l.
Proof.
  unfold count. induction l as [|x l IH]; [done|]. rewrite fmap_cons, !filter_cons.
  case_decide; simpl; [f_equal|]; exact IH.
Qed.

Lemma count_perm P `{!forall x, Decision (P x)} l1 l2 :
  l1 ≡ₚ l2 -> count P l1 = count P l2.
Proof. intros HP. unfold count. by rewrite HP. Qed.

Lemma count_none P `{!forall x, Decision (P x)} l :
  (forall x, x ∈ l -> ¬ P x) -> count P l = 0%nat.
Proof.
  unfold count. induction l as [|x l IH]; intros HP; [done|].
  rewrite filter_cons_False by (apply HP; by left). apply IH. intros; apply HP; by right.
Qed.

Lemma count_all P `{!forall x, Decision (P x)} l :
  (forall x, x ∈ l -> P x) -> count P l = length l.
Proof.
  unfold count. induction l as [|x l IH]; intros HP; [done|].
  rewrite filter_cons_True by (apply HP; by left). simpl. f_equal. apply IH. intros; apply HP; by right.
Qed.
End count.

(** The integers of [[lo, hi)] among those of [[m, m + n)]. *)
Lemma count_interval m n lo hi :
  m <= lo -> lo <= hi -> hi <= m + n ->
  count (fun w => lo <= w < hi) (seqZ m n) = Z.to_nat (hi - lo).
Proof.
  intros H1 H2 H3.
  replace n with ((lo - m) + ((hi - lo) + (m + n - hi))) by lia.
  rewrite !seqZ_app by lia. rewrite !count_app.
  rewrite (count_none _ (seqZ m _)) by (intros x ?%elem_of_seqZ; lia).
  rewrite (count_all _ (seqZ (m + (lo - m)) _)) by (intros x ?%elem_of_seqZ; lia).
  rewrite (count_none _ (seqZ (m + (lo - m) + (hi - lo)) _)) by (intros x ?%elem_of_seqZ; lia).
  rewrite length_seqZ. lia.
Qed.

(** ** The draw picks in proportion to the tickets *)

(** Tickets of the runnable processes of a table, as an unbounded sum. *)
Fixpoint ticket_sum (ps : list proc) : Z :=
  match ps with
  | [] => 0
  | p :: ps' => (if runnable p then p.(p_tickets) else 0) + ticket_sum ps'
  end.

(** No runnable process is without a ticket (the type invariant [Proc.v] proves
    of every kernel operation) and the sum fits an [int]. *)
Definition tickets_ok (ps : list proc) : Prop :=
  Forall (fun p => runnable p = true -> 1 <= p.(p_tickets)) ps /\ ticket_sum ps <= INT_MAX.

Lemma ticket_sum_nonneg ps :
  Forall (fun p => runnable p = true -> 1 <= p.(p_tickets)) ps -> 0 <= ticket_sum ps.
Proof.
  induction 1 as [|p ps Hp _ IH]; simpl; [lia|].
  destruct (runnable p); [specialize (Hp eq_refl)|]; lia.
Qed.

Lemma ticket_sum_app ps qs : ticket_sum (ps ++ qs) = ticket_sum ps + ticket_sum qs.
Proof. induction ps as [|p ps IH]; simpl; lia. Qed.

Lemma foldl_total ps acc :
  Forall (fun p => runnable p = true -> 1 <= p.(p_tickets)) ps ->
  0 <= acc -> acc + ticket_sum ps <= INT_MAX ->
  foldl (fun total p => if runnable p then i32 (total + p.(p_tickets)) else total) acc ps
  = acc + ticket_sum ps.
Proof.
  unfold INT_MAX. intros Hps. revert acc.
  induction Hps as [|p ps Hp Hps IH]; intros acc Hacc Hsum; simpl in *; [lia|].
  pose proof (ticket_sum_nonneg ps Hps).
  destruct (runnable p); [specialize (Hp eq_refl)|].
  - rewrite i32_small by lia. rewrite IH; lia.
  - rewrite IH; lia.
Qed.

Lemma total_tickets_sum ps : tickets_ok ps -> total_tickets ps = ticket_sum ps.
Proof. intros [H1 H2]. unfold total_tickets. rewrite foldl_total; auto; lia. Qed.

(** The winner is the process whose interval of tickets holds the draw. *)
Lemma pick_from_spec ps winner counter i0 i :
  Forall (fun p => runnable p = true -> 1 <= p.(p_tickets)) ps ->
  0 <= counter <= winner -> counter + ticket_sum ps <= INT_MAX ->
  pick_from winner counter i0 ps = Some i <->
  exists k p, i = (i0 + k)%nat /\ ps !! k = Some p /\ runnable p = true /\
    counter + ticket_sum (take k ps) <= winner < counter + ticket_sum (take k ps) + p.(p_tickets).
Proof.
  unfold INT_MAX. intros Hps. revert counter i0.
  induction Hps as [|q ps Hq Hps IH]; intros counter i0 Hc Hsum; simpl in *.
  { split; [done|]. intros (k & p & _ & H & _). by rewrite lookup_nil in H. }
  pose proof (ticket_sum_nonneg ps Hps) as Hnn.
  destruct (runnable q) eqn:Hr.
  - specialize (Hq eq_refl). rewrite i32_small by lia.
    destruct (Z.ltb_spec winner (counter + p_tickets q)) as [Hlt|Hge].
    + split.
      * intros [= <-]. exists 0%nat, q. simpl. repeat split; auto; lia.
      * intros ([|k] & p & -> & Hk & Hp & Hw); [f_equal; lia|]. simpl in *.
        rewrite Hr in Hw.
        pose proof (ticket_sum_nonneg _ (Forall_take _ k _ Hps)). lia.
    + rewrite IH by lia. split.
      * intros (k & p & -> & Hk & Hp & Hw). exists (S k), p. simpl. rewrite Hr.
        repeat split; auto; lia.
      * intros ([|k] & p & -> & Hk & Hp & Hw); simpl in *; [simplify_eq; lia|].
        rewrite Hr in Hw. exists k, p. repeat split; auto; lia.
  - rewrite IH by lia. split.
    + intros (k & p & -> & Hk & Hp & Hw). exists (S k), p. simpl. rewrite Hr.
      repeat split; auto; lia.
    + intros ([|k] & p & -> & Hk & Hp & Hw); simpl in *; [simplify_eq; congruence|].
      rewrite Hr in Hw. exists k, p. repeat split; auto; lia.
Qed.

Lemma pick_spec ps winner i :
  tickets_ok ps -> 0 <= winner ->
  pick winner ps = Some i <->
  exists p, ps !! i = Some p /\ runnable p = true /\
    ticket_sum (take i ps) <= winner < ticket_sum (take i ps) + p.(p_tickets).
Proof.
  intros [H1 H2] Hw. unfold pick. rewrite pick_from_spec by (auto; lia).
  setoid_rewrite Nat.add_0_l. setoid_rewrite Z.add_0_l.
  split; [intros (k & p & -> & H)|intros (p & H)]; eauto.
Qed.

(** The interval of a runnable slot lies within the tickets of the table. *)
Lemma slot_interval ps i p :
  tickets_ok ps -> ps !! i = Some p -> runnable p = true ->
  0 <= ticket_sum (take i ps) /\ 1 <= p.(p_tickets) /\
  ticket_sum (take i ps) + p.(p_tickets) <= ticket_sum ps.
Proof.
  intros [H1 H2] Hi Hr.
  assert (Hp : 1 <= p_tickets p) by (eapply Forall_lookup_1 in H1; eauto).
  split; [apply ticket_sum_nonneg; by apply Forall_take|]. split; [done|].
  rewrite <- (take_drop_middle ps i p Hi) at 2. rewrite ticket_sum_app. simpl. rewrite Hr.
  pose proof (ticket_sum_nonneg (drop (S i) ps) (Forall_drop _ _ _ H1)). lia.
Qed.

(** Some slot holds the ticket drawn. *)
Lemma pick_total ps winner :
  tickets_ok ps -> 0 <= winner < ticket_sum ps -> exists i, pick winner ps = Some i.
Proof.
  intros [H1 H2]. unfold pick.
  enough (forall c i0, 0 <= c <= winner -> winner < c + ticket_sum ps -> c + ticket_sum ps <= INT_MAX ->
            exists i, pick_from winner c i0 ps = Some i) as H by (intros; apply H; lia).
  clear H2. unfold INT_MAX.
  induction H1 as [|p ps Hp Hps IH]; intros c i0 Hc Hw Hs; simpl in *; [lia|].
  pose proof (ticket_sum_nonneg ps Hps).
  destruct (runnable p); [specialize (Hp eq_refl)|]; [|apply IH; lia].
  rewrite i32_small by lia. destruct (Z.ltb_spec winner (c + p_tickets p)); eauto.
  apply IH; lia.
Qed.

(** ** The generator has full period

    [rand_iter n s] is the state after [n] draws.  With multiplier [a] and
    increment [c], [n] draws map [s] to [a^n s + c (1 + a + ... + a^(n-1))]
    modulo 2^32. *)

Definition rand_iter (n : nat) (s : Z) : Z := Nat.iter n rand_next s.

Fixpoint geom (a : Z) (n : nat) : Z :=
  match n with O => 0 | S n' => a * geom a n' + 1 end.

Lemma geom_mult a n : (a - 1) * geom a n = a ^ Z.of_nat n - 1.
Proof.
  induction n as [|n IH]; [simpl; lia|].
  rewrite Nat2Z.inj_succ, Z.pow_succ_r by lia. simpl. nia.
Qed.

Lemma geom_double a n : geom a (n + n) = geom a n * (a ^ Z.of_nat n + 1).
Proof.
  enough (forall k, geom a (n + k) = geom a k * a ^ Z.of_nat n + geom a n) as ->; [lia|].
  induction n as [|n IH]; intros k; [simpl; lia|].
  rewrite Nat2Z.inj_succ, Z.pow_succ_r by lia. simpl. rewrite IH. lia.
Qed.

Lemma rand_iter_closed n s :
  0 <= s < 2 ^ 32 ->
  rand_iter n s = u32 (1664525 ^ Z.of_nat n * s + 1013904223 * geom 1664525 n).
Proof.
  intros Hs. induction n as [|n IH].
  { cbn [geom rand_iter Nat.iter]. rewrite u32_small; unfold Nat.iter; simpl; lia. }
  change (rand_iter (S n) s) with (rand_next (rand_iter n s)).
  rewrite IH. unfold rand_next. rewrite <- u32_add_l, u32_mul_l, u32_add_l. f_equal.
  rewrite Nat2Z.inj_succ, Z.pow_succ_r by lia. cbn [geom]. lia.
Qed.

Lemma rand_iter_range n s : 0 <= s < 2 ^ 32 -> 0 <= rand_iter n s < 2 ^ 32.
Proof. intros Hs. rewrite rand_iter_closed by done. apply u32_range. Qed.

(** For [a] congruent to 1 modulo 4, the sum has exactly the factors 2 of [n]. *)
Lemma geom_parity a n : Z.odd a = true -> Z.odd (geom a n) = Z.odd (Z.of_nat n).
Proof.
  intros Ha. induction n as [|n IH]; [done|].
  rewrite Nat2Z.inj_succ, Z.odd_succ. cbn [geom].
  rewrite Z.odd_add, Z.odd_mul, Ha, IH. simpl. rewrite <- Z.negb_odd. by destruct (Z.odd _).
Qed.

Lemma pow4_mod a j : a mod 4 = 1 -> (a ^ Z.of_nat j) mod 4 = 1.
Proof.
  intros Ha. induction j as [|j IH]; [done|].
  rewrite Nat2Z.inj_succ, Z.pow_succ_r by lia. rewrite Z.mul_mod, Ha, IH by lia. done.
Qed.

Lemma pow2_divide_odd_mul k x y :
  Z.odd y = true -> (2 ^ Z.of_nat k | x * y) <-> (2 ^ Z.of_nat k | x).
Proof.
  intros Hy. split; [|apply Z.divide_mul_l].
  revert x. induction k as [|k IH]; intros x H; [apply Z.divide_1_l|].
  rewrite Nat2Z.inj_succ, Z.pow_succ_r in * by lia.
  assert (Z.odd x = false) as Hx.
  { destruct H as [z Hz]. apply (f_equal Z.odd) in Hz. rewrite !Z.odd_mul, Hy in Hz. simpl in Hz.
    rewrite andb_false_r in Hz. by destruct (Z.odd x). }
  rewrite <- Z.negb_even in Hx. destruct (Z.even x) eqn:E; [|done].
  apply Z.even_spec in E as [x' ->].
  rewrite <- Z.mul_assoc, Z.mul_divide_cancel_l in H by lia.
  rewrite Z.mul_divide_cancel_l by lia. by apply IH.
Qed.

Lemma pow2_geom a k n :
  a mod 4 = 1 -> (2 ^ Z.of_nat k | geom a n) <-> (2 ^ Z.of_nat k | Z.of_nat n).
Proof.
  intros Ha. assert (Hodd : Z.odd a = true) by 
    (apply Z.odd_spec; exists (2 * (a / 4)); pose proof (Z.div_mod a 4); lia).
  revert n. induction k as [|k IH]; intros n; [split; intros; apply Z.divide_1_l|].
  destruct (Z.odd (Z.of_nat n)) eqn:En.
  - assert (Hno : forall x, Z.odd x = true -> ~ (2 ^ Z.of_nat (S k) | x)).
    { intros x Hx [y Hy]. rewrite Nat2Z.inj_succ, Z.pow_succ_r in Hy by lia.
      rewrite Hy, !Z.odd_mul in Hx. simpl in Hx. by rewrite andb_false_r in Hx. }
    pose proof (geom_parity a n Hodd) as Hg. rewrite En in Hg.
    split; intros H; exfalso; [apply (Hno _ Hg H)|apply (Hno _ En H)].
  - assert (exists j, n = (j + j)%nat) as [j ->].
    { rewrite <- Z.negb_even in En. destruct (Z.even (Z.of_nat n)) eqn:E; [|done].
      apply Z.even_spec in E as [z Hz]. exists (Z.to_nat z). lia. }
    rewrite geom_double. pose proof (pow4_mod a j Ha) as Hp.
    set (b := a ^ Z.of_nat j) in *.
    replace (b + 1) with (2 * (2 * (b / 4) + 1)) by (pose proof (Z.div_mod b 4); lia).
    replace (geom a j * (2 * (2 * (b / 4) + 1))) with (2 * (geom a j * (2 * (b / 4) + 1))) by lia.
    replace (Z.of_nat (j + j)) with (2 * Z.of_nat j) by lia.
    rewrite Nat2Z.inj_succ, Z.pow_succ_r by lia.
    rewrite !Z.mul_divide_cancel_l by lia.
    rewrite pow2_divide_odd_mul by (rewrite Z.odd_add, Z.odd_mul; done).
    apply IH.
Qed.

Lemma rand_iter_add n k s : rand_iter (n + k) s = rand_iter n (rand_iter k s).
Proof. unfold rand_iter. by rewrite Nat.iter_add. Qed.

Lemma u32_eq x y : u32 x = u32 y <-> (2 ^ 32 | x - y).
Proof.
  unfold u32. rewrite <- Z.mod_divide by lia. split.
  - intros H. rewrite Zminus_mod, H, Z.sub_diag. done.
  - intros H. replace x with (y + (x - y)) by lia.
    rewrite Zplus_mod, H, Z.add_0_r, Z.mod_mod by lia. done.
Qed.

Lemma rand_period n s :
  0 <= s < 2 ^ 32 -> rand_iter n s = s <-> (2 ^ 32 | Z.of_nat n).
Proof.
  intros Hs. rewrite rand_iter_closed by done.
  rewrite <- (u32_small s) at 2 by done. rewrite u32_eq.
  replace (1664525 ^ Z.of_nat n * s + 1013904223 * geom 1664525 n - s)
    with (geom 1664525 n * (1664524 * s + 1013904223)).
  2: { pose proof (geom_mult 1664525 n). nia. }
  rewrite (pow2_divide_odd_mul 32); [by apply (pow2_geom _ 32)|].
  by rewrite Z.odd_add, Z.odd_mul.
Qed.

Lemma rand_next_inj x y :
  0 <= x < 2 ^ 32 -> 0 <= y < 2 ^ 32 -> rand_next x = rand_next y -> x = y.
Proof.
  intros Hx Hy H. unfold rand_next in H. rewrite u32_eq in H.
  replace (x * 1664525 + 1013904223 - (y * 1664525 + 1013904223))
    with ((x - y) * 1664525) in H by lia.
  rewrite (pow2_divide_odd_mul 32) in H by done.
  apply u32_eq in H. by rewrite !u32_small in H by done.
Qed.

Lemma rand_iter_inj n x y :
  0 <= x < 2 ^ 32 -> 0 <= y < 2 ^ 32 -> rand_iter n x = rand_iter n y -> x = y.
Proof.
  intros Hx Hy. induction n as [|n IH]; [done|]. intros H. apply IH.
  apply rand_next_inj; eauto using rand_iter_range.
Qed.

(** The values of one whole period, starting with the first draw after [s]. *)
Definition rand_period_values (s : Z) : list Z :=
  (fun n => rand_iter (S n) s) <$> seq 0 (Z.to_nat (2 ^ 32)).

Lemma rand_iter_inj_index s i j :
  0 <= s < 2 ^ 32 -> Z.of_nat i < 2 ^ 32 -> Z.of_nat j < 2 ^ 32 ->
  rand_iter (S i) s = rand_iter (S j) s -> i = j.
Proof.
  intros Hs. revert i j.
  enough (forall i j, (i < j)%nat -> Z.of_nat j < 2 ^ 32 ->
            rand_iter (S i) s = rand_iter (S j) s -> False) as Hlt.
  { intros i j Hi Hj H. destruct (lt_eq_lt_dec i j) as [[|]|]; eauto; exfalso; eauto. }
  intros i j Hij Hj H.
  replace (S j) with (S i + (j - i))%nat in H by lia. rewrite rand_iter_add in H.
  apply rand_iter_inj in H; auto using rand_iter_range.
  symmetry in H. apply rand_period in H as [z Hz]; [|done].
  assert (z = 0 \/ 1 <= z) by lia. lia.
Qed.

Lemma rand_period_perm s :
  0 <= s < 2 ^ 32 -> rand_period_values s ≡ₚ seqZ 0 (2 ^ 32).
Proof.
  intros Hs. unfold rand_period_values.
  assert (HB : Z.of_nat (Z.to_nat (2 ^ 32)) = 2 ^ 32) by (apply Z2Nat.id; lia).
  generalize dependent (Z.to_nat (2 ^ 32)). intros N HN.
  apply submseteq_length_Permutation.
  - apply NoDup_submseteq.
    + apply NoDup_fmap_2_strong; [|apply NoDup_seq].
      intros i j Hi%elem_of_seq Hj%elem_of_seq. apply rand_iter_inj_index; [done|lia..].
    + intros x (n & -> & _)%list_elem_of_fmap. apply elem_of_seqZ.
      pose proof (rand_iter_range (S n) s Hs). lia.
  - rewrite length_fmap, length_seq, length_seqZ, <- HN, Nat2Z.id. done.
Qed.

(** ** Counting residues *)

Lemma count_mod_blocks T lo hi (q : nat) :
  0 <= lo <= hi -> hi <= T -> 0 < T ->
  count (fun x => lo <= x mod T < hi) (seqZ 0 (T * Z.of_nat q)) = (q * Z.to_nat (hi - lo))%nat.
Proof.
  intros Hlo Hhi HT. induction q as [|q IH].
  { replace (T * Z.of_nat 0) with 0 by lia. done. }
  replace (T * Z.of_nat (S q)) with (T * Z.of_nat q + T) by lia.
  rewrite seqZ_app by lia. rewrite count_app, IH.
  replace (0 + T * Z.of_nat q) with (T * Z.of_nat q + 0) by lia.
  rewrite <- fmap_add_seqZ, count_fmap.
  rewrite (count_ext _ (fun x => lo <= x < hi)), count_interval by
    (try lia; intros x ?%elem_of_seqZ;
     rewrite (Z.mul_comm T), Z.add_comm, Z.mod_add, Z.mod_small by lia; done).
  lia.
Qed.

Lemma count_mod_bounds N T lo hi :
  0 <= lo <= hi -> hi <= T -> 0 < T -> 0 <= N ->
  N / T * (hi - lo) <= Z.of_nat (count (fun x => lo <= x mod T < hi) (seqZ 0 N))
    <= (N / T + 1) * (hi - lo).
Proof.
  intros Hlo Hhi HT HN.
  pose proof (Z.div_mod N T). pose proof (Z.mod_pos_bound N T HT).
  assert (0 <= N / T) by (apply Z.div_pos; lia).
  set (q := Z.to_nat (N / T)). assert (Hq : N / T = Z.of_nat q) by lia.
  assert (Hsplit : count (fun x => lo <= x mod T < hi) (seqZ 0 N)
    = Nat.add (Nat.mul q (Z.to_nat (hi - lo)))
        (count (fun x => lo <= x mod T < hi) (seqZ (0 + T * Z.of_nat q) (N mod T)))).
  { rewrite <- (count_mod_blocks T) by lia. rewrite <- count_app, <- seqZ_app by lia.
    do 2 f_equal. lia. }
  pose proof (count_mod_blocks T lo hi (S q) ltac:(lia) ltac:(lia) ltac:(lia)) as HS.
  replace (T * Z.of_nat (S q)) with (T * Z.of_nat q + (N mod T + (T - N mod T))) in HS by lia.
  rewrite !seqZ_app, !count_app, count_mod_blocks in HS by lia.
  rewrite Hsplit, Hq, Nat2Z.inj_add, Nat2Z.inj_mul, (Z2Nat.id (hi - lo)) by lia. lia.
Qed.

(** With [tickets_ok] the conversions of the draw are the identity. *)
Lemma draw_mod r T : 0 <= r -> 0 < T <= INT_MAX -> draw r T = r mod T.
Proof.
  unfold INT_MAX, draw. intros Hr HT. rewrite (u32_small T) by lia.
  pose proof (Z.mod_pos_bound r T ltac:(lia)). apply i32_small. lia.
Qed.

Lemma lottery_pick ps s :
  tickets_ok ps -> 0 < ticket_sum ps ->
  (lottery s ps).2 = pick (rand_next s mod ticket_sum ps) ps.
Proof.
  intros Hok Hpos. unfold lottery. rewrite total_tickets_sum by done.
  destruct (Z.eqb_spec (ticket_sum ps) 0); [lia|]. simpl. destruct Hok as [_ Hmax].
  rewrite draw_mod; [done| |lia]. apply u32_range.
Qed.

(** ** Theorems *)

(** C18. A draw is fair.  Let every runnable process hold at least one ticket and
    their tickets add up to at most INT_MAX, which settickets does not enforce:
    of the [total] winning tickets the second pass may be given, each runnable
    process is chosen for exactly as many as it holds. *)
Theorem lottery_draw_fair ps i p :
  tickets_ok ps -> ps !! i = Some p -> runnable p = true ->
  count (fun w => pick w ps = Some i) (seqZ 0 (total_tickets ps)) = Z.to_nat p.(p_tickets).
Proof.
  intros Hok Hi Hr. destruct (slot_interval ps i p Hok Hi Hr) as (H0 & H1 & H2).
  rewrite total_tickets_sum by done.
  rewrite (count_ext _ (fun w => ticket_sum (take i ps) <= w
             < ticket_sum (take i ps) + p_tickets p)).
  - rewrite count_interval by lia. f_equal. lia.
  - intros w ?%elem_of_seqZ. rewrite pick_spec by (auto; lia). split.
    + intros (p' & Hp' & _ & Hw). by simplify_eq.
    + intros Hw. eauto.
Qed.

(** C40. The generator has full period: from any [uint] state, [n] calls of
    [rand_next] return to it exactly when 2^32 divides [n]. *)
Theorem rand_next_full_period n s :
  0 <= s < 2 ^ 32 -> rand_iter n s = s <-> (2 ^ 32 | Z.of_nat n).
Proof. apply rand_period. Qed.

(** C10. Proportional share.  Let every runnable process of a table hold at least
    one ticket and their tickets add up to [T], at most INT_MAX (settickets does
    not enforce the bound on the sum).  In 2^32 consecutive rounds over this
    table, a runnable process with [t] of the [T] tickets runs at least
    [t * (2^32 / T)] and at most [t * (2^32 / T + 1)] times, whatever the seed. *)
Theorem lottery_proportional_share ps i p s :
  tickets_ok ps -> ps !! i = Some p -> runnable p = true -> 0 <= s < 2 ^ 32 ->
  2 ^ 32 / total_tickets ps * p.(p_tickets)
  <= Z.of_nat (count (fun n => (lottery (rand_iter n s) ps).2 = Some i)
                 (seq 0 (Z.to_nat (2 ^ 32))))
  <= (2 ^ 32 / total_tickets ps + 1) * p.(p_tickets).
Proof.
  intros Hok Hi Hr Hs. destruct (slot_interval ps i p Hok Hi Hr) as (H0 & H1 & H2).
  rewrite total_tickets_sum by done.
  set (lo := ticket_sum (take i ps)) in *. set (T := ticket_sum ps) in *.
  assert (Hcount : count (fun n => (lottery (rand_iter n s) ps).2 = Some i)
                     (seq 0 (Z.to_nat (2 ^ 32)))
                   = count (fun x => lo <= x mod T < lo + p_tickets p) (seqZ 0 (2 ^ 32))).
  { etransitivity; [|apply count_perm, rand_period_perm, Hs].
    unfold rand_period_values. rewrite count_fmap. apply count_ext. intros n _.
    rewrite lottery_pick by (auto; unfold T in *; lia).
    change (rand_next (rand_iter n s)) with (rand_iter (S n) s). fold T.
    rewrite pick_spec by (auto; apply Z.mod_pos_bound; lia). fold lo. split.
    - intros (p' & Hp' & _ & Hw). by simplify_eq.
    - intros Hw. eauto. }
  rewrite Hcount.
  pose proof (count_mod_bounds (2 ^ 32) T lo (lo + p_tickets p)) as Hb.
  replace (lo + p_tickets p - lo) with (p_tickets p) in Hb by lia. apply Hb; lia.
Qed.

(** C35. Progress.  Let every runnable process hold at least one ticket and their
    tickets add up to at most INT_MAX, which settickets does not enforce.  When
    some process is runnable, a round does not idle; it picks a slot of the
    table that is runnable. *)
Theorem lottery_progress ps s k q :
  tickets_ok ps -> ps !! k = Some q -> runnable q = true ->
  exists i p, (lottery s ps).2 = Some i /\ ps !! i = Some p /\ runnable p = true.
Proof.
  intros Hok Hk Hq.
  destruct (slot_interval ps k q Hok Hk Hq) as (H0 & H1 & H2).
  rewrite lottery_pick by (auto; lia).
  assert (Hm : 0 <= rand_next s mod ticket_sum ps < ticket_sum ps) by (apply Z.mod_pos_bound; lia).
  destruct (pick_total ps _ Hok Hm) as [i Hi]. exists i.
  pose proof Hi as Hi'. apply pick_spec in Hi' as (p & Hp & Hr & _); [|done|lia]. eauto.
Qed.

(** The bound on the ticket total is needed: [settickets] accepts any count from 1
    to INT_MAX, so the tickets of the runnable processes can add up to 2^32.
    Signed overflow is undefined in C; with the [addw] a compiler emits for the
    sum the [int] total is then 0, so every round idles and none of them runs. *)
Lemma i32_add_l x y : i32 (i32 x + y) = i32 (x + y).
Proof.
  unfold i32. replace ((x + 2 ^ 31) mod 2 ^ 32 - 2 ^ 31 + y + 2 ^ 31) with ((x + 2 ^ 31) mod 2 ^ 32 + y) by lia.
  rewrite Z.add_mod_idemp_l by lia. do 2 f_equal. lia.
Qed.

Lemma total_wraps ps acc :
  - 2 ^ 31 <= acc < 2 ^ 31 ->
  foldl (fun total p => if runnable p then i32 (total + p.(p_tickets)) else total) acc ps = i32 (acc + ticket_sum ps).
Proof.
  revert acc. induction ps as [|p ps IH]; intros acc Ha; cbn [foldl ticket_sum].
  - unfold i32. rewrite Z.add_0_r, Z.mod_small by lia. lia.
  - destruct (runnable p); [|rewrite IH by done; f_equal; lia].
    rewrite IH by apply i32_range. rewrite i32_add_l. f_equal. lia.
Qed.

Lemma lottery_overflow_idles s ps : (2 ^ 32 | ticket_sum ps) -> lottery s ps = (s, None).
Proof.
  intros [q Hq]. unfold lottery, total_tickets. rewrite total_wraps, Hq by lia.
  assert (i32 (0 + q * 2 ^ 32) = 0) as ->; [|done].
  unfold i32. rewrite (Z.add_comm 0), Z.add_0_r, Z.add_comm, Z.mod_add by lia. done.
Qed.

(** ** Witnesses: the table of user/testlottery.c, three children with 30, 20
    and 10 tickets, and their parent asleep. *)

Definition lottery_demo : list proc :=
  [set_tickets 1 (set_state SLEEPING zero_proc); set_tickets 30 (set_state RUNNABLE zero_proc);
   set_tickets 20 (set_state RUNNABLE zero_proc); set_tickets 10 (set_state RUNNABLE zero_proc)].

Lemma lottery_demo_ok : tickets_ok lottery_demo.
Proof. split; [repeat constructor; vm_compute; congruence|vm_compute; congruence]. Qed.

Lemma lottery_draw_fair_witness :
  count (fun w => pick w lottery_demo = Some 1%nat) (seqZ 0 (total_tickets lottery_demo)) = 30%nat.
Proof.
  apply (lottery_draw_fair lottery_demo 1 (set_tickets 30 (set_state RUNNABLE zero_proc)));
    [exact lottery_demo_ok|reflexivity|reflexivity].
Defined.

Lemma rand_next_full_period_witness : rand_iter 5 1 = 1 <-> (2 ^ 32 | 5).
Proof. apply (rand_next_full_period 5 1). lia. Defined.

Lemma lottery_proportional_share_witness :
  2 ^ 32 / total_tickets lottery_demo * 30
  <= Z.of_nat (count (fun n => (lottery (rand_iter n 1) lottery_demo).2 = Some 1%nat)
                 (seq 0 (Z.to_nat (2 ^ 32))))
  <= (2 ^ 32 / total_tickets lottery_demo + 1) * 30.
Proof.
  apply (lottery_proportional_share lottery_demo 1
           (set_tickets 30 (set_state RUNNABLE zero_proc)) 1);
    [exact lottery_demo_ok|reflexivity|reflexivity|lia].
Defined.

Lemma lottery_progress_witness :
  exists i p, (lottery 1 lottery_demo).2 = Some i /\ lottery_demo !! i = Some p /\ runnable p = true.
Proof.
  apply (lottery_progress lottery_demo 1 1 (set_tickets 30 (set_state RUNNABLE zero_proc)));
    [exact lottery_demo_ok|reflexivity|reflexivity].
Defined.
