(* ===== verification/Layout.v ===== *)
(** * Page arithmetic and the kernel's memory layout

    Lemmas on the page and page-table macros of riscv.h, and the addresses the
    linker script kernel.ld provides ([end], [etext], [trampoline]) as a class: they are
    parameters of the model, with what the kernel relies on stated as its
    laws. *)

From S2P Require Import Prelude Types.
From Stdlib Require Import ZArith Lia.
From stdpp Require Import base list numbers.
Open Scope Z_scope.

(** Symbols defined by kernel.ld and trampoline.S. *)
Class KernelLayout := {
  kend : Z;         (* end[]: first address after the kernel *)
  etext : Z;        (* etext[]: end of the kernel text *)
  trampoline : Z;   (* trampoline[]: the trampoline page *)
  forkret_addr : Z; (* &forkret *)
  usertrap_addr : Z;(* &usertrap *)
  kernelvec_addr : Z;(* &kernelvec *)
  uservec_off : Z;  (* uservec - trampoline *)
  userret_off : Z   (* userret - trampoline *)
}.
Class KernelLayoutOK (L : KernelLayout) := {
  kend_range : KERNBASE <= kend <= PHYSTOP;
  etext_range : KERNBASE <= etext <= kend;
  trampoline_range : KERNBASE <= trampoline < kend;
  etext_aligned : etext mod PGSIZE = 0;
  trampoline_aligned : trampoline mod PGSIZE = 0
}.

(** ** Rounding *)

Lemma land_page_mask a : 0 <= a < 2 ^ 64 -> Z.land a (u64 (Z.lnot (PGSIZE - 1))) = a / 4096 * 4096.
Proof.
  intros Ha. change (u64 (Z.lnot (PGSIZE - 1))) with (Z.shiftl (Z.ones 52) 12).
  change 4096 with (2 ^ 12) at 1 2. rewrite <- Z.shiftr_div_pow2, <- Z.shiftl_mul_pow2 by lia.
  apply Z.bits_inj'. intros n Hn. rewrite Z.land_spec, !Z.shiftl_spec by lia.
  destruct (Z_lt_ge_dec n 12).
  - rewrite !(Z.testbit_neg_r _ (n - 12)) by lia. apply andb_false_r.
  - rewrite Z.shiftr_spec by lia. replace (n - 12 + 12) with n by lia.
    destruct (Z_lt_ge_dec n 64).
    + rewrite Z.ones_spec_low by lia. apply andb_true_r.
    + rewrite Z.ones_spec_high by lia. rewrite andb_false_r. symmetry.
      destruct (Z.eq_dec a 0) as [->|]; [apply Z.bits_0|].
      apply Z.bits_above_log2; [lia|]. apply Z.log2_lt_pow2; [lia|].
      apply Z.lt_le_trans with (2 ^ 64); [lia|]. apply Z.pow_le_mono_r; lia.
Qed.

Lemma PGROUNDDOWN_eq a : 0 <= a < 2 ^ 64 -> PGROUNDDOWN a = a / 4096 * 4096.
Proof. apply land_page_mask. Qed.

Lemma PGROUNDUP_eq a : 0 <= a <= 2 ^ 64 - 4096 -> PGROUNDUP a = (a + 4095) / 4096 * 4096.
Proof.
  intros Ha. unfold PGROUNDUP, PGSIZE.
  assert (H : u64 (u64 (a + 4096) - 1) = a + 4095).
  { destruct (Z.eq_dec a (2 ^ 64 - 4096)) as [->|]; [reflexivity|].
    rewrite (u64_small (a + 4096)) by lia. rewrite u64_small; lia. }
  rewrite H. apply land_page_mask. lia.
Qed.

Lemma PGROUNDUP_spec a : 0 <= a <= 2 ^ 64 - 4096 ->
  a <= PGROUNDUP a < a + 4096 /\ PGROUNDUP a mod 4096 = 0.
Proof.
  intros Ha. rewrite PGROUNDUP_eq by done. split; [|apply Z.mod_mul; lia].
  pose proof (Z.div_mod (a + 4095) 4096). pose proof (Z.mod_pos_bound (a + 4095) 4096). lia.
Qed.

Lemma PGROUNDDOWN_spec a : 0 <= a < 2 ^ 64 ->
  PGROUNDDOWN a <= a < PGROUNDDOWN a + 4096 /\ PGROUNDDOWN a mod 4096 = 0.
Proof.
  intros Ha. rewrite PGROUNDDOWN_eq by done. split; [|apply Z.mod_mul; lia].
  pose proof (Z.div_mod a 4096). pose proof (Z.mod_pos_bound a 4096). lia.
Qed.

Lemma PGROUNDDOWN_aligned a : 0 <= a < 2 ^ 64 -> a mod 4096 = 0 -> PGROUNDDOWN a = a.
Proof. intros Ha H. rewrite PGROUNDDOWN_eq by done. pose proof (Z.div_mod a 4096). lia. Qed.
Lemma PGROUNDUP_aligned a : 0 <= a <= 2 ^ 64 - 4096 -> a mod 4096 = 0 -> PGROUNDUP a = a.
Proof.
  intros Ha H. pose proof (PGROUNDUP_spec a Ha) as [H1 H2].
  pose proof (Z.div_mod a 4096). pose proof (Z.div_mod (PGROUNDUP a) 4096). lia.
Qed.

(** Two distinct aligned addresses are a page apart. *)
Lemma aligned_next a : a mod PGSIZE = 0 -> (a + PGSIZE) mod PGSIZE = 0.
Proof. intros H. rewrite <- (Z.mul_1_l PGSIZE) at 1. by rewrite Z.mod_add. Qed.

Lemma aligned_apart a b : a mod 4096 = 0 -> b mod 4096 = 0 -> a ≠ b -> a + 4096 <= b \/ b + 4096 <= a.
Proof.
  intros Ha Hb Hne. pose proof (Z.div_mod a 4096). pose proof (Z.div_mod b 4096). lia.
Qed.

(** ** Page-table entries *)

(** A page-aligned physical address survives the PTE encoding. *)
Lemma PTE2PA_PA2PTE pa perm :
  pa mod 4096 = 0 -> 0 <= pa < 2 ^ 56 -> 0 <= perm < 2 ^ 10 ->
  PTE2PA (Z.lor (PA2PTE pa) perm) = pa.
Proof.
  intros Ha Hr Hp. unfold PTE2PA, PA2PTE.
  assert (E1 : Z.shiftl (Z.shiftr pa 12) 10 = pa / 4).
  { rewrite Z.shiftr_div_pow2, Z.shiftl_mul_pow2 by lia. change (2 ^ 12) with 4096.
    change (2 ^ 10) with 1024. pose proof (Z.div_mod pa 4096).
    apply Z.div_unique with 0; lia. }
  rewrite E1, (u64_small (pa / 4)) by (split; [apply Z.div_pos; lia|apply Z.div_lt_upper_bound; lia]).
  rewrite Z.shiftr_lor, <- E1, Z.shiftr_shiftl_l by lia. rewrite Z.sub_diag, Z.shiftl_0_r.
  rewrite (Z.shiftr_div_pow2 perm), (Z.div_small perm) by lia. rewrite Z.lor_0_r.
  rewrite Z.shiftr_div_pow2, Z.shiftl_mul_pow2 by lia. change (2 ^ 12) with 4096.
  pose proof (Z.div_mod pa 4096). rewrite u64_small; lia.
Qed.

(** The low bits of an entry are its permissions. *)
Lemma PTE_low_bits pa perm n :
  0 <= n < 10 -> 0 <= pa < 2 ^ 56 ->
  Z.testbit (Z.lor (PA2PTE pa) perm) n = Z.testbit perm n.
Proof.
  intros Hn Hr. rewrite Z.lor_spec. unfold PA2PTE, u64.
  rewrite Z.mod_pow2_bits_low, Z.shiftl_spec_low by lia. done.
Qed.

Lemma PA2PTE_range pa : 0 <= PA2PTE pa < 2 ^ 64.
Proof. apply u64_range. Qed.

(** Entries of different indices do not overlap. *)
Lemma PX_range level va : 0 <= PX level va < 512.
Proof.
  unfold PX, PXMASK. change 0x1FF with (Z.ones 9). rewrite Z.land_ones by lia.
  apply Z.mod_pos_bound. lia.
Qed.

Lemma PX_eq level va : 0 <= level -> 0 <= va -> PX level va = va / 2 ^ (12 + 9 * level) mod 512.
Proof.
  intros Hl Hv. unfold PX, PXMASK, PXSHIFT, PGSHIFT. change 0x1FF with (Z.ones 9).
  rewrite Z.land_ones, Z.shiftr_div_pow2 by lia. done.
Qed.

(** The three indices of an address below MAXVA determine its page. *)
Lemma PX_inj va va' :
  0 <= va < MAXVA -> 0 <= va' < MAXVA ->
  PX 2 va = PX 2 va' -> PX 1 va = PX 1 va' -> PX 0 va = PX 0 va' ->
  va / 4096 = va' / 4096.
Proof.
  intros H1 H2. change MAXVA with (2 ^ 38) in *. rewrite !PX_eq by lia.
  change (12 + 9 * 2) with 30. change (12 + 9 * 1) with 21. change (12 + 9 * 0) with 12.
  assert (Hs : forall x, 0 <= x < 2 ^ 38 ->
    x / 2 ^ 12 = (x / 2 ^ 30 mod 512) * 2 ^ 18 + (x / 2 ^ 21 mod 512) * 2 ^ 9 + x / 2 ^ 12 mod 512).
  { intros x Hx. rewrite (Z.mod_small (x / 2 ^ 30)) by
      (split; [apply Z.div_pos; lia|apply Z.div_lt_upper_bound; lia]).
    change (2 ^ 30) with (2 ^ 12 * 2 ^ 18). change (2 ^ 21) with (2 ^ 12 * 2 ^ 9).
    rewrite <- !Z.div_div by lia. set (y := x / 2 ^ 12).
    change (2 ^ 18) with (2 ^ 9 * 2 ^ 9) at 1. rewrite <- Z.div_div by lia.
    pose proof (Z.div_mod y (2 ^ 9)). pose proof (Z.div_mod (y / 2 ^ 9) (2 ^ 9)).
    change 512 with (2 ^ 9). lia. }
  intros E1 E2 E3. change 4096 with (2 ^ 12). rewrite (Hs va), (Hs va') by lia. lia.
Qed.

(** A small machine for concrete runs: 64 pages of RAM after the kernel. *)
Definition demo_layout : KernelLayout := {|
  kend := PHYSTOP - 64 * PGSIZE; etext := 0x80008000; trampoline := 0x80007000;
  forkret_addr := 0x80001990; usertrap_addr := 0x80002628;
  kernelvec_addr := 0x80005a70; uservec_off := 0; userret_off := 0x9c |}.
Lemma demo_layout_ok : KernelLayoutOK demo_layout.
Proof. constructor; cbv; intuition congruence. Qed.
