(* ===== verification/Hart.v ===== *)
(** * The assembly of the kernel (swtch.S, trampoline.S, kernelvec.S, entry.S) and riscv.h

    A hart is its registers, its control registers, physical memory, the privilege
    mode and where it goes on.  The assembly files are straight-line code, written
    down instruction by instruction.  Address translation is the hardware's and a
    parameter ([MMU]); the page tables do not change while these sequences run.

    The model's [sstatus] and [mstatus] are separate registers: start.c writes the
    second, everything else the first. *)

From Stdlib Require Import ZArith Lia.
From stdpp Require Import base list numbers.
From S2P Require Import Prelude Types Mem Layout.
Open Scope Z_scope.

(** ** The machine *)

Inductive reg := zero | ra | sp | gp | tp | t0 | t1 | t2 | s0 | s1 | a0 | a1 | a2 | a3 | a4 | a5 | a6 | a7
  | s2 | s3 | s4 | s5 | s6 | s7 | s8 | s9 | s10 | s11 | t3 | t4 | t5 | t6.
#[global] Instance reg_eqdec : EqDecision reg.
Proof. solve_decision. Defined.

Inductive csrid := mhartid | mstatus | mepc | mie | medeleg | mideleg | menvcfg | mcounteren | pmpcfg0 | pmpaddr0
  | sstatus | sie | sip | sepc | scause | stval | stvec | stimecmp | sscratch | satp | time.
#[global] Instance csrid_eqdec : EqDecision csrid.
Proof. solve_decision. Defined.

Inductive mode := User | Supervisor | Machine.

Record hart := mkhart {
  h_regs : reg -> Z;
  h_csrs : csrid -> Z;
  h_mem : mem;
  h_mode : mode;
  h_pc : Z        (* where a jump or a trap return went *)
}.
Definition set_regs x h := mkhart x h.(h_csrs) h.(h_mem) h.(h_mode) h.(h_pc).
Definition set_csrs x h := mkhart h.(h_regs) x h.(h_mem) h.(h_mode) h.(h_pc).
Definition set_mem x h := mkhart h.(h_regs) h.(h_csrs) x h.(h_mode) h.(h_pc).
Definition set_pc x h := mkhart h.(h_regs) h.(h_csrs) h.(h_mem) h.(h_mode) x.
Definition set_mode x h := mkhart h.(h_regs) h.(h_csrs) h.(h_mem) x h.(h_pc).

(** The register [zero] reads 0 and keeps nothing. *)
Definition rd (r : reg) (h : hart) : Z := if decide (r = zero) then 0 else h.(h_regs) r.
Definition wr (r : reg) (v : Z) (h : hart) : hart :=
  set_regs (fun x => if decide (x = r) then u64 v else h.(h_regs) x) h.
Definition csr_read (c : csrid) (h : hart) : Z := h.(h_csrs) c.
Definition csr_write (c : csrid) (v : Z) (h : hart) : hart :=
  set_csrs (fun x => if decide (x = c) then u64 v else h.(h_csrs) x) h.

(** The physical address of a virtual one under a value of satp; [None] is a page
    fault. *)
Class MMU := translate : Z -> Z -> option Z.

Definition bit (x i : Z) : bool := Z.testbit x i.
Definition setbit (x i : Z) (b : bool) : Z := if b then Z.lor x (Z.shiftl 1 i) else Z.land x (Z.lnot (Z.shiftl 1 i)).

(** sret and mret of the privileged architecture: the interrupt enable comes back,
    the previous mode is entered. *)
Definition sret (h : hart) : hart :=
  let st := csr_read sstatus h in
  set_pc (csr_read sepc h) (set_mode (if bit st 8 then Supervisor else User)
    (csr_write sstatus (setbit (setbit (setbit st 1 (bit st 5)) 5 true) 8 false) h)).
Definition mret (h : hart) : hart :=
  let st := csr_read mstatus h in
  let mpp := Z.land (Z.shiftr st 11) 3 in
  set_pc (csr_read mepc h) (set_mode (if mpp =? 3 then Machine else if mpp =? 1 then Supervisor else User)
    (csr_write mstatus (setbit (setbit (setbit (setbit st 3 (bit st 7)) 7 true) 11 false) 12 false) h)).

Inductive instr :=
  | Sd (r : reg) (off : Z) (base : reg)
  | Ld (r : reg) (off : Z) (base : reg)
  | Li (r : reg) (v : Z)          (* li and la *)
  | Addi (r s : reg) (v : Z)
  | Add (r s t : reg)
  | Mul (r s t : reg)
  | Csrw (c : csrid) (r : reg)
  | Csrr (r : reg) (c : csrid)
  | SfenceVma
  | Jalr (r : reg) (next : Z)     (* jump to the address in r, with the address after the jump in ra *)
  | Call (f next : Z)
  | Ret
  | Sret
  | Ecall (next : Z).

Section machine.
Context `{T : MMU}.

Definition step (i : instr) (h : hart) : option hart :=
  match i with
  | Sd r off base =>
      pa ← translate (csr_read satp h) (u64 (rd base h + off));
      Some (set_mem (store64 h.(h_mem) pa (rd r h)) h)
  | Ld r off base =>
      pa ← translate (csr_read satp h) (u64 (rd base h + off));
      Some (wr r (load64 h.(h_mem) pa) h)
  | Li r v => Some (wr r v h)
  | Addi r s v => Some (wr r (rd s h + v) h)
  | Add r s t => Some (wr r (rd s h + rd t h) h)
  | Mul r s t => Some (wr r (rd s h * rd t h) h)
  | Csrw c r => Some (csr_write c (rd r h) h)
  | Csrr r c => Some (wr r (csr_read c h) h)
  | SfenceVma => Some h
  | Jalr r next => Some (set_pc (rd r h) (wr ra next h))
  | Call f next => Some (set_pc f (wr ra next h))
  | Ret => Some (set_pc (rd ra h) h)
  | Sret => Some (sret h)
  | Ecall next => Some (set_pc next h)
  end.

Fixpoint run (c : list instr) (h : hart) : option hart :=
  match c with
  | [] => Some h
  | i :: c' => h' ← step i h; run c' h'
  end.

(** Code in the trampoline page is fetched through the page table of the moment:
    every instruction needs the page mapped at TRAMPOLINE. *)
Fixpoint run_tramp (page : Z) (c : list instr) (h : hart) : option hart :=
  match c with
  | [] => Some h
  | i :: c' =>
      if decide (translate (csr_read satp h) TRAMPOLINE = Some page) then h' ← step i h; run_tramp page c' h'
      else None
  end.
End machine.

(** ** swtch.S *)

Definition swtch : list instr := [
  Sd ra 0 a0; Sd sp 8 a0; Sd s0 16 a0; Sd s1 24 a0; Sd s2 32 a0; Sd s3 40 a0; Sd s4 48 a0;
  Sd s5 56 a0; Sd s6 64 a0; Sd s7 72 a0; Sd s8 80 a0; Sd s9 88 a0; Sd s10 96 a0; Sd s11 104 a0;
  Ld ra 0 a1; Ld sp 8 a1; Ld s0 16 a1; Ld s1 24 a1; Ld s2 32 a1; Ld s3 40 a1; Ld s4 48 a1;
  Ld s5 56 a1; Ld s6 64 a1; Ld s7 72 a1; Ld s8 80 a1; Ld s9 88 a1; Ld s10 96 a1; Ld s11 104 a1;
  Ret].

(** ** trampoline.S *)

(** struct trapframe: where a user register is kept. *)
Definition tf_slot (r : reg) : Z :=
  match r with
  | zero => 0 | ra => 40 | sp => 48 | gp => 56 | tp => 64 | t0 => 72 | t1 => 80 | t2 => 88 | s0 => 96 | s1 => 104
  | a0 => 112 | a1 => 120 | a2 => 128 | a3 => 136 | a4 => 144 | a5 => 152 | a6 => 160 | a7 => 168
  | s2 => 176 | s3 => 184 | s4 => 192 | s5 => 200 | s6 => 208 | s7 => 216 | s8 => 224 | s9 => 232 | s10 => 240
  | s11 => 248 | t3 => 256 | t4 => 264 | t5 => 272 | t6 => 280
  end.

Section trampoline.
Context `{L : KernelLayout}.

Definition uservec : list instr := [
  Csrw sscratch a0; Li a0 TRAPFRAME;
  Sd ra 40 a0; Sd sp 48 a0; Sd gp 56 a0; Sd tp 64 a0; Sd t0 72 a0; Sd t1 80 a0; Sd t2 88 a0; Sd s0 96 a0;
  Sd s1 104 a0; Sd a1 120 a0; Sd a2 128 a0; Sd a3 136 a0; Sd a4 144 a0; Sd a5 152 a0; Sd a6 160 a0; Sd a7 168 a0;
  Sd s2 176 a0; Sd s3 184 a0; Sd s4 192 a0; Sd s5 200 a0; Sd s6 208 a0; Sd s7 216 a0; Sd s8 224 a0; Sd s9 232 a0;
  Sd s10 240 a0; Sd s11 248 a0; Sd t3 256 a0; Sd t4 264 a0; Sd t5 272 a0; Sd t6 280 a0;
  Csrr t0 sscratch; Sd t0 112 a0;
  Ld sp 8 a0; Ld tp 32 a0; Ld t0 16 a0; Ld t1 0 a0;
  SfenceVma; Csrw satp t1; SfenceVma;
  Jalr t0 (TRAMPOLINE + userret_off)].

Definition userret : list instr := [
  SfenceVma; Csrw satp a0; SfenceVma; Li a0 TRAPFRAME;
  Ld ra 40 a0; Ld sp 48 a0; Ld gp 56 a0; Ld tp 64 a0; Ld t0 72 a0; Ld t1 80 a0; Ld t2 88 a0; Ld s0 96 a0;
  Ld s1 104 a0; Ld a1 120 a0; Ld a2 128 a0; Ld a3 136 a0; Ld a4 144 a0; Ld a5 152 a0; Ld a6 160 a0; Ld a7 168 a0;
  Ld s2 176 a0; Ld s3 184 a0; Ld s4 192 a0; Ld s5 200 a0; Ld s6 208 a0; Ld s7 216 a0; Ld s8 224 a0; Ld s9 232 a0;
  Ld s10 240 a0; Ld s11 248 a0; Ld t3 256 a0; Ld t4 264 a0; Ld t5 272 a0; Ld t6 280 a0;
  Ld a0 112 a0; Sret].
End trampoline.

(** ** kernelvec.S, before and after the call of kerneltrap *)

Definition kernelvec_push (kerneltrap back : Z) : list instr := [
  Addi sp sp (-256);
  Sd ra 0 sp; Sd gp 16 sp; Sd tp 24 sp; Sd t0 32 sp; Sd t1 40 sp; Sd t2 48 sp; Sd a0 72 sp; Sd a1 80 sp; Sd a2 88 sp;
  Sd a3 96 sp; Sd a4 104 sp; Sd a5 112 sp; Sd a6 120 sp; Sd a7 128 sp; Sd t3 216 sp; Sd t4 224 sp; Sd t5 232 sp; Sd t6 240 sp;
  Call kerneltrap back].

Definition kernelvec_pop : list instr := [
  Ld ra 0 sp; Ld gp 16 sp; Ld t0 32 sp; Ld t1 40 sp; Ld t2 48 sp; Ld a0 72 sp; Ld a1 80 sp; Ld a2 88 sp;
  Ld a3 96 sp; Ld a4 104 sp; Ld a5 112 sp; Ld a6 120 sp; Ld a7 128 sp; Ld t3 216 sp; Ld t4 224 sp; Ld t5 232 sp; Ld t6 240 sp;
  Addi sp sp 256; Sret].

(** ** entry.S *)

Definition entry (stack0 start spin : Z) : list instr := [
  Li sp stack0; Li a0 (1024 * 4); Csrr a1 mhartid; Addi a1 a1 1; Mul a0 a0 a1; Add sp sp a0; Call start spin].

(** ** usys.S: the stub of system call [n], up to the trap and after it *)

Definition usys_stub (n back : Z) : list instr := [Li a7 n; Ecall back].
Definition usys_back : list instr := [Ret].

(** ** riscv.h *)

Definition MSTATUS_MPP_MASK : Z := Z.shiftl 3 11.
Definition MSTATUS_MPP_S : Z := Z.shiftl 1 11.
Definition SSTATUS_SPP : Z := Z.shiftl 1 8.
Definition SSTATUS_SPIE : Z := Z.shiftl 1 5.
Definition SSTATUS_SIE : Z := Z.shiftl 1 1.
Definition SIE_SEIE : Z := Z.shiftl 1 9.
Definition SIE_STIE : Z := Z.shiftl 1 5.
Definition MIE_STIE : Z := Z.shiftl 1 5.

Definition intr_on (h : hart) : hart := csr_write sstatus (Z.lor (csr_read sstatus h) SSTATUS_SIE) h.
Definition intr_off (h : hart) : hart := csr_write sstatus (Z.land (csr_read sstatus h) (Z.lnot SSTATUS_SIE)) h.
Definition intr_get (h : hart) : bool := negb (Z.land (csr_read sstatus h) SSTATUS_SIE =? 0).

(** ** start.c *)

Definition timerinit (h : hart) : hart :=
  let h := csr_write mie (Z.lor (csr_read mie h) MIE_STIE) h in
  let h := csr_write menvcfg (Z.lor (csr_read menvcfg h) (Z.shiftl 1 63)) h in
  let h := csr_write mcounteren (Z.lor (csr_read mcounteren h) 2) h in
  csr_write stimecmp (csr_read time h + 1000000) h.

Definition start (main : Z) (h : hart) : hart :=
  let x := csr_read mstatus h in
  let x := Z.land x (Z.lnot MSTATUS_MPP_MASK) in
  let x := Z.lor x MSTATUS_MPP_S in
  let h := csr_write mstatus x h in
  let h := csr_write mepc main h in
  let h := csr_write satp 0 h in
  let h := csr_write medeleg 0xffff h in
  let h := csr_write mideleg 0xffff h in
  let h := csr_write sie (Z.lor (Z.lor (csr_read sie h) SIE_SEIE) SIE_STIE) h in
  let h := csr_write pmpaddr0 0x3fffffffffffff h in
  let h := csr_write pmpcfg0 0xf h in
  let h := timerinit h in
  let id := i32 (csr_read mhartid h) in
  let h := wr tp id h in
  mret h.
