(* ===== verification/HartSpec.v ===== *)
(** * What the assembly does

    Runs of stores and of loads through one base register are specified once; the
    trampoline, the context switch and the kernel's trap vector are instances. *)

From Stdlib Require Import ZArith Lia.
From stdpp Require Import base list numbers strings gmap.
From S2P Require Import Prelude Types Mem Layout Hart.
Open Scope Z_scope.

(** ** Registers *)

(** Registers hold 64-bit values. *)
Definition regs_ok (h : hart) : Prop := forall r, 0 <= h.(h_regs) r < 2 ^ 64.

Lemma rd_range r h : regs_ok h -> 0 <= rd r h < 2 ^ 64.
Proof. intros H. unfold rd. case_decide; [lia|apply H]. Qed.
Lemma rd_wr_eq r v h : r ≠ zero -> rd r (wr r v h) = u64 v.
Proof. intros H. unfold rd, wr. cbn. by rewrite decide_False, decide_True. Qed.
Lemma rd_wr_ne r r' v h : r ≠ r' -> rd r (wr r' v h) = rd r h.
Proof. intros H. unfold rd, wr. cbn. case_decide; [done|]. by rewrite decide_False. Qed.
Lemma csr_write_eq c v h : csr_read c (csr_write c v h) = u64 v.
Proof. unfold csr_read, csr_write. cbn. by rewrite decide_True. Qed.
Lemma csr_write_ne c c' v h : c ≠ c' -> csr_read c (csr_write c' v h) = csr_read c h.
Proof. intros H. unfold csr_read, csr_write. cbn. by rewrite decide_False. Qed.

Section runs.
Context `{T : MMU}.

Lemma run_app c c' h : run (c ++ c') h = (h' ← run c h; run c' h').
Proof. revert h. induction c as [|i c IH]; intros h; [done|]. cbn. destruct (step i h); [|done]. cbn. apply IH. Qed.

Lemma run_then c c' h h' r : run c h = Some h' -> run c' h' = r -> run (c ++ c') h = r.
Proof. intros H H'. by rewrite run_app, H. Qed.

(** [n] bytes at the virtual address [va] are [n] bytes at [pa]. *)
Definition window (st va pa n : Z) : Prop := forall o, 0 <= o < n -> translate st (u64 (va + o)) = Some (pa + o).

(** ** Saving registers *)

Definition saves (base : reg) (l : list (reg * Z)) : list instr := (fun p => Sd p.1 p.2 base) <$> l.
Definition loads (base : reg) (l : list (reg * Z)) : list instr := (fun p => Ld p.1 p.2 base) <$> l.

Definition fits (n : Z) (l : list (reg * Z)) : Prop := Forall (fun p => 0 <= p.2 /\ p.2 + 8 <= n /\ p.2 mod 8 = 0) l.

Fixpoint stores (f : reg -> Z) (pa : Z) (l : list (reg * Z)) (m : mem) : mem :=
  match l with
  | [] => m
  | p :: l' => stores f pa l' (store64 m (pa + p.2) (f p.1))
  end.

Lemma run_saves base l h pa n :
  window (csr_read satp h) (rd base h) pa n -> fits n l ->
  run (saves base l) h = Some (set_mem (stores (fun r => rd r h) pa l h.(h_mem)) h).
Proof.
  intros Hw Hf. revert h Hw. induction Hf as [|[r o] l (H1 & H2 & _) _ IH]; intros h Hw; [by destruct h|].
  cbn [saves fmap list_fmap run step fst snd]. cbn in H1, H2. rewrite Hw by lia. cbn [mbind option_bind].
  fold (saves base l). by rewrite IH.
Qed.

Lemma stores_out f pa l m x n :
  fits n l -> (forall p, p ∈ l -> x < pa + p.2 \/ pa + p.2 + 8 <= x) -> stores f pa l m x = m x.
Proof.
  intros Hf. revert m. induction Hf as [|p l (H1 & H2 & _) _ IH]; intros m Hx; [done|]. cbn [stores].
  rewrite IH by (intros q Hq; apply Hx; by right). apply store_ne. specialize (Hx p ltac:(by left)).
  change (Z.of_nat 8) with 8. lia.
Qed.

Lemma stores_load f pa l m n r o :
  fits n l -> NoDup l.*2 -> (r, o) ∈ l -> load64 (stores f pa l m) (pa + o) = u64 (f r).
Proof.
  intros Hf. revert m. induction Hf as [|p l (H1 & H2 & H3) Hf IH]; intros m Hn Hin; [by apply not_elem_of_nil in Hin|].
  cbn [fmap list_fmap] in Hn. apply NoDup_cons in Hn as [Hp Hn]. cbn [stores].
  apply elem_of_cons in Hin as [<-|Hin]; [|by apply IH]. cbn [fst snd] in *.
  rewrite <- (load64_store64_eq m (pa + o) (f r)). apply load_ext. intros x Hx.
  apply (stores_out f pa l _ _ n Hf). intros q Hq.
  assert (Hq2 : q.2 ≠ o) by (intros E; apply Hp; rewrite <- E; apply list_elem_of_fmap; eauto).
  rewrite Forall_forall in Hf. destruct (Hf q Hq) as (_ & _ & H6). change (Z.of_nat 8) with 8 in Hx.
  pose proof (Z.div_mod o 8). pose proof (Z.div_mod (q.2) 8). lia.
Qed.

(** ** Restoring registers *)

Definition loaded (l : list (reg * Z)) (pa : Z) (m : mem) (h : hart) : hart :=
  foldl (fun h p => wr p.1 (load64 m (pa + p.2)) h) h l.

Lemma loaded_mem l pa m h : (loaded l pa m h).(h_mem) = h.(h_mem).
Proof. revert h. induction l as [|p l IH]; intros h; [done|]. unfold loaded. cbn [foldl]. apply (IH (wr _ _ h)). Qed.
Lemma loaded_csrs l pa m h c : csr_read c (loaded l pa m h) = csr_read c h.
Proof. revert h. induction l as [|p l IH]; intros h; [done|]. unfold loaded. cbn [foldl]. apply (IH (wr _ _ h)). Qed.
Lemma loaded_ne l pa m h r : r ∉ l.*1 -> rd r (loaded l pa m h) = rd r h.
Proof.
  revert h. induction l as [|p l IH]; intros h Hr; [done|]. unfold loaded. cbn [foldl].
  cbn [fmap list_fmap] in Hr. apply not_elem_of_cons in Hr as [H1 H2].
  change (rd r (loaded l pa m (wr p.1 (load64 m (pa + p.2)) h)) = rd r h). rewrite IH by done. by apply rd_wr_ne.
Qed.

Lemma u64_load64 m a : byte_mem m -> u64 (load64 m a) = load64 m a.
Proof. intros H. apply u64_small, load64_range, H. Qed.

Lemma loaded_eq l pa m h r o :
  byte_mem m -> NoDup l.*1 -> (r, o) ∈ l -> r ≠ zero -> rd r (loaded l pa m h) = load64 m (pa + o).
Proof.
  intros Hb. revert h. induction l as [|p l IH]; intros h Hn Hin Hz; [by apply not_elem_of_nil in Hin|].
  cbn [fmap list_fmap] in Hn. apply NoDup_cons in Hn as [Hp Hn].
  change (rd r (loaded l pa m (wr p.1 (load64 m (pa + p.2)) h)) = load64 m (pa + o)).
  apply elem_of_cons in Hin as [<-|Hin]; [|by apply IH]. cbn [fst snd] in *.
  rewrite loaded_ne by done. rewrite rd_wr_eq by done. by apply u64_load64.
Qed.

Lemma run_loads base l h pa n :
  window (csr_read satp h) (rd base h) pa n -> fits n l -> base ∉ l.*1 ->
  run (loads base l) h = Some (loaded l pa h.(h_mem) h).
Proof.
  intros Hw Hf. revert h Hw. induction Hf as [|[r o] l (H1 & H2 & _) _ IH]; intros h Hw Hb; [done|].
  cbn [fmap list_fmap fst] in Hb. apply not_elem_of_cons in Hb as [Hb1 Hb2].
  cbn [loads fmap list_fmap run step fst snd]. cbn in H1, H2. rewrite Hw by lia. cbn [mbind option_bind].
  fold (loads base l). rewrite IH; [done| |done]. by rewrite rd_wr_ne.
Qed.

(** ** The trampoline page *)

Definition keeps_satp (i : instr) : bool := match i with Csrw c _ => negb (bool_decide (c = satp)) | _ => true end.

Lemma csr_read_wr c r v h : csr_read c (wr r v h) = csr_read c h.
Proof. done. Qed.

Lemma sret_csr c h : c ≠ sstatus -> csr_read c (sret h) = csr_read c h.
Proof. intros H. exact (csr_write_ne c sstatus _ h H). Qed.

Lemma step_satp i h h' : keeps_satp i = true -> step i h = Some h' -> csr_read satp h' = csr_read satp h.
Proof.
  destruct i; cbn [keeps_satp step]; intros Hk H;
    try (destruct (translate _ _); cbn in H; [|done]); injection H as <-; try done.
  apply csr_write_ne. apply negb_true_iff, bool_decide_eq_false in Hk. congruence.
Qed.

Lemma run_tramp_app page c c' h : run_tramp page (c ++ c') h = (h' ← run_tramp page c h; run_tramp page c' h').
Proof.
  revert h. induction c as [|i c IH]; intros h; [done|]. cbn [app run_tramp]. case_decide; [|done].
  destruct (step i h); [|done]. cbn. apply IH.
Qed.

(** Only the last instruction may change the page table. *)
Lemma run_tramp_run page c h :
  forallb keeps_satp (removelast c) = true -> translate (csr_read satp h) TRAMPOLINE = Some page ->
  run_tramp page c h = run c h.
Proof.
  revert h. induction c as [|j c IH]; intros h Hk Ht; [done|]. cbn [run_tramp run]. rewrite decide_True by done.
  destruct (step j h) as [h'|] eqn:E; [|done]. cbn [mbind option_bind]. destruct c as [|i c]; [done|].
  change (removelast (j :: i :: c)) with (j :: removelast (i :: c)) in Hk. cbn [forallb] in Hk.
  apply andb_true_iff in Hk as [H1 H2]. apply IH; [done|]. by rewrite (step_satp j h h').
Qed.

Lemma run_tramp_then page c c' h h' r :
  forallb keeps_satp (removelast c) = true -> translate (csr_read satp h) TRAMPOLINE = Some page ->
  run c h = Some h' -> run_tramp page c' h' = r -> run_tramp page (c ++ c') h = r.
Proof. intros Hk Ht H H'. by rewrite run_tramp_app, run_tramp_run, H. Qed.
End runs.

(** Every register but a0, in the order uservec saves them. *)
Definition user_regs : list reg :=
  [ra; sp; gp; tp; t0; t1; t2; s0; s1; a1; a2; a3; a4; a5; a6; a7; s2; s3; s4; s5; s6; s7; s8; s9; s10; s11; t3; t4; t5; t6].
Definition user_slots : list (reg * Z) := (fun r => (r, tf_slot r)) <$> user_regs.
Definition kernel_slots : list (reg * Z) := [(sp, 8); (tp, 32); (t0, 16); (t1, 0)].

Lemma user_regs_all r : r ≠ zero -> r ≠ a0 -> r ∈ user_regs.
Proof. destruct r; intros; try done; rewrite list_elem_of_In; cbn; tauto. Qed.
Lemma user_slots_in r : r ≠ zero -> r ≠ a0 -> (r, tf_slot r) ∈ user_slots.
Proof. intros. apply list_elem_of_fmap. exists r. split; [done|]. by apply user_regs_all. Qed.
Lemma user_fits : fits 288 user_slots.
Proof. apply (bool_decide_unpack _). vm_compute. exact I. Qed.
Lemma kernel_fits : fits 288 kernel_slots.
Proof. apply (bool_decide_unpack _). vm_compute. exact I. Qed.
Lemma user_nodup : NoDup user_slots.*2 /\ NoDup user_slots.*1.
Proof. split; apply (bool_decide_unpack _); vm_compute; exact I. Qed.

Section tramp.
Context `{T : MMU} `{L : KernelLayout}.

Lemma uservec_split : uservec =
  ((([Csrw sscratch a0; Li a0 TRAPFRAME] ++ saves a0 user_slots ++ [Csrr t0 sscratch] ++ saves a0 [(t0, 112)]) ++
    loads a0 kernel_slots ++ [SfenceVma; Csrw satp t1])) ++ [SfenceVma; Jalr t0 (TRAMPOLINE + userret_off)].
Proof. reflexivity. Qed.
Lemma userret_split : userret =
  [SfenceVma; Csrw satp a0] ++ [SfenceVma; Li a0 TRAPFRAME] ++ loads a0 user_slots ++ [Ld a0 112 a0; Sret].
Proof. reflexivity. Qed.

(** The hart when uservec has saved the registers. *)
Definition trapped (tf : Z) (h : hart) : mem :=
  store64 (stores (fun r => rd r h) tf user_slots h.(h_mem)) (tf + 112) (rd a0 h).

Lemma stores_ext f g pa l m : (forall p, p ∈ l -> f p.1 = g p.1) -> stores f pa l m = stores g pa l m.
Proof.
  revert m. induction l as [|p l IH]; intros m H; [done|]. cbn [stores]. rewrite (H p) by by left.
  apply IH. intros q Hq. apply H. by right.
Qed.

Lemma trapped_slot tf h r : regs_ok h -> r ≠ zero -> load64 (trapped tf h) (tf + tf_slot r) = rd r h.
Proof.
  intros Hr Hz. unfold trapped. destruct (decide (r = a0)) as [->|Ha].
  - cbn [tf_slot]. rewrite load64_store64_eq. apply u64_small, rd_range, Hr.
  - rewrite load64_store64_ne.
    + rewrite (stores_load _ tf user_slots _ 288 r (tf_slot r) user_fits (proj1 user_nodup) (user_slots_in r Hz Ha)).
      apply u64_small, rd_range, Hr.
    + destruct r; cbn [tf_slot]; try done; lia.
Qed.

(** Nothing but the register slots changes. *)
Lemma trapped_out tf h x : x < tf + 40 \/ tf + 288 <= x -> trapped tf h x = h.(h_mem) x.
Proof.
  intros Hx. unfold trapped. unfold store64. rewrite store_ne by (change (Z.of_nat 8) with 8; lia).
  apply (stores_out _ _ _ _ _ 288 user_fits). intros p Hp.
  assert (40 <= p.2 <= 280).
  { apply list_elem_of_fmap in Hp as (r & -> & Hr). cbn [snd]. assert (r ≠ zero).
    { intros ->. rewrite list_elem_of_In in Hr. cbn in Hr. by repeat destruct Hr as [Hr|Hr]. }
    destruct r; cbn; try done; lia. }
  lia.
Qed.

Lemma trapped_kernel tf h o : 0 <= o <= 32 -> load64 (trapped tf h) (tf + o) = load64 h.(h_mem) (tf + o).
Proof. intros Ho. apply load_ext. intros x Hx. change (Z.of_nat 8) with 8 in Hx. apply trapped_out. lia. Qed.

Lemma store64_byte_mem m a v : byte_mem m -> byte_mem (store64 m a v).
Proof. apply store_byte_mem. Qed.
Lemma stores_byte_mem f pa l m : byte_mem m -> byte_mem (stores f pa l m).
Proof. revert m. induction l as [|p l IH]; intros m H; [done|]. cbn [stores]. by apply IH, store64_byte_mem. Qed.

Lemma not_a0 q : q ∈ user_slots -> q.1 ≠ a0.
Proof.
  intros Hq E. apply list_elem_of_fmap in Hq as (r & -> & Hr). cbn [fst] in E. subst r.
  revert Hr. apply (bool_decide_unpack _). vm_compute. exact I.
Qed.

Lemma uservec_start h :
  regs_ok h -> exists g, run [Csrw sscratch a0; Li a0 TRAPFRAME] h = Some g /\ csr_read satp g = csr_read satp h /\
    csr_read sscratch g = rd a0 h /\ (forall r, r ≠ a0 -> rd r g = rd r h) /\ h_mem g = h_mem h /\ rd a0 g = TRAPFRAME.
Proof.
  intros Hr. exists (wr a0 TRAPFRAME (csr_write sscratch (rd a0 h) h)). split; [reflexivity|]. rewrite !csr_read_wr.
  split; [by apply csr_write_ne|]. split; [rewrite csr_write_eq; by apply u64_small, rd_range|].
  split; [intros r Hra; by rewrite rd_wr_ne|]. split; reflexivity.
Qed.

Lemma csrr_run r c h :
  r ≠ zero -> exists g, run [Csrr r c] h = Some g /\ rd r g = u64 (csr_read c h) /\ (forall c', csr_read c' g = csr_read c' h) /\
    (forall r', r' ≠ r -> rd r' g = rd r' h) /\ h_mem g = h_mem h.
Proof.
  intros Hz. exists (wr r (csr_read c h) h). split; [reflexivity|]. split; [by apply rd_wr_eq|]. split; [done|].
  split; [intros; by apply rd_wr_ne|done].
Qed.

Lemma saved_run base l h pa n m :
  window (csr_read satp h) (rd base h) pa n -> fits n l -> stores (fun r => rd r h) pa l h.(h_mem) = m ->
  exists g, run (saves base l) h = Some g /\ h_mem g = m /\ (forall c, csr_read c g = csr_read c h) /\ (forall r, rd r g = rd r h).
Proof. intros Hw Hf Hm. eexists. split; [by apply (run_saves base l h pa n)|]. by rewrite Hm. Qed.

(** The user registers are saved. *)
Lemma uservec_save tf h :
  regs_ok h -> window (csr_read satp h) TRAPFRAME tf 288 ->
  exists g, run ([Csrw sscratch a0; Li a0 TRAPFRAME] ++ saves a0 user_slots ++ [Csrr t0 sscratch] ++ saves a0 [(t0, 112)]) h = Some g /\
    h_mem g = trapped tf h /\ csr_read satp g = csr_read satp h /\ window (csr_read satp g) (rd a0 g) tf 288.
Proof.
  intros Hr Hw. destruct (uservec_start h Hr) as (g1 & E1 & Hs1 & Hsc & Hr1 & Hm1 & Ha1).
  destruct (saved_run a0 user_slots g1 tf 288 (stores (fun r => rd r h) tf user_slots (h_mem h))) as (g2 & E2 & Hm2 & Hc2 & Hr2);
    [by rewrite Hs1, Ha1|apply user_fits|rewrite Hm1; apply stores_ext; intros q Hq; by apply Hr1, not_a0|].
  destruct (csrr_run t0 sscratch g2) as (g3 & E3 & Ht3 & Hc3 & Hr3 & Hm3); [done|].
  rewrite Hc2, Hsc, u64_small in Ht3 by (by apply rd_range).
  assert (Hf : fits 288 [(t0, 112)]) by (apply (bool_decide_unpack _); vm_compute; exact I).
  assert (Ha3 : rd a0 g3 = TRAPFRAME) by (by rewrite Hr3, Hr2).
  destruct (saved_run a0 [(t0, 112)] g3 tf 288 (trapped tf h)) as (g4 & E4 & Hm4 & Hc4 & Hr4);
    [by rewrite Hc3, Hc2, Hs1, Ha3|exact Hf|cbn [stores fst snd]; by rewrite Hm3, Hm2, Ht3|].
  exists g4. split; [exact (run_then _ _ _ _ _ E1 (run_then _ _ _ _ _ E2 (run_then _ _ _ _ _ E3 E4)))|].
  split; [exact Hm4|]. rewrite Hc4, Hc3, Hc2, Hs1, Hr4, Ha3. by split.
Qed.

Lemma loaded_run base l h pa n m :
  byte_mem m -> h_mem h = m -> window (csr_read satp h) (rd base h) pa n -> fits n l -> base ∉ l.*1 -> NoDup l.*1 ->
  exists g, run (loads base l) h = Some g /\ h_mem g = m /\ (forall c, csr_read c g = csr_read c h) /\
    (forall r, r ∉ l.*1 -> rd r g = rd r h) /\ (forall r o, (r, o) ∈ l -> r ≠ zero -> rd r g = load64 m (pa + o)).
Proof.
  intros Hb Hm Hw Hf Hn Hd. exists (loaded l pa m h). split; [rewrite <- Hm; by apply (run_loads base l h pa n)|].
  split; [by rewrite loaded_mem|]. split; [intros c; apply loaded_csrs|]. split; [intros r; apply loaded_ne|].
  intros r o Hin Hz. by apply loaded_eq.
Qed.

Lemma kernel_slots_in : (sp, 8) ∈ kernel_slots /\ (tp, 32) ∈ kernel_slots /\ (t0, 16) ∈ kernel_slots /\ (t1, 0) ∈ kernel_slots.
Proof. rewrite !list_elem_of_In. cbn. tauto. Qed.

(** The kernel's stack pointer, hart id, trap handler and page table are loaded. *)
Lemma uservec_load tf m g :
  byte_mem m -> h_mem g = m -> window (csr_read satp g) (rd a0 g) tf 288 ->
  exists g', run (loads a0 kernel_slots ++ [SfenceVma; Csrw satp t1]) g = Some g' /\ h_mem g' = m /\
    rd sp g' = load64 m (tf + 8) /\ rd tp g' = load64 m (tf + 32) /\ rd t0 g' = load64 m (tf + 16) /\
    csr_read satp g' = load64 m tf.
Proof.
  intros Hb Hm Hw. destruct (loaded_run a0 kernel_slots g tf 288 m Hb Hm Hw kernel_fits) as (g5 & E1 & Hm5 & _ & _ & Hv);
    [apply (bool_decide_unpack _); vm_compute; exact I..|].
  destruct kernel_slots_in as (I1 & I2 & I3 & I4).
  assert (Ht1 : rd t1 g5 = load64 m tf) by (rewrite (Hv t1 0), Z.add_0_r by done; done).
  assert (E2 : run [SfenceVma; Csrw satp t1] g5 = Some (csr_write satp (rd t1 g5) g5)) by reflexivity.
  exists (csr_write satp (rd t1 g5) g5). split; [exact (run_then _ _ _ _ _ E1 E2)|]. split; [exact Hm5|].
  split; [by apply (Hv sp)|]. split; [by apply (Hv tp)|]. split; [by apply (Hv t0)|].
  rewrite csr_write_eq, Ht1. by apply u64_load64.
Qed.

Lemma jalr_run r next h :
  r ≠ zero -> exists g, run [SfenceVma; Jalr r next] h = Some g /\ h_pc g = rd r h /\ rd ra g = u64 next /\
    (forall r', r' ≠ ra -> rd r' g = rd r' h) /\ h_mem g = h_mem h /\ (forall c, csr_read c g = csr_read c h).
Proof.
  intros Hz. exists (set_pc (rd r h) (wr ra next h)). split; [reflexivity|]. split; [reflexivity|].
  split; [by apply (rd_wr_eq ra next h)|]. split; [intros r' Hr'; by apply (rd_wr_ne r' ra next h)|done].
Qed.

Lemma uservec_run page tf h :
  regs_ok h -> byte_mem h.(h_mem) -> window (csr_read satp h) TRAPFRAME tf 288 ->
  translate (csr_read satp h) TRAMPOLINE = Some page ->
  translate (load64 h.(h_mem) tf) TRAMPOLINE = Some page ->
  exists h', run_tramp page uservec h = Some h' /\ h'.(h_mem) = trapped tf h /\
    h'.(h_pc) = load64 h.(h_mem) (tf + 16) /\ rd sp h' = load64 h.(h_mem) (tf + 8) /\
    rd tp h' = load64 h.(h_mem) (tf + 32) /\ csr_read satp h' = load64 h.(h_mem) tf /\
    rd ra h' = u64 (TRAMPOLINE + userret_off).
Proof.
  intros Hr Hb Hw Ht Hk. destruct (uservec_save tf h Hr Hw) as (g & E & Hm & Hs & Hw').
  assert (Hbm : byte_mem (trapped tf h)) by apply store64_byte_mem, stores_byte_mem, Hb.
  destruct (uservec_load tf (trapped tf h) g Hbm Hm Hw') as (g' & E' & Hm' & H1 & H2 & H3 & H4).
  rewrite trapped_kernel in H1, H2, H3 by lia.
  pose proof (trapped_kernel tf h 0 ltac:(lia)) as H0. rewrite Z.add_0_r in H0. rewrite H0 in H4.
  destruct (jalr_run t0 (TRAMPOLINE + userret_off) g') as (g6 & E6 & Hpc & Hra & Hr6 & Hm6 & Hc6); [done|].
  exists g6. rewrite uservec_split. split.
  - eapply run_tramp_then; [reflexivity|exact Ht|exact (run_then _ _ _ _ _ E E')|].
    rewrite run_tramp_run; [exact E6|reflexivity|]. by rewrite H4.
  - rewrite Hm6, Hpc, !Hr6, Hc6 by done. auto 10.
Qed.

Lemma userret_run page tf h :
  byte_mem h.(h_mem) -> translate (csr_read satp h) TRAMPOLINE = Some page ->
  let usatp := u64 (rd a0 h) in
  window usatp TRAPFRAME tf 288 -> translate usatp TRAMPOLINE = Some page ->
  exists h', run_tramp page userret h = Some h' /\ (forall r, r ≠ zero -> rd r h' = load64 h.(h_mem) (tf + tf_slot r)) /\
    csr_read satp h' = usatp /\ h'.(h_pc) = csr_read sepc h /\ h'.(h_mem) = h.(h_mem) /\
    h'.(h_mode) = if bit (csr_read sstatus h) 8 then Supervisor else User.
Proof.
  intros Hb Ht usatp Hw Hu.
  assert (exists g1, run [SfenceVma; Csrw satp a0] h = Some g1 /\ csr_read satp g1 = usatp /\
    (forall c, c ≠ satp -> csr_read c g1 = csr_read c h) /\ h_mem g1 = h_mem h) as (g1 & E1 & Hs1 & Hc1 & Hm1).
  { exists (csr_write satp (rd a0 h) h). split; [reflexivity|]. split; [apply csr_write_eq|].
    split; [intros c; apply csr_write_ne|done]. }
  assert (exists g2, run [SfenceVma; Li a0 TRAPFRAME] g1 = Some g2 /\ rd a0 g2 = TRAPFRAME /\
    (forall c, csr_read c g2 = csr_read c g1) /\ h_mem g2 = h_mem g1) as (g2 & E2 & Ha2 & Hc2 & Hm2).
  { exists (wr a0 TRAPFRAME g1). done. }
  destruct (loaded_run a0 user_slots g2 tf 288 (h_mem h)) as (g3 & E3 & Hm3 & Hc3 & Hn3 & Hv3);
    [exact Hb|by rewrite Hm2|by rewrite Hc2, Hs1, Ha2|apply user_fits|apply (bool_decide_unpack _); vm_compute; exact I|apply user_nodup|].
  assert (Ha3 : rd a0 g3 = TRAPFRAME) by (rewrite Hn3; [done|]; apply (bool_decide_unpack _); vm_compute; exact I).
  assert (E4 : run [Ld a0 112 a0; Sret] g3 = Some (sret (wr a0 (load64 (h_mem h) (tf + 112)) g3))).
  { cbn [run step]. rewrite Hc3, Hc2, Hs1, Ha3, (Hw 112) by lia. cbn [mbind option_bind]. by rewrite Hm3. }
  exists (sret (wr a0 (load64 (h_mem h) (tf + 112)) g3)). rewrite userret_split.
  split; [|split; [|split; [|split; [|split]]]].
  - eapply run_tramp_then; [reflexivity|exact Ht|exact E1|].
    rewrite run_tramp_run; [|reflexivity|by rewrite Hs1].
    exact (run_then _ _ _ _ _ E2 (run_then _ _ _ _ _ E3 E4)).
  - intros r Hz. change (rd r (wr a0 (load64 (h_mem h) (tf + 112)) g3) = load64 (h_mem h) (tf + tf_slot r)).
    destruct (decide (r = a0)) as [->|Hra].
    + rewrite rd_wr_eq by done. by apply u64_load64.
    + rewrite rd_wr_ne by done. apply Hv3; [by apply user_slots_in|done].
  - rewrite sret_csr by done. rewrite csr_read_wr. by rewrite Hc3, Hc2.
  - change (csr_read sepc g3 = csr_read sepc h). by rewrite Hc3, Hc2, Hc1.
  - exact Hm3.
  - change ((if bit (csr_read sstatus g3) 8 then Supervisor else User) = if bit (csr_read sstatus h) 8 then Supervisor else User).
    by rewrite Hc3, Hc2, Hc1.
Qed.
End tramp.

(** C17. A trap from user mode and the return to it.  Entered with the user page table,
    which maps the trapframe page [tf] at TRAPFRAME, uservec saves all 31 registers of
    the user in the slots of struct trapframe and writes nothing else, switches to the
    kernel's stack, hart id and page table and goes to usertrap with userret as its
    return address; userret, entered with the user page table in a0, loads every
    register from its slot and goes on at sepc.  Registers whose slots the kernel has
    not changed have the value they had at the trap.  Neither faults, as the page of
    the code is mapped at TRAMPOLINE in both page tables. *)
Theorem trampoline_roundtrip `{T : MMU} `{L : KernelLayout} page tf h usatp :
  regs_ok h -> byte_mem h.(h_mem) -> csr_read satp h = usatp -> 0 <= usatp < 2 ^ 64 ->
  window usatp TRAPFRAME tf 288 -> translate usatp TRAMPOLINE = Some page ->
  translate (load64 h.(h_mem) tf) TRAMPOLINE = Some page ->
  exists h1, run_tramp page uservec h = Some h1 /\
    (forall r, r ≠ zero -> load64 h1.(h_mem) (tf + tf_slot r) = rd r h) /\
    (forall x, x < tf + 40 \/ tf + 288 <= x -> h1.(h_mem) x = h.(h_mem) x) /\
    h1.(h_pc) = load64 h.(h_mem) (tf + 16) /\ rd sp h1 = load64 h.(h_mem) (tf + 8) /\
    rd tp h1 = load64 h.(h_mem) (tf + 32) /\ csr_read satp h1 = load64 h.(h_mem) tf /\
    rd ra h1 = u64 (TRAMPOLINE + userret_off) /\
    forall h2, byte_mem h2.(h_mem) -> rd a0 h2 = usatp -> translate (csr_read satp h2) TRAMPOLINE = Some page ->
      exists h3, run_tramp page userret h2 = Some h3 /\ csr_read satp h3 = usatp /\ h3.(h_pc) = csr_read sepc h2 /\
        forall r, r ≠ zero -> rd r h3 = load64 h2.(h_mem) (tf + tf_slot r) /\
          (load64 h2.(h_mem) (tf + tf_slot r) = load64 h1.(h_mem) (tf + tf_slot r) -> rd r h3 = rd r h).
Proof.
  intros Hr Hb Hs Hu Hw Ht Hk. rewrite <- Hs in Hw, Ht.
  destruct (uservec_run page tf h Hr Hb Hw Ht Hk) as (h1 & E & Hm & H1 & H2 & H3 & H4 & H5).
  exists h1. split; [exact E|]. rewrite Hm. split; [intros r Hz; by apply trapped_slot|].
  split; [intros x; apply trapped_out|]. do 5 (split; [done|]). intros h2 Hb2 Ha2 Ht2.
  destruct (userret_run page tf h2 Hb2 Ht2) as (h3 & E3 & Hr3 & Hs3 & Hp3 & _ & _);
    [by rewrite Ha2, u64_small, <- Hs|by rewrite Ha2, u64_small, <- Hs|].
  exists h3. split; [exact E3|]. split; [by rewrite Hs3, Ha2, u64_small|]. split; [exact Hp3|].
  intros r Hz. split; [by apply Hr3|]. intros Es. rewrite Hr3, Es by done. by apply trapped_slot.
Qed.

(** ** The context switch *)

(** struct context *)
Definition ctx_slots : list (reg * Z) :=
  [(ra, 0); (sp, 8); (s0, 16); (s1, 24); (s2, 32); (s3, 40); (s4, 48); (s5, 56); (s6, 64); (s7, 72); (s8, 80);
   (s9, 88); (s10, 96); (s11, 104)].

Lemma ctx_fits : fits 112 ctx_slots.
Proof. apply (bool_decide_unpack _). vm_compute. exact I. Qed.
Lemma ctx_nodup : NoDup ctx_slots.*2 /\ NoDup ctx_slots.*1.
Proof. split; apply (bool_decide_unpack _); vm_compute; exact I. Qed.

Lemma swtch_split : swtch = saves a0 ctx_slots ++ loads a1 ctx_slots ++ [Ret].
Proof. reflexivity. Qed.

Definition apart (a b n : Z) : Prop := a + n <= b \/ b + n <= a.

Lemma stores_window f pa l m n x : fits n l -> x < pa \/ pa + n <= x -> stores f pa l m x = m x.
Proof.
  intros Hf Hx. apply (stores_out f pa l m x n Hf). intros p Hp. unfold fits in Hf. rewrite Forall_forall in Hf.
  destruct (Hf p Hp) as (? & ? & _). lia.
Qed.

Section context_switch.
Context `{T : MMU}.

Lemma ret_run h : exists g, run [Ret] h = Some g /\ h_pc g = rd ra h /\ (forall r, rd r g = rd r h) /\ h_mem g = h_mem h.
Proof. by exists (set_pc (rd ra h) h). Qed.

Lemma swtch_run h old new :
  byte_mem h.(h_mem) -> window (csr_read satp h) (rd a0 h) old 112 -> window (csr_read satp h) (rd a1 h) new 112 ->
  apart old new 112 ->
  exists g, run swtch h = Some g /\ h_mem g = stores (fun r => rd r h) old ctx_slots h.(h_mem) /\
    (forall r o, (r, o) ∈ ctx_slots -> rd r g = load64 h.(h_mem) (new + o)) /\ h_pc g = load64 h.(h_mem) new /\
    (forall r, r ∉ ctx_slots.*1 -> rd r g = rd r h).
Proof.
  intros Hb Hw1 Hw2 Ha. set (m := stores (fun r => rd r h) old ctx_slots h.(h_mem)).
  destruct (saved_run a0 ctx_slots h old 112 m Hw1 ctx_fits eq_refl) as (g1 & E1 & Hm1 & Hc1 & Hr1).
  assert (Hbm : byte_mem m) by apply stores_byte_mem, Hb.
  destruct (loaded_run a1 ctx_slots g1 new 112 m Hbm Hm1) as (g2 & E2 & Hm2 & Hc2 & Hn2 & Hv2);
    [by rewrite Hc1, Hr1|apply ctx_fits|apply (bool_decide_unpack _); vm_compute; exact I|apply ctx_nodup|].
  destruct (ret_run g2) as (g3 & E3 & Hp3 & Hr3 & Hm3).
  assert (Hl : forall o, 0 <= o <= 104 -> load64 m (new + o) = load64 h.(h_mem) (new + o)).
  { intros o Ho. apply load_ext. intros x Hx. change (Z.of_nat 8) with 8 in Hx. apply (stores_window _ _ _ _ 112 _ ctx_fits).
    unfold apart in Ha. lia. }
  assert (Hv : forall r o, (r, o) ∈ ctx_slots -> rd r g2 = load64 h.(h_mem) (new + o)).
  { intros r o Hin. rewrite <- Hl.
    - apply Hv2; [done|]. intros ->. revert Hin. rewrite list_elem_of_In. cbn. by intuition.
    - pose proof ctx_fits as Hf. unfold fits in Hf. rewrite Forall_forall in Hf. destruct (Hf _ Hin) as (? & ? & _). cbn in *. lia. }
  exists g3. rewrite swtch_split. split; [exact (run_then _ _ _ _ _ E1 (run_then _ _ _ _ _ E2 E3))|].
  split; [by rewrite Hm3, Hm2|]. split; [intros r o Hin; rewrite Hr3; by apply Hv|]. split.
  - rewrite Hp3, (Hv ra 0), Z.add_0_r; [done|]. rewrite list_elem_of_In. cbn. tauto.
  - intros r Hr. by rewrite Hr3, Hn2, Hr1.
Qed.
End context_switch.

(** C31. A context switch and the switch back.  swtch(old, new) saves ra, sp and s0-s11 in
    *old, loads them from *new and returns to new's ra, changing no other register and no
    other memory.  When later code, on any hart, with *old untouched, switches to [old],
    the fourteen registers have the values they had at the first call and execution goes
    on where it would have returned. *)
Theorem swtch_roundtrip `{T : MMU} h old new :
  regs_ok h -> byte_mem h.(h_mem) ->
  window (csr_read satp h) (rd a0 h) old 112 -> window (csr_read satp h) (rd a1 h) new 112 -> apart old new 112 ->
  exists g, run swtch h = Some g /\
    (forall x, x < old \/ old + 112 <= x -> h_mem g x = h_mem h x) /\
    (forall r o, (r, o) ∈ ctx_slots -> rd r g = load64 h.(h_mem) (new + o)) /\ h_pc g = load64 h.(h_mem) new /\
    (forall r, r ∉ ctx_slots.*1 -> rd r g = rd r h) /\
    forall h' old', byte_mem h'.(h_mem) -> (forall x, old <= x < old + 112 -> h_mem h' x = h_mem g x) ->
      window (csr_read satp h') (rd a0 h') old' 112 -> window (csr_read satp h') (rd a1 h') old 112 -> apart old' old 112 ->
      exists g', run swtch h' = Some g' /\ h_pc g' = rd ra h /\ forall r, r ∈ ctx_slots.*1 -> rd r g' = rd r h.
Proof.
  intros Hr Hb Hw1 Hw2 Ha. destruct (swtch_run h old new Hb Hw1 Hw2 Ha) as (g & E & Hm & Hv & Hp & Hn).
  exists g. split; [exact E|]. split; [intros x Hx; rewrite Hm; by apply (stores_window _ _ _ _ 112 _ ctx_fits)|].
  do 3 (split; [done|]). intros h' old' Hb' Hk Hw1' Hw2' Ha'.
  destruct (swtch_run h' old' old Hb' Hw1' Hw2' Ha') as (g' & E' & _ & Hv' & Hp' & _).
  assert (Hl : forall r o, (r, o) ∈ ctx_slots -> load64 (h_mem h') (old + o) = rd r h).
  { intros r o Hin. pose proof ctx_fits as Hf. unfold fits in Hf. rewrite Forall_forall in Hf.
    destruct (Hf _ Hin) as (? & ? & _). cbn [snd] in *. unfold load64. rewrite (load_ext 8 (h_mem h') (h_mem g)).
    - change (load64 (h_mem g) (old + o) = rd r h). rewrite Hm.
      rewrite (stores_load _ old ctx_slots _ 112 r o ctx_fits (proj1 ctx_nodup) Hin). apply u64_small, rd_range, Hr.
    - intros x Hx. change (Z.of_nat 8) with 8 in Hx. apply Hk. lia. }
  exists g'. split; [exact E'|]. split.
  - rewrite Hp', <- (Z.add_0_r old). apply Hl. rewrite list_elem_of_In. cbn. tauto.
  - intros r Hin. apply list_elem_of_fmap in Hin as ([r' o] & -> & Hin). cbn [fst]. rewrite (Hv' r' o Hin). by apply Hl.
Qed.

(** ** Interrupts in the kernel *)

(** The caller-saved registers kernelvec pushes, and those it pops again. *)
Definition vec_slots : list (reg * Z) :=
  [(ra, 0); (gp, 16); (tp, 24); (t0, 32); (t1, 40); (t2, 48); (a0, 72); (a1, 80); (a2, 88); (a3, 96); (a4, 104); (a5, 112);
   (a6, 120); (a7, 128); (t3, 216); (t4, 224); (t5, 232); (t6, 240)].
Definition pop_slots : list (reg * Z) := filter (fun p => p.1 ≠ tp) vec_slots.

(** What a C function preserves: sp and s0-s11. *)
Definition callee_saved (r : reg) : Prop := r ∈ [sp; s0; s1; s2; s3; s4; s5; s6; s7; s8; s9; s10; s11].

Lemma vec_fits : fits 256 vec_slots.
Proof. apply (bool_decide_unpack _). vm_compute. exact I. Qed.
Lemma pop_fits : fits 256 pop_slots.
Proof. apply (bool_decide_unpack _). vm_compute. exact I. Qed.
Lemma pop_nodup : NoDup pop_slots.*1.
Proof. apply (bool_decide_unpack _). vm_compute. exact I. Qed.
Definition vec_slot (r : reg) : Z := default 0 (snd <$> head (filter (fun p => p.1 = r) vec_slots)).

Lemma vec_cases r :
  r = zero \/ r = tp \/ r ∈ [sp; s0; s1; s2; s3; s4; s5; s6; s7; s8; s9; s10; s11] \/
  (r, vec_slot r) ∈ pop_slots /\ (r, vec_slot r) ∈ vec_slots.
Proof. destruct r; apply (bool_decide_unpack _); vm_compute; exact I. Qed.
Lemma callee_not_popped r : r ∈ [sp; s0; s1; s2; s3; s4; s5; s6; s7; s8; s9; s10; s11] -> r ∉ pop_slots.*1.
Proof.
  intros H. assert (Hf : Forall (fun r => r ∉ pop_slots.*1) [sp; s0; s1; s2; s3; s4; s5; s6; s7; s8; s9; s10; s11])
    by (apply (bool_decide_unpack _); vm_compute; exact I).
  rewrite Forall_forall in Hf. by apply Hf.
Qed.
Lemma vec_not_sp p : p ∈ vec_slots -> p.1 ≠ sp.
Proof.
  intros H. assert (Hf : Forall (fun p => p.1 ≠ sp) vec_slots) by (apply (bool_decide_unpack _); vm_compute; exact I).
  rewrite Forall_forall in Hf. by apply Hf.
Qed.
Lemma callee_not_ra r : callee_saved r -> r ≠ ra.
Proof.
  intros H. assert (Hf : Forall (fun r => r ≠ ra) [sp; s0; s1; s2; s3; s4; s5; s6; s7; s8; s9; s10; s11])
    by (apply (bool_decide_unpack _); vm_compute; exact I).
  rewrite Forall_forall in Hf. by apply Hf.
Qed.

Lemma kernelvec_push_split kt back :
  kernelvec_push kt back = [Addi sp sp (-256)] ++ saves sp vec_slots ++ [Call kt back].
Proof. reflexivity. Qed.
Lemma kernelvec_pop_split : kernelvec_pop = loads sp pop_slots ++ [Addi sp sp 256; Sret].
Proof. reflexivity. Qed.

Section vec.
Context `{T : MMU}.

Lemma addi_run r s v h :
  r ≠ zero -> exists g, run [Addi r s v] h = Some g /\ rd r g = u64 (rd s h + v) /\ (forall c, csr_read c g = csr_read c h) /\
    (forall r', r' ≠ r -> rd r' g = rd r' h) /\ h_mem g = h_mem h.
Proof.
  intros Hz. exists (wr r (rd s h + v) h). split; [reflexivity|]. split; [by apply rd_wr_eq|]. split; [done|].
  split; [intros; by apply rd_wr_ne|done].
Qed.

Lemma kernelvec_push_run kt back st h :
  256 <= rd sp h < 2 ^ 64 -> window (csr_read satp h) (rd sp h - 256) st 256 ->
  exists g, run (kernelvec_push kt back) h = Some g /\ rd sp g = rd sp h - 256 /\ h_pc g = kt /\ rd ra g = u64 back /\
    (forall r, callee_saved r -> r ≠ sp -> rd r g = rd r h) /\ h_mem g = stores (fun r => rd r h) st vec_slots (h_mem h).
Proof.
  intros Hsp Hw. destruct (addi_run sp sp (-256) h) as (g1 & E1 & Hs1 & Hc1 & Hr1 & Hm1); [done|].
  rewrite u64_small in Hs1 by lia.
  destruct (saved_run sp vec_slots g1 st 256 (stores (fun r => rd r h) st vec_slots (h_mem h))) as (g2 & E2 & Hm2 & Hc2 & Hr2).
  { rewrite Hc1, Hs1. exact Hw. }
  { apply vec_fits. }
  { rewrite Hm1. apply stores_ext. intros p Hp. by apply Hr1, vec_not_sp. }
  assert (exists g3, run [Call kt back] g2 = Some g3 /\ h_pc g3 = kt /\ rd ra g3 = u64 back /\
    (forall r, r ≠ ra -> rd r g3 = rd r g2) /\ h_mem g3 = h_mem g2) as (g3 & E3 & Hp3 & Ha3 & Hr3 & Hm3).
  { exists (set_pc kt (wr ra back g2)). split; [reflexivity|]. split; [reflexivity|]. split; [by apply (rd_wr_eq ra back g2)|].
    split; [intros r Hr; by apply (rd_wr_ne r ra back g2)|done]. }
  exists g3. rewrite kernelvec_push_split. split; [exact (run_then _ _ _ _ _ E1 (run_then _ _ _ _ _ E2 E3))|].
  split; [rewrite Hr3, Hr2, Hs1 by done; lia|]. split; [done|]. split; [done|]. split; [|by rewrite Hm3].
  intros r Hc Hs. rewrite Hr3, Hr2, Hr1; [done|done|]. by apply callee_not_ra.
Qed.

Lemma kernelvec_pop_run st h :
  byte_mem h.(h_mem) -> 0 <= rd sp h < 2 ^ 64 - 256 -> window (csr_read satp h) (rd sp h) st 256 ->
  exists g, run kernelvec_pop h = Some g /\ rd sp g = rd sp h + 256 /\ h_pc g = csr_read sepc h /\
    (forall r o, (r, o) ∈ pop_slots -> r ≠ zero -> r ≠ sp -> rd r g = load64 h.(h_mem) (st + o)) /\
    (forall r, r ∉ pop_slots.*1 -> r ≠ sp -> rd r g = rd r h).
Proof.
  intros Hb Hsp Hw.
  destruct (loaded_run sp pop_slots h st 256 (h_mem h)) as (g1 & E1 & Hm1 & Hc1 & Hn1 & Hv1);
    [done|done|exact Hw|apply pop_fits|apply (bool_decide_unpack _); vm_compute; exact I|apply pop_nodup|].
  assert (Hs1 : rd sp g1 = rd sp h) by (apply Hn1; apply (bool_decide_unpack _); vm_compute; exact I).
  destruct (addi_run sp sp 256 g1) as (g2 & E2 & Hs2 & Hc2 & Hr2 & Hm2); [done|].
  assert (E3 : run [Addi sp sp 256; Sret] g1 = Some (sret g2)) by exact (run_then [_] [_] _ _ _ E2 eq_refl).
  exists (sret g2). rewrite kernelvec_pop_split. split; [exact (run_then _ _ _ _ _ E1 E3)|].
  split; [change (rd sp g2 = rd sp h + 256); rewrite Hs2, Hs1; apply u64_small; lia|].
  split; [change (csr_read sepc g2 = csr_read sepc h); by rewrite Hc2, Hc1|]. split.
  - intros r o Hin Hz Hs. change (rd r g2 = load64 (h_mem h) (st + o)). rewrite Hr2 by done. by apply Hv1.
  - intros r Hr Hs. change (rd r g2 = rd r h). rewrite Hr2 by done. by apply Hn1.
Qed.
End vec.

(** C32. An interrupt in the kernel is invisible to the code it interrupts.  kernelvec pushes
    the caller-saved registers on the kernel stack and calls kerneltrap; when that returns,
    having kept what a C function keeps and the 256 bytes above its stack pointer, every
    register but tp, which belongs to the hart, has the value it had, and execution goes on
    at sepc.  What kerneltrap does to other memory is the handler's business. *)
Theorem kernelvec_transparent `{T : MMU} kt back st h :
  regs_ok h -> byte_mem h.(h_mem) -> 256 <= rd sp h -> window (csr_read satp h) (rd sp h - 256) st 256 ->
  exists g, run (kernelvec_push kt back) h = Some g /\ h_pc g = kt /\ rd ra g = u64 back /\
    forall h', byte_mem h'.(h_mem) -> (forall r, callee_saved r -> rd r h' = rd r g) ->
      (forall x, st <= x < st + 256 -> h_mem h' x = h_mem g x) -> window (csr_read satp h') (rd sp h') st 256 ->
      exists g', run kernelvec_pop h' = Some g' /\ h_pc g' = csr_read sepc h' /\
        forall r, r ≠ tp -> rd r g' = rd r h.
Proof.
  intros Hr Hb Hsp Hw. pose proof (rd_range sp h Hr) as Hsr.
  destruct (kernelvec_push_run kt back st h) as (g & E & Hs & Hp & Ha & Hc & Hm); [lia|done|].
  exists g. do 3 (split; [done|]). intros h' Hb' Hc' Hk Hw'.
  assert (Hsp' : rd sp h' = rd sp h - 256) by (rewrite Hc' by (by left); done).
  destruct (kernelvec_pop_run st h') as (g' & E' & Hs' & Hp' & Hv' & Hn'); [done|lia|done|].
  exists g'. do 2 (split; [done|]). intros r Ht. destruct (decide (r = sp)) as [->|Hnsp]; [rewrite Hs'; lia|].
  destruct (vec_cases r) as [->|[->|[Hcs|[Ho Hv]]]]; [done|done| |].
  - rewrite Hn' by (done || by apply callee_not_popped). by rewrite Hc', Hc.
  - set (o := vec_slot r) in *. destruct (decide (r = zero)) as [->|Hz]; [done|]. rewrite (Hv' r o Ho Hz Hnsp).
    pose proof vec_fits as Hf. unfold fits in Hf. rewrite Forall_forall in Hf. destruct (Hf _ Hv) as (? & ? & _). cbn [snd] in *.
    unfold load64. rewrite (load_ext 8 (h_mem h') (h_mem g)).
    + change (load64 (h_mem g) (st + o) = rd r h). rewrite Hm.
      rewrite (stores_load _ st vec_slots _ 256 r o vec_fits); [apply u64_small, rd_range, Hr| |done].
      apply (bool_decide_unpack _). vm_compute. exact I.
    + intros x Hx. change (Z.of_nat 8) with 8 in Hx. apply Hk. lia.
Qed.

(** ** Booting a hart *)

Lemma setbit_mpp x : 0 <= x -> let y := Z.lor (Z.land x (Z.lnot MSTATUS_MPP_MASK)) MSTATUS_MPP_S in
  Z.land (Z.shiftr y 11) 3 = 1.
Proof.
  intros Hx y. unfold y, MSTATUS_MPP_MASK, MSTATUS_MPP_S. rewrite Z.shiftr_lor, Z.shiftr_land, Z.shiftr_shiftl_l by lia.
  change 3 with (Z.ones 2). rewrite Z.land_lor_distr_l.
  assert (H : Z.land (Z.land (Z.shiftr x 11) (Z.shiftr (Z.lnot (Z.shiftl (Z.ones 2) 11)) 11)) (Z.ones 2) = 0).
  { rewrite <- Z.land_assoc. change (Z.land (Z.shiftr (Z.lnot (Z.shiftl (Z.ones 2) 11)) 11) (Z.ones 2)) with 0. apply Z.land_0_r. }
  by rewrite H.
Qed.

Lemma mpp_u64 x : 0 <= x < 2 ^ 64 -> u64 (Z.lor (Z.land x (Z.lnot MSTATUS_MPP_MASK)) MSTATUS_MPP_S) =
  Z.lor (Z.land x (Z.lnot MSTATUS_MPP_MASK)) MSTATUS_MPP_S.
Proof.
  intros Hx. unfold u64. rewrite <- Z.land_ones by lia. apply Z.bits_inj'. intros n Hn. rewrite Z.land_spec.
  destruct (Z_lt_ge_dec n 64); [rewrite Z.ones_spec_low by lia; apply andb_true_r|].
  rewrite Z.ones_spec_high by lia. rewrite andb_false_r, Z.lor_spec, Z.land_spec.
  replace (Z.testbit x n) with false.
  - cbn. unfold MSTATUS_MPP_S. rewrite Z.shiftl_spec by lia. symmetry. apply Z.bits_above_log2; [lia|]. simpl. lia.
  - symmetry. destruct (Z.eq_dec x 0) as [->|]; [apply Z.bits_0|]. apply Z.bits_above_log2; [lia|].
    apply Z.log2_lt_pow2; [lia|]. apply Z.lt_le_trans with (2 ^ 64); [lia|]. apply Z.pow_le_mono_r; lia.
Qed.

Lemma mret_csr c h : c ≠ mstatus -> csr_read c (mret h) = csr_read c h.
Proof. intros H. exact (csr_write_ne c mstatus _ h H). Qed.
Lemma mret_rd r h : rd r (mret h) = rd r h.
Proof. done. Qed.
Lemma rd_csr_write r c v h : rd r (csr_write c v h) = rd r h.
Proof. done. Qed.
Lemma mret_pc h : h_pc (mret h) = csr_read mepc h.
Proof. done. Qed.
Lemma mret_mode h : Z.land (Z.shiftr (csr_read mstatus h) 11) 3 = 1 -> h_mode (mret h) = Supervisor.
Proof. intros H. unfold mret. cbn [h_mode set_pc set_mode]. by rewrite H. Qed.

(** Control registers after a sequence of writes. *)
Ltac csr_simpl := repeat ((rewrite mret_csr by done) || rewrite csr_read_wr || (rewrite csr_write_ne by done) || rewrite csr_write_eq).

(** Booting.  The stack entry.S gives a hart is the hart's own 4096 bytes of stack0;
    start() then leaves machine mode for main() in supervisor mode, with paging off, the
    hart's number in tp, interrupts and exceptions delegated, external and timer interrupts
    enabled, all of physical memory accessible and the first timer interrupt a million
    cycles away. *)
Theorem boot_hart `{T : MMU} stack0 startf spin main h id :
  csr_read mhartid h = id -> 0 <= id < Z.of_nat NCPU -> 0 <= stack0 -> stack0 + 4096 * Z.of_nat NCPU < 2 ^ 64 ->
  0 <= main < 2 ^ 64 -> 0 <= csr_read mstatus h < 2 ^ 64 ->
  exists g, run (entry stack0 startf spin) h = Some g /\ h_pc g = startf /\
    rd sp g = stack0 + 4096 * id + 4096 /\ rd sp g <= stack0 + 4096 * Z.of_nat NCPU /\
    let g' := start main g in
    h_mode g' = Supervisor /\ h_pc g' = main /\ rd tp g' = id /\ rd sp g' = rd sp g /\ csr_read satp g' = 0 /\
    csr_read medeleg g' = 0xffff /\ csr_read mideleg g' = 0xffff /\
    csr_read sie g' = u64 (Z.lor (Z.lor (csr_read sie h) SIE_SEIE) SIE_STIE) /\
    csr_read pmpaddr0 g' = 0x3fffffffffffff /\ csr_read pmpcfg0 g' = 0xf /\
    csr_read stimecmp g' = u64 (csr_read time h + 1000000).
Proof.
  intros Hid Hi Hs0 Hs1 Hm Hst.
  assert (exists g, run (entry stack0 startf spin) h = Some g /\ h_pc g = startf /\ rd sp g = stack0 + 4096 * id + 4096 /\
    (forall c, csr_read c g = csr_read c h)) as (g & E & Hp & Hsp & Hc).
  { eexists. split; [reflexivity|]. split; [reflexivity|]. split; [|done].
    assert (Hcs : forall h', rd sp (set_pc startf (wr ra spin h')) = rd sp h') by done. rewrite Hcs.
    destruct h as [regs csrs m md pc]. unfold csr_read in Hid. cbn in Hid. cbv -[u64 Z.mul Z.add]. rewrite Hid. unfold NCPU in *.
    rewrite (u64_small id), (u64_small stack0), (u64_small (1024 * 4)), (u64_small (id + 1)) by lia.
    rewrite (u64_small (1024 * 4 * (id + 1))) by lia. rewrite u64_small; lia. }
  exists g. split; [exact E|]. split; [exact Hp|]. split; [exact Hsp|]. split; [unfold NCPU in *; lia|].
  unfold start, timerinit. repeat (rewrite csr_write_ne by done). rewrite !Hc, Hid.
  set (m := Z.lor (Z.land (csr_read mstatus h) _) _).
  cbn zeta. split; [|split; [|split; [|split]]].
  - apply mret_mode. csr_simpl. unfold m. rewrite mpp_u64 by done. apply setbit_mpp. lia.
  - rewrite mret_pc. csr_simpl. by apply u64_small.
  - rewrite mret_rd, rd_wr_eq by done. unfold NCPU in *. rewrite i32_small, u64_small by lia. done.
  - rewrite mret_rd, rd_wr_ne, !rd_csr_write by done. done.
  - repeat split; csr_simpl; try done; by rewrite Hc.
Qed.

(** ** Witnesses: a page table that maps the two top pages, and everything else to itself *)

#[local] Instance demo_mmu : MMU := fun st va =>
  if decide (TRAMPOLINE <= va) then Some (0x80007000 + (va - TRAMPOLINE))
  else if decide (TRAPFRAME <= va) then Some (0x87f00000 + (va - TRAPFRAME))
  else Some va.

Definition demo_hart : hart :=
  mkhart (fun r => match r with a0 => 0x1000 | a1 => 0x2000 | sp => 0x3000 | s0 => 11 | t6 => 12 | _ => 5 end)
    (fun c => match c with satp => 7 | mhartid => 3 | _ => 0 end) (fun _ => 0) User 0.

Lemma demo_regs : regs_ok demo_hart.
Proof. intros []; cbn; lia. Qed.

Lemma demo_window st va pa n :
  0 <= va -> va + n <= TRAPFRAME -> pa = va -> window st va pa n.
Proof.
  intros H0 H1 -> o Ho. unfold translate, demo_mmu. assert (TRAPFRAME < 2 ^ 64) by (vm_compute; reflexivity).
  rewrite u64_small by lia. assert (TRAPFRAME < TRAMPOLINE) by (vm_compute; reflexivity).
  rewrite !decide_False by lia. done.
Qed.

Lemma trampoline_roundtrip_witness :
  exists h1, run_tramp 0x80007000 (uservec (L := demo_layout)) demo_hart = Some h1 /\
    load64 h1.(h_mem) (0x87f00000 + 280) = 12.
Proof.
  destruct (trampoline_roundtrip (L := demo_layout) 0x80007000 0x87f00000 demo_hart 7) as (h1 & E & Hs & _).
  - exact demo_regs.
  - intros a. cbn. lia.
  - reflexivity.
  - lia.
  - intros o Ho. unfold translate, demo_mmu. assert (TRAPFRAME + 4096 = TRAMPOLINE) by (vm_compute; reflexivity).
    assert (0 <= TRAPFRAME < 2 ^ 64 - 4096) by (vm_compute; split; congruence). rewrite u64_small by lia.
    rewrite decide_False, decide_True by lia. f_equal. lia.
  - vm_compute. reflexivity.
  - vm_compute. reflexivity.
  - exists h1. split; [exact E|]. exact (Hs t6 ltac:(done)).
Defined.

Lemma swtch_roundtrip_witness : exists g, run swtch demo_hart = Some g /\ rd s0 g = 0.
Proof.
  destruct (swtch_roundtrip demo_hart 0x1000 0x2000) as (g & E & _ & Hv & _).
  - exact demo_regs.
  - intros a. cbn. lia.
  - apply demo_window; vm_compute; congruence.
  - apply demo_window; vm_compute; congruence.
  - left. lia.
  - exists g. split; [exact E|]. rewrite (Hv s0 16); [vm_compute; reflexivity|]. rewrite list_elem_of_In. cbn. tauto.
Defined.

Lemma kernelvec_transparent_witness : exists g, run (kernelvec_push 100 200) demo_hart = Some g /\ h_pc g = 100.
Proof.
  destruct (kernelvec_transparent 100 200 (0x3000 - 256) demo_hart) as (g & E & Hp & _).
  - exact demo_regs.
  - intros a. cbn. lia.
  - vm_compute. congruence.
  - apply demo_window; vm_compute; congruence.
  - exists g. split; [exact E|exact Hp].
Defined.

Lemma boot_hart_witness : exists g, run (entry 0x8000a000 1 2) demo_hart = Some g /\ rd sp g = 0x8000a000 + 4 * 4096.
Proof.
  destruct (boot_hart 0x8000a000 1 2 3 demo_hart 3) as (g & E & _ & Hs & _);
    [reflexivity|vm_compute; split; congruence|lia|vm_compute; reflexivity|lia|vm_compute; split; congruence|].
  exists g. split; [exact E|]. rewrite Hs. reflexivity.
Defined.
