(* ===== verification/Kalloc.v ===== *)
(** * kernel/kalloc.c: the physical page allocator

    The state is physical memory and [kmem.freelist].  The free list is threaded
    through the free pages: the first word of a free page is the address of the
    next.  [kmem_inv s l] says that the list starting at [kmem.freelist] is
    [l], without repetition, all of it valid pages.

    [kmem.lock] brackets each list update; [kalloc] and [kfree] are one atomic
    transition each. *)

From S2P Require Import Prelude Types Mem Layout.
From Stdlib Require Import ZArith Lia.
From stdpp Require Import base list numbers strings relations.
Open Scope Z_scope.

Record kmem := mkkmem { pm : mem; freelist : Z }.

Section kalloc.
Context `{L : KernelLayout}.

(** ** Model *)

Definition kfree (pa : Z) : M kmem unit :=
  fun s =>
    if negb (pa mod PGSIZE =? 0) || (pa <? kend) || (PHYSTOP <=? pa) then Panic "kfree"
    else
      let m := memset s.(pm) pa 1 PGSIZE in
      Ok tt (mkkmem (store64 m pa s.(freelist)) pa).

Definition kalloc : M kmem Z :=
  fun s =>
    let r := s.(freelist) in
    if r =? 0 then Ok 0 s
    else Ok r (mkkmem (memset s.(pm) r 5 PGSIZE) (load64 s.(pm) r)).

(** for(; p + PGSIZE <= pa_end; p += PGSIZE) kfree(p); *)
Fixpoint freerange_loop (fuel : nat) (p pa_end : Z) : M kmem unit :=
  if p + PGSIZE <=? pa_end then
    match fuel with
    | O => nofuel
    | S f => kfree p ;; freerange_loop f (p + PGSIZE) pa_end
    end
  else mret tt.

Definition freerange (pa_start pa_end : Z) : M kmem unit :=
  freerange_loop (Z.to_nat ((pa_end - PGROUNDUP pa_start) / PGSIZE)) (PGROUNDUP pa_start) pa_end.

Definition kinit : M kmem unit := freerange kend PHYSTOP.

(** ** The free list *)

Definition page_ok (pa : Z) : Prop := pa mod PGSIZE = 0 /\ kend <= pa < PHYSTOP.

Fixpoint chain (m : mem) (head : Z) (l : list Z) : Prop :=
  match l with
  | [] => head = 0
  | p :: l' => head = p /\ page_ok p /\ chain m (load64 m p) l'
  end.

Definition kmem_inv (s : kmem) (l : list Z) : Prop :=
  chain s.(pm) s.(freelist) l /\ NoDup l /\ byte_mem s.(pm).

(** Memory agrees outside one page. *)
Definition same_outside (m m' : mem) (pa : Z) : Prop :=
  forall x, x < pa \/ pa + PGSIZE <= x -> m' x = m x.

Context {LOK : KernelLayoutOK L}.

Lemma page_ok_pos p : page_ok p -> 0 < p.
Proof. intros [_ H]. pose proof kend_range. unfold KERNBASE in *. lia. Qed.

Lemma page_ok_apart p q : page_ok p -> page_ok q -> p ≠ q -> p + PGSIZE <= q \/ q + PGSIZE <= p.
Proof. intros [Hp _] [Hq _]. by apply aligned_apart. Qed.

Lemma page_ok_bound p : page_ok p -> 0 <= p < 2 ^ 56 /\ p + PGSIZE <= PHYSTOP.
Proof.
  intros [Hp H]. pose proof kend_range. unfold KERNBASE, PHYSTOP, PGSIZE in *.
  change KERNBASE with 0x80000000 in *. split; [lia|].
  pose proof (Z.div_mod p 4096). lia.
Qed.

Lemma chain_ok m h l : chain m h l -> Forall page_ok l.
Proof.
  revert h. induction l as [|p l IH]; intros h; simpl; [constructor|].
  intros (_ & Hp & Hc). constructor; eauto.
Qed.

(** The chain depends only on the first words of its pages. *)
Lemma chain_ext m m' h l :
  chain m h l -> (forall p, p ∈ l -> load64 m' p = load64 m p) -> chain m' h l.
Proof.
  revert h. induction l as [|p l IH]; intros h; simpl; [done|].
  intros (-> & Hp & Hc) H. repeat split; try apply Hp.
  rewrite H by by left. apply IH; [done|]. intros q Hq. apply H. by right.
Qed.

Lemma chain_outside m m' h l p :
  chain m h l -> page_ok p -> p ∉ l -> same_outside m m' p -> chain m' h l.
Proof.
  intros Hc Hp Hnin Hsame. apply (chain_ext m); [done|]. intros q Hq.
  pose proof (chain_ok _ _ _ Hc) as Hok. rewrite Forall_forall in Hok.
  apply load_ext. intros x Hx. apply Hsame.
  assert (p ≠ q) by (intros ->; done).
  pose proof (page_ok_apart p q Hp (Hok q Hq) ltac:(done)). unfold PGSIZE in *. lia.
Qed.

Lemma kalloc_empty s : kmem_inv s [] -> kalloc s = Ok 0 s.
Proof. intros (H & _). unfold kalloc. simpl in H. by rewrite H. Qed.

Lemma kalloc_page s p l :
  kmem_inv s (p :: l) ->
  exists s', kalloc s = Ok p s' /\ kmem_inv s' l /\ page_ok p /\ (p ∉ l) /\
    s'.(pm) = memset s.(pm) p 5 PGSIZE.
Proof.
  intros ((Hh & Hp & Hc) & Hnd & Hb). unfold kalloc. rewrite Hh.
  pose proof (page_ok_pos p Hp). destruct (Z.eqb_spec p 0); [lia|].
  apply NoDup_cons in Hnd as [Hnin Hnd].
  eexists. split; [done|]. simpl. repeat split; auto; try apply Hp.
  - apply (chain_outside s.(pm)) with p; auto. intros x Hx. by apply memset_out.
  - by apply memset_byte_mem.
  - by apply memset_byte_mem.
Qed.

Lemma kfree_page s pa l :
  kmem_inv s l -> page_ok pa -> pa ∉ l ->
  exists s', kfree pa s = Ok tt s' /\ kmem_inv s' (pa :: l) /\ same_outside s.(pm) s'.(pm) pa.
Proof.
  intros (Hc & Hnd & Hb) Hp Hnin. unfold kfree.
  pose proof Hp as [Ha Hr]. rewrite Ha. cbn [Z.eqb negb orb].
  destruct (Z.ltb_spec pa kend); [lia|]. destruct (Z.leb_spec PHYSTOP pa); [lia|]. simpl.
  assert (Hsame : same_outside s.(pm) (store64 (memset (pm s) pa 1 PGSIZE) pa (freelist s)) pa).
  { intros x Hx. unfold PGSIZE in *. unfold store64. rewrite store_ne by lia.
    by apply memset_out. }
  eexists. split; [done|]. split; [|done]. split; [|split].
  - cbn [chain freelist pm]. split; [done|]. split; [done|].
    rewrite load64_store64_eq.
    assert (Hf : u64 (freelist s) = freelist s).
    { destruct l as [|q l']; simpl in Hc; [by rewrite Hc|]. destruct Hc as (-> & Hq & _).
      apply u64_small. pose proof (page_ok_bound q Hq). lia. }
    rewrite Hf. by apply (chain_outside (pm s)) with pa.
  - by constructor.
  - apply store_byte_mem, memset_byte_mem, Hb.
Qed.

Lemma kfree_invalid s pa : ~ page_ok pa -> kfree pa s = Panic "kfree".
Proof.
  intros H. unfold kfree. destruct (_ || _ || _) eqn:E; [done|]. exfalso. apply H.
  rewrite !orb_false_iff, negb_false_iff, Z.eqb_eq, Z.ltb_ge, Z.leb_gt in E.
  destruct E as [[E1 E2] E3]. by repeat split.
Qed.

(** ** kinit frees every page of RAM once *)

Definition pages (p : Z) (n : nat) : list Z := (fun i => p + i * PGSIZE) <$> seqZ 0 (Z.of_nat n).

(** Every page the allocator manages, in address order. *)
Definition all_pages : list Z :=
  pages (PGROUNDUP kend) (Z.to_nat ((PHYSTOP - PGROUNDUP kend) / PGSIZE)).

Lemma pages_S p n : pages p (S n) = p :: pages (p + PGSIZE) n.
Proof.
  unfold pages. rewrite seqZ_cons by lia.
  replace (Z.pred (Z.of_nat (S n))) with (Z.of_nat n) by lia.
  cbn [fmap list_fmap]. f_equal; [lia|].
  change (Z.succ 0) with (1 + 0). rewrite <- fmap_add_seqZ, <- list_fmap_compose.
  apply list_fmap_ext. intros i x _. simpl. lia.
Qed.

Lemma elem_of_pages p n x :
  x ∈ pages p n <-> exists i, 0 <= i < Z.of_nat n /\ x = p + i * PGSIZE.
Proof.
  unfold pages. rewrite list_elem_of_fmap. setoid_rewrite elem_of_seqZ.
  split; intros (i & H1 & H2); exists i; split; auto; lia.
Qed.

Lemma NoDup_pages p n : NoDup (pages p n).
Proof. apply NoDup_fmap_2; [|apply NoDup_seqZ]. unfold PGSIZE. intros x y. lia. Qed.

Lemma freerange_loop_spec n fuel p pa_end s l :
  (n <= fuel)%nat -> p mod PGSIZE = 0 -> kend <= p -> pa_end <= PHYSTOP ->
  p + Z.of_nat n * PGSIZE <= pa_end < p + (Z.of_nat n + 1) * PGSIZE ->
  kmem_inv s l -> Forall (fun q => q < p) l ->
  runs (freerange_loop fuel p pa_end s) (fun _ s' => kmem_inv s' (rev (pages p n) ++ l)).
Proof.
  revert fuel p s l. induction n as [|n IH]; intros fuel p s l Hf Ha Hk He Hn Hinv Hl;
    destruct fuel as [|fuel]; cbn [freerange_loop].
  - destruct (Z.leb_spec (p + PGSIZE) pa_end); [unfold PGSIZE in *; lia|]. exact Hinv.
  - destruct (Z.leb_spec (p + PGSIZE) pa_end); [unfold PGSIZE in *; lia|]. exact Hinv.
  - lia.
  - destruct (Z.leb_spec (p + PGSIZE) pa_end); [|unfold PGSIZE in *; lia].
    assert (Hp : page_ok p) by (split; [done|unfold PGSIZE in *; lia]).
    assert (Hnin : p ∉ l) by (intros Hin; rewrite Forall_forall in Hl; specialize (Hl p Hin); lia).
    destruct (kfree_page s p l Hinv Hp Hnin) as (s' & E & Hinv' & _).
    apply runs_bind. rewrite E. cbn [runs].
    eapply runs_mono.
    + apply (IH fuel (p + PGSIZE) s' (p :: l)); auto.
      * lia.
      * unfold PGSIZE in *. replace (p + 4096) with (p + 1 * 4096) by lia. by rewrite Z.mod_add.
      * unfold PGSIZE in *. lia.
      * lia.
      * constructor; [unfold PGSIZE; lia|]. eapply Forall_impl; [exact Hl|].
        simpl. unfold PGSIZE. lia.
    + intros [] s'' H'. rewrite pages_S. cbn [rev]. by rewrite <- app_assoc.
Qed.

Lemma kinit_spec m :
  byte_mem m -> runs (kinit (mkkmem m 0)) (fun _ s => kmem_inv s (rev all_pages)).
Proof.
  intros Hm. unfold kinit, freerange, all_pages.
  pose proof kend_range as Hk. unfold KERNBASE, PHYSTOP in *. change KERNBASE with 0x80000000 in *.
  assert (Hk' : 0 <= kend <= 2 ^ 64 - 4096) by lia.
  destruct (PGROUNDUP_spec kend Hk') as [H1 H2].
  assert (Hk2 : PGROUNDUP kend <= 0x80000000 + 128 * 1024 * 1024).
  { pose proof (Z.div_mod (PGROUNDUP kend) 4096). lia. }
  set (p := PGROUNDUP kend) in *. set (e := 0x80000000 + 128 * 1024 * 1024) in *.
  rewrite <- (app_nil_r (rev _)).
  assert (0 <= (e - p) / PGSIZE) by (apply Z.div_pos; unfold PGSIZE; lia).
  pose proof (Z.div_mod (e - p) PGSIZE). pose proof (Z.mod_pos_bound (e - p) PGSIZE).
  apply freerange_loop_spec; unfold PGSIZE in *;
    [lia|done|lia|done|lia|split; [done|split; [constructor|done]]|constructor].
Qed.

Lemma all_pages_ok : Forall page_ok all_pages.
Proof.
  apply Forall_forall. intros x (i & Hi & ->)%elem_of_pages.
  pose proof kend_range as Hk. unfold KERNBASE, PHYSTOP in *. change KERNBASE with 0x80000000 in *.
  assert (Hk' : 0 <= kend <= 2 ^ 64 - 4096) by lia.
  destruct (PGROUNDUP_spec kend Hk') as [H1 H2].
  set (e := 0x80000000 + 128 * 1024 * 1024) in *.
  pose proof (Z.div_mod (e - PGROUNDUP kend) PGSIZE).
  pose proof (Z.mod_pos_bound (e - PGROUNDUP kend) PGSIZE).
  unfold page_ok, PGSIZE in *. split; [by rewrite Z.mod_add by lia|].
  unfold PHYSTOP. change KERNBASE with 0x80000000. fold e. lia.
Qed.

(** ** Ownership

    The steps of the kernel as the allocator sees it, with the list of pages
    handed out and not yet given back: a successful or failing [kalloc], a
    [kfree] of a page handed out, and a write of the owner into its page. *)

Inductive kstep : kmem * list Z -> kmem * list Z -> Prop :=
  | ks_alloc s a p s' : kalloc s = Ok p s' -> p ≠ 0 -> kstep (s, a) (s', p :: a)
  | ks_fail s a s' : kalloc s = Ok 0 s' -> kstep (s, a) (s', a)
  | ks_free s a1 p a2 s' : kfree p s = Ok tt s' -> kstep (s, a1 ++ p :: a2) (s', a1 ++ a2)
  | ks_write s a p m' : p ∈ a -> same_outside s.(pm) m' p -> byte_mem m' ->
      kstep (s, a) (mkkmem m' s.(freelist), a).

Definition own_inv (sa : kmem * list Z) : Prop :=
  exists l, kmem_inv sa.1 l /\ l ++ sa.2 ≡ₚ all_pages.

Lemma own_page_ok l a p : l ++ a ≡ₚ all_pages -> p ∈ a -> page_ok p /\ (p ∉ l).
Proof.
  intros Hperm Hin. pose proof all_pages_ok as Hok. rewrite Forall_forall in Hok.
  split.
  - apply Hok. rewrite <- Hperm. apply elem_of_app. by right.
  - assert (Hnd : NoDup (l ++ a)) by (rewrite Hperm; apply NoDup_pages).
    apply NoDup_app in Hnd as (_ & Hd & _). intros Hl. by apply (Hd p).
Qed.

Lemma kstep_inv sa sa' : kstep sa sa' -> own_inv sa -> own_inv sa'.
Proof.
  intros Hstep (l & Hinv & Hperm). destruct Hstep as [s a p s' E Hp|s a s' E|s a1 p a2 s' E|s a p m' Hin Hs Hb].
  - destruct l as [|q l]; [rewrite kalloc_empty in E by done; congruence|].
    destruct (kalloc_page s q l Hinv) as (s1 & E1 & Hinv1 & _). rewrite E in E1. simplify_eq.
    exists l. split; [done|]. simpl in *. by rewrite <- Permutation_middle.
  - destruct l as [|q l]; [rewrite kalloc_empty in E by done; simplify_eq; by exists []|].
    destruct (kalloc_page s q l Hinv) as (s1 & E1 & _ & Hq & _). rewrite E in E1. simplify_eq.
    pose proof (page_ok_pos 0 Hq). lia.
  - simpl in *. destruct (own_page_ok l (a1 ++ p :: a2) p Hperm) as [Hp Hnin];
      [apply elem_of_app; right; by left|].
    destruct (kfree_page s p l Hinv Hp Hnin) as (s1 & E1 & Hinv1 & _). rewrite E in E1. simplify_eq.
    exists (p :: l). split; [done|]. simpl. rewrite <- Hperm. solve_Permutation.
  - exists l. destruct Hinv as (Hc & Hnd & _). destruct (own_page_ok l a p Hperm Hin) as [Hp Hnin].
    split; [|done]. split; [|split]; auto. by apply (chain_outside (pm s)) with p.
Qed.

(** ** Theorems *)

(** C15. Boot hands every page of RAM to the allocator, and from then on no
    sequence of kernel steps breaks ownership: the pages handed out are
    distinct, [kalloc] never returns one of them again, it fails only when
    all of RAM is handed out, and freeing any of them does not panic. *)
Theorem kalloc_ownership m :
  byte_mem m ->
  runs (kinit (mkkmem m 0)) (fun _ s0 =>
    forall s a, rtc kstep (s0, []) (s, a) ->
      NoDup a /\
      (forall p s', kalloc s = Ok p s' -> p ≠ 0 -> page_ok p /\ (p ∉ a)) /\
      (forall s', kalloc s = Ok 0 s' -> a ≡ₚ all_pages) /\
      (forall p, p ∈ a -> exists s', kfree p s = Ok tt s')).
Proof.
  intros Hm. eapply runs_mono; [by apply kinit_spec|]. intros [] s0 H0 s a Hsteps.
  assert (own_inv (s, a)) as (l & Hinv & Hperm).
  { remember (s0, []) as sa0. revert Heqsa0.
    assert (own_inv sa0 -> own_inv (s, a)) as Himp
      by (clear -Hsteps LOK; induction Hsteps; eauto using kstep_inv).
    intros ->. apply Himp. exists (rev all_pages). split; [done|].
    simpl. rewrite app_nil_r. symmetry. apply Permutation_rev. }
  simpl in *. assert (Hnd : NoDup (l ++ a)) by (rewrite Hperm; apply NoDup_pages).
  split; [by apply NoDup_app in Hnd as (_ & _ & ?)|]. split; [|split].
  - intros p s' E Hp. destruct l as [|q l]; [rewrite kalloc_empty in E by done; congruence|].
    destruct (kalloc_page s q l Hinv) as (s1 & E1 & _ & Hq & _). rewrite E in E1. simplify_eq.
    split; [done|]. apply NoDup_app in Hnd as (_ & Hd & _). apply Hd. by left.
  - intros s' E. destruct l as [|q l]; [done|].
    destruct (kalloc_page s q l Hinv) as (s1 & E1 & _ & Hq & _). rewrite E in E1. simplify_eq.
    pose proof (page_ok_pos 0 Hq). lia.
  - intros p Hp. destruct (own_page_ok l a p Hperm Hp) as [Hok Hnin].
    destruct (kfree_page s p l Hinv Hok Hnin) as (s' & E & _). eauto.
Qed.

(** [kfree] of an address that is not a page of RAM stops the machine and
    [kalloc] undoes [kfree]: the page just freed is the next one returned,
    filled with junk, and the free list is what it was. *)
Theorem kfree_kalloc s l pa :
  kmem_inv s l ->
  (~ page_ok pa -> kfree pa s = Panic "kfree") /\
  (page_ok pa -> (pa ∉ l) ->
    runs (kfree pa s) (fun _ s1 => runs (kalloc s1) (fun p s2 =>
      p = pa /\ kmem_inv s2 l /\ s2.(freelist) = s.(freelist) /\
      same_outside s.(pm) s2.(pm) pa /\
      (forall x, pa <= x < pa + PGSIZE -> s2.(pm) x = 5)))).
Proof.
  intros Hinv. split; [apply kfree_invalid|]. intros Hp Hnin.
  destruct (kfree_page s pa l Hinv Hp Hnin) as (s1 & -> & Hinv1 & Hs1). cbn [runs].
  destruct (kalloc_page s1 pa l Hinv1) as (s2 & -> & Hinv2 & _ & _ & Hm). cbn [runs].
  split; [done|]. split; [done|]. split.
  - destruct Hinv as (Hc & _), Hinv2 as (Hc2 & _).
    destruct l as [|q l]; simpl in *; [congruence|]. destruct Hc as [-> _], Hc2 as [-> _]. done.
  - rewrite Hm. split.
    + intros x Hx. rewrite memset_out by done. by apply Hs1.
    + intros x Hx. by apply memset_in.
Qed.
End kalloc.

Lemma kalloc_ownership_witness :
  runs (kinit (L := demo_layout) (mkkmem (fun _ => 0) 0)) (fun _ s0 =>
    forall s a, rtc (kstep (L := demo_layout)) (s0, []) (s, a) ->
      NoDup a /\
      (forall p s', kalloc s = Ok p s' -> p ≠ 0 -> page_ok (L := demo_layout) p /\ (p ∉ a)) /\
      (forall s', kalloc s = Ok 0 s' -> a ≡ₚ all_pages (L := demo_layout)) /\
      (forall p, p ∈ a -> exists s', kfree (L := demo_layout) p s = Ok tt s')).
Proof.
  apply (kalloc_ownership (L := demo_layout) (LOK := demo_layout_ok) (fun _ => 0)). done.
Defined.

Lemma kfree_kalloc_witness :
  runs (kfree (L := demo_layout) (PHYSTOP - PGSIZE) (mkkmem (fun _ => 0) 0)) (fun _ s1 =>
    runs (kalloc s1) (fun p s2 =>
      p = PHYSTOP - PGSIZE /\ kmem_inv (L := demo_layout) s2 [] /\ s2.(freelist) = 0 /\
      same_outside (fun _ => 0) s2.(pm) (PHYSTOP - PGSIZE) /\
      (forall x, PHYSTOP - PGSIZE <= x < PHYSTOP - PGSIZE + PGSIZE -> s2.(pm) x = 5))).
Proof.
  apply (kfree_kalloc (L := demo_layout) (LOK := demo_layout_ok) (mkkmem (fun _ => 0) 0) []
           (PHYSTOP - PGSIZE)).
  - split; [done|]. split; [constructor|done].
  - split; [reflexivity|]. split; [intros H; vm_compute in H; congruence|reflexivity].
  - apply not_elem_of_nil.
Defined.
