(* ===== verification/Vm.v ===== *)
(** * kernel/vm.c: Sv39 page tables and user memory

    The functions of vm.c over physical memory and the page allocator.  A
    [pagetable_t] is the physical address of a page of 512 little-endian
    entries; [pte_t *] is the address of an entry, [None] for the null
    pointer.  Loops that walk an address range page by page take the number of
    pages as fuel.  [vmfault] and its callers read [p->sz] and [p->pagetable] of
    the calling process, which are arguments here.  The page-table functions of
    proc.c ([proc_pagetable], [proc_freepagetable], [proc_mapstacks]) are at the
    end. *)

From S2P Require Import Prelude Types Mem Layout Kalloc.
From Stdlib Require Import ZArith Lia.
From stdpp Require Import base list numbers strings.
Open Scope Z_scope.

Definition has (pte flag : Z) : bool := negb (Z.land pte flag =? 0).

Section vm.
Context `{L : KernelLayout}.

Definition rd64 (a : Z) : M kmem Z := gets (fun s => load64 s.(pm) a).
Definition wr64 (a v : Z) : M kmem unit :=
  modify (fun s => mkkmem (store64 s.(pm) a v) s.(freelist)).
Definition set_bytes (dst c n : Z) : M kmem unit :=
  modify (fun s => mkkmem (memset s.(pm) dst c n) s.(freelist)).
Definition move_bytes (dst src n : Z) : M kmem unit :=
  modify (fun s => mkkmem (memmove s.(pm) dst src n) s.(freelist)).

(** ** walk *)

(** The body of the level loop: the next page table, allocated on demand. *)
Definition walk_level (alloc : bool) (level pagetable va : Z) : M kmem (option Z) :=
  let pte := pagetable + 8 * PX level va in
  e ← rd64 pte;
  if has e PTE_V then mret (Some (PTE2PA e))
  else if negb alloc then mret None
  else
    pg ← kalloc;
    if pg =? 0 then mret None
    else
      set_bytes pg 0 PGSIZE ;;
      wr64 pte (Z.lor (PA2PTE pg) PTE_V) ;;
      mret (Some pg).

Definition walk (pagetable va : Z) (alloc : bool) : M kmem (option Z) :=
  if MAXVA <=? va then panic "walk"
  else
    t1 ← walk_level alloc 2 pagetable va;
    match t1 with
    | None => mret None
    | Some t1 =>
        t0 ← walk_level alloc 1 t1 va;
        match t0 with
        | None => mret None
        | Some t0 => mret (Some (t0 + 8 * PX 0 va))
        end
    end.

Definition walkaddr (pagetable va : Z) : M kmem Z :=
  if MAXVA <=? va then mret 0
  else
    pte ← walk pagetable va false;
    match pte with
    | None => mret 0
    | Some pte =>
        e ← rd64 pte;
        if negb (has e PTE_V) then mret 0
        else if negb (has e PTE_U) then mret 0
        else mret (PTE2PA e)
    end.

(** ** mappages *)

Fixpoint mappages_loop (fuel : nat) (pagetable a last pa perm : Z) : M kmem Z :=
  match fuel with
  | O => nofuel
  | S f =>
      pte ← walk pagetable a true;
      match pte with
      | None => mret (-1)
      | Some pte =>
          e ← rd64 pte;
          if has e PTE_V then panic "mappages: remap"
          else
            wr64 pte (Z.lor (Z.lor (PA2PTE pa) perm) PTE_V) ;;
            if a =? last then mret 0
            else mappages_loop f pagetable (u64 (a + PGSIZE)) last (u64 (pa + PGSIZE)) perm
      end
  end.

Definition mappages (pagetable va size pa perm : Z) : M kmem Z :=
  if negb (va mod PGSIZE =? 0) then panic "mappages: va not aligned"
  else if negb (size mod PGSIZE =? 0) then panic "mappages: size not aligned"
  else if size =? 0 then panic "mappages: size"
  else mappages_loop (Z.to_nat (size / PGSIZE)) pagetable va (u64 (va + size - PGSIZE)) pa perm.

Definition kvmmap (kpgtbl va pa sz perm : Z) : M kmem unit :=
  r ← mappages kpgtbl va sz pa perm;
  if negb (r =? 0) then panic "kvmmap" else mret tt.

(** ** User address spaces *)

Definition uvmcreate : M kmem Z :=
  pg ← kalloc;
  if pg =? 0 then mret 0
  else set_bytes pg 0 PGSIZE ;; mret pg.

(** The body of the loop of [uvmunmap]: the two [continue]s are the [mret tt]. *)
Definition unmap_entry (pagetable a : Z) (do_free : bool) : M kmem unit :=
  pte ← walk pagetable a false;
  match pte with
  | None => mret tt
  | Some pte =>
      e ← rd64 pte;
      if negb (has e PTE_V) then mret tt
      else
        (if do_free then kfree (PTE2PA e) else mret tt) ;;
        wr64 pte 0
  end.

(** [npages] iterations from address [a]; the bound of the loop wraps in [uvmunmap]. *)
Fixpoint uvmunmap_loop (npages : nat) (pagetable a : Z) (do_free : bool) : M kmem unit :=
  match npages with
  | O => mret tt
  | S n => unmap_entry pagetable a do_free ;; uvmunmap_loop n pagetable (a + PGSIZE) do_free
  end.

Definition uvmunmap (pagetable va npages : Z) (do_free : bool) : M kmem unit :=
  if negb (va mod PGSIZE =? 0) then panic "uvmunmap: not aligned"
  else uvmunmap_loop (Z.to_nat ((u64 (va + npages * PGSIZE) - va) / PGSIZE)) pagetable va do_free.

Definition uvmdealloc (pagetable oldsz newsz : Z) : M kmem Z :=
  if oldsz <=? newsz then mret oldsz
  else
    (if PGROUNDUP newsz <? PGROUNDUP oldsz then
       let npages := i32 ((PGROUNDUP oldsz - PGROUNDUP newsz) / PGSIZE) in
       uvmunmap pagetable (PGROUNDUP newsz) (u64 npages) true
     else mret tt) ;;
    mret newsz.

Fixpoint uvmalloc_loop (fuel : nat) (pagetable a oldsz newsz xperm : Z) : M kmem Z :=
  if a <? newsz then
    match fuel with
    | O => nofuel
    | S f =>
        pg ← kalloc;
        if pg =? 0 then uvmdealloc pagetable a oldsz ;; mret 0
        else
          set_bytes pg 0 PGSIZE ;;
          r ← mappages pagetable a PGSIZE pg (Z.lor (Z.lor PTE_R PTE_U) xperm);
          if negb (r =? 0) then kfree pg ;; uvmdealloc pagetable a oldsz ;; mret 0
          else uvmalloc_loop f pagetable (u64 (a + PGSIZE)) oldsz newsz xperm
    end
  else mret newsz.

Definition uvmalloc (pagetable oldsz newsz xperm : Z) : M kmem Z :=
  if newsz <? oldsz then mret oldsz
  else
    let oldsz := PGROUNDUP oldsz in
    uvmalloc_loop (Z.to_nat ((newsz - oldsz + (PGSIZE - 1)) / PGSIZE)) pagetable oldsz oldsz newsz xperm.

(** The recursion follows the page-table tree; [depth] bounds its levels. *)
Fixpoint freewalk (depth : nat) (pagetable : Z) : M kmem unit :=
  match depth with
  | O => nofuel
  | S d =>
      foreach (seqZ 0 512) (fun i =>
        e ← rd64 (pagetable + 8 * i);
        if has e PTE_V && negb (has e (Z.lor (Z.lor PTE_R PTE_W) PTE_X)) then
          freewalk d (PTE2PA e) ;; wr64 (pagetable + 8 * i) 0
        else if has e PTE_V then panic "freewalk: leaf"
        else mret tt) ;;
      kfree pagetable
  end.

Definition uvmfree (pagetable sz : Z) : M kmem unit :=
  (if 0 <? sz then uvmunmap pagetable 0 (PGROUNDUP sz / PGSIZE) true else mret tt) ;;
  freewalk 3 pagetable.

(** The loop starts at PGSIZE: page 0 is not copied. *)
Fixpoint uvmcopy_loop (fuel : nat) (old new i sz : Z) : M kmem Z :=
  if i <? sz then
    match fuel with
    | O => nofuel
    | S f =>
        pte ← walk old i false;
        match pte with
        | None => uvmcopy_loop f old new (u64 (i + PGSIZE)) sz
        | Some pte =>
            e ← rd64 pte;
            if negb (has e PTE_V) then uvmcopy_loop f old new (u64 (i + PGSIZE)) sz
            else
              let pa := PTE2PA e in
              let flags := PTE_FLAGS e in
              pg ← kalloc;
              if pg =? 0 then uvmunmap new 0 (i / PGSIZE) true ;; mret (-1)
              else
                move_bytes pg pa PGSIZE ;;
                r ← mappages new i PGSIZE pg flags;
                if negb (r =? 0) then
                  kfree pg ;; uvmunmap new 0 (i / PGSIZE) true ;; mret (-1)
                else uvmcopy_loop f old new (u64 (i + PGSIZE)) sz
        end
    end
  else mret 0.

Definition uvmcopy (old new sz : Z) : M kmem Z :=
  uvmcopy_loop (Z.to_nat ((sz + (PGSIZE - 1)) / PGSIZE)) old new PGSIZE sz.

Definition uvmclear (pagetable va : Z) : M kmem unit :=
  pte ← walk pagetable va false;
  match pte with
  | None => panic "uvmclear"
  | Some pte => e ← rd64 pte; wr64 pte (Z.land e (u64 (Z.lnot PTE_U)))
  end.

Definition ismapped (pagetable va : Z) : M kmem bool :=
  pte ← walk pagetable va false;
  match pte with
  | None => mret false
  | Some pte => e ← rd64 pte; mret (has e PTE_V)
  end.

(** [psz], [ppt]: size and page table of the calling process. *)
Definition vmfault (psz ppt pagetable va : Z) : M kmem Z :=
  if va <? PGSIZE then mret 0
  else if psz <=? va then mret 0
  else
    let va := PGROUNDDOWN va in
    b ← ismapped pagetable va;
    if b : bool then mret 0
    else
      pg ← kalloc;
      if pg =? 0 then mret 0
      else
        set_bytes pg 0 PGSIZE ;;
        r ← mappages ppt va PGSIZE pg (Z.lor (Z.lor PTE_W PTE_U) PTE_R);
        if negb (r =? 0) then kfree pg ;; mret 0
        else mret pg.

(** ** Copying between kernel and user *)

(** Bytes of a kernel buffer written to, or read from, physical memory. *)
Definition write_bytes (m : mem) (a : Z) (l : list Z) : mem :=
  fun x => if (a <=? x) && (x <? a + Z.of_nat (length l))
           then nth (Z.to_nat (x - a)) l 0 else m x.
Definition read_bytes (m : mem) (a n : Z) : list Z := m <$> seqZ a n.

(** pa0 = walkaddr(...); if(pa0 == 0) pa0 = vmfault(...): the page behind a
    user address, allocated on demand; 0 when there is none. *)
Definition user_page (psz ppt pagetable va0 : Z) : M kmem Z :=
  pa0 ← walkaddr pagetable va0;
  if pa0 =? 0 then vmfault psz ppt pagetable va0 else mret pa0.

(** The body of the loop of [copyout]: the number of bytes of [src] written to
    the page of [dstva], [None] for the error return. *)
Definition copyout_page (psz ppt pagetable dstva : Z) (src : list Z) : M kmem (option Z) :=
  let va0 := PGROUNDDOWN dstva in
  if MAXVA <=? va0 then mret None
  else
    pa0 ← user_page psz ppt pagetable va0;
    if pa0 =? 0 then mret None
    else
      pte ← walk pagetable va0 false;
      e ← match pte with
          | None => panic "copyout: null pte"  (* a null dereference in C *)
          | Some pte => rd64 pte
          end;
      if negb (has e PTE_W) then mret None
      else
        let len := Z.of_nat (length src) in
        let n := Z.min (PGSIZE - (dstva - va0)) len in
        modify (fun s => mkkmem (write_bytes s.(pm) (pa0 + (dstva - va0))
                                   (take (Z.to_nat n) src)) s.(freelist)) ;;
        mret (Some n).

Fixpoint copyout_loop (fuel : nat) (psz ppt pagetable dstva : Z) (src : list Z) : M kmem Z :=
  match src, fuel with
  | [], _ => mret 0
  | _, O => nofuel
  | _, S f =>
      r ← copyout_page psz ppt pagetable dstva src;
      match r with
      | None => mret (-1)
      | Some n =>
          copyout_loop f psz ppt pagetable (u64 (PGROUNDDOWN dstva + PGSIZE)) (drop (Z.to_nat n) src)
      end
  end.
Definition copyout (psz ppt pagetable dstva : Z) (src : list Z) : M kmem Z :=
  copyout_loop (length src) psz ppt pagetable dstva src.

(** The result and the bytes copied: a failure leaves the bytes of the pages
    before the one that could not be read in the destination. *)
Fixpoint copyin_loop (fuel : nat) (psz ppt pagetable srcva len : Z) : M kmem (Z * list Z) :=
  if 0 <? len then
    match fuel with
    | O => nofuel
    | S f =>
        let va0 := PGROUNDDOWN srcva in
        pa0 ← user_page psz ppt pagetable va0;
        if pa0 =? 0 then mret (-1, [])
        else
          let n := Z.min (PGSIZE - (srcva - va0)) len in
          bs ← gets (fun s => read_bytes s.(pm) (pa0 + (srcva - va0)) n);
          rest ← copyin_loop f psz ppt pagetable (u64 (va0 + PGSIZE)) (len - n);
          mret (rest.1, bs ++ rest.2)
    end
  else mret (0, []).
Definition copyin (psz ppt pagetable srcva len : Z) : M kmem (Z * list Z) :=
  copyin_loop (Z.to_nat len) psz ppt pagetable srcva len.

(** The inner loop of [copyinstr] over the [n] bytes left in the page at [p]:
    the bytes copied, and whether a NUL was found. *)
Fixpoint scan_nul (m : mem) (p : Z) (n : nat) : list Z * bool :=
  match n with
  | O => ([], false)
  | S n' => if m p =? 0 then ([], true)
            else let '(l, b) := scan_nul m (p + 1) n' in (m p :: l, b)
  end.

(** The string without its NUL, [None] for the error return. *)
Fixpoint copyinstr_loop (fuel : nat) (pagetable srcva max : Z) : M kmem (option (list Z)) :=
  if 0 <? max then
    match fuel with
    | O => nofuel
    | S f =>
        let va0 := PGROUNDDOWN srcva in
        pa0 ← walkaddr pagetable va0;
        if pa0 =? 0 then mret None
        else
          let n := Z.min (PGSIZE - (srcva - va0)) max in
          lb ← gets (fun s => scan_nul s.(pm) (pa0 + (srcva - va0)) (Z.to_nat n));
          if lb.2 : bool then mret (Some lb.1)
          else
            rest ← copyinstr_loop f pagetable (u64 (va0 + PGSIZE)) (max - n);
            mret (match rest with Some r => Some (lb.1 ++ r) | None => None end)
    end
  else mret None.
Definition copyinstr (pagetable srcva max : Z) : M kmem (option (list Z)) :=
  copyinstr_loop (Z.to_nat max) pagetable srcva max.

(** ** Page tables of processes and of the kernel *)

(** proc.c: a user page table with only the trampoline and trapframe pages. *)
Definition proc_pagetable (trapframe : Z) : M kmem Z :=
  pagetable ← uvmcreate;
  if pagetable =? 0 then mret 0
  else
    r ← mappages pagetable TRAMPOLINE PGSIZE trampoline (Z.lor PTE_R PTE_X);
    if r <? 0 then uvmfree pagetable 0 ;; mret 0
    else
      r ← mappages pagetable TRAPFRAME PGSIZE trapframe (Z.lor PTE_R PTE_W);
      if r <? 0 then
        uvmunmap pagetable TRAMPOLINE 1 false ;; uvmfree pagetable 0 ;; mret 0
      else mret pagetable.

Definition proc_freepagetable (pagetable sz : Z) : M kmem unit :=
  uvmunmap pagetable TRAMPOLINE 1 false ;;
  uvmunmap pagetable TRAPFRAME 1 false ;;
  uvmfree pagetable sz.

Definition proc_mapstacks (kpgtbl : Z) : M kmem unit :=
  foreach (seqZ 0 (Z.of_nat NPROC)) (fun i =>
    pa ← kalloc;
    if pa =? 0 then panic "kalloc"
    else kvmmap kpgtbl (KSTACK i) pa PGSIZE (Z.lor PTE_R PTE_W)).

Definition kvmmake : M kmem Z :=
  kpgtbl ← kalloc;
  set_bytes kpgtbl 0 PGSIZE ;;
  kvmmap kpgtbl UART0 UART0 PGSIZE (Z.lor PTE_R PTE_W) ;;
  kvmmap kpgtbl VIRTIO0 VIRTIO0 PGSIZE (Z.lor PTE_R PTE_W) ;;
  kvmmap kpgtbl PLIC PLIC 0x4000000 (Z.lor PTE_R PTE_W) ;;
  kvmmap kpgtbl KERNBASE KERNBASE (etext - KERNBASE) (Z.lor PTE_R PTE_X) ;;
  kvmmap kpgtbl etext etext (PHYSTOP - etext) (Z.lor PTE_R PTE_W) ;;
  kvmmap kpgtbl TRAMPOLINE trampoline PGSIZE (Z.lor PTE_R PTE_X) ;;
  proc_mapstacks kpgtbl ;;
  mret kpgtbl.
End vm.
