(* ===== verification/VmTables.v ===== *)
(** * Page tables as maps: the theory behind vm.c

    A page table is a tree of table pages.  [tab m root x] is the page of the
    table reached by path [x] (the root, a level-1 table, a level-0 table), and
    [pte_of m root va] is the leaf entry of [va], 0 when its table does not
    exist.  [pt_wf] says that the tables are valid pages and that no two paths
    reach the same one.  The lemmas describe [walk] in these terms: without
    [alloc] it reads [pte_of]; with [alloc] it adds tables taken from the free
    list and changes no leaf entry ([grow]). *)

From S2P Require Import Prelude Types Mem Layout Kalloc Vm.
From Stdlib Require Import ZArith Lia.
From stdpp Require Import base list numbers strings.
Open Scope Z_scope.

(** ** Flags *)

Lemma has_testbit e n : 0 <= n -> has e (Z.shiftl 1 n) = Z.testbit e n.
Proof.
  intros Hn. unfold has. rewrite Z.shiftl_1_l.
  destruct (Z.testbit e n) eqn:E.
  - apply negb_true_iff, Z.eqb_neq. intros H.
    assert (Z.testbit (Z.land e (2 ^ n)) n = false) as Hb by (rewrite H; apply Z.bits_0).
    rewrite Z.land_spec, E, Z.pow2_bits_true in Hb by lia. done.
  - apply negb_false_iff, Z.eqb_eq. apply Z.bits_inj'. intros k Hk.
    rewrite Z.land_spec, Z.bits_0. destruct (Z.eq_dec k n) as [->|Hne]; [by rewrite E|].
    rewrite Z.pow2_bits_false by lia. apply andb_false_r.
Qed.

Lemma has_V e : has e PTE_V = Z.testbit e 0.
Proof. by apply has_testbit. Qed.

Lemma has_zero flag : has 0 flag = false.
Proof. done. Qed.

(** The entry of a page: its address and its permission bits. *)
Definition mkpte (pa perm : Z) : Z := Z.lor (Z.lor (PA2PTE pa) perm) PTE_V.

Lemma lor_range a b k : 0 <= k -> 0 <= a < 2 ^ k -> 0 <= b < 2 ^ k -> 0 <= Z.lor a b < 2 ^ k.
Proof.
  intros Hk Ha Hb. split; [apply Z.lor_nonneg; lia|].
  destruct (Z.eq_dec (Z.lor a b) 0) as [->|Hne]; [lia|].
  apply Z.log2_lt_pow2; [assert (0 <= Z.lor a b) by (apply Z.lor_nonneg; lia); lia|].
  rewrite Z.log2_lor by lia. apply Z.max_lub_lt.
  - destruct (Z.eq_dec a 0) as [->|]; [|apply Z.log2_lt_pow2; lia].
    destruct (Z.eq_dec k 0) as [->|]; [|simpl; lia].
    assert (b = 0) as -> by lia. done.
  - destruct (Z.eq_dec b 0) as [->|]; [|apply Z.log2_lt_pow2; lia].
    destruct (Z.eq_dec k 0) as [->|]; [|simpl; lia].
    assert (a = 0) as -> by lia. done.
Qed.

Lemma mkpte_u64 pa perm : 0 <= perm < 2 ^ 10 -> u64 (mkpte pa perm) = mkpte pa perm.
Proof.
  intros Hp. apply u64_small. unfold mkpte. pose proof (PA2PTE_range pa).
  apply lor_range; [lia| |split; [done|reflexivity]]. apply lor_range; lia.
Qed.

Lemma mkpte_pa pa perm :
  pa mod 4096 = 0 -> 0 <= pa < 2 ^ 56 -> 0 <= perm < 2 ^ 10 -> PTE2PA (mkpte pa perm) = pa.
Proof.
  intros Ha Hr Hp. unfold mkpte. rewrite <- Z.lor_assoc. apply PTE2PA_PA2PTE; auto.
  apply lor_range; [lia|lia|]. split; [done|reflexivity].
Qed.

Lemma mkpte_bit pa perm n :
  0 <= n < 10 -> 0 <= pa < 2 ^ 56 ->
  Z.testbit (mkpte pa perm) n = Z.testbit (Z.lor perm PTE_V) n.
Proof. intros Hn Hr. unfold mkpte. rewrite <- Z.lor_assoc. by apply PTE_low_bits. Qed.

Lemma mkpte_valid pa perm : 0 <= pa < 2 ^ 56 -> has (mkpte pa perm) PTE_V = true.
Proof. intros Hr. rewrite has_V, mkpte_bit by lia. rewrite Z.lor_spec. apply orb_true_r. Qed.

Lemma mkpte_flags pa perm :
  0 <= pa < 2 ^ 56 -> 0 <= perm < 2 ^ 10 -> PTE_FLAGS (mkpte pa perm) = Z.lor perm PTE_V.
Proof.
  intros Hr Hp. unfold PTE_FLAGS. change 0x3FF with (Z.ones 10). apply Z.bits_inj'. intros n Hn.
  rewrite Z.land_spec, Z.testbit_ones_nonneg by lia. destruct (Z.ltb_spec n 10).
  - rewrite mkpte_bit by lia. by rewrite andb_true_r.
  - rewrite andb_false_r. symmetry. apply Z.bits_above_log2; [apply Z.lor_nonneg; split; [lia|done]|].
    assert (Hl : 0 <= Z.lor perm PTE_V < 2 ^ 10) by (apply lor_range; [lia|lia|by split]).
    destruct (decide (Z.lor perm PTE_V = 0)) as [->|]; [simpl; lia|].
    assert (Z.log2 (Z.lor perm PTE_V) < 10) by (apply Z.log2_lt_pow2; lia). lia.
Qed.

Lemma PTE_FLAGS_range e : 0 <= PTE_FLAGS e < 2 ^ 10.
Proof. unfold PTE_FLAGS. change 0x3FF with (Z.ones 10). rewrite Z.land_ones by lia. apply Z.mod_pos_bound. lia. Qed.

Lemma PTE_FLAGS_valid e : has e PTE_V = true -> Z.lor (PTE_FLAGS e) PTE_V = PTE_FLAGS e.
Proof.
  rewrite has_V. intros Hv. unfold PTE_FLAGS. apply Z.bits_inj'. intros n Hn.
  rewrite Z.lor_spec. destruct (decide (n = 0)) as [->|].
  - rewrite Z.land_spec, Hv. done.
  - change PTE_V with (2 ^ 0). rewrite (Z.pow2_bits_false 0 n) by lia. apply orb_false_r.
Qed.

(** ** Paths *)

Inductive path := PRoot | PL1 (i : Z) | PL2 (i j : Z).
#[global] Instance path_eqdec : EqDecision path.
Proof. solve_decision. Defined.

Definition idx_ok (i : Z) : Prop := 0 <= i < 512.
Definition ok_path (x : path) : Prop :=
  match x with PRoot => True | PL1 i => idx_ok i | PL2 i j => idx_ok i /\ idx_ok j end.

Definition child (m : mem) (t i : Z) : option Z :=
  let e := load64 m (t + 8 * i) in if has e PTE_V then Some (PTE2PA e) else None.

Definition tab (m : mem) (root : Z) (x : path) : option Z :=
  match x with
  | PRoot => Some root
  | PL1 i => child m root i
  | PL2 i j => t ← child m root i; child m t j
  end.

Definition leaf_path (va : Z) : path := PL2 (PX 2 va) (PX 1 va).

Definition pte_of (m : mem) (root va : Z) : Z :=
  match tab m root (leaf_path va) with
  | Some t => load64 m (t + 8 * PX 0 va)
  | None => 0
  end.

Lemma leaf_path_ok va : ok_path (leaf_path va).
Proof. split; apply PX_range. Qed.

Definition is_table (m : mem) (root a : Z) : Prop := exists x, ok_path x /\ tab m root x = Some a.

Section tables.
Context `{L : KernelLayout}.

Record pt_wf (m : mem) (root : Z) : Prop := {
  wf_page : forall x a, ok_path x -> tab m root x = Some a -> page_ok a;
  wf_inj : forall x y a, ok_path x -> ok_path y ->
    tab m root x = Some a -> tab m root y = Some a -> x = y
}.

(** The allocator's invariant and a well-formed page table apart from the
    free pages. *)
Record vm_inv (s : kmem) (l : list Z) (root : Z) : Prop := {
  vi_kmem : kmem_inv s l;
  vi_wf : pt_wf s.(pm) root;
  vi_apart : forall a, is_table s.(pm) root a -> a ∉ l
}.

Context {LOK : KernelLayoutOK L}.

(** ** walk without alloc *)

Lemma walk_level_false level t va s :
  walk_level false level t va s = Ok (child s.(pm) t (PX level va)) s.
Proof.
  unfold walk_level, child, rd64. mstep.
  destruct (has (load64 (pm s) (t + 8 * PX level va)) PTE_V); reflexivity.
Qed.

Lemma walk_false root va s :
  va < MAXVA ->
  walk root va false s =
    Ok ((fun t => t + 8 * PX 0 va) <$> tab s.(pm) root (leaf_path va)) s.
Proof.
  intros Hv. unfold walk. destruct (Z.leb_spec MAXVA va); [lia|].
  erewrite bind_ok by apply walk_level_false. unfold leaf_path, tab.
  destruct (child (pm s) root (PX 2 va)) as [t1|]; [|done].
  erewrite bind_ok by apply walk_level_false. simpl. by destruct (child (pm s) t1 (PX 1 va)).
Qed.

(** ** Adding a table *)

Definition ext (x : path) (i : Z) : path :=
  match x with PRoot => PL1 i | PL1 j => PL2 j i | PL2 j k => PL2 j k end.

Definition inner (x : path) : Prop := match x with PL2 _ _ => False | _ => True end.

Lemma tab_ext m root x i t :
  inner x -> tab m root x = Some t -> tab m root (ext x i) = child m t i.
Proof. destruct x as [|j|]; simpl; [|intros _ ->; done|done]. by intros _ [= ->]. Qed.

Section add_table.
Context (m m' : mem) (root t i n : Z) (x : path).
Context (Hwf : pt_wf m root) (Hx : inner x) (Hok : ok_path x) (Hi : idx_ok i).
Context (Ht : tab m root x = Some t) (Hnone : child m t i = None).
Context (Hn : page_ok n) (Hnt : forall a, is_table m root a -> a ≠ n).
Context (Hnew : child m' t i = Some n).
Context (Hzero : forall k, idx_ok k -> load64 m' (n + 8 * k) = 0).
Context (Hsame : forall y a k, ok_path y -> tab m root y = Some a -> idx_ok k ->
          (a, k) ≠ (t, i) -> load64 m' (a + 8 * k) = load64 m (a + 8 * k)).

Lemma child_same y a k :
  ok_path y -> tab m root y = Some a -> idx_ok k -> (a, k) ≠ (t, i) ->
  child m' a k = child m a k.
Proof using Hsame. intros. unfold child. by rewrite (Hsame y). Qed.

Lemma child_zero k : idx_ok k -> child m' n k = None.
Proof using Hzero. intros Hk. unfold child. by rewrite Hzero. Qed.

Lemma tab_add y :
  ok_path y -> tab m' root y = if decide (y = ext x i) then Some n else tab m root y.
Proof using All.
  intros Hy. destruct y as [|j|j k].
  - case_decide as E; [destruct x; simplify_eq/=|done].
  - simpl. destruct (decide ((root, j) = (t, i))) as [[= -> ->]|Hne].
    + assert (x = PRoot) as -> by (eapply (wf_inj m t); eauto; done).
      rewrite decide_True by done. done.
    + rewrite (child_same PRoot) by done.
      rewrite decide_False; [done|]. intros E. destruct x as [|j'|]; simplify_eq/=.
  - destruct Hy as [Hj Hk]. simpl. destruct (child m root j) as [a|] eqn:Ea.
    + assert (Hne : (root, j) ≠ (t, i)) by (intros [= -> ->]; congruence).
      rewrite (child_same PRoot), Ea by done. simpl.
      destruct (decide ((a, k) = (t, i))) as [[= -> ->]|Hne2].
      * assert (x = PL1 j) as -> by (eapply (wf_inj m root); eauto; done).
        by rewrite decide_True by done.
      * rewrite (child_same (PL1 j)) by done.
        rewrite decide_False; [done|]. intros E. destruct x as [|j'|]; simplify_eq/=.
    + simpl. destruct (decide ((root, j) = (t, i))) as [[= -> ->]|Hne].
      * assert (x = PRoot) as -> by (eapply (wf_inj m t); eauto; done).
        rewrite Hnew. simpl. by rewrite child_zero by done.
      * rewrite (child_same PRoot), Ea by done. simpl.
        rewrite decide_False; [done|]. intros E. destruct x as [|j'|]; simplify_eq/=; congruence.
Qed.

Lemma wf_add : pt_wf m' root.
Proof using All.
  constructor.
  - intros y a Hy. rewrite tab_add by done. case_decide; [by intros [= <-]|].
    by apply (wf_page _ _ Hwf).
  - intros y z a Hy Hz. rewrite !tab_add by done. repeat case_decide; subst; auto.
    + intros [= <-] Ha. exfalso. eapply Hnt; [|done]. by exists z.
    + intros Ha [= <-]. exfalso. eapply Hnt; [|done]. by exists y.
    + by apply (wf_inj _ _ Hwf).
Qed.

Lemma pte_of_add va : pte_of m' root va = pte_of m root va.
Proof using All.
  unfold pte_of. rewrite tab_add by apply leaf_path_ok. case_decide as E.
  - rewrite Hzero by apply PX_range. rewrite E, (tab_ext m root x i t) by done.
    by rewrite Hnone.
  - destruct (tab m root (leaf_path va)) as [a|] eqn:Ea; [|done].
    apply (Hsame (leaf_path va)); [apply leaf_path_ok|done|apply PX_range|].
    intros [= -> _].
    assert (x = leaf_path va) as -> by (eapply (wf_inj m root); eauto using leaf_path_ok).
    done.
Qed.
End add_table.

(** ** walk with alloc *)

(** [grow s s' l l' root used]: page-table pages [used] were taken from the
    free list and became tables of [root]; no leaf entry changed, and no byte
    outside the tables. *)
Record grow (s s' : kmem) (l l' : list Z) (root : Z) (used : list Z) : Prop := {
  gr_list : l = used ++ l';
  gr_inv : vm_inv s' l' root;
  gr_pte : forall va, pte_of s'.(pm) root va = pte_of s.(pm) root va;
  gr_tab : forall x a, ok_path x -> tab s.(pm) root x = Some a -> tab s'.(pm) root x = Some a;
  gr_new : forall x a, ok_path x -> tab s'.(pm) root x = Some a ->
    tab s.(pm) root x = Some a \/ a ∈ used;
  gr_used : forall a, a ∈ used -> is_table s'.(pm) root a;
  gr_frame : forall y,
    (forall a, a ∈ used \/ is_table s.(pm) root a -> y < a \/ a + PGSIZE <= y) ->
    s'.(pm) y = s.(pm) y
}.

Lemma grow_refl s l root : vm_inv s l root -> grow s s l l root [].
Proof. intros H. constructor; auto. by intros a ?%not_elem_of_nil. Qed.

Lemma grow_trans s1 s2 s3 l1 l2 l3 root u1 u2 :
  grow s1 s2 l1 l2 root u1 -> grow s2 s3 l2 l3 root u2 -> grow s1 s3 l1 l3 root (u1 ++ u2).
Proof.
  intros G1 G2. constructor.
  - by rewrite (gr_list _ _ _ _ _ _ G1), (gr_list _ _ _ _ _ _ G2), app_assoc.
  - apply (gr_inv _ _ _ _ _ _ G2).
  - intros va. by rewrite (gr_pte _ _ _ _ _ _ G2), (gr_pte _ _ _ _ _ _ G1).
  - intros x a Hx Ha. apply (gr_tab _ _ _ _ _ _ G2), (gr_tab _ _ _ _ _ _ G1); auto.
  - intros x a Hx Ha. destruct (gr_new _ _ _ _ _ _ G2 x a Hx Ha) as [H|H].
    + destruct (gr_new _ _ _ _ _ _ G1 x a Hx H); [by left|right; apply elem_of_app; by left].
    + right. apply elem_of_app. by right.
  - intros a [Ha|Ha]%elem_of_app; [|by apply (gr_used _ _ _ _ _ _ G2)].
    destruct (gr_used _ _ _ _ _ _ G1 a Ha) as (x & Hx & Hxa).
    exists x. split; [done|]. by apply (gr_tab _ _ _ _ _ _ G2).
  - intros y Hy. rewrite (gr_frame _ _ _ _ _ _ G2), (gr_frame _ _ _ _ _ _ G1); [done|..].
    + intros a Ha. apply Hy. rewrite elem_of_app. tauto.
    + intros a [Ha|(x & Hx & Ha)]; [apply Hy; rewrite elem_of_app; tauto|].
      apply Hy. destruct (gr_new _ _ _ _ _ _ G1 x a Hx Ha); [|rewrite elem_of_app; tauto].
      right. by exists x.
Qed.

Lemma page_off_apart a b k k' :
  page_ok a -> page_ok b -> idx_ok k -> idx_ok k' -> (a, k) ≠ (b, k') ->
  a + 8 * k + 8 <= b + 8 * k' \/ b + 8 * k' + 8 <= a + 8 * k.
Proof.
  unfold idx_ok. intros Ha Hb Hk Hk' Hne. destruct (decide (a = b)) as [->|].
  - assert (k ≠ k') by congruence. lia.
  - pose proof (page_ok_apart a b Ha Hb ltac:(done)). unfold PGSIZE in *. lia.
Qed.

Lemma walk_level_true level t va s l root x :
  vm_inv s l root -> inner x -> ok_path x -> tab s.(pm) root x = Some t ->
  exists r s' l' used,
    walk_level true level t va s = Ok r s' /\ grow s s' l l' root used /\
    r = tab s'.(pm) root (ext x (PX level va)) /\ (length used <= 1)%nat /\ (r = None -> l = []).
Proof.
  intros Hinv Hin Hok Ht. set (i := PX level va).
  assert (Hi : idx_ok i) by apply PX_range.
  unfold walk_level. fold i. unfold rd64, set_bytes, wr64. mstep.
  pose proof (tab_ext s.(pm) root x i t Hin Ht) as Hext. unfold child in Hext.
  destruct (has (load64 (pm s) (t + 8 * i)) PTE_V) eqn:Hv; cbn [negb].
  { exists (Some (PTE2PA (load64 (pm s) (t + 8 * i)))), s, l, [].
    split; [done|]. split; [by apply grow_refl|]. rewrite Hext. by split; [|split; [simpl; lia|]]. }
  destruct Hinv as [Hk Hwf Hap]. destruct l as [|n l].
  { rewrite (bind_ok _ _ _ _ _ (kalloc_empty s Hk)). cbn [Z.eqb].
    exists None, s, [], []. split; [done|]. split; [by apply grow_refl|]. rewrite Hext. by split; [|split; [simpl; lia|]]. }
  destruct (kalloc_page s n l Hk) as (s1 & E & Hk1 & Hn & Hnl & Hm1).
  rewrite (bind_ok _ _ _ _ _ E). pose proof (page_ok_pos n Hn).
  destruct (Z.eqb_spec n 0); [lia|]. mstep. cbn [pm freelist].
  assert (Htp : page_ok t) by (by eapply (wf_page _ _ Hwf)).
  assert (Hnt : forall a, is_table (pm s) root a -> a ≠ n)
    by (intros a Ha ->; apply (Hap n Ha); by left).
  assert (Htn : t ≠ n) by (apply Hnt; by exists x).
  destruct (page_ok_bound n Hn) as [Hnb _].
  set (v := Z.lor (PA2PTE n) PTE_V).
  set (m' := store64 (memset (pm s1) n 0 PGSIZE) (t + 8 * i) v).
  assert (Hmk : v = mkpte n 0) by (unfold v, mkpte; by rewrite Z.lor_0_r).
  assert (Hv64 : u64 v = v) by (rewrite Hmk; apply mkpte_u64; lia).
  assert (Hpa : PTE2PA v = n) by (rewrite Hmk; apply mkpte_pa; [apply Hn|lia|lia]).
  assert (Hval : has v PTE_V = true) by (rewrite Hmk; by apply mkpte_valid).
  assert (Hbytes : forall y, (y < n \/ n + PGSIZE <= y) ->
            (y < t + 8 * i \/ t + 8 * i + 8 <= y) -> m' y = pm s y).
  { intros y H1 H2. unfold m', store64. rewrite store_ne by lia.
    rewrite memset_out by done. rewrite Hm1. by apply memset_out. }
  assert (Hnew : child m' t i = Some n).
  { unfold child, m'. rewrite load64_store64_eq, Hv64, Hval, Hpa. done. }
  assert (Hzero : forall k, idx_ok k -> load64 m' (n + 8 * k) = 0).
  { intros k Hkk. unfold m'. rewrite load64_store64_ne
      by (apply (page_off_apart n t k i); auto; congruence).
    unfold idx_ok in *. apply load64_memset_zero; unfold PGSIZE; lia. }
  assert (Hsame : forall y a k, ok_path y -> tab (pm s) root y = Some a -> idx_ok k ->
            (a, k) ≠ (t, i) -> load64 m' (a + 8 * k) = load64 (pm s) (a + 8 * k)).
  { intros y a k Hy Ha Hkk Hne. apply load_ext. intros z Hz. apply Hbytes.
    - assert (a ≠ n) by (apply Hnt; by exists y).
      pose proof (page_ok_apart a n (wf_page _ _ Hwf y a Hy Ha) Hn ltac:(done)).
      unfold idx_ok, PGSIZE in *. lia.
    - pose proof (page_off_apart a t k i (wf_page _ _ Hwf y a Hy Ha) Htp Hkk Hi Hne). lia. }
  assert (Hnone : child (pm s) t i = None) by (unfold child; by rewrite Hv).
  pose proof (fun y Hy => tab_add (pm s) m' root t i n x Hwf Hin Hok Hi Ht Hnone Hn Hnt
                Hnew Hzero Hsame y Hy) as Htab.
  exists (Some n), (mkkmem m' (freelist s1)), l, [n].
  split; [done|]. split; [constructor|]; cbn [pm freelist].
  - done.
  - constructor; cbn [pm].
    + destruct Hk1 as (Hc & Hnd & Hb). split; [|split; [done|]].
      * apply (chain_outside (memset (pm s1) n 0 PGSIZE)) with t; auto.
        -- apply (chain_outside (pm s1)) with n; auto. intros y Hy. by apply memset_out.
        -- intros Hl. apply (Hap t); [by exists x|by right].
        -- intros y Hy. unfold idx_ok, PGSIZE in *. apply store_ne. lia.
      * unfold m'. by apply store_byte_mem, memset_byte_mem.
    + exact (wf_add (pm s) m' root t i n x Hwf Hin Hok Hi Ht Hnone Hn Hnt Hnew Hzero Hsame).
    + intros a (y & Hy & Ha) Hl. rewrite Htab in Ha by done. case_decide.
      * by simplify_eq.
      * apply (Hap a); [by exists y|by right].
  - exact (pte_of_add (pm s) m' root t i n x Hwf Hin Hok Hi Ht Hnone Hn Hnt Hnew Hzero Hsame).
  - intros y a Hy Ha. rewrite Htab by done. case_decide as E1; [|done].
    subst y. rewrite (tab_ext _ _ _ _ _ Hin Ht) in Ha. congruence.
  - intros y a Hy Ha. rewrite Htab in Ha by done. case_decide; [right; simplify_eq; by left|by left].
  - intros a ->%list_elem_of_singleton. exists (ext x i).
    assert (ok_path (ext x i)) by (destruct x; simpl in *; auto; done).
    split; [done|]. rewrite Htab by done. by rewrite decide_True.
  - intros y Hy. apply Hbytes; [apply Hy; left; by left|].
    destruct (Hy t) as [H1|H1]; [right; by exists x|unfold idx_ok, PGSIZE in *; lia..].
  - split; [|done]. rewrite Htab; [by rewrite decide_True|].
    destruct x; simpl in *; auto; done.
Qed.

Lemma walk_true root va s l :
  vm_inv s l root -> va < MAXVA ->
  exists r s' l' used,
    walk root va true s = Ok r s' /\ grow s s' l l' root used /\
    match r with
    | Some a => exists t, tab s'.(pm) root (leaf_path va) = Some t /\ a = t + 8 * PX 0 va
    | None => l' = [] /\ (length l <= 1)%nat
    end.
Proof.
  intros Hinv Hv. unfold walk. destruct (Z.leb_spec MAXVA va); [lia|].
  destruct (walk_level_true 2 root va s l root PRoot Hinv I I eq_refl)
    as (r1 & s1 & l1 & u1 & E1 & G1 & Hr1 & Hu1 & Hn1).
  rewrite (bind_ok _ _ _ _ _ E1). destruct r1 as [t1|].
  2: { pose proof (gr_list _ _ _ _ _ _ G1) as Hl. rewrite (Hn1 eq_refl) in *.
       destruct u1, l1; try done. exists None, s1, [], []. by split; [|split; [|split; [|simpl; lia]]]. }
  destruct (walk_level_true 1 t1 va s1 l1 root (PL1 (PX 2 va)) (gr_inv _ _ _ _ _ _ G1) I
              (PX_range 2 va) (eq_sym Hr1)) as (r0 & s0 & l0 & u0 & E0 & G0 & Hr0 & Hu0 & Hn0).
  rewrite (bind_ok _ _ _ _ _ E0).
  pose proof (grow_trans _ _ _ _ _ _ _ _ _ G1 G0) as G. destruct r0 as [t0|].
  - exists (Some (t0 + 8 * PX 0 va)), s0, l0, (u1 ++ u0). split; [done|]. split; [done|]. eauto.
  - pose proof (gr_list _ _ _ _ _ _ G0) as Hl0. rewrite Hn0 in Hl0 by done.
    symmetry in Hl0. apply app_eq_nil in Hl0 as [-> ->]. exists None, s0, [], (u1 ++ []).
    split; [done|]. split; [done|]. split; [done|].
    rewrite (gr_list _ _ _ _ _ _ G1), (Hn0 eq_refl), app_nil_r. done.
Qed.

(** ** Writing a leaf entry *)

Lemma leaf_write s l root va t v :
  vm_inv s l root -> 0 <= va < MAXVA -> tab s.(pm) root (leaf_path va) = Some t ->
  0 <= v < 2 ^ 64 ->
  let m' := store64 s.(pm) (t + 8 * PX 0 va) v in
  vm_inv (mkkmem m' s.(freelist)) l root /\
  (forall x, ok_path x -> tab m' root x = tab s.(pm) root x) /\
  (forall va', 0 <= va' < MAXVA ->
     pte_of m' root va' = if decide (va' / 4096 = va / 4096) then v else pte_of s.(pm) root va') /\
  (forall y, (forall a, is_table s.(pm) root a -> y < a \/ a + PGSIZE <= y) -> m' y = s.(pm) y).
Proof.
  intros Hinv Hva Ht Hv m'. pose proof Hinv as [Hk Hwf Hap].
  pose proof (PX_range 0 va) as Hi. change (idx_ok (PX 0 va)) in Hi.
  assert (Htp : page_ok t) by (eapply (wf_page _ _ Hwf); eauto using leaf_path_ok).
  assert (Hload : forall x a k, ok_path x -> tab (pm s) root x = Some a -> idx_ok k ->
            (a, k) ≠ (t, PX 0 va) -> load64 m' (a + 8 * k) = load64 (pm s) (a + 8 * k)).
  { intros x a k Hx Ha Hkk Hne. apply load64_store64_ne.
    apply (page_off_apart a t k (PX 0 va)); auto. by eapply (wf_page _ _ Hwf). }
  assert (Hchild : forall x a k, ok_path x -> inner x -> tab (pm s) root x = Some a -> idx_ok k ->
            child m' a k = child (pm s) a k).
  { intros x a k Hx Hin Ha Hkk. unfold child. rewrite (Hload x); auto. intros [= -> _].
    assert (x = leaf_path va) as -> by (eapply (wf_inj _ _ Hwf); eauto using leaf_path_ok). done. }
  assert (Htab : forall x, ok_path x -> tab m' root x = tab (pm s) root x).
  { intros [|j|j k] Hx; [done|by apply (Hchild PRoot)|]. destruct Hx as [Hj Hkk]. simpl.
    rewrite (Hchild PRoot) by done. destruct (child (pm s) root j) eqn:Ej; [|done].
    simpl. by apply (Hchild (PL1 j)). }
  assert (Hframe : forall y, (forall a, is_table (pm s) root a -> y < a \/ a + PGSIZE <= y) ->
            m' y = pm s y).
  { intros y Hy. unfold idx_ok in Hi. apply store_ne. destruct (Hy t);
      [eexists; eauto using leaf_path_ok|unfold PGSIZE in *; lia..]. }
  split; [constructor; cbn [pm freelist]|split; [done|split; [|done]]].
  - destruct Hk as (Hc & Hnd & Hb). split; [|split; [done|by apply store_byte_mem]].
    apply (chain_outside (pm s)) with t; auto; [apply Hap; eexists; eauto using leaf_path_ok|].
    intros y Hy. unfold idx_ok, PGSIZE in *. apply store_ne. lia.
  - constructor; intros *; [intros Hx|intros Hx Hy]; rewrite !Htab by done;
      [by apply (wf_page _ _ Hwf)|by apply (wf_inj _ _ Hwf)].
  - intros a (x & Hx & Ha). rewrite Htab in Ha by done. apply Hap. by exists x.
  - intros va' Hva'. unfold pte_of. rewrite Htab by apply leaf_path_ok. case_decide as E.
    + assert (leaf_path va' = leaf_path va /\ PX 0 va' = PX 0 va) as [-> ->].
      { assert (Hd : forall k, 0 <= k -> PX k va' = PX k va).
        { intros k Hk0. rewrite !PX_eq by lia.
          rewrite Z.pow_add_r by lia. change (2 ^ 12) with 4096.
          rewrite <- !Z.div_div by lia. by rewrite E. }
        unfold leaf_path. by rewrite !Hd by lia. }
      rewrite Ht. unfold m'. rewrite load64_store64_eq. by apply u64_small.
    + destruct (tab (pm s) root (leaf_path va')) as [a|] eqn:Ea; [|done].
      apply (Hload (leaf_path va')); auto using leaf_path_ok; [apply PX_range|].
      intros [= -> Hpx]. apply E.
      assert (leaf_path va' = leaf_path va) as Hlp
        by (eapply (wf_inj _ _ Hwf); eauto using leaf_path_ok).
      unfold leaf_path in Hlp. injection Hlp as Hp2 Hp1. by apply PX_inj.
Qed.
End tables.
