(* ===== verification/VmMap.v ===== *)
(** * Mapping, unmapping and growing user memory

    What [mappages], [uvmunmap], [uvmalloc], [uvmdealloc] and [vmfault] do to
    the mapping [pte_of] and to the free list.  [remap] is the relation between the
    states before and after: page-table pages [used] left the free list, the
    mapping became [P], everything outside the tables and the pages [data] is
    untouched.

    An address space ([as_inv]) is a well-formed page table whose user pages are
    valid pages, pairwise distinct, not free and not tables. *)

From S2P Require Import Prelude Types Mem Layout Kalloc Vm VmTables.
From Stdlib Require Import ZArith Lia.
From stdpp Require Import base list numbers strings.
Open Scope Z_scope.

Section map.
Context `{L : KernelLayout} {LOK : KernelLayoutOK L}.

(** ** Pages that are not tables *)

Definition spare (s : kmem) (l : list Z) (root d : Z) : Prop :=
  page_ok d /\ (d ∉ l) /\ ~ is_table s.(pm) root d.

Lemma tab_frame m m' root :
  pt_wf m root ->
  (forall a, is_table m root a -> forall y, a <= y < a + PGSIZE -> m' y = m y) ->
  forall x, ok_path x -> tab m' root x = tab m root x.
Proof.
  intros Hwf Hsame.
  assert (Hch : forall x a k, ok_path x -> tab m root x = Some a -> idx_ok k ->
            child m' a k = child m a k).
  { intros x a k Hx Ha Hk. unfold child.
    enough (load64 m' (a + 8 * k) = load64 m (a + 8 * k)) as -> by done.
    apply load_ext. intros y Hy. apply (Hsame a); [by exists x|].
    unfold idx_ok, PGSIZE in *. lia. }
  intros [|j|j k] Hx; [done|by apply (Hch PRoot)|]. destruct Hx as [Hj Hk]. simpl.
  rewrite (Hch PRoot) by done. destruct (child m root j) eqn:E; [|done].
  simpl. by apply (Hch (PL1 j)).
Qed.

Lemma pte_frame m m' root :
  pt_wf m root ->
  (forall a, is_table m root a -> forall y, a <= y < a + PGSIZE -> m' y = m y) ->
  forall va, pte_of m' root va = pte_of m root va.
Proof.
  intros Hwf Hsame va. unfold pte_of. rewrite (tab_frame m) by auto using leaf_path_ok.
  destruct (tab m root (leaf_path va)) as [t|] eqn:E; [|done].
  apply load_ext. intros y Hy. apply (Hsame t); [eexists; eauto using leaf_path_ok|].
  pose proof (PX_range 0 va). unfold PGSIZE. lia.
Qed.

Lemma wf_frame m m' root :
  pt_wf m root ->
  (forall a, is_table m root a -> forall y, a <= y < a + PGSIZE -> m' y = m y) ->
  pt_wf m' root.
Proof.
  intros Hwf Hsame. pose proof (tab_frame m m' root Hwf Hsame) as Ht.
  constructor; [intros x a Hx|intros x y a Hx Hy]; rewrite !Ht by done;
    [by apply (wf_page _ _ Hwf)|by apply (wf_inj _ _ Hwf)].
Qed.

Lemma is_table_frame m m' root :
  pt_wf m root ->
  (forall a, is_table m root a -> forall y, a <= y < a + PGSIZE -> m' y = m y) ->
  forall a, is_table m' root a <-> is_table m root a.
Proof.
  intros Hwf Hsame a. pose proof (tab_frame m m' root Hwf Hsame) as Ht.
  split; intros (x & Hx & Ha); exists x; rewrite Ht in *; auto.
Qed.

(** The tables are apart from any spare page. *)
Lemma outside_tables s l root d m' :
  vm_inv s l root -> page_ok d -> ~ is_table s.(pm) root d -> same_outside s.(pm) m' d ->
  forall a, is_table s.(pm) root a -> forall y, a <= y < a + PGSIZE -> m' y = s.(pm) y.
Proof.
  intros Hinv Hd Hnt Hs a Ha y Hy. apply Hs.
  assert (a ≠ d) by (intros ->; done). destruct Ha as (x & Hx & Ha).
  pose proof (page_ok_apart a d (wf_page _ _ (vi_wf _ _ _ Hinv) x a Hx Ha) Hd ltac:(done)). lia.
Qed.

(** Writing into a spare page. *)
Lemma spare_write s l root d m' :
  vm_inv s l root -> spare s l root d -> same_outside s.(pm) m' d -> byte_mem m' ->
  vm_inv (mkkmem m' s.(freelist)) l root /\
  (forall x, ok_path x -> tab m' root x = tab s.(pm) root x) /\
  (forall va, pte_of m' root va = pte_of s.(pm) root va).
Proof.
  intros Hinv (Hd & Hdl & Hdt) Hs Hb. pose proof Hinv as [Hk Hwf Hap].
  pose proof (outside_tables s l root d m' Hinv Hd Hdt Hs) as Hsame.
  split; [constructor; cbn [pm freelist]|split; [by apply tab_frame|by apply pte_frame]].
  - destruct Hk as (Hc & Hnd & _). split; [|split]; auto. by apply (chain_outside (pm s)) with d.
  - by apply (wf_frame (pm s)).
  - intros a Ha. rewrite (is_table_frame (pm s)) in Ha by done. by apply Hap.
Qed.

Lemma vm_kalloc s l root d :
  vm_inv s (d :: l) root ->
  exists s', kalloc s = Ok d s' /\ vm_inv s' l root /\ spare s' l root d /\
    (forall x, ok_path x -> tab s'.(pm) root x = tab s.(pm) root x) /\
    (forall va, pte_of s'.(pm) root va = pte_of s.(pm) root va) /\
    same_outside s.(pm) s'.(pm) d.
Proof.
  intros Hinv. pose proof Hinv as [Hk Hwf Hap].
  destruct (kalloc_page s d l Hk) as (s' & E & Hk' & Hd & Hdl & Hm).
  assert (Hdt : ~ is_table (pm s) root d) by (intros Ha; apply (Hap d Ha); by left).
  assert (Hs : same_outside (pm s) (pm s') d) by (rewrite Hm; intros y Hy; by apply memset_out).
  pose proof (outside_tables s _ root d (pm s') Hinv Hd Hdt Hs) as Hsame.
  exists s'. split; [done|]. split; [constructor|]; auto.
  - by apply (wf_frame (pm s)).
  - intros a Ha. rewrite (is_table_frame (pm s)) in Ha by done.
    intros Hl. apply (Hap a Ha). by right.
  - split; [split; [done|split; [done|]]|].
    + by rewrite (is_table_frame (pm s)).
    + split; [by apply tab_frame|split; [by apply pte_frame|done]].
Qed.

Lemma vm_kfree s l root d :
  vm_inv s l root -> spare s l root d ->
  exists s', kfree d s = Ok tt s' /\ vm_inv s' (d :: l) root /\
    (forall x, ok_path x -> tab s'.(pm) root x = tab s.(pm) root x) /\
    (forall va, pte_of s'.(pm) root va = pte_of s.(pm) root va) /\
    same_outside s.(pm) s'.(pm) d.
Proof.
  intros Hinv (Hd & Hdl & Hdt). pose proof Hinv as [Hk Hwf Hap].
  destruct (kfree_page s d l Hk Hd Hdl) as (s' & E & Hk' & Hs).
  pose proof (outside_tables s l root d (pm s') Hinv Hd Hdt Hs) as Hsame.
  exists s'. split; [done|]. split; [constructor|]; auto.
  - by apply (wf_frame (pm s)).
  - intros a Ha. rewrite (is_table_frame (pm s)) in Ha by done.
    rewrite not_elem_of_cons. split; [intros ->; done|by apply Hap].
  - split; [by apply tab_frame|split; [by apply pte_frame|done]].
Qed.

(** ** The effect of an operation on one page table *)

Record remap (s s' : kmem) (l l' : list Z) (root : Z) (used data : list Z) (P : Z -> Z) : Prop := {
  rm_list : l ≡ₚ used ++ data ++ l';
  rm_inv : vm_inv s' l' root;
  rm_pte : forall va, 0 <= va < MAXVA -> pte_of s'.(pm) root va = P va;
  rm_tab : forall x a, ok_path x -> tab s.(pm) root x = Some a -> tab s'.(pm) root x = Some a;
  rm_new : forall x a, ok_path x -> tab s'.(pm) root x = Some a ->
    tab s.(pm) root x = Some a \/ a ∈ used;
  rm_used : forall a, a ∈ used -> is_table s'.(pm) root a;
  rm_frame : forall y,
    (forall a, a ∈ used \/ a ∈ data \/ is_table s.(pm) root a -> y < a \/ a + PGSIZE <= y) ->
    s'.(pm) y = s.(pm) y
}.

Lemma grow_remap s s' l l' root used :
  grow s s' l l' root used -> remap s s' l l' root used [] (pte_of s.(pm) root).
Proof.
  intros G. constructor; try apply G.
  - by rewrite (gr_list _ _ _ _ _ _ G).
  - intros va _. apply (gr_pte _ _ _ _ _ _ G).
  - intros y Hy. apply (gr_frame _ _ _ _ _ _ G). intros a [?|?]; apply Hy; auto.
Qed.

Lemma remap_refl s l root : vm_inv s l root -> remap s s l l root [] [] (pte_of s.(pm) root).
Proof. intros H. apply grow_remap, grow_refl, H. Qed.

Lemma remap_ext s s' l l' root used data P Q :
  remap s s' l l' root used data P -> (forall va, 0 <= va < MAXVA -> P va = Q va) ->
  remap s s' l l' root used data Q.
Proof. intros R H. destruct R. constructor; auto. intros va Hva. rewrite rm_pte0; auto. Qed.

Lemma remap_trans s1 s2 s3 l1 l2 l3 root u1 u2 d1 d2 P Q :
  remap s1 s2 l1 l2 root u1 d1 P -> remap s2 s3 l2 l3 root u2 d2 Q ->
  remap s1 s3 l1 l3 root (u1 ++ u2) (d1 ++ d2) Q.
Proof.
  intros R1 R2. constructor.
  - rewrite (rm_list _ _ _ _ _ _ _ _ R1), (rm_list _ _ _ _ _ _ _ _ R2). solve_Permutation.
  - apply R2.
  - apply R2.
  - intros x a Hx Ha. apply R2, R1; auto.
  - intros x a Hx Ha. rewrite elem_of_app.
    destruct (rm_new _ _ _ _ _ _ _ _ R2 x a Hx Ha) as [H|H]; [|tauto].
    destruct (rm_new _ _ _ _ _ _ _ _ R1 x a Hx H); tauto.
  - intros a [Ha|Ha]%elem_of_app; [|by apply R2].
    destruct (rm_used _ _ _ _ _ _ _ _ R1 a Ha) as (x & Hx & Hxa).
    exists x. split; [done|]. by apply R2.
  - intros y Hy. rewrite (rm_frame _ _ _ _ _ _ _ _ R2), (rm_frame _ _ _ _ _ _ _ _ R1); [done|..].
    + intros a Ha. apply Hy. rewrite !elem_of_app. tauto.
    + intros a [Ha|[Ha|(x & Hx & Ha)]]; [apply Hy; rewrite !elem_of_app; tauto..|].
      apply Hy. destruct (rm_new _ _ _ _ _ _ _ _ R1 x a Hx Ha); [|rewrite !elem_of_app; tauto].
      right. right. by exists x.
Qed.

(** ** mappages *)

(** The mapping after [n] pages at [va] were mapped to those at [pa]. *)
Definition map_range (va n pa perm : Z) (P : Z -> Z) : Z -> Z := fun va' =>
  if (va <=? va') && (va' <? va + n * PGSIZE)
  then mkpte (pa + (va' / PGSIZE * PGSIZE - va)) perm else P va'.

Lemma map_range_in va n pa perm P va' :
  va <= va' < va + n * PGSIZE ->
  map_range va n pa perm P va' = mkpte (pa + (va' / PGSIZE * PGSIZE - va)) perm.
Proof.
  intros H. unfold map_range. destruct (Z.leb_spec va va'); [|lia].
  destruct (Z.ltb_spec va' (va + n * PGSIZE)); [done|lia].
Qed.
Lemma map_range_out va n pa perm P va' :
  ~ (va <= va' < va + n * PGSIZE) -> map_range va n pa perm P va' = P va'.
Proof.
  intros H. unfold map_range. destruct (Z.leb_spec va va'); [|done].
  destruct (Z.ltb_spec va' (va + n * PGSIZE)); [lia|done].
Qed.

Lemma same_page va va' :
  va mod PGSIZE = 0 -> va' / 4096 = va / 4096 <-> va <= va' < va + PGSIZE.
Proof.
  unfold PGSIZE. intros H. pose proof (Z.div_mod va 4096). pose proof (Z.div_mod va' 4096).
  pose proof (Z.mod_pos_bound va' 4096). split; intros; [lia|].
  symmetry. apply Z.div_unique with (va' - va); lia.
Qed.

(** Mapping one page and then the [n] pages after it. *)
Lemma map_range_S va n pa perm P Q va' :
  va mod PGSIZE = 0 -> 0 <= n ->
  (forall x, 0 <= x < MAXVA ->
     Q x = if decide (x / 4096 = va / 4096) then mkpte pa perm else P x) ->
  0 <= va' < MAXVA ->
  map_range (va + PGSIZE) n (pa + PGSIZE) perm Q va' = map_range va (n + 1) pa perm P va'.
Proof.
  intros Ha Hn HQ Hr. pose proof (same_page va va' Ha) as Hsp.
  destruct (decide (va + PGSIZE <= va' < va + PGSIZE + n * PGSIZE)) as [Hin|Hout].
  - rewrite !map_range_in by (unfold PGSIZE in *; lia). f_equal. lia.
  - rewrite map_range_out by done. rewrite HQ by done. case_decide as E.
    + apply Hsp in E. rewrite map_range_in by (unfold PGSIZE in *; lia). f_equal.
      replace (va' / PGSIZE) with (va / PGSIZE) by (symmetry; by apply Hsp).
      unfold PGSIZE in *. pose proof (Z.div_mod va 4096). lia.
    + rewrite map_range_out; [done|]. intros H. apply E, Hsp. unfold PGSIZE in *. lia.
Qed.

(** Writing the entry found by an allocating [walk]. *)
Lemma walk_write root a s l v :
  vm_inv s l root -> 0 <= a < MAXVA -> 0 <= v < 2 ^ 64 ->
  exists r s1 l1 used,
    walk root a true s = Ok r s1 /\
    match r with
    | None => l1 = [] /\ (length l <= 1)%nat /\ remap s s1 l l1 root used [] (pte_of s.(pm) root)
    | Some pte =>
        load64 s1.(pm) pte = pte_of s.(pm) root a /\
        remap s (mkkmem (store64 s1.(pm) pte v) s1.(freelist)) l l1 root used []
          (fun x => if decide (x / 4096 = a / 4096) then v else pte_of s.(pm) root x)
    end.
Proof.
  intros Hinv Ha Hv.
  destruct (walk_true root a s l Hinv ltac:(lia)) as (r & s1 & l1 & u1 & E & G & Hr).
  exists r, s1, l1, u1. split; [done|]. destruct r as [pte|]; [|destruct Hr; by split_and!; [..|apply grow_remap]].
  destruct Hr as (t & Ht & ->).
  split; [rewrite <- (gr_pte _ _ _ _ _ _ G); unfold pte_of; by rewrite Ht|].
  destruct (leaf_write s1 l1 root a t v (gr_inv _ _ _ _ _ _ G) Ha Ht Hv)
    as (Hinv2 & Htab2 & Hp2 & Hfr2).
  constructor; cbn [pm]; auto.
  - by rewrite (gr_list _ _ _ _ _ _ G).
  - intros x Hx. rewrite Hp2 by done. case_decide; [done|]. apply (gr_pte _ _ _ _ _ _ G).
  - intros x b Hx Hb. rewrite Htab2 by done. by apply (gr_tab _ _ _ _ _ _ G).
  - intros x b Hx Hb. rewrite Htab2 in Hb by done. by apply (gr_new _ _ _ _ _ _ G).
  - intros b Hb. destruct (gr_used _ _ _ _ _ _ G b Hb) as (x & Hx & Hxb).
    exists x. by rewrite Htab2.
  - intros y Hy. rewrite Hfr2.
    + apply (gr_frame _ _ _ _ _ _ G). intros b [?|?]; apply Hy; auto.
    + intros b (x & Hx & Hb). apply Hy.
      destruct (gr_new _ _ _ _ _ _ G x b Hx Hb); [right; right; by exists x|by left].
Qed.

Lemma mappages_loop_spec k fuel root a pa perm s l :
  (S k <= fuel)%nat -> a mod PGSIZE = 0 -> 0 <= a -> a + Z.of_nat (S k) * PGSIZE <= MAXVA ->
  0 <= pa -> pa + Z.of_nat (S k) * PGSIZE <= 2 ^ 56 -> 0 <= perm < 2 ^ 10 ->
  (forall va, a <= va < a + Z.of_nat (S k) * PGSIZE -> has (pte_of s.(pm) root va) PTE_V = false) ->
  vm_inv s l root ->
  exists r s' l' used n,
    mappages_loop fuel root a (a + Z.of_nat k * PGSIZE) pa perm s = Ok r s' /\
    remap s s' l l' root used [] (map_range a n pa perm (pte_of s.(pm) root)) /\
    ((r = 0 /\ n = Z.of_nat (S k)) \/ (r = -1 /\ l' = [] /\ 0 <= n < Z.of_nat (S k))).
Proof.
  revert fuel a pa s l. induction k as [|k IH];
    intros fuel a pa s l Hf Ha H0 Hmax Hpa Hpmax Hperm Hun Hinv;
    (destruct fuel as [|fuel]; [lia|]); cbn [mappages_loop];
    assert (Hmk : 0 <= mkpte pa perm < 2 ^ 64) by (rewrite <- mkpte_u64 by done; apply u64_range);
    destruct (walk_write root a s l (mkpte pa perm) Hinv ltac:(unfold PGSIZE in *; lia) Hmk)
      as (r & s1 & l1 & u1 & E & Hr); rewrite (bind_ok _ _ _ _ _ E);
    (destruct r as [pte|]; [|destruct Hr as (Hl1 & _ & R); exists (-1), s1, l1, u1, 0;
       split; [done|]; split; [|right; auto with lia];
       eapply remap_ext; [exact R|]; intros va _; by rewrite map_range_out by (unfold PGSIZE; lia)]);
    destruct Hr as [Hload R]; unfold rd64, wr64; mstep;
    rewrite Hload, Hun by (unfold PGSIZE in *; lia); mstep; fold (mkpte pa perm);
    set (s2 := mkkmem (store64 (pm s1) pte (mkpte pa perm)) (freelist s1)) in *.
  - rewrite Z.mul_0_l, Z.add_0_r, Z.eqb_refl.
    exists 0, s2, l1, u1, 1. split; [done|]. split; [|left; auto].
    eapply remap_ext; [exact R|]. intros va Hva. simpl.
    rewrite <- (map_range_S a 0 pa perm _ (pte_of (pm s2) root) va); auto; try lia; [|apply R].
    rewrite map_range_out by (unfold PGSIZE; lia). by rewrite (rm_pte _ _ _ _ _ _ _ _ R).
  - destruct (Z.eqb_spec a (a + Z.of_nat (S k) * PGSIZE)); [unfold PGSIZE in *; lia|].
    rewrite (u64_small (a + PGSIZE)), (u64_small (pa + PGSIZE))
      by (unfold PGSIZE in *; change MAXVA with (2 ^ 38) in *; lia).
    destruct (IH fuel (a + PGSIZE) (pa + PGSIZE) s2 l1) as (r & s3 & l3 & u3 & n3 & E3 & R3 & Hr3);
      auto; try (unfold PGSIZE in *; lia).
    { unfold PGSIZE in *. replace (a + 4096) with (a + 1 * 4096) by lia. by rewrite Z.mod_add by lia. }
    { intros va Hva. rewrite (rm_pte _ _ _ _ _ _ _ _ R) by (unfold PGSIZE in *; lia).
      rewrite decide_False; [apply Hun; unfold PGSIZE in *; lia|]. rewrite same_page by done. lia. }
    { apply R. }
    replace (a + Z.of_nat (S k) * PGSIZE) with (a + PGSIZE + Z.of_nat k * PGSIZE) by lia.
    exists r, s3, l3, (u1 ++ u3), (n3 + 1). split; [done|]. split; [|intuition lia].
    eapply remap_ext; [exact (remap_trans _ _ _ _ _ _ _ _ _ _ _ _ _ R R3)|].
    intros va Hva. apply map_range_S; auto; [lia|]. apply R.
Qed.

Lemma mappages_spec root va n pa perm s l :
  va mod PGSIZE = 0 -> 0 <= va -> 0 < n -> va + n * PGSIZE <= MAXVA ->
  0 <= pa -> pa + n * PGSIZE <= 2 ^ 56 -> 0 <= perm < 2 ^ 10 ->
  (forall x, va <= x < va + n * PGSIZE -> has (pte_of s.(pm) root x) PTE_V = false) ->
  vm_inv s l root ->
  exists r s' l' used k,
    mappages root va (n * PGSIZE) pa perm s = Ok r s' /\
    remap s s' l l' root used [] (map_range va k pa perm (pte_of s.(pm) root)) /\
    ((r = 0 /\ k = n) \/ (r = -1 /\ l' = [] /\ 0 <= k < n)).
Proof.
  intros Ha H0 Hn Hmax Hpa Hpmax Hperm Hun Hinv. unfold mappages.
  rewrite Ha, Z.mod_mul by (unfold PGSIZE; lia). simpl.
  destruct (Z.eqb_spec (n * PGSIZE) 0); [unfold PGSIZE in *; lia|].
  rewrite Z.div_mul by (unfold PGSIZE; lia).
  replace (va + n * PGSIZE - PGSIZE) with (va + Z.of_nat (Z.to_nat (n - 1)) * PGSIZE)
    by (rewrite Z2Nat.id by lia; lia).
  assert (HS : Z.of_nat (S (Z.to_nat (n - 1))) = n) by lia.
  rewrite u64_small by (unfold PGSIZE in *; change MAXVA with (2 ^ 38) in *; lia).
  destruct (mappages_loop_spec (Z.to_nat (n - 1)) (Z.to_nat n) root va pa perm s l)
    as (r & s' & l' & u & k & E & R & Hr); rewrite ?HS in *; auto; [lia|].
  exists r, s', l', u, k. auto.
Qed.

Lemma mappages_page root va pa perm s l :
  va mod PGSIZE = 0 -> 0 <= va < MAXVA -> 0 <= pa -> pa + PGSIZE <= 2 ^ 56 -> 0 <= perm < 2 ^ 10 ->
  has (pte_of s.(pm) root va) PTE_V = false -> vm_inv s l root ->
  exists r s' l' used,
    mappages root va PGSIZE pa perm s = Ok r s' /\
    ((r = 0 /\ remap s s' l l' root used []
        (fun x => if decide (x / 4096 = va / 4096) then mkpte pa perm else pte_of s.(pm) root x)) \/
     (r = -1 /\ l' = [] /\ (length l <= 1)%nat /\ remap s s' l l' root used [] (pte_of s.(pm) root))).
Proof.
  intros Ha H0 Hpa Hpmax Hperm Hun Hinv.
  assert (Hmk : 0 <= mkpte pa perm < 2 ^ 64) by (rewrite <- mkpte_u64 by done; apply u64_range).
  destruct (walk_write root va s l (mkpte pa perm) Hinv H0 Hmk) as (r & s1 & l1 & u1 & E & Hr).
  unfold mappages. rewrite Ha. change (PGSIZE mod PGSIZE) with 0. cbn [Z.eqb negb].
  change (Z.to_nat (PGSIZE / PGSIZE)) with 1%nat.
  destruct (Z.eqb_spec PGSIZE 0); [done|]. rewrite Z.add_simpl_r.
  rewrite u64_small by (change MAXVA with (2 ^ 38) in *; lia).
  cbn [mappages_loop]. rewrite (bind_ok _ _ _ _ _ E). destruct r as [pte|].
  - destruct Hr as [Hload R]. unfold rd64, wr64. mstep. rewrite Hload, Hun, Z.eqb_refl. mstep.
    eexists 0, _, l1, u1. split; [done|]. left. done.
  - destruct Hr as (-> & Hl & R). exists (-1), s1, [], u1. auto 6.
Qed.
End map.
