(* ===== verification/VmSpace.v ===== *)
(** * User address spaces

    What a user process can see of its memory, and what the kernel promises
    about it.  [uview] is the byte and the permission flags behind a user
    address; [as_inv] says that the user pages of a page table are valid pages of
    RAM, pairwise distinct, neither free nor used as page tables, and that the
    trapframe and trampoline pages are not accessible to the user.  [as_step] is
    the relation every operation on one address space keeps: the pages it
    owns, the free pages and the pages held by the caller are conserved (nothing is
    leaked, nothing is shared) and no byte of any other page changes. *)

From S2P Require Import Prelude Types Mem Layout Kalloc Vm VmTables VmMap.
From Stdlib Require Import ZArith Lia.
From stdpp Require Import base list numbers strings sets.
Open Scope Z_scope.

(** ** The view of user memory *)

Definition upage (m : mem) (root va : Z) : option Z :=
  let e := pte_of m root va in if has e PTE_V then Some (PTE2PA e) else None.

Definition uview (m : mem) (root va : Z) : option (Z * Z) :=
  let e := pte_of m root va in
  if has e PTE_V then Some (m (PTE2PA e + va mod PGSIZE), PTE_FLAGS e) else None.

(** User addresses: what lies under the trapframe page. *)
Definition user_va (va : Z) : Prop := 0 <= va < TRAPFRAME.

Definition owned (m : mem) (root a : Z) : Prop :=
  is_table m root a \/ exists va, user_va va /\ upage m root va = Some a.

Lemma user_va_max va : user_va va -> 0 <= va < MAXVA.
Proof. unfold user_va, TRAPFRAME, TRAMPOLINE, PGSIZE. lia. Qed.

Lemma high_max va : TRAPFRAME <= va < MAXVA -> 0 <= va < MAXVA.
Proof. change TRAPFRAME with (67108862 * 4096). lia. Qed.

(** No page is both under and above the start of the trapframe page. *)
Lemma high_low va va' : TRAPFRAME <= va -> user_va va' -> va / 4096 ≠ va' / 4096.
Proof.
  unfold user_va. change TRAPFRAME with (67108862 * 4096). intros H H' E.
  pose proof (Z.div_lt_upper_bound va' 4096 67108862 ltac:(lia) ltac:(lia)).
  pose proof (Z.div_le_lower_bound va 4096 67108862 ltac:(lia) ltac:(lia)). lia.
Qed.

Lemma pte_of_page m root va va' :
  0 <= va -> 0 <= va' -> va / 4096 = va' / 4096 -> pte_of m root va = pte_of m root va'.
Proof.
  intros H H' E.
  assert (Hd : forall k, 0 <= k -> PX k va = PX k va').
  { intros k Hk. rewrite !PX_eq by lia. rewrite Z.pow_add_r by lia. change (2 ^ 12) with 4096.
    rewrite <- !Z.div_div by lia. by rewrite E. }
  unfold pte_of, leaf_path. by rewrite !Hd by lia.
Qed.

Lemma upage_view m root va a :
  upage m root va = Some a -> uview m root va = Some (m (a + va mod PGSIZE), PTE_FLAGS (pte_of m root va)).
Proof. unfold upage, uview. destruct (has _ _); [by intros [= <-]|done]. Qed.

Lemma uview_frame m m' root va :
  pte_of m' root va = pte_of m root va ->
  (forall a y, upage m root va = Some a -> a <= y < a + PGSIZE -> m' y = m y) ->
  uview m' root va = uview m root va.
Proof.
  intros Hp Hb. unfold uview. rewrite Hp. unfold upage in Hb.
  destruct (has (pte_of m root va) PTE_V); [|done]. erewrite Hb; [done|done|].
  pose proof (Z.mod_pos_bound va PGSIZE ltac:(done)). lia.
Qed.

Section space.
Context `{L : KernelLayout} {LOK : KernelLayoutOK L}.

Record as_inv (s : kmem) (l : list Z) (root : Z) : Prop := {
  as_vm : vm_inv s l root;
  as_spare : forall va a, user_va va -> upage s.(pm) root va = Some a -> spare s l root a;
  as_inj : forall va va' a, user_va va -> user_va va' ->
    upage s.(pm) root va = Some a -> upage s.(pm) root va' = Some a -> va / 4096 = va' / 4096;
  as_high : forall va, TRAPFRAME <= va < MAXVA -> has (pte_of s.(pm) root va) PTE_U = false
}.

(** A page taken from the allocator and not given to the address space yet. *)
Definition held (s : kmem) (l : list Z) (root d : Z) : Prop :=
  spare s l root d /\ forall va, user_va va -> upage s.(pm) root va ≠ Some d.

(** [A], [A']: the free pages and the pages held by the caller, before and after. *)
Record as_step (s s' : kmem) (A A' l' : list Z) (root : Z) : Prop := {
  st_inv : as_inv s' l' root;
  st_pages : forall a, a ∈ A' \/ owned s'.(pm) root a <-> a ∈ A \/ owned s.(pm) root a;
  st_frame : forall y,
    (forall a, a ∈ A \/ owned s.(pm) root a -> y < a \/ a + PGSIZE <= y) -> s'.(pm) y = s.(pm) y;
  st_high : forall va, TRAPFRAME <= va < MAXVA -> pte_of s'.(pm) root va = pte_of s.(pm) root va
}.

Definition same_view (m m' : mem) (root : Z) : Prop :=
  forall va, user_va va -> uview m' root va = uview m root va.

Lemma as_step_refl s l root : as_inv s l root -> as_step s s l l l root.
Proof. intros H. by constructor. Qed.

Lemma as_step_trans s1 s2 s3 A1 A2 A3 l2 l3 root :
  as_step s1 s2 A1 A2 l2 root -> as_step s2 s3 A2 A3 l3 root -> as_step s1 s3 A1 A3 l3 root.
Proof.
  intros S1 S2. constructor.
  - apply S2.
  - intros a. by rewrite (st_pages _ _ _ _ _ _ S2), (st_pages _ _ _ _ _ _ S1).
  - intros y Hy. rewrite (st_frame _ _ _ _ _ _ S2), (st_frame _ _ _ _ _ _ S1); auto.
    intros a Ha. apply Hy. by apply (st_pages _ _ _ _ _ _ S1).
  - intros va Hva. by rewrite (st_high _ _ _ _ _ _ S2), (st_high _ _ _ _ _ _ S1).
Qed.

Lemma same_view_trans m1 m2 m3 root :
  same_view m1 m2 root -> same_view m2 m3 root -> same_view m1 m3 root.
Proof. intros H1 H2 va Hva. by rewrite H2, H1. Qed.

(** Two pages of RAM have no byte in common. *)
Lemma page_bytes a b y :
  page_ok a -> page_ok b -> a ≠ b -> a <= y < a + PGSIZE -> y < b \/ b + PGSIZE <= y.
Proof. intros Ha Hb Hne Hy. pose proof (page_ok_apart a b Ha Hb Hne). lia. Qed.

Lemma as_upage_ne s l root va a d :
  as_inv s l root -> user_va va -> upage s.(pm) root va = Some a -> d ∈ l -> a ≠ d.
Proof. intros H Hva Ha Hd ->. by destruct (as_spare _ _ _ H va d Hva Ha) as (_ & ? & _). Qed.

(** ** Steps that change no entry *)

(** Everything a write to the held page [d], or a change of the free list around
    it, leaves as it was. *)
Lemma held_step s s' l l' A root d :
  as_inv s l root -> d ∈ A -> vm_inv s' l' root -> page_ok d -> ~ is_table s.(pm) root d ->
  (forall va, user_va va -> upage s.(pm) root va ≠ Some d) ->
  (forall a, a ∈ l' -> a ∈ d :: l) ->
  (forall x, ok_path x -> tab s'.(pm) root x = tab s.(pm) root x) ->
  (forall va, pte_of s'.(pm) root va = pte_of s.(pm) root va) ->
  same_outside s.(pm) s'.(pm) d ->
  as_step s s' A A l' root /\ same_view s.(pm) s'.(pm) root.
Proof.
  intros Hinv HA Hvm Hd Hdt Hdu Hl Ht Hp Hs.
  assert (Hit : forall a, is_table (pm s') root a <-> is_table (pm s) root a)
    by (intros a; unfold is_table; split; intros (x & Hx & Ha); exists x; rewrite ?Ht in * by done; auto).
  assert (Hup : forall va, upage (pm s') root va = upage (pm s) root va)
    by (intros va; unfold upage; by rewrite Hp).
  split; [constructor; [constructor|..]|].
  - done.
  - intros va a Hva Ha. rewrite Hup in Ha.
    destruct (as_spare _ _ _ Hinv va a Hva Ha) as (H1 & H2 & H3).
    split; [done|]. rewrite Hit. split; [|done]. intros Hin. apply Hl, elem_of_cons in Hin as [->|?];
      [by apply (Hdu va)|done].
  - intros va va' a. rewrite !Hup. apply (as_inj _ _ _ Hinv).
  - intros va Hva. rewrite Hp. by apply (as_high _ _ _ Hinv).
  - intros a. unfold owned. rewrite Hit. by setoid_rewrite Hup.
  - intros y Hy. apply Hs, Hy. by left.
  - intros va _. apply Hp.
  - intros va Hva. apply uview_frame; [apply Hp|]. intros a y Ha Hy. apply Hs.
    apply (page_bytes a d); [by eapply (as_spare _ _ _ Hinv)|done| |done].
    intros ->. by apply (Hdu va).
Qed.

Lemma st_kalloc s d l root :
  as_inv s (d :: l) root ->
  exists s', kalloc s = Ok d s' /\ as_step s s' (d :: l) (d :: l) l root /\
    held s' l root d /\ 0 < d /\ same_view s.(pm) s'.(pm) root.
Proof.
  intros Hinv. destruct (vm_kalloc s l root d (as_vm _ _ _ Hinv)) as (s' & E & Hvm & Hsp & Ht & Hp & Hs).
  assert (Hdu : forall va, user_va va -> upage (pm s) root va ≠ Some d).
  { intros va Hva Ha. by eapply (as_upage_ne _ _ _ va d d Hinv Hva Ha); [left|]. }
  assert (Hdt : ~ is_table (pm s) root d).
  { intros Ha. apply (vi_apart _ _ _ (as_vm _ _ _ Hinv) d Ha). by left. }
  pose proof Hsp as (Hd & Hdl & _).
  destruct (held_step s s' (d :: l) l (d :: l) root d Hinv) as [St Sv]; auto; [by left|..].
  { intros a Ha. right. by right. }
  exists s'. split; [done|]. split; [done|]. split; [|split; [by apply page_ok_pos|done]].
  split; [done|]. intros va Hva. unfold upage. rewrite Hp. by apply Hdu.
Qed.

Lemma st_fill s l root d m' :
  as_inv s l root -> held s l root d -> same_outside s.(pm) m' d -> byte_mem m' ->
  let s' := mkkmem m' s.(freelist) in
  as_step s s' (d :: l) (d :: l) l root /\ held s' l root d /\ same_view s.(pm) m' root.
Proof.
  intros Hinv [Hsp Hdu] Hs Hb s'.
  destruct (spare_write s l root d m' (as_vm _ _ _ Hinv) Hsp Hs Hb) as (Hvm & Ht & Hp).
  pose proof Hsp as (Hd & Hdl & Hdt).
  destruct (held_step s s' l l (d :: l) root d Hinv) as [St Sv]; auto; [by left|by right|].
  split; [done|]. split; [|done]. split; [split; [done|split; [done|]]|].
  - intros (x & Hx & Ha). cbn [pm s'] in Ha. rewrite Ht in Ha by done. apply Hdt. by exists x.
  - intros va Hva. unfold upage. cbn [pm s']. rewrite Hp. by apply Hdu.
Qed.

Lemma st_kfree s l root d :
  as_inv s l root -> held s l root d ->
  exists s', kfree d s = Ok tt s' /\ as_step s s' (d :: l) (d :: l) (d :: l) root /\
    same_view s.(pm) s'.(pm) root.
Proof.
  intros Hinv [Hsp Hdu].
  destruct (vm_kfree s l root d (as_vm _ _ _ Hinv) Hsp) as (s' & E & Hvm & Ht & Hp & Hs).
  pose proof Hsp as (Hd & Hdl & Hdt). exists s'. split; [done|].
  apply (held_step s s' l (d :: l) (d :: l) root d Hinv); auto. by left.
Qed.
(** ** Steps that map a page *)

Lemma remap_tables s s' l l' root used data P a :
  remap s s' l l' root used data P -> is_table s'.(pm) root a <-> is_table s.(pm) root a \/ a ∈ used.
Proof.
  intros R. split.
  - intros (x & Hx & Ha). destruct (rm_new _ _ _ _ _ _ _ _ R x a Hx Ha); [left; by exists x|by right].
  - intros [(x & Hx & Ha)|Ha]; [exists x; split; [done|by apply R]|by apply R].
Qed.

Lemma remap_spare s s' l l' root used P a :
  remap s s' l l' root used [] P -> spare s l root a -> spare s' l' root a.
Proof.
  intros R (H1 & H2 & H3). rewrite (rm_list _ _ _ _ _ _ _ _ R) in H2.
  split; [done|]. rewrite (remap_tables _ _ _ _ _ _ _ _ a R). set_solver.
Qed.

(** The bytes of a spare page are not touched by growing the page table. *)
Lemma remap_bytes s s' l l' root used P a y :
  vm_inv s l root -> remap s s' l l' root used [] P -> spare s l root a ->
  a <= y < a + PGSIZE -> s'.(pm) y = s.(pm) y.
Proof.
  intros Hinv R (H1 & H2 & H3) Hy. apply (rm_frame _ _ _ _ _ _ _ _ R).
  intros b Hb. apply (page_bytes a b); auto.
  - destruct Hb as [Hb|[[]%not_elem_of_nil|(x & Hx & Hb)]].
    + pose proof (chain_ok _ _ _ (proj1 (vi_kmem _ _ _ Hinv))) as Hok.
      rewrite Forall_forall in Hok. apply Hok. rewrite (rm_list _ _ _ _ _ _ _ _ R). set_solver.
    + by apply (wf_page _ _ (vi_wf _ _ _ Hinv) x).
  - rewrite (rm_list _ _ _ _ _ _ _ _ R) in H2. intros ->. set_solver.
Qed.

Lemma remap_view s s' l l' root used P va :
  as_inv s l root -> remap s s' l l' root used [] P -> user_va va ->
  pte_of s'.(pm) root va = pte_of s.(pm) root va -> uview s'.(pm) root va = uview s.(pm) root va.
Proof.
  intros Hinv R Hva Hp. apply uview_frame; [done|]. intros b y Hb Hy.
  eapply remap_bytes; [apply Hinv|apply R| |done]. by eapply (as_spare _ _ _ Hinv).
Qed.
(** Growing the tables without changing the mapping, pages [h] being held. *)
Lemma grow_step s s' l l' root used h :
  as_inv s l root -> remap s s' l l' root used [] (pte_of s.(pm) root) ->
  as_step s s' (h ++ l) (h ++ l') l' root /\ same_view s.(pm) s'.(pm) root.
Proof.
  intros Hinv R.
  assert (Hup : forall va, user_va va -> upage (pm s') root va = upage (pm s) root va).
  { intros va Hva. unfold upage. by rewrite (rm_pte _ _ _ _ _ _ _ _ R) by by apply user_va_max. }
  split; [constructor; [constructor|..]|].
  - apply R.
  - intros va a Hva Ha. rewrite Hup in Ha by done.
    eapply remap_spare; [done|]. by apply (as_spare _ _ _ Hinv va).
  - intros va va' a Hva Hva'. rewrite !Hup by done. by apply (as_inj _ _ _ Hinv).
  - intros va Hva. rewrite (rm_pte _ _ _ _ _ _ _ _ R) by by apply high_max. by apply (as_high _ _ _ Hinv).
  - intros a. unfold owned. rewrite (remap_tables _ _ _ _ _ _ _ _ a R).
    rewrite !elem_of_app, (rm_list _ _ _ _ _ _ _ _ R), !elem_of_app.
    assert ((exists va, user_va va /\ upage (pm s') root va = Some a) <->
            (exists va, user_va va /\ upage (pm s) root va = Some a)) as ->
      by (split; intros (va & Hva & Ha); exists va; rewrite Hup in *; auto).
    set_solver.
  - intros y Hy. apply (rm_frame _ _ _ _ _ _ _ _ R). intros a Ha. apply Hy.
    rewrite elem_of_app, (rm_list _ _ _ _ _ _ _ _ R). unfold owned. set_solver.
  - intros va Hva. apply (rm_pte _ _ _ _ _ _ _ _ R). by apply high_max.
  - intros va Hva. eapply remap_view; eauto. apply R. by apply user_va_max.
Qed.

Lemma upage_mkpte m root va d perm :
  page_ok d -> 0 <= perm < 2 ^ 10 -> pte_of m root va = mkpte d perm -> upage m root va = Some d.
Proof.
  intros Hd Hp E. destruct (page_ok_bound d Hd). unfold upage. rewrite E, mkpte_valid by done.
  rewrite mkpte_pa; auto. apply Hd.
Qed.

(** Giving the held page [d] to the page of [va0]. *)
Section map_step.
Context (s s' : kmem) (l l' used : list Z) (root d va0 perm : Z).
Context (Hinv : as_inv s l root) (Hheld : held s l root d).
Context (Hva0 : user_va va0) (Hnone : has (pte_of s.(pm) root va0) PTE_V = false).
Context (Hperm : 0 <= perm < 2 ^ 10).
Context (R : remap s s' l l' root used []
  (fun x => if decide (x / 4096 = va0 / 4096) then mkpte d perm else pte_of s.(pm) root x)).

Lemma map_step_upage va :
  user_va va ->
  upage s'.(pm) root va = if decide (va / 4096 = va0 / 4096) then Some d else upage s.(pm) root va.
Proof using LOK Hheld Hperm R.
  intros Hva. pose proof (rm_pte _ _ _ _ _ _ _ _ R va (user_va_max va Hva)) as Hp. cbn beta in Hp.
  case_decide; [|unfold upage; by rewrite Hp]. eapply upage_mkpte; eauto. apply Hheld.
Qed.

Lemma map_step_old va a :
  user_va va -> upage s.(pm) root va = Some a -> upage s'.(pm) root va = Some a /\ a ≠ d.
Proof using All.
  intros Hva Ha. split; [|intros ->; by apply (proj2 Hheld va)].
  rewrite map_step_upage by done. rewrite decide_False; [done|]. intros E.
  unfold upage in Ha. rewrite (pte_of_page _ _ va va0), Hnone in Ha; unfold user_va in *; lia || done.
Qed.

Lemma map_step_high va :
  TRAPFRAME <= va < MAXVA -> pte_of s'.(pm) root va = pte_of s.(pm) root va.
Proof using Hva0 Hperm R.
  intros Hva. rewrite (rm_pte _ _ _ _ _ _ _ _ R) by by apply high_max.
  rewrite decide_False; [done|]. apply high_low; tauto.
Qed.

Lemma map_step : as_step s s' (d :: l) l' l' root.
Proof using All.
  pose proof Hheld as [Hsp Hdu]. constructor; [constructor|..].
  - apply R.
  - intros va a Hva. rewrite map_step_upage by done. intros Ha.
    eapply remap_spare; [exact R|]. case_decide; [by simplify_eq|by apply (as_spare _ _ _ Hinv va)].
  - intros va va' a Hva Hva'. rewrite !map_step_upage by done.
    repeat case_decide; intros Ha Ha'; simplify_eq;
      [congruence|by apply Hdu in Ha'|by apply Hdu in Ha|by apply (as_inj _ _ _ Hinv va va' a)].
  - intros va Hva. rewrite map_step_high by done. by apply (as_high _ _ _ Hinv).
  - intros a. unfold owned. rewrite (remap_tables _ _ _ _ _ _ _ _ a R).
    rewrite elem_of_cons, (rm_list _ _ _ _ _ _ _ _ R), !elem_of_app. split.
    + intros [?|[[?|?]|(va & Hva & Ha)]]; auto. rewrite map_step_upage in Ha by done.
      case_decide; simplify_eq; eauto 10.
    + intros [[->|[?|[[]%not_elem_of_nil|?]]]|[?|(va & Hva & Ha)]]; auto.
      * right. right. exists va0. split; [done|]. rewrite map_step_upage by done.
        by rewrite decide_True.
      * right. right. exists va. split; [done|]. by apply map_step_old.
  - intros y Hy. apply (rm_frame _ _ _ _ _ _ _ _ R). intros a Ha. apply Hy.
    rewrite elem_of_cons, (rm_list _ _ _ _ _ _ _ _ R). unfold owned. set_solver.
  - intros va Hva. apply map_step_high, Hva.
Qed.

Lemma map_step_view va :
  user_va va ->
  uview s'.(pm) root va =
    if decide (va / 4096 = va0 / 4096) then Some (s.(pm) (d + va mod PGSIZE), Z.lor perm PTE_V)
    else uview s.(pm) root va.
Proof using All.
  intros Hva. pose proof (rm_pte _ _ _ _ _ _ _ _ R va (user_va_max va Hva)) as Hp. cbn beta in Hp.
  case_decide; [|by eapply remap_view]. pose proof Hheld as [Hsp _].
  erewrite upage_view by (eapply upage_mkpte; [apply Hsp|exact Hperm|exact Hp]).
  rewrite Hp, mkpte_flags by (auto; by apply page_ok_bound, Hsp). do 2 f_equal.
  eapply remap_bytes; [apply Hinv|exact R|done|].
  pose proof (Z.mod_pos_bound va PGSIZE ltac:(done)). lia.
Qed.
End map_step.

Lemma st_mappages s l root d va perm :
  as_inv s l root -> held s l root d -> user_va va -> va mod PGSIZE = 0 ->
  has (pte_of s.(pm) root va) PTE_V = false -> 0 <= perm < 2 ^ 10 ->
  exists r s' l', mappages root va PGSIZE d perm s = Ok r s' /\
    ((r = 0 /\ as_step s s' (d :: l) l' l' root /\ upage s'.(pm) root va = Some d /\
      forall va', user_va va' -> uview s'.(pm) root va' =
        if decide (va' / 4096 = va / 4096) then Some (s.(pm) (d + va' mod PGSIZE), Z.lor perm PTE_V)
        else uview s.(pm) root va') \/
     (r = -1 /\ (length l <= 1)%nat /\ as_step s s' (d :: l) (d :: l') l' root /\ held s' l' root d /\
      same_view s.(pm) s'.(pm) root)).
Proof.
  intros Hinv Hh Hva Ha Hn Hperm. pose proof Hh as [Hsp Hdu]. pose proof Hsp as (Hd & _).
  destruct (page_ok_bound d Hd) as [Hd1 Hd2].
  destruct (mappages_page root va d perm s l) as (r & s' & l' & used & E & H);
    auto using user_va_max; [lia|unfold PHYSTOP, KERNBASE in *; lia|apply Hinv|].
  exists r, s', l'. split; [done|]. destruct H as [[-> R]|(-> & -> & Hl & R)].
  - left. split; [done|]. split; [by eapply map_step|].
    split; [erewrite (map_step_upage s s') by done; by rewrite decide_True|]. intros va' Hva'. by eapply (map_step_view s s').
  - right. split; [done|]. split; [done|]. destruct (grow_step s s' l [] root used [d] Hinv R) as [St Sv].
    split; [done|]. split; [split; [by eapply remap_spare|]|done].
    intros va' Hva'. unfold upage. rewrite (rm_pte _ _ _ _ _ _ _ _ R) by by apply user_va_max.
    by apply Hdu.
Qed.

(** ** Steps that unmap a page *)

(** The state after freeing the page behind [a] and clearing its entry. *)
Section unmap_step.
Context (s s' : kmem) (l : list Z) (root d a : Z).
Context (Hinv : as_inv s l root) (Ha : user_va a) (Hd : upage s.(pm) root a = Some d).
Context (Hvm : vm_inv s' (d :: l) root).
Context (Htab : forall x, ok_path x -> tab s'.(pm) root x = tab s.(pm) root x).
Context (Hpte : forall va, 0 <= va < MAXVA ->
  pte_of s'.(pm) root va = if decide (va / 4096 = a / 4096) then 0 else pte_of s.(pm) root va).
Context (Hframe : forall y, (y < d \/ d + PGSIZE <= y) ->
  (forall t, is_table s.(pm) root t -> y < t \/ t + PGSIZE <= y) -> s'.(pm) y = s.(pm) y).

Lemma unmap_step_upage va b :
  user_va va -> upage s'.(pm) root va = Some b -> upage s.(pm) root va = Some b /\ b ≠ d.
Proof using Hinv Ha Hd Hpte.
  intros Hva. unfold upage at 1. rewrite Hpte by by apply user_va_max. case_decide as E; [done|].
  intros Hb. change (upage (pm s) root va = Some b) in Hb. split; [done|]. intros ->.
  by apply E, (as_inj _ _ _ Hinv va a d).
Qed.

Lemma unmap_step : as_step s s' l (d :: l) (d :: l) root.
Proof using All.
  assert (Hit : forall b, is_table (pm s') root b <-> is_table (pm s) root b)
    by (intros b; unfold is_table; split; intros (x & Hx & Hb); exists x; rewrite ?Htab in * by done; auto).
  assert (Hhigh : forall va, TRAPFRAME <= va < MAXVA -> pte_of (pm s') root va = pte_of (pm s) root va)
    by (intros va Hva; rewrite Hpte by (by apply high_max); rewrite decide_False; [done|apply high_low; tauto]).
  constructor; [constructor|..].
  - done.
  - intros va b Hva Hb. apply unmap_step_upage in Hb as [Hb Hne]; [|done].
    destruct (as_spare _ _ _ Hinv va b Hva Hb) as (H1 & H2 & H3).
    split; [done|]. rewrite Hit, not_elem_of_cons. auto.
  - intros va va' b Hva Hva' Hb Hb'. apply unmap_step_upage in Hb as [Hb _], Hb' as [Hb' _]; auto.
    by apply (as_inj _ _ _ Hinv va va' b).
  - intros va Hva. rewrite Hhigh by done. by apply (as_high _ _ _ Hinv).
  - intros b. unfold owned. rewrite Hit, elem_of_cons. split.
    + intros [[->|?]|[?|(va & Hva & Hb)]]; eauto. apply unmap_step_upage in Hb as [Hb _]; eauto 6.
    + intros [?|[?|(va & Hva & Hb)]]; auto. destruct (decide (va / 4096 = a / 4096)) as [E|E].
      * left. left. unfold upage in Hb, Hd. rewrite (pte_of_page _ _ va a) in Hb
          by (unfold user_va in *; lia || done). congruence.
      * right. right. exists va. split; [done|]. unfold upage.
        rewrite Hpte, decide_False by auto using user_va_max. done.
  - intros y Hy. apply Hframe; [apply Hy; right; right; by exists a|].
    intros t Ht. apply Hy. right. by left.
  - done.
Qed.

Lemma unmap_step_view va :
  user_va va -> uview s'.(pm) root va = if decide (va / 4096 = a / 4096) then None else uview s.(pm) root va.
Proof using All.
  intros Hva. pose proof (Hpte va (user_va_max va Hva)) as Hp. case_decide as E.
  - unfold uview. by rewrite Hp.
  - apply uview_frame; [done|]. intros b y Hb Hy.
    destruct (as_spare _ _ _ Hinv va b Hva Hb) as (H1 & H2 & H3).
    destruct (as_spare _ _ _ Hinv a d Ha Hd) as (Hdp & _).
    apply Hframe.
    + apply (page_bytes b d); auto. intros ->. by apply E, (as_inj _ _ _ Hinv va a d).
    + intros t (x & Hx & Ht). apply (page_bytes b t); auto; [by eapply (wf_page _ _ (vi_wf _ _ _ (as_vm _ _ _ Hinv)))|].
      intros ->. apply H3. by exists x.
Qed.
End unmap_step.

Lemma unmap_entry_spec root a s l :
  as_inv s l root -> user_va a ->
  exists s' l', unmap_entry root a true s = Ok tt s' /\ as_step s s' l l' l' root /\
    forall va, user_va va -> uview s'.(pm) root va =
      if decide (va / 4096 = a / 4096) then None else uview s.(pm) root va.
Proof.
  intros Hinv Ha. unfold unmap_entry.
  rewrite (bind_ok _ _ _ _ _ (walk_false root a s (proj2 (user_va_max a Ha)))).
  assert (Hskip : has (pte_of (pm s) root a) PTE_V = false ->
    as_step s s l l l root /\ forall va, user_va va -> uview s.(pm) root va =
      if decide (va / 4096 = a / 4096) then None else uview s.(pm) root va).
  { intros Hv. split; [by apply as_step_refl|]. intros va Hva. case_decide; [|done].
    unfold uview. rewrite (pte_of_page _ _ va a) by (unfold user_va in *; lia || done). by rewrite Hv. }
  unfold pte_of in Hskip.
  destruct (tab (pm s) root (leaf_path a)) as [t|] eqn:Et; cbn [fmap option_fmap option_map].
  2: { exists s, l. split; [done|]. by apply Hskip. }
  unfold rd64. mstep. destruct (has (load64 (pm s) (t + 8 * PX 0 a)) PTE_V) eqn:Hv; cbn [negb].
  2: { exists s, l. split; [done|]. by apply Hskip. }
  set (d := PTE2PA (load64 (pm s) (t + 8 * PX 0 a))).
  assert (Hd : upage (pm s) root a = Some d) by (unfold upage, pte_of; rewrite Et, Hv; done).
  pose proof (as_spare _ _ _ Hinv a d Ha Hd) as Hsp.
  destruct (vm_kfree s l root d (as_vm _ _ _ Hinv) Hsp) as (s1 & E1 & Hvm1 & Ht1 & Hp1 & Hs1).
  rewrite (bind_ok _ _ _ _ _ E1). rewrite <- Ht1 in Et by apply leaf_path_ok.
  destruct (leaf_write s1 (d :: l) root a t 0 Hvm1 (user_va_max a Ha) Et ltac:(lia))
    as (Hvm2 & Ht2 & Hp2 & Hf2).
  set (s2 := mkkmem (store64 (pm s1) (t + 8 * PX 0 a) 0) (freelist s1)) in *.
  exists s2, (d :: l). split; [done|].
  assert (Htab : forall x, ok_path x -> tab s2.(pm) root x = tab s.(pm) root x)
    by (intros x Hx; rewrite <- Ht1 by done; by apply Ht2).
  assert (Hpte : forall va, 0 <= va < MAXVA ->
    pte_of s2.(pm) root va = if decide (va / 4096 = a / 4096) then 0 else pte_of s.(pm) root va)
    by (intros va Hva; rewrite <- Hp1; by apply Hp2).
  assert (Hfr : forall y, (y < d \/ d + PGSIZE <= y) ->
    (forall b, is_table s.(pm) root b -> y < b \/ b + PGSIZE <= y) -> s2.(pm) y = s.(pm) y).
  { intros y H1 H2. rewrite <- Hs1 by done. apply Hf2. intros b (x & Hx & Hb). apply H2.
    exists x. by rewrite <- Ht1. }
  split; [by eapply unmap_step|]. intros va Hva. by eapply (unmap_step_view s s2).
Qed.

Lemma uvmunmap_loop_spec n root a s l :
  as_inv s l root -> a mod PGSIZE = 0 -> 0 <= a -> a + Z.of_nat n * PGSIZE <= TRAPFRAME ->
  exists s' l', uvmunmap_loop n root a true s = Ok tt s' /\ as_step s s' l l' l' root /\
    forall va, user_va va -> uview s'.(pm) root va =
      if decide (a <= va < a + Z.of_nat n * PGSIZE) then None else uview s.(pm) root va.
Proof.
  revert a s l. induction n as [|n IH]; intros a s l Hinv Ha H0 Hmax.
  { exists s, l. split; [done|]. split; [by apply as_step_refl|].
    intros va _. rewrite decide_False; [done|]. unfold PGSIZE. lia. }
  cbn [uvmunmap_loop]. assert (Hua : user_va a) by (unfold user_va, PGSIZE in *; lia).
  destruct (unmap_entry_spec root a s l Hinv Hua) as (s1 & l1 & E1 & St1 & V1).
  rewrite (bind_ok _ _ _ _ _ E1).
  destruct (IH (a + PGSIZE) s1 l1) as (s2 & l2 & E2 & St2 & V2);
    [apply St1|by apply aligned_next|unfold PGSIZE; lia|unfold PGSIZE in *; lia|].
  exists s2, l2. split; [done|]. split; [by eapply as_step_trans|].
  intros va Hva. rewrite V2, V1 by done. pose proof (same_page a va Ha) as Hsp.
  repeat case_decide; auto; unfold PGSIZE in *; intuition lia.
Qed.

(** ** A new page table *)

Lemma empty_tab m root x :
  (forall k, idx_ok k -> load64 m (root + 8 * k) = 0) -> ok_path x ->
  tab m root x = match x with PRoot => Some root | _ => None end.
Proof.
  intros Hz Hx. assert (Hc : forall k, idx_ok k -> child m root k = None)
    by (intros k Hk; unfold child; by rewrite Hz).
  destruct x as [|i|i j]; simpl in *; [done|by apply Hc|]. by rewrite Hc by tauto.
Qed.

Section empty_space.
Context (s : kmem) (l : list Z) (root : Z).
Context (Hk : kmem_inv s l) (Hr : page_ok root) (Hl : root ∉ l).
Context (Hz : forall k, idx_ok k -> load64 s.(pm) (root + 8 * k) = 0).

Lemma empty_pte va : pte_of s.(pm) root va = 0.
Proof using All. unfold pte_of. by rewrite (empty_tab _ _ (leaf_path va) Hz (leaf_path_ok va)). Qed.

Lemma empty_upage va : upage s.(pm) root va = None.
Proof using All. unfold upage. by rewrite empty_pte. Qed.

Lemma empty_view va : uview s.(pm) root va = None.
Proof using All. unfold uview. by rewrite empty_pte. Qed.

Lemma empty_is_table a : is_table s.(pm) root a <-> a = root.
Proof using All.
  split; [|intros ->; by exists PRoot]. intros (x & Hx & Ha).
  rewrite (empty_tab _ _ _ Hz Hx) in Ha. by destruct x; simplify_eq.
Qed.

Lemma empty_owned a : owned s.(pm) root a <-> a = root.
Proof using All. unfold owned. rewrite empty_is_table. setoid_rewrite empty_upage. naive_solver. Qed.

Lemma empty_inv : as_inv s l root.
Proof using All.
  constructor; [constructor|..].
  - done.
  - constructor; intros *; [intros Hx Ha|intros Hx Hy];
      rewrite ?(empty_tab _ _ _ Hz Hx), ?(empty_tab _ _ _ Hz Hy) in *; repeat case_match; naive_solver.
  - by intros a ->%empty_is_table.
  - intros va a _. by rewrite empty_upage.
  - intros va va' a _ _. by rewrite empty_upage.
  - intros va _. by rewrite empty_pte.
Qed.
End empty_space.

Lemma uvmcreate_spec s d l :
  kmem_inv s (d :: l) ->
  exists s', uvmcreate s = Ok d s' /\ as_inv s' l d /\ 0 < d /\
    (forall va, uview s'.(pm) d va = None) /\
    (forall a, owned s'.(pm) d a <-> a = d) /\ same_outside s.(pm) s'.(pm) d.
Proof.
  intros Hk. destruct (kalloc_page s d l Hk) as (s1 & E & Hk1 & Hd & Hdl & Hm).
  pose proof (page_ok_pos d Hd). unfold uvmcreate. rewrite (bind_ok _ _ _ _ _ E).
  destruct (Z.eqb_spec d 0); [lia|]. unfold set_bytes. mstep.
  set (s2 := mkkmem (memset (pm s1) d 0 PGSIZE) (freelist s1)).
  assert (Hz : forall k, idx_ok k -> load64 (pm s2) (d + 8 * k) = 0)
    by (intros k Hkk; unfold idx_ok in *; apply load64_memset_zero; unfold PGSIZE; lia).
  assert (Hk2 : kmem_inv s2 l).
  { destruct Hk1 as (Hc & Hnd & Hb). split; [|split; [done|by apply memset_byte_mem]].
    apply (chain_outside (pm s1)) with d; auto. intros y Hy. by apply memset_out. }
  exists s2. split; [done|]. split; [by apply empty_inv|]. split; [done|].
  split; [by apply (empty_view s2 l)|]. split; [by apply (empty_owned s2 l)|].
  intros y Hy. cbn [pm s2]. rewrite memset_out, Hm by done. by apply memset_out.
Qed.

(** ** Other address spaces *)

Definition apart (m : mem) (root other : Z) : Prop :=
  forall a, owned m root a -> ~ owned m other a.

Lemma owned_ok s l root a : as_inv s l root -> owned s.(pm) root a -> page_ok a /\ (a ∉ l).
Proof.
  intros Hinv [Ha|(va & Hva & Ha)].
  - split; [|by apply Hinv]. destruct Ha as (x & Hx & Ha).
    by apply (wf_page _ _ (vi_wf _ _ _ (as_vm _ _ _ Hinv)) x).
  - destruct (as_spare _ _ _ Hinv va a Hva Ha) as (? & ? & _). done.
Qed.

Section other.
Context (s s' : kmem) (l l' : list Z) (root other : Z).
Context (Hinv : as_inv s l root) (Ho : as_inv s l other) (Hap : apart s.(pm) root other).
Context (St : as_step s s' l l' l' root).

Lemma other_bytes a y : owned s.(pm) other a -> a <= y < a + PGSIZE -> s'.(pm) y = s.(pm) y.
Proof using All.
  intros Ha Hy. destruct (owned_ok s l other a Ho Ha) as [Hok Hl].
  apply (st_frame _ _ _ _ _ _ St). intros b Hb. apply (page_bytes a b); auto.
  - destruct Hb as [Hb|Hb]; [|by apply (owned_ok s l root)].
    pose proof (chain_ok _ _ _ (proj1 (vi_kmem _ _ _ (as_vm _ _ _ Ho)))) as H.
    rewrite Forall_forall in H. by apply H.
  - intros <-. destruct Hb as [Hb|Hb]; [done|by apply (Hap a)].
Qed.

Lemma other_tables a y : is_table s.(pm) other a -> a <= y < a + PGSIZE -> s'.(pm) y = s.(pm) y.
Proof using All. intros Ha. apply other_bytes. by left. Qed.

Lemma other_pte va : pte_of s'.(pm) other va = pte_of s.(pm) other va.
Proof using All. apply pte_frame; [apply Ho|]. intros a Ha y. by apply other_tables. Qed.

Lemma other_owned a : owned s'.(pm) other a <-> owned s.(pm) other a.
Proof using All.
  unfold owned. rewrite (is_table_frame s.(pm)) by (apply Ho || (intros b Hb y; by apply other_tables)).
  assert (Hup : forall va, upage s'.(pm) other va = upage s.(pm) other va)
    by (intros va; unfold upage; by rewrite other_pte).
  by setoid_rewrite Hup.
Qed.

Lemma other_view : same_view s.(pm) s'.(pm) other.
Proof using All.
  intros va Hva. apply uview_frame; [apply other_pte|]. intros a y Ha. apply other_bytes. right. by exists va.
Qed.

Lemma other_apart : apart s'.(pm) root other.
Proof using All.
  intros a Ha. rewrite other_owned. intros Hb.
  destruct (proj1 (st_pages _ _ _ _ _ _ St a) (or_intror Ha)) as [Hl|Hr]; [|by apply (Hap a)].
  by apply (owned_ok s l other a Ho Hb).
Qed.

Lemma other_inv : as_inv s' l' other.
Proof using All.
  assert (Hfree : forall a, owned s.(pm) other a -> a ∉ l').
  { intros a Ha Hl. destruct (proj1 (st_pages _ _ _ _ _ _ St a) (or_introl Hl)) as [H|H];
      [by apply (owned_ok s l other a Ho Ha)|by apply (Hap a)]. }
  assert (Hit : forall a, is_table s'.(pm) other a <-> is_table s.(pm) other a)
    by (apply is_table_frame; [apply Ho|intros b Hb y; by apply other_tables]).
  constructor; [constructor|..].
  - apply (as_vm _ _ _ (st_inv _ _ _ _ _ _ St)).
  - eapply wf_frame; [apply Ho|]. intros a Ha y. by apply other_tables.
  - intros a Ha. apply Hfree. left. by apply Hit.
  - intros va a Hva. unfold upage. rewrite other_pte. intros Ha.
    destruct (as_spare _ _ _ Ho va a Hva Ha) as (H1 & H2 & H3).
    split; [done|]. split; [apply Hfree; right; by exists va|by rewrite Hit].
  - intros va va' a Hva Hva'. unfold upage. rewrite !other_pte. by apply (as_inj _ _ _ Ho).
  - intros va Hva. rewrite other_pte. by apply (as_high _ _ _ Ho).
Qed.
End other.
End space.

(** ** A concrete state

    Two empty page tables and a free list of six pages, at the top of RAM. *)

Definition demo_page (k : Z) : Z := PHYSTOP - k * PGSIZE.

Fixpoint demo_link (m : mem) (l : list Z) : mem :=
  match l with
  | [] => m
  | p :: l' => demo_link (store64 m p (hd 0 l')) l'
  end.

Definition demo_free : list Z := demo_page <$> [3; 4; 5; 6; 7; 8].
Definition demo_kmem : kmem := mkkmem (demo_link (fun _ => 0) demo_free) (demo_page 3).

Lemma demo_link_byte m l : byte_mem m -> byte_mem (demo_link m l).
Proof. revert m. induction l as [|p l IH]; intros m Hm; simpl; [done|]. by apply IH, store_byte_mem. Qed.

Lemma demo_link_out m l y :
  Forall (fun p => y < p \/ p + 8 <= y) l -> demo_link m l y = m y.
Proof.
  revert m. induction l as [|p l IH]; intros m Hl; simpl; [done|]. inversion Hl; subst.
  rewrite IH by done. apply store_ne. lia.
Qed.

Lemma demo_page_ok k : 1 <= k <= 60 -> page_ok (L := demo_layout) (demo_page k).
Proof.
  intros Hk. unfold page_ok, demo_page. split.
  - replace (PHYSTOP - k * PGSIZE) with ((557056 - k) * PGSIZE) by (unfold PHYSTOP, KERNBASE, PGSIZE; lia).
    by apply Z.mod_mul.
  - cbn [kend demo_layout]. unfold PHYSTOP, KERNBASE, PGSIZE. lia.
Qed.

Lemma demo_kmem_inv : kmem_inv (L := demo_layout) demo_kmem demo_free.
Proof.
  split; [|split; [|by apply demo_link_byte]].
  - cbn [chain demo_free fmap list_fmap].
    repeat (split; [vm_compute; reflexivity|split; [by apply demo_page_ok|]]). vm_compute. reflexivity.
  - apply NoDup_fmap_2_strong; [unfold demo_page, PGSIZE; intros; lia|].
    apply (bool_decide_unpack _). vm_compute. exact I.
Qed.

Lemma demo_zero k i :
  1 <= k <= 2 -> idx_ok i -> load64 demo_kmem.(pm) (demo_page k + 8 * i) = 0.
Proof.
  intros Hk Hi. unfold idx_ok in Hi. rewrite <- (load_ext 8 (fun _ => 0)); [done|].
  intros y Hy. symmetry. apply demo_link_out. unfold demo_free, demo_page, PGSIZE in *.
  repeat constructor; lia.
Qed.

Lemma demo_not_free k : 1 <= k <= 2 -> demo_page k ∉ demo_free.
Proof.
  intros Hk. unfold demo_free. rewrite list_elem_of_fmap. intros (y & Hy & Hin).
  unfold demo_page, PGSIZE in Hy.
  repeat (apply elem_of_cons in Hin as [->|Hin]; [lia|]). by apply not_elem_of_nil in Hin.
Qed.

Lemma demo_root k : 1 <= k <= 2 -> as_inv (L := demo_layout) demo_kmem demo_free (demo_page k).
Proof.
  intros Hk. apply (empty_inv (LOK := demo_layout_ok));
    [apply demo_kmem_inv|apply demo_page_ok; lia|by apply demo_not_free|intros i; by apply demo_zero].
Qed.

Lemma demo_view k va : 1 <= k <= 2 -> uview demo_kmem.(pm) (demo_page k) va = None.
Proof.
  intros Hk. apply (empty_view (L := demo_layout) (LOK := demo_layout_ok) demo_kmem demo_free);
    [apply demo_kmem_inv|apply demo_page_ok; lia|by apply demo_not_free|intros i; by apply demo_zero].
Qed.

Lemma demo_owned k a : 1 <= k <= 2 -> owned demo_kmem.(pm) (demo_page k) a <-> a = demo_page k.
Proof.
  intros Hk. apply (empty_owned (L := demo_layout) (LOK := demo_layout_ok) demo_kmem demo_free);
    [apply demo_kmem_inv|apply demo_page_ok; lia|by apply demo_not_free|intros i; by apply demo_zero].
Qed.
