(* ===== verification/VmUser.v ===== *)
(** * The operations on user memory

    [uvmunmap], [uvmdealloc], [uvmalloc], [vmfault], [uvmcopy], [copyout],
    [copyin] and [copyinstr] against the view of user memory of VmSpace.v: what
    the process can read afterwards, what an error leaves behind, and that page
    0 is never mapped on demand. *)

From S2P Require Import Prelude Types Mem Layout Kalloc Vm VmTables VmMap VmSpace.
From Stdlib Require Import ZArith Lia.
From stdpp Require Import base list numbers strings.
Open Scope Z_scope.

Section user.
Context `{L : KernelLayout} {LOK : KernelLayoutOK L}.

(** ** Taking a page from the allocator and mapping it *)

Lemma st_alloc_map s l root va perm (fill : mem -> Z -> mem) :
  (forall m d, byte_mem m -> page_ok d -> same_outside m (fill m d) d /\ byte_mem (fill m d)) ->
  as_inv s l root -> user_va va -> va mod PGSIZE = 0 -> uview s.(pm) root va = None ->
  0 <= perm < 2 ^ 10 ->
  (l = [] /\ kalloc s = Ok 0 s) \/
  exists d s1, kalloc s = Ok d s1 /\ 0 < d /\ d ∈ l /\ same_outside s.(pm) s1.(pm) d /\
    exists r s2, mappages root va PGSIZE d perm (mkkmem (fill s1.(pm) d) s1.(freelist)) = Ok r s2 /\
      ((r = 0 /\ exists l2, as_step s s2 l l2 l2 root /\ upage s2.(pm) root va = Some d /\
        forall va', user_va va' -> uview s2.(pm) root va' =
          if decide (va' / 4096 = va / 4096)
          then Some (fill s1.(pm) d (d + va' mod PGSIZE), Z.lor perm PTE_V) else uview s.(pm) root va') \/
       (r = -1 /\ (length l <= 2)%nat /\ exists s3 l3, kfree d s2 = Ok tt s3 /\ as_step s s3 l l3 l3 root /\
        same_view s.(pm) s3.(pm) root)).
Proof.
  intros Hfill Hinv Hva Hal Hn Hperm. destruct l as [|d l].
  { left. split; [done|]. by apply kalloc_empty, (vi_kmem _ _ _ (as_vm _ _ _ Hinv)). }
  right. destruct (st_kalloc s d l root Hinv) as (s1 & E1 & St1 & Hh1 & Hd & Sv1).
  destruct (kalloc_page s d l (vi_kmem _ _ _ (as_vm _ _ _ Hinv))) as (s1' & E1' & _ & Hdp & _ & Hm).
  rewrite E1 in E1'. injection E1' as <-.
  assert (Hs1 : same_outside (pm s) (pm s1) d) by (rewrite Hm; intros y Hy; by apply memset_out).
  destruct (Hfill (pm s1) d) as [Hs Hb];
    [apply (vi_kmem _ _ _ (as_vm _ _ _ (st_inv _ _ _ _ _ _ St1)))|done|].
  destruct (st_fill s1 l root d _ (st_inv _ _ _ _ _ _ St1) Hh1 Hs Hb) as (St2 & Hh2 & Sv2).
  pose proof (same_view_trans _ _ _ _ Sv1 Sv2) as Sv.
  pose proof (as_step_trans _ _ _ _ _ _ _ _ _ St1 St2) as St.
  set (s2 := mkkmem _ _) in *. exists d, s1. split; [done|]. split; [done|]. split; [by left|].
  split; [done|].
  destruct (st_mappages s2 l root d va perm) as (r & s3 & l3 & E3 & H3); auto.
  { apply St2. }
  { pose proof (Sv va Hva) as Hv. rewrite Hn in Hv. unfold uview in Hv. cbn [pm s2] in *.
    by destruct (has _ _). }
  exists r, s3. split; [done|]. destruct H3 as [(-> & St3 & U3 & V3)|(-> & Hl & St3 & Hh3 & Sv3)].
  - left. split; [done|]. exists l3. split; [by eapply as_step_trans|]. split; [done|].
    intros va' Hva'. rewrite V3 by done. case_decide; [done|]. by apply Sv.
  - right. split; [done|]. split; [simpl; lia|].
    destruct (st_kfree s3 l3 root d (st_inv _ _ _ _ _ _ St3) Hh3) as (s4 & E4 & St4 & Sv4).
    exists s4, (d :: l3). split; [done|]. split; [by do 2 (eapply as_step_trans; [done|])|].
    by do 2 (eapply same_view_trans; [done|]).
Qed.

Lemma fill_zero m d :
  byte_mem m -> page_ok d -> same_outside m (memset m d 0 PGSIZE) d /\ byte_mem (memset m d 0 PGSIZE).
Proof. intros Hm Hd. split; [intros y Hy; by apply memset_out|]. by apply memset_byte_mem. Qed.

(** ** uvmunmap and uvmdealloc *)

Lemma TRAPFRAME_pages : TRAPFRAME = 67108862 * 4096.
Proof. reflexivity. Qed.

Lemma uvmunmap_spec root va n s l :
  as_inv s l root -> va mod PGSIZE = 0 -> 0 <= va -> 0 <= n -> va + n * PGSIZE <= TRAPFRAME ->
  exists s' l', uvmunmap root va n true s = Ok tt s' /\ as_step s s' l l' l' root /\
    forall x, user_va x -> uview s'.(pm) root x =
      if decide (va <= x < va + n * PGSIZE) then None else uview s.(pm) root x.
Proof.
  intros Hinv Ha H0 Hn Hmax. unfold uvmunmap. rewrite Ha. cbn [Z.eqb negb].
  assert ((u64 (va + n * PGSIZE) - va) / PGSIZE = n) as ->.
  { unfold u64. rewrite Z.mod_small by (rewrite TRAPFRAME_pages in Hmax; unfold PGSIZE in *; lia).
    rewrite Z.add_simpl_l. by apply Z.div_mul. }
  destruct (uvmunmap_loop_spec (Z.to_nat n) root va s l) as (s' & l' & E & St & V);
    rewrite ?Z2Nat.id in * by done; auto. eauto.
Qed.

(** Rounding a size of at most TRAPFRAME up. *)
Lemma roundup_user sz :
  0 <= sz <= TRAPFRAME ->
  sz <= PGROUNDUP sz < sz + PGSIZE /\ PGROUNDUP sz mod PGSIZE = 0 /\ PGROUNDUP sz <= TRAPFRAME.
Proof.
  rewrite TRAPFRAME_pages. intros H. unfold PGSIZE. destruct (PGROUNDUP_spec sz ltac:(lia)) as [H1 H2].
  split; [lia|]. split; [done|]. pose proof (Z.div_mod (PGROUNDUP sz) 4096). lia.
Qed.

Lemma uvmdealloc_spec root oldsz newsz s l :
  as_inv s l root -> 0 <= newsz < oldsz -> oldsz <= TRAPFRAME ->
  exists s' l', uvmdealloc root oldsz newsz s = Ok newsz s' /\ as_step s s' l l' l' root /\
    forall x, user_va x -> uview s'.(pm) root x =
      if decide (PGROUNDUP newsz <= x < PGROUNDUP oldsz) then None else uview s.(pm) root x.
Proof.
  intros Hinv Hsz Hmax. unfold uvmdealloc.
  destruct (Z.leb_spec oldsz newsz); [lia|].
  destruct (roundup_user oldsz ltac:(lia)) as (Ho1 & Ho2 & Ho3).
  destruct (roundup_user newsz ltac:(lia)) as (Hn1 & Hn2 & Hn3).
  destruct (Z.ltb_spec (PGROUNDUP newsz) (PGROUNDUP oldsz)) as [Hlt|Hge].
  - set (n := (PGROUNDUP oldsz - PGROUNDUP newsz) / PGSIZE).
    assert (Hn : PGROUNDUP oldsz = PGROUNDUP newsz + n * PGSIZE /\ 0 <= n < 2 ^ 31).
    { rewrite TRAPFRAME_pages in *. unfold n, PGSIZE in *.
      pose proof (Z.div_mod (PGROUNDUP oldsz) 4096). pose proof (Z.div_mod (PGROUNDUP newsz) 4096).
      replace (PGROUNDUP oldsz - PGROUNDUP newsz)
        with ((PGROUNDUP oldsz / 4096 - PGROUNDUP newsz / 4096) * 4096) by lia.
      rewrite Z.div_mul by lia. lia. }
    destruct Hn as [Hn Hr]. rewrite i32_small, u64_small by lia.
    destruct (uvmunmap_spec root (PGROUNDUP newsz) n s l) as (s' & l' & E & St & V); auto; try lia.
    rewrite (bind_ok _ _ _ _ _ E). exists s', l'. split; [done|]. split; [done|].
    intros x Hx. rewrite V by done. by rewrite <- Hn.
  - mstep. exists s, l. split; [done|]. split; [by apply as_step_refl|].
    intros x Hx. rewrite decide_False; [done|lia].
Qed.

(** ** uvmalloc *)

(** A page aligned address under [sz] starts a page that ends under its rounding. *)
Lemma page_below_roundup a sz :
  0 <= sz <= TRAPFRAME -> a mod PGSIZE = 0 -> a < sz -> a + PGSIZE <= PGROUNDUP sz.
Proof.
  intros Hsz Ha Hlt. destruct (roundup_user sz Hsz) as (H1 & H2 & _).
  unfold PGSIZE in *. pose proof (Z.div_mod a 4096). pose proof (Z.div_mod (PGROUNDUP sz) 4096). lia.
Qed.

Lemma page_above_roundup a sz :
  0 <= sz <= TRAPFRAME -> a mod PGSIZE = 0 -> sz <= a -> PGROUNDUP sz <= a.
Proof.
  intros Hsz Ha Hlt. destruct (roundup_user sz Hsz) as (H1 & H2 & _).
  unfold PGSIZE in *. pose proof (Z.div_mod a 4096). pose proof (Z.div_mod (PGROUNDUP sz) 4096). lia.
Qed.

(** Undoing a growth: back from [a] to [oldsz], for aligned sizes. *)
Lemma uvmdealloc_back root a oldsz s l :
  as_inv s l root -> 0 <= oldsz <= a -> a <= TRAPFRAME -> a mod PGSIZE = 0 -> oldsz mod PGSIZE = 0 ->
  exists r s' l', uvmdealloc root a oldsz s = Ok r s' /\ as_step s s' l l' l' root /\
    forall x, user_va x -> uview s'.(pm) root x =
      if decide (oldsz <= x < a) then None else uview s.(pm) root x.
Proof.
  intros Hinv Ho Ha Hal Hol. pose proof Ha as Hb. rewrite TRAPFRAME_pages in Hb. destruct (decide (oldsz = a)) as [->|].
  - exists a, s, l. unfold uvmdealloc. rewrite Z.leb_refl. split; [done|].
    split; [by apply as_step_refl|]. intros x _. rewrite decide_False; [done|lia].
  - destruct (uvmdealloc_spec root a oldsz s l) as (s' & l' & E & St & V);
      auto; [lia|].
    rewrite !PGROUNDUP_aligned in V by (first [done|lia]). eauto 10.
Qed.

Section uvmalloc.
Context (root oldsz newsz xperm : Z).
Context (Hold : 0 <= oldsz) (Hnew : newsz <= TRAPFRAME) (Hnew0 : 0 <= newsz).
Context (Hal : oldsz mod PGSIZE = 0) (Hx : 0 <= xperm < 2 ^ 10).

Let perm := Z.lor (Z.lor PTE_R PTE_U) xperm.

(** What the loop leaves behind when it is entered at address [a]. *)
Definition uvmalloc_post (a : Z) (s s' : kmem) (r : Z) : Prop :=
  (r = newsz /\ forall x, user_va x -> uview s'.(pm) root x =
     if decide (a <= x < PGROUNDUP newsz) then Some (0, Z.lor perm PTE_V) else uview s.(pm) root x) \/
  (r = 0 /\ forall x, user_va x -> uview s'.(pm) root x =
     if decide (oldsz <= x < PGROUNDUP newsz) then None else uview s.(pm) root x).

Lemma uvmalloc_loop_spec fuel a s l :
  as_inv s l root -> a mod PGSIZE = 0 -> oldsz <= a -> newsz <= a + Z.of_nat fuel * PGSIZE ->
  (forall x, user_va x -> a <= x < PGROUNDUP newsz -> uview s.(pm) root x = None) ->
  exists r s' l', uvmalloc_loop fuel root a oldsz newsz xperm s = Ok r s' /\
    as_step s s' l l' l' root /\ uvmalloc_post a s s' r.
Proof using All.
  revert a s l. induction fuel as [|fuel IH]; intros a s l Hinv Ha Hoa Hf Hun; cbn [uvmalloc_loop];
    (destruct (Z.ltb_spec a newsz) as [Hlt|Hge];
     [|exists newsz, s, l; split; [done|]; split; [by apply as_step_refl|]; left; split; [done|];
       intros x _; rewrite decide_False; [done|];
       pose proof (page_above_roundup a newsz ltac:(lia) Ha Hge); lia]).
  { lia. }
  assert (Hp10 : 0 <= perm < 2 ^ 10) by (apply lor_range; [lia|by split|done]).
  pose proof (page_below_roundup a newsz ltac:(lia) Ha Hlt) as Hin.
  assert (Hua : user_va a) by (unfold user_va; lia).
  (* undoing from a state whose view is that of [s] *)
  assert (Hundo : forall s1 l1, as_step s s1 l l1 l1 root -> same_view s.(pm) s1.(pm) root ->
    exists r s' l', (uvmdealloc root a oldsz ;; mret 0) s1 = Ok r s' /\
      as_step s s' l l' l' root /\ uvmalloc_post a s s' r).
  { intros s1 l1 St1 Sv1.
    destruct (uvmdealloc_back root a oldsz s1 l1) as (r & s2 & l2 & E2 & St2 & V2);
      auto; [apply St1|unfold user_va in *; lia|].
    rewrite (bind_ok _ _ _ _ _ E2). exists 0, s2, l2. split; [done|].
    split; [by eapply as_step_trans|]. right. split; [done|]. intros x Hxu. rewrite V2, Sv1 by done.
    repeat case_decide; auto; unfold PGSIZE in *; first [lia|apply Hun; [done|lia]]. }
  destruct (st_alloc_map s l root a perm (fun m d => memset m d 0 PGSIZE) fill_zero)
    as [[-> E1]|(d & s1 & E1 & Hd & _ & _ & r & s2 & E2 & H2)];
    auto; [apply Hun; [done|unfold PGSIZE in *; lia]|..]; rewrite (bind_ok _ _ _ _ _ E1).
  { cbn [Z.eqb]. apply (Hundo s []); [by apply as_step_refl|done]. }
  destruct (Z.eqb_spec d 0); [lia|]. unfold set_bytes. mstep. fold perm.
  rewrite (bind_ok _ _ _ _ _ E2). destruct H2 as [(-> & l2 & St2 & U2 & V2)|(-> & _ & s3 & l3 & E3 & St3 & Sv3)].
  - cbn [Z.eqb negb]. rewrite u64_small by (rewrite TRAPFRAME_pages in *; unfold user_va, PGSIZE in *; lia).
    destruct (IH (a + PGSIZE) s2 l2) as (r & s' & l' & E & St & Post);
      [apply St2|by apply aligned_next|unfold PGSIZE; lia|lia| |].
    { intros x Hxu Hxr. rewrite V2 by done. rewrite decide_False; [apply Hun; [done|unfold PGSIZE in *; lia]|].
      rewrite (same_page a x Ha). lia. }
    exists r, s', l'. split; [done|]. split; [by eapply as_step_trans|].
    assert (Hv : forall x, user_va x -> uview (pm s2) root x =
      if decide (a <= x < a + PGSIZE) then Some (0, Z.lor perm PTE_V) else uview (pm s) root x).
    { intros x Hxu. rewrite V2 by done. pose proof (same_page a x Ha). repeat case_decide; try tauto.
      rewrite memset_in; [done|]. pose proof (Z.mod_pos_bound x PGSIZE ltac:(done)). lia. }
    destruct Post as [[-> V]|[-> V]]; [left|right]; (split; [done|]); intros x Hxu;
      rewrite V, Hv by done; repeat case_decide; auto; unfold PGSIZE in *; lia.
  - cbn [Z.eqb negb]. rewrite (bind_ok _ _ _ _ _ E3). by apply (Hundo s3 l3).
Qed.
End uvmalloc.

(** C26. Growing user memory is all or nothing.  [uvmalloc] from [oldsz] to
    [newsz] either returns [newsz] and the process sees new pages, zeroed and
    with the permissions asked for, right up to the rounded size; or it
    returns 0 and the process sees exactly what it saw before.  In both
    cases nothing below [oldsz] changes, the pages are conserved and no byte of
    another page is written. *)
Theorem uvmalloc_all_or_nothing root oldsz newsz xperm s l :
  as_inv s l root -> 0 <= oldsz <= newsz -> newsz <= TRAPFRAME -> 0 <= xperm < 2 ^ 10 ->
  (forall x, PGROUNDUP oldsz <= x < PGROUNDUP newsz -> uview s.(pm) root x = None) ->
  exists r s' l', uvmalloc root oldsz newsz xperm s = Ok r s' /\ as_step s s' l l' l' root /\
    ((r = newsz /\ forall x, user_va x -> uview s'.(pm) root x =
        if decide (PGROUNDUP oldsz <= x < PGROUNDUP newsz)
        then Some (0, Z.lor (Z.lor (Z.lor PTE_R PTE_U) xperm) PTE_V) else uview s.(pm) root x) \/
     (r = 0 /\ same_view s.(pm) s'.(pm) root)).
Proof.
  intros Hinv Hsz Hmax Hx Hun. unfold uvmalloc. destruct (Z.ltb_spec newsz oldsz); [lia|].
  destruct (roundup_user oldsz ltac:(lia)) as (Ho1 & Ho2 & Ho3).
  destruct (uvmalloc_loop_spec root (PGROUNDUP oldsz) newsz xperm ltac:(lia) Hmax ltac:(lia) Ho2 Hx
              (Z.to_nat ((newsz - PGROUNDUP oldsz + (PGSIZE - 1)) / PGSIZE)) (PGROUNDUP oldsz) s l)
    as (r & s' & l' & E & St & Post); auto; [lia| |].
  { unfold PGSIZE. pose proof (Z.div_mod (newsz - PGROUNDUP oldsz + (4096 - 1)) 4096).
    pose proof (Z.mod_pos_bound (newsz - PGROUNDUP oldsz + (4096 - 1)) 4096). lia. }
  exists r, s', l'. split; [done|]. split; [done|]. destruct Post as [[-> V]|[-> V]]; [by left|].
  right. split; [done|]. intros x Hxu. rewrite V by done. case_decide; [|done]. symmetry. by apply Hun.
Qed.

(** ** vmfault *)

Definition lazy_flags : Z := Z.lor (Z.lor (Z.lor PTE_W PTE_U) PTE_R) PTE_V.

(** What the process sees when the pages [sbrk] promised and nobody touched yet
    count as zeroed: [vmfault] does not change it. *)
Definition lview (psz : Z) (m : mem) (root x : Z) : option (Z * Z) :=
  match uview m root x with
  | Some v => Some v
  | None => if decide (PGSIZE <= x < PGROUNDUP psz) then Some (0, lazy_flags) else None
  end.

Lemma ismapped_spec root va s :
  user_va va -> ismapped root va s = Ok (bool_decide (is_Some (uview s.(pm) root va))) s.
Proof.
  intros Hva. unfold ismapped.
  rewrite (bind_ok _ _ _ _ _ (walk_false root va s (proj2 (user_va_max va Hva)))).
  unfold uview, pte_of. destruct (tab (pm s) root (leaf_path va)) as [t|]; [|done].
  cbn [fmap option_fmap option_map]. unfold rd64. mstep. by destruct (has _ _).
Qed.

Lemma uview_page m root va va' :
  0 <= va -> 0 <= va' -> va / 4096 = va' / 4096 -> uview m root va = None -> uview m root va' = None.
Proof.
  intros H H' E. unfold uview. rewrite (pte_of_page _ _ va va') by done. by destruct (has _ _).
Qed.

Lemma rounddown_user va :
  user_va va -> PGROUNDDOWN va = va / 4096 * 4096 /\ user_va (PGROUNDDOWN va) /\
    PGROUNDDOWN va mod PGSIZE = 0 /\ PGROUNDDOWN va / 4096 = va / 4096 /\
    PGROUNDDOWN va <= va < PGROUNDDOWN va + PGSIZE.
Proof.
  unfold user_va. rewrite TRAPFRAME_pages. intros H. rewrite PGROUNDDOWN_eq by lia. unfold PGSIZE.
  pose proof (Z.div_mod va 4096). pose proof (Z.mod_pos_bound va 4096).
  rewrite Z.mod_mul, Z.div_mul by lia. pose proof (Z.div_pos va 4096). lia.
Qed.

(** What [vmfault] returns when the free list is [l]: the page now behind [va],
    which is inside the process, was not mapped and is not page 0; or 0 and the
    process sees what it saw, because [va] is outside, is mapped, or [l] has
    fewer than the three pages that a page and two levels of tables may take. *)
Definition fault_post (psz root va : Z) (l : list Z) (s s' : kmem) (r : Z) : Prop :=
  (r = 0 /\ same_view s.(pm) s'.(pm) root /\
   (PGSIZE <= va < psz -> uview s.(pm) root va = None -> (length l <= 2)%nat)) \/
  (r ≠ 0 /\ PGSIZE <= va < psz /\ uview s.(pm) root va = None /\ upage s'.(pm) root va = Some r /\
   forall x, user_va x -> uview s'.(pm) root x =
     if decide (x / 4096 = va / 4096) then Some (0, lazy_flags) else uview s.(pm) root x).

Lemma vmfault_spec psz root va s l :
  as_inv s l root -> 0 <= va -> 0 <= psz <= TRAPFRAME ->
  exists r s' l', vmfault psz root root va s = Ok r s' /\ as_step s s' l l' l' root /\
    fault_post psz root va l s s' r.
Proof.
  intros Hinv H0 Hsz. unfold vmfault.
  assert (Hno : forall s1 l1, as_step s s1 l l1 l1 root -> same_view (pm s) (pm s1) root ->
    (PGSIZE <= va < psz -> uview s.(pm) root va = None -> (length l <= 2)%nat) ->
    exists r s' l', Ok 0 s1 = Ok r s' /\ as_step s s' l l' l' root /\ fault_post psz root va l s s' r)
    by (intros s1 l1 H1 H2 H3; exists 0, s1, l1; split; [done|]; split; [done|]; by left).
  destruct (Z.ltb_spec va PGSIZE) as [Hlo|Hlo]; [apply (Hno s l); [by apply as_step_refl|done|lia]|].
  destruct (Z.leb_spec psz va) as [Hhi|Hhi]; [apply (Hno s l); [by apply as_step_refl|done|lia]|].
  assert (Hva : user_va va) by (unfold user_va; lia).
  destruct (rounddown_user va Hva) as (_ & Hpu & Hpa & Hpp & _).
  set (p := PGROUNDDOWN va) in *. rewrite (bind_ok _ _ _ _ _ (ismapped_spec root p s Hpu)).
  assert (0 <= p) by apply Hpu.
  destruct (uview (pm s) root p) eqn:Hn; simpl.
  { apply (Hno s l); [by apply as_step_refl|done|]. intros _ Hv. exfalso.
    by rewrite (uview_page _ _ va p) in Hn. }
  destruct (st_alloc_map s l root p (Z.lor (Z.lor PTE_W PTE_U) PTE_R)
              (fun m d => memset m d 0 PGSIZE) fill_zero)
    as [[-> E1]|(d & s1 & E1 & Hd & _ & _ & r & s2 & E2 & H2)];
    auto; [by split|..]; rewrite (bind_ok _ _ _ _ _ E1).
  { apply (Hno s []); [by apply as_step_refl|done|simpl; lia]. }
  destruct (Z.eqb_spec d 0); [lia|]. unfold set_bytes. mstep. rewrite (bind_ok _ _ _ _ _ E2).
  destruct H2 as [(-> & l2 & St2 & U2 & V2)|(-> & Hl & s3 & l3 & E3 & St3 & Sv3)]; cbn [Z.eqb negb].
  2: { rewrite (bind_ok _ _ _ _ _ E3). by apply (Hno s3 l3). }
  exists d, s2, l2. split; [done|]. split; [done|]. right. split; [lia|]. split; [lia|].
  split; [by apply (uview_page _ _ p)|]. split.
  - rewrite <- U2. unfold upage. by rewrite (pte_of_page _ _ va p).
  - intros x Hx. rewrite V2, Hpp by done. case_decide; [|done].
    rewrite memset_in; [done|]. pose proof (Z.mod_pos_bound x PGSIZE ltac:(done)). lia.
Qed.

Lemma page_in_size va x psz :
  0 <= psz <= TRAPFRAME -> PGSIZE <= va < psz -> x / 4096 = va / 4096 -> PGSIZE <= x < PGROUNDUP psz.
Proof.
  intros Hsz Hva E. destruct (roundup_user psz Hsz) as (H1 & H2 & _). unfold PGSIZE in *.
  pose proof (Z.div_mod x 4096). pose proof (Z.div_mod va 4096). pose proof (Z.div_mod (PGROUNDUP psz) 4096).
  pose proof (Z.mod_pos_bound x 4096). pose proof (Z.mod_pos_bound va 4096). lia.
Qed.

Lemma fault_lview psz root va l s s' r x :
  0 <= psz <= TRAPFRAME -> fault_post psz root va l s s' r -> user_va x ->
  lview psz s'.(pm) root x = lview psz s.(pm) root x.
Proof.
  intros Hsz [(-> & Sv & _)|(Hr & Hva & Hn & Hu & V)] Hx; unfold lview; [by rewrite Sv|].
  rewrite V by done. case_decide as E; [|done].
  rewrite (uview_page _ _ va x), decide_True; [done| |unfold user_va, PGSIZE in *; lia..|by symmetry|done].
  by apply (page_in_size va).
Qed.

(** C27. Lazy allocation and the null page.  For any address of any width the
    page fault handler returns, conserves the pages and does not change what the
    process can see (an untouched page of its heap counts as zeroed).  It
    returns a page exactly for an address in [PGSIZE, p->sz) that was not
    mapped, unless memory ran out: with three free pages (the page itself and
    at most two page table pages) it never refuses one, and the page it returns
    is then mapped there, zeroed, writable and the process's.  A fault on page
    0 changes nothing at all, so a null pointer is never turned into memory. *)
Theorem vmfault_lazy_null psz root va s l :
  as_inv s l root -> 0 <= va -> 0 <= psz <= TRAPFRAME ->
  (va < PGSIZE -> vmfault psz root root va s = Ok 0 s) /\
  exists r s' l', vmfault psz root root va s = Ok r s' /\ as_step s s' l l' l' root /\
    (forall x, user_va x -> lview psz s'.(pm) root x = lview psz s.(pm) root x) /\
    (forall x, 0 <= x < PGSIZE -> uview s'.(pm) root x = uview s.(pm) root x) /\
    (r ≠ 0 -> PGSIZE <= va < psz /\ uview s.(pm) root va = None /\
       upage s'.(pm) root va = Some r /\
       forall x, user_va x -> x / PGSIZE = va / PGSIZE -> uview s'.(pm) root x = Some (0, lazy_flags)) /\
    (PGSIZE <= va < psz -> uview s.(pm) root va = None -> (3 <= length l)%nat -> r ≠ 0).
Proof.
  intros Hinv H0 Hsz. split.
  { intros Hlo. unfold vmfault. destruct (Z.ltb_spec va PGSIZE); [done|lia]. }
  destruct (vmfault_spec psz root va s l Hinv H0 Hsz) as (r & s' & l' & E & St & Post).
  exists r, s', l'. split; [done|]. split; [done|]. split; [intros x; by apply (fault_lview psz root va l s s' r)|].
  destruct Post as [(-> & Sv & Hl)|(Hr & Hva & Hn & Hu & V)].
  - split; [|by split; [|intros H1 H2 H3; specialize (Hl H1 H2); lia]].
    intros x Hx. apply Sv. unfold user_va, PGSIZE in *. rewrite TRAPFRAME_pages. lia.
  - split.
    + intros x Hx. rewrite V by (unfold user_va, PGSIZE in *; rewrite TRAPFRAME_pages; lia).
      rewrite decide_False; [done|]. intros E1. pose proof (page_in_size va x psz Hsz Hva E1). lia.
    + split; [|done]. intros _. split; [done|]. split; [done|]. split; [done|].
      intros x Hx Ex. rewrite V by done. by rewrite decide_True.
Qed.

(** ** uvmcopy *)

Lemma fill_copy pa m d :
  byte_mem m -> page_ok d ->
  same_outside m (memmove m d pa PGSIZE) d /\ byte_mem (memmove m d pa PGSIZE).
Proof. intros Hm Hd. split; [intros y Hy; by apply memmove_out|]. by apply memmove_byte_mem. Qed.

(** A free page filled with a copy of the page behind [va] of [old] shows the
    same bytes. *)
Lemma copy_bytes s s1 l old va pa d x :
  as_inv s l old -> user_va va -> upage s.(pm) old va = Some pa -> d ∈ l -> page_ok d ->
  same_outside s.(pm) s1.(pm) d ->
  memmove s1.(pm) d pa PGSIZE (d + x mod PGSIZE) = s.(pm) (pa + x mod PGSIZE).
Proof.
  intros Hinv Hva Hpa Hd Hdp Hs. pose proof (Z.mod_pos_bound x PGSIZE ltac:(done)) as Hx.
  rewrite memmove_in by lia. replace (pa + (d + x mod PGSIZE - d)) with (pa + x mod PGSIZE) by lia.
  apply Hs. destruct (as_spare _ _ _ Hinv va pa Hva Hpa) as (Hp & Hpl & _).
  apply (page_bytes pa d); auto; [|lia]. intros ->. done.
Qed.

Section uvmcopy.
Context (old new sz : Z) (Hsz : 0 <= sz <= TRAPFRAME).

Definition uvmcopy_post (i : Z) (s s' : kmem) (r : Z) : Prop :=
  (r = 0 /\ forall x, user_va x -> uview s'.(pm) new x =
     if decide (i <= x < PGROUNDUP sz) then uview s.(pm) old x else uview s.(pm) new x) \/
  (r = -1 /\ forall x, user_va x -> uview s'.(pm) new x =
     if decide (x < PGROUNDUP sz) then None else uview s.(pm) new x).

(** The error exit at address [i]: everything copied so far is freed. *)
Lemma uvmcopy_undo i s s1 l l1 :
  PGSIZE <= i < sz -> i mod PGSIZE = 0 ->
  (forall x, user_va x -> i <= x < PGROUNDUP sz -> uview s.(pm) new x = None) ->
  as_step s s1 l l1 l1 new -> same_view s.(pm) s1.(pm) new ->
  exists r s' l', (uvmunmap new 0 (i / PGSIZE) true ;; mret (-1)) s1 = Ok r s' /\
    as_step s s' l l' l' new /\ uvmcopy_post i s s' r.
Proof using Hsz LOK.
  intros Hi Ha Hun St1 Sv1. assert (Hd : i / PGSIZE * PGSIZE = i)
    by (unfold PGSIZE in *; pose proof (Z.div_mod i 4096); lia).
  pose proof (page_below_roundup i sz Hsz Ha ltac:(lia)).
  destruct (uvmunmap_spec new 0 (i / PGSIZE) s1 l1) as (s2 & l2 & E2 & St2 & V2);
    [apply St1|done|lia|apply Z.div_pos; unfold PGSIZE in *; lia|lia|].
  rewrite (bind_ok _ _ _ _ _ E2). exists (-1), s2, l2. split; [done|].
  split; [by eapply as_step_trans|]. right. split; [done|]. intros x Hx.
  rewrite V2, Sv1, Hd by done. unfold user_va, PGSIZE in *.
  repeat case_decide; auto; first [lia|apply Hun; [done|lia]].
Qed.

(** One page copied, then the loop from the next page. *)
Lemma uvmcopy_post_next i s s1 s' r :
  PGSIZE <= i < sz -> i mod PGSIZE = 0 -> same_view s.(pm) s1.(pm) old ->
  (forall x, user_va x -> uview s1.(pm) new x =
     if decide (x / 4096 = i / 4096) then uview s.(pm) old x else uview s.(pm) new x) ->
  uvmcopy_post (i + PGSIZE) s1 s' r -> uvmcopy_post i s s' r.
Proof using Hsz.
  intros Hi Ha Sv V1 Post. pose proof (page_below_roundup i sz Hsz Ha ltac:(lia)) as Hin.
  destruct Post as [[-> V]|[-> V]]; [left|right]; (split; [done|]); intros x Hx; rewrite V by done;
    pose proof (same_page i x Ha) as Hsp; unfold PGSIZE in *; rewrite ?Sv, ?V1 by done;
    repeat case_decide; auto; exfalso; intuition lia.
Qed.

Lemma uvmcopy_loop_spec fuel i s l :
  as_inv s l old -> as_inv s l new -> apart s.(pm) new old ->
  i mod PGSIZE = 0 -> PGSIZE <= i -> sz <= i + Z.of_nat fuel * PGSIZE ->
  (forall x, user_va x -> i <= x < PGROUNDUP sz -> uview s.(pm) new x = None) ->
  exists r s' l', uvmcopy_loop fuel old new i sz s = Ok r s' /\
    as_step s s' l l' l' new /\ uvmcopy_post i s s' r.
Proof using Hsz LOK.
  revert i s l. induction fuel as [|fuel IH]; intros i s l Ho Hn Hap Ha Hi Hf Hun; cbn [uvmcopy_loop];
    (destruct (Z.ltb_spec i sz) as [Hlt|Hge];
     [|exists 0, s, l; split; [done|]; split; [by apply as_step_refl|]; left; split; [done|];
       intros x _; rewrite decide_False; [done|];
       pose proof (page_above_roundup i sz ltac:(lia) Ha Hge); lia]).
  { lia. }
  pose proof (page_below_roundup i sz Hsz Ha Hlt) as Hin.
  assert (Hui : user_va i) by (unfold user_va, PGSIZE in *; lia).
  assert (Hnext : u64 (i + PGSIZE) = i + PGSIZE)
    by (apply u64_small; unfold user_va in *; rewrite TRAPFRAME_pages in *; unfold PGSIZE in *; lia).
  rewrite (bind_ok _ _ _ _ _ (walk_false old i s (proj2 (user_va_max i Hui)))), Hnext.
  (* the rest of the loop after a state whose page at [i] is a copy of the old one *)
  assert (Hrest : forall s1 l1, as_step s s1 l l1 l1 new ->
    (forall x, user_va x -> uview s1.(pm) new x =
       if decide (x / 4096 = i / 4096) then uview s.(pm) old x else uview s.(pm) new x) ->
    exists r s' l', uvmcopy_loop fuel old new (i + PGSIZE) sz s1 = Ok r s' /\
      as_step s s' l l' l' new /\ uvmcopy_post i s s' r).
  { intros s1 l1 St1 V1. pose proof (fun x => same_page i x Ha) as Hsp.
    destruct (IH (i + PGSIZE) s1 l1) as (r & s' & l' & E & St & Post);
      [by eapply (other_inv s s1)|apply St1|by eapply (other_apart s s1)|by apply aligned_next|unfold PGSIZE in *; lia|lia| |].
    { intros x Hx Hr. rewrite V1 by done. rewrite decide_False; [apply Hun; [done|unfold PGSIZE in *; lia]|].
      rewrite Hsp. lia. }
    exists r, s', l'. split; [done|]. split; [by eapply as_step_trans|].
    apply (uvmcopy_post_next i s s1); auto. by eapply (other_view s s1). }
  assert (Hskip : has (pte_of (pm s) old i) PTE_V = false ->
    exists r s' l', uvmcopy_loop fuel old new (i + PGSIZE) sz s = Ok r s' /\
      as_step s s' l l' l' new /\ uvmcopy_post i s s' r).
  { intros Hv. apply (Hrest s l); [by apply as_step_refl|]. intros x Hx. case_decide as E; [|done].
    rewrite Hun; [|done|apply (same_page i x Ha) in E; unfold PGSIZE in *; lia].
    unfold uview. rewrite (pte_of_page _ _ x i), Hv by (unfold user_va in *; lia || done). done. }
  unfold pte_of in Hskip.
  destruct (tab (pm s) old (leaf_path i)) as [t|] eqn:Et; cbn [fmap option_fmap option_map]; [|by apply Hskip].
  unfold rd64. mstep. destruct (has (load64 (pm s) (t + 8 * PX 0 i)) PTE_V) eqn:Hv; cbn [negb];
    [|by apply Hskip]. clear Hskip.
  set (e := load64 (pm s) (t + 8 * PX 0 i)) in *.
  assert (He : pte_of (pm s) old i = e) by (unfold pte_of; by rewrite Et).
  assert (Hpa : upage (pm s) old i = Some (PTE2PA e)) by (unfold upage; by rewrite He, Hv).
  destruct (st_alloc_map s l new i (PTE_FLAGS e) (fun m d => memmove m d (PTE2PA e) PGSIZE)
              (fill_copy (PTE2PA e)))
    as [[-> E1]|(d & s1 & E1 & Hd & Hdl & Hs1 & r & s2 & E2 & H2)];
    auto using PTE_FLAGS_range; [apply Hun; [done|unfold PGSIZE in *; lia]|..]; rewrite (bind_ok _ _ _ _ _ E1).
  { cbn [Z.eqb]. apply (uvmcopy_undo i s s [] []); auto; [by apply as_step_refl|done]. }
  destruct (Z.eqb_spec d 0); [lia|]. unfold move_bytes. mstep. rewrite (bind_ok _ _ _ _ _ E2).
  destruct H2 as [(-> & l2 & St2 & U2 & V2)|(-> & _ & s3 & l3 & E3 & St3 & Sv3)]; cbn [Z.eqb negb].
  - apply (Hrest s2 l2 St2). intros x Hx. rewrite V2 by done. case_decide as E; [|done].
    rewrite (copy_bytes s s1 l old i); auto.
    2: { pose proof (chain_ok _ _ _ (proj1 (vi_kmem _ _ _ (as_vm _ _ _ Ho)))) as H.
         rewrite Forall_forall in H. by apply H. }
    rewrite PTE_FLAGS_valid by done. unfold uview.
    rewrite (pte_of_page _ _ x i), He, Hv by (unfold user_va in *; lia || done). done.
  - rewrite (bind_ok _ _ _ _ _ E3). by apply (uvmcopy_undo i s s3 l l3).
Qed.
End uvmcopy.

(** C25. [fork] copies memory.  [uvmcopy] into an empty address space either
    returns 0 and the child sees, from page 1 up to the parent's size, the
    parent's bytes with the parent's permissions, and nothing at page 0; or it
    returns -1 and the child is as empty as before.  The parent sees what it
    saw, the two address spaces share no page and no page is lost. *)
Theorem uvmcopy_copies old new sz s l :
  as_inv s l old -> as_inv s l new -> apart s.(pm) new old -> 0 <= sz <= TRAPFRAME ->
  (forall x, 0 <= x < PGROUNDUP sz -> uview s.(pm) new x = None) ->
  exists r s' l', uvmcopy old new sz s = Ok r s' /\ as_step s s' l l' l' new /\
    as_inv s' l' old /\ apart s'.(pm) new old /\ same_view s.(pm) s'.(pm) old /\
    ((r = 0 /\ forall x, user_va x -> uview s'.(pm) new x =
        if decide (PGSIZE <= x < PGROUNDUP sz) then uview s.(pm) old x else uview s.(pm) new x) \/
     (r = -1 /\ same_view s.(pm) s'.(pm) new)).
Proof.
  intros Ho Hn Hap Hsz Hun. unfold uvmcopy.
  destruct (uvmcopy_loop_spec old new sz Hsz (Z.to_nat ((sz + (PGSIZE - 1)) / PGSIZE)) PGSIZE s l)
    as (r & s' & l' & E & St & Post); auto; try done.
  { unfold PGSIZE. pose proof (Z.div_mod (sz + (4096 - 1)) 4096).
    pose proof (Z.mod_pos_bound (sz + (4096 - 1)) 4096). lia. }
  { intros x Hx Hr. apply Hun. unfold user_va in *. lia. }
  exists r, s', l'. split; [done|]. split; [done|]. split; [by eapply (other_inv s s')|].
  split; [by eapply (other_apart s s')|]. split; [by eapply (other_view s s')|].
  destruct Post as [[-> V]|[-> V]]; [by left|right]. split; [done|]. intros x Hx. rewrite V by done.
  case_decide; [|done]. symmetry. apply Hun. unfold user_va in *. lia.
Qed.
End user.

(** ** Witnesses: growing, faulting and forking an empty process of the
    concrete state of VmSpace.v. *)

Lemma uvmalloc_all_or_nothing_witness :
  runs (uvmalloc (L := demo_layout) (demo_page 1) 4096 12288 PTE_W demo_kmem) (fun r _ => r = 12288) /\
  exists r s' l', uvmalloc (L := demo_layout) (demo_page 1) 4096 12288 PTE_W demo_kmem = Ok r s' /\
    as_step (L := demo_layout) demo_kmem s' demo_free l' l' (demo_page 1) /\
    ((r = 12288 /\ forall x, user_va x -> uview s'.(pm) (demo_page 1) x =
        if decide (PGROUNDUP 4096 <= x < PGROUNDUP 12288)
        then Some (0, Z.lor (Z.lor (Z.lor PTE_R PTE_U) PTE_W) PTE_V)
        else uview demo_kmem.(pm) (demo_page 1) x) \/
     (r = 0 /\ same_view demo_kmem.(pm) s'.(pm) (demo_page 1))).
Proof.
  split; [vm_compute; reflexivity|].
  apply (uvmalloc_all_or_nothing (L := demo_layout) (LOK := demo_layout_ok)).
  - by apply demo_root.
  - lia.
  - vm_compute. congruence.
  - by vm_compute.
  - intros x _. by apply demo_view.
Defined.

Lemma vmfault_lazy_null_witness :
  (0 < PGSIZE -> vmfault (L := demo_layout) 12288 (demo_page 1) (demo_page 1) 0 demo_kmem = Ok 0 demo_kmem) /\
  exists r s' l', vmfault (L := demo_layout) 12288 (demo_page 1) (demo_page 1) 5000 demo_kmem = Ok r s' /\
    as_step (L := demo_layout) demo_kmem s' demo_free l' l' (demo_page 1) /\ r ≠ 0 /\
    upage s'.(pm) (demo_page 1) 5000 = Some r /\ uview s'.(pm) (demo_page 1) 5001 = Some (0, lazy_flags).
Proof.
  split.
  - destruct (vmfault_lazy_null (L := demo_layout) (LOK := demo_layout_ok) 12288 (demo_page 1) 0
                demo_kmem demo_free) as [H _]; [by apply demo_root|lia|by vm_compute|exact H].
  - assert (user_va 5001) as Hx by by vm_compute.
    assert (PGSIZE <= 5000 < 12288) as Hva by by vm_compute.
    assert (3 <= length demo_free)%nat as Hl by (vm_compute; lia).
    pose proof (demo_view 1 5000 ltac:(lia)) as Hn0.
    destruct (vmfault_lazy_null (L := demo_layout) (LOK := demo_layout_ok) 12288 (demo_page 1) 5000
                demo_kmem demo_free) as (_ & r & s' & l' & E & St & _ & _ & Hr & Hn);
      [by apply demo_root|lia|by vm_compute|].
    exists r, s', l'. split; [exact E|]. split; [exact St|].
    pose proof (Hn Hva Hn0 Hl) as H.
    destruct (Hr H) as (_ & _ & Hu & Hv). split; [exact H|]. split; [exact Hu|].
    exact (Hv 5001 Hx eq_refl).
Defined.

(** The first process touches the page at 4096 of its heap, then forks. *)
Lemma demo_apart : apart demo_kmem.(pm) (demo_page 1) (demo_page 2).
Proof. intros a Ha Hb. rewrite !demo_owned in * by lia. subst. by vm_compute in Hb. Qed.

Lemma uvmcopy_copies_witness :
  exists a s l, vmfault (L := demo_layout) 8192 (demo_page 1) (demo_page 1) 4096 demo_kmem = Ok a s /\ a ≠ 0 /\
    exists s' l', uvmcopy (L := demo_layout) (demo_page 1) (demo_page 2) 8192 s = Ok 0 s' /\
    as_step (L := demo_layout) s s' l l' l' (demo_page 2) /\
    as_inv (L := demo_layout) s' l' (demo_page 1) /\ apart s'.(pm) (demo_page 2) (demo_page 1) /\
    same_view s.(pm) s'.(pm) (demo_page 1) /\
    forall x, user_va x -> uview s'.(pm) (demo_page 2) x =
        if decide (PGSIZE <= x < PGROUNDUP 8192) then uview s.(pm) (demo_page 1) x
        else uview s.(pm) (demo_page 2) x.
Proof.
  pose proof (demo_root 1 ltac:(lia)) as H1. pose proof (demo_root 2 ltac:(lia)) as H2.
  assert (0 <= 8192 <= TRAPFRAME) as Hsz by by vm_compute. assert (0 <= 4096) as H0 by lia.
  assert (Hx : forall x, 0 <= x < PGROUNDUP 8192 -> user_va x)
    by (intros x Hx; change (PGROUNDUP 8192) with 8192 in Hx; split; [lia|]; transitivity 8192; [lia|by vm_compute]).
  destruct (vmfault_spec (L := demo_layout) (LOK := demo_layout_ok) 8192 (demo_page 1) 4096 demo_kmem demo_free H1 H0 Hsz)
    as (a & s & l & E & St & _).
  assert (runs (vmfault (L := demo_layout) 8192 (demo_page 1) (demo_page 1) 4096 demo_kmem)
            (fun a s => a ≠ 0 /\ runs (uvmcopy (L := demo_layout) (demo_page 1) (demo_page 2) 8192 s) (fun r _ => r = 0)))
    as Hr by (vm_compute; split; [discriminate|reflexivity]).
  rewrite E in Hr. destruct Hr as [Ha Hr]. exists a, s, l. split; [exact E|]. split; [exact Ha|].
  pose proof (other_inv (L := demo_layout) (LOK := demo_layout_ok) demo_kmem s demo_free l (demo_page 1) (demo_page 2) H1 H2 demo_apart St) as Hn.
  pose proof (other_apart (L := demo_layout) (LOK := demo_layout_ok) demo_kmem s demo_free l (demo_page 1) (demo_page 2) H1 H2 demo_apart St) as Hap.
  pose proof (other_view (L := demo_layout) (LOK := demo_layout_ok) demo_kmem s demo_free l (demo_page 1) (demo_page 2) H1 H2 demo_apart St) as Hv.
  assert (Hap' : apart s.(pm) (demo_page 2) (demo_page 1)) by (intros b Hb Hb'; exact (Hap b Hb' Hb)).
  assert (Hun : forall x, 0 <= x < PGROUNDUP 8192 -> uview s.(pm) (demo_page 2) x = None)
    by (intros x H; rewrite (Hv x (Hx x H)); apply demo_view; lia).
  destruct (uvmcopy_copies (L := demo_layout) (LOK := demo_layout_ok) (demo_page 1) (demo_page 2) 8192 s l
              (st_inv _ _ _ _ _ _ St) Hn Hap' Hsz Hun) as (r & s' & l' & E' & St' & Ho & Hap2 & Sv & Post).
  rewrite E' in Hr. cbn [runs] in Hr. subst r. exists s', l'. split; [exact E'|]. split; [exact St'|].
  split; [exact Ho|]. split; [exact Hap2|]. split; [exact Sv|].
  destruct Post as [[_ Post]|[Hbad _]]; [exact Post|discriminate Hbad].
Defined.
