(* ===== verification/VmCopy.v ===== *)
(** * Copying between kernel and user memory

    [copyout], [copyin] and [copyinstr] take addresses from user programs, so
    they are specified for every address: what they move is what the process sees
    at those addresses, pages it may not write are not written, and nothing
    outside its address space changes. *)

From S2P Require Import Prelude Types Mem Layout Kalloc Vm VmTables VmMap VmSpace VmUser.
From Stdlib Require Import ZArith Lia.
From stdpp Require Import base list numbers strings.
Open Scope Z_scope.

Section copy.
Context `{L : KernelLayout} {LOK : KernelLayoutOK L}.

Lemma has_flags e k : 0 <= k < 10 -> has (PTE_FLAGS e) (Z.shiftl 1 k) = has e (Z.shiftl 1 k).
Proof.
  intros Hk. rewrite !has_testbit by lia. unfold PTE_FLAGS. change 0x3FF with (Z.ones 10).
  rewrite Z.land_spec, Z.ones_spec_low by lia. apply andb_true_r.
Qed.

Lemma walkaddr_spec root va s :
  walkaddr root va s =
    Ok (if decide (va < MAXVA) then
          let e := pte_of s.(pm) root va in
          if has e PTE_V && has e PTE_U then PTE2PA e else 0
        else 0) s.
Proof.
  unfold walkaddr. destruct (Z.leb_spec MAXVA va); [by rewrite decide_False by lia|].
  rewrite decide_True by lia. rewrite (bind_ok _ _ _ _ _ (walk_false root va s ltac:(lia))).
  unfold pte_of. destruct (tab (pm s) root (leaf_path va)) as [t|]; [|done].
  cbn [fmap option_fmap option_map]. unfold rd64. mstep.
  destruct (has _ PTE_V); [|done]. simpl. by destruct (has _ PTE_U).
Qed.

(** The page a user address may be accessed through. *)
Definition accessible (m : mem) (root va a : Z) : Prop :=
  user_va va /\ upage m root va = Some a /\ has (pte_of m root va) PTE_U = true.

Lemma walkaddr_accessible s l root va a s' :
  as_inv s l root -> 0 <= va -> walkaddr root va s = Ok a s' -> a ≠ 0 ->
  s' = s /\ accessible s.(pm) root va a.
Proof.
  intros Hinv H0. rewrite walkaddr_spec. intros [= <- <-] Ha. split; [done|].
  case_decide as Hm; [|done]. cbn zeta in *.
  destruct (has (pte_of (pm s) root va) PTE_V) eqn:Hv; [|done].
  destruct (has (pte_of (pm s) root va) PTE_U) eqn:Hu; [|done]. simpl in *.
  split; [|split; [unfold upage; by rewrite Hv|done]].
  unfold user_va. destruct (Z.lt_ge_cases va TRAPFRAME); [lia|].
  rewrite (as_high _ _ _ Hinv) in Hu by lia. done.
Qed.

(** Nothing that was mapped got unmapped. *)
Definition keeps (s s' : kmem) (root : Z) : Prop :=
  forall x, user_va x -> is_Some (uview s.(pm) root x) -> is_Some (uview s'.(pm) root x).

Lemma keeps_trans s1 s2 s3 root : keeps s1 s2 root -> keeps s2 s3 root -> keeps s1 s3 root.
Proof. intros H1 H2 x Hx H. by apply H2, H1. Qed.

(** Mapped, and accessible to the user. *)
Definition readable (m : mem) (root x : Z) : Prop :=
  user_va x /\ exists b f, uview m root x = Some (b, f) /\ has f PTE_U = true.

Lemma walkaddr_readable s l root va x s' :
  as_inv s l root -> readable s.(pm) root x -> x / 4096 = va / 4096 -> 0 <= va ->
  walkaddr root va s ≠ Ok 0 s'.
Proof.
  intros Hinv (Hx & b & f & Hv & HU) E H0. rewrite walkaddr_spec.
  assert (Hva : user_va va).
  { unfold user_va. split; [done|]. apply Z.nle_gt. intros Hge.
    by apply (high_low va x Hge Hx). }
  rewrite decide_True by (apply user_va_max in Hva; lia).
  rewrite (pte_of_page _ _ va x) by (unfold user_va in *; lia || done).
  unfold uview in Hv. destruct (has (pte_of (pm s) root x) PTE_V) eqn:HV; [|done].
  injection Hv as _ Hf. change PTE_U with (Z.shiftl 1 4) in *.
  rewrite <- Hf, has_flags in HU by lia. cbn zeta. rewrite HV, HU. simpl.
  destruct (as_spare _ _ _ Hinv x (PTE2PA (pte_of (pm s) root x)) Hx) as (Hp & _);
    [unfold upage; by rewrite HV|]. pose proof (page_ok_pos _ Hp). intros [= ?]. lia.
Qed.

Lemma user_page_spec psz root va s l :
  as_inv s l root -> 0 <= va -> 0 <= psz <= TRAPFRAME ->
  exists r s' l', user_page psz root root va s = Ok r s' /\ as_step s s' l l' l' root /\
    (forall x, user_va x -> lview psz s'.(pm) root x = lview psz s.(pm) root x) /\
    (r ≠ 0 -> accessible s'.(pm) root va r) /\ keeps s s' root /\
    (r = 0 -> forall x, x / 4096 = va / 4096 -> ~ readable s.(pm) root x).
Proof.
  intros Hinv H0 Hsz. unfold user_page.
  destruct (walkaddr root va s) as [a s1| | |] eqn:E; rewrite walkaddr_spec in E; try done.
  assert (s1 = s) as -> by congruence. rewrite <- walkaddr_spec in E. rewrite (bind_ok _ _ _ _ _ E).
  destruct (Z.eqb_spec a 0) as [->|Ha].
  - destruct (vmfault_spec psz root va s l Hinv H0 Hsz) as (r & s' & l' & E' & St & Post).
    exists r, s', l'. split; [done|]. split; [done|]. split; [intros x; by apply (fault_lview psz root va l s s' r)|].
    split; [|split; [intros x Hx Hs; destruct Post as [(_ & Sv & _)|(_ & _ & _ & _ & V)];
      [by rewrite Sv|rewrite V by done; by case_decide]|
      intros _ x Ex Hx; by eapply (walkaddr_readable s)]].
    intros Hr. destruct Post as [[? _]|(_ & Hva & _ & Hu & V)]; [done|].
    assert (Huv : user_va va) by (unfold user_va, PGSIZE in *; lia).
    split; [done|]. split; [done|]. specialize (V va Huv). rewrite decide_True in V by done.
    rewrite (upage_view _ _ _ _ Hu) in V. injection V as _ Hf.
    change PTE_U with (Z.shiftl 1 4). rewrite <- has_flags by lia. by rewrite Hf.
  - exists a, s, l. split; [done|]. split; [by apply as_step_refl|]. split; [done|].
    split; [intros _; by eapply walkaddr_accessible|]. by split; [intros x|].
Qed.

(** Writing into a page of the process. *)
Lemma st_write s l root va a m' :
  as_inv s l root -> user_va va -> upage s.(pm) root va = Some a ->
  same_outside s.(pm) m' a -> byte_mem m' ->
  let s' := mkkmem m' s.(freelist) in
  as_step s s' l l l root /\
  forall x, user_va x -> uview m' root x =
    if decide (x / 4096 = va / 4096)
    then Some (m' (a + x mod PGSIZE), PTE_FLAGS (pte_of s.(pm) root va)) else uview s.(pm) root x.
Proof.
  intros Hinv Hva Ha Hs Hb s'. pose proof (as_spare _ _ _ Hinv va a Hva Ha) as Hsp.
  destruct (spare_write s l root a m' (as_vm _ _ _ Hinv) Hsp Hs Hb) as (Hvm & Ht & Hp).
  assert (Hup : forall x, upage m' root x = upage (pm s) root x) by (intros x; unfold upage; by rewrite Hp).
  assert (Hit : forall b, is_table m' root b <-> is_table (pm s) root b)
    by (intros b; unfold is_table; split; intros (x & Hx & Hxb); exists x; rewrite ?Ht in * by done; auto).
  split; [constructor; [constructor|..]|]; cbn [pm s'].
  - done.
  - intros x b Hx. cbn [pm]. rewrite Hup. intros Hb'.
    destruct (as_spare _ _ _ Hinv x b Hx Hb') as (? & ? & ?).
    unfold spare. cbn [pm s']. by rewrite Hit.
  - intros x y b Hx Hy. rewrite !Hup. by apply (as_inj _ _ _ Hinv).
  - intros x Hx. rewrite Hp. by apply (as_high _ _ _ Hinv).
  - intros b. unfold owned. rewrite Hit. by setoid_rewrite Hup.
  - intros y Hy. apply Hs, Hy. right. right. by exists va.
  - intros x _. apply Hp.
  - intros x Hx. case_decide as E.
    + assert (Hux : upage m' root x = Some a).
      { rewrite Hup, <- Ha. unfold upage. by rewrite (pte_of_page _ _ x va) by (unfold user_va in *; lia || done). }
      rewrite (upage_view _ _ _ _ Hux), Hp. by rewrite (pte_of_page _ _ x va) by (unfold user_va in *; lia || done).
    + apply uview_frame; [apply Hp|]. intros b y Hxb Hy. apply Hs.
      destruct (as_spare _ _ _ Hinv x b Hx Hxb) as (H1 & _). destruct Hsp as (H2 & _).
      apply (page_bytes b a); auto. intros ->. by apply E, (as_inj _ _ _ Hinv x va a).
Qed.

(** ** copyout *)

(** The view after the bytes [bs] were written at [dst]. *)
Definition written (dst : Z) (bs : list Z) (v : Z -> option (Z * Z)) (x : Z) : option (Z * Z) :=
  if decide (dst <= x < dst + Z.of_nat (length bs))
  then (fun bf => (nth (Z.to_nat (x - dst)) bs 0, snd bf)) <$> v x else v x.

Lemma written_app dst bs bs' v x :
  written (dst + Z.of_nat (length bs)) bs' (written dst bs v) x = written dst (bs ++ bs') v x.
Proof.
  unfold written. rewrite length_app. repeat case_decide; try lia; try done.
  - rewrite app_nth2 by lia. destruct (v x); simpl; do 3 f_equal. lia.
  - rewrite app_nth1 by lia. done.
Qed.

Lemma write_bytes_out m a bs : forall y, (y < a \/ a + Z.of_nat (length bs) <= y) -> write_bytes m a bs y = m y.
Proof.
  intros y Hy. unfold write_bytes. destruct (Z.leb_spec a y); [|done].
  destruct (Z.ltb_spec y (a + Z.of_nat (length bs))); [lia|done].
Qed.

Lemma write_bytes_byte m a bs : byte_mem m -> Forall (fun b => 0 <= b < 256) bs -> byte_mem (write_bytes m a bs).
Proof.
  intros Hm Hbs y. unfold write_bytes. destruct (_ && _) eqn:E; [|apply Hm].
  rewrite andb_true_iff, Z.leb_le, Z.ltb_lt in E. rewrite Forall_forall in Hbs. apply Hbs.
  apply list_elem_of_In, nth_In. lia.
Qed.

Lemma write_page psz s l root va a off bs :
  as_inv s l root -> user_va va -> va mod PGSIZE = 0 -> upage s.(pm) root va = Some a ->
  0 <= off -> off + Z.of_nat (length bs) <= PGSIZE -> Forall (fun b => 0 <= b < 256) bs ->
  let s' := mkkmem (write_bytes s.(pm) (a + off) bs) s.(freelist) in
  as_step s s' l l l root /\ keeps s s' root /\
  forall x, user_va x -> lview psz s'.(pm) root x = written (va + off) bs (lview psz s.(pm) root) x.
Proof.
  intros Hinv Hva Hal Ha Ho Hlen Hbs s'.
  destruct (st_write s l root va a (write_bytes (pm s) (a + off) bs) Hinv Hva Ha) as [St V].
  { intros y Hy. apply write_bytes_out. lia. }
  { apply write_bytes_byte; [apply Hinv|done]. }
  split; [done|]. split; [intros x Hx Hs; cbn [pm s']; rewrite V by done; by case_decide|].
  intros x Hx. unfold lview, written, s'. cbn [pm]. rewrite V by done.
  pose proof (same_page va x Hal) as Hsp. case_decide as E.
  2: { destruct (decide (va + off <= x < _)); [|done]. exfalso. apply E, Hsp. lia. }
  assert (Hux : uview (pm s) root x = Some (pm s (a + x mod PGSIZE), PTE_FLAGS (pte_of (pm s) root va))).
  { rewrite (upage_view _ _ _ a); [by rewrite (pte_of_page _ _ x va) by (unfold user_va in *; lia || done)|].
    rewrite <- Ha. unfold upage. by rewrite (pte_of_page _ _ x va) by (unfold user_va in *; lia || done). }
  rewrite Hux. assert (Hmod : x mod PGSIZE = x - va).
  { unfold PGSIZE in *. pose proof (Z.div_mod x 4096). pose proof (Z.div_mod va 4096). lia. }
  rewrite Hmod. unfold write_bytes. case_decide as Hr; simpl.
  - destruct (Z.leb_spec (a + off) (a + (x - va))); [|lia].
    destruct (Z.ltb_spec (a + (x - va)) (a + off + Z.of_nat (length bs))); [|lia]. simpl.
    do 3 f_equal. lia.
  - destruct (Z.leb_spec (a + off) (a + (x - va))); [|done].
    destruct (Z.ltb_spec (a + (x - va)) (a + off + Z.of_nat (length bs))); [|done].
    apply Hsp in E. lia.
Qed.

(** The bytes the process may write: mapped or lazily mapped, with W and U. *)
Definition writable (psz : Z) (s : kmem) (root x : Z) : Prop :=
  user_va x /\ exists b f, lview psz s.(pm) root x = Some (b, f) /\ has f PTE_W = true /\ has f PTE_U = true.

(** Mapped already, with W and U. *)
Definition mapped_w (m : mem) (root x : Z) : Prop :=
  user_va x /\ exists b f, uview m root x = Some (b, f) /\ has f PTE_W = true /\ has f PTE_U = true.

(** Pages stay mapped, and the permissions stay. *)
Lemma mapped_w_keeps psz s s' root x dst bs :
  keeps s s' root -> (user_va x -> lview psz s'.(pm) root x = written dst bs (lview psz s.(pm) root) x) ->
  mapped_w s.(pm) root x -> mapped_w s'.(pm) root x.
Proof.
  intros K V (Hx & b & f & Hv & Hf). split; [done|]. destruct (K x Hx) as [[b' f'] Hv']; [by rewrite Hv|].
  specialize (V Hx). unfold written, lview in V. rewrite Hv, Hv' in V. exists b', f'. split; [done|].
  assert (f' = f) as -> by (case_decide; cbn in V; congruence). done.
Qed.

Lemma accessible_lview psz m root va a x :
  accessible m root va a -> va mod PGSIZE = 0 -> va <= x < va + PGSIZE ->
  user_va x /\ lview psz m root x = Some (m (a + (x - va)), PTE_FLAGS (pte_of m root va)).
Proof.
  intros (Hva & Ha & _) Hal Hx. apply (same_page va x Hal) in Hx as E.
  assert (Hux : user_va x).
  { unfold user_va in *. rewrite TRAPFRAME_pages in *. unfold PGSIZE in *. pose proof (Z.div_mod va 4096). lia. }
  split; [done|]. unfold lview. rewrite (upage_view _ _ _ a).
  - rewrite (pte_of_page _ _ x va) by (unfold user_va in *; lia || done). do 3 f_equal.
    unfold PGSIZE in *. pose proof (Z.div_mod x 4096). pose proof (Z.div_mod va 4096). lia.
  - rewrite <- Ha. unfold upage. by rewrite (pte_of_page _ _ x va) by (unfold user_va in *; lia || done).
Qed.

(** What [copyout] of [src] to [dst] left behind. *)
Definition copyout_post (psz root dst : Z) (src : list Z) (s s' : kmem) (r : Z) : Prop :=
  exists n, (n <= length src)%nat /\ (r = 0 /\ n = length src \/ r = -1 /\ (n < length src)%nat /\ ~ mapped_w s.(pm) root (dst + Z.of_nat n)) /\
    (forall x, user_va x -> lview psz s'.(pm) root x = written dst (take n src) (lview psz s.(pm) root) x) /\
    (forall x, dst <= x < dst + Z.of_nat n -> writable psz s root x /\ is_Some (uview s'.(pm) root x)) /\
    keeps s s' root.

Lemma copyout_none psz root dst src s s' :
  (forall x, user_va x -> lview psz s'.(pm) root x = lview psz s.(pm) root x) ->
  keeps s s' root -> src ≠ [] -> ~ mapped_w s.(pm) root dst -> copyout_post psz root dst src s s' (-1).
Proof.
  intros V K Hne Hm. exists 0%nat. split; [lia|]. split; [right; rewrite Z.add_0_r; by destruct src; [|split; [|split; [simpl; lia|]]]|]. split; [|split; [intros x Hx; lia|done]].
  intros x Hx. rewrite V by done. unfold written. rewrite decide_False; [done|]. simpl. lia.
Qed.

(** One page written in state [s1], whose view is that of [s], then the rest. *)
Lemma copyout_post_app psz root dst src n s s1 s2 s' r :
  (forall x, user_va x -> lview psz s1.(pm) root x = lview psz s.(pm) root x) ->
  (n <= length src)%nat ->
  (forall x, user_va x -> lview psz s2.(pm) root x = written dst (take n src) (lview psz s1.(pm) root) x) ->
  (forall x, dst <= x < dst + Z.of_nat n -> writable psz s1 root x /\ is_Some (uview s2.(pm) root x)) ->
  keeps s s2 root ->
  copyout_post psz root (dst + Z.of_nat n) (drop n src) s2 s' r ->
  copyout_post psz root dst src s s' r.
Proof.
  intros V1 Hn V2 W K (k & Hk & Hr & V3 & W3 & K3). rewrite length_drop in Hk, Hr.
  assert (Hw1 : forall x, writable psz s1 root x -> writable psz s root x).
  { intros x (Hu & b & f & Hv & Hf). split; [done|]. exists b, f. by rewrite <- V1. }
  exists (n + k)%nat. split; [lia|]. split.
  { destruct Hr as [[-> ->]|(-> & Hlt & Hm)]; [left; auto with lia|right]. split; [done|]. split; [lia|]. intros Hw. apply Hm.
    replace (dst + Z.of_nat n + Z.of_nat k) with (dst + Z.of_nat (n + k)) by lia. apply (mapped_w_keeps psz s s2 root _ dst (take n src) K); [|done].
    intros Hx. rewrite V2 by done. unfold written. by rewrite V1. }
  split.
  - intros x Hx. rewrite V3 by done.
    assert (Hl : length (take n src) = n) by (rewrite length_take; lia).
    rewrite <- (take_take_drop src n k), <- written_app, Hl. unfold written. rewrite V2 by done.
    unfold written. rewrite V1 by done. done.
  - split; [|by eapply keeps_trans]. intros x Hx. destruct (decide (x < dst + Z.of_nat n)).
    { destruct (W x ltac:(lia)) as [Hw Hi]. split; [by apply Hw1|]. by apply K3; [apply Hw|]. }
    destruct (W3 x ltac:(lia)) as ((Hu & b & f & Hv & Hf) & Hi). split; [|done]. apply Hw1. split; [done|].
    rewrite V2 in Hv by done. unfold written in Hv. rewrite length_take in Hv.
    rewrite decide_False in Hv by lia. eauto.
Qed.

(** Failing in the first part is failing. *)
Lemma copyout_post_prefix psz root dst src n s s' :
  copyout_post psz root dst (take n src) s s' (-1) -> copyout_post psz root dst src s s' (-1).
Proof.
  intros (c & Hc & [[? _]|(_ & Hlt & Hm)] & V & W & K); [done|]. rewrite length_take in Hlt. exists c. split; [lia|]. split; [right; split; [done|split; [lia|done]]|].
  rewrite take_take, Nat.min_l in V by lia. done.
Qed.

Lemma rounddown_page a :
  0 <= a < 2 ^ 64 -> 0 <= PGROUNDDOWN a /\ PGROUNDDOWN a <= a < PGROUNDDOWN a + PGSIZE /\
    PGROUNDDOWN a mod PGSIZE = 0.
Proof.
  intros H. destruct (PGROUNDDOWN_spec a H) as [H1 H2]. rewrite PGROUNDDOWN_eq in * by done.
  pose proof (Z.div_pos a 4096). unfold PGSIZE. lia.
Qed.

Lemma accessible_valid m root va a x :
  accessible m root va a -> va mod PGSIZE = 0 -> va <= x < va + PGSIZE -> has (pte_of m root x) PTE_V = true.
Proof.
  intros (Hva & Ha & _) Hal Hx. apply (same_page va x Hal) in Hx as E.
  rewrite (pte_of_page _ _ x va) by (unfold user_va in *; lia || done).
  unfold upage in Ha. by destruct (has _ _).
Qed.

Lemma mapped_w_pte m root va x :
  mapped_w m root x -> va mod PGSIZE = 0 -> va <= x < va + PGSIZE -> has (pte_of m root va) PTE_W = true.
Proof.
  intros (Hx & b & f & Hv & HW & _) Hal Hp. apply (same_page va x Hal) in Hp as E. unfold uview in Hv.
  destruct (has (pte_of m root x) PTE_V); [|done]. injection Hv as _ <-. change PTE_W with (Z.shiftl 1 2) in *. rewrite has_flags in HW by lia.
  assert (0 <= va) by (unfold user_va in Hx; unfold PGSIZE in *; pose proof (Z.div_pos x 4096); pose proof (Z.div_mod va 4096); lia).
  rewrite (pte_of_page _ _ va x); [done|lia|unfold user_va in Hx; lia|done].
Qed.

Lemma copyout_page_spec psz root dst src s l :
  src ≠ [] -> Forall (fun b => 0 <= b < 256) src ->
  as_inv s l root -> 0 <= dst < 2 ^ 64 -> 0 <= psz <= TRAPFRAME ->
  exists r s1 s2 l', copyout_page psz root root dst src s = Ok r s2 /\
    as_step s s2 l l' l' root /\ keeps s s2 root /\
    (forall x, user_va x -> lview psz s1.(pm) root x = lview psz s.(pm) root x) /\
    match r with
    | None => s2 = s1 /\ ~ mapped_w s.(pm) root dst
    | Some n => n = Z.min (PGSIZE - (dst - PGROUNDDOWN dst)) (Z.of_nat (length src)) /\
        PGROUNDDOWN dst < MAXVA /\
        (forall x, user_va x ->
           lview psz s2.(pm) root x = written dst (take (Z.to_nat n) src) (lview psz s1.(pm) root) x) /\
        (forall x, dst <= x < dst + n -> writable psz s1 root x /\ is_Some (uview s2.(pm) root x))
    end.
Proof.
  intros Hne Hbs Hinv Hd Hsz. unfold copyout_page.
  destruct (rounddown_page dst Hd) as (Hp0 & Hp1 & Hp2). set (va0 := PGROUNDDOWN dst) in *.
  destruct (Z.leb_spec MAXVA va0) as [Hge|Hlt].
  { exists None, s, s, l. split; [done|]. split; [by apply as_step_refl|]. split; [by intros x|]. split; [done|]. split; [done|].
    intros [Hu%user_va_max _]. lia. }
  destruct (user_page_spec psz root va0 s l Hinv Hp0 Hsz) as (a & s1 & l1 & E1 & St1 & V1 & Hacc & K1 & Hno).
  rewrite (bind_ok _ _ _ _ _ E1). destruct (Z.eqb_spec a 0) as [->|Ha].
  { exists None, s1, s1, l1. do 5 (split; [done|]). intros (Hu & b & f & Hv & _ & HU). apply (Hno eq_refl dst); [by apply same_page|].
    split; [done|]. by exists b, f. }
  pose proof (Hacc Ha) as Hac. pose proof Hac as (Hu & Hup & HU).
  rewrite (bind_ok _ _ _ _ _ (walk_false root va0 s1 ltac:(lia))).
  pose proof Hup as Hup'. unfold upage, pte_of in Hup'.
  destruct (tab (pm s1) root (leaf_path va0)) as [t|] eqn:Et; [|done].
  assert (He : pte_of (pm s1) root va0 = load64 (pm s1) (t + 8 * PX 0 va0)) by (unfold pte_of; by rewrite Et).
  cbn [fmap option_fmap option_map]. unfold rd64. mstep. rewrite <- He.
  destruct (has (pte_of (pm s1) root va0) PTE_W) eqn:HW; cbn [negb].
  2: { exists None, s1, s1, l1. do 5 (split; [done|]). intros Hw. apply (mapped_w_keeps psz s s1 root dst dst []) in Hw; [|done|].
    - by rewrite (mapped_w_pte _ _ va0 dst Hw Hp2 Hp1) in HW.
    - intros Hx. rewrite V1 by done. unfold written. rewrite decide_False; [done|cbn; lia]. }
  mstep. set (n := Z.min _ _).
  assert (Hlen : (0 < length src)%nat) by (destruct src; [done|simpl; lia]).
  assert (Htake : length (take (Z.to_nat n) src) = Z.to_nat n) by (rewrite length_take; lia).
  destruct (write_page psz s1 l1 root va0 a (dst - va0) (take (Z.to_nat n) src)) as (St2 & K2 & V2);
    auto; [apply St1|lia|rewrite Htake; lia|by apply Forall_take|].
  replace (va0 + (dst - va0)) with dst in V2 by lia.
  eexists (Some n), s1, _, l1. split; [done|]. split; [by eapply as_step_trans|]. split; [by eapply keeps_trans|].
  split; [done|]. split; [done|]. split; [done|]. split; [done|].
  intros x Hx. destruct (accessible_lview psz (pm s1) root va0 a x Hac Hp2 ltac:(lia)) as [Hux Hv].
  split; [|apply K2; [done|]; unfold uview; by rewrite (accessible_valid _ _ va0 a x Hac Hp2 ltac:(lia))].
  split; [done|]. eexists _, _. split; [exact Hv|].
  change PTE_W with (Z.shiftl 1 2) in *. change PTE_U with (Z.shiftl 1 4) in *. by rewrite !has_flags by lia.
Qed.

Lemma copyout_done psz root dst s : copyout_post psz root dst [] s s 0.
Proof.
  exists 0%nat. split; [done|]. split; [by left|].
  split; [|split; [intros x Hx; simpl in *; lia|by intros x]].
  intros x Hx; unfold written; rewrite decide_False; [done|simpl; lia].
Qed.

Lemma copyout_loop_spec fuel psz root dst src s l :
  (length src <= fuel)%nat -> Forall (fun b => 0 <= b < 256) src ->
  as_inv s l root -> 0 <= dst < 2 ^ 64 -> 0 <= psz <= TRAPFRAME ->
  exists r s' l', copyout_loop fuel psz root root dst src s = Ok r s' /\
    as_step s s' l l' l' root /\ copyout_post psz root dst src s s' r.
Proof.
  revert dst src s l. induction fuel as [|fuel IH]; intros dst src s l Hf Hbs Hinv Hd Hsz.
  { destruct src; [|simpl in Hf; lia]. exists 0, s, l. split; [done|].
    split; [by apply as_step_refl|apply copyout_done]. }
  destruct (decide (src = [])) as [->|Hne].
  { exists 0, s, l. split; [done|]. split; [by apply as_step_refl|apply copyout_done]. }
  destruct (copyout_page_spec psz root dst src s l Hne Hbs Hinv Hd Hsz)
    as (r & s1 & s2 & l2 & E & St & K & V1 & Hr).
  assert (Hunf : copyout_loop (S fuel) psz root root dst src =
    (r ← copyout_page psz root root dst src;
     match r with
     | None => mret (-1)
     | Some n => copyout_loop fuel psz root root (u64 (PGROUNDDOWN dst + PGSIZE)) (drop (Z.to_nat n) src)
     end)) by (by destruct src). rewrite Hunf. clear Hunf.
  rewrite (bind_ok _ _ _ _ _ E). destruct r as [n|].
  2: { destruct Hr as [-> Hm]. exists (-1), s1, l2. split; [done|]. split; [done|]. by apply copyout_none. }
  destruct Hr as (Hn & Hlt & V2 & W). destruct (rounddown_page dst Hd) as (Hp0 & Hp1 & Hp2).
  assert (Hlen : (0 < length src)%nat) by (destruct src; [done|simpl; lia]).
  assert (Hld : length (drop (Z.to_nat n) src) = (length src - Z.to_nat n)%nat) by apply length_drop.
  rewrite u64_small by (change MAXVA with (2 ^ 38) in *; unfold PGSIZE; lia).
  enough (exists r s' l', copyout_loop fuel psz root root (PGROUNDDOWN dst + PGSIZE)
      (drop (Z.to_nat n) src) s2 = Ok r s' /\ as_step s2 s' l2 l' l' root /\
    copyout_post psz root (dst + Z.of_nat (Z.to_nat n)) (drop (Z.to_nat n) src) s2 s' r)
    as (r & s' & l' & E' & St' & Post).
  { exists r, s', l'. split; [done|]. split; [by eapply as_step_trans|].
    apply (copyout_post_app psz root dst src (Z.to_nat n) s s1 s2); auto; [lia|].
    rewrite Z2Nat.id by lia. done. }
  destruct (decide (n = Z.of_nat (length src))) as [En|Hnn].
  - rewrite drop_ge by lia. exists 0, s2, l2. split; [by destruct fuel|].
    split; [apply as_step_refl, St|apply copyout_done].
  - replace (PGROUNDDOWN dst + PGSIZE) with (dst + Z.of_nat (Z.to_nat n)) by lia.
    apply IH; auto; [lia|by apply Forall_drop|apply St|]. change MAXVA with (2 ^ 38) in *. unfold PGSIZE in *. lia.
Qed.

(** C23. [copyout] writes only what the process may write.  For any source bytes
    and any destination address, [copyout] returns, with 0 or -1, and has
    written a prefix of the bytes (all of them when it returns 0) at the user
    addresses from [dstva] on: the process sees them there, with the
    permissions unchanged, and everything else it sees is unchanged.  It
    fails only at a byte that is not mapped for the user to write.  Every
    byte written was in a page mapped (or lazily promised) with both PTE_U and
    PTE_W, and by [as_step] no page outside the address space was touched. *)
Theorem copyout_writes psz root dst src s l :
  as_inv s l root -> 0 <= dst < 2 ^ 64 -> 0 <= psz <= TRAPFRAME ->
  Forall (fun b => 0 <= b < 256) src ->
  exists r s' l' n, copyout psz root root dst src s = Ok r s' /\ as_step s s' l l' l' root /\
    (n <= length src)%nat /\
    (r = 0 /\ n = length src \/ r = -1 /\ (n < length src)%nat /\ ~ mapped_w s.(pm) root (dst + Z.of_nat n)) /\
    (forall x, user_va x -> lview psz s'.(pm) root x = written dst (take n src) (lview psz s.(pm) root) x) /\
    (forall x, dst <= x < dst + Z.of_nat n -> writable psz s root x).
Proof.
  intros Hinv Hd Hsz Hbs.
  destruct (copyout_loop_spec (length src) psz root dst src s l) as (r & s' & l' & E & St & n & H1 & H2 & H3 & H4 & _); auto.
  exists r, s', l', n. split; [done|]. split; [done|]. split; [done|]. split; [done|]. split; [done|].
  intros x Hx. by apply H4.
Qed.

(** ** copyin *)

(** The bytes copied are what the process sees, and either all of them were
    copied or the next one is not mapped for the user. *)
Definition copyin_post (psz root src len : Z) (s : kmem) (r : Z * list Z) : Prop :=
  let n := Z.of_nat (length r.2) in
  n <= len /\
  (forall i, 0 <= i < n -> user_va (src + i) /\ exists f,
     lview psz s.(pm) root (src + i) = Some (nth (Z.to_nat i) r.2 0, f) /\ has f PTE_U = true) /\
  (r.1 = 0 /\ n = len \/ r.1 = -1 /\ n < len /\ ~ readable s.(pm) root (src + n)).

Lemma readable_keeps psz s s' root x :
  keeps s s' root -> (forall x, user_va x -> lview psz s'.(pm) root x = lview psz s.(pm) root x) ->
  readable s.(pm) root x -> readable s'.(pm) root x.
Proof.
  intros K V (Hx & b & f & Hv & HU). split; [done|]. destruct (K x Hx) as [[b' f'] Hv']; [by rewrite Hv|].
  specialize (V x Hx). unfold lview in V. rewrite Hv, Hv' in V. exists b, f. by rewrite Hv', V.
Qed.

Lemma read_bytes_nth m a n i : 0 <= i < n -> nth (Z.to_nat i) (read_bytes m a n) 0 = m (a + i).
Proof.
  intros Hi. unfold read_bytes. apply nth_lookup_Some.
  rewrite list_lookup_fmap, lookup_seqZ_lt by lia. simpl. f_equal. f_equal. lia.
Qed.

Lemma copyin_loop_spec fuel psz root src len s l :
  len <= Z.of_nat fuel -> 0 <= len ->
  as_inv s l root -> 0 <= src < 2 ^ 64 -> 0 <= psz <= TRAPFRAME ->
  exists r s' l', copyin_loop fuel psz root root src len s = Ok r s' /\
    as_step s s' l l' l' root /\
    (forall x, user_va x -> lview psz s'.(pm) root x = lview psz s.(pm) root x) /\
    keeps s s' root /\ copyin_post psz root src len s r.
Proof.
  revert src len s l. induction fuel as [|fuel IH]; intros src len s l Hf H0 Hinv Hd Hsz;
    cbn [copyin_loop]; (destruct (Z.ltb_spec 0 len) as [Hlt|Hge];
    [|exists (0, []), s, l; split; [done|]; split; [by apply as_step_refl|]; split; [done|]; split; [by intros x|];
      unfold copyin_post; cbn [fst snd length]; split; [lia|]; split; [intros i Hi; lia|left; lia]]).
  { lia. }
  destruct (rounddown_page src Hd) as (Hp0 & Hp1 & Hp2). set (va0 := PGROUNDDOWN src) in *.
  destruct (user_page_spec psz root va0 s l Hinv Hp0 Hsz) as (a & s1 & l1 & E1 & St1 & V1 & Hacc & K1 & Hno).
  rewrite (bind_ok _ _ _ _ _ E1). destruct (Z.eqb_spec a 0) as [->|Ha].
  { exists (-1, []), s1, l1. split; [done|]. split; [done|]. split; [done|]. split; [done|]. unfold copyin_post.
    cbn [fst snd length]. split; [lia|]. split; [intros i Hi; lia|]. right. split; [done|]. split; [lia|].
    rewrite Z.add_0_r. apply Hno; [done|]. apply (same_page va0 src Hp2). lia. }
  specialize (Hacc Ha). mstep. set (n := Z.min _ _).
  assert (Hva : user_va va0) by apply Hacc.
  rewrite u64_small by (unfold user_va in Hva; rewrite TRAPFRAME_pages in Hva; unfold PGSIZE; lia).
  set (bs := read_bytes (pm s1) (a + (src - va0)) n).
  assert (Hbs : Z.of_nat (length bs) = n) by (unfold bs, read_bytes; rewrite length_fmap, length_seqZ; lia).
  assert (Hrd : forall i, 0 <= i < n -> user_va (src + i) /\ exists f,
    lview psz s.(pm) root (src + i) = Some (nth (Z.to_nat i) bs 0, f) /\ has f PTE_U = true).
  { intros i Hi. destruct (accessible_lview psz (pm s1) root va0 a (src + i) Hacc Hp2 ltac:(lia)) as [Hu Hv].
    split; [done|]. rewrite V1 in Hv by done. eexists. split.
    - rewrite Hv. unfold bs. rewrite read_bytes_nth by lia. do 3 f_equal. lia.
    - change PTE_U with (Z.shiftl 1 4). rewrite has_flags by lia. apply Hacc. }
  destruct (IH (va0 + PGSIZE) (len - n) s1 l1) as (r & s2 & l2 & E2 & St2 & V2 & K2 & Post);
    [lia|lia|apply St1|unfold user_va in Hva; rewrite TRAPFRAME_pages in Hva; unfold PGSIZE; lia|done|].
  rewrite (bind_ok _ _ _ _ _ E2). eexists _, s2, l2. split; [reflexivity|].
  split; [by eapply as_step_trans|]. split; [intros x Hx; by rewrite V2, V1|]. split; [by eapply keeps_trans|].
  destruct r as [r rest], Post as (Hl & Hr & Hend). unfold copyin_post. cbn [fst snd] in *.
  rewrite length_app, Nat2Z.inj_add, Hbs. split; [lia|]. split.
  - intros i Hi. destruct (decide (i < n)) as [Hin|Hin].
    + destruct (Hrd i ltac:(lia)) as [Hu (f & Hv & HU)]. split; [done|]. exists f.
      by rewrite app_nth1 by lia.
    + destruct (Hr (i - n) ltac:(lia)) as [Hu (f & Hv & HU)].
      replace (va0 + PGSIZE + (i - n)) with (src + i) in * by lia. split; [done|]. exists f.
      rewrite app_nth2 by lia. rewrite <- V1 by done. split; [|done]. rewrite Hv. do 3 f_equal. lia.
  - destruct Hend as [[-> Hn]|(-> & Hn & Hnr)]; [left; lia|right]. split; [done|]. split; [lia|].
    intros Hrd'. apply Hnr. apply (readable_keeps psz s s1); [done..|].
    destruct (Z.eq_dec n (len - 0)) as [|Hne]; [lia|].
    by replace (va0 + PGSIZE + Z.of_nat (length rest)) with (src + (n + Z.of_nat (length rest))) by lia.
Qed.

(** C24. [copyin] reads what the process sees.  For any source address and length
    [copyin] returns.  The bytes it copies are the bytes the process sees at those
    addresses, all of them accessible to the user; it copies all of them and
    returns 0, or stops at a byte that is not mapped for the user and
    returns -1.  Nothing the process sees changes, nor any page outside its
    address space. *)
Theorem copyin_reads psz root src len s l :
  as_inv s l root -> 0 <= src < 2 ^ 64 -> 0 <= len -> 0 <= psz <= TRAPFRAME ->
  exists r s' l', copyin psz root root src len s = Ok r s' /\ as_step s s' l l' l' root /\
    (forall x, user_va x -> lview psz s'.(pm) root x = lview psz s.(pm) root x) /\
    copyin_post psz root src len s r.
Proof.
  intros Hinv Hd H0 Hsz.
  destruct (copyin_loop_spec (Z.to_nat len) psz root src len s l) as (r & s' & l' & E & St & V & _ & Post); auto; [lia|].
  by exists r, s', l'.
Qed.

(** What the kernel writes to a user buffer the kernel reads back: after a
    [copyout] that returned 0, [copyin] of the same range succeeds and returns
    the bytes written. *)
Theorem copyout_copyin_roundtrip psz root dst src s l :
  as_inv s l root -> 0 <= dst < 2 ^ 64 -> 0 <= psz <= TRAPFRAME ->
  Forall (fun b => 0 <= b < 256) src ->
  runs (copyout psz root root dst src s) (fun r s1 => r = 0 ->
    runs (copyin psz root root dst (Z.of_nat (length src)) s1) (fun r2 _ => r2 = (0, src))).
Proof.
  intros Hinv Hd Hsz Hbs. unfold copyout, copyin.
  destruct (copyout_loop_spec (length src) psz root dst src s l)
    as (r & s1 & l1 & -> & St & n & Hn & Hr & V & W & K); auto. cbn [runs]. intros ->.
  assert (n = length src) as -> by (destruct Hr as [[_ ?]|?]; [done|lia]). rewrite take_ge in V by lia.
  destruct (copyin_loop_spec (Z.to_nat (Z.of_nat (length src))) psz root dst (Z.of_nat (length src)) s1 l1)
    as (r2 & s2 & l2 & -> & _ & _ & _ & Post); auto; [lia|lia|apply St|]. cbn [runs].
  assert (Hw : forall x, dst <= x < dst + Z.of_nat (length src) -> exists f,
    uview (pm s1) root x = Some (nth (Z.to_nat (x - dst)) src 0, f) /\ has f PTE_U = true /\ user_va x).
  { intros x Hx. destruct (W x Hx) as [(Hu & b & f & Hv & _ & HU) [v Hs]].
    specialize (V x Hu). unfold lview in V at 1. rewrite Hs in V. unfold written in V.
    rewrite decide_True, Hv in V by done. simpl in V. exists f. by rewrite Hs, V. }
  destruct r2 as [r2 bs], Post as (Hl & Hb & [[? Hn2]|(_ & Hn2 & Hnr)]); cbn [fst snd] in *; subst.
  - f_equal. apply (list_eq_same_length _ _ (length src)); [done|lia|].
    intros i x y Hi Hx Hy. destruct (Hb (Z.of_nat i) ltac:(lia)) as [Hu (f & Hv & _)].
    destruct (Hw (dst + Z.of_nat i) ltac:(lia)) as (f' & Hv' & _). unfold lview in Hv. rewrite Hv' in Hv.
    rewrite Z.add_simpl_l, Nat2Z.id in Hv. injection Hv as Hv _.
    apply (nth_lookup_Some _ _ 0) in Hx, Hy. congruence.
  - destruct Hnr. destruct (Hw (dst + Z.of_nat (length bs)) ltac:(lia)) as (f & Hv & HU & Hu).
    split; [done|]. eauto.
Qed.

(** ** copyinstr *)

Lemma scan_nul_spec m p n l b :
  scan_nul m p n = (l, b) ->
  (length l <= n)%nat /\
  (forall i, 0 <= i < Z.of_nat (length l) -> nth (Z.to_nat i) l 0 = m (p + i) /\ m (p + i) ≠ 0) /\
  (if b then (length l < n)%nat /\ m (p + Z.of_nat (length l)) = 0 else length l = n).
Proof.
  revert p l b. induction n as [|n IH]; intros p l b; simpl.
  { intros [= <- <-]. split; [done|]. split; [simpl; lia|done]. }
  destruct (Z.eqb_spec (m p) 0) as [Hz|Hz].
  { intros [= <- <-]. split; [simpl; lia|]. split; [simpl; lia|]. simpl. rewrite Z.add_0_r. auto with lia. }
  destruct (scan_nul m (p + 1) n) as [l' b'] eqn:E. intros [= <- <-].
  destruct (IH _ _ _ E) as (Hl & Hb & Hend). simpl. split; [lia|]. split.
  - intros i Hi. destruct (decide (i = 0)) as [->|]; [rewrite Z.add_0_r; done|].
    replace (Z.to_nat i) with (S (Z.to_nat (i - 1))) by lia.
    replace (p + i) with (p + 1 + (i - 1)) by lia. apply Hb. lia.
  - destruct b'; [|lia]. destruct Hend as [H1 H2]. split; [lia|]. rewrite <- H2. f_equal. lia.
Qed.

(** The user string at [src]: its bytes are not NUL and are what the process
    sees there. *)
Definition user_bytes (m : mem) (root src : Z) (bs : list Z) : Prop :=
  forall i, 0 <= i < Z.of_nat (length bs) -> nth (Z.to_nat i) bs 0 ≠ 0 /\ user_va (src + i) /\
    exists f, uview m root (src + i) = Some (nth (Z.to_nat i) bs 0, f) /\ has f PTE_U = true.

Lemma user_bytes_app m root src bs bs' :
  user_bytes m root src bs -> user_bytes m root (src + Z.of_nat (length bs)) bs' ->
  user_bytes m root src (bs ++ bs').
Proof.
  intros H1 H2 i. rewrite length_app. intros Hi. destruct (decide (i < Z.of_nat (length bs))).
  - rewrite app_nth1 by lia. apply H1. lia.
  - rewrite app_nth2 by lia. specialize (H2 (i - Z.of_nat (length bs)) ltac:(lia)).
    replace (Z.to_nat i - length bs)%nat with (Z.to_nat (i - Z.of_nat (length bs))) by lia.
    replace (src + i) with (src + Z.of_nat (length bs) + (i - Z.of_nat (length bs))) by lia. done.
Qed.

Definition copyinstr_post (m : mem) (root src max : Z) (r : option (list Z)) : Prop :=
  match r with
  | Some str => Z.of_nat (length str) < max /\ user_bytes m root src str /\
      exists f, uview m root (src + Z.of_nat (length str)) = Some (0, f)
  | None => (exists x, src <= x < src + max /\ ~ readable m root x) \/
      (exists bs, Z.of_nat (length bs) = max /\ user_bytes m root src bs)
  end.

Lemma copyinstr_loop_spec fuel root src max s l :
  max <= Z.of_nat fuel -> 0 <= max -> as_inv s l root -> 0 <= src < 2 ^ 64 ->
  exists r, copyinstr_loop fuel root src max s = Ok r s /\ copyinstr_post s.(pm) root src max r.
Proof.
  revert src max. induction fuel as [|fuel IH]; intros src max Hf H0 Hinv Hd;
    cbn [copyinstr_loop]; (destruct (Z.ltb_spec 0 max) as [Hlt|Hge];
    [|exists None; split; [done|]; right; exists []; split; [simpl; lia|intros i Hi; simpl in Hi; lia]]).
  { lia. }
  destruct (rounddown_page src Hd) as (Hp0 & Hp1 & Hp2). set (va0 := PGROUNDDOWN src) in *.
  destruct (walkaddr root va0 s) as [a s1| | |] eqn:E; rewrite walkaddr_spec in E; try done.
  assert (s1 = s) as -> by congruence. rewrite <- walkaddr_spec in E.
  rewrite (bind_ok _ _ _ _ _ E). destruct (Z.eqb_spec a 0) as [->|Ha].
  { exists None. split; [done|]. left. exists src. split; [lia|]. intros Hr.
    eapply (walkaddr_readable s l root va0 src s); eauto. apply (same_page va0 src Hp2). lia. }
  destruct (walkaddr_accessible s l root va0 a s Hinv Hp0 E Ha) as [_ Hacc].
  mstep. set (n := Z.min _ _). assert (Hva : user_va va0) by apply Hacc.
  destruct (scan_nul (pm s) (a + (src - va0)) (Z.to_nat n)) as [bs b] eqn:Es.
  apply scan_nul_spec in Es as (Hl & Hb & Hend). cbn [fst snd].
  assert (Hview : forall i, 0 <= i < n -> user_va (src + i) /\ exists f,
    uview (pm s) root (src + i) = Some (pm s (a + (src - va0) + i), f) /\ has f PTE_U = true).
  { intros i Hi. destruct (accessible_lview 0 (pm s) root va0 a (src + i) Hacc Hp2 ltac:(lia)) as [Hu Hv].
    split; [done|]. unfold lview in Hv. unfold uview in *.
    rewrite (accessible_valid _ _ va0 a (src + i) Hacc Hp2 ltac:(lia)) in *. rewrite Hv. eexists. split.
    - do 3 f_equal. lia.
    - change PTE_U with (Z.shiftl 1 4). rewrite has_flags by lia. apply Hacc. }
  assert (Hub : user_bytes (pm s) root src bs).
  { intros i Hi. destruct (Hb i Hi) as [-> Hz]. destruct (Hview i ltac:(lia)) as [Hu Hv]. auto. }
  destruct b.
  { exists (Some bs). split; [done|]. destruct Hend as [H1 H2]. split; [lia|]. split; [done|].
    destruct (Hview (Z.of_nat (length bs)) ltac:(lia)) as [_ (f & Hv & _)]. exists f. by rewrite Hv, H2. }
  assert (Hlen : Z.of_nat (length bs) = n) by lia.
  rewrite u64_small by (unfold user_va in Hva; rewrite TRAPFRAME_pages in Hva; unfold PGSIZE; lia).
  destruct (IH (va0 + PGSIZE) (max - n)) as (r & E2 & Post);
    [lia|lia|done|unfold user_va in Hva; rewrite TRAPFRAME_pages in Hva; unfold PGSIZE; lia|].
  rewrite (bind_ok _ _ _ _ _ E2). eexists. split; [reflexivity|].
  destruct (decide (n = max)) as [En|Hn].
  { rewrite En, Z.sub_diag in *. destruct r as [str|]; [destruct Post; lia|]. right. exists bs. auto. }
  replace (va0 + PGSIZE) with (src + Z.of_nat (length bs)) in Post by lia.
  destruct r as [str|].
  - destruct Post as (H1 & H2 & f & Hv). split; [rewrite length_app; lia|].
    split; [by apply user_bytes_app|]. exists f. rewrite <- Hv, length_app. f_equal. lia.
  - destruct Post as [(x & Hx & Hnr)|(bs' & H1 & H2)]; [left; exists x; split; [lia|done]|].
    right. exists (bs ++ bs'). split; [rewrite length_app; lia|by apply user_bytes_app].
Qed.

(** [copyinstr] returns the user's string.  For any address and any bound it
    returns without changing memory: on success the bytes before the first NUL
    the process sees at that address, fewer than [max] of them; it fails only when some
    byte of the first [max] is not readable by the user, or when there is no NUL
    among them. *)
Theorem copyinstr_string root src max s l :
  as_inv s l root -> 0 <= src < 2 ^ 64 -> 0 <= max ->
  exists r, copyinstr root src max s = Ok r s /\ copyinstr_post s.(pm) root src max r.
Proof. intros Hinv Hd H0. eapply copyinstr_loop_spec; eauto. lia. Qed.
End copy.

(** ** Witnesses: the string hi copied to an untouched heap page of a process of
    the concrete state of VmSpace.v, and read back. *)

Definition demo_str : list Z := [104; 105; 0].

Lemma demo_str_bytes : Forall (fun b => 0 <= b < 256) demo_str.
Proof. repeat constructor; lia. Qed.

Lemma copyout_writes_witness :
  runs (copyout (L := demo_layout) 12288 (demo_page 1) (demo_page 1) 5000 demo_str demo_kmem)
    (fun r _ => r = 0) /\
  exists r s' l' n,
    copyout (L := demo_layout) 12288 (demo_page 1) (demo_page 1) 5000 demo_str demo_kmem = Ok r s' /\
    as_step (L := demo_layout) demo_kmem s' demo_free l' l' (demo_page 1) /\
    (n <= length demo_str)%nat /\
    (r = 0 /\ n = length demo_str \/ r = -1 /\ (n < length demo_str)%nat /\ ~ mapped_w demo_kmem.(pm) (demo_page 1) (5000 + Z.of_nat n)) /\
    (forall x, user_va x -> lview 12288 s'.(pm) (demo_page 1) x =
       written 5000 (take n demo_str) (lview 12288 demo_kmem.(pm) (demo_page 1)) x) /\
    (forall x, 5000 <= x < 5000 + Z.of_nat n -> writable 12288 demo_kmem (demo_page 1) x).
Proof.
  split; [vm_compute; reflexivity|].
  apply (copyout_writes (L := demo_layout) (LOK := demo_layout_ok)).
  - by apply demo_root.
  - lia.
  - by vm_compute.
  - apply demo_str_bytes.
Defined.

Lemma copyin_reads_witness :
  exists s l, copyout (L := demo_layout) 12288 (demo_page 1) (demo_page 1) 5000 demo_str demo_kmem = Ok 0 s /\
    exists r s' l', copyin (L := demo_layout) 12288 (demo_page 1) (demo_page 1) 5000 3 s = Ok r s' /\
      r = (0, demo_str) /\ as_step (L := demo_layout) s s' l l' l' (demo_page 1) /\
      (forall x, user_va x -> lview 12288 s'.(pm) (demo_page 1) x = lview 12288 s.(pm) (demo_page 1) x) /\
      copyin_post 12288 (demo_page 1) 5000 3 s r.
Proof.
  assert (0 <= 5000 < 2 ^ 64) as H1 by lia. assert (0 <= 3) as H2 by lia.
  assert (0 <= 12288 <= TRAPFRAME) as H3 by by vm_compute.
  destruct (copyout_loop_spec (L := demo_layout) (LOK := demo_layout_ok) 3 12288 (demo_page 1) 5000 demo_str
              demo_kmem demo_free) as (r & s & l & E & St & _);
    [done|apply demo_str_bytes|by apply demo_root|lia|by vm_compute|].
  assert (runs (copyout_loop (L := demo_layout) 3 12288 (demo_page 1) (demo_page 1) 5000 demo_str demo_kmem)
            (fun r s => r = 0 /\ runs (copyin (L := demo_layout) 12288 (demo_page 1) (demo_page 1) 5000 3 s)
              (fun r _ => r = (0, demo_str)))) as Hr by (vm_compute; split; reflexivity).
  rewrite E in Hr. destruct Hr as [-> Hr]. exists s, l. split; [exact E|].
  destruct (copyin_reads (L := demo_layout) (LOK := demo_layout_ok) 12288 (demo_page 1) 5000 3 s l
              (st_inv _ _ _ _ _ _ St) H1 H2 H3) as (r & s' & l' & E2 & St2 & V2 & Post).
  rewrite E2 in Hr. exists r, s', l'. split; [exact E2|]. split; [exact Hr|]. split; [exact St2|]. split; [exact V2|exact Post].
Defined.

Lemma copyout_copyin_roundtrip_witness :
  runs (copyout (L := demo_layout) 12288 (demo_page 1) (demo_page 1) 8190 demo_str demo_kmem) (fun r s1 => r = 0 ->
    runs (copyin (L := demo_layout) 12288 (demo_page 1) (demo_page 1) 8190 3 s1) (fun r2 _ => r2 = (0, demo_str))).
Proof.
  apply (copyout_copyin_roundtrip (L := demo_layout) (LOK := demo_layout_ok) 12288 (demo_page 1) 8190 demo_str
           demo_kmem demo_free).
  - by apply demo_root.
  - lia.
  - by vm_compute.
  - apply demo_str_bytes.
Defined.

Lemma copyinstr_string_witness :
  exists s, copyout (L := demo_layout) 12288 (demo_page 1) (demo_page 1) 5000 demo_str demo_kmem = Ok 0 s /\
    exists r, copyinstr (demo_page 1) 5000 16 s = Ok r s /\
      copyinstr_post s.(pm) (demo_page 1) 5000 16 r.
Proof.
  destruct (copyout_loop_spec (L := demo_layout) (LOK := demo_layout_ok) 3 12288 (demo_page 1) 5000 demo_str
              demo_kmem demo_free) as (r & s & l & E & St & _);
    [done|apply demo_str_bytes|by apply demo_root|lia|by vm_compute|].
  assert (runs (copyout_loop (L := demo_layout) 3 12288 (demo_page 1) (demo_page 1) 5000 demo_str demo_kmem)
            (fun r _ => r = 0)) as Hr by (vm_compute; reflexivity).
  rewrite E in Hr. cbn [runs] in Hr. subst r.
  exists s. split; [exact E|].
  apply (copyinstr_string (L := demo_layout) (LOK := demo_layout_ok) (demo_page 1) 5000 16 s l).
  - apply St.
  - lia.
  - lia.
Defined.
