(* ===== verification/State.v ===== *)
(** * The state of the kernel

    The structures of the kernel's headers and files that the process, file and
    device layers share, and [kernel], the state of the machine as the code of
    one hart sees it: its own [cpu], the locks, and every table of the kernel.
    Pointers into a table are indices of it; a null pointer is [None].

    Kernel code is in the monad [M kernel] of Prelude.v.  [zoom] runs the
    memory code of Kalloc.v and Vm.v on the [k_mem] component. *)

From S2P Require Import Prelude Types Mem Layout Kalloc.
From Stdlib Require Import ZArith Lia.
From stdpp Require Import base list numbers strings gmap.
Open Scope Z_scope.

(** ** Locks *)

Inductive lockid :=
  | LkProc (i : nat)     (* proc[i].lock *)
  | LkPid                (* pid_lock *)
  | LkWait               (* wait_lock *)
  | LkTicks              (* tickslock *)
  | LkBcache             (* bcache.lock *)
  | LkLog                (* log.lock *)
  | LkItable             (* itable.lock *)
  | LkFtable             (* ftable.lock *)
  | LkPipe (pi : Z)      (* pi->lock *)
  | LkCons               (* cons.lock *)
  | LkTx                 (* tx_lock *)
  | LkPr                 (* pr.lock *)
  | LkSleep (l : slid).  (* the spinlock inside a sleep lock *)
#[global] Instance lockid_eqdec : EqDecision lockid.
Proof. solve_decision. Defined.

Definition slid_code (l : slid) : nat * nat :=
  match l with SlBuf i => (0%nat, i) | SlInode i => (1%nat, i) end.
Definition slid_decode (c : nat * nat) : option slid :=
  match c with (O, i) => Some (SlBuf i) | (1%nat, i) => Some (SlInode i) | _ => None end.
#[global] Instance slid_countable : Countable slid.
Proof. apply (inj_countable slid_code slid_decode). by intros []. Defined.

Definition lockid_code (l : lockid) : nat * Z + slid :=
  match l with
  | LkProc i => inl (0%nat, Z.of_nat i) | LkPid => inl (1%nat, 0) | LkWait => inl (2%nat, 0)
  | LkTicks => inl (3%nat, 0) | LkBcache => inl (4%nat, 0) | LkLog => inl (5%nat, 0)
  | LkItable => inl (6%nat, 0) | LkFtable => inl (7%nat, 0) | LkPipe a => inl (8%nat, a)
  | LkCons => inl (9%nat, 0) | LkTx => inl (10%nat, 0) | LkPr => inl (11%nat, 0)
  | LkSleep s => inr s
  end.
Definition lockid_decode (c : nat * Z + slid) : option lockid :=
  match c with
  | inr s => Some (LkSleep s)
  | inl (n, a) =>
      match n with
      | 0 => Some (LkProc (Z.to_nat a)) | 1 => Some LkPid | 2 => Some LkWait | 3 => Some LkTicks
      | 4 => Some LkBcache | 5 => Some LkLog | 6 => Some LkItable | 7 => Some LkFtable
      | 8 => Some (LkPipe a) | 9 => Some LkCons | 10 => Some LkTx | 11 => Some LkPr | _ => None
      end%nat
  end.
#[global] Instance lockid_countable : Countable lockid.
Proof.
  apply (inj_countable lockid_code lockid_decode).
  intros []; simpl; rewrite ?Nat2Z.id; done.
Defined.

(** ** struct cpu (proc.h), with the SIE bit of this hart's sstatus and its id *)
Record cpu := mkcpu {
  c_proc : option nat;  (* The process running on this cpu, or null. *)
  c_noff : Z;           (* Depth of push_off() nesting. *)
  c_intena : bool;      (* Were interrupts enabled before push_off()? *)
  c_sie : bool;         (* Are interrupts enabled? *)
  c_id : Z              (* r_tp() *)
}.
Definition set_c_proc x c := mkcpu x c.(c_noff) c.(c_intena) c.(c_sie) c.(c_id).
Definition set_noff x c := mkcpu c.(c_proc) x c.(c_intena) c.(c_sie) c.(c_id).
Definition set_intena x c := mkcpu c.(c_proc) c.(c_noff) x c.(c_sie) c.(c_id).
Definition set_sie x c := mkcpu c.(c_proc) c.(c_noff) c.(c_intena) x c.(c_id).

(** The supervisor registers a trap uses. *)
Record csrs := mkcsrs {
  sstatus_spp : bool;  (* previous mode: true for supervisor *)
  sstatus_spie : bool;
  sepc : Z; scause : Z; stval : Z; stvec : Z; satp : Z; stimecmp : Z;
  time : Z;   (* the clock *)
  sclaim : Z  (* the interrupt the PLIC has for this hart, 0 for none *)
}.
Definition set_spp_spie x y r := mkcsrs x y r.(sepc) r.(scause) r.(stval) r.(stvec) r.(satp) r.(stimecmp) r.(time) r.(sclaim).
Definition set_sepc x r := mkcsrs r.(sstatus_spp) r.(sstatus_spie) x r.(scause) r.(stval) r.(stvec) r.(satp) r.(stimecmp) r.(time) r.(sclaim).
Definition set_stvec x r := mkcsrs r.(sstatus_spp) r.(sstatus_spie) r.(sepc) r.(scause) r.(stval) x r.(satp) r.(stimecmp) r.(time) r.(sclaim).
Definition set_satp x r := mkcsrs r.(sstatus_spp) r.(sstatus_spie) r.(sepc) r.(scause) r.(stval) r.(stvec) x r.(stimecmp) r.(time) r.(sclaim).
Definition set_stimecmp x r := mkcsrs r.(sstatus_spp) r.(sstatus_spie) r.(sepc) r.(scause) r.(stval) r.(stvec) r.(satp) x r.(time) r.(sclaim).
Definition set_sclaim x r := mkcsrs r.(sstatus_spp) r.(sstatus_spie) r.(sepc) r.(scause) r.(stval) r.(stvec) r.(satp) r.(stimecmp) r.(time) x.

(** ** Disk blocks and buffers (fs.h, buf.h) *)

Definition BSIZE : Z := 1024.

(** The bytes of a block at the offsets 0 to BSIZE-1. *)
Definition block : Type := mem.

(** The disk: what it held at boot and the block writes since, the last one
    first.  Keeping the writes in order makes every crash point a state: a
    crash leaves the disk after some of the writes. *)
Record disk := mkdisk { d_image : Z -> block; d_writes : list (Z * block) }.

Fixpoint last_write (ws : list (Z * block)) (n : Z) : option block :=
  match ws with
  | [] => None
  | (m, b) :: ws' => if m =? n then Some b else last_write ws' n
  end.
Definition disk_read (d : disk) (n : Z) : block := default (d.(d_image) n) (last_write d.(d_writes) n).
Definition disk_write (n : Z) (b : block) (d : disk) : disk := mkdisk d.(d_image) ((n, b) :: d.(d_writes)).

Record buf := mkbuf {
  b_valid : bool;   (* has data been read from disk? *)
  b_disk : bool;    (* does disk own buf? *)
  b_dev : Z;
  b_blockno : Z;
  b_refcnt : Z;
  b_prev : nat;     (* LRU cache list *)
  b_next : nat;
  b_data : block
}.
Definition set_valid x b := mkbuf x b.(b_disk) b.(b_dev) b.(b_blockno) b.(b_refcnt) b.(b_prev) b.(b_next) b.(b_data).
Definition set_refcnt x b := mkbuf b.(b_valid) b.(b_disk) b.(b_dev) b.(b_blockno) x b.(b_prev) b.(b_next) b.(b_data).
Definition set_prev x b := mkbuf b.(b_valid) b.(b_disk) b.(b_dev) b.(b_blockno) b.(b_refcnt) x b.(b_next) b.(b_data).
Definition set_next x b := mkbuf b.(b_valid) b.(b_disk) b.(b_dev) b.(b_blockno) b.(b_refcnt) b.(b_prev) x b.(b_data).
Definition set_block dev n b := mkbuf false b.(b_disk) dev n 1 b.(b_prev) b.(b_next) b.(b_data).
Definition set_data x b := mkbuf b.(b_valid) b.(b_disk) b.(b_dev) b.(b_blockno) b.(b_refcnt) b.(b_prev) b.(b_next) x.

Record superblock := mksb {
  sb_magic : Z; sb_size : Z; sb_nblocks : Z; sb_ninodes : Z;
  sb_nlog : Z; sb_logstart : Z; sb_inodestart : Z; sb_bmapstart : Z
}.

(** struct log of log.c, its header inlined *)
Record log := mklog {
  l_start : Z;
  l_outstanding : Z;    (* how many FS sys calls are executing. *)
  l_committing : bool;  (* in commit(), please wait. *)
  l_dev : Z;
  lh_n : Z;
  lh_block : list Z     (* LOGBLOCKS entries *)
}.
Definition set_outstanding x l := mklog l.(l_start) x l.(l_committing) l.(l_dev) l.(lh_n) l.(lh_block).
Definition set_committing x l := mklog l.(l_start) l.(l_outstanding) x l.(l_dev) l.(lh_n) l.(lh_block).
Definition set_lh n bs l := mklog l.(l_start) l.(l_outstanding) l.(l_committing) l.(l_dev) n bs.

(** ** Inodes, files and pipes (file.h, pipe.c) *)

Record inode := mkinode {
  i_dev : Z; i_inum : Z; i_ref : Z; i_valid : bool;
  i_type : Z; i_major : Z; i_minor : Z; i_nlink : Z; i_size : Z;
  i_addrs : list Z  (* NDIRECT+1 entries *)
}.
Definition set_ref x i := mkinode i.(i_dev) i.(i_inum) x i.(i_valid) i.(i_type) i.(i_major) i.(i_minor) i.(i_nlink) i.(i_size) i.(i_addrs).
Definition set_ivalid x i := mkinode i.(i_dev) i.(i_inum) i.(i_ref) x i.(i_type) i.(i_major) i.(i_minor) i.(i_nlink) i.(i_size) i.(i_addrs).
Definition set_type x i := mkinode i.(i_dev) i.(i_inum) i.(i_ref) i.(i_valid) x i.(i_major) i.(i_minor) i.(i_nlink) i.(i_size) i.(i_addrs).
Definition set_majmin x y i := mkinode i.(i_dev) i.(i_inum) i.(i_ref) i.(i_valid) i.(i_type) x y i.(i_nlink) i.(i_size) i.(i_addrs).
Definition set_nlink x i := mkinode i.(i_dev) i.(i_inum) i.(i_ref) i.(i_valid) i.(i_type) i.(i_major) i.(i_minor) x i.(i_size) i.(i_addrs).
Definition set_size x i := mkinode i.(i_dev) i.(i_inum) i.(i_ref) i.(i_valid) i.(i_type) i.(i_major) i.(i_minor) i.(i_nlink) x i.(i_addrs).
Definition set_addrs x i := mkinode i.(i_dev) i.(i_inum) i.(i_ref) i.(i_valid) i.(i_type) i.(i_major) i.(i_minor) i.(i_nlink) i.(i_size) x.

Inductive filetype := FD_NONE | FD_PIPE | FD_INODE | FD_DEVICE.
#[global] Instance filetype_eqdec : EqDecision filetype.
Proof. solve_decision. Defined.

Record file := mkfile {
  f_type : filetype;
  f_ref : Z;             (* reference count *)
  f_readable : bool;
  f_writable : bool;
  f_pipe : Z;            (* FD_PIPE: the address of the pipe *)
  f_ip : option nat;     (* FD_INODE and FD_DEVICE *)
  f_off : Z;             (* FD_INODE *)
  f_major : Z            (* FD_DEVICE *)
}.
Definition set_f_type x f := mkfile x f.(f_ref) f.(f_readable) f.(f_writable) f.(f_pipe) f.(f_ip) f.(f_off) f.(f_major).
Definition set_f_ref x f := mkfile f.(f_type) x f.(f_readable) f.(f_writable) f.(f_pipe) f.(f_ip) f.(f_off) f.(f_major).
Definition set_f_rw r w f := mkfile f.(f_type) f.(f_ref) r w f.(f_pipe) f.(f_ip) f.(f_off) f.(f_major).
Definition set_f_pipe x f := mkfile f.(f_type) f.(f_ref) f.(f_readable) f.(f_writable) x f.(f_ip) f.(f_off) f.(f_major).
Definition set_f_ip x f := mkfile f.(f_type) f.(f_ref) f.(f_readable) f.(f_writable) f.(f_pipe) x f.(f_off) f.(f_major).
Definition set_f_off x f := mkfile f.(f_type) f.(f_ref) f.(f_readable) f.(f_writable) f.(f_pipe) f.(f_ip) x f.(f_major).
Definition set_f_major x f := mkfile f.(f_type) f.(f_ref) f.(f_readable) f.(f_writable) f.(f_pipe) f.(f_ip) f.(f_off) x.

Record pipe := mkpipe {
  pi_data : list Z;       (* PIPESIZE bytes *)
  pi_nread : Z;           (* number of bytes read *)
  pi_nwrite : Z;          (* number of bytes written *)
  pi_readopen : bool;     (* read fd is still open *)
  pi_writeopen : bool     (* write fd is still open *)
}.

(** ** Console (console.c, uart.c) *)

Record cons := mkcons { cons_buf : list Z; cons_r : Z; cons_w : Z; cons_e : Z }.

(** [u_out]: the bytes written to THR, the last one first; [u_in]: the bytes
    waiting in RHR; [u_idle]: what LSR_TX_IDLE reads at an interrupt. *)
Record uart := mkuart { tx_busy : bool; u_out : list Z; u_in : list Z; u_idle : bool }.

Record kernel := mkkernel {
  k_cpu : cpu;  (* this hart's struct cpu and its interrupt enable bit *)
  k_locks : gmap lockid Z;  (* the spinlocks that are locked, with the hart in lk->cpu *)
  k_slocks : gmap slid Z;  (* the sleep locks that are locked, with the pid in lk->pid *)
  k_procs : list proc;  (* proc[NPROC] *)
  k_initproc : option nat;  (* initproc *)
  k_nextpid : Z;  (* nextpid *)
  k_rand : Z;  (* rand_state *)
  k_mem : kmem;  (* physical memory and kmem *)
  k_ticks : Z;  (* ticks *)
  k_bcache : list buf;  (* bcache.buf[] followed by bcache.head *)
  k_log : log;  (* log *)
  k_sb : superblock;  (* sb *)
  k_disk : disk;  (* the disk *)
  k_itable : list inode;  (* itable.inode[NINODE] *)
  k_ftable : list file;  (* ftable.file[NFILE] *)
  k_pipes : gmap Z pipe;  (* the pipes, by the address of their page *)
  k_cons : cons;  (* cons *)
  k_uart : uart;  (* tx_busy and the line *)
  k_counts : list Z;  (* syscall_counts[] *)
  k_csr : csrs;  (* the trap registers of this hart *)
  k_kpgtbl : Z;  (* kernel_pagetable *)
  k_first : bool  (* first, in forkret *)
}.

(** Assignments to one component. *)
Definition set_cpu (x : cpu) (k : kernel) : kernel :=
  mkkernel x k.(k_locks) k.(k_slocks) k.(k_procs) k.(k_initproc) k.(k_nextpid) k.(k_rand) k.(k_mem)
    k.(k_ticks) k.(k_bcache) k.(k_log) k.(k_sb) k.(k_disk) k.(k_itable) k.(k_ftable) k.(k_pipes) k.(k_cons)
    k.(k_uart) k.(k_counts) k.(k_csr)
    k.(k_kpgtbl) k.(k_first).
Definition set_locks (x : gmap lockid Z) (k : kernel) : kernel :=
  mkkernel k.(k_cpu) x k.(k_slocks) k.(k_procs) k.(k_initproc) k.(k_nextpid) k.(k_rand) k.(k_mem)
    k.(k_ticks) k.(k_bcache) k.(k_log) k.(k_sb) k.(k_disk) k.(k_itable) k.(k_ftable) k.(k_pipes) k.(k_cons)
    k.(k_uart) k.(k_counts) k.(k_csr)
    k.(k_kpgtbl) k.(k_first).
Definition set_slocks (x : gmap slid Z) (k : kernel) : kernel :=
  mkkernel k.(k_cpu) k.(k_locks) x k.(k_procs) k.(k_initproc) k.(k_nextpid) k.(k_rand) k.(k_mem) k.(k_ticks)
    k.(k_bcache) k.(k_log) k.(k_sb) k.(k_disk) k.(k_itable) k.(k_ftable) k.(k_pipes) k.(k_cons) k.(k_uart)
    k.(k_counts) k.(k_csr)
    k.(k_kpgtbl) k.(k_first).
Definition set_procs (x : list proc) (k : kernel) : kernel :=
  mkkernel k.(k_cpu) k.(k_locks) k.(k_slocks) x k.(k_initproc) k.(k_nextpid) k.(k_rand) k.(k_mem)
    k.(k_ticks) k.(k_bcache) k.(k_log) k.(k_sb) k.(k_disk) k.(k_itable) k.(k_ftable) k.(k_pipes) k.(k_cons)
    k.(k_uart) k.(k_counts) k.(k_csr)
    k.(k_kpgtbl) k.(k_first).
Definition set_initproc (x : option nat) (k : kernel) : kernel :=
  mkkernel k.(k_cpu) k.(k_locks) k.(k_slocks) k.(k_procs) x k.(k_nextpid) k.(k_rand) k.(k_mem) k.(k_ticks)
    k.(k_bcache) k.(k_log) k.(k_sb) k.(k_disk) k.(k_itable) k.(k_ftable) k.(k_pipes) k.(k_cons) k.(k_uart)
    k.(k_counts) k.(k_csr)
    k.(k_kpgtbl) k.(k_first).
Definition set_nextpid (x : Z) (k : kernel) : kernel :=
  mkkernel k.(k_cpu) k.(k_locks) k.(k_slocks) k.(k_procs) k.(k_initproc) x k.(k_rand) k.(k_mem) k.(k_ticks)
    k.(k_bcache) k.(k_log) k.(k_sb) k.(k_disk) k.(k_itable) k.(k_ftable) k.(k_pipes) k.(k_cons) k.(k_uart)
    k.(k_counts) k.(k_csr)
    k.(k_kpgtbl) k.(k_first).
Definition set_rand (x : Z) (k : kernel) : kernel :=
  mkkernel k.(k_cpu) k.(k_locks) k.(k_slocks) k.(k_procs) k.(k_initproc) k.(k_nextpid) x k.(k_mem)
    k.(k_ticks) k.(k_bcache) k.(k_log) k.(k_sb) k.(k_disk) k.(k_itable) k.(k_ftable) k.(k_pipes) k.(k_cons)
    k.(k_uart) k.(k_counts) k.(k_csr)
    k.(k_kpgtbl) k.(k_first).
Definition set_mem (x : kmem) (k : kernel) : kernel :=
  mkkernel k.(k_cpu) k.(k_locks) k.(k_slocks) k.(k_procs) k.(k_initproc) k.(k_nextpid) k.(k_rand) x
    k.(k_ticks) k.(k_bcache) k.(k_log) k.(k_sb) k.(k_disk) k.(k_itable) k.(k_ftable) k.(k_pipes) k.(k_cons)
    k.(k_uart) k.(k_counts) k.(k_csr)
    k.(k_kpgtbl) k.(k_first).
Definition set_kticks (x : Z) (k : kernel) : kernel :=
  mkkernel k.(k_cpu) k.(k_locks) k.(k_slocks) k.(k_procs) k.(k_initproc) k.(k_nextpid) k.(k_rand) k.(k_mem)
    x k.(k_bcache) k.(k_log) k.(k_sb) k.(k_disk) k.(k_itable) k.(k_ftable) k.(k_pipes) k.(k_cons) k.(k_uart)
    k.(k_counts) k.(k_csr)
    k.(k_kpgtbl) k.(k_first).
Definition set_bcache (x : list buf) (k : kernel) : kernel :=
  mkkernel k.(k_cpu) k.(k_locks) k.(k_slocks) k.(k_procs) k.(k_initproc) k.(k_nextpid) k.(k_rand) k.(k_mem)
    k.(k_ticks) x k.(k_log) k.(k_sb) k.(k_disk) k.(k_itable) k.(k_ftable) k.(k_pipes) k.(k_cons) k.(k_uart)
    k.(k_counts) k.(k_csr)
    k.(k_kpgtbl) k.(k_first).
Definition set_log (x : log) (k : kernel) : kernel :=
  mkkernel k.(k_cpu) k.(k_locks) k.(k_slocks) k.(k_procs) k.(k_initproc) k.(k_nextpid) k.(k_rand) k.(k_mem)
    k.(k_ticks) k.(k_bcache) x k.(k_sb) k.(k_disk) k.(k_itable) k.(k_ftable) k.(k_pipes) k.(k_cons)
    k.(k_uart) k.(k_counts) k.(k_csr)
    k.(k_kpgtbl) k.(k_first).
Definition set_sb (x : superblock) (k : kernel) : kernel :=
  mkkernel k.(k_cpu) k.(k_locks) k.(k_slocks) k.(k_procs) k.(k_initproc) k.(k_nextpid) k.(k_rand) k.(k_mem)
    k.(k_ticks) k.(k_bcache) k.(k_log) x k.(k_disk) k.(k_itable) k.(k_ftable) k.(k_pipes) k.(k_cons)
    k.(k_uart) k.(k_counts) k.(k_csr)
    k.(k_kpgtbl) k.(k_first).
Definition set_disk (x : disk) (k : kernel) : kernel :=
  mkkernel k.(k_cpu) k.(k_locks) k.(k_slocks) k.(k_procs) k.(k_initproc) k.(k_nextpid) k.(k_rand) k.(k_mem)
    k.(k_ticks) k.(k_bcache) k.(k_log) k.(k_sb) x k.(k_itable) k.(k_ftable) k.(k_pipes) k.(k_cons)
    k.(k_uart) k.(k_counts) k.(k_csr)
    k.(k_kpgtbl) k.(k_first).
Definition set_itable (x : list inode) (k : kernel) : kernel :=
  mkkernel k.(k_cpu) k.(k_locks) k.(k_slocks) k.(k_procs) k.(k_initproc) k.(k_nextpid) k.(k_rand) k.(k_mem)
    k.(k_ticks) k.(k_bcache) k.(k_log) k.(k_sb) k.(k_disk) x k.(k_ftable) k.(k_pipes) k.(k_cons) k.(k_uart)
    k.(k_counts) k.(k_csr)
    k.(k_kpgtbl) k.(k_first).
Definition set_ftable (x : list file) (k : kernel) : kernel :=
  mkkernel k.(k_cpu) k.(k_locks) k.(k_slocks) k.(k_procs) k.(k_initproc) k.(k_nextpid) k.(k_rand) k.(k_mem)
    k.(k_ticks) k.(k_bcache) k.(k_log) k.(k_sb) k.(k_disk) k.(k_itable) x k.(k_pipes) k.(k_cons) k.(k_uart)
    k.(k_counts) k.(k_csr)
    k.(k_kpgtbl) k.(k_first).
Definition set_pipes (x : gmap Z pipe) (k : kernel) : kernel :=
  mkkernel k.(k_cpu) k.(k_locks) k.(k_slocks) k.(k_procs) k.(k_initproc) k.(k_nextpid) k.(k_rand) k.(k_mem)
    k.(k_ticks) k.(k_bcache) k.(k_log) k.(k_sb) k.(k_disk) k.(k_itable) k.(k_ftable) x k.(k_cons) k.(k_uart)
    k.(k_counts) k.(k_csr)
    k.(k_kpgtbl) k.(k_first).
Definition set_cons (x : cons) (k : kernel) : kernel :=
  mkkernel k.(k_cpu) k.(k_locks) k.(k_slocks) k.(k_procs) k.(k_initproc) k.(k_nextpid) k.(k_rand) k.(k_mem)
    k.(k_ticks) k.(k_bcache) k.(k_log) k.(k_sb) k.(k_disk) k.(k_itable) k.(k_ftable) k.(k_pipes) x
    k.(k_uart) k.(k_counts) k.(k_csr)
    k.(k_kpgtbl) k.(k_first).
Definition set_uart (x : uart) (k : kernel) : kernel :=
  mkkernel k.(k_cpu) k.(k_locks) k.(k_slocks) k.(k_procs) k.(k_initproc) k.(k_nextpid) k.(k_rand) k.(k_mem)
    k.(k_ticks) k.(k_bcache) k.(k_log) k.(k_sb) k.(k_disk) k.(k_itable) k.(k_ftable) k.(k_pipes) k.(k_cons)
    x k.(k_counts) k.(k_csr)
    k.(k_kpgtbl) k.(k_first).
Definition set_counts (x : list Z) (k : kernel) : kernel :=
  mkkernel k.(k_cpu) k.(k_locks) k.(k_slocks) k.(k_procs) k.(k_initproc) k.(k_nextpid) k.(k_rand) k.(k_mem)
    k.(k_ticks) k.(k_bcache) k.(k_log) k.(k_sb) k.(k_disk) k.(k_itable) k.(k_ftable) k.(k_pipes) k.(k_cons)
    k.(k_uart) x k.(k_csr)
    k.(k_kpgtbl) k.(k_first).
Definition set_csr (x : csrs) (k : kernel) : kernel :=
  mkkernel k.(k_cpu) k.(k_locks) k.(k_slocks) k.(k_procs) k.(k_initproc) k.(k_nextpid) k.(k_rand) k.(k_mem)
    k.(k_ticks) k.(k_bcache) k.(k_log) k.(k_sb) k.(k_disk) k.(k_itable) k.(k_ftable) k.(k_pipes) k.(k_cons)
    k.(k_uart) k.(k_counts) x k.(k_kpgtbl) k.(k_first).
Definition set_kpgtbl (x : Z) (k : kernel) : kernel :=
  mkkernel k.(k_cpu) k.(k_locks) k.(k_slocks) k.(k_procs) k.(k_initproc) k.(k_nextpid) k.(k_rand) k.(k_mem)
    k.(k_ticks) k.(k_bcache) k.(k_log) k.(k_sb) k.(k_disk) k.(k_itable) k.(k_ftable) k.(k_pipes) k.(k_cons)
    k.(k_uart) k.(k_counts) k.(k_csr) x k.(k_first).
Definition set_first (x : bool) (k : kernel) : kernel :=
  mkkernel k.(k_cpu) k.(k_locks) k.(k_slocks) k.(k_procs) k.(k_initproc) k.(k_nextpid) k.(k_rand) k.(k_mem)
    k.(k_ticks) k.(k_bcache) k.(k_log) k.(k_sb) k.(k_disk) k.(k_itable) k.(k_ftable) k.(k_pipes) k.(k_cons)
    k.(k_uart) k.(k_counts) k.(k_csr) k.(k_kpgtbl) x.

#[global] Instance kernel_mem : Lens kernel kmem.
Proof. refine {| lget := k_mem; lput := set_mem |}; intros; by destruct s. Defined.

(** ** The zeroed .bss at boot, with the initialised data *)

Definition zero_buf : buf := mkbuf false false 0 0 0 0 0 (fun _ => 0).
Definition zero_inode : inode := mkinode 0 0 0 false 0 0 0 0 0 (replicate 13 0).
Definition zero_file : file := mkfile FD_NONE 0 false false 0 None 0 0.
#[global] Instance buf_inhabited : Inhabited buf := populate zero_buf.
#[global] Instance inode_inhabited : Inhabited inode := populate zero_inode.
#[global] Instance file_inhabited : Inhabited file := populate zero_file.

Definition zero_kernel : kernel :=
  mkkernel (mkcpu None 0 false false 0) ∅ ∅ (replicate NPROC zero_proc) None 1 1
    (mkkmem (fun _ => 0) 0) 0 (replicate (S NBUF) zero_buf) (mklog 0 0 false 0 0 (replicate 30 0))
    (mksb 0 0 0 0 0 0 0 0) (mkdisk (fun _ _ => 0) []) (replicate NINODE zero_inode) (replicate NFILE zero_file) ∅
    (mkcons (replicate 128 0) 0 0 0) (mkuart false [] [] true) (replicate 25 0)
    (mkcsrs false false 0 0 0 0 0 0 0 0) 0 true.
