(* ===== verification/Spinlock.v ===== *)
(** * Spin locks (kernel/spinlock.c)

    Two models.  The first is the algorithm: any number of harts, interleaved one
    memory access at a time, running [acquire] and [release] on one lock.  It is
    proved to give mutual exclusion and never to reach the panics of
    [acquire] and [release].

    The second is what the rest of the kernel calls: [push_off], [pop_off],
    [holding], [acquire] and [release] on the state of one hart.  By mutual
    exclusion a critical section is run as one transition; [acquire] of a lock
    another hart holds spins, which the model answers with [NoFuel]. *)

From S2P Require Import Prelude Types Mem Layout Kalloc State.
From Stdlib Require Import ZArith Lia.
From stdpp Require Import base list numbers strings gmap relations.
Open Scope Z_scope.

(** ** The algorithm, one memory access at a time *)

Module Smp.

(** struct spinlock, its name apart. *)
Record spinlock := mkspinlock { locked : bool; holder : option nat }.

(** Where a hart is in the code.  [holding] makes two reads: [lk->locked], then
    [lk->cpu]. *)
Inductive pc :=
  | Idle        (* outside, or spinlock.c:24 with interrupts off *)
  | AcqCheck    (* holding() in acquire has read lk->locked as 1 *)
  | Spin        (* before the atomic swap of line 32 *)
  | Got         (* after the swap returned 0, before line 42 *)
  | Crit        (* acquire returned *)
  | RelCheck    (* holding() in release has read lk->locked as 1 *)
  | Clearing    (* before line 52 *)
  | Releasing   (* before the atomic store of line 69 *)
  | Panicked.   (* panic(acquire) or panic(release) *)

Record state := mkstate { lk : spinlock; pcs : nat -> pc }.

Definition goto (h : nat) (x : pc) (f : nat -> pc) : nat -> pc :=
  fun h' => if decide (h' = h) then x else f h'.

(** One memory access of hart [h]. *)
Inductive step (h : nat) : state -> state -> Prop :=
  | acq_unlocked s : s.(pcs) h = Idle -> s.(lk).(locked) = false ->
      step h s (mkstate s.(lk) (goto h Spin s.(pcs)))
  | acq_locked s : s.(pcs) h = Idle -> s.(lk).(locked) = true ->
      step h s (mkstate s.(lk) (goto h AcqCheck s.(pcs)))
  | acq_check s : s.(pcs) h = AcqCheck ->
      step h s (mkstate s.(lk) (goto h (if decide (s.(lk).(holder) = Some h) then Panicked else Spin) s.(pcs)))
  | swap s : s.(pcs) h = Spin ->
      step h s (mkstate (mkspinlock true s.(lk).(holder))
                  (goto h (if s.(lk).(locked) then Spin else Got) s.(pcs)))
  | set_holder s : s.(pcs) h = Got ->
      step h s (mkstate (mkspinlock s.(lk).(locked) (Some h)) (goto h Crit s.(pcs)))
  | rel_locked s : s.(pcs) h = Crit ->
      step h s (mkstate s.(lk) (goto h (if s.(lk).(locked) then RelCheck else Panicked) s.(pcs)))
  | rel_check s : s.(pcs) h = RelCheck ->
      step h s (mkstate s.(lk) (goto h (if decide (s.(lk).(holder) = Some h) then Clearing else Panicked) s.(pcs)))
  | clear_holder s : s.(pcs) h = Clearing ->
      step h s (mkstate (mkspinlock s.(lk).(locked) None) (goto h Releasing s.(pcs)))
  | unlock s : s.(pcs) h = Releasing ->
      step h s (mkstate (mkspinlock false s.(lk).(holder)) (goto h Idle s.(pcs))).

Definition step_any (s s' : state) : Prop := exists h, step h s s'.

(** initlock: unlocked, held by nobody, every hart outside. *)
Definition initlock : state := mkstate (mkspinlock false None) (fun _ => Idle).

(** Between the swap that returned 0 and the store that releases. *)
Definition inside (x : pc) : bool :=
  match x with Got | Crit | RelCheck | Clearing | Releasing => true | _ => false end.
(** Where [lk->cpu] is this hart's. *)
Definition named (x : pc) : bool :=
  match x with Crit | RelCheck | Clearing => true | _ => false end.

Record inv (s : state) : Prop := {
  inv_excl : forall h h', inside (s.(pcs) h) = true -> inside (s.(pcs) h') = true -> h = h';
  inv_locked : s.(lk).(locked) = true <-> exists h, inside (s.(pcs) h) = true;
  inv_holder : forall h, s.(lk).(holder) = Some h <-> named (s.(pcs) h) = true;
  inv_panic : forall h, s.(pcs) h ≠ Panicked
}.

Lemma goto_eq h x f : goto h x f h = x.
Proof. unfold goto. by rewrite decide_True. Qed.
Lemma goto_ne h x f h' : h' ≠ h -> goto h x f h' = f h'.
Proof. intros. unfold goto. by rewrite decide_False. Qed.

Lemma named_inside x : named x = true -> inside x = true.
Proof. by destruct x. Qed.

(** A step that stays on the same side of the lock and of [lk->cpu] keeps the
    invariant when it leaves the lock alone. *)
Lemma inv_move s h x :
  inv s -> inside x = inside (s.(pcs) h) -> named x = named (s.(pcs) h) -> x ≠ Panicked ->
  inv (mkstate s.(lk) (goto h x s.(pcs))).
Proof.
  intros [He Hl Hh Hp] Hi Hn Hx.
  assert (Hg : forall h', inside (goto h x (pcs s) h') = inside (pcs s h') /\
                          named (goto h x (pcs s) h') = named (pcs s h')).
  { intros h'. destruct (decide (h' = h)) as [->|]; [by rewrite goto_eq|by rewrite goto_ne]. }
  constructor; simpl.
  - intros h1 h2. rewrite !(proj1 (Hg _)). apply He.
  - rewrite Hl. split; intros [h' H]; exists h'; [by rewrite (proj1 (Hg h'))|by rewrite (proj1 (Hg h')) in H].
  - intros h'. rewrite (proj2 (Hg h')). apply Hh.
  - intros h'. destruct (decide (h' = h)) as [->|]; [by rewrite goto_eq|by rewrite goto_ne].
Qed.

Lemma inv_init : inv initlock.
Proof. constructor; simpl; try done. split; [done|]. by intros []. Qed.

Lemma inv_step h s s' : step h s s' -> inv s -> inv s'.
Proof.
  intros Hs Hinv. pose proof Hinv as [He Hl Hh Hp]. destruct Hs as
    [s Hpc Hk|s Hpc Hk|s Hpc|s Hpc|s Hpc|s Hpc|s Hpc|s Hpc|s Hpc].
  - apply inv_move; rewrite ?Hpc; auto.
  - apply inv_move; rewrite ?Hpc; auto.
  - rewrite decide_False; [apply inv_move; rewrite ?Hpc; auto|]. rewrite Hh, Hpc. done.
  - destruct (locked (lk s)) eqn:Ek.
    + replace (mkspinlock true (holder (lk s))) with (lk s) by (destruct (lk s); simpl in *; congruence).
      apply inv_move; rewrite ?Hpc; auto.
    + assert (Hout : forall h', inside (pcs s h') = false).
      { intros h'. destruct (inside (pcs s h')) eqn:E; [|done].
        assert (false = true); [|done]. apply Hl. eauto. }
      constructor; simpl.
      * intros h1 h2. destruct (decide (h1 = h)) as [->|], (decide (h2 = h)) as [->|];
          rewrite ?goto_eq, ?goto_ne by done; try rewrite Hout; done.
      * split; [|done]. exists h. by rewrite goto_eq.
      * intros h'. rewrite Hh. destruct (decide (h' = h)) as [->|]; [rewrite goto_eq, Hpc|rewrite goto_ne]; done.
      * intros h'. destruct (decide (h' = h)) as [->|]; [by rewrite goto_eq|by rewrite goto_ne].
  - assert (Hin : inside (pcs s h) = true) by (by rewrite Hpc).
    constructor; simpl.
    + intros h1 h2. destruct (decide (h1 = h)) as [->|], (decide (h2 = h)) as [->|];
        rewrite ?goto_eq, ?goto_ne by done; auto.
    + rewrite Hl. split; [|eauto]. intros _. exists h. by rewrite goto_eq.
    + intros h'. destruct (decide (h' = h)) as [->|]; [rewrite goto_eq; done|rewrite goto_ne by done].
      split; [congruence|]. intros Hn%named_inside. by rewrite (He h' h Hn Hin) in *.
    + intros h'. destruct (decide (h' = h)) as [->|]; [by rewrite goto_eq|by rewrite goto_ne].
  - assert (Ek : locked (lk s) = true) by (apply Hl; exists h; by rewrite Hpc).
    rewrite Ek. apply inv_move; rewrite ?Hpc; auto.
  - rewrite decide_True by (apply Hh; by rewrite Hpc). apply inv_move; rewrite ?Hpc; auto.
  - assert (Hin : inside (pcs s h) = true) by (by rewrite Hpc).
    constructor; simpl.
    + intros h1 h2. destruct (decide (h1 = h)) as [->|], (decide (h2 = h)) as [->|];
        rewrite ?goto_eq, ?goto_ne by done; auto.
    + rewrite Hl. split; [|eauto]. intros _. exists h. by rewrite goto_eq.
    + intros h'. split; [done|]. destruct (decide (h' = h)) as [->|]; [by rewrite goto_eq|rewrite goto_ne by done].
      intros Hn%named_inside. by rewrite (He h' h Hn Hin) in *.
    + intros h'. destruct (decide (h' = h)) as [->|]; [by rewrite goto_eq|by rewrite goto_ne].
  - assert (Hout : forall h', h' ≠ h -> inside (pcs s h') = false).
    { intros h' Hne. destruct (inside (pcs s h')) eqn:E; [|done].
      destruct Hne. apply He; [done|by rewrite Hpc]. }
    assert (Hin : forall h', inside (goto h Idle (pcs s) h') = false).
    { intros h'. destruct (decide (h' = h)) as [->|]; [by rewrite goto_eq|rewrite goto_ne by done; by apply Hout]. }
    constructor; simpl.
    + intros h1 h2. by rewrite Hin.
    + split; [done|]. intros [h' H]. by rewrite Hin in H.
    + intros h'. rewrite Hh. destruct (decide (h' = h)) as [->|]; [rewrite goto_eq, Hpc|rewrite goto_ne]; done.
    + intros h'. destruct (decide (h' = h)) as [->|]; [by rewrite goto_eq|by rewrite goto_ne].
Qed.

Lemma inv_reachable s : rtc step_any initlock s -> inv s.
Proof.
  intros H. assert (Hi : inv initlock) by apply inv_init. revert Hi.
  induction H as [|s1 s2 s3 [h Hs] _ IH]; [done|]. intros Hi. by apply IH, (inv_step h s1 s2).
Qed.
End Smp.

(** C33. Mutual exclusion.  However the memory accesses of any number of harts
    are interleaved, at most one hart is between its [acquire] and the end of
    its [release], and neither panic(acquire) nor panic(release) is ever
    reached: the unsynchronised reads of [holding] answer correctly. *)
Theorem spinlock_mutual_exclusion s :
  rtc Smp.step_any Smp.initlock s ->
  (forall h h', s.(Smp.pcs) h = Smp.Crit -> Smp.inside (s.(Smp.pcs) h') = true -> h = h') /\
  (forall h, s.(Smp.pcs) h ≠ Smp.Panicked) /\
  (forall h, s.(Smp.lk).(Smp.locked) = true /\ s.(Smp.lk).(Smp.holder) = Some h <->
             Smp.named (s.(Smp.pcs) h) = true).
Proof.
  intros H%Smp.inv_reachable. split; [|split].
  - intros h h' Hc. apply (Smp.inv_excl _ H). by rewrite Hc.
  - apply H.
  - intros h. rewrite (Smp.inv_holder _ H). split; [tauto|]. intros Hn. split; [|done].
    apply (Smp.inv_locked _ H). exists h. by apply Smp.named_inside.
Qed.

(** Hart 0 holds the lock while hart 1 is about to spin. *)
Definition smp_demo : Smp.state :=
  Smp.mkstate (Smp.mkspinlock true (Some 0%nat))
    (Smp.goto 1 Smp.AcqCheck (Smp.goto 0 Smp.Crit (Smp.goto 0 Smp.Got (Smp.goto 0 Smp.Spin (fun _ => Smp.Idle))))).

Lemma spinlock_mutual_exclusion_witness :
  (forall h h', smp_demo.(Smp.pcs) h = Smp.Crit -> Smp.inside (smp_demo.(Smp.pcs) h') = true -> h = h') /\
  (forall h, smp_demo.(Smp.pcs) h ≠ Smp.Panicked) /\
  (forall h, smp_demo.(Smp.lk).(Smp.locked) = true /\ smp_demo.(Smp.lk).(Smp.holder) = Some h <->
             Smp.named (smp_demo.(Smp.pcs) h) = true).
Proof.
  apply (spinlock_mutual_exclusion smp_demo).
  eapply rtc_l; [exists 0%nat; by apply Smp.acq_unlocked|].
  eapply rtc_l; [exists 0%nat; by apply Smp.swap|].
  eapply rtc_l; [exists 0%nat; by apply Smp.set_holder|].
  eapply rtc_l; [exists 1%nat; by apply Smp.acq_locked|]. apply rtc_refl.
Defined.

(** ** What the kernel calls *)

Definition intr_get : M kernel bool := gets (fun k => k.(k_cpu).(c_sie)).
Definition intr_on : M kernel unit := modify (fun k => set_cpu (set_sie true k.(k_cpu)) k).
Definition intr_off : M kernel unit := modify (fun k => set_cpu (set_sie false k.(k_cpu)) k).
Definition mycpu : M kernel cpu := gets k_cpu.

Definition push_off : M kernel unit :=
  old ← intr_get;
  intr_off ;;
  c ← mycpu;
  (if c.(c_noff) =? 0 then modify (fun k => set_cpu (set_intena old k.(k_cpu)) k) else mret tt) ;;
  modify (fun k => set_cpu (set_noff (k.(k_cpu).(c_noff) + 1) k.(k_cpu)) k).

Definition pop_off : M kernel unit :=
  i ← intr_get;
  if i : bool then panic "pop_off - interruptible"
  else
    c ← mycpu;
    if c.(c_noff) <? 1 then panic "pop_off"
    else
      modify (fun k => set_cpu (set_noff (k.(k_cpu).(c_noff) - 1) k.(k_cpu)) k) ;;
      c ← mycpu;
      if (c.(c_noff) =? 0) && c.(c_intena) then intr_on else mret tt.

Definition initlock (lk : lockid) : M kernel unit :=
  modify (fun k => set_locks (delete lk k.(k_locks)) k).

Definition holding (lk : lockid) : M kernel bool :=
  gets (fun k => bool_decide (k.(k_locks) !! lk = Some k.(k_cpu).(c_id))).

Definition acquire (lk : lockid) : M kernel unit :=
  push_off ;;
  h ← holding lk;
  if h : bool then panic "acquire"
  else
    o ← gets (fun k => k.(k_locks) !! lk);
    match o with
    | Some _ => nofuel  (* another hart has it: spin *)
    | None => modify (fun k => set_locks (<[lk := k.(k_cpu).(c_id)]> k.(k_locks)) k)
    end.

Definition release (lk : lockid) : M kernel unit :=
  h ← holding lk;
  if negb h then panic "release"
  else
    modify (fun k => set_locks (delete lk k.(k_locks)) k) ;;
    pop_off.

(** *** The interrupt state around a critical section *)

(** Interrupts are off while [noff] is positive. *)
Definition cpu_ok (c : cpu) : Prop := 0 <= c.(c_noff) /\ (0 < c.(c_noff) -> c.(c_sie) = false).

Definition pushed (c : cpu) : cpu :=
  mkcpu c.(c_proc) (c.(c_noff) + 1) (if c.(c_noff) =? 0 then c.(c_sie) else c.(c_intena)) false c.(c_id).

(** A balanced [push_off] and [pop_off] leave [intena] as the only trace. *)
Definition settle (c : cpu) : cpu :=
  mkcpu c.(c_proc) c.(c_noff) (if c.(c_noff) =? 0 then c.(c_sie) else c.(c_intena)) c.(c_sie) c.(c_id).

Lemma settle_idemp c : settle (settle c) = settle c.
Proof. unfold settle. simpl. by destruct (c_noff c =? 0). Qed.
Lemma pushed_settle c : pushed (settle c) = pushed c.
Proof. unfold settle, pushed. simpl. by destruct (c_noff c =? 0). Qed.
Lemma settle_ok c : cpu_ok c -> cpu_ok (settle c).
Proof. done. Qed.
Lemma pushed_ok c : cpu_ok c -> cpu_ok (pushed c).
Proof. intros [H _]. split; simpl; [lia|done]. Qed.
#[export] Hint Resolve settle_ok pushed_ok : core.

Lemma push_off_eq k : push_off k = Ok tt (set_cpu (pushed k.(k_cpu)) k).
Proof.
  unfold push_off, intr_get, intr_off, mycpu. mstep. simpl.
  destruct (c_noff (k_cpu k) =? 0) eqn:E; mstep; unfold modify, pushed; simpl; by rewrite E.
Qed.

Lemma pop_off_pushed k c :
  cpu_ok c -> k.(k_cpu) = pushed c -> pop_off k = Ok tt (set_cpu (settle c) k).
Proof.
  destruct k, c as [pr n ie si hid]. intros [H0 H1]. simpl in *. intros ->.
  unfold pop_off, intr_get, intr_on, mycpu, pushed, settle, set_noff. mstep. simpl.
  assert (Hlt : (n + 1 <? 1) = false) by (apply Z.ltb_ge; lia). mstep. simpl. rewrite Hlt. mstep.
  simpl. rewrite !Z.add_simpl_r. destruct (Z.eqb_spec n 0) as [->|]; simpl; [by destruct si|].
  by rewrite H1 by lia.
Qed.

Lemma acquire_eq k lk :
  k.(k_locks) !! lk = None ->
  acquire lk k =
    Ok tt (set_locks (<[lk := k.(k_cpu).(c_id)]> k.(k_locks)) (set_cpu (pushed k.(k_cpu)) k)).
Proof.
  intros Hf. unfold acquire. rewrite (bind_ok _ _ _ _ _ (push_off_eq k)). unfold holding. mstep.
  simpl. rewrite Hf. rewrite bool_decide_false by done. mstep. simpl. by rewrite Hf.
Qed.

Lemma acquire_twice k lk :
  k.(k_locks) !! lk = Some k.(k_cpu).(c_id) -> acquire lk k = Panic "acquire".
Proof.
  intros Hf. unfold acquire. rewrite (bind_ok _ _ _ _ _ (push_off_eq k)). unfold holding. mstep.
  simpl. by rewrite bool_decide_true.
Qed.

Lemma release_eq k lk c :
  cpu_ok c -> k.(k_cpu) = pushed c -> k.(k_locks) !! lk = Some c.(c_id) ->
  release lk k = Ok tt (set_cpu (settle c) (set_locks (delete lk k.(k_locks)) k)).
Proof.
  intros Hc E Hl. unfold release, holding. mstep. rewrite E. simpl.
  rewrite bool_decide_true by done. mstep. by apply pop_off_pushed.
Qed.

Lemma release_not_held k lk :
  k.(k_locks) !! lk ≠ Some k.(k_cpu).(c_id) -> release lk k = Panic "release".
Proof. intros H. unfold release, holding. mstep. by rewrite bool_decide_false. Qed.

(** *** Critical sections *)

Definition enter (lk : lockid) (k : kernel) : kernel :=
  set_locks (<[lk := k.(k_cpu).(c_id)]> k.(k_locks)) (set_cpu (pushed k.(k_cpu)) k).

Definition settled (k : kernel) : kernel := set_cpu (settle k.(k_cpu)) k.

(** [k'] with the locks and interrupt state of [k], settled. *)
Definition leave (k k' : kernel) : kernel := set_locks k.(k_locks) (set_cpu (settle k.(k_cpu)) k').

Lemma leave_enter lk k : leave k (enter lk k) = settled k.
Proof. by destruct k. Qed.

(** A body that returns with the locks and interrupt state it was entered with. *)
Definition same_locks (k k' : kernel) : Prop := k'.(k_locks) = k.(k_locks) /\ k'.(k_cpu) = k.(k_cpu).

Lemma critical {A B} lk (body : M kernel A) (f : A -> M kernel B) k a k' :
  cpu_ok k.(k_cpu) -> k.(k_locks) !! lk = None ->
  body (enter lk k) = Ok a k' -> same_locks (enter lk k) k' ->
  (acquire lk ;; x ← body; release lk ;; f x) k = f a (leave k k').
Proof.
  intros Hc Hf Hb [Hl Hk]. rewrite (bind_ok _ _ _ _ _ (acquire_eq k lk Hf)). fold (enter lk k).
  rewrite (bind_ok _ _ _ _ _ Hb).
  erewrite bind_ok; [|apply (release_eq k' lk (k_cpu k)); auto].
  - rewrite Hl. simpl. unfold leave. rewrite delete_insert_id by done. done.
  - rewrite Hl. simpl. by rewrite lookup_insert_eq.
Qed.
