(* ===== verification/Printf.v ===== *)
(** * Console output (kernel/printf.c, consputc of console.c, uartputc_sync of uart.c)

    The bytes printed go to the UART's transmit register: [u_out] is what was
    written there, the last byte first.  The transmitter is taken to be
    ready, so the wait loop of [uartputc_sync] does not turn; a [panic] stops the
    machine, so [panicking] and [panicked] are 0 in running code. *)

From S2P Require Import Prelude Types Mem Layout Kalloc State Spinlock.
From Stdlib Require Import ZArith Lia Ascii.
From stdpp Require Import base list numbers strings gmap.
Open Scope Z_scope.

Definition uartputc_sync (c : Z) : M kernel unit :=
  push_off ;;
  modify (fun k => set_uart (mkuart k.(k_uart).(tx_busy) (u8 c :: k.(k_uart).(u_out)) k.(k_uart).(u_in) k.(k_uart).(u_idle)) k) ;;
  pop_off.

Definition BACKSPACE : Z := 0x100.

Definition consputc (c : Z) : M kernel unit :=
  if c =? BACKSPACE then uartputc_sync 8 ;; uartputc_sync 32 ;; uartputc_sync 8
  else uartputc_sync c.

Definition digits : list Z := bytes "0123456789abcdef".

(** The do-while loop of [printint]: the digits of [x], least significant first.
    A 64-bit number has at most 64 digits in any base from 2 on. *)
Fixpoint printint_digits (fuel : nat) (x base : Z) : list Z :=
  match fuel with
  | O => []
  | S f =>
      nth (Z.to_nat (x mod base)) digits 0 ::
      (if x / base =? 0 then [] else printint_digits f (x / base) base)
  end.

(** [buf] after the digits and the sign; it is printed from its end. *)
Definition printint_buf (xx base : Z) (sign : bool) : list Z :=
  let neg := sign && (xx <? 0) in
  let x := if neg then u64 (- xx) else u64 xx in
  printint_digits 64 x base ++ (if neg then [45] else []).

Definition printint (xx base : Z) (sign : bool) : M kernel unit :=
  foreach (rev (printint_buf xx base sign)) consputc.

(** The 16 hexadecimal digits of [x], most significant first. *)
Definition printptr (x : Z) : M kernel unit :=
  consputc 48 ;;
  consputc 120 ;;
  foreach (seqZ 0 16) (fun i => consputc (nth (Z.to_nat (Z.shiftr (u64 (Z.shiftl x (4 * i))) 60)) digits 0)).

(** An argument: an integer of any width (its 64-bit register) or a string;
    [None] is a null pointer. *)
Inductive arg := AInt (x : Z) | AStr (s : option (list Z)).

(** va_arg: the next argument, as the type asked for. *)
Definition arg_int (a : list arg) : Z := match a with AInt x :: _ => i32 x | _ => 0 end.
Definition arg_uint (a : list arg) : Z := match a with AInt x :: _ => u32 x | _ => 0 end.
Definition arg_u64 (a : list arg) : Z := match a with AInt x :: _ => u64 x | _ => 0 end.
Definition arg_str (a : list arg) : option (list Z) := match a with AStr s :: _ => s | _ => None end.

(** The loop over the format string; [fmt] is what is left of it. *)
Fixpoint printf_loop (fuel : nat) (fmt : list Z) (ap : list arg) : M kernel unit :=
  match fuel with
  | O => nofuel
  | S f =>
      match fmt with
      | [] => mret tt
      | cx :: fmt1 =>
          if negb (cx =? 37) then consputc cx ;; printf_loop f fmt1 ap
          else
            match fmt1 with
            | [] => mret tt
            | c0 :: fmt2 =>
                let c1 := nth 0 fmt2 0 in
                let c2 := if c1 =? 0 then 0 else nth 1 fmt2 0 in
                if c0 =? 100 (* d *) then printint (arg_int ap) 10 true ;; printf_loop f fmt2 (tl ap)
                else if (c0 =? 108) && (c1 =? 100) (* ld *) then
                  printint (i64 (arg_u64 ap)) 10 true ;; printf_loop f (drop 1 fmt2) (tl ap)
                else if (c0 =? 108) && (c1 =? 108) && (c2 =? 100) (* lld *) then
                  printint (i64 (arg_u64 ap)) 10 true ;; printf_loop f (drop 2 fmt2) (tl ap)
                else if c0 =? 117 (* u *) then printint (arg_uint ap) 10 false ;; printf_loop f fmt2 (tl ap)
                else if (c0 =? 108) && (c1 =? 117) (* lu *) then
                  printint (i64 (arg_u64 ap)) 10 false ;; printf_loop f (drop 1 fmt2) (tl ap)
                else if (c0 =? 108) && (c1 =? 108) && (c2 =? 117) (* llu *) then
                  printint (i64 (arg_u64 ap)) 10 false ;; printf_loop f (drop 2 fmt2) (tl ap)
                else if c0 =? 120 (* x *) then printint (arg_uint ap) 16 false ;; printf_loop f fmt2 (tl ap)
                else if (c0 =? 108) && (c1 =? 120) (* lx *) then
                  printint (i64 (arg_u64 ap)) 16 false ;; printf_loop f (drop 1 fmt2) (tl ap)
                else if (c0 =? 108) && (c1 =? 108) && (c2 =? 120) (* llx *) then
                  printint (i64 (arg_u64 ap)) 16 false ;; printf_loop f (drop 2 fmt2) (tl ap)
                else if c0 =? 112 (* p *) then printptr (arg_u64 ap) ;; printf_loop f fmt2 (tl ap)
                else if c0 =? 99 (* c *) then consputc (arg_uint ap) ;; printf_loop f fmt2 (tl ap)
                else if c0 =? 115 (* s *) then
                  foreach (default (bytes "(null)") (arg_str ap)) consputc ;; printf_loop f fmt2 (tl ap)
                else if c0 =? 37 (* % *) then consputc 37 ;; printf_loop f fmt2 ap
                else consputc 37 ;; consputc c0 ;; printf_loop f fmt2 ap
            end
      end
  end.

Definition printf (fmt : string) (ap : list arg) : M kernel unit :=
  acquire LkPr ;;
  printf_loop (S (length (bytes fmt))) (bytes fmt) ap ;;
  release LkPr.

(** ** Printing changes only the output *)

(** [k] after the bytes [l] were sent, in order. *)
Definition sent (l : list Z) (k : kernel) : kernel :=
  set_uart (mkuart k.(k_uart).(tx_busy) (rev l ++ k.(k_uart).(u_out)) k.(k_uart).(u_in) k.(k_uart).(u_idle)) k.

Lemma uartputc_sync_eq c k :
  cpu_ok k.(k_cpu) -> uartputc_sync c k = Ok tt (settled (sent [u8 c] k)).
Proof.
  intros Hc. unfold uartputc_sync. rewrite (bind_ok _ _ _ _ _ (push_off_eq k)). mstep.
  rewrite (pop_off_pushed _ (k_cpu k)) by done. by destruct k.
Qed.

(** [c] prints the same bytes in every state, and does nothing else. *)
Definition prints (c : M kernel unit) : Prop :=
  exists l, forall k, cpu_ok k.(k_cpu) -> k.(k_cpu).(c_noff) ≠ 0 -> c k = Ok tt (sent l k).

Lemma settled_held k : k.(k_cpu).(c_noff) ≠ 0 -> settled k = k.
Proof.
  destruct k as [[p n ie si hid]]. unfold settled, settle. simpl. intros Hn.
  destruct (Z.eqb_spec n 0); [done|]. reflexivity.
Qed.

Lemma sent_nil k : sent [] k = k.
Proof. destruct k as [? ? ? ? ? ? ? ? ? ? ? ? ? ? ? ? ? []]. reflexivity. Qed.
Lemma sent_app l l' k : sent l' (sent l k) = sent (l ++ l') k.
Proof. destruct k. unfold sent. simpl. rewrite rev_app_distr, app_assoc. reflexivity. Qed.

Lemma prints_ret : prints (mret tt).
Proof. exists []. intros k _ _. by rewrite sent_nil. Qed.
Lemma prints_bind c c' : prints c -> prints c' -> prints (c ;; c').
Proof.
  intros [l Hl] [l' Hl']. exists (l ++ l'). intros k Hc Hn.
  rewrite (bind_ok _ _ _ _ _ (Hl k Hc Hn)), Hl' by done. by rewrite sent_app.
Qed.
Lemma prints_foreach {A} (l : list A) f : (forall x, prints (f x)) -> prints (foreach l f).
Proof. intros Hf. induction l; simpl; [apply prints_ret|by apply prints_bind]. Qed.

Lemma prints_uartputc c : prints (uartputc_sync c).
Proof. exists [u8 c]. intros k Hc Hn. by rewrite uartputc_sync_eq, settled_held. Qed.
Lemma prints_consputc c : prints (consputc c).
Proof.
  unfold consputc. destruct (_ =? _); [|apply prints_uartputc].
  apply prints_bind; [apply prints_uartputc|]. apply prints_bind; apply prints_uartputc.
Qed.
#[local] Hint Resolve prints_ret prints_bind prints_foreach prints_consputc : core.

Lemma prints_printint x b s : prints (printint x b s).
Proof. unfold printint. auto. Qed.
Lemma prints_printptr x : prints (printptr x).
Proof.
  unfold printptr. apply prints_bind; [auto|]. apply prints_bind; [auto|]. apply prints_foreach. auto.
Qed.
Lemma prints_str o : prints (foreach (default (bytes "(null)") o) consputc).
Proof. auto. Qed.
#[local] Hint Resolve prints_printint prints_printptr prints_str : core.
Opaque prints.

Lemma prints_printf_loop fuel fmt ap : (length fmt < fuel)%nat -> prints (printf_loop fuel fmt ap).
Proof.
  revert fmt ap. induction fuel as [|f IH]; intros fmt ap Hf; [lia|]. cbn [printf_loop].
  assert (Hrec : forall n fmt' ap', (n + length fmt' < f)%nat -> prints (printf_loop f (drop n fmt') ap')).
  { intros n fmt' ap' Hn. apply IH. rewrite length_drop. lia. }
  destruct fmt as [|cx [|c0 fmt2]]; cbn [length] in Hf; [auto|..].
  - destruct (negb _); [|auto]. apply prints_bind; [auto|]. apply IH. simpl. lia.
  - destruct (negb _); [apply prints_bind; [auto|]; apply IH; simpl; lia|].
    assert (H0 : forall ap', prints (printf_loop f fmt2 ap')) by (intros; apply IH; lia).
    assert (H1 : forall n ap', (n <= 2)%nat -> prints (printf_loop f (drop n fmt2) ap'))
      by (intros; apply IH; rewrite length_drop; lia).
    repeat (destruct (_ =? _); cbn [andb]; [solve [auto 8]|]);
      repeat (match goal with |- context [if ?b then _ else _] => destruct b end; try solve [auto 8]).
Qed.

Transparent prints.

(** The bytes a call of [printf] prints, read off a run of it. *)
Definition printed (fmt : string) (ap : list arg) : list Z :=
  match printf_loop (S (length (bytes fmt))) (bytes fmt) ap (set_cpu (mkcpu None 1 false false 0) zero_kernel) with
  | Ok _ k => rev k.(k_uart).(u_out)
  | _ => []
  end.

Lemma printf_loop_printed fmt ap k :
  cpu_ok k.(k_cpu) -> k.(k_cpu).(c_noff) ≠ 0 ->
  printf_loop (S (length (bytes fmt))) (bytes fmt) ap k = Ok tt (sent (printed fmt ap) k).
Proof.
  intros Hc Hn. destruct (prints_printf_loop (S (length (bytes fmt))) (bytes fmt) ap ltac:(lia)) as [l Hl].
  rewrite Hl by done. unfold printed. rewrite Hl by (unfold cpu_ok; simpl; auto with lia).
  simpl. by rewrite app_nil_r, rev_involutive.
Qed.
