(* ===== verification/Proc.v ===== *)
(** * Processes (kernel/proc.c)

    The process table operations that do not touch the file system: the
    current process, giving up the CPU ([sched], [yield], [sleep]), [wakeup],
    [kkill], the lottery scheduler, allocation and release of process slots and the
    calls this kernel adds, [ksettickets] and [kgetpinfo].  [kfork], [kexit] and
    [kwait] are in Fork.v.

    [swtch] saves the registers of one thread of control and loads those of
    another: in the model it is the [Swtch] result, whose continuation runs
    when the other side switches back. *)

From S2P Require Import Prelude Types Mem Str Lottery Layout Kalloc Vm State Spinlock.
From Stdlib Require Import ZArith Lia.
From stdpp Require Import base list numbers strings gmap.
Open Scope Z_scope.

#[global] Instance proc_inhabited : Inhabited proc := populate zero_proc.

(** Indices of proc[]: [for(p = proc; p < &proc[NPROC]; p++)]. *)
Definition slots : list nat := seq 0 NPROC.

Definition getp (i : nat) : M kernel proc := gets (fun k => k.(k_procs) !!! i).
Definition modp (i : nat) (f : proc -> proc) : M kernel unit :=
  modify (fun k => set_procs (alter f i k.(k_procs)) k).

Definition myproc : M kernel (option nat) :=
  push_off ;;
  c ← mycpu;
  pop_off ;;
  mret c.(c_proc).

(** myproc() where the code dereferences the result. *)
Definition curproc : M kernel nat :=
  o ← myproc;
  match o with Some i => mret i | None => panic "null pointer" end.

Definition swtch : M kernel unit := fun k => Swtch k (fun k' => Ok tt k').

Definition procinit : M kernel unit :=
  initlock LkPid ;;
  initlock LkWait ;;
  foreach slots (fun i =>
    initlock (LkProc i) ;;
    modp i (set_state UNUSED) ;;
    modp i (set_kstack (KSTACK (Z.of_nat i)))).

Definition allocpid : M kernel Z :=
  acquire LkPid ;;
  pid ← gets k_nextpid;
  modify (fun k => set_nextpid (i32 (k.(k_nextpid) + 1)) k) ;;
  release LkPid ;;
  mret pid.

(** ** Giving up the CPU *)

Definition sched : M kernel unit :=
  p ← curproc;
  h ← holding (LkProc p);
  if negb h then panic "sched p->lock"
  else
    c ← mycpu;
    if negb (c.(c_noff) =? 1) then panic "sched locks"
    else
      pr ← getp p;
      if bool_decide (pr.(p_state) = RUNNING) then panic "sched RUNNING"
      else
        i ← intr_get;
        if i : bool then panic "sched interruptible"
        else
          intena ← gets (fun k => k.(k_cpu).(c_intena));
          swtch ;;
          modify (fun k => set_cpu (set_intena intena k.(k_cpu)) k).

Definition yield : M kernel unit :=
  p ← curproc;
  acquire (LkProc p) ;;
  modp p (set_state RUNNABLE) ;;
  sched ;;
  release (LkProc p).

Definition sleep (chan : option channel) (lk : lockid) : M kernel unit :=
  p ← curproc;
  acquire (LkProc p) ;;
  release lk ;;
  modp p (set_chan chan) ;;
  modp p (set_state SLEEPING) ;;
  sched ;;
  modp p (set_chan None) ;;
  release (LkProc p) ;;
  acquire lk.

(** The body of the loop of [wakeup]. *)
Definition wakeup_one (chan : option channel) (i : nat) : M kernel unit :=
  me ← myproc;
  if bool_decide (me = Some i) then mret tt
  else
    acquire (LkProc i) ;;
    p ← getp i;
    (if bool_decide (p.(p_state) = SLEEPING) && bool_decide (p.(p_chan) = chan)
     then modp i (set_state RUNNABLE) else mret tt) ;;
    release (LkProc i).

Definition wakeup (chan : option channel) : M kernel unit := foreach slots (wakeup_one chan).

(** ** Killing *)

Definition kkill_one (pid : Z) (i : nat) : M kernel (option unit) :=
  acquire (LkProc i) ;;
  p ← getp i;
  if p.(p_pid) =? pid then
    modp i (set_killed 1) ;;
    p ← getp i;
    (if bool_decide (p.(p_state) = SLEEPING) then modp i (set_state RUNNABLE) else mret tt) ;;
    release (LkProc i) ;;
    mret (Some tt)
  else
    release (LkProc i) ;;
    mret None.

Definition kkill (pid : Z) : M kernel Z :=
  r ← search slots (kkill_one pid);
  mret (match r with Some _ => 0 | None => -1 end).

Definition setkilled (i : nat) : M kernel unit :=
  acquire (LkProc i) ;;
  modp i (set_killed 1) ;;
  release (LkProc i).

Definition killed (i : nat) : M kernel bool :=
  acquire (LkProc i) ;;
  p ← getp i;
  release (LkProc i) ;;
  mret (negb (p.(p_killed) =? 0)).

(** ** The scheduler *)

(** First pass: the loop that sums the tickets. *)
Fixpoint count_tickets (l : list nat) (total : Z) : M kernel Z :=
  match l with
  | [] => mret total
  | i :: l' =>
      acquire (LkProc i) ;;
      p ← getp i;
      release (LkProc i) ;;
      count_tickets l' (if runnable p then i32 (total + p.(p_tickets)) else total)
  end.

(** Second pass: whether the winner was found and run. *)
Fixpoint run_winner (winner : Z) (l : list nat) (counter : Z) : M kernel bool :=
  match l with
  | [] => mret false
  | i :: l' =>
      acquire (LkProc i) ;;
      p ← getp i;
      let counter' := if runnable p then i32 (counter + p.(p_tickets)) else counter in
      if runnable p && (winner <? counter') then
        modp i (set_state RUNNING) ;;
        modp i (fun p => set_ticks (i32 (p.(p_ticks) + 1)) p) ;;
        modify (fun k => set_cpu (set_c_proc (Some i) k.(k_cpu)) k) ;;
        swtch ;;
        modify (fun k => set_cpu (set_c_proc None k.(k_cpu)) k) ;;
        release (LkProc i) ;;
        mret true
      else
        release (LkProc i) ;;
        run_winner winner l' counter'
  end.

(** One turn of the [for(;;)] loop on one hart.  Both [wfi]s only wait for an
    interrupt. *)
Definition scheduler_round : M kernel unit :=
  intr_on ;;
  intr_off ;;
  total ← count_tickets slots 0;
  if total =? 0 then mret tt
  else
    modify (fun k => set_rand (rand_next k.(k_rand)) k) ;;
    r ← gets k_rand;
    _ ← run_winner (draw r total) slots 0;
    mret tt.

(** [n] turns of the loop of the scheduler, which never returns. *)
Fixpoint scheduler_loop (n : nat) : M kernel unit :=
  match n with
  | O => mret tt
  | S n => scheduler_round ;; scheduler_loop n
  end.

Definition scheduler (n : nat) : M kernel unit :=
  modify (fun k => set_cpu (set_c_proc None k.(k_cpu)) k) ;;
  scheduler_loop n.

(** ** Tickets *)

Definition ksettickets (number : Z) : M kernel Z :=
  if number <? 1 then mret (-1)
  else
    p ← curproc;
    acquire (LkProc p) ;;
    modp p (set_tickets number) ;;
    release (LkProc p) ;;
    mret 0.

(** pstat.h *)
Record pstat := mkpstat { st_inuse : list Z; st_tickets : list Z; st_pid : list Z; st_ticks : list Z }.

(** [p->state != UNUSED] as the int it is. *)
Definition inuse (p : proc) : Z := if bool_decide (p.(p_state) ≠ UNUSED) then 1 else 0.

Fixpoint kgetpinfo_loop (l : list nat) (st : pstat) : M kernel pstat :=
  match l with
  | [] => mret st
  | i :: l' =>
      acquire (LkProc i) ;;
      p ← getp i;
      release (LkProc i) ;;
      kgetpinfo_loop l'
        (mkpstat (<[i := inuse p]> st.(st_inuse))
                 (<[i := p.(p_tickets)]> st.(st_tickets))
                 (<[i := p.(p_pid)]> st.(st_pid))
                 (<[i := p.(p_ticks)]> st.(st_ticks)))
  end.
(** [st]: the contents of the caller's struct, never null at its only caller. *)
Definition kgetpinfo (st : pstat) : M kernel pstat := kgetpinfo_loop slots st.

(** ** Process slots and user memory *)

Section memory.
Context `{L : KernelLayout}.

Definition freeproc (i : nat) : M kernel unit :=
  p ← getp i;
  (if negb (p.(p_trapframe) =? 0) then zoom (kfree p.(p_trapframe)) else mret tt) ;;
  modp i (set_trapframe 0) ;;
  p ← getp i;
  (if negb (p.(p_pagetable) =? 0) then zoom (proc_freepagetable p.(p_pagetable) p.(p_sz)) else mret tt) ;;
  modp i (set_pagetable 0) ;;
  modp i (set_sz 0) ;;
  modp i (set_pid 0) ;;
  modp i (set_parent None) ;;
  modp i (fun p => set_name (<[0%nat := 0]> p.(p_name)) p) ;;
  modp i (set_chan None) ;;
  modp i (set_killed 0) ;;
  modp i (set_xstate 0) ;;
  modp i (set_state UNUSED).

(** The search loop of [allocproc]: an UNUSED slot, its lock held. *)
Definition allocproc_try (i : nat) : M kernel (option nat) :=
  acquire (LkProc i) ;;
  p ← getp i;
  if bool_decide (p.(p_state) = UNUSED) then mret (Some i)
  else release (LkProc i) ;; mret None.

(** The slot, with its lock held, or [None]. *)
Definition allocproc : M kernel (option nat) :=
  r ← search slots allocproc_try;
  match r with
  | None => mret None
  | Some i =>
      pid ← allocpid;
      modp i (set_pid pid) ;;
      modp i (set_state USED) ;;
      tf ← zoom kalloc;
      modp i (set_trapframe tf) ;;
      if tf =? 0 then
        freeproc i ;; release (LkProc i) ;; mret None
      else
        pt ← zoom (proc_pagetable tf);
        modp i (set_pagetable pt) ;;
        if pt =? 0 then
          freeproc i ;; release (LkProc i) ;; mret None
        else
          p ← getp i;
          modp i (set_context (mkcontext forkret_addr (u64 (p.(p_kstack) + PGSIZE)) 0 0 0 0 0 0 0 0 0 0 0 0)) ;;
          modp i (set_tickets 1) ;;
          modp i (set_ticks 0) ;;
          mret (Some i)
  end.

Definition growproc (n : Z) : M kernel Z :=
  i ← curproc;
  p ← getp i;
  let sz := p.(p_sz) in
  if 0 <? n then
    if TRAPFRAME <? u64 (sz + n) then mret (-1)
    else
      sz' ← zoom (uvmalloc p.(p_pagetable) sz (u64 (sz + n)) PTE_W);
      if sz' =? 0 then mret (-1)
      else modp i (set_sz sz') ;; mret 0
  else if n <? 0 then
    sz' ← zoom (uvmdealloc p.(p_pagetable) sz (u64 (sz + n)));
    modp i (set_sz sz') ;; mret 0
  else modp i (set_sz sz) ;; mret 0.

(** ** Copying to and from the current process or the kernel

    A kernel destination is either a physical page ([KPage]) or a variable of the
    caller ([KVar]), whose contents the caller gets as the bytes copied. *)
Inductive dest := User (va : Z) | KPage (pa : Z) | KVar.

Definition dest_add (d : dest) (n : Z) : dest :=
  match d with User va => User (u64 (va + n)) | KPage pa => KPage (pa + n) | KVar => KVar end.

Definition either_copyout (dst : dest) (src : list Z) : M kernel Z :=
  i ← curproc;
  match dst with
  | User va => p ← getp i; zoom (copyout p.(p_sz) p.(p_pagetable) p.(p_pagetable) va src)
  | KPage pa =>
      modify (fun k => set_mem (mkkmem (write_bytes k.(k_mem).(pm) pa src) k.(k_mem).(freelist)) k) ;;
      mret 0
  | KVar => mret 0
  end.

(** A source: a user address, or the bytes of a kernel variable. *)
Inductive source := SUser (va : Z) | SVar (bs : list Z).

Definition source_add (s : source) (n : Z) : source :=
  match s with SUser va => SUser (u64 (va + n)) | SVar bs => SVar (drop (Z.to_nat n) bs) end.

(** The result and the bytes copied. *)
Definition either_copyin (src : source) (len : Z) : M kernel (Z * list Z) :=
  i ← curproc;
  match src with
  | SUser va => p ← getp i; zoom (copyin p.(p_sz) p.(p_pagetable) p.(p_pagetable) va len)
  | SVar bs => mret (0, take (Z.to_nat len) bs)
  end.
End memory.
