(* ===== verification/ProcSpec.v ===== *)
(** * What the process code does

    Functional specifications of the operations of Proc.v on a hart that is
    in a legal interrupt state ([cpu_ok]) and finds the locks it wants free:
    [wakeup], [kkill], [ksettickets] and [kgetpinfo] as functions on the process
    table, the scheduler as a refinement of the lottery of Lottery.v, and
    the hand-over of p->lock between [sched] and the scheduler. *)

From S2P Require Import Prelude Types Mem Lottery Layout Kalloc Vm State Spinlock Proc.
From Stdlib Require Import ZArith Lia.
From stdpp Require Import base list numbers strings gmap.
Open Scope Z_scope.

(** ** Small steps *)

Lemma settled_idemp k : settled (settled k) = settled k.
Proof. destruct k. unfold settled. simpl. by rewrite settle_idemp. Qed.
Lemma leave_settled k k' : leave (settled k) k' = leave k k'.
Proof. unfold leave, settled. simpl. by rewrite settle_idemp. Qed.
Lemma leave_procs lk k ps : leave k (set_procs ps (enter lk k)) = settled (set_procs ps k).
Proof. by destruct k. Qed.

Lemma myproc_eq k : cpu_ok k.(k_cpu) -> myproc k = Ok k.(k_cpu).(c_proc) (settled k).
Proof.
  intros Hc. unfold myproc. rewrite (bind_ok _ _ _ _ _ (push_off_eq k)). unfold mycpu. mstep.
  erewrite bind_ok; [|by apply (pop_off_pushed _ (k_cpu k))]. by destruct k.
Qed.

Lemma curproc_eq k i : cpu_ok k.(k_cpu) -> k.(k_cpu).(c_proc) = Some i -> curproc k = Ok i (settled k).
Proof. intros Hc Hi. unfold curproc. by rewrite (bind_ok _ _ _ _ _ (myproc_eq k Hc)), Hi. Qed.

(** acquire; a body that only touches the process table; release. *)
Lemma lock_procs {A} lk (body : M kernel A) k a ps :
  cpu_ok k.(k_cpu) -> k.(k_locks) !! lk = None ->
  body (enter lk k) = Ok a (set_procs ps (enter lk k)) ->
  (acquire lk ;; x ← body; release lk ;; mret x) k = Ok a (settled (set_procs ps k)).
Proof.
  intros Hc Hl Hb. rewrite (critical lk body _ k a _ Hc Hl Hb) by done. by rewrite leave_procs.
Qed.

(** Reading one process under its lock. *)
Lemma lock_read {B} i (f : proc -> M kernel B) k :
  cpu_ok k.(k_cpu) -> k.(k_locks) !! LkProc i = None ->
  (acquire (LkProc i) ;; p ← getp i; release (LkProc i) ;; f p) k = f (k.(k_procs) !!! i) (settled k).
Proof.
  intros Hc Hl. rewrite (critical (LkProc i) (getp i) f k (k_procs k !!! i) (enter (LkProc i) k)) by done.
  by rewrite leave_enter.
Qed.

Lemma procs_slots (ps : list proc) : length ps = NPROC -> (fun i => ps !!! i) <$> slots = ps.
Proof.
  intros Hl. unfold slots. rewrite <- Hl. apply list_eq. intros j. rewrite list_lookup_fmap.
  destruct (ps !! j) as [p|] eqn:E.
  - rewrite lookup_seq_lt by (by eapply lookup_lt_Some). simpl. by rewrite (list_lookup_total_correct _ _ _ E).
  - apply lookup_ge_None in E. by rewrite lookup_seq_ge.
Qed.

Definition proc_locks_free (k : kernel) : Prop := forall i, k.(k_locks) !! LkProc i = None.

(** ** The scheduler *)

Lemma count_tickets_eq l total k :
  cpu_ok k.(k_cpu) -> proc_locks_free k ->
  count_tickets l total k =
    Ok (foldl (fun t p => if runnable p then i32 (t + p.(p_tickets)) else t) total
          ((fun i => k.(k_procs) !!! i) <$> l))
       (match l with [] => k | _ => settled k end).
Proof.
  intros Hc Hf. revert total k Hc Hf. induction l as [|i l IH]; intros total k Hc Hf; [done|].
  cbn [count_tickets]. rewrite lock_read by auto. rewrite IH by auto. cbn [fmap list_fmap foldl].
  f_equal. destruct l; [done|]. apply settled_idemp.
Qed.

(** The state in which the scheduler switches to process [i]. *)
Definition dispatched (i : nat) (k : kernel) : kernel :=
  set_cpu (set_c_proc (Some i) (pushed k.(k_cpu)))
    (set_locks (<[LkProc i := k.(k_cpu).(c_id)]> k.(k_locks))
      (set_procs (alter (fun p => set_ticks (i32 (p.(p_ticks) + 1)) p) i
                    (alter (set_state RUNNING) i k.(k_procs))) k)).

(** What the scheduler does when the process switches back. *)
Definition resume_scheduler (i : nat) : M kernel bool :=
  modify (fun k => set_cpu (set_c_proc None k.(k_cpu)) k) ;;
  release (LkProc i) ;;
  mret true.

Lemma dispatched_settled i k : dispatched i (settled k) = dispatched i k.
Proof. unfold dispatched, settled. simpl. by rewrite pushed_settle. Qed.

Lemma run_winner_eq winner n s counter k :
  cpu_ok k.(k_cpu) -> proc_locks_free k ->
  run_winner winner (seq s n) counter k =
    match pick_from winner counter s ((fun i => k.(k_procs) !!! i) <$> seq s n) with
    | None => Ok false (match n with O => k | _ => settled k end)
    | Some i => Swtch (dispatched i k) (fun k' => resume_scheduler i k')
    end.
Proof.
  revert s counter k. induction n as [|n IH]; intros s counter k Hc Hf; [done|].
  cbn [seq run_winner fmap list_fmap pick_from]. set (p := k_procs k !!! s).
  set (counter' := if runnable p then i32 (counter + p_tickets p) else counter).
  destruct (runnable p && (winner <? counter')) eqn:E.
  - apply andb_true_iff in E as [Er Ew]. rewrite Er. unfold counter' in Ew. rewrite Er in Ew. rewrite Ew.
    rewrite (bind_ok _ _ _ _ _ (acquire_eq k (LkProc s) (Hf s))). fold (enter (LkProc s) k).
    unfold getp. rewrite bind_gets. change (k_procs (enter (LkProc s) k) !!! s) with p.
    cbn zeta. rewrite Er, Ew. cbn [andb]. unfold modp. mstep. reflexivity.
  - assert (Hskip : run_winner winner (s :: seq (S s) n) counter k =
      run_winner winner (seq (S s) n) counter' (settled k)).
    { cbn [run_winner]. rewrite (bind_ok _ _ _ _ _ (acquire_eq k (LkProc s) (Hf s))).
      fold (enter (LkProc s) k). unfold getp. rewrite bind_gets.
      change (k_procs (enter (LkProc s) k) !!! s) with p. fold counter'. cbn zeta. fold counter'. rewrite E.
      erewrite bind_ok; [|apply (release_eq _ (LkProc s) (k_cpu k)); auto; simpl; by rewrite lookup_insert_eq].
      f_equal. unfold settled. simpl. rewrite delete_insert_id by auto. by destruct k. }
    cbn [run_winner] in Hskip. rewrite Hskip. rewrite IH by auto. cbn [settled set_cpu k_procs].
    replace (if runnable p then _ else _) with
      (pick_from winner counter' (S s) ((fun i => k_procs k !!! i) <$> seq (S s) n)).
    2: { unfold counter' in *. destruct (runnable p); [|done]. simpl in E. by rewrite E. }
    destruct (pick_from _ _ _ _) as [i|]; [by rewrite dispatched_settled|].
    f_equal. destruct n; [done|]. apply settled_idemp.
Qed.

(** C16. The scheduler is a lottery.  A round of the scheduler over free process
    locks computes the total and the draw of [lottery] over the process table,
    and then either idles, with only the generator advanced, or switches to the
    winner, which it has marked RUNNING and charged one tick, holding exactly the
    winner's lock with interrupts off.  When the process switches back, the
    scheduler forgets it and releases that lock. *)
Theorem scheduler_refines_lottery k :
  length k.(k_procs) = NPROC -> k.(k_cpu).(c_noff) = 0 -> proc_locks_free k ->
  let idle r := set_cpu (mkcpu k.(k_cpu).(c_proc) 0 false false k.(k_cpu).(c_id)) (set_rand r k) in
  match lottery k.(k_rand) k.(k_procs) with
  | (r, None) => scheduler_round k = Ok tt (idle r)
  | (r, Some i) => exists K, scheduler_round k = Swtch (dispatched i (idle r)) K /\
      forall k' c, k'.(k_cpu) = pushed c -> cpu_ok c -> k'.(k_locks) !! LkProc i = Some c.(c_id) ->
        K k' = Ok tt (set_cpu (settle (set_c_proc None c)) (set_locks (delete (LkProc i) k'.(k_locks)) k'))
  end.
Proof.
  intros Hlen Hn Hf idle. unfold scheduler_round, intr_on, intr_off. mstep.
  set (k0 := set_cpu _ _). assert (Hc : cpu_ok (k_cpu k0)) by (split; simpl; lia).
  assert (Hp : (fun i => k_procs k0 !!! i) <$> slots = k_procs k) by by apply procs_slots.
  rewrite (bind_ok _ _ _ _ _ (count_tickets_eq slots 0 k0 Hc Hf)), Hp.
  change (foldl _ 0 (k_procs k)) with (total_tickets (k_procs k)).
  assert (Hidle : forall r, settled (set_rand r k0) = idle r)
    by (intros r; unfold settled, settle, idle, k0; simpl; rewrite Hn; by destruct k).
  unfold lottery. set (total := total_tickets (k_procs k)).
  destruct (Z.eqb_spec total 0) as [E|E].
  { rewrite <- Hidle. by destruct k. }
  mstep. cbn [k_rand set_rand settled set_cpu k0].
  set (k1 := set_rand (rand_next (k_rand k)) (settled k0)).
  assert (Hk1 : settled k1 = idle (rand_next (k_rand k))).
  { rewrite <- Hidle. unfold k1, settled. simpl. by rewrite settle_idemp. }
  pose proof (run_winner_eq (draw (rand_next (k_rand k)) total) NPROC 0 0 k1) as Hw.
  fold slots in Hw. change (k_procs k1) with (k_procs k0) in Hw. rewrite Hp in Hw.
  unfold pick. specialize (Hw (settle_ok _ Hc) Hf).
  destruct (pick_from (draw (rand_next (k_rand k)) total) 0 0 (k_procs k)) as [i|].
  - unfold mbind, M_bind. rewrite Hw. cbn [rbind]. rewrite <- Hk1, dispatched_settled. eexists. split; [reflexivity|].
    intros k' c Hk' Hcc Hl. cbn [rbind]. unfold resume_scheduler. mstep.
    erewrite bind_ok; [|apply (release_eq _ (LkProc i) (set_c_proc None c)); simpl; [exact Hcc|by rewrite Hk'|done]].
    simpl. by rewrite Hk'.
  - rewrite (bind_ok _ _ _ _ _ Hw). rewrite <- Hk1. done.
Qed.

(** The table of lottery_demo on hart 2. *)
Definition sched_demo : kernel :=
  set_cpu (mkcpu None 0 false true 2)
    (set_procs (lottery_demo ++ replicate (NPROC - 4) zero_proc) zero_kernel).

Lemma scheduler_refines_lottery_witness :
  let k := sched_demo in
  let idle r := set_cpu (mkcpu None 0 false false 2) (set_rand r k) in
  exists K, scheduler_round k = Swtch (dispatched 2 (idle 1015568748)) K /\
      forall k' c, k'.(k_cpu) = pushed c -> cpu_ok c -> k'.(k_locks) !! LkProc 2 = Some c.(c_id) ->
        K k' = Ok tt (set_cpu (settle (set_c_proc None c)) (set_locks (delete (LkProc 2) k'.(k_locks)) k')).
Proof.
  assert (E : lottery (k_rand sched_demo) (k_procs sched_demo) = (1015568748, Some 2%nat)) by (vm_compute; reflexivity).
  pose proof (scheduler_refines_lottery sched_demo) as H. rewrite E in H. apply H.
  - reflexivity.
  - reflexivity.
  - intros i. reflexivity.
Defined.

(** ** wakeup, kkill, ksettickets *)

(** The table after [wakeup(chan)] by the process [me]. *)
Definition wake (me : option nat) (chan : option channel) (i : nat) (p : proc) : proc :=
  if decide (me ≠ Some i /\ p.(p_state) = SLEEPING /\ p.(p_chan) = chan) then set_state RUNNABLE p else p.

Lemma list_alter_id {A} (f : A -> A) i (l : list A) :
  (forall x, l !! i = Some x -> f x = x) -> alter f i l = l.
Proof.
  intros H. apply list_eq. intros j. destruct (decide (i = j)) as [->|].
  - rewrite list_lookup_alter_eq. destruct (l !! j) eqn:E; [|done]. simpl. by rewrite H.
  - by rewrite list_lookup_alter_ne.
Qed.

Lemma set_procs_same k : set_procs k.(k_procs) k = k.
Proof. by destruct k. Qed.

Lemma wakeup_one_eq chan i k :
  cpu_ok k.(k_cpu) -> (k.(k_cpu).(c_proc) ≠ Some i -> k.(k_locks) !! LkProc i = None) ->
  wakeup_one chan i k = Ok tt (settled (set_procs (alter (wake k.(k_cpu).(c_proc) chan i) i k.(k_procs)) k)).
Proof.
  intros Hc Hf. unfold wakeup_one. rewrite (bind_ok _ _ _ _ _ (myproc_eq k Hc)).
  case_bool_decide as E.
  { rewrite list_alter_id, set_procs_same; [done|]. intros x _. unfold wake. rewrite decide_False; [done|tauto]. }
  assert (Hl : k_locks (settled k) !! LkProc i = None) by auto.
  rewrite (bind_ok _ _ _ _ _ (acquire_eq _ (LkProc i) Hl)). fold (enter (LkProc i) (settled k)).
  unfold getp. rewrite bind_gets. set (p := _ !!! i).
  assert (Hp : forall x, k_procs k !! i = Some x -> p = x)
    by (intros x Hx; unfold p; simpl; by apply list_lookup_total_correct).
  assert (Hend : forall ps, release (LkProc i) (set_procs ps (enter (LkProc i) (settled k))) =
                   Ok tt (settled (set_procs ps k))).
  { intros ps. erewrite release_eq; [| |reflexivity|]; [|by apply settle_ok|simpl; by rewrite lookup_insert_eq].
    f_equal. unfold settled. simpl. rewrite settle_idemp, delete_insert_id by auto. by destruct k. }
  destruct (_ && _) eqn:Eb; unfold modp; mstep.
  - rewrite andb_true_iff, !bool_decide_eq_true in Eb. rewrite Hend. do 3 f_equal.
    apply list_alter_ext; [|done]. intros x Hx. rewrite <- (Hp x Hx). unfold wake. by rewrite decide_True.
  - rewrite <- (set_procs_same (enter (LkProc i) (settled k))) at 1. rewrite Hend. do 2 f_equal. simpl.
    f_equal. symmetry. apply list_alter_id. intros x Hx. rewrite <- (Hp x Hx). unfold wake.
    rewrite decide_False; [done|]. intros (_ & H1 & H2). rewrite !bool_decide_true in Eb by done. done.
Qed.

Lemma foldl_alter_lookup {A} (g : nat -> A -> A) s n (ps : list A) j :
  foldl (fun ps i => alter (g i) i ps) ps (seq s n) !! j =
    if decide (s <= j < s + n)%nat then g j <$> ps !! j else ps !! j.
Proof.
  revert s ps. induction n as [|n IH]; intros s ps; cbn [seq foldl].
  { by rewrite decide_False by lia. }
  rewrite IH. destruct (decide (s = j)) as [->|Hne].
  - rewrite decide_False, decide_True by lia. by rewrite list_lookup_alter_eq.
  - rewrite list_lookup_alter_ne by done. repeat case_decide; try lia; done.
Qed.

Lemma foldl_alter_imap {A} (g : nat -> A -> A) (ps : list A) n :
  length ps = n -> foldl (fun ps i => alter (g i) i ps) ps (seq 0 n) = imap g ps.
Proof.
  intros <-. apply list_eq. intros j. rewrite foldl_alter_lookup, list_lookup_imap.
  case_decide; [done|]. rewrite lookup_ge_None_2 by lia. done.
Qed.

Lemma settled_procs ps k : settled (set_procs ps (settled k)) = settled (set_procs ps k).
Proof. unfold settled. simpl. by rewrite settle_idemp. Qed.

Lemma wakeup_loop chan l k :
  cpu_ok k.(k_cpu) -> (forall i, k.(k_cpu).(c_proc) ≠ Some i -> k.(k_locks) !! LkProc i = None) ->
  foreach l (wakeup_one chan) k =
    Ok tt (match l with [] => k | _ => settled (set_procs
      (foldl (fun ps i => alter (wake k.(k_cpu).(c_proc) chan i) i ps) k.(k_procs) l) k) end).
Proof.
  revert k. induction l as [|i l IH]; intros k Hc Hf; [done|]. cbn [foreach foldl].
  rewrite (bind_ok _ _ _ _ _ (wakeup_one_eq chan i k Hc (Hf i))). rewrite IH by auto.
  f_equal. destruct l; [done|]. cbn [k_procs settled set_cpu set_procs k_cpu settle c_proc].
  rewrite settled_procs. by destruct k.
Qed.

Lemma wakeup_eq chan k :
  cpu_ok k.(k_cpu) -> length k.(k_procs) = NPROC ->
  (forall i, k.(k_cpu).(c_proc) ≠ Some i -> k.(k_locks) !! LkProc i = None) ->
  wakeup chan k = Ok tt (settled (set_procs (imap (wake k.(k_cpu).(c_proc) chan) k.(k_procs)) k)).
Proof.
  intros Hc Hl Hf. unfold wakeup. rewrite wakeup_loop by auto. f_equal.
  change (match slots with [] => k | _ :: _ => ?x end) with x.
  unfold slots. by rewrite foldl_alter_imap.
Qed.

(** What [kkill] does to its victim. *)
Definition kill_proc (p : proc) : proc :=
  if decide (p.(p_state) = SLEEPING) then set_state RUNNABLE (set_killed 1 p) else set_killed 1 p.

Lemma release_enter k lk ps :
  cpu_ok k.(k_cpu) -> k.(k_locks) !! lk = None ->
  release lk (set_procs ps (enter lk k)) = Ok tt (settled (set_procs ps k)).
Proof.
  intros Hc Hl. erewrite release_eq; [|exact Hc|reflexivity|simpl; by rewrite lookup_insert_eq].
  f_equal. unfold settled. simpl. rewrite delete_insert_id by auto. by destruct k.
Qed.

Lemma kkill_one_eq pid i k :
  cpu_ok k.(k_cpu) -> k.(k_locks) !! LkProc i = None -> (i < length k.(k_procs))%nat ->
  kkill_one pid i k =
    if p_pid (k.(k_procs) !!! i) =? pid
    then Ok (Some tt) (settled (set_procs (alter kill_proc i k.(k_procs)) k))
    else Ok None (settled k).
Proof.
  intros Hc Hf Hi. unfold kkill_one. rewrite (bind_ok _ _ _ _ _ (acquire_eq k (LkProc i) Hf)).
  fold (enter (LkProc i) k). unfold getp. rewrite bind_gets. cbn [k_procs enter set_locks set_cpu].
  destruct (p_pid (k_procs k !!! i) =? pid).
  2: { rewrite <- (set_procs_same (enter (LkProc i) k)).
       rewrite (bind_ok _ _ _ _ _ (release_enter k (LkProc i) _ Hc Hf)). cbn [k_procs enter set_locks set_cpu].
       by rewrite set_procs_same. }
  unfold modp. mstep. cbn [k_procs set_procs enter set_locks set_cpu].
  destruct (lookup_lt_is_Some_2 _ _ Hi) as [p Hp].
  rewrite (list_lookup_total_correct (alter (set_killed 1) i (k_procs k)) i (set_killed 1 p))
    by (by rewrite list_lookup_alter_eq, Hp).
  assert (Hgo : forall ps, ps = alter kill_proc i (k_procs k) ->
    (release (LkProc i) ;; mret (Some tt)) (set_procs ps (enter (LkProc i) k)) =
      Ok (Some tt) (settled (set_procs (alter kill_proc i (k_procs k)) k))).
  { intros ps ->. by rewrite (bind_ok _ _ _ _ _ (release_enter k (LkProc i) _ Hc Hf)). }
  case_bool_decide as Es; mstep;
    [apply (Hgo (alter (set_state RUNNABLE) i (alter (set_killed 1) i (k_procs k))))|
     apply (Hgo (alter (set_killed 1) i (k_procs k)))].
  - apply list_eq. intros j. destruct (decide (i = j)) as [<-|]; [|by rewrite !list_lookup_alter_ne].
    rewrite !list_lookup_alter_eq, Hp. simpl. unfold kill_proc. by rewrite decide_True.
  - apply list_alter_ext; [|done]. intros x Hx. rewrite Hp in Hx. simplify_eq.
    unfold kill_proc. by rewrite decide_False.
Qed.

Lemma kkill_search pid n s k :
  cpu_ok k.(k_cpu) -> proc_locks_free k -> (s + n = length k.(k_procs))%nat ->
  search (seq s n) (kkill_one pid) k =
    match list_find (fun p => p.(p_pid) = pid) (drop s k.(k_procs)) with
    | Some (i, _) => Ok (Some tt) (settled (set_procs (alter kill_proc (s + i)%nat k.(k_procs)) k))
    | None => Ok None (match n with O => k | _ => settled k end)
    end.
Proof.
  revert s k. induction n as [|n IH]; intros s k Hc Hf Hn.
  { by rewrite drop_ge by lia. }
  cbn [seq search]. destruct (lookup_lt_is_Some_2 (k_procs k) s ltac:(lia)) as [p Hp].
  rewrite (drop_S _ _ _ Hp). cbn [list_find]. unfold mbind, M_bind.
  rewrite kkill_one_eq by (auto; lia). rewrite (list_lookup_total_correct _ _ _ Hp).
  destruct (Z.eqb_spec (p_pid p) pid) as [E|E].
  - rewrite decide_True by done. cbn [rbind]. unfold mret, M_ret. by rewrite Nat.add_0_r.
  - rewrite decide_False by done. cbn [rbind]. rewrite IH by (auto; simpl; lia).
    cbn [k_procs settled set_cpu]. destruct (list_find _ _) as [[i q]|]; simpl.
    + rewrite <- Nat.add_succ_comm. f_equal. apply settled_procs.
    + f_equal. destruct n; [done|]. apply settled_idemp.
Qed.

(** [kkill] marks the first slot whose pid matches, wakes it if it sleeps, and
    returns 0; it returns -1 and changes nothing when no slot matches. *)
Theorem kkill_first_match pid k :
  cpu_ok k.(k_cpu) -> proc_locks_free k -> length k.(k_procs) = NPROC ->
  kkill pid k =
    match list_find (fun p => p.(p_pid) = pid) k.(k_procs) with
    | Some (i, _) => Ok 0 (settled (set_procs (alter kill_proc i k.(k_procs)) k))
    | None => Ok (-1) (settled k)
    end.
Proof.
  intros Hc Hf Hl. unfold kkill, slots, mbind, M_bind. rewrite kkill_search by (auto; simpl; lia).
  rewrite drop_0. by destruct (list_find _ _) as [[i p]|].
Qed.

(** ** Giving up the CPU *)

Lemma settle_noff c : c.(c_noff) ≠ 0 -> settle c = c.
Proof. destruct c as [pr n ie si hid]. unfold settle. simpl. intros H. by destruct (Z.eqb_spec n 0). Qed.

Lemma settled_noff k : k.(k_cpu).(c_noff) ≠ 0 -> settled k = k.
Proof. intros H. unfold settled. rewrite settle_noff by done. by destruct k. Qed.

Lemma sched_eq k p :
  k.(k_cpu).(c_proc) = Some p -> k.(k_cpu).(c_noff) = 1 -> k.(k_cpu).(c_sie) = false ->
  k.(k_locks) !! LkProc p = Some k.(k_cpu).(c_id) -> p_state (k.(k_procs) !!! p) ≠ RUNNING ->
  sched k = Swtch k (fun k' => Ok tt (set_cpu (set_intena k.(k_cpu).(c_intena) k'.(k_cpu)) k')).
Proof.
  intros Hp Hn Hi Hl Hs. unfold sched.
  assert (Hc : cpu_ok (k_cpu k)) by (split; [lia|done]).
  rewrite (bind_ok _ _ _ _ _ (curproc_eq k p Hc Hp)). rewrite settled_noff by lia.
  unfold holding, mycpu, getp, intr_get. mstep. rewrite bool_decide_true by done. cbn [negb].
  mstep. rewrite Hn. cbn [Z.eqb Pos.eqb negb]. mstep. rewrite bool_decide_false by done. mstep.
  rewrite Hi. mstep. reflexivity.
Qed.

(** The state after process [p], with interrupts [sie] before it took its lock
    on this or another hart, was resumed on hart [c] and released the lock. *)
Definition resumed (p : nat) (sie : bool) (k : kernel) : kernel :=
  set_cpu (mkcpu k.(k_cpu).(c_proc) 0 sie sie k.(k_cpu).(c_id))
    (set_locks (delete (LkProc p) k.(k_locks)) k).

Lemma release_resumed p sie k :
  k.(k_cpu).(c_noff) = 1 -> k.(k_cpu).(c_sie) = false -> k.(k_cpu).(c_intena) = sie ->
  k.(k_locks) !! LkProc p = Some k.(k_cpu).(c_id) ->
  release (LkProc p) k = Ok tt (resumed p sie k).
Proof.
  intros Hn Hi He Hl.
  rewrite (release_eq k (LkProc p) (mkcpu (k_cpu k).(c_proc) 0 (k_cpu k).(c_intena) (k_cpu k).(c_intena) (k_cpu k).(c_id))).
  - unfold resumed. rewrite He. f_equal.
  - by split.
  - unfold pushed. simpl. destruct (k_cpu k). simpl in *. by subst.
  - done.
Qed.

Lemma list_alter_total {A} `{Inhabited A} (f : A -> A) i (l : list A) :
  (i < length l)%nat -> alter f i l !!! i = f (l !!! i).
Proof.
  intros Hi. destruct (lookup_lt_is_Some_2 _ _ Hi) as [x Hx].
  rewrite (list_lookup_total_correct l i x) by done. apply list_lookup_total_correct.
  by rewrite list_lookup_alter_eq, Hx.
Qed.

(** [yield] hands the CPU over and gets it back.  The running process, holding
    no lock, switches to the scheduler in state RUNNABLE holding exactly its
    own lock, so none of the panics of [sched] is reached; the scheduler
    resumed there releases that lock and runs nothing.  When a scheduler, of this or
    any other hart, later dispatches the process, [yield] returns with no
    process lock held and interrupts as they were. *)
Theorem yield_handover k p :
  k.(k_cpu).(c_proc) = Some p -> k.(k_cpu).(c_noff) = 0 ->
  k.(k_locks) !! LkProc p = None -> (p < length k.(k_procs))%nat ->
  exists k1 K, yield k = Swtch k1 K /\
    resume_scheduler p k1 =
      Ok true (set_cpu (settle (set_c_proc None k.(k_cpu)))
                 (set_procs (alter (set_state RUNNABLE) p k.(k_procs)) k)) /\
    (forall k2, k2.(k_cpu).(c_noff) = 0 -> k2.(k_cpu).(c_sie) = false -> k2.(k_locks) !! LkProc p = None ->
       K (dispatched p k2) = Ok tt (resumed p k.(k_cpu).(c_sie) (dispatched p k2))).
Proof.
  intros Hp Hn Hf Hlt. assert (Hc : cpu_ok (k_cpu k)) by (split; lia).
  unfold yield. rewrite (bind_ok _ _ _ _ _ (curproc_eq k p Hc Hp)).
  rewrite (bind_ok _ _ _ _ _ (acquire_eq (settled k) (LkProc p) Hf)).
  fold (enter (LkProc p) (settled k)). unfold modp. mstep. set (k1 := set_procs _ _).
  assert (Es : sched k1 = Swtch k1 (fun k' => Ok tt (set_cpu (set_intena (c_sie (k_cpu k)) (k_cpu k')) k'))).
  { assert (Hie : c_intena (k_cpu k1) = c_sie (k_cpu k)).
    { unfold k1, enter, settled, pushed, settle. cbn [k_cpu set_procs set_locks set_cpu c_noff c_intena c_sie].
      by rewrite Hn. }
    rewrite <- Hie. apply (sched_eq k1 p); unfold k1; cbn [k_procs set_procs];
      [done|simpl; lia|done|simpl; by rewrite lookup_insert_eq|].
    by rewrite list_alter_total. }
  unfold mbind, M_bind. rewrite Es. cbn [rbind]. eexists k1, _. split; [reflexivity|]. split.
  - unfold resume_scheduler. mstep.
    erewrite bind_ok; [|apply (release_eq _ (LkProc p) (set_c_proc None (k_cpu k)));
      [exact Hc| |simpl; by rewrite lookup_insert_eq]].
    2: { unfold k1, enter, settled, pushed, settle, set_c_proc.
         cbn [k_cpu set_procs set_locks set_cpu c_noff c_intena c_sie c_proc c_id]. by rewrite Hn. }
    unfold k1. simpl. rewrite delete_insert_id by done. unfold mret, M_ret. by destruct k.
  - intros k2 Hn2 Hs2 Hf2. cbn [rbind]. erewrite release_resumed; simpl; [|lia|done|done|by rewrite lookup_insert_eq].
    f_equal.
Qed.

Lemma acquire_spins k lk h :
  k.(k_locks) !! lk = Some h -> h ≠ k.(k_cpu).(c_id) -> acquire lk k = NoFuel.
Proof.
  intros Hl Hne. unfold acquire. rewrite (bind_ok _ _ _ _ _ (push_off_eq k)). unfold holding. mstep.
  simpl. rewrite bool_decide_false by congruence. mstep. simpl. by rewrite Hl.
Qed.

(** The state in which [sleep] has given up the CPU: [p] sleeps on [chan], its
    lock is held and [lk] is free. *)
Definition asleep (p : nat) (chan : option channel) (lk : lockid) (k : kernel) : kernel :=
  set_locks (delete lk (<[LkProc p := k.(k_cpu).(c_id)]> k.(k_locks)))
    (set_procs (alter (set_state SLEEPING) p (alter (set_chan chan) p k.(k_procs))) k).

Lemma sleep_eq k p chan lk :
  k.(k_cpu).(c_proc) = Some p -> k.(k_cpu).(c_noff) = 1 -> k.(k_cpu).(c_sie) = false ->
  k.(k_locks) !! LkProc p = None -> k.(k_locks) !! lk = Some k.(k_cpu).(c_id) ->
  (p < length k.(k_procs))%nat ->
  sleep chan lk k = Swtch (asleep p chan lk k) (fun k' =>
    (modp p (set_chan None) ;; release (LkProc p) ;; acquire lk)
      (set_cpu (set_intena k.(k_cpu).(c_intena) k'.(k_cpu)) k')).
Proof.
  intros Hp Hn Hi Hf Hl Hlt. assert (Hc : cpu_ok (k_cpu k)) by (split; [lia|done]).
  assert (Hne : lk ≠ LkProc p) by congruence.
  unfold sleep. rewrite (bind_ok _ _ _ _ _ (curproc_eq k p Hc Hp)), settled_noff by lia.
  rewrite (bind_ok _ _ _ _ _ (acquire_eq k (LkProc p) Hf)).
  erewrite bind_ok; [|apply (release_eq _ lk (k_cpu k)); [done|done|simpl; by rewrite lookup_insert_ne]].
  unfold modp. mstep. rewrite settle_noff by lia.
  set (k1 := set_procs _ _). assert (Ek : k1 = asleep p chan lk k) by (by destruct k).
  assert (Es : sched k1 = Swtch k1 (fun k' => Ok tt (set_cpu (set_intena (c_intena (k_cpu k)) (k_cpu k')) k'))).
  { replace (c_intena (k_cpu k)) with (c_intena (k_cpu k1)) by (by rewrite Ek).
    apply (sched_eq k1 p); rewrite Ek; cbn [k_cpu asleep set_locks set_procs k_locks k_procs]; auto.
    - by rewrite lookup_delete_ne, lookup_insert_eq.
    - rewrite list_alter_total by (by rewrite length_alter). done. }
  unfold mbind, M_bind. rewrite Es, Ek. reflexivity.
Qed.

(** A [wakeup] that comes to the lock of [p] while another hart holds it spins. *)
Lemma wakeup_spins chan p h n s k :
  (s <= p < s + n)%nat -> cpu_ok k.(k_cpu) -> k.(k_cpu).(c_proc) ≠ Some p ->
  k.(k_locks) !! LkProc p = Some h -> h ≠ k.(k_cpu).(c_id) ->
  (forall i, i ≠ p -> k.(k_locks) !! LkProc i = None) ->
  foreach (seq s n) (wakeup_one chan) k = NoFuel.
Proof.
  revert s k. induction n as [|n IH]; intros s k Hs Hc Hcp Hl Hh Hf; [lia|]. cbn [seq foreach].
  destruct (decide (s = p)) as [->|Hne].
  - apply bind_nofuel. unfold wakeup_one. rewrite (bind_ok _ _ _ _ _ (myproc_eq k Hc)).
    rewrite bool_decide_false by done. apply bind_nofuel. by apply (acquire_spins _ _ h).
  - erewrite bind_ok by (apply wakeup_one_eq; auto). apply IH; simpl; auto. lia.
Qed.

Lemma wake_spec me chan procs p x :
  procs !! p = Some x -> me ≠ Some p -> p_state x = SLEEPING -> p_chan x = chan ->
  p_state (imap (wake me chan) procs !!! p) = RUNNABLE.
Proof.
  intros Hx Hm Hs Hc. erewrite list_lookup_total_correct by (rewrite list_lookup_imap, Hx; reflexivity).
  simpl. unfold wake. by rewrite decide_True.
Qed.

Lemma resume_scheduler_eq p k c :
  cpu_ok c -> k.(k_cpu) = pushed c -> k.(k_locks) !! LkProc p = Some c.(c_id) ->
  resume_scheduler p k =
    Ok true (set_cpu (settle (set_c_proc None c)) (set_locks (delete (LkProc p) k.(k_locks)) k)).
Proof.
  intros Hc Hk Hl. unfold resume_scheduler. mstep.
  erewrite bind_ok; [reflexivity|]. rewrite (release_eq _ (LkProc p) (set_c_proc None c)); auto.
  simpl. by rewrite Hk.
Qed.

(** From [sleep] to [wakeup].  Called with only the condition lock [lk] held, [sleep]
    gives up the CPU with the process SLEEPING on [chan], [lk] free and p->lock held.  As long as it is held a [wakeup] from another hart spins on it
    instead of passing the process by; once the scheduler has released it, a
    [wakeup] of [chan] makes the process RUNNABLE.  When it is dispatched
    again, [sleep] returns holding [lk] and no process lock, its channel cleared. *)
Theorem sleep_handover k p chan lk :
  k.(k_cpu).(c_proc) = Some p -> k.(k_cpu).(c_noff) = 1 -> k.(k_cpu).(c_sie) = false ->
  proc_locks_free k -> k.(k_locks) !! lk = Some k.(k_cpu).(c_id) -> length k.(k_procs) = NPROC ->
  (p < NPROC)%nat ->
  exists k1 K, sleep chan lk k = Swtch k1 K /\ k1 = asleep p chan lk k /\
    (forall c, cpu_ok c -> c.(c_proc) ≠ Some p -> c.(c_id) ≠ k.(k_cpu).(c_id) ->
       wakeup chan (set_cpu c k1) = NoFuel) /\
    (forall c, cpu_ok c -> c.(c_proc) ≠ Some p ->
       runs (resume_scheduler p k1) (fun _ k2 =>
         runs (wakeup chan (set_cpu c k2)) (fun _ k3 => p_state (k3.(k_procs) !!! p) = RUNNABLE))) /\
    (forall k2, k2.(k_cpu).(c_noff) = 0 -> k2.(k_cpu).(c_sie) = false -> k2.(k_locks) !! LkProc p = None ->
       k2.(k_locks) !! lk = None ->
       K (dispatched p k2) = Ok tt (enter lk (resumed p k.(k_cpu).(c_intena)
         (set_procs (alter (set_chan None) p (dispatched p k2).(k_procs)) (dispatched p k2))))).
Proof.
  intros Hp Hn Hi Hf Hl Hlen Hlt. assert (Hne : lk ≠ LkProc p) by (specialize (Hf p); congruence).
  assert (Hlt' : (p < length (k_procs k))%nat) by lia.
  eexists _, _. split; [by apply sleep_eq|]. split; [done|]. split; [|split].
  - intros c Hc Hcp Hid. apply (wakeup_spins chan p (c_id (k_cpu k))); simpl; auto; [lia|..].
    + by rewrite lookup_delete_ne, lookup_insert_eq.
    + intros i Hip. destruct (decide (lk = LkProc i)) as [->|]; [apply lookup_delete_eq|].
      rewrite lookup_delete_ne, lookup_insert_ne by congruence. apply Hf.
  - intros c Hc Hcp.
    rewrite (resume_scheduler_eq p _ (mkcpu (Some p) 0 k.(k_cpu).(c_intena) k.(k_cpu).(c_intena) k.(k_cpu).(c_id))).
    + cbn [runs]. rewrite wakeup_eq; cbn [k_cpu set_cpu k_procs set_locks asleep set_procs k_locks]; auto.
      * cbn [runs settled set_cpu set_procs k_procs].
        destruct (lookup_lt_is_Some_2 _ _ Hlt') as [x Hx].
        eapply wake_spec; auto.
        -- rewrite list_lookup_alter_eq, list_lookup_alter_eq, Hx. reflexivity.
        -- done.
        -- done.
      * by rewrite !length_alter.
      * intros i _. destruct (decide (i = p)) as [->|]; [by rewrite lookup_delete_eq|].
        rewrite lookup_delete_ne by congruence. destruct (decide (lk = LkProc i)) as [->|]; [apply lookup_delete_eq|].
        rewrite lookup_delete_ne, lookup_insert_ne by congruence. apply Hf.
    + by split.
    + unfold pushed. simpl. destruct (k_cpu k). simpl in *. by subst.
    + simpl. by rewrite lookup_delete_ne, lookup_insert_eq.
  - intros k2 Hn2 Hs2 Hf2 Hl2. unfold modp. mstep.
    erewrite bind_ok; [|apply (release_resumed p (c_intena (k_cpu k))); simpl; auto; [lia|by rewrite lookup_insert_eq]].
    rewrite acquire_eq; [reflexivity|]. simpl. rewrite delete_insert_id by done. done.
Qed.

(** ** Witnesses: process 1 of lottery_demo running on hart 2 *)

Definition run_demo : kernel := set_cpu (mkcpu (Some 1%nat) 0 false true 2) sched_demo.

Lemma kkill_first_match_witness :
  kkill 0 run_demo = Ok 0 (settled (set_procs (alter kill_proc 0%nat run_demo.(k_procs)) run_demo)).
Proof.
  rewrite (kkill_first_match 0 run_demo).
  - reflexivity.
  - split; [done|]. simpl. lia.
  - intros i. reflexivity.
  - reflexivity.
Defined.

Lemma yield_handover_witness :
  exists k1 K, yield run_demo = Swtch k1 K /\
    resume_scheduler 1 k1 =
      Ok true (set_cpu (settle (set_c_proc None run_demo.(k_cpu)))
                 (set_procs (alter (set_state RUNNABLE) 1%nat run_demo.(k_procs)) run_demo)) /\
    (forall k2, k2.(k_cpu).(c_noff) = 0 -> k2.(k_cpu).(c_sie) = false -> k2.(k_locks) !! LkProc 1 = None ->
       K (dispatched 1 k2) = Ok tt (resumed 1 true (dispatched 1 k2))).
Proof.
  apply (yield_handover run_demo 1).
  - reflexivity.
  - reflexivity.
  - reflexivity.
  - apply Nat.ltb_lt. reflexivity.
Defined.

(** The same process with tickslock held, as in sys_pause. *)
Definition pause_demo : kernel := enter LkTicks run_demo.

Lemma sleep_handover_witness :
  exists k1 K, sleep (Some ChTicks) LkTicks pause_demo = Swtch k1 K /\
    k1 = asleep 1 (Some ChTicks) LkTicks pause_demo /\
    (forall c, cpu_ok c -> c.(c_proc) ≠ Some 1%nat -> c.(c_id) ≠ 2 ->
       wakeup (Some ChTicks) (set_cpu c k1) = NoFuel) /\
    (forall c, cpu_ok c -> c.(c_proc) ≠ Some 1%nat ->
       runs (resume_scheduler 1 k1) (fun _ k2 =>
         runs (wakeup (Some ChTicks) (set_cpu c k2)) (fun _ k3 => p_state (k3.(k_procs) !!! 1%nat) = RUNNABLE))) /\
    (forall k2, k2.(k_cpu).(c_noff) = 0 -> k2.(k_cpu).(c_sie) = false -> k2.(k_locks) !! LkProc 1 = None ->
       k2.(k_locks) !! LkTicks = None ->
       K (dispatched 1 k2) = Ok tt (enter LkTicks (resumed 1 true
         (set_procs (alter (set_chan None) 1%nat (dispatched 1 k2).(k_procs)) (dispatched 1 k2))))).
Proof.
  apply (sleep_handover pause_demo 1 (Some ChTicks) LkTicks).
  - done.
  - done.
  - done.
  - intros i. unfold pause_demo. simpl. by rewrite lookup_insert_ne.
  - unfold pause_demo. simpl. by rewrite lookup_insert_eq.
  - done.
  - apply Nat.ltb_lt. reflexivity.
Defined.

(** ** Tickets *)

Lemma kgetpinfo_loop_eq l st k :
  cpu_ok k.(k_cpu) -> proc_locks_free k ->
  kgetpinfo_loop l st k =
    Ok (foldl (fun st i => let p := k.(k_procs) !!! i in
          mkpstat (<[i := inuse p]> st.(st_inuse))
                  (<[i := p.(p_tickets)]> st.(st_tickets))
                  (<[i := p.(p_pid)]> st.(st_pid))
                  (<[i := p.(p_ticks)]> st.(st_ticks))) st l)
       (match l with [] => k | _ => settled k end).
Proof.
  intros Hc Hf. revert st k Hc Hf. induction l as [|i l IH]; intros st k Hc Hf; [done|].
  cbn [kgetpinfo_loop foldl]. rewrite lock_read by auto. rewrite IH by auto. f_equal.
  destruct l; [done|]. apply settled_idemp.
Qed.

Lemma foldl_insert_slots {A} (f : nat -> A) (l : list A) n s j :
  foldl (fun l i => <[i := f i]> l) l (seq s n) !! j =
    if decide (s <= j < s + n)%nat then (fun _ => f j) <$> l !! j else l !! j.
Proof.
  revert s l. induction n as [|n IH]; intros s l; cbn [seq foldl].
  { by rewrite decide_False by lia. }
  rewrite IH. destruct (decide (s = j)) as [->|Hne].
  - rewrite decide_False, decide_True by lia. destruct (decide (j < length l)%nat) as [Hj|Hj].
    + rewrite list_lookup_insert_eq by done. destruct (lookup_lt_is_Some_2 _ _ Hj) as [x ->]. done.
    + rewrite list_insert_ge, lookup_ge_None_2 by lia. done.
  - rewrite list_lookup_insert_ne by done. repeat case_decide; try lia; done.
Qed.

Lemma foldl_insert_all {A} `{Inhabited B} (f : B -> A) (l : list A) (ps : list B) n :
  length l = n -> length ps = n ->
  foldl (fun l i => <[i := f (ps !!! i)]> l) l (seq 0 n) = f <$> ps.
Proof.
  intros Hl Hp. apply list_eq. intros j. rewrite foldl_insert_slots, list_lookup_fmap.
  case_decide as Hj.
  - destruct (lookup_lt_is_Some_2 l j ltac:(lia)) as [x ->].
    destruct (lookup_lt_is_Some_2 ps j ltac:(lia)) as [y Hy].
    by rewrite Hy, (list_lookup_total_correct _ _ _ Hy).
  - by rewrite !lookup_ge_None_2 by lia.
Qed.

Lemma pstat_fold l (ps : list proc) st :
  foldl (fun st i => let p := ps !!! i in
      mkpstat (<[i := inuse p]> st.(st_inuse))
              (<[i := p.(p_tickets)]> st.(st_tickets))
              (<[i := p.(p_pid)]> st.(st_pid))
              (<[i := p.(p_ticks)]> st.(st_ticks))) st l =
  mkpstat (foldl (fun l i => <[i := inuse (ps !!! i)]> l)
             st.(st_inuse) l)
    (foldl (fun l i => <[i := p_tickets (ps !!! i)]> l) st.(st_tickets) l)
    (foldl (fun l i => <[i := p_pid (ps !!! i)]> l) st.(st_pid) l)
    (foldl (fun l i => <[i := p_ticks (ps !!! i)]> l) st.(st_ticks) l).
Proof. revert st. induction l as [|i l IH]; intros []; [done|]. cbn [foldl]. apply IH. Qed.

(** [kgetpinfo] is a snapshot of the table: slot by slot, whether it is in use, its
    tickets, its pid and its ticks, whatever the buffer held before; the
    process table itself is unchanged. *)
Theorem kgetpinfo_snapshot st k :
  cpu_ok k.(k_cpu) -> proc_locks_free k -> length k.(k_procs) = NPROC ->
  length st.(st_inuse) = NPROC -> length st.(st_tickets) = NPROC ->
  length st.(st_pid) = NPROC -> length st.(st_ticks) = NPROC ->
  kgetpinfo st k =
    Ok (mkpstat (inuse <$> k.(k_procs))
          (p_tickets <$> k.(k_procs)) (p_pid <$> k.(k_procs)) (p_ticks <$> k.(k_procs))) (settled k).
Proof.
  intros Hc Hf Hl H1 H2 H3 H4. unfold kgetpinfo. rewrite kgetpinfo_loop_eq by auto.
  replace (match slots with [] => k | _ :: _ => settled k end) with (settled k) by reflexivity.
  rewrite pstat_fold. unfold slots. generalize dependent NPROC. intros n Hl H1 H2 H3 H4.
  f_equal. f_equal; [|by apply foldl_insert_all..].
  by apply (foldl_insert_all inuse).
Qed.

Definition pstat_demo : pstat :=
  mkpstat (replicate NPROC 7) (replicate NPROC 7) (replicate NPROC 7) (replicate NPROC 7).

Lemma kgetpinfo_snapshot_witness :
  kgetpinfo pstat_demo run_demo =
    Ok (mkpstat (inuse <$> run_demo.(k_procs))
          (p_tickets <$> run_demo.(k_procs)) (p_pid <$> run_demo.(k_procs)) (p_ticks <$> run_demo.(k_procs)))
       (settled run_demo).
Proof.
  apply (kgetpinfo_snapshot pstat_demo run_demo); try reflexivity.
  - split; [done|]. simpl. lia.
  - intros i. reflexivity.
Defined.
