(* ===== verification/Sleeplock.v ===== *)
(** * Sleep locks (kernel/sleeplock.c)

    A sleep lock is its spinlock [LkSleep l] and the entry of [l] in [k_slocks],
    which is present, with the pid of the holder, while lk->locked is 1.

    A waiter may be woken and find the lock taken again, any number of times.
    [wakes] bounds how often a loop around [sleep] goes round: it is a
    parameter of the code that sleeps, and the theorems hold for every value.

    The second half of the file lists the instructions of these functions and of
    [sleep], [wakeup] and [yield], and interleaves them over processes and harts
    (Module [Sleeping]): a process asleep on a sleep lock is never forgotten. *)

From S2P Require Import Prelude Types Mem Layout Kalloc Vm State Spinlock Proc.
From Stdlib Require Import ZArith Lia.
From stdpp Require Import base list numbers strings gmap functions relations.
Open Scope Z_scope.

Class Wakes := wakes : nat.

Definition initsleeplock (l : slid) : M kernel unit :=
  initlock (LkSleep l) ;;
  modify (fun k => set_slocks (delete l k.(k_slocks)) k).

Section sleeplock.
Context `{W : Wakes}.

(** while (lk->locked) sleep(lk, &lk->lk); *)
Fixpoint acquiresleep_wait (fuel : nat) (l : slid) : M kernel unit :=
  o ← gets (fun k => k.(k_slocks) !! l);
  match o with
  | None => mret tt
  | Some _ =>
      match fuel with
      | O => nofuel
      | S f => sleep (Some (ChSleeplock l)) (LkSleep l) ;; acquiresleep_wait f l
      end
  end.

Definition acquiresleep (l : slid) : M kernel unit :=
  acquire (LkSleep l) ;;
  acquiresleep_wait wakes l ;;
  i ← curproc;
  p ← getp i;
  modify (fun k => set_slocks (<[l := p.(p_pid)]> k.(k_slocks)) k) ;;
  release (LkSleep l).
End sleeplock.

Definition releasesleep (l : slid) : M kernel unit :=
  acquire (LkSleep l) ;;
  modify (fun k => set_slocks (delete l k.(k_slocks)) k) ;;
  wakeup (Some (ChSleeplock l)) ;;
  release (LkSleep l).

Definition holdingsleep (l : slid) : M kernel bool :=
  acquire (LkSleep l) ;;
  o ← gets (fun k => k.(k_slocks) !! l);
  r ← match o with
      | None => mret false
      | Some pid => i ← curproc; p ← getp i; mret (pid =? p.(p_pid))
      end;
  release (LkSleep l) ;;
  mret r.

(** ** Sleep and wakeup on several harts

    The code of sleeplock.c, [sleep], [wakeup] and [yield] as lists of instructions, each
    of them atomic: an access under a spin lock.  Any number of processes run jobs made of
    them, on any number of harts and in any interleaving.  [prog] says what an
    instruction list is in the kernel monad. *)

Inductive instr :=
  | Acquire (l : lockid)
  | Release (l : lockid)
  | SetChan (p : nat) (c : option channel)
  | SetState (p : nat) (st : procstate)
  | Sched
  | Wake (p : nat) (c : channel)    (* if(p->state == SLEEPING && p->chan == chan) p->state = RUNNABLE; *)
  | Kill (p : nat)                  (* p->killed = 1; if(p->state == SLEEPING) p->state = RUNNABLE; *)
  | While (l : slid)                (* while (lk->locked) sleep(lk, &lk->lk); *)
  | SetLocked (l : slid) (b : bool).
#[global] Instance instr_eqdec : EqDecision instr.
Proof. solve_decision. Defined.

Definition sleep_code (p : nat) (chan : option channel) (lk : lockid) : list instr :=
  [Acquire (LkProc p); Release lk; SetChan p chan; SetState p SLEEPING; Sched; SetChan p None; Release (LkProc p); Acquire lk].

(** A turn of the loop of [wakeup], and the loop for the process [me]. *)
Definition wake_code (c : channel) (i : nat) : list instr := [Acquire (LkProc i); Wake i c; Release (LkProc i)].
Definition wakeup_code (me : nat) (c : channel) : list instr :=
  concat (map (fun i => if bool_decide (Some me = Some i) then [] else wake_code c i) slots).

Definition yield_code (p : nat) : list instr :=
  [Acquire (LkProc p); SetState p RUNNABLE; Sched; Release (LkProc p)].

Definition acquiresleep_code (l : slid) : list instr :=
  [Acquire (LkSleep l); While l; SetLocked l true; Release (LkSleep l)].
Definition releasesleep_code (me : nat) (l : slid) : list instr :=
  Acquire (LkSleep l) :: SetLocked l false :: wakeup_code me (ChSleeplock l) ++ [Release (LkSleep l)].

(** *** The instructions in the kernel *)

Section prog.
Context `{W : Wakes}.

(** An instruction, then [r]. *)
Definition exec_instr (i : instr) (r : M kernel unit) : M kernel unit :=
  match i with
  | Acquire l => acquire l ;; r
  | Release l => release l ;; r
  | SetChan p c => modp p (set_chan c) ;; r
  | SetState p st => modp p (set_state st) ;; r
  | Sched => sched ;; r
  | Wake i c =>
      p ← getp i;
      (if bool_decide (p.(p_state) = SLEEPING) && bool_decide (p.(p_chan) = Some c)
       then modp i (set_state RUNNABLE) else mret tt) ;; r
  | Kill i =>
      modp i (set_killed 1) ;;
      p ← getp i;
      (if bool_decide (p.(p_state) = SLEEPING) then modp i (set_state RUNNABLE) else mret tt) ;; r
  | While l => acquiresleep_wait wakes l ;; r
  | SetLocked l true =>
      i ← curproc;
      p ← getp i;
      modify (fun k => set_slocks (<[l := p.(p_pid)]> k.(k_slocks)) k) ;; r
  | SetLocked l false => modify (fun k => set_slocks (delete l k.(k_slocks)) k) ;; r
  end.

Fixpoint prog (c : list instr) : M kernel unit :=
  match c with
  | [] => mret tt
  | [Acquire l] => acquire l
  | [Release l] => release l
  | i :: c' => exec_instr i (prog c')
  end.

(** The lists are the code of Proc.v and of this file. *)
Record instr_faithful : Prop := {
  faith_sleep : forall chan lk, sleep chan lk = (p ← curproc; prog (sleep_code p chan lk));
  faith_wakeup : forall c, wakeup (Some c) =
    foreach slots (fun i => me ← myproc; if bool_decide (me = Some i) then mret tt else prog (wake_code c i));
  faith_yield : yield = (p ← curproc; prog (yield_code p));
  faith_acquiresleep : forall l, acquiresleep l = prog (acquiresleep_code l);
  faith_releasesleep : forall l, releasesleep l =
    exec_instr (Acquire (LkSleep l)) (exec_instr (SetLocked l false) (wakeup (Some (ChSleeplock l)) ;; prog [Release (LkSleep l)]))
}.

Lemma instrs_faithful : instr_faithful.
Proof using. by split. Qed.
End prog.

(** *** Processes and schedulers, interleaved *)

Module Sleeping.

(** A process runs on a hart; it has called [swtch] and the scheduler has yet to release
    p->lock; it is switched out; or, what must not happen, two harts run it. *)
Inductive mode := On | Leaving | Off | Twice.

Record sys := mksys {
  lks : lockid -> option nat;      (* the process that holds a spin lock, or for which the scheduler does *)
  sts : nat -> procstate;          (* p->state *)
  chans : nat -> option channel;   (* p->chan *)
  locked : slid -> bool;           (* lk->locked of the sleep locks *)
  modes : nat -> mode;
  codes : nat -> list instr        (* what the process has to do *)
}.
Definition set_lk l o s := mksys (<[l := o]> s.(lks)) s.(sts) s.(chans) s.(locked) s.(modes) s.(codes).
Definition set_st p st s := mksys s.(lks) (<[p := st]> s.(sts)) s.(chans) s.(locked) s.(modes) s.(codes).
Definition set_ch p c s := mksys s.(lks) s.(sts) (<[p := c]> s.(chans)) s.(locked) s.(modes) s.(codes).
Definition set_lkd l b s := mksys s.(lks) s.(sts) s.(chans) (<[l := b]> s.(locked)) s.(modes) s.(codes).
Definition set_mode p m s := mksys s.(lks) s.(sts) s.(chans) s.(locked) (<[p := m]> s.(modes)) s.(codes).
Definition set_code p c s := mksys s.(lks) s.(sts) s.(chans) s.(locked) s.(modes) (<[p := c]> s.(codes)).

(** What is left when [i] before [r] is executed: a while loop goes into its body. *)
Definition left_code (p : nat) (i : instr) (r : list instr) (s : sys) : list instr :=
  match i with
  | While l => if s.(locked) l then sleep_code p (Some (ChSleeplock l)) (LkSleep l) ++ While l :: r else r
  | _ => r
  end.

(** Process [p] executes [i] before [r]; [None]: it spins. *)
Definition fire (p : nat) (i : instr) (r : list instr) (s : sys) : option sys :=
  let s := set_code p (left_code p i r s) s in
  match i with
  | Acquire l => match s.(lks) l with None => Some (set_lk l (Some p) s) | Some _ => None end
  | Release l => Some (set_lk l None s)
  | SetChan q c => Some (set_ch q c s)
  | SetState q st => Some (set_st q st s)
  | Sched => Some (set_mode p Leaving s)
  | Wake q c => Some (if decide (s.(sts) q = SLEEPING /\ s.(chans) q = Some c) then set_st q RUNNABLE s else s)
  | Kill q => Some (if decide (s.(sts) q = SLEEPING) then set_st q RUNNABLE s else s)
  | While l => Some s
  | SetLocked l b => Some (set_lkd l b s)
  end.

(** What a process may do next: the calls on sleep locks, yield(), the turn of the loop of
    kkill() that finds its pid, a wakeup() of any channel, and a sleep() on another channel
    under a lock that is neither a process's nor a sleep lock's. *)
Inductive job :=
  | Jacquiresleep (l : slid)
  | Jreleasesleep (l : slid)
  | Jyield
  | Jkkill (q : nat)
  | Jwakeup (c : channel)
  | Jsleep (c : channel) (lk : lockid).

Definition job_code (p : nat) (j : job) : list instr :=
  match j with
  | Jacquiresleep l => acquiresleep_code l
  | Jreleasesleep l => releasesleep_code p l
  | Jyield => yield_code p
  | Jkkill q => [Acquire (LkProc q); Kill q; Release (LkProc q)]
  | Jwakeup c => wakeup_code p c
  | Jsleep c lk => Acquire lk :: sleep_code p (Some c) lk ++ [Release lk]
  end.

Definition job_ok (j : job) : Prop :=
  match j with
  | Jsleep c lk => (forall l, c <> ChSleeplock l) /\ (forall l, lk <> LkSleep l) /\ (forall q, lk <> LkProc q)
  | _ => True
  end.

(** A step of a process that is on a hart, or of a scheduler: after the [swtch] of
    [sched] it releases p->lock; and it takes the lock of a RUNNABLE process, marks it
    RUNNING and switches to it, which then goes on in [sched] or in [forkret].  The
    lottery may pick any RUNNABLE process; p->ticks and c->proc play no part here. *)
Inductive step : sys -> sys -> Prop :=
  | step_instr s s' p i r : s.(modes) p = On -> s.(codes) p = i :: r -> fire p i r s = Some s' -> step s s'
  | step_job s p j : s.(modes) p = On -> s.(codes) p = [] -> job_ok j -> step s (set_code p (job_code p j) s)
  | step_leave s p : s.(modes) p = Leaving -> step s (set_mode p Off (set_lk (LkProc p) None s))
  | step_dispatch s p : s.(lks) (LkProc p) = None -> s.(sts) p = RUNNABLE ->
      step s (set_mode p (match s.(modes) p with Off => On | _ => Twice end)
                (set_st p RUNNING (set_lk (LkProc p) (Some p) s))).

(** All processes RUNNABLE, to start in [forkret], which releases p->lock. *)
Definition init : sys :=
  mksys (fun _ => None) (fun p => if decide (p < NPROC)%nat then RUNNABLE else UNUSED) (fun _ => None) (fun _ => false)
    (fun _ => Off) (fun p => [Release (LkProc p)]).

(** *** The discipline of the code *)

(** The process that has the code to do holds [l]: it releases it before it acquires it. *)
Fixpoint owes (l : lockid) (c : list instr) : bool :=
  match c with
  | [] => false
  | Acquire l' :: c' => if decide (l = l') then false else owes l c'
  | Release l' :: c' => if decide (l = l') then true else owes l c'
  | _ :: c' => owes l c'
  end.

(** The locks an instruction needs, and that it gives them up only when it may. *)
Definition needs (p : nat) (i : instr) (r : list instr) : Prop :=
  match i with
  | Acquire l => owes l r = true
  | Release l => owes l r = false /\ forall x, l = LkSleep x -> forall q, Wake q (ChSleeplock x) ∉ r
  | SetChan q _ => q = p /\ owes (LkProc p) r = true
  | SetState q _ => q = p /\ owes (LkProc p) r = true /\ exists r', r = Sched :: r'
  | Sched => owes (LkProc p) r = true /\ forall l, l <> LkProc p -> owes l r = false
  | Wake q _ | Kill q => owes (LkProc q) r = true
  | While l => owes (LkSleep l) r = true /\ (forall x, x <> LkSleep l -> owes x r = false) /\ forall q, Wake q (ChSleeplock l) ∉ r
  | SetLocked l b => owes (LkSleep l) r = true /\ (b = false -> forall q, (q < NPROC)%nat -> q <> p -> Wake q (ChSleeplock l) ∈ r)
  end.

(** What comes before [sched] and before the steps of [sleep] on a sleep lock. *)
Definition follows (p : nat) (i : instr) (r : list instr) : Prop :=
  match r with
  | Sched :: _ => exists st, i = SetState p st /\ st <> RUNNING
  | SetState _ SLEEPING :: _ => exists c, i = SetChan p (Some c)
  | SetChan _ (Some (ChSleeplock l)) :: _ => i = Release (LkSleep l)
  | Release (LkSleep l) :: SetChan _ (Some _) :: _ => i = Acquire (LkProc p)
  | Acquire (LkProc _) :: Release (LkSleep _) :: SetChan _ (Some _) :: _ => False
  | _ => True
  end.

Fixpoint ok_code (p : nat) (c : list instr) : Prop :=
  match c with [] => True | i :: r => needs p i r /\ follows p i r /\ ok_code p r end.

(** On its way into [sleep] with the sleep lock's spin lock held. *)
Definition entering (c : list instr) (l : slid) : Prop :=
  (exists q q' ch r, c = Acquire (LkProc q) :: Release (LkSleep l) :: SetChan q' (Some ch) :: r) \/
  (exists q' ch r, c = Release (LkSleep l) :: SetChan q' (Some ch) :: r).

(** Asleep on [l], or past the point where it gave up the spin lock to go to sleep. *)
Definition bound (s : sys) (p : nat) (l : slid) : Prop :=
  (s.(sts) p = SLEEPING /\ s.(chans) p = Some (ChSleeplock l)) \/
  (exists r, s.(codes) p = SetState p SLEEPING :: r /\ s.(chans) p = Some (ChSleeplock l)) \/
  (exists r, s.(codes) p = SetChan p (Some (ChSleeplock l)) :: r).

(** It may sleep: the lock is taken, or the process that has just given it up is about to
    come to [p] in its wakeup(). *)
Definition justified (s : sys) (p : nat) (l : slid) : Prop :=
  s.(locked) l = true \/ exists w, s.(lks) (LkSleep l) = Some w /\ Wake p (ChSleeplock l) ∈ s.(codes) w.

Record inv (s : sys) : Prop := {
  iv_ok : forall p, ok_code p (s.(codes) p);
  iv_lk : forall l p, s.(lks) l = Some p <-> owes l (s.(codes) p) = true /\ ~ (s.(modes) p = Off /\ l = LkProc p);
  iv_off : forall p, s.(modes) p <> On -> owes (LkProc p) (s.(codes) p) = true /\ follows p Sched (s.(codes) p);
  iv_on : forall p, s.(modes) p = On -> s.(sts) p = RUNNING \/ exists r, s.(codes) p = Sched :: r;
  iv_sched : forall p r, s.(modes) p = On -> s.(codes) p = Sched :: r -> s.(sts) p <> RUNNING;
  iv_once : forall p, s.(modes) p <> Twice;
  iv_slot : forall p, (NPROC <= p)%nat -> s.(modes) p = Off /\ s.(sts) p = UNUSED /\ s.(codes) p = [Release (LkProc p)];
  iv_entering : forall p l, entering (s.(codes) p) l -> s.(locked) l = true;
  iv_bound : forall p l, bound s p l -> justified s p l
}.

(** *** The jobs keep the discipline *)

Lemma wakeup_in me c q : (q < NPROC)%nat -> q <> me -> Wake q c ∈ wakeup_code me c.
Proof.
  intros Hq Hne. unfold wakeup_code. apply list_elem_of_In, in_concat. exists (wake_code c q). split; [|right; by left].
  apply in_map_iff. exists q. split; [by rewrite bool_decide_false by congruence|]. apply in_seq. lia.
Qed.

(** The code of wakeup() before a tail that holds no process lock. *)
Lemma wakeup_ok me c (js : list nat) r :
  ok_code me r -> (forall q, owes (LkProc q) r = false) -> (forall i, follows me i r) ->
  let w := concat (map (fun i => if bool_decide (Some me = Some i) then [] else wake_code c i) js) ++ r in
  ok_code me w /\ (forall i, follows me i w) /\ forall l, owes l w = owes l r.
Proof.
  intros Hok Ho Hf. induction js as [|i js IH]; cbn [map concat app]; [done|].
  destruct IH as (H1 & H2 & H3). case_bool_decide; [done|]. cbn [wake_code app]. set (w := concat _ ++ r) in *.
  assert (Ho' : forall q, owes (LkProc q) w = false) by (intros q; by rewrite H3).
  split; [|split].
  - cbn [ok_code needs follows owes]. rewrite !decide_True by done. split; [done|]. split; [done|].
    split; [done|]. split; [done|]. split; [split; [done|done]|]. split; [apply H2|done].
  - intros j. done.
  - intros l. cbn [owes]. rewrite <- H3. destruct (decide (l = LkProc i)) as [->|]; [by rewrite Ho'|done].
Qed.

Lemma job_owes p j : job_ok j -> forall l, owes l (job_code p j) = false.
Proof.
  intros Hj l. destruct j as [x|x| |q|c|c lk]; cbn [job_code].
  - cbn. by destruct (decide (l = LkSleep x)).
  - cbn [releasesleep_code owes]. destruct (decide (l = LkSleep x)); [done|].
    destruct (wakeup_ok p (ChSleeplock x) slots [Release (LkSleep x)]) as (_ & _ & H); [by split; [split; [|intros]; [|apply not_elem_of_nil]|]|done|by intros []|].
    unfold wakeup_code. rewrite H. cbn. by rewrite decide_False.
  - cbn. by destruct (decide (l = LkProc p)).
  - cbn. by destruct (decide (l = LkProc q)).
  - destruct (wakeup_ok p c slots []) as (_ & _ & H); [done..|]. rewrite app_nil_r in H. apply H.
  - destruct Hj as (_ & _ & Hj). cbn. destruct (decide (l = lk)); [done|]. destruct (decide (l = LkProc p)); [done|]. done.
Qed.

Lemma job_ok_code p j : job_ok j -> ok_code p (job_code p j).
Proof.
  intros Hj. destruct j as [x|x| |q|c|c lk]; cbn [job_code].
  - cbn. rewrite !decide_True by done. split_and!; try done.
    + intros y Hy. by rewrite decide_False.
    + intros q. rewrite !elem_of_cons, elem_of_nil. naive_solver.
    + intros y _ q. apply not_elem_of_nil.
  - destruct (wakeup_ok p (ChSleeplock x) slots [Release (LkSleep x)]) as (H1 & H2 & H3);
      [by split; [split; [|intros]; [|apply not_elem_of_nil]|]|done|by intros []|].
    cbn [releasesleep_code ok_code needs owes]. fold (wakeup_code p (ChSleeplock x)) in *. rewrite H3. cbn. rewrite !decide_True by done.
    split_and!; try done.
    intros _ q Hq Hne. apply elem_of_app. left. by apply wakeup_in.
  - cbn. rewrite !decide_True by done. split_and!; try done; [by eexists|by eexists|]. intros l Hl. by rewrite decide_False.
  - cbn. by rewrite !decide_True.
  - destruct (wakeup_ok p c slots []) as (H & _); [done..|]. by rewrite app_nil_r in H.
  - destruct Hj as (Hc & Hl & Hq). pose proof (Hq p) as Hlk. pose proof (not_eq_sym Hlk) as Hlk'. cbn.
    rewrite ?(decide_True (P := lk = lk)), ?(decide_True (P := LkProc p = LkProc p)), ?(decide_False (P := lk = LkProc p)),
      ?(decide_False (P := LkProc p = lk)) by done.
    split_and!; try done.
    + destruct lk as [| | | | | | | | | | | |l]; try done. by apply (Hl l).
    + by destruct lk.
    + intros l ->. by destruct (Hl l).
    + destruct c as [| | |l| | | | | |]; try done. by destruct (Hc l).
    + by eexists.
    + by eexists.
    + by eexists.
    + intros l H1. rewrite decide_False by done. by repeat case_decide.
    + by destruct lk.
    + by destruct lk.
    + intros l ->. by destruct (Hl l).
Qed.

(** The loop of acquiresleep() goes into [sleep]. *)
Lemma expand_ok p l r :
  needs p (While l) r -> ok_code p (While l :: r) ->
  let c := sleep_code p (Some (ChSleeplock l)) (LkSleep l) ++ While l :: r in
  ok_code p c /\ forall x, owes x c = owes x r.
Proof.
  intros (H1 & H2 & H3) Hok c. assert (Hp : owes (LkProc p) r = false) by (by apply H2). split.
  - unfold c. cbn -[ok_code].
    cbn [ok_code needs owes follows].
    rewrite ?(decide_True (P := LkSleep l = LkSleep l)), ?(decide_True (P := LkProc p = LkProc p)),
      ?(decide_False (P := LkSleep l = LkProc p)), ?(decide_False (P := LkProc p = LkSleep l)) by done.
    split_and!; try done.
    + intros x [= <-] q. rewrite !elem_of_cons. intros Hin. repeat (destruct Hin as [Hin|Hin]; [done|]). by apply (H3 q).
    + by eexists.
    + by eexists.
    + by eexists.
    + intros x Hx. rewrite decide_False by done. case_decide; [done|]. by apply H2.
    + apply Hok.
    + apply Hok.
  - intros x. unfold c. cbn. destruct (decide (x = LkProc p)) as [->|]; [done|]. destruct (decide (x = LkSleep l)) as [->|]; [done|]. done.
Qed.

(** *** A step of a process *)

Section fire.
Context (s s' : sys) (p : nat) (i : instr) (r : list instr).
Context (Hinv : inv s) (Hon : s.(modes) p = On) (Hc : s.(codes) p = i :: r) (Hf : fire p i r s = Some s').

Lemma fire_ok : needs p i r /\ follows p i r /\ ok_code p r.
Proof using All. pose proof (iv_ok _ Hinv p) as H. by rewrite Hc in H. Qed.

Lemma left_ok : ok_code p (left_code p i r s) /\ forall x, owes x (left_code p i r s) = owes x r.
Proof using All.
  destruct fire_ok as (Hn & Hfo & Hok). destruct i; try done. cbn [left_code]. destruct (s.(locked) l); [|done].
  apply expand_ok; [done|]. by split_and!.
Qed.

Lemma fire_codes : s'.(codes) = <[p := left_code p i r s]> s.(codes).
Proof using All. unfold fire in Hf. destruct i; repeat case_match; by simplify_eq. Qed.
Lemma fire_modes q : s'.(modes) q = if decide (q = p /\ i = Sched) then Leaving else s.(modes) q.
Proof using All.
  unfold fire in Hf. destruct i; try (rewrite decide_False by naive_solver; repeat case_match; by simplify_eq).
  simplify_eq. cbn. destruct (decide (q = p)) as [->|].
  - by rewrite fn_lookup_insert, decide_True.
  - by rewrite fn_lookup_insert_ne, decide_False by naive_solver.
Qed.
Lemma fire_lks l :
  s'.(lks) l = match i with
               | Acquire x => if decide (l = x) then Some p else s.(lks) l
               | Release x => if decide (l = x) then None else s.(lks) l
               | _ => s.(lks) l
               end /\
  (i = Acquire l -> s.(lks) l = None).
Proof using All.
  unfold fire in Hf. destruct i as [x|x| | | | | | |]; try (split; [|done]; repeat case_match; by simplify_eq).
  - cbn [set_code lks] in Hf. destruct (s.(lks) x) eqn:E; [done|]. simplify_eq. cbn. split; [|by intros [= ->]].
    destruct (decide (l = x)) as [->|]; [by rewrite fn_lookup_insert|by rewrite fn_lookup_insert_ne].
  - simplify_eq. cbn. split; [|done]. destruct (decide (l = x)) as [->|]; [by rewrite fn_lookup_insert|by rewrite fn_lookup_insert_ne].
Qed.

Lemma on_holds l : s.(lks) l = Some p <-> owes l (i :: r) = true.
Proof using All. rewrite (iv_lk _ Hinv l p), Hc, Hon. split; [by intros []|]. intros H. split; [done|by intros []]. Qed.

Lemma fire_holds l q : s'.(lks) l = Some q <-> owes l (s'.(codes) q) = true /\ ~ (s'.(modes) q = Off /\ l = LkProc q).
Proof using All.
  destruct fire_ok as (Hn & _ & _), left_ok as (_ & Ho), (fire_lks l) as [El Ha]. pose proof (on_holds l) as Hp.
  rewrite fire_codes, fire_modes, El. destruct (decide (q = p)) as [->|Hne].
  - rewrite fn_lookup_insert, Ho, Hon.
    assert (Hm : ~ ((if decide (p = p /\ i = Sched) then Leaving else On) = Off /\ l = LkProc p)) by (case_decide; by intros []).
    enough (match i with
            | Acquire x => if decide (l = x) then Some p else s.(lks) l
            | Release x => if decide (l = x) then None else s.(lks) l
            | _ => s.(lks) l
            end = Some p <-> owes l r = true) as -> by tauto.
    clear Hm El. destruct i as [x|x| | | | | | |]; cbn [owes needs] in *; try exact Hp;
      (destruct (decide (l = x)) as [->|]; [|exact Hp]).
    + split; [by intros _|done].
    + destruct Hn as [-> _]. done.
  - rewrite fn_lookup_insert_ne by done. rewrite decide_False by (by intros []). rewrite <- (iv_lk _ Hinv l q).
    destruct i as [x|x| | | | | | |]; try done; (destruct (decide (l = x)) as [->|]; [|done]).
    + rewrite Ha by done. split; [intros [= ->]; done|done].
    + cbn [owes] in Hp. rewrite decide_True in Hp by done. rewrite (proj2 Hp eq_refl). split; [done|intros [= ->]; done].
Qed.
Lemma fire_sts q :
  s'.(sts) q = match i with
               | SetState x st => if decide (q = x) then st else s.(sts) q
               | Wake x c => if decide (q = x /\ s.(sts) q = SLEEPING /\ s.(chans) q = Some c) then RUNNABLE else s.(sts) q
               | Kill x => if decide (q = x /\ s.(sts) q = SLEEPING) then RUNNABLE else s.(sts) q
               | _ => s.(sts) q
               end.
Proof using All.
  unfold fire in Hf. destruct i as [x|x| |x st| |x c|x| |]; try (repeat case_match; by simplify_eq); cbn [set_code sts chans] in Hf.
  - simplify_eq. cbn. destruct (decide (q = x)) as [->|]; [by rewrite fn_lookup_insert|by rewrite fn_lookup_insert_ne].
  - destruct (decide (q = x)) as [->|Hne].
    + destruct (decide (sts s x = SLEEPING /\ chans s x = Some c)); simplify_eq; cbn;
        [by rewrite fn_lookup_insert, decide_True|by rewrite decide_False by (by intros [])].
    + rewrite decide_False by (by intros []). case_decide; simplify_eq; cbn; [by rewrite fn_lookup_insert_ne|done].
  - destruct (decide (q = x)) as [->|Hne].
    + destruct (decide (sts s x = SLEEPING)); simplify_eq; cbn;
        [by rewrite fn_lookup_insert, decide_True|by rewrite decide_False by (by intros [])].
    + rewrite decide_False by (by intros []). case_decide; simplify_eq; cbn; [by rewrite fn_lookup_insert_ne|done].
Qed.

Lemma fire_chans q :
  s'.(chans) q = match i with SetChan x c => if decide (q = x) then c else s.(chans) q | _ => s.(chans) q end.
Proof using All.
  unfold fire in Hf. destruct i as [| |x c| | | | | |]; try (repeat case_match; by simplify_eq).
  simplify_eq. cbn. destruct (decide (q = x)) as [->|]; [by rewrite fn_lookup_insert|by rewrite fn_lookup_insert_ne].
Qed.

Lemma fire_locked l :
  s'.(locked) l = match i with SetLocked x b => if decide (l = x) then b else s.(locked) l | _ => s.(locked) l end.
Proof using All.
  unfold fire in Hf. destruct i as [| | | | | | | |x b]; try (repeat case_match; by simplify_eq).
  simplify_eq. cbn. destruct (decide (l = x)) as [->|]; [by rewrite fn_lookup_insert|by rewrite fn_lookup_insert_ne].
Qed.

Lemma fire_running : i <> Sched -> s.(sts) p = RUNNING.
Proof using All. intros Hi. destruct (iv_on _ Hinv p Hon) as [|[r' E]]; [done|congruence]. Qed.

(** The states of processes keep to their modes. *)
Lemma fire_off q : s'.(modes) q <> On -> owes (LkProc q) (s'.(codes) q) = true /\ follows q Sched (s'.(codes) q).
Proof using All.
  destruct fire_ok as (Hn & Hfo & _). rewrite fire_codes, fire_modes. destruct (decide (q = p)) as [->|Hne].
  - rewrite fn_lookup_insert. case_decide as E; [|by rewrite Hon]. destruct E as [_ E]. intros _. subst i. by split; [apply Hn|].
  - rewrite fn_lookup_insert_ne by done. rewrite decide_False by (by intros []). apply Hinv.
Qed.

Lemma fire_on q : s'.(modes) q = On -> s'.(sts) q = RUNNING \/ exists r, s'.(codes) q = Sched :: r.
Proof using All.
  destruct fire_ok as (Hn & _ & _). rewrite fire_modes. case_decide as E; [done|]. intros Hq. rewrite fire_codes, fire_sts.
  destruct (decide (q = p)) as [->|Hne].
  - assert (Hi : i <> Sched) by (intros ->; by apply E). pose proof (fire_running Hi) as Hr. rewrite fn_lookup_insert.
    destruct i as [| | |x st| |x c|x| |]; cbn [left_code needs] in *; rewrite ?Hr; try (by left).
    + destruct Hn as (-> & _ & r' & ->). right. by exists r'.
    + rewrite decide_False by (by intros (_ & ? & _)). by left.
    + rewrite decide_False by (by intros (_ & ?)). by left.
  - rewrite fn_lookup_insert_ne by done. destruct (iv_on _ Hinv q Hq) as [Hr|Hr]; [left|by right].
    destruct i as [| | |x st| |x c|x| |]; cbn [needs] in Hn; rewrite ?Hr; try done.
    + destruct Hn as (-> & _). by rewrite decide_False.
    + by rewrite decide_False by (by intros (_ & ? & _)).
    + by rewrite decide_False by (by intros (_ & ?)).
Qed.

Lemma fire_sched q r' : s'.(modes) q = On -> s'.(codes) q = Sched :: r' -> s'.(sts) q <> RUNNING.
Proof using All.
  destruct fire_ok as (Hn & Hfo & _). rewrite fire_modes. case_decide as E; [done|]. intros Hq. rewrite fire_codes, fire_sts.
  destruct (decide (q = p)) as [->|Hne].
  - rewrite fn_lookup_insert. intros Er. assert (Er' : r = Sched :: r').
    { destruct i; try done. cbn [left_code] in Er. by destruct (s.(locked) l). }
    rewrite Er' in Hfo. cbn [follows] in Hfo. destruct Hfo as (st & Ei & Hst). rewrite Ei. by rewrite decide_True.
  - rewrite fn_lookup_insert_ne by done. intros Er. pose proof (iv_sched _ Hinv q r' Hq Er) as Hs.
    destruct i as [| | |x st| |x c|x| |]; try done; [|by case_decide..].
    cbn [needs] in Hn. destruct Hn as (-> & _). by rewrite decide_False.
Qed.

Lemma fire_slot q : (NPROC <= q)%nat -> s'.(modes) q = Off /\ s'.(sts) q = UNUSED /\ s'.(codes) q = [Release (LkProc q)].
Proof using All.
  intros Hq. destruct fire_ok as (Hn & _ & _), (iv_slot _ Hinv q Hq) as (Hm & Hs & Hcq). assert (q <> p) by (intros ->; congruence).
  rewrite fire_modes, fire_codes, fire_sts, fn_lookup_insert_ne by done. rewrite decide_False by (by intros []). split; [done|]. split; [|done].
  destruct i as [| | |x st| |x c|x| |]; cbn [needs] in Hn; rewrite ?Hs; try done.
  - destruct Hn as (-> & _). by rewrite decide_False.
  - by rewrite decide_False by (by intros (_ & ? & _)).
  - by rewrite decide_False by (by intros (_ & ?)).
Qed.
(** The code that [p] goes on with. *)
Lemma left_cases :
  left_code p i r s = r \/
  exists l, i = While l /\ s.(locked) l = true /\ left_code p i r s = sleep_code p (Some (ChSleeplock l)) (LkSleep l) ++ While l :: r.
Proof using All.
  destruct i; try (by left). cbn [left_code]. destruct (s.(locked) l) eqn:E; [right; by exists l|by left].
Qed.

Lemma entering_holds c l : entering c l -> owes (LkSleep l) c = true.
Proof using.
  intros [(q & q' & ch & r' & ->)|(q' & ch & r' & ->)]; cbn [owes].
  - rewrite decide_False by done. by rewrite decide_True.
  - by rewrite decide_True.
Qed.

Lemma sleep_holds q l : owes (LkSleep l) (s.(codes) q) = true -> s.(lks) (LkSleep l) = Some q.
Proof using All. intros H. apply (iv_lk _ Hinv). split; [done|by intros []]. Qed.

Lemma fire_entering q l : entering (s'.(codes) q) l -> s'.(locked) l = true.
Proof using All.
  destruct fire_ok as (Hn & Hfo & _). rewrite fire_codes, fire_locked. destruct (decide (q = p)) as [->|Hne].
  - rewrite fn_lookup_insert. destruct left_cases as [E|(x & -> & Hx & E)]; rewrite E.
    + intros [(q0 & q' & ch & r' & Er)|(q' & ch & r' & Er)]; subst r; cbn [follows] in Hfo; [done|].
      subst i. apply (iv_entering _ Hinv p l). rewrite Hc. left. by eexists _, _, _, _.
    + intros [(q0 & q' & ch & r' & Er)|(q' & ch & r' & Er)]; [|done]. cbn in Er. by simplify_eq.
  - rewrite fn_lookup_insert_ne by done. intros He. pose proof (iv_entering _ Hinv q l He) as Hl.
    pose proof (sleep_holds q l (entering_holds _ _ He)) as Hq. pose proof (on_holds (LkSleep l)) as Hp.
    destruct i as [| | | | | | | |x b]; try done. destruct (decide (l = x)) as [->|]; [|done].
    cbn [needs] in Hn. destruct Hn as [Hn _]. rewrite (proj2 Hp Hn) in Hq. congruence.
Qed.

Lemma fire_bound_back q l : bound s' q l -> bound s q l \/ s'.(locked) l = true.
Proof using All.
  destruct fire_ok as (Hn & Hfo & _). unfold bound. rewrite fire_codes, fire_sts, fire_chans, fire_locked.
  destruct (decide (q = p)) as [->|Hne].
  - rewrite fn_lookup_insert. intros [[Hs Hch]|[(r' & Er & Hch)|(r' & Er)]].
    + assert (Hi : i <> Sched -> s.(sts) p = RUNNING) by apply fire_running.
      destruct i as [| |x c|x st| |x c|x| |]; try (rewrite Hi in Hs by done; by repeat case_decide); [|by left; left].
      left. right. left. cbn [needs] in Hn. destruct Hn as (-> & _). rewrite decide_True in Hs by done. subst st. by exists r.
    + destruct left_cases as [E|(x & _ & _ & E)]; rewrite E in Er; [|done]. subst r. cbn [follows] in Hfo. destruct Hfo as [c ->].
      rewrite decide_True in Hch by done. simplify_eq. left. right. right. by eexists.
    + destruct left_cases as [E|(x & _ & _ & E)]; rewrite E in Er; [|done]. subst r. cbn [follows] in Hfo. subst i. right.
      apply (iv_entering _ Hinv p l). rewrite Hc. right. by eexists _, _, _.
  - rewrite fn_lookup_insert_ne by done. intros H. left.
    assert (Ech : match i with SetChan x c => if decide (q = x) then c else s.(chans) q | _ => s.(chans) q end = s.(chans) q).
    { destruct i; try done. cbn [needs] in Hn. destruct Hn as [-> _]. by rewrite decide_False. }
    rewrite Ech in H. destruct H as [[Hs Hch]|H]; [left|by right]. split; [|done].
    destruct i as [| | |x st| |x c|x| |]; try done; [|by case_decide..].
    cbn [needs] in Hn. destruct Hn as (-> & _). by rewrite decide_False in Hs.
Qed.

(** The lock of a process that is on its way into [sched] is its own. *)
Lemma bound_lock q l :
  (exists r, s.(codes) q = SetState q SLEEPING :: r) \/ (exists r, s.(codes) q = SetChan q (Some (ChSleeplock l)) :: r) ->
  s.(lks) (LkProc q) = Some q.
Proof using All.
  intros H. apply (iv_lk _ Hinv). pose proof (iv_ok _ Hinv q) as Ho. pose proof (iv_off _ Hinv q) as Hoff.
  split; [destruct H as [[r' E]|[r' E]]; rewrite E in *; apply Ho|]. intros [Hm _].
  destruct Hoff as [_ Hfo]; [by rewrite Hm|]. destruct H as [[r' E]|[r' E]]; rewrite E in Hfo; cbn in Hfo; [by destruct Hfo|done].
Qed.

Lemma fire_waker q l :
  bound s' q l -> s.(lks) (LkSleep l) = Some p -> Wake q (ChSleeplock l) ∈ i :: r -> justified s' q l.
Proof using All.
  intros Hb Hp Hin. destruct fire_ok as (Hn & Hfo & _). apply elem_of_cons in Hin as [Hi|Hin].
  - exfalso. symmetry in Hi. pose proof (on_holds (LkProc q)) as Hq. unfold bound in Hb.
    rewrite fire_codes, fire_sts, fire_chans, Hi in Hb. rewrite Hi in Hn, Hq, Hfo. apply (proj2 Hq) in Hn as Hq'. destruct Hb as [[Hs Hch]|Hb].
    { case_decide as E; [done|]. by apply E. }
    destruct (decide (q = p)) as [->|Hne].
    + rewrite fn_lookup_insert in Hb. cbn [left_code] in Hb.
      destruct Hb as [(r' & -> & _)|(r' & ->)]; cbn in Hfo; [by destruct Hfo|done].
    + rewrite fn_lookup_insert_ne in Hb by done. rewrite (bound_lock q l) in Hq'; [congruence|]. destruct Hb as [(r' & E & _)|?]; eauto.
  - right. exists p. rewrite fire_codes, fn_lookup_insert. destruct (fire_lks (LkSleep l)) as [-> Ha]. split.
    + destruct i as [x|x| | | | | | |]; try done; (destruct (decide (LkSleep l = x)) as [<-|]; [|done]).
      * done.
      * destruct Hn as [_ Hn]. by destruct (Hn l eq_refl q).
    + destruct left_cases as [->|(x & _ & _ & ->)]; [done|]. apply elem_of_app. right. by right.
Qed.

Lemma fire_justified q l : bound s' q l -> justified s q l -> justified s' q l.
Proof using All.
  intros Hb [Hl|(w & Hw & Hin)]; destruct fire_ok as (Hn & Hfo & _), (fire_lks (LkSleep l)) as [E Ha];
    pose proof (on_holds (LkSleep l)) as Hp.
  - destruct (s'.(locked) l) eqn:El; [by left|]. right. exists p. rewrite E, fire_codes, fn_lookup_insert.
    rewrite fire_locked in El.
    assert (Hq : (q < NPROC)%nat).
    { apply Nat.nle_gt. intros Hq. destruct (fire_slot q Hq) as (_ & Hs & Hcq). unfold bound in Hb. rewrite Hs, Hcq in Hb.
      by destruct Hb as [[? _]|[(? & ? & _)|(? & ?)]]. }
    assert (Hne : q = p -> (exists r', left_code p i r s = SetState p SLEEPING :: r') \/
                           (exists r', left_code p i r s = SetChan p (Some (ChSleeplock l)) :: r') \/ s'.(sts) p = SLEEPING).
    { intros ->. unfold bound in Hb. rewrite fire_codes, fn_lookup_insert in Hb.
      destruct Hb as [[? _]|[(r' & ? & _)|(r' & ?)]]; eauto. }
    rewrite fire_sts in Hne. pose proof fire_running as Hr.
    destruct i as [| | | | | | | |x b]; try congruence. case_decide; [|congruence]. subst x b. cbn [needs left_code] in *.
    destruct Hn as [Hn Hwk]. split; [by apply Hp|]. apply Hwk; [done|done|]. intros ->. rewrite Hr in Hne by done.
    destruct Hne as [[r' ->]|[[r' ->]|?]]; [done|cbn in Hfo; by destruct Hfo|done|done].
  - destruct (decide (w = p)) as [->|Hne]; [rewrite Hc in Hin; by apply fire_waker|].
    right. exists w. rewrite fire_codes, fn_lookup_insert_ne, E by done. split; [|done].
    destruct i as [x|x| | | | | | |]; try done; (destruct (decide (LkSleep l = x)) as [<-|]; [|done]).
    + by rewrite Ha in Hw.
    + cbn [owes] in Hp. rewrite decide_True in Hp by done. rewrite (proj2 Hp) in Hw by done. congruence.
Qed.

Lemma inv_fire : inv s'.
Proof using All.
  constructor.
  - intros q. rewrite fire_codes. destruct (decide (q = p)) as [->|]; [rewrite fn_lookup_insert; apply left_ok|].
    rewrite fn_lookup_insert_ne by done. apply Hinv.
  - intros l q. apply fire_holds.
  - apply fire_off.
  - apply fire_on.
  - apply fire_sched.
  - intros q. rewrite fire_modes. case_decide; [done|]. apply Hinv.
  - apply fire_slot.
  - apply fire_entering.
  - intros q l Hb. destruct (fire_bound_back q l Hb) as [Hb'|]; [|by left]. apply fire_justified; [done|]. by apply Hinv.
Qed.
End fire.

(** *** The other steps *)

(** A code that may come first after [swtch] is not inside [sleep]. *)
Lemma follows_out p c : follows p Sched c -> (forall l, ~ entering c l) /\ (forall r, c <> Sched :: r) /\
  (forall r, c <> SetState p SLEEPING :: r) /\ (forall l r, c <> SetChan p (Some (ChSleeplock l)) :: r).
Proof.
  intros H. split_and!.
  - intros l [(q & q' & ch & r & ->)|(q' & ch & r & ->)]; done.
  - intros r ->. destruct H as (? & ? & _). done.
  - intros r ->. destruct H as (? & ?). done.
  - intros l r ->. done.
Qed.

Lemma job_follows p j : job_ok j -> follows p Sched (job_code p j).
Proof.
  intros Hj. destruct j as [x|x| |q|c|c lk]; try done; cbn [job_code].
  - destruct (wakeup_ok p c slots []) as (_ & H & _); [done..|]. rewrite app_nil_r in H. apply H.
  - destruct Hj as (_ & Hl & Hq). destruct lk as [| | | | | | | | | | | |l]; try done.
Qed.

Lemma sleeping_init : inv init.
Proof.
  assert (Hout : forall p, follows p Sched [Release (LkProc p)]) by done.
  constructor; try done; cbn [init modes codes sts chans lks locked].
  - intros l p. cbn. destruct (decide (l = LkProc p)); [|by split; [|intros [? _]]].
    split; [done|]. intros [_ H]. by destruct H.
  - intros p _. cbn. by rewrite decide_True.
  - intros p Hp. by rewrite decide_False by lia.
  - intros p l He. by destruct (proj1 (follows_out _ _ (Hout p)) l).
  - intros p l [[H _]|[(r & H & _)|(r & H)]]; [|done|done]. cbn in H. by case_decide.
Qed.

Lemma inv_job s p j :
  inv s -> s.(modes) p = On -> s.(codes) p = [] -> job_ok j -> inv (set_code p (job_code p j) s).
Proof.
  intros I Hon Hc Hj. pose proof (job_owes p j Hj) as Ho.
  destruct (follows_out _ _ (job_follows p j Hj)) as (H1 & H2 & H3 & H4).
  assert (Hsplit : forall q, q = p \/ (q <> p /\ <[p := job_code p j]> s.(codes) q = s.(codes) q)).
  { intros q. destruct (decide (q = p)) as [->|]; [by left|right; by rewrite fn_lookup_insert_ne]. }
  constructor; cbn [set_code modes codes sts chans lks locked].
  - intros q. destruct (Hsplit q) as [->|[_ ->]]; [|apply I]. rewrite fn_lookup_insert. by apply job_ok_code.
  - intros l q. destruct (Hsplit q) as [->|[_ ->]]; [|apply I]. rewrite fn_lookup_insert, Ho, (iv_lk _ I), Hc. done.
  - intros q Hq. destruct (Hsplit q) as [->|[_ ->]]; [done|]. by apply I.
  - intros q Hq. destruct (Hsplit q) as [->|[_ ->]]; [|by apply I]. destruct (iv_on _ I p Hon) as [?|[r Er]]; [by left|congruence].
  - intros q r Hq. destruct (Hsplit q) as [->|[_ ->]]; [|by apply I]. rewrite fn_lookup_insert. intros E. by destruct (H2 r).
  - apply I.
  - intros q Hq. destruct (iv_slot _ I q Hq) as (Hm & Hs & Hcq). destruct (Hsplit q) as [->|[_ ->]]; [congruence|done].
  - intros q l. destruct (Hsplit q) as [->|[_ ->]]; [|apply I]. rewrite fn_lookup_insert. intros He. by destruct (H1 l).
  - intros q l Hb. destruct (iv_bound _ I q l) as [?|(w & Hw & Hin)]; [|by left|].
    + unfold bound in *. cbn [set_code modes codes sts chans lks locked] in Hb. destruct (Hsplit q) as [->|[_ E]]; [|by rewrite E in Hb].
      rewrite fn_lookup_insert in Hb. destruct Hb as [?|[(r & E & _)|(r & E)]]; [by left|by destruct (H3 r)|by destruct (H4 l r)].
    + right. exists w. cbn [set_code lks codes]. split; [done|]. destruct (Hsplit w) as [->|[_ ->]]; [|done].
      rewrite Hc in Hin. by apply not_elem_of_nil in Hin.
Qed.

Lemma inv_leave s p : inv s -> s.(modes) p = Leaving -> inv (set_mode p Off (set_lk (LkProc p) None s)).
Proof.
  intros I Hm. destruct (iv_off _ I p) as [Ho Hfo]; [by rewrite Hm|].
  assert (Hp : s.(lks) (LkProc p) = Some p) by (apply (iv_lk _ I); split; [done|by rewrite Hm; intros []]).
  constructor; cbn [set_mode set_lk modes codes sts chans lks locked].
  - apply I.
  - intros l q. destruct (decide (q = p)) as [->|Hne].
    + rewrite fn_lookup_insert. destruct (decide (l = LkProc p)) as [->|Hl].
      * rewrite fn_lookup_insert. split; [done|]. intros [_ H]. by destruct H.
      * rewrite fn_lookup_insert_ne, (iv_lk _ I) by done. rewrite Hm. split; intros [? _]; (split; [done|]); by intros [].
    + rewrite (fn_lookup_insert_ne (modes s)), <- (iv_lk _ I) by done. destruct (decide (l = LkProc p)) as [->|Hl].
      * rewrite fn_lookup_insert, Hp. split; [done|congruence].
      * by rewrite fn_lookup_insert_ne.
  - intros q. destruct (decide (q = p)) as [->|Hne]; [done|]. rewrite fn_lookup_insert_ne by done. apply I.
  - intros q. destruct (decide (q = p)) as [->|Hne]; [by rewrite fn_lookup_insert|]. rewrite fn_lookup_insert_ne by done. apply I.
  - intros q r. destruct (decide (q = p)) as [->|Hne]; [by rewrite fn_lookup_insert|]. rewrite fn_lookup_insert_ne by done. apply I.
  - intros q. destruct (decide (q = p)) as [->|Hne]; [by rewrite fn_lookup_insert|]. rewrite fn_lookup_insert_ne by done. apply I.
  - intros q Hq. destruct (iv_slot _ I q Hq) as (Hmq & ?). rewrite fn_lookup_insert_ne by congruence. done.
  - apply I.
  - intros q l Hb. destruct (iv_bound _ I q l Hb) as [?|(w & Hw & Hin)]; [by left|]. right. exists w. split; [|done].
    cbn [set_mode set_lk lks]. by rewrite fn_lookup_insert_ne.
Qed.

(** A RUNNABLE process whose lock is free is switched out. *)
Lemma dispatch_off s p : inv s -> s.(lks) (LkProc p) = None -> s.(sts) p = RUNNABLE -> s.(modes) p = Off.
Proof.
  intros I Hl Hs. assert (Hh : s.(modes) p <> Off -> owes (LkProc p) (s.(codes) p) = true -> False).
  { intros Hm Ho. assert (s.(lks) (LkProc p) = Some p); [|congruence]. apply (iv_lk _ I). split; [done|by intros []]. }
  destruct (s.(modes) p) eqn:Hm; [|exfalso|done|by destruct (iv_once _ I p)].
  - destruct (iv_on _ I p Hm) as [?|[r E]]; [congruence|]. exfalso. apply Hh; [done|].
    pose proof (iv_ok _ I p) as Hok. rewrite E in *. apply Hok.
  - apply Hh; [done|]. apply (iv_off _ I). by rewrite Hm.
Qed.

Lemma inv_dispatch s p :
  inv s -> s.(lks) (LkProc p) = None -> s.(sts) p = RUNNABLE ->
  inv (set_mode p (match s.(modes) p with Off => On | _ => Twice end) (set_st p RUNNING (set_lk (LkProc p) (Some p) s))).
Proof.
  intros I Hl Hs. pose proof (dispatch_off s p I Hl Hs) as Hm. rewrite Hm.
  destruct (iv_off _ I p) as [Ho Hfo]; [by rewrite Hm|]. destruct (follows_out _ _ Hfo) as (_ & H2 & H3 & H4).
  constructor; cbn [set_mode set_st set_lk modes codes sts chans lks locked].
  - apply I.
  - intros l q. destruct (decide (q = p)) as [->|Hne].
    + rewrite fn_lookup_insert. destruct (decide (l = LkProc p)) as [->|Hne].
      * rewrite fn_lookup_insert. split; [intros _; split; [done|by intros []]|done].
      * rewrite fn_lookup_insert_ne, (iv_lk _ I) by done. split; intros [? _]; (split; [done|]); by intros [].
    + rewrite (fn_lookup_insert_ne (modes s)), <- (iv_lk _ I) by done. destruct (decide (l = LkProc p)) as [->|Hlne].
      * rewrite fn_lookup_insert, Hl. split; [congruence|done].
      * by rewrite fn_lookup_insert_ne.
  - intros q. destruct (decide (q = p)) as [->|Hne]; [by rewrite fn_lookup_insert|]. rewrite fn_lookup_insert_ne by done. apply I.
  - intros q. destruct (decide (q = p)) as [->|Hne]; [rewrite !fn_lookup_insert; by left|]. rewrite !fn_lookup_insert_ne by done. apply I.
  - intros q r. destruct (decide (q = p)) as [->|Hne]; [intros _ E; by destruct (H2 r)|]. rewrite !fn_lookup_insert_ne by done. apply I.
  - intros q. destruct (decide (q = p)) as [->|Hne]; [by rewrite fn_lookup_insert|]. rewrite fn_lookup_insert_ne by done. apply I.
  - intros q Hq. destruct (iv_slot _ I q Hq) as (Hmq & Hsq & ?). rewrite !fn_lookup_insert_ne by congruence. done.
  - apply I.
  - intros q l Hb. destruct (iv_bound _ I q l) as [?|(w & Hw & Hin)]; [|by left|].
    + destruct Hb as [[Hq Hch]|Hb]; [|by right]. cbn in Hq. destruct (decide (q = p)) as [->|Hne]; [by rewrite fn_lookup_insert in Hq|].
      rewrite fn_lookup_insert_ne in Hq by done. by left.
    + right. exists w. split; [|done]. cbn [set_mode set_st set_lk lks]. by rewrite fn_lookup_insert_ne.
Qed.

Lemma sleeping_reachable s : rtc step init s -> inv s.
Proof.
  apply (rtc_ind_r (fun s => inv s)); [apply sleeping_init|].
  intros s1 s2 _ Hst I. destruct Hst; [by eapply inv_fire|by apply inv_job|by apply inv_leave|by apply inv_dispatch].
Qed.

(** *** Schedules, to run the system on *)

Inductive act := Do (p : nat) | Start (p : nat) (j : job) | Leave (p : nat) | Dispatch (p : nat).

Definition act_step (a : act) (s : sys) : option sys :=
  match a with
  | Do p => match s.(modes) p, s.(codes) p with On, i :: r => fire p i r s | _, _ => None end
  | Start p j =>
      match j, s.(modes) p, s.(codes) p with
      | Jsleep _ _, _, _ => None
      | _, On, [] => Some (set_code p (job_code p j) s)
      | _, _, _ => None
      end
  | Leave p => match s.(modes) p with Leaving => Some (set_mode p Off (set_lk (LkProc p) None s)) | _ => None end
  | Dispatch p =>
      match s.(lks) (LkProc p), s.(sts) p with
      | None, RUNNABLE => Some (set_mode p (match s.(modes) p with Off => On | _ => Twice end)
                                 (set_st p RUNNING (set_lk (LkProc p) (Some p) s)))
      | _, _ => None
      end
  end.
Fixpoint run (acts : list act) (s : sys) : option sys :=
  match acts with [] => Some s | a :: acts' => match act_step a s with Some s' => run acts' s' | None => None end end.

Lemma act_step_sound a s s' : act_step a s = Some s' -> step s s'.
Proof.
  destruct a as [p|p j|p|p]; cbn [act_step].
  - destruct (s.(modes) p) eqn:Hm, (s.(codes) p) eqn:Hc; try done. by apply step_instr.
  - intros H. assert (job_ok j /\ s.(modes) p = On /\ s.(codes) p = [] /\ s' = set_code p (job_code p j) s) as (Hj & Hm & Hc & ->).
    { destruct j, (s.(modes) p), (s.(codes) p); by simplify_eq. }
    by apply step_job.
  - destruct (s.(modes) p) eqn:Hm; try done. intros [= <-]. by apply step_leave.
  - destruct (s.(lks) (LkProc p)) eqn:Hl, (s.(sts) p) eqn:Hs; try done. intros [= <-]. by apply step_dispatch.
Qed.
Lemma run_sound acts s s' : run acts s = Some s' -> rtc step s s'.
Proof.
  revert s. induction acts as [|a acts IH]; intros s; cbn [run]; [by intros [= ->]|].
  destruct (act_step a s) as [s1|] eqn:E; [|done]. intros H. eapply rtc_l; [by apply act_step_sound in E|by apply IH].
Qed.

(** The panics of the spin locks and of [sched] that an instruction of process [p] could hit. *)
Definition no_panic (s : sys) (p : nat) (i : instr) : Prop :=
  match i with
  | Acquire l => s.(lks) l <> Some p
  | Release l => s.(lks) l = Some p
  | Sched => s.(lks) (LkProc p) = Some p /\ (forall l, l <> LkProc p -> s.(lks) l <> Some p) /\ s.(sts) p <> RUNNING
  | _ => True
  end.

Lemma inv_no_panic s p i r : inv s -> s.(modes) p = On -> s.(codes) p = i :: r -> no_panic s p i.
Proof.
  intros I Hm Hc. pose proof (iv_ok _ I p) as Hok. rewrite Hc in Hok. destruct Hok as (Hn & _).
  assert (Hl : forall l, s.(lks) l = Some p <-> owes l (i :: r) = true).
  { intros l. rewrite (iv_lk _ I), Hm, Hc. split; [by intros []|]. intros H. split; [done|by intros []]. }
  destruct i as [l|l| | | | | | |]; try done; cbn [no_panic].
  - rewrite Hl. cbn. by rewrite decide_True.
  - rewrite Hl. cbn. by rewrite decide_True.
  - destruct Hn as [Hn1 Hn2]. split; [by apply Hl|]. split; [|by apply (iv_sched _ I p r)].
    intros l Hne. rewrite Hl. cbn. by rewrite Hn2.
Qed.
End Sleeping.

(** ** Sleeping on a sleep lock *)

(** C34. No wakeup of a sleep lock is lost.  Any number of processes and harts are
    interleaved instruction by instruction, over the code of acquiresleep(),
    releasesleep(), sleep(), wakeup() and yield() and the scheduler's two switches; the
    instruction lists are those functions ([instr_faithful]).  sleep() takes p->lock, only then
    releases the sleep lock's spin lock, and sets p->chan and p->state after that, so there
    is a window in which the lock can be given up and the wakeup started.  In every
    reachable state a process that sleeps on a sleep lock has a reason to: the lock is held, or
    the process that gave it up still holds its spin lock and has the wakeup of this very
    process ahead of it.  And no process is ever run by two harts, a lock is only released by
    its holder and never acquired twice, and sched() is entered with p->lock as the only lock
    and the state changed, so that none of their panics is hit. *)
Theorem sleep_no_lost_wakeup `{W : Wakes} s :
  rtc Sleeping.step Sleeping.init s ->
  instr_faithful /\
  (forall p l, s.(Sleeping.sts) p = SLEEPING -> s.(Sleeping.chans) p = Some (ChSleeplock l) ->
     s.(Sleeping.locked) l = true \/
     exists w, s.(Sleeping.lks) (LkSleep l) = Some w /\ Wake p (ChSleeplock l) ∈ s.(Sleeping.codes) w) /\
  (forall p, s.(Sleeping.modes) p <> Sleeping.Twice) /\
  (forall p i r, s.(Sleeping.modes) p = Sleeping.On -> s.(Sleeping.codes) p = i :: r -> Sleeping.no_panic s p i).
Proof.
  intros Hr. pose proof (Sleeping.sleeping_reachable s Hr) as I. split; [apply instrs_faithful|]. split; [|split].
  - intros p l Hs Hc. apply (Sleeping.iv_bound _ I). by left.
  - apply I.
  - intros p i r. by apply Sleeping.inv_no_panic.
Qed.

(** Process 0 takes a buffer's sleep lock and process 1 goes to sleep on it; process 0 starts
    to give it up: the lock is free, process 1 sleeps, and its wakeup is ahead. *)
Definition demo_acts : list Sleeping.act :=
  let l := SlBuf 0 in
  [Sleeping.Dispatch 0; Sleeping.Do 0; Sleeping.Start 0 (Sleeping.Jacquiresleep l)] ++ replicate 4 (Sleeping.Do 0) ++
  [Sleeping.Dispatch 1; Sleeping.Do 1; Sleeping.Start 1 (Sleeping.Jacquiresleep l)] ++ replicate 7 (Sleeping.Do 1) ++
  [Sleeping.Leave 1; Sleeping.Start 0 (Sleeping.Jreleasesleep l); Sleeping.Do 0; Sleeping.Do 0].
Definition demo_sys : Sleeping.sys := default Sleeping.init (Sleeping.run demo_acts Sleeping.init).

Lemma sleep_no_lost_wakeup_witness :
  demo_sys.(Sleeping.sts) 1%nat = SLEEPING /\ demo_sys.(Sleeping.locked) (SlBuf 0) = false /\
  exists w, demo_sys.(Sleeping.lks) (LkSleep (SlBuf 0)) = Some w /\
            Wake 1 (ChSleeplock (SlBuf 0)) ∈ demo_sys.(Sleeping.codes) w.
Proof.
  assert (Hst : demo_sys.(Sleeping.sts) 1%nat = SLEEPING) by (vm_compute; reflexivity).
  assert (Hch : demo_sys.(Sleeping.chans) 1%nat = Some (ChSleeplock (SlBuf 0))) by (vm_compute; reflexivity).
  assert (Hlk : demo_sys.(Sleeping.locked) (SlBuf 0) = false) by (vm_compute; reflexivity).
  assert (Hr : rtc Sleeping.step Sleeping.init demo_sys).
  { apply (Sleeping.run_sound demo_acts). vm_compute. reflexivity. }
  split; [exact Hst|]. split; [exact Hlk|].
  destruct (sleep_no_lost_wakeup (W := 1%nat) demo_sys Hr) as (_ & Hw & _).
  destruct (Hw 1%nat (SlBuf 0) Hst Hch) as [E|E]; [congruence|exact E].
Defined.
