(* ===== verification/Seq.v ===== *)
(** * One hart at work: erasing the locks

    Code of a process that finds the locks it wants free behaves like the same
    code without its lock operations.  [calm H k] says that the hart holds
    exactly the spinlocks [H] and runs process [me]; [rest k] forgets what locking
    and waking change (this hart's struct cpu, the lock table and the process
    table).  [sim H H' c c'] says that [c], from a calm state holding [H] to one
    holding [H'], does to the rest of the kernel what [c'] does; [c'] is [c]
    without its locks, so the specifications above this file speak of plain
    sequential code. *)

From Stdlib Require Import ZArith Lia.
From stdpp Require Import base list numbers strings gmap.
From S2P Require Import Prelude Types Mem Layout Kalloc State Spinlock Printf Proc ProcSpec Sleeplock.
Open Scope Z_scope.

Definition rest (k : kernel) : kernel :=
  set_cpu (mkcpu None 0 false false 0) (set_locks ∅ (set_procs (set_state UNUSED <$> k.(k_procs)) k)).

Section seq.
Context (me : nat) (pid : Z).

Record calm (H : list lockid) (k : kernel) : Prop := {
  calm_locks : forall lk, k.(k_locks) !! lk = if decide (lk ∈ H) then Some k.(k_cpu).(c_id) else None;
  calm_noff : k.(k_cpu).(c_noff) = Z.of_nat (length H);
  calm_sie : H ≠ [] -> k.(k_cpu).(c_sie) = false;
  calm_proc : k.(k_cpu).(c_proc) = Some me;
  calm_procs : length k.(k_procs) = NPROC;
  calm_pid : p_pid (k.(k_procs) !!! me) = pid }.

Lemma calm_ok H k : calm H k -> cpu_ok k.(k_cpu).
Proof.
  intros C. split; rewrite (calm_noff _ _ C); [lia|]. intros Hl. apply (calm_sie _ _ C). by destruct H.
Qed.

(** Whether code is calm depends only on the parts [rest] forgets. *)
Lemma calm_parts H k k' :
  calm H k -> k'.(k_cpu) = k.(k_cpu) -> k'.(k_locks) = k.(k_locks) -> k'.(k_procs) = k.(k_procs) -> calm H k'.
Proof. intros [] E1 E2 E3. constructor; rewrite ?E1, ?E2, ?E3; auto. Qed.

Lemma calm_settled H k : calm H k -> calm H (settled k).
Proof. intros []. by constructor. Qed.

Lemma rest_settled k : rest (settled k) = rest k.
Proof. by destruct k. Qed.

Definition sim {A} (H H' : list lockid) (c c' : M kernel A) : Prop :=
  forall k, calm H k ->
    match c' (rest k) with
    | Ok a r => runs (c k) (fun a' k' => a' = a /\ calm H' k' /\ rest k' = r)
    | Panic m => c k = Panic m
    | _ => True
    end.

Lemma sim_ret {A} H (a : A) : sim H H (mret a) (mret a).
Proof. by intros k C. Qed.
Lemma sim_panic {A} H H' m : sim (A := A) H H' (panic m) (panic m).
Proof. by intros k C. Qed.
Lemma sim_nofuel {A} H H' c : sim (A := A) H H' c nofuel.
Proof. by intros k C. Qed.

Lemma sim_gets {A} H (g : kernel -> A) : (forall k, g (rest k) = g k) -> sim H H (gets g) (gets g).
Proof. intros Hg k C. unfold gets. simpl. by rewrite Hg. Qed.

Lemma sim_modify H (g : kernel -> kernel) :
  (forall k, rest (g k) = g (rest k)) ->
  (forall k, k_cpu (g k) = k_cpu k /\ k_locks (g k) = k_locks k /\ k_procs (g k) = k_procs k) ->
  sim H H (modify g) (modify g).
Proof.
  intros Hr Hp k C. unfold modify. simpl. split; [done|]. split; [|apply Hr].
  destruct (Hp k) as (E1 & E2 & E3). by eapply calm_parts.
Qed.

Lemma sim_bind {A B} H1 H2 H3 (c c' : M kernel A) (f f' : A -> M kernel B) :
  sim H1 H2 c c' -> (forall a, sim H2 H3 (f a) (f' a)) -> sim H1 H3 (x ← c; f x) (x ← c'; f' x).
Proof.
  intros Hc Hf k C. specialize (Hc k C). unfold mbind, M_bind. destruct (c' (rest k)) as [a r|m|r K|]; simpl; try done.
  - apply runs_ok in Hc as (a' & k' & E & -> & C' & <-). rewrite E. simpl. apply (Hf a k' C').
  - by rewrite Hc.
Qed.

(** A lock operation has nothing to leave in the erased code. *)
Lemma sim_skip {B} H1 H2 H3 (c : M kernel unit) (f : M kernel B) f' :
  sim H1 H2 c (mret tt) -> sim H2 H3 f f' -> sim H1 H3 (c ;; f) f'.
Proof.
  intros Hc Hf k C. specialize (Hc k C). apply runs_ok in Hc as (a' & k' & E & -> & C' & R).
  rewrite (bind_ok _ _ _ _ _ E). specialize (Hf k' C'). by rewrite R in Hf.
Qed.

(** A computed value that does not depend on the erased parts. *)
Lemma sim_value {A B} H1 H2 (c : M kernel A) a (f : A -> M kernel B) f' :
  sim H1 H1 c (mret a) -> sim H1 H2 (f a) f' -> sim H1 H2 (x ← c; f x) f'.
Proof.
  intros Hc Hf k C. specialize (Hc k C). apply runs_ok in Hc as (a' & k' & E & -> & C' & R).
  rewrite (bind_ok _ _ _ _ _ E). specialize (Hf k' C'). by rewrite R in Hf.
Qed.

Lemma sim_acquire H lk : lk ∉ H -> sim H (lk :: H) (acquire lk) (mret tt).
Proof.
  intros Hn k C. rewrite acquire_eq by (rewrite (calm_locks _ _ C); by rewrite decide_False). simpl.
  split; [done|]. split; [|by destruct k]. destruct C. constructor; simpl; auto.
  - intros lk'. destruct (decide (lk' = lk)) as [->|Hne].
    + rewrite lookup_insert_eq. by rewrite decide_True by set_solver.
    + rewrite lookup_insert_ne by done. rewrite calm_locks0. repeat case_decide; try done; set_solver.
  - rewrite calm_noff0. lia.
Qed.

(** The cpu after a [pop_off] with [n] locks still held. *)
Lemma pop_off_calm cp n ci cid k :
  pop_off (set_cpu (mkcpu cp (Z.of_nat (S n)) ci false cid) k) =
    Ok tt (set_cpu (mkcpu cp (Z.of_nat n) ci (bool_decide (n = 0%nat) && ci) cid) k).
Proof.
  assert (Hlt : (Z.of_nat (S n) <? 1) = false) by (apply Z.ltb_ge; lia).
  unfold pop_off, intr_get, intr_on, mycpu, set_noff. mstep. cbn [k_cpu set_cpu c_sie]. mstep. cbn [k_cpu set_cpu c_noff]. rewrite Hlt.
  mstep. cbn [k_cpu set_cpu c_sie c_noff c_intena c_proc c_id].
  replace (Z.of_nat (S n) - 1) with (Z.of_nat n) by lia.
  case_bool_decide as E; [subst; destruct ci; reflexivity|].
  replace (Z.of_nat n =? 0) with false by (symmetry; apply Z.eqb_neq; lia). reflexivity.
Qed.

Lemma sim_release H lk : lk ∉ H -> sim (lk :: H) H (release lk) (mret tt).
Proof.
  intros Hn k C. unfold release, holding.
  assert (Hl : k_locks k !! lk = Some (c_id (k_cpu k)))
    by (rewrite (calm_locks _ _ C); by rewrite decide_True by set_solver).
  mstep. rewrite bool_decide_true by done. mstep. cbn [negb].
  destruct C as [Cl Cn Cs Cp Cps Cpid]. destruct k as [[cp cn ci cs cid]]. cbn in *.
  rewrite Cs, Cn in * by done. mstep.
  match goal with |- context [pop_off ?x] =>
    change x with (set_cpu (mkcpu cp (Z.of_nat (S (length H))) ci false cid) x) end.
  rewrite pop_off_calm. simpl. split; [done|]. split; [|done]. constructor; simpl; auto.
  - intros lk'. destruct (decide (lk' = lk)) as [->|Hne].
    + rewrite lookup_delete_eq. by rewrite decide_False.
    + rewrite lookup_delete_ne by done. rewrite Cl. repeat case_decide; try done; set_solver.
  - intros HH. rewrite bool_decide_false; [done|]. by destruct H.
Qed.

Lemma sim_curproc H : sim H H curproc (mret me).
Proof.
  intros k C. rewrite (curproc_eq k me) by (eauto using calm_ok, calm_proc). simpl.
  split; [done|]. split; [by apply calm_settled|apply rest_settled].
Qed.

(** The pid of the current process. *)
Lemma sim_mypid {B} H H' (f : Z -> M kernel B) c' :
  sim H H' (f pid) c' -> sim H H' (i ← curproc; p ← getp i; f p.(p_pid)) c'.
Proof.
  intros Hf k C. rewrite (bind_ok _ _ _ _ _ (curproc_eq k me (calm_ok _ _ C) (calm_proc _ _ C))).
  unfold getp. rewrite bind_gets. cbn [k_procs settled set_cpu]. rewrite (calm_pid _ _ C).
  specialize (Hf _ (calm_settled _ _ C)). by rewrite rest_settled in Hf.
Qed.

Lemma wake_pid me' chan i p : p_pid (wake me' chan i p) = p_pid p.
Proof. unfold wake. by case_decide. Qed.

Lemma wake_states me' chan l : set_state UNUSED <$> imap (wake me' chan) l = set_state UNUSED <$> l.
Proof.
  apply list_eq. intros i. rewrite !list_lookup_fmap, list_lookup_imap. destruct (l !! i); [|done]. cbn. f_equal. unfold wake. by case_decide.
Qed.

Lemma sim_wakeup H chan : (forall i, LkProc i ∉ H) -> sim H H (wakeup chan) (mret tt).
Proof.
  intros Hn k C. rewrite wakeup_eq; [| |apply C|].
  - simpl. split; [done|]. split; [|rewrite rest_settled; unfold rest; cbn [k_procs set_procs]; rewrite wake_states; by destruct k]. apply calm_settled.
    destruct C. constructor; simpl; auto; [by rewrite length_imap|].
    destruct (decide (me < NPROC)%nat) as [Hlt|Hge].
    + destruct (lookup_lt_is_Some_2 (k_procs k) me ltac:(lia)) as [p Hp].
      rewrite (list_lookup_total_correct _ _ _ Hp) in calm_pid0. erewrite list_lookup_total_correct;
        [|by rewrite list_lookup_imap, Hp]. by rewrite wake_pid.
    + rewrite list_lookup_total_alt, lookup_ge_None_2 by (rewrite length_imap; lia).
      rewrite list_lookup_total_alt, lookup_ge_None_2 in calm_pid0 by lia. done.
  - by eapply calm_ok.
  - intros i _. rewrite (calm_locks _ _ C). by rewrite decide_False.
Qed.

Lemma sim_printf H fmt ap : LkPr ∉ H -> sim H H (printf fmt ap) (modify (sent (printed fmt ap))).
Proof.
  intros Hn. unfold printf. eapply sim_skip; [by apply sim_acquire|].
  intros k C. rewrite (bind_ok _ _ _ _ _ (printf_loop_printed fmt ap k (calm_ok _ _ C)
    ltac:(rewrite (calm_noff _ _ C); simpl; lia))).
  pose proof (sim_release H LkPr Hn (sent (printed fmt ap) k)) as Hr. apply Hr.
  by eapply calm_parts.
Qed.

(** ** Sleep locks without contention *)

Definition sl_acquire (l : slid) : M kernel unit :=
  o ← gets (fun k => k.(k_slocks) !! l);
  match o with
  | None => modify (fun k => set_slocks (<[l := pid]> k.(k_slocks)) k)
  | Some _ => nofuel
  end.
Definition sl_release (l : slid) : M kernel unit :=
  modify (fun k => set_slocks (delete l k.(k_slocks)) k).
Definition sl_holding (l : slid) : M kernel bool :=
  gets (fun k => bool_decide (k.(k_slocks) !! l = Some pid)).

(** The last lock operation of a procedure. *)
Lemma sim_last H1 H2 H3 (c : M kernel unit) c' (r : M kernel unit) :
  sim H1 H2 c c' -> sim H2 H3 r (mret tt) -> sim H1 H3 (c ;; r) c'.
Proof.
  intros Hc Hr k C. specialize (Hc k C). unfold mbind, M_bind.
  destruct (c' (rest k)) as [a r'|m|r' K|]; simpl in *; try done; [|by rewrite Hc].
  apply runs_ok in Hc as (a' & k' & E & -> & C' & <-). rewrite E. simpl. specialize (Hr k' C'). by destruct a.
Qed.

(** Branching on a value both codes read. *)
Lemma sim_read {A B} H H' (g : kernel -> A) (f f' : A -> M kernel B) :
  (forall k, g (rest k) = g k) -> (forall a, sim H H' (f a) (f' a)) ->
  sim H H' (x ← gets g; f x) (x ← gets g; f' x).
Proof. intros Hg Hf. eapply sim_bind; [by apply sim_gets|done]. Qed.

Lemma sim_slock_wait `{W : Wakes} H H' l n (c : M kernel unit) c' :
  sim H H' c c' ->
  sim H H' (acquiresleep_wait n l ;; c)
    (o ← gets (fun k => k.(k_slocks) !! l); match o with None => c' | Some _ => nofuel end).
Proof.
  intros Hc k C. rewrite bind_gets. cbn [rest set_cpu set_locks set_procs k_slocks].
  destruct (k_slocks k !! l) eqn:E; [done|].
  assert (Hw : acquiresleep_wait n l k = Ok tt k) by (destruct n; cbn [acquiresleep_wait]; by rewrite bind_gets, E).
  rewrite (bind_ok _ _ _ _ _ Hw). apply (Hc k C).
Qed.

Lemma sim_acquiresleep `{W : Wakes} H l :
  LkSleep l ∉ H -> sim H H (acquiresleep l) (sl_acquire l).
Proof.
  intros Hl. unfold acquiresleep, sl_acquire. eapply sim_skip; [by apply sim_acquire|].
  apply sim_slock_wait.
  apply (sim_mypid _ _ (fun q => modify (fun k => set_slocks (<[l := q]> k.(k_slocks)) k) ;; release (LkSleep l))).
  eapply sim_last; [by apply sim_modify|by apply sim_release].
Qed.

Lemma sim_releasesleep H l :
  LkSleep l ∉ H -> (forall i, LkProc i ∉ H) -> sim H H (releasesleep l) (sl_release l).
Proof.
  intros Hl Hp. unfold releasesleep, sl_release. eapply sim_skip; [by apply sim_acquire|].
  eapply sim_last; [by apply sim_modify|]. eapply sim_skip; [apply sim_wakeup|by apply sim_release].
  intros i. specialize (Hp i). set_solver.
Qed.

Lemma sim_holdingsleep H l : LkSleep l ∉ H -> sim H H (holdingsleep l) (sl_holding l).
Proof.
  intros Hl. unfold holdingsleep, sl_holding. eapply sim_skip; [by apply sim_acquire|].
  intros k C. rewrite bind_gets. unfold gets at 1. cbn [rest set_cpu set_locks set_procs k_slocks].
  destruct (k_slocks k !! l) as [q|] eqn:E.
  - pose proof (sim_mypid (LkSleep l :: H) H (fun p => release (LkSleep l) ;; mret (q =? p))
      (mret (q =? pid)) (sim_skip _ _ _ _ _ _ (sim_release _ _ Hl) (sim_ret _ _)) k C) as Hs.
    simpl in Hs. rewrite (bind_ok _ _ _ _ _ (curproc_eq k me (calm_ok _ _ C) (calm_proc _ _ C))) in Hs.
    unfold mbind at 1, M_bind at 1.
    rewrite (bind_ok _ _ _ _ _ (curproc_eq k me (calm_ok _ _ C) (calm_proc _ _ C))).
    cbn [rbind getp gets mbind M_bind mret M_ret] in *. eapply runs_mono; [exact Hs|].
    intros b k' (-> & C' & R). split; [|done]. apply eq_true_iff_eq. rewrite Z.eqb_eq, bool_decide_eq_true.
    split; congruence.
  - rewrite bind_ret. rewrite bool_decide_false by done.
    apply (sim_skip _ _ _ _ _ _ (sim_release _ _ Hl) (sim_ret _ false) k C).
Qed.
End seq.
