(* ===== verification/Bio.v ===== *)
(** * The buffer cache (kernel/bio.c)

    bcache.buf[] and bcache.head are one list of NBUF+1 buffers, the head last;
    prev and next are indices of it, so the LRU list is the doubly linked list
    of the code.

    The disk driver is an interface: [Disk] is its one entry point and [DiskOK]
    what the cache relies on, that the block has been copied between the buffer
    and the disk when the call returns. *)

From S2P Require Import Prelude Types Mem Layout Kalloc Vm State Spinlock Proc Sleeplock.
From Stdlib Require Import ZArith Lia.
From stdpp Require Import base list numbers strings gmap.
Open Scope Z_scope.

Definition bhead : nat := NBUF.

Definition getb (i : nat) : M kernel buf := gets (fun k => k.(k_bcache) !!! i).
Definition modb (i : nat) (f : buf -> buf) : M kernel unit :=
  modify (fun k => set_bcache (alter f i k.(k_bcache)) k).

(** Insert the buffer [b] at the front of the list. *)
Definition link_front (b : nat) : M kernel unit :=
  h ← getb bhead;
  modb b (set_next h.(b_next)) ;;
  modb b (set_prev bhead) ;;
  h ← getb bhead;
  modb h.(b_next) (set_prev b) ;;
  modb bhead (set_next b).

Definition binit : M kernel unit :=
  initlock LkBcache ;;
  modb bhead (set_prev bhead) ;;
  modb bhead (set_next bhead) ;;
  foreach (seq 0 NBUF) (fun b =>
    h ← getb bhead;
    modb b (set_next h.(b_next)) ;;
    modb b (set_prev bhead) ;;
    initsleeplock (SlBuf b) ;;
    h ← getb bhead;
    modb h.(b_next) (set_prev b) ;;
    modb bhead (set_next b)).

(** for(b = ...; b != &bcache.head; b = dir(b)) if(P(b)): the first buffer
    that satisfies [P] in list order; the list has NBUF buffers. *)
Fixpoint scan (fuel : nat) (dir : buf -> nat) (P : buf -> bool) (b : nat) : M kernel (option nat) :=
  if bool_decide (b = bhead) then mret None
  else
    match fuel with
    | O => nofuel
    | S f => x ← getb b; if P x then mret (Some b) else scan f dir P (dir x)
    end.

(** virtio_disk_rw(b, write) and virtio_disk_intr() *)
Class Disk := {
  virtio_disk_rw : nat -> bool -> M kernel unit;
  virtio_disk_intr : M kernel unit
}.

(** The effect of a disk request on the buffer and the disk. *)
Definition transfer (b : nat) (write : bool) : M kernel unit :=
  x ← getb b;
  if write then modify (fun k => set_disk (disk_write x.(b_blockno) x.(b_data) k.(k_disk)) k)
  else
    d ← gets (fun k => disk_read k.(k_disk) x.(b_blockno));
    modb b (set_data d).

Class DiskOK `{D : Disk} : Prop := disk_rw_transfer : forall b w k, virtio_disk_rw b w k = transfer b w k.

Section bio.
Context `{W : Wakes} `{D : Disk}.

Definition bget (dev blockno : Z) : M kernel nat :=
  acquire LkBcache ;;
  h ← getb bhead;
  r ← scan NBUF b_next (fun x => (x.(b_dev) =? dev) && (x.(b_blockno) =? blockno)) h.(b_next);
  match r with
  | Some b =>
      modb b (fun x => set_refcnt (u32 (x.(b_refcnt) + 1)) x) ;;
      release LkBcache ;;
      acquiresleep (SlBuf b) ;;
      mret b
  | None =>
      h ← getb bhead;
      r ← scan NBUF b_prev (fun x => x.(b_refcnt) =? 0) h.(b_prev);
      match r with
      | Some b =>
          modb b (set_block dev blockno) ;;
          release LkBcache ;;
          acquiresleep (SlBuf b) ;;
          mret b
      | None => panic "bget: no buffers"
      end
  end.

Definition bread (dev blockno : Z) : M kernel nat :=
  b ← bget dev blockno;
  x ← getb b;
  (if negb x.(b_valid) then virtio_disk_rw b false ;; modb b (set_valid true) else mret tt) ;;
  mret b.

Definition bwrite (b : nat) : M kernel unit :=
  h ← holdingsleep (SlBuf b);
  if negb h then panic "bwrite" else virtio_disk_rw b true.
End bio.

Definition brelse (b : nat) : M kernel unit :=
  h ← holdingsleep (SlBuf b);
  if negb h then panic "brelse"
  else
    releasesleep (SlBuf b) ;;
    acquire LkBcache ;;
    modb b (fun x => set_refcnt (u32 (x.(b_refcnt) - 1)) x) ;;
    x ← getb b;
    (if x.(b_refcnt) =? 0 then
       modb x.(b_next) (set_prev x.(b_prev)) ;;
       x ← getb b;
       modb x.(b_prev) (set_next x.(b_next)) ;;
       link_front b
     else mret tt) ;;
    release LkBcache.

Definition bpin (b : nat) : M kernel unit :=
  acquire LkBcache ;;
  modb b (fun x => set_refcnt (u32 (x.(b_refcnt) + 1)) x) ;;
  release LkBcache.

Definition bunpin (b : nat) : M kernel unit :=
  acquire LkBcache ;;
  modb b (fun x => set_refcnt (u32 (x.(b_refcnt) - 1)) x) ;;
  release LkBcache.
