(* ===== verification/BioSpec.v ===== *)
(** * What the buffer cache does

    The LRU list is a ring through every buffer ([links]); [brelse] moves a
    buffer that is no longer used to its front and [bget] recycles from its back.
    [cache] is the invariant of the cache and [view] what it holds: a block is
    the contents of the buffer that caches it, else what the disk has.  The
    operations are specified by their effect on [view], on the reference counts
    and on the disk; the ring stays hidden behind them. *)

From Stdlib Require Import ZArith Lia.
From stdpp Require Import base list numbers strings gmap.
From S2P Require Import Prelude Types Mem Layout Kalloc State Spinlock Printf Proc ProcSpec Sleeplock Bio Seq.
Open Scope Z_scope.

(** ** The ring *)

Fixpoint links (bc : list buf) (l : list nat) : Prop :=
  match l with
  | a :: (b :: _) as t => b_next (bc !!! a) = b /\ b_prev (bc !!! b) = a /\ links bc t
  | _ => True
  end.

Lemma links_app bc l a c m :
  links bc ((l ++ [a]) ++ c :: m) <->
  links bc (l ++ [a]) /\ b_next (bc !!! a) = c /\ b_prev (bc !!! c) = a /\ links bc (c :: m).
Proof.
  induction l as [|x l IH]; [simpl; tauto|].
  destruct l as [|y l]; [simpl in *; tauto|].
  change ((((x :: y :: l) ++ [a]) ++ c :: m)) with (x :: ((y :: l) ++ [a]) ++ c :: m).
  change ((x :: y :: l) ++ [a]) with (x :: (y :: l) ++ [a]).
  cbn [links app] in *. tauto.
Qed.

Lemma links_cons bc a b l :
  links bc (a :: b :: l) <-> b_next (bc !!! a) = b /\ b_prev (bc !!! b) = a /\ links bc (b :: l).
Proof. done. Qed.

Lemma lookup_total_alter (f : buf -> buf) i j (bc : list buf) :
  (j < length bc)%nat -> alter f i bc !!! j = if decide (i = j) then f (bc !!! j) else bc !!! j.
Proof.
  intros Hj. rewrite list_lookup_total_alter. destruct (decide (i = j)) as [->|Hne].
  - by rewrite decide_True.
  - rewrite decide_False; [done|tauto].
Qed.

(** Only the next fields of all but the last and the prev fields of all but the
    first matter. *)
Lemma links_ext bc bc' l :
  (forall p x q, l = p ++ x :: q -> (q ≠ [] -> b_next (bc' !!! x) = b_next (bc !!! x)) /\
                 (p ≠ [] -> b_prev (bc' !!! x) = b_prev (bc !!! x))) ->
  links bc l -> links bc' l.
Proof.
  induction l as [|a l IH]; [done|]. destruct l as [|b l]; [done|]. intros He (H1 & H2 & H3).
  split; [|split].
  - by rewrite (proj1 (He [] a (b :: l) eq_refl)).
  - by rewrite (proj2 (He [a] b l eq_refl)).
  - apply IH; [|done]. intros p x q Hl. destruct (He (a :: p) x q) as [Hn Hp]; [simpl; by rewrite Hl|].
    split; [done|]. intros _. by apply Hp.
Qed.

(** Buffers whose contents change keep their place. *)
Lemma links_alter bc f i l :
  (forall x, b_next (f x) = b_next x /\ b_prev (f x) = b_prev x) ->
  (forall x, x ∈ l -> (x < length bc)%nat) -> links bc l -> links (alter f i bc) l.
Proof.
  intros Hf Hl. apply links_ext. intros p x q ->.
  rewrite lookup_total_alter by (apply Hl; set_solver). case_decide; [|done]. split; intros; apply Hf.
Qed.

Definition ring (bc : list buf) (l : list nat) : Prop :=
  length bc = S NBUF /\ l ≡ₚ seq 0 NBUF /\ links bc (bhead :: l ++ [bhead]).

Lemma ring_lt bc l x : ring bc l -> x ∈ l <-> (x < NBUF)%nat.
Proof. intros (_ & Hp & _). rewrite Hp, elem_of_seq. lia. Qed.
Lemma ring_nodup bc l : ring bc l -> NoDup l.
Proof. intros (_ & Hp & _). rewrite Hp. apply NoDup_seq. Qed.
Lemma ring_nohead bc l : ring bc l -> bhead ∉ l.
Proof. intros Hr. rewrite (ring_lt bc l bhead Hr). unfold bhead. lia. Qed.

Lemma ring_alter bc f i l :
  (forall x, b_next (f x) = b_next x /\ b_prev (f x) = b_prev x) -> ring bc l -> ring (alter f i bc) l.
Proof.
  intros Hf Hr. pose proof Hr as (Hl & Hp & Hk). split; [by rewrite length_alter|]. split; [done|].
  apply links_alter; [done| |done]. intros x Hx. rewrite Hl.
  assert (x = bhead \/ x ∈ l) as [->|Hx'] by set_solver; [unfold bhead; lia|].
  apply (ring_lt bc l x Hr) in Hx'. lia.
Qed.

(** ** Moving a buffer to the front *)

Definition to_front (b : nat) (bc : list buf) : list buf :=
  let x := bc !!! b in
  let bc := alter (set_prev x.(b_prev)) x.(b_next) bc in
  let x := bc !!! b in
  let bc := alter (set_next x.(b_next)) x.(b_prev) bc in
  let bc := alter (set_next (b_next (bc !!! bhead))) b bc in
  let bc := alter (set_prev bhead) b bc in
  let bc := alter (set_prev b) (b_next (bc !!! bhead)) bc in
  alter (set_next b) bhead bc.

Lemma last_snoc (l : list nat) x : exists l' a, x :: l = l' ++ [a].
Proof. destruct (exists_last (l := x :: l)) as (l' & a & ?); [done|]. eauto. Qed.

Lemma elem_mid {A} (p q : list A) x : x ∈ p ++ x :: q.
Proof. rewrite elem_of_app, elem_of_cons. auto. Qed.

(** In a list without repetition the last element has no successor and the
    first no predecessor. *)
Lemma nodup_last (l p q : list nat) a : NoDup (l ++ [a]) -> l ++ [a] = p ++ a :: q -> q = [].
Proof.
  intros Hn E. destruct q as [|y q _] using rev_ind; [done|exfalso].
  rewrite app_comm_cons, app_assoc in E. apply app_inj_2 in E as [E [= ->]]; [|done].
  apply NoDup_app in Hn as (_ & Hn & _). apply (Hn y); [|by left]. rewrite E. apply elem_mid.
Qed.
Lemma nodup_first (l p q : list nat) c : NoDup (c :: l) -> c :: l = p ++ c :: q -> p = [].
Proof.
  intros Hn E. destruct p as [|y p]; [done|exfalso]. injection E as -> ->.
  apply NoDup_cons in Hn as [Hn _]. apply Hn, elem_mid.
Qed.

(** Setting the next of the last element, or the prev of the first, or a
    field of a buffer outside. *)
Lemma links_set_next bc l a y :
  (forall x, x ∈ l -> (x < length bc)%nat) ->
  (forall p q, l = p ++ a :: q -> q = []) -> links bc l -> links (alter (set_next y) a bc) l.
Proof.
  intros Hlt Hl. apply links_ext. intros p x q E. rewrite lookup_total_alter by (apply Hlt; rewrite E; apply elem_mid).
  case_decide; [subst a|done]. split; [|done]. intros Hq. destruct Hq. by eapply Hl.
Qed.
Lemma links_set_prev bc l c y :
  (forall x, x ∈ l -> (x < length bc)%nat) ->
  (forall p q, l = p ++ c :: q -> p = []) -> links bc l -> links (alter (set_prev y) c bc) l.
Proof.
  intros Hlt Hl. apply links_ext. intros p x q E. rewrite lookup_total_alter by (apply Hlt; rewrite E; apply elem_mid).
  case_decide; [subst c|done]. split; [done|]. intros Hp. destruct Hp. by eapply Hl.
Qed.

(** Joining a list that ends in [a] and one that starts with [c]. *)
Lemma links_join bc p a c q :
  (forall x, x ∈ p ++ [a] -> (x < length bc)%nat) -> (forall x, x ∈ c :: q -> (x < length bc)%nat) ->
  (forall u v, p ++ [a] = u ++ a :: v -> v = []) -> (forall u v, c :: q = u ++ c :: v -> u = []) ->
  (forall u v, c :: q = u ++ a :: v -> v = []) -> (forall u v, p ++ [a] = u ++ c :: v -> u = []) ->
  links bc (p ++ [a]) -> links bc (c :: q) ->
  links (alter (set_next c) a (alter (set_prev a) c bc)) ((p ++ [a]) ++ c :: q).
Proof.
  intros L1 L2 N1 N2 N3 N4 K1 K2. apply links_app. split; [|split; [|split]].
  - apply links_set_next; [by intros; rewrite length_alter; auto|done|]. by apply links_set_prev.
  - rewrite lookup_total_alter by (rewrite length_alter; apply L1, elem_mid). by rewrite decide_True.
  - rewrite lookup_total_alter by (rewrite length_alter; apply L2; by left).
    rewrite lookup_total_alter by (apply L2; by left). rewrite (decide_True (P := c = c)) by done. by case_decide.
  - apply links_set_next; [by intros; rewrite length_alter; auto|done|]. by apply links_set_prev.
Qed.

Lemma not_mid {A} (p q l : list A) x : x ∉ l -> l ≠ p ++ x :: q.
Proof. intros Hx ->. apply Hx, elem_mid. Qed.

Lemma cut_spec bc l1 b l2 :
  ring bc (l1 ++ b :: l2) ->
  let x := bc !!! b in
  let bc' := alter (set_next x.(b_next)) x.(b_prev) (alter (set_prev x.(b_prev)) x.(b_next) bc) in
  links bc' (bhead :: (l1 ++ l2) ++ [bhead]) /\
  alter (set_prev x.(b_prev)) x.(b_next) bc !!! b = x.
Proof.
  intros Hr. pose proof (ring_nodup _ _ Hr) as Hn. pose proof (ring_nohead _ _ Hr) as Hh.
  pose proof Hr as (Hlen & Hp & Hk).
  assert (Hlt : forall y, y = bhead \/ y ∈ l1 ++ b :: l2 -> (y < length bc)%nat).
  { intros y [->|Hy]; rewrite Hlen; [unfold bhead; lia|]. apply (ring_lt _ _ y Hr) in Hy. lia. }
  destruct (last_snoc l1 bhead) as (p & a & Ea).
  destruct (l2 ++ [bhead]) as [|c q] eqn:Ec; [by destruct l2|].
  replace (bhead :: (l1 ++ b :: l2) ++ [bhead]) with ((p ++ [a]) ++ b :: c :: q) in Hk
    by (rewrite <- Ea, <- Ec; simpl; by rewrite <- app_assoc).
  apply links_app in Hk as (K1 & K2 & K3 & K4 & K5 & K6). cbn zeta. rewrite K3, K4.
  apply NoDup_app in Hn as (Hn1 & Hd & Hn2). apply NoDup_cons in Hn2 as [Hb2 Hn2].
  rewrite elem_of_app, elem_of_cons in Hh.
  assert (Hnq : NoDup (l2 ++ [bhead])).
  { apply NoDup_app. split; [done|]. split; [|apply NoDup_singleton]. intros y Hy. rewrite list_elem_of_singleton.
    intros ->. tauto. }
  assert (Hnp : NoDup (bhead :: l1)) by (apply NoDup_cons; tauto).
  assert (Hpa : forall y, y ∈ p ++ [a] <-> y = bhead \/ y ∈ l1) by (intros y; by rewrite <- Ea, elem_of_cons).
  assert (Hcq : forall y, y ∈ c :: q <-> y ∈ l2 \/ y = bhead)
    by (intros y; by rewrite <- Ec, elem_of_app, list_elem_of_singleton).
  assert (Hdis : forall y, y ∈ l1 -> y ∈ l2 -> False) by (intros y Hy Hy2; apply (Hd y Hy); by right).
  assert (Hac : a = bhead \/ a ∈ l1) by (apply Hpa, elem_mid).
  assert (Hcc : c ∈ l2 \/ c = bhead) by (apply Hcq; by left).
  split.
  - replace (bhead :: (l1 ++ l2) ++ [bhead]) with ((p ++ [a]) ++ c :: q)
      by (rewrite <- Ea, <- Ec; simpl; by rewrite <- app_assoc).
    apply links_join; auto.
    + intros y Hy. apply Hpa in Hy. apply Hlt. rewrite elem_of_app. tauto.
    + intros y Hy. apply Hcq in Hy. apply Hlt. rewrite elem_of_app, elem_of_cons. tauto.
    + intros u v. apply nodup_last. by rewrite <- Ea.
    + intros u v. apply nodup_first. by rewrite <- Ec.
    + rewrite <- Ec. intros u v E. destruct Hac as [->|Ha]; [by eapply nodup_last|].
      exfalso. apply (not_mid u v (l2 ++ [bhead]) a); [|done]. rewrite elem_of_app, list_elem_of_singleton.
      intros [H| ->]; [eauto|tauto].
    + rewrite <- Ea. intros u v E. destruct Hcc as [Hc| ->]; [|by eapply nodup_first].
      exfalso. apply (not_mid u v (bhead :: l1) c); [|done]. rewrite elem_of_cons. intros [->|H]; [tauto|eauto].
  - rewrite lookup_total_alter by (apply Hlt; right; apply elem_mid). rewrite decide_False; [done|].
    intros ->. destruct Hcc as [H| ->]; tauto.
Qed.

Lemma front_links bc m b :
  length bc = S NBUF -> (forall y, y ∈ b :: m -> (y < NBUF)%nat) -> NoDup (b :: m) -> links bc (bhead :: m ++ [bhead]) ->
  let bc1 := alter (set_prev bhead) b (alter (set_next (b_next (bc !!! bhead))) b bc) in
  links (alter (set_next b) bhead (alter (set_prev b) (b_next (bc1 !!! bhead)) bc1)) (bhead :: (b :: m) ++ [bhead]).
Proof.
  intros Hlen Hm Hn Hk. cbn zeta. set (bc1 := alter _ b _). apply NoDup_cons in Hn as [Hb Hn].
  assert (Hbh : b ≠ bhead) by (intros ->; specialize (Hm bhead ltac:(by left)); unfold bhead in Hm; lia).
  assert (Hmh : bhead ∉ m) by (intros H; specialize (Hm bhead ltac:(by right)); unfold bhead in Hm; lia).
  assert (Hbl : (b < length bc)%nat) by (rewrite Hlen; specialize (Hm b ltac:(by left)); lia).
  assert (Hhl : (bhead < length bc)%nat) by (rewrite Hlen; unfold bhead; lia).
  destruct (m ++ [bhead]) as [|c q] eqn:Ec; [by destruct m|].
  destruct Hk as (K1 & K2 & K3).
  assert (Hin : forall y, y ∈ c :: q -> y ∈ m \/ y = bhead)
    by (intros y; by rewrite <- Ec, elem_of_app, list_elem_of_singleton).
  assert (Hl1 : length bc1 = length bc) by (unfold bc1; by rewrite !length_alter).
  assert (E1 : b_next (bc1 !!! bhead) = c).
  { unfold bc1. rewrite !lookup_total_alter by (rewrite ?length_alter; lia). by rewrite !decide_False. }
  rewrite E1. assert (Hcb : c ≠ b) by (intros ->; destruct (Hin b ltac:(by left)); tauto).
  assert (Hcl : (c < length bc)%nat).
  { destruct (Hin c ltac:(by left)) as [H| ->]; [|done]. rewrite Hlen. specialize (Hm c ltac:(by right)). lia. }
  assert (Hlt : forall bc' : list buf, length bc' = length bc -> forall y, y ∈ c :: q -> (y < length bc')%nat).
  { intros bc' El y Hy. rewrite El. destruct (Hin y Hy) as [H| ->]; [|done]. rewrite Hlen.
    specialize (Hm y ltac:(by right)). lia. }
  assert (Hnb : b ∉ c :: q) by (intros H; destruct (Hin b H); tauto).
  change (bhead :: (b :: m) ++ [bhead]) with (bhead :: b :: m ++ [bhead]). rewrite Ec, !links_cons.
  set (bc2 := alter (set_next b) bhead _).
  assert (V : forall y, (y < length bc)%nat -> bc2 !!! y =
    (if decide (bhead = y) then set_next b else id) ((if decide (c = y) then set_prev b else id)
      ((if decide (b = y) then set_prev bhead else id) ((if decide (b = y) then set_next c else id) (bc !!! y))))).
  { intros y Hy. unfold bc2, bc1. rewrite !lookup_total_alter by (rewrite ?length_alter; done).
    rewrite K1. by repeat case_decide. }
  rewrite !V by done. rewrite !(decide_True (P := bhead = bhead)), !(decide_True (P := b = b)), !(decide_True (P := c = c)),
    !(decide_False (P := bhead = b)), !(decide_False (P := c = b)), !(decide_False (P := b = c)) by done.
  split; [done|]. split; [done|]. split; [done|]. split; [by case_decide|]. unfold bc2.
  apply links_set_next; [apply Hlt; by rewrite length_alter, Hl1| |].
  { rewrite <- Ec. intros u v. apply nodup_last. apply NoDup_app. split; [done|]. split; [|apply NoDup_singleton].
    intros y Hy. rewrite list_elem_of_singleton. by intros ->. }
  apply links_set_prev; [by apply Hlt| |].
  { intros u v. apply nodup_first. rewrite <- Ec. apply NoDup_app. split; [done|]. split; [|apply NoDup_singleton].
    intros y Hy. rewrite list_elem_of_singleton. by intros ->. }
  unfold bc1. apply links_set_prev; [apply Hlt; by rewrite length_alter|by intros u v E; destruct (not_mid u v _ _ Hnb)|].
  apply links_set_next; [by apply Hlt|by intros u v E; destruct (not_mid u v _ _ Hnb)|]. done.
Qed.

Lemma front_spec bc m b :
  length bc = S NBUF -> b :: m ≡ₚ seq 0 NBUF -> links bc (bhead :: m ++ [bhead]) ->
  let bc1 := alter (set_prev bhead) b (alter (set_next (b_next (bc !!! bhead))) b bc) in
  ring (alter (set_next b) bhead (alter (set_prev b) (b_next (bc1 !!! bhead)) bc1)) (b :: m).
Proof.
  intros Hlen Hp Hk. cbn zeta. split; [by rewrite !length_alter|]. split; [done|]. apply front_links; [done| | |done].
  - intros y. rewrite Hp, elem_of_seq. lia.
  - rewrite Hp. apply NoDup_seq.
Qed.

(** [brelse] of an unused buffer: it becomes the most recently used. *)
Lemma to_front_spec bc l1 b l2 : ring bc (l1 ++ b :: l2) -> ring (to_front b bc) (b :: l1 ++ l2).
Proof.
  intros Hr. destruct (cut_spec bc l1 b l2 Hr) as [Hk Hb]. unfold to_front. cbn zeta in *. rewrite Hb.
  destruct Hr as (Hlen & Hp & _). apply front_spec; [by rewrite !length_alter| |done].
  rewrite <- Hp. apply Permutation_middle.
Qed.

(** ** The operations without their locks *)

Section erased.
Context (me : nat) (pid : Z) `{W : Wakes} `{D : Disk} `{DOK : !DiskOK}.

Definition bget' (dev blockno : Z) : M kernel nat :=
  h ← getb bhead;
  r ← scan NBUF b_next (fun x => (x.(b_dev) =? dev) && (x.(b_blockno) =? blockno)) h.(b_next);
  match r with
  | Some b => modb b (fun x => set_refcnt (u32 (x.(b_refcnt) + 1)) x) ;; sl_acquire pid (SlBuf b) ;; mret b
  | None =>
      h ← getb bhead;
      r ← scan NBUF b_prev (fun x => x.(b_refcnt) =? 0) h.(b_prev);
      match r with
      | Some b => modb b (set_block dev blockno) ;; sl_acquire pid (SlBuf b) ;; mret b
      | None => panic "bget: no buffers"
      end
  end.

Definition bread' (dev blockno : Z) : M kernel nat :=
  b ← bget' dev blockno;
  x ← getb b;
  (if negb x.(b_valid) then transfer b false ;; modb b (set_valid true) else mret tt) ;;
  mret b.

Definition bwrite' (b : nat) : M kernel unit :=
  h ← sl_holding pid (SlBuf b);
  if negb h then panic "bwrite" else transfer b true.

Definition brelse' (b : nat) : M kernel unit :=
  h ← sl_holding pid (SlBuf b);
  if negb h then panic "brelse"
  else
    sl_release (SlBuf b) ;;
    modb b (fun x => set_refcnt (u32 (x.(b_refcnt) - 1)) x) ;;
    x ← getb b;
    if x.(b_refcnt) =? 0 then
      modb x.(b_next) (set_prev x.(b_prev)) ;;
      x ← getb b;
      modb x.(b_prev) (set_next x.(b_next)) ;;
      link_front b
    else mret tt.

Definition bpin' (b : nat) : M kernel unit := modb b (fun x => set_refcnt (u32 (x.(b_refcnt) + 1)) x).
Definition bunpin' (b : nat) : M kernel unit := modb b (fun x => set_refcnt (u32 (x.(b_refcnt) - 1)) x).

Lemma sim_getb H b : sim me pid H H (getb b) (getb b).
Proof. by apply sim_gets. Qed.
Lemma sim_modb H b f : sim me pid H H (modb b f) (modb b f).
Proof. by apply sim_modify. Qed.

Lemma sim_scan H fuel dir P b : sim me pid H H (scan fuel dir P b) (scan fuel dir P b).
Proof.
  revert b. induction fuel as [|f IH]; intros b; cbn [scan]; case_bool_decide;
    [apply sim_ret|apply sim_nofuel|apply sim_ret|].
  eapply sim_bind; [apply sim_getb|]. intros x. destruct (P x); [apply sim_ret|apply IH].
Qed.

Lemma sim_transfer H b w : sim me pid H H (transfer b w) (transfer b w).
Proof.
  eapply sim_bind; [apply sim_getb|]. intros x. destruct w; [by apply sim_modify|].
  eapply sim_bind; [by apply sim_gets|]. intros d. apply sim_modb.
Qed.
Lemma sim_disk_rw H b w : sim me pid H H (virtio_disk_rw b w) (transfer b w).
Proof. intros k C. rewrite disk_rw_transfer. by apply sim_transfer. Qed.

(** The spinlocks that may be held around a cache operation. *)
Definition outside (H : list lockid) : Prop :=
  (LkBcache ∉ H) /\ (forall l, LkSleep l ∉ H) /\ (forall i, LkProc i ∉ H).

Lemma outside_nil : outside [].
Proof. split; [|split]; intros; apply not_elem_of_nil. Qed.

Lemma sim_bget H dev n : outside H -> sim me pid H H (bget dev n) (bget' dev n).
Proof.
  intros (Hb & Hs & Hp). unfold bget, bget'. eapply sim_skip; [by apply sim_acquire|].
  eapply sim_bind; [apply sim_getb|]. intros h. eapply sim_bind; [apply sim_scan|]. intros [b|].
  - eapply sim_bind; [apply sim_modb|]. intros []. eapply sim_skip; [by apply sim_release|].
    eapply sim_bind; [by apply sim_acquiresleep|]. intros []. apply sim_ret.
  - eapply sim_bind; [apply sim_getb|]. intros h'. eapply sim_bind; [apply sim_scan|]. intros [b|]; [|apply sim_panic].
    eapply sim_bind; [apply sim_modb|]. intros []. eapply sim_skip; [by apply sim_release|].
    eapply sim_bind; [by apply sim_acquiresleep|]. intros []. apply sim_ret.
Qed.

Lemma sim_bread H dev n : outside H -> sim me pid H H (bread dev n) (bread' dev n).
Proof using DOK.
  intros Ho. eapply sim_bind; [by apply sim_bget|]. intros b. eapply sim_bind; [apply sim_getb|]. intros x.
  eapply sim_bind; [|intros []; apply sim_ret]. destruct (negb _); [|apply sim_ret].
  eapply sim_bind; [apply sim_disk_rw|]. intros []. apply sim_modb.
Qed.

Lemma sim_bwrite H b : outside H -> sim me pid H H (bwrite b) (bwrite' b).
Proof using DOK.
  intros (Hb & Hs & Hp). eapply sim_bind; [by apply sim_holdingsleep|]. intros h.
  destruct (negb h); [apply sim_panic|apply sim_disk_rw].
Qed.

Lemma sim_brelse H b : outside H -> sim me pid H H (brelse b) (brelse' b).
Proof.
  intros (Hb & Hs & Hp). unfold brelse, brelse'. eapply sim_bind; [by apply sim_holdingsleep|]. intros h.
  destruct (negb h); [apply sim_panic|]. eapply sim_bind; [by apply sim_releasesleep|]. intros [].
  eapply sim_skip; [by apply sim_acquire|]. eapply sim_bind; [apply sim_modb|]. intros [].
  eapply sim_bind; [apply sim_getb|]. intros x.
  eapply sim_last; [|by apply sim_release]. destruct (_ =? 0); [|apply sim_ret].
  repeat (eapply sim_bind; [apply sim_getb || apply sim_modb|]; intros ?). apply sim_modb.
Qed.

Lemma sim_bpin H b : outside H -> sim me pid H H (bpin b) (bpin' b).
Proof.
  intros (Hb & _). eapply sim_skip; [by apply sim_acquire|].
  eapply sim_last; [apply sim_modb|by apply sim_release].
Qed.
Lemma sim_bunpin H b : outside H -> sim me pid H H (bunpin b) (bunpin' b).
Proof.
  intros (Hb & _). eapply sim_skip; [by apply sim_acquire|].
  eapply sim_last; [apply sim_modb|by apply sim_release].
Qed.
End erased.

(** ** The invariant of the cache *)

(** The first element that satisfies [P]. *)
Fixpoint first (P : nat -> bool) (l : list nat) : option nat :=
  match l with [] => None | x :: l' => if P x then Some x else first P l' end.

Lemma first_some P l x : first P l = Some x -> x ∈ l /\ P x = true.
Proof.
  induction l as [|y l IH]; simpl; [done|]. destruct (P y) eqn:E.
  - intros [= ->]. split; [by left|done].
  - intros H. destruct (IH H). split; [by right|done].
Qed.
Lemma first_none P l x : first P l = None -> x ∈ l -> P x = false.
Proof.
  induction l as [|y l IH]; simpl; [intros _ H; by apply not_elem_of_nil in H|]. destruct (P y) eqn:E; [done|].
  rewrite elem_of_cons. intros H [->|Hx]; auto.
Qed.
Lemma first_uniq P l x :
  x ∈ l -> P x = true -> (forall y, y ∈ l -> P y = true -> y = x) -> first P l = Some x.
Proof.
  intros Hx HP Hu. destruct (first P l) as [y|] eqn:E.
  - destruct (first_some _ _ _ E). f_equal. auto.
  - rewrite (first_none _ _ x E) in HP; done.
Qed.

(** Scanning the ring from the front or from the back finds the first match. *)
Lemma scan_next k P l fuel :
  bhead ∉ l -> (length l <= fuel)%nat -> forall a, links k.(k_bcache) (a :: l ++ [bhead]) ->
  scan fuel b_next P (b_next (k.(k_bcache) !!! a)) k = Ok (first (fun i => P (k.(k_bcache) !!! i)) l) k.
Proof.
  revert fuel. induction l as [|x l IH]; intros fuel Hh Hf a Hk.
  - destruct Hk as [-> _]. destruct fuel; cbn [scan]; by rewrite bool_decide_true.
  - destruct Hk as (-> & _ & Hk). destruct fuel as [|fuel]; [simpl in Hf; lia|]. cbn [scan first].
    rewrite bool_decide_false by (intros ->; apply Hh; by left). unfold getb. rewrite bind_gets.
    destruct (P _); [done|]. apply (IH fuel); [|simpl in Hf; lia|done]. intros H. apply Hh. by right.
Qed.
Lemma scan_prev k P l fuel :
  bhead ∉ l -> (length l <= fuel)%nat -> forall a, links k.(k_bcache) ((bhead :: l) ++ [a]) ->
  scan fuel b_prev P (b_prev (k.(k_bcache) !!! a)) k = Ok (first (fun i => P (k.(k_bcache) !!! i)) (rev l)) k.
Proof.
  revert fuel. induction l as [|x l IH] using rev_ind; intros fuel Hh Hf a Hk.
  - destruct Hk as (_ & -> & _). destruct fuel; cbn [scan]; by rewrite bool_decide_true.
  - rewrite app_comm_cons in Hk. apply links_app in Hk as (Hk & _ & -> & _).
    rewrite rev_app_distr. rewrite length_app in Hf. destruct fuel as [|fuel]; [simpl in Hf; lia|].
    cbn [scan first rev app]. rewrite bool_decide_false by (intros ->; apply Hh, elem_of_app; right; by left).
    unfold getb. rewrite bind_gets. destruct (P _); [done|].
    apply (IH fuel); [|simpl in Hf; lia|done]. intros H. apply Hh, elem_of_app. by left.
Qed.

Section spec.
Context (pid : Z) (d : Z).

(** The buffer that caches block [n] of device [d]. *)
Definition look (k : kernel) (n : Z) : option nat :=
  first (fun i => (b_dev (k.(k_bcache) !!! i) =? d) && (b_blockno (k.(k_bcache) !!! i) =? n)) (seq 0 NBUF).

Definition view (k : kernel) (n : Z) : block :=
  match look k n with
  | Some i => if b_valid (k.(k_bcache) !!! i) then b_data (k.(k_bcache) !!! i) else disk_read k.(k_disk) n
  | None => disk_read k.(k_disk) n
  end.

Definition ref (k : kernel) (n : Z) : Z :=
  match look k n with Some i => b_refcnt (k.(k_bcache) !!! i) | None => 0 end.

Record cache (k : kernel) (l : list nat) : Prop := {
  ca_ring : ring k.(k_bcache) l;
  ca_uniq : forall i j, (i < NBUF)%nat -> (j < NBUF)%nat ->
    b_dev (k.(k_bcache) !!! i) = d -> b_dev (k.(k_bcache) !!! j) = d ->
    b_blockno (k.(k_bcache) !!! i) = b_blockno (k.(k_bcache) !!! j) -> i = j;
  ca_used : forall i, (i < NBUF)%nat -> b_refcnt (k.(k_bcache) !!! i) ≠ 0 ->
    b_dev (k.(k_bcache) !!! i) = d /\ b_valid (k.(k_bcache) !!! i) = true;
  ca_ref : forall i, (i < NBUF)%nat -> 0 <= b_refcnt (k.(k_bcache) !!! i);
  ca_clean : forall i, (i < NBUF)%nat -> b_dev (k.(k_bcache) !!! i) = d -> b_refcnt (k.(k_bcache) !!! i) = 0 ->
    b_valid (k.(k_bcache) !!! i) = true ->
    b_data (k.(k_bcache) !!! i) = disk_read k.(k_disk) (b_blockno (k.(k_bcache) !!! i));
  ca_lock : forall i, is_Some (k.(k_slocks) !! SlBuf i) -> (i < NBUF)%nat /\ b_refcnt (k.(k_bcache) !!! i) ≠ 0 }.

Lemma look_some k n i :
  look k n = Some i -> (i < NBUF)%nat /\ b_dev (k.(k_bcache) !!! i) = d /\ b_blockno (k.(k_bcache) !!! i) = n.
Proof.
  intros H. apply first_some in H as [H1 H2]. apply elem_of_seq in H1.
  apply andb_true_iff in H2 as [H2 H3]. rewrite Z.eqb_eq in H2, H3. auto with lia.
Qed.
Lemma look_none k n i :
  look k n = None -> (i < NBUF)%nat -> b_dev (k.(k_bcache) !!! i) = d -> b_blockno (k.(k_bcache) !!! i) = n -> False.
Proof.
  intros H Hi H1 H2. pose proof (first_none _ _ i H) as E. rewrite elem_of_seq in E.
  rewrite H1, H2, !Z.eqb_refl in E. by specialize (E ltac:(lia)).
Qed.
Lemma look_uniq k l n i :
  cache k l -> (i < NBUF)%nat -> b_dev (k.(k_bcache) !!! i) = d -> b_blockno (k.(k_bcache) !!! i) = n -> look k n = Some i.
Proof.
  intros C Hi H1 H2. apply first_uniq; [apply elem_of_seq; lia|by rewrite H1, H2, !Z.eqb_refl|].
  intros j Hj E. apply elem_of_seq in Hj. apply andb_true_iff in E as [E1 E2]. rewrite Z.eqb_eq in E1, E2.
  apply (ca_uniq _ _ C); auto with lia; congruence.
Qed.

(** Both scans of [bget], as functions of the cache. *)
Lemma scan_hit k l n :
  cache k l ->
  scan NBUF b_next (fun x => (x.(b_dev) =? d) && (x.(b_blockno) =? n)) (b_next (k.(k_bcache) !!! bhead)) k =
    Ok (look k n) k.
Proof.
  intros C. pose proof (ca_ring _ _ C) as Hr. pose proof Hr as (Hl & Hp & Hk).
  rewrite (scan_next k _ l); [|by eapply ring_nohead|rewrite Hp, length_seq; done|done]. f_equal.
  destruct (look k n) as [i|] eqn:E.
  - destruct (look_some _ _ _ E) as (Hi & H1 & H2). apply first_uniq.
    + by apply (ring_lt _ _ i Hr).
    + by rewrite H1, H2, !Z.eqb_refl.
    + intros j Hj Ej. apply (ring_lt _ _ j Hr) in Hj. apply andb_true_iff in Ej as [E1 E2].
      rewrite Z.eqb_eq in E1, E2. apply (ca_uniq _ _ C); auto; congruence.
  - destruct (first _ l) as [j|] eqn:Ej; [|done]. apply first_some in Ej as [Hj Ej].
    apply (ring_lt _ _ j Hr) in Hj. apply andb_true_iff in Ej as [E1 E2]. rewrite Z.eqb_eq in E1, E2.
    by destruct (look_none _ _ _ E Hj E1 E2).
Qed.

(** The least recently used buffer that is free. *)
Definition victim (k : kernel) (l : list nat) : option nat :=
  first (fun i => b_refcnt (k.(k_bcache) !!! i) =? 0) (rev l).

Lemma victim_some k l b : cache k l -> victim k l = Some b -> (b < NBUF)%nat /\ b_refcnt (k.(k_bcache) !!! b) = 0.
Proof.
  intros C Ev. apply first_some in Ev as [Ev E0]. rewrite Z.eqb_eq in E0. split; [|done].
  rewrite <- Permutation_rev in Ev. by apply (ring_lt _ _ b (ca_ring _ _ C)) in Ev.
Qed.

Lemma scan_victim k l :
  cache k l ->
  scan NBUF b_prev (fun x => x.(b_refcnt) =? 0) (b_prev (k.(k_bcache) !!! bhead)) k = Ok (victim k l) k.
Proof.
  intros C. pose proof (ca_ring _ _ C) as Hr. pose proof Hr as (Hl & Hp & Hk).
  apply scan_prev; [by eapply ring_nohead|rewrite Hp, length_seq; done|done].
Qed.

(** ** Operations on one buffer *)

Definition put_buf (b : nat) (x : buf) (k : kernel) : kernel := set_bcache (<[b := x]> k.(k_bcache)) k.
Definition hold (b : nat) (k : kernel) : kernel := set_slocks (<[SlBuf b := pid]> k.(k_slocks)) k.

Lemma modb_eq b f k : (b < length k.(k_bcache))%nat -> modb b f k = Ok tt (put_buf b (f (k.(k_bcache) !!! b)) k).
Proof.
  intros Hb. unfold modb, modify, put_buf. do 2 f_equal. apply list_eq. intros j.
  destruct (decide (b = j)) as [<-|Hne].
  - rewrite list_lookup_alter_eq, list_lookup_insert_eq by done.
    by rewrite (list_lookup_lookup_total_lt _ _ Hb).
  - by rewrite list_lookup_alter_ne, list_lookup_insert_ne.
Qed.

Lemma put_buf_twice b x y k : put_buf b y (put_buf b x k) = put_buf b y k.
Proof. unfold put_buf. simpl. by rewrite list_insert_insert_eq. Qed.
Lemma put_buf_hold b x c k : put_buf b x (hold c k) = hold c (put_buf b x k).
Proof. done. Qed.
Lemma put_buf_eq b x k : (b < length k.(k_bcache))%nat -> k_bcache (put_buf b x k) !!! b = x.
Proof. intros Hb. unfold put_buf. simpl. by rewrite list_lookup_total_insert_eq. Qed.
Lemma put_buf_ne b x j k : b ≠ j -> k_bcache (put_buf b x k) !!! j = k.(k_bcache) !!! j.
Proof. intros Hne. unfold put_buf. simpl. by rewrite list_lookup_total_insert_ne. Qed.

(** A buffer after its block was read. *)
Definition loaded (k : kernel) (n : Z) (x : buf) : buf :=
  if x.(b_valid) then x else set_valid true (set_data (disk_read k.(k_disk) n) x).

Lemma bread_tail b n x k :
  (b < length k.(k_bcache))%nat -> x.(b_blockno) = n -> k.(k_slocks) !! SlBuf b = None ->
  (b0 ← (modb b (fun _ => x) ;; sl_acquire pid (SlBuf b) ;; mret b);
   y ← getb b0;
   (if negb y.(b_valid) then transfer b0 false ;; modb b0 (set_valid true) else mret tt) ;; mret b0) k =
  Ok b (hold b (put_buf b (loaded k n x) k)).
Proof.
  intros Hb Hn Hs. unfold mbind at 1, M_bind at 1.
  rewrite (bind_ok _ _ _ _ _ (modb_eq b (fun _ => x) k Hb)). unfold sl_acquire, mbind, M_bind, gets, modify, mret, M_ret.
  cbn [rbind put_buf set_bcache k_slocks]. rewrite Hs. cbn [rbind].
  change (set_slocks (<[SlBuf b:=pid]> _) _) with (hold b (put_buf b x k)).
  unfold getb, gets. cbn [rbind]. change (k_bcache (hold b ?u)) with (k_bcache u).
  rewrite put_buf_eq by done. unfold loaded. destruct (b_valid x) eqn:Ev; cbn [negb rbind]; [done|].
  unfold transfer, getb, gets, mbind, M_bind. cbn [rbind]. change (k_bcache (hold b ?u)) with (k_bcache u).
  rewrite put_buf_eq by done. rewrite Hn.
  rewrite modb_eq by (simpl; by rewrite length_insert). cbn [rbind].
  rewrite modb_eq by (simpl; by rewrite !length_insert). cbn [rbind].
  rewrite !put_buf_hold, !put_buf_twice. change (k_bcache (hold b ?u)) with (k_bcache u).
  rewrite put_buf_eq by done. change (k_bcache (hold b ?u)) with (k_bcache u). by rewrite put_buf_eq.
Qed.

Lemma bread_hit k l n b :
  cache k l -> look k n = Some b -> k.(k_slocks) !! SlBuf b = None ->
  bread' pid d n k = Ok b (hold b (put_buf b
    (loaded k n (set_refcnt (u32 (ref k n + 1)) (k.(k_bcache) !!! b))) k)).
Proof.
  intros C E Hs. destruct (look_some _ _ _ E) as (Hb & H1 & H2).
  assert (Hl : (b < length (k_bcache k))%nat) by (destruct (ca_ring _ _ C) as (-> & _); lia).
  unfold bread'. rewrite <- bread_tail by done. apply bind_cong. unfold bget'.
  unfold getb. rewrite bind_gets. rewrite (bind_ok _ _ _ _ _ (scan_hit k l n C)), E.
  rewrite (bind_ok _ _ _ _ _ (modb_eq b _ k Hl)). rewrite (bind_ok _ _ _ _ _ (modb_eq b (fun _ => _) k Hl)).
  unfold ref. by rewrite E.
Qed.

Lemma bread_miss k l n b :
  cache k l -> look k n = None -> victim k l = Some b -> k.(k_slocks) !! SlBuf b = None ->
  bread' pid d n k = Ok b (hold b (put_buf b (loaded k n (set_block d n (k.(k_bcache) !!! b))) k)).
Proof.
  intros C E Ev Hs. pose proof (ca_ring _ _ C) as Hr.
  assert (Hl : (b < length (k_bcache k))%nat).
  { destruct (victim_some _ _ _ C Ev). destruct Hr as (-> & _). lia. }
  unfold bread'. rewrite <- bread_tail by done. apply bind_cong. unfold bget'.
  unfold getb. rewrite bind_gets. rewrite (bind_ok _ _ _ _ _ (scan_hit k l n C)), E.
  unfold getb. rewrite bind_gets. rewrite (bind_ok _ _ _ _ _ (scan_victim k l C)), Ev.
  rewrite (bind_ok _ _ _ _ _ (modb_eq b _ k Hl)). by rewrite (bind_ok _ _ _ _ _ (modb_eq b (fun _ => _) k Hl)).
Qed.

(** *** One buffer of the cache replaced *)

Section put.
Context (k : kernel) (l : list nat) (b : nat) (x : buf).
Context (C : cache k l) (Hb : (b < NBUF)%nat).
Context (Hx : x.(b_dev) = d) (Hlk : look k x.(b_blockno) = Some b \/ look k x.(b_blockno) = None).

Lemma put_len : (b < length k.(k_bcache))%nat.
Proof using C Hb. destruct (ca_ring _ _ C) as (-> & _). lia. Qed.

(** The buffer at [b] is the only one for its block. *)
Lemma put_other i :
  (i < NBUF)%nat -> i ≠ b -> b_dev (k.(k_bcache) !!! i) = d -> b_blockno (k.(k_bcache) !!! i) ≠ x.(b_blockno).
Proof using C Hlk.
  intros Hi Hne H1 H2. pose proof (look_uniq k l _ i C Hi H1 H2). destruct Hlk; congruence.
Qed.

Lemma cache_put :
  x.(b_next) = b_next (k.(k_bcache) !!! b) -> x.(b_prev) = b_prev (k.(k_bcache) !!! b) ->
  0 <= x.(b_refcnt) -> (x.(b_refcnt) ≠ 0 -> x.(b_valid) = true) ->
  (x.(b_refcnt) = 0 -> x.(b_valid) = true -> x.(b_data) = disk_read k.(k_disk) x.(b_blockno)) ->
  (is_Some (k.(k_slocks) !! SlBuf b) -> x.(b_refcnt) ≠ 0) -> cache (put_buf b x k) l.
Proof using C Hb Hx Hlk.
  intros E1 E2 H0 Hv Hc Hs. pose proof put_len as Hl. pose proof put_other as Ho.
  assert (V : forall i, k_bcache (put_buf b x k) !!! i = if decide (b = i) then x else k.(k_bcache) !!! i)
    by (intros i; case_decide; [subst; by apply put_buf_eq|by apply put_buf_ne]).
  constructor.
  - destruct (ca_ring _ _ C) as (R1 & R2 & R3). split; [simpl; by rewrite length_insert|]. split; [done|].
    eapply links_ext; [|done]. intros p y q _. rewrite V. case_decide; [subst y; auto|auto].
  - intros i j Hi Hj. rewrite !V. repeat case_decide; subst; try done.
    + intros _ Hd E. by destruct (Ho j).
    + intros Hd _ E. by destruct (Ho i).
    + by apply (ca_uniq _ _ C).
  - intros i Hi. rewrite V. case_decide; [auto|by apply (ca_used _ _ C)].
  - intros i Hi. rewrite V. case_decide; [auto|by apply (ca_ref _ _ C)].
  - intros i Hi. rewrite V. case_decide; [auto|by apply (ca_clean _ _ C)].
  - intros i Hi. rewrite V. destruct (ca_lock _ _ C i Hi). case_decide; [subst; auto|auto].
Qed.

Lemma look_put m :
  look (put_buf b x k) m =
    if decide (m = x.(b_blockno)) then Some b else if decide (look k m = Some b) then None else look k m.
Proof using C Hb Hx Hlk.
  pose proof put_len as Hl. pose proof put_other as Ho.
  assert (V : forall i, k_bcache (put_buf b x k) !!! i = if decide (b = i) then x else k.(k_bcache) !!! i)
    by (intros i; case_decide; [subst; by apply put_buf_eq|by apply put_buf_ne]).
  case_decide as Em.
  - subst m. apply first_uniq.
    + apply elem_of_seq. lia.
    + rewrite V, decide_True by done. by rewrite Hx, !Z.eqb_refl.
    + intros y Hy. apply elem_of_seq in Hy. rewrite V. case_decide as Eb; [done|].
      rewrite andb_true_iff, !Z.eqb_eq. intros [H1 H2]. destruct (Ho y); [lia|congruence|done|done].
  - destruct (look (put_buf b x k) m) as [i|] eqn:E.
    + destruct (look_some _ _ _ E) as (Hi & H1 & H2). rewrite V in H1, H2.
      destruct (decide (b = i)) as [<-|Hne]; [congruence|].
      rewrite (look_uniq k l m i C Hi H1 H2). rewrite decide_False by congruence. done.
    + case_decide as E2; [done|]. destruct (look k m) as [i|] eqn:E3; [|done].
      destruct (look_some _ _ _ E3) as (Hi & H1 & H2).
      destruct (look_none _ _ i E Hi); rewrite V, decide_False; congruence.
Qed.

(** A free buffer is recycled only when its block is what the disk has. *)
Lemma view_put m :
  (look k x.(b_blockno) = None -> b_refcnt (k.(k_bcache) !!! b) = 0) -> x.(b_valid) = true ->
  view (put_buf b x k) m = if decide (m = x.(b_blockno)) then x.(b_data) else view k m.
Proof using C Hb Hx Hlk.
  intros Hfree Hv. pose proof put_len as Hl. unfold view. rewrite look_put. case_decide as Em.
  { by rewrite put_buf_eq, Hv. }
  case_decide as E.
  - rewrite E. destruct (look_some _ _ _ E) as (_ & H1 & H2). change (k_disk (put_buf b x k)) with (k_disk k).
    destruct (b_valid (k_bcache k !!! b)) eqn:Ev; [|done]. rewrite (ca_clean _ _ C b Hb H1); [by rewrite H2| |done].
    destruct Hlk as [H|H]; [|auto]. destruct (look_some _ _ _ H) as (_ & _ & H3). congruence.
  - destruct (look k m) as [i|]; [|done]. by rewrite put_buf_ne by congruence.
Qed.

Lemma ref_put m :
  (look k x.(b_blockno) = None -> b_refcnt (k.(k_bcache) !!! b) = 0) ->
  ref (put_buf b x k) m = if decide (m = x.(b_blockno)) then x.(b_refcnt) else ref k m.
Proof using C Hb Hx Hlk.
  intros Hfree. pose proof put_len as Hl. unfold ref. rewrite look_put. case_decide as Em.
  { by rewrite put_buf_eq. }
  case_decide as E.
  - rewrite E. destruct Hlk as [H|H]; [|by rewrite Hfree].
    destruct (look_some _ _ _ H) as (_ & _ & H3). destruct (look_some _ _ _ E) as (_ & _ & H2). congruence.
  - destruct (look k m) as [i|]; [|done]. by rewrite put_buf_ne by congruence.
Qed.
End put.

Lemma cache_hold k l b : cache k l -> (b < NBUF)%nat -> b_refcnt (k.(k_bcache) !!! b) ≠ 0 -> cache (hold b k) l.
Proof.
  intros [] Hb Hr. constructor; auto. intros i. simpl. destruct (decide (SlBuf b = SlBuf i)) as [[= <-]|Hne].
  - auto.
  - rewrite lookup_insert_ne by done. auto.
Qed.

(** What the rest of the kernel keeps. *)
Definition base (k : kernel) : kernel := set_slocks ∅ (set_bcache [] k).

(** [b] is the buffer of block [n], locked by the current process. *)
Definition held (k : kernel) (n : Z) (b : nat) : Prop :=
  look k n = Some b /\ k.(k_slocks) !! SlBuf b = Some pid /\ b_data (k.(k_bcache) !!! b) = view k n /\
  ref k n ≠ 0.

(** The buffers of blocks in use stay where they are. *)
Definition stays (k k' : kernel) : Prop := forall m b, look k m = Some b -> ref k m ≠ 0 -> look k' m = Some b.

(** A free buffer, or the block is cached already. *)
Definition room (k : kernel) (n : Z) : Prop :=
  match look k n with
  | Some b => k.(k_slocks) !! SlBuf b = None
  | None => exists i, (i < NBUF)%nat /\ b_refcnt (k.(k_bcache) !!! i) = 0
  end.

Lemma victim_exists k l i :
  cache k l -> (i < NBUF)%nat -> b_refcnt (k.(k_bcache) !!! i) = 0 -> exists b, victim k l = Some b.
Proof.
  intros C Hi H0. unfold victim. destruct (first _ (rev l)) as [b|] eqn:E; [eauto|].
  pose proof (first_none _ _ i E) as E'. cbn beta in E'. rewrite H0 in E'. exfalso. discriminate E'.
  rewrite <- Permutation_rev. by apply (ring_lt _ _ i (ca_ring _ _ C)).
Qed.

Lemma loaded_fields k n x :
  b_next (loaded k n x) = b_next x /\ b_prev (loaded k n x) = b_prev x /\ b_dev (loaded k n x) = b_dev x /\
  b_blockno (loaded k n x) = b_blockno x /\ b_refcnt (loaded k n x) = b_refcnt x /\ b_valid (loaded k n x) = true /\
  b_data (loaded k n x) = if b_valid x then b_data x else disk_read k.(k_disk) n.
Proof. unfold loaded. destruct (b_valid x) eqn:E; auto 10. Qed.

(** [bread] returns the block, locked, and only counts the reference. *)
Lemma bread_spec k l n :
  cache k l -> room k n -> ref k n < 2 ^ 32 - 1 ->
  exists b k', bread' pid d n k = Ok b k' /\ cache k' l /\ held k' n b /\ base k' = base k /\ stays k k' /\
    (forall m, view k' m = view k m) /\
    (forall m, ref k' m = ref k m + if decide (m = n) then 1 else 0) /\
    k'.(k_slocks) = <[SlBuf b := pid]> k.(k_slocks) /\ k.(k_slocks) !! SlBuf b = None.
Proof.
  intros C Hroom Hlt. unfold room in Hroom.
  assert (Hgo : forall b x, (b < NBUF)%nat -> x.(b_dev) = d -> x.(b_blockno) = n ->
    (look k n = Some b \/ look k n = None) -> (look k n = None -> b_refcnt (k.(k_bcache) !!! b) = 0) ->
    x.(b_refcnt) = ref k n + 1 -> b_next x = b_next (k.(k_bcache) !!! b) -> b_prev x = b_prev (k.(k_bcache) !!! b) ->
    (if x.(b_valid) then x.(b_data) else disk_read k.(k_disk) n) = view k n -> k.(k_slocks) !! SlBuf b = None ->
    bread' pid d n k = Ok b (hold b (put_buf b (loaded k n x) k)) ->
    exists b k', bread' pid d n k = Ok b k' /\ cache k' l /\ held k' n b /\ base k' = base k /\ stays k k' /\
      (forall m, view k' m = view k m) /\
      (forall m, ref k' m = ref k m + if decide (m = n) then 1 else 0) /\
      k'.(k_slocks) = <[SlBuf b := pid]> k.(k_slocks) /\ k.(k_slocks) !! SlBuf b = None).
  2: {
    destruct (look k n) as [b|] eqn:E.
    - destruct (look_some _ _ _ E) as (Hb & H1 & H2).
      assert (0 <= ref k n) by (unfold ref; rewrite E; by apply (ca_ref _ _ C)).
      apply (Hgo b (set_refcnt (u32 (ref k n + 1)) (k.(k_bcache) !!! b))); auto; try done.
      + simpl. by rewrite u32_small by lia.
      + simpl. unfold view. by rewrite E.
      + by apply bread_hit with l.
    - destruct Hroom as (i & Hi & H0). destruct (victim_exists k l i C Hi H0) as [b Ev].
      destruct (victim_some _ _ _ C Ev) as [Hb Hb0].
      assert (Hs : k_slocks k !! SlBuf b = None).
      { destruct (k_slocks k !! SlBuf b) eqn:Es; [|done]. destruct (ca_lock _ _ C b); [by rewrite Es|done]. }
      apply (Hgo b (set_block d n (k.(k_bcache) !!! b))); auto; try done.
      + simpl. unfold ref. by rewrite E.
      + simpl. unfold view. by rewrite E.
      + by apply bread_miss with l. }
  intros b x Hb Hd Hn Hlk Hfree Href Hnx Hpv Hdat Hs E.
  destruct (loaded_fields k n x) as (F1 & F2 & F3 & F4 & F5 & F6 & F7). set (y := loaded k n x) in *.
  assert (0 <= ref k n) by (unfold ref; destruct (look k n) as [j|] eqn:Ej; [|done];
    apply (ca_ref _ _ C); by destruct (look_some _ _ _ Ej)).
  assert (Hy : look k (b_blockno y) = Some b \/ look k (b_blockno y) = None) by (by rewrite F4, Hn).
  assert (Hyf : look k (b_blockno y) = None -> b_refcnt (k_bcache k !!! b) = 0) by (by rewrite F4, Hn).
  assert (Hyd : b_dev y = d) by congruence.
  assert (C1 : cache (put_buf b y k) l) by (apply cache_put; auto; congruence || lia).
  assert (Hbuf : k_bcache (put_buf b y k) !!! b = y) by (apply put_buf_eq; by apply put_len with l).
  assert (Hview : forall m, view (put_buf b y k) m = view k m).
  { intros m. rewrite (view_put k l) by auto. case_decide as Em; [|done]. rewrite F7, Hdat. congruence. }
  assert (Hrefs : forall m, ref (put_buf b y k) m = ref k m + if decide (m = n) then 1 else 0).
  { intros m. rewrite (ref_put k l) by auto. rewrite F4, F5, Hn. case_decide; [by subst|lia]. }
  exists b, (hold b (put_buf b y k)). split; [done|].
  split; [apply cache_hold; [done..|rewrite Hbuf, F5; lia]|].
  assert (Hlook : look (put_buf b y k) n = Some b) by (rewrite (look_put k l) by auto; by rewrite F4, Hn, decide_True).
  split; [|split; [done|split; [|split; [done|split; [done|split; [done|done]]]]]].
  - split; [exact Hlook|]. split; [simpl; by rewrite lookup_insert_eq|]. split.
    + change (b_data (k_bcache (put_buf b y k) !!! b) = view (put_buf b y k) n). rewrite Hview, Hbuf. congruence.
    + change (ref (put_buf b y k) n ≠ 0). rewrite Hrefs, decide_True by done. lia.
  - intros m b' Hm Hr. change (look (put_buf b y k) m = Some b'). rewrite (look_put k l) by auto.
    rewrite F4, Hn. case_decide as Em; [subst m; destruct Hlk; congruence|]. case_decide as Eb; [|done].
    exfalso. unfold ref in Hr. rewrite Eb in Hr. destruct Hlk as [H'|H']; [|auto].
    destruct (look_some _ _ _ H') as (_ & _ & ?). destruct (look_some _ _ _ Eb) as (_ & _ & ?). congruence.
Qed.

(** Changing the contents of a held buffer. *)
Lemma set_data_spec k l n b y :
  cache k l -> held k n b ->
  exists k', modb b (set_data y) k = Ok tt k' /\ cache k' l /\ base k' = base k /\ k'.(k_slocks) = k.(k_slocks) /\
    (forall m, look k' m = look k m) /\ (forall m, ref k' m = ref k m) /\
    (forall m, view k' m = if decide (m = n) then y else view k m) /\ held k' n b.
Proof.
  intros C (El & Es & Ed & Er). destruct (look_some _ _ _ El) as (Hb & H1 & H2).
  set (x := set_data y (k.(k_bcache) !!! b)). unfold ref in Er. rewrite El in Er.
  destruct (ca_used _ _ C b Hb Er) as [_ Hv].
  assert (Hlk : look k (b_blockno x) = Some b \/ look k (b_blockno x) = None) by (left; simpl; congruence).
  assert (Hf : look k (b_blockno x) = None -> b_refcnt (k_bcache k !!! b) = 0) by (simpl; congruence).
  assert (Hlook : forall m, look (put_buf b x k) m = look k m).
  { intros m. rewrite (look_put k l) by auto. change (b_blockno x) with (b_blockno (k_bcache k !!! b)). rewrite H2.
    case_decide; [by subst|]. case_decide as E; [|done]. destruct (look_some _ _ _ E) as (_ & _ & ?). congruence. }
  assert (Hview : forall m, view (put_buf b x k) m = if decide (m = n) then y else view k m).
  { intros m. rewrite (view_put k l) by auto. change (b_blockno x) with (b_blockno (k_bcache k !!! b)). by rewrite H2. }
  assert (Hrefs : forall m, ref (put_buf b x k) m = ref k m).
  { intros m. rewrite (ref_put k l) by auto. change (b_blockno x) with (b_blockno (k_bcache k !!! b)). rewrite H2.
    case_decide; [|done]. subst m. unfold ref. by rewrite El. }
  exists (put_buf b x k). split; [apply modb_eq; by apply put_len with l|].
  split; [apply cache_put; auto; [by apply (ca_ref _ _ C)|done]|].
  split; [done|]. split; [done|]. split; [done|]. split; [done|]. split; [done|].
  split; [by rewrite Hlook|]. split; [done|]. split.
  - rewrite Hview, decide_True by done. by rewrite put_buf_eq by (by apply put_len with l).
  - rewrite Hrefs. unfold ref. by rewrite El.
Qed.

(** [bwrite] puts the contents on the disk. *)
Lemma bwrite_spec k l n b :
  cache k l -> held k n b ->
  exists k', bwrite' pid b k = Ok tt k' /\ k' = set_disk (disk_write n (view k n) k.(k_disk)) k /\ cache k' l /\
    (forall m, view k' m = view k m).
Proof.
  intros C (El & Es & Ed & Er). destruct (look_some _ _ _ El) as (Hb & H1 & H2).
  eexists. split; [|split; [reflexivity|split]].
  - unfold bwrite', sl_holding. rewrite bind_gets, bool_decide_true by done. cbn [negb].
    unfold transfer, getb. rewrite bind_gets. by rewrite H2, Ed.
  - destruct C. constructor; auto. simpl. intros i Hi Hd0 H0 Hv. rewrite ca_clean0 by done. unfold disk_read. simpl.
    destruct (Z.eqb_spec n (b_blockno (k_bcache k !!! i))) as [En|En]; [|done].
    assert (i = b) as ->; [|unfold ref in Er; rewrite El in Er; congruence].
    apply ca_uniq0; auto. congruence.
  - intros m. unfold view. change (look (set_disk ?x k) m) with (look k m). simpl. unfold disk_read. simpl.
    destruct (Z.eqb_spec n m) as [->|En]; [|by destruct (look k m)]. rewrite El.
    unfold ref in Er. rewrite El in Er. destruct (ca_used _ _ C b Hb Er) as [_ ->]. done.
Qed.

Lemma to_front_same b bc i :
  (i < length bc)%nat ->
  b_dev (to_front b bc !!! i) = b_dev (bc !!! i) /\ b_blockno (to_front b bc !!! i) = b_blockno (bc !!! i) /\
  b_valid (to_front b bc !!! i) = b_valid (bc !!! i) /\ b_refcnt (to_front b bc !!! i) = b_refcnt (bc !!! i) /\
  b_data (to_front b bc !!! i) = b_data (bc !!! i).
Proof.
  intros Hi. unfold to_front. rewrite !(lookup_total_alter _ _ i) by (rewrite ?length_alter; done).
  repeat case_decide; done.
Qed.

(** [look], [view] and [ref] depend only on the contents of the buffers. *)
Definition same_bufs (bc bc' : list buf) : Prop :=
  forall i, (i < NBUF)%nat ->
    b_dev (bc' !!! i) = b_dev (bc !!! i) /\ b_blockno (bc' !!! i) = b_blockno (bc !!! i) /\
    b_valid (bc' !!! i) = b_valid (bc !!! i) /\ b_refcnt (bc' !!! i) = b_refcnt (bc !!! i) /\
    b_data (bc' !!! i) = b_data (bc !!! i).

Lemma first_ext P Q l : (forall x, x ∈ l -> P x = Q x) -> first P l = first Q l.
Proof.
  induction l as [|x l IH]; intros H; [done|]. simpl. rewrite H by by left.
  rewrite IH; [done|]. intros y Hy. apply H. by right.
Qed.

Lemma same_look k k' m : same_bufs k.(k_bcache) k'.(k_bcache) -> look k' m = look k m.
Proof.
  intros H. apply first_ext. intros i Hi. apply elem_of_seq in Hi. destruct (H i) as (-> & -> & _); [lia|done].
Qed.
Lemma same_view k k' m :
  same_bufs k.(k_bcache) k'.(k_bcache) -> k'.(k_disk) = k.(k_disk) -> view k' m = view k m.
Proof.
  intros H E. unfold view. rewrite (same_look k k') by done. destruct (look k m) as [i|] eqn:Ei; [|by rewrite E].
  destruct (look_some _ _ _ Ei) as (Hi & _). destruct (H i Hi) as (_ & _ & -> & _ & ->). by rewrite E.
Qed.
Lemma same_ref k k' m : same_bufs k.(k_bcache) k'.(k_bcache) -> ref k' m = ref k m.
Proof.
  intros H. unfold ref. rewrite (same_look k k') by done. destruct (look k m) as [i|] eqn:Ei; [|done].
  destruct (look_some _ _ _ Ei) as (Hi & _). by destruct (H i Hi) as (_ & _ & _ & -> & _).
Qed.
Lemma same_cache k k' l l' :
  cache k l -> same_bufs k.(k_bcache) k'.(k_bcache) -> k'.(k_disk) = k.(k_disk) ->
  (forall i, is_Some (k'.(k_slocks) !! SlBuf i) -> is_Some (k.(k_slocks) !! SlBuf i)) ->
  ring k'.(k_bcache) l' -> cache k' l'.
Proof.
  intros [] H E Hs Hr. constructor; [done|..].
  - intros i j Hi Hj. destruct (H i Hi) as (-> & -> & _). destruct (H j Hj) as (-> & -> & _). auto.
  - intros i Hi. destruct (H i Hi) as (-> & _ & -> & -> & _). auto.
  - intros i Hi. destruct (H i Hi) as (_ & _ & _ & -> & _). auto.
  - intros i Hi. destruct (H i Hi) as (-> & -> & -> & -> & ->). rewrite E. auto.
  - intros i Hi. destruct (ca_lock0 i (Hs i Hi)) as [H1 H2]. destruct (H i H1) as (_ & _ & _ & -> & _). auto.
Qed.

(** The reference count of a held buffer changed to [r]. *)
Lemma set_refcnt_spec k l n b r :
  cache k l -> look k n = Some b -> ref k n ≠ 0 -> 0 <= r ->
  (r = 0 -> view k n = disk_read k.(k_disk) n /\ k.(k_slocks) !! SlBuf b = None) ->
  let k' := put_buf b (set_refcnt r (k.(k_bcache) !!! b)) k in
  cache k' l /\ (forall m, look k' m = look k m) /\ (forall m, view k' m = view k m) /\
  (forall m, ref k' m = if decide (m = n) then r else ref k m).
Proof.
  intros C El Er H0 Hc k'. destruct (look_some _ _ _ El) as (Hb & H1 & H2).
  set (x := set_refcnt r (k.(k_bcache) !!! b)). unfold ref in Er. rewrite El in Er.
  destruct (ca_used _ _ C b Hb Er) as [_ Hv].
  assert (Ed : b_data (k_bcache k !!! b) = view k n) by (unfold view; by rewrite El, Hv).
  assert (Hlk : look k (b_blockno x) = Some b \/ look k (b_blockno x) = None) by (left; simpl; congruence).
  assert (Hf : look k (b_blockno x) = None -> b_refcnt (k_bcache k !!! b) = 0) by (simpl; congruence).
  assert (Hn : b_blockno x = n) by done.
  split; [apply cache_put; auto|split; [|split]].
  - simpl. rewrite Ed, H2. intros. by apply Hc.
  - simpl. intros Hs Hr0. destruct (Hc Hr0) as [_ Hs']. rewrite Hs' in Hs. by destruct Hs.
  - intros m. change k' with (put_buf b x k). rewrite (look_put k l) by auto. rewrite Hn.
    case_decide; [by subst|]. case_decide as E; [|done]. destruct (look_some _ _ _ E) as (_ & _ & ?). congruence.
  - intros m. change k' with (put_buf b x k). rewrite (view_put k l) by auto. rewrite Hn. case_decide; [by subst|done].
  - intros m. change k' with (put_buf b x k). rewrite (ref_put k l) by auto. by rewrite Hn.
Qed.

Lemma unlink_link b x k :
  x = k.(k_bcache) !!! b ->
  (modb x.(b_next) (set_prev x.(b_prev)) ;; x ← getb b; modb x.(b_prev) (set_next x.(b_next)) ;; link_front b) k =
    Ok tt (set_bcache (to_front b k.(k_bcache)) k).
Proof. intros ->. unfold link_front, modb, getb. mstep. reflexivity. Qed.

(** [brelse] gives the reference back; the last one only of a clean block. *)
Lemma brelse_spec k l n b :
  cache k l -> held k n b -> ref k n < 2 ^ 32 -> (ref k n = 1 -> view k n = disk_read k.(k_disk) n) ->
  exists l' k', brelse' pid b k = Ok tt k' /\ cache k' l' /\ base k' = base k /\
    k'.(k_slocks) = delete (SlBuf b) k.(k_slocks) /\ (forall m, look k' m = look k m) /\
    (forall m, view k' m = view k m) /\ (forall m, ref k' m = ref k m - if decide (m = n) then 1 else 0).
Proof.
  intros C (El & Es & Ed & Er) Hlt Hclean. destruct (look_some _ _ _ El) as (Hb & H1 & H2).
  set (k1 := set_slocks (delete (SlBuf b) k.(k_slocks)) k).
  assert (C1 : cache k1 l).
  { apply (same_cache k k1 l l C); [by intros i|done| |apply C]. simpl. intros i.
    destruct (decide (SlBuf b = SlBuf i)) as [[= <-]|Hne]; [by rewrite lookup_delete_eq; intros []|].
    by rewrite lookup_delete_ne. }
  assert (Hr0 : b_refcnt (k_bcache k !!! b) = ref k n) by (unfold ref; by rewrite El).
  assert (0 < ref k n) by (pose proof (ca_ref _ _ C b Hb); lia).
  destruct (set_refcnt_spec k1 l n b (ref k n - 1) C1 El Er) as (C2 & L2 & V2 & R2); [lia| |].
  { intros Hz. split; [apply Hclean; lia|simpl; by rewrite lookup_delete_eq]. }
  set (k2 := put_buf b _ k1) in *.
  assert (Hbl : (b < length (k_bcache k1))%nat) by by apply put_len with l.
  assert (E : brelse' pid b k = Ok tt (if ref k n - 1 =? 0 then set_bcache (to_front b k2.(k_bcache)) k2 else k2)).
  { unfold brelse', sl_holding. rewrite bind_gets, bool_decide_true by done. cbn [negb]. unfold sl_release.
    rewrite bind_modify. fold k1. rewrite (bind_ok _ _ _ _ _ (modb_eq b _ k1 Hbl)).
    change (k_bcache k1) with (k_bcache k). rewrite Hr0, u32_small by lia.
    change (put_buf b _ k1) with k2. unfold getb. rewrite bind_gets.
    assert (Hx : b_refcnt (k_bcache k2 !!! b) = ref k n - 1) by (unfold k2; by rewrite put_buf_eq).
    rewrite Hx. destruct (ref k n - 1 =? 0); [|done]. by apply unlink_link. }
  rewrite E. destruct (Z.eqb_spec (ref k n - 1) 0) as [Hz|Hz].
  - destruct (list_elem_of_split l b) as (l1 & l2 & ->).
    { by apply (ring_lt _ _ b (ca_ring _ _ C)). }
    pose proof (to_front_spec _ _ _ _ (ca_ring _ _ C2)) as Hr.
    set (k3 := set_bcache (to_front b (k_bcache k2)) k2).
    assert (Hsame : same_bufs (k_bcache k2) (k_bcache k3)).
    { intros i Hi. apply to_front_same. destruct (ca_ring _ _ C2) as (-> & _). lia. }
    exists (b :: l1 ++ l2), k3. split; [done|].
    split; [by apply (same_cache k2 k3 (l1 ++ b :: l2))|]. split; [done|]. split; [done|].
    split; [intros m; by rewrite (same_look k2 k3), L2|].
    split; [intros m; by rewrite (same_view k2 k3), V2|].
    intros m. rewrite (same_ref k2 k3), R2 by done. case_decide; [by subst|]. change (ref k1 m) with (ref k m). lia.
  - exists l, k2. split; [done|]. split; [done|]. split; [done|]. split; [done|]. split; [done|]. split; [done|].
    intros m. rewrite R2. case_decide; [by subst|]. change (ref k1 m) with (ref k m). lia.
Qed.

Lemma bpin_spec k l n b :
  cache k l -> held k n b -> ref k n < 2 ^ 32 - 1 ->
  exists k', bpin' b k = Ok tt k' /\ cache k' l /\ base k' = base k /\ k'.(k_slocks) = k.(k_slocks) /\
    (forall m, look k' m = look k m) /\ (forall m, view k' m = view k m) /\
    (forall m, ref k' m = ref k m + if decide (m = n) then 1 else 0).
Proof.
  intros C (El & Es & Ed & Er) Hlt. destruct (look_some _ _ _ El) as (Hb & H1 & H2).
  assert (Hr0 : b_refcnt (k_bcache k !!! b) = ref k n) by (unfold ref; by rewrite El).
  pose proof (ca_ref _ _ C b Hb).
  destruct (set_refcnt_spec k l n b (ref k n + 1) C El Er) as (C2 & L2 & V2 & R2); [lia..|].
  eexists. split; [unfold bpin'; rewrite modb_eq by (by apply put_len with l); by rewrite Hr0, u32_small by lia|].
  split; [done|]. split; [done|]. split; [done|]. split; [done|]. split; [done|].
  intros m. rewrite R2. case_decide; [by subst|lia].
Qed.

Lemma bunpin_spec k l n b :
  cache k l -> held k n b -> 1 < ref k n < 2 ^ 32 ->
  exists k', bunpin' b k = Ok tt k' /\ cache k' l /\ base k' = base k /\ k'.(k_slocks) = k.(k_slocks) /\
    (forall m, look k' m = look k m) /\ (forall m, view k' m = view k m) /\
    (forall m, ref k' m = ref k m - if decide (m = n) then 1 else 0).
Proof.
  intros C (El & Es & Ed & Er) Hlt. destruct (look_some _ _ _ El) as (Hb & H1 & H2).
  assert (Hr0 : b_refcnt (k_bcache k !!! b) = ref k n) by (unfold ref; by rewrite El).
  destruct (set_refcnt_spec k l n b (ref k n - 1) C El Er) as (C2 & L2 & V2 & R2); [lia..|].
  eexists. split; [unfold bunpin'; rewrite modb_eq by (by apply put_len with l); by rewrite Hr0, u32_small by lia|].
  split; [done|]. split; [done|]. split; [done|]. split; [done|]. split; [done|].
  intros m. rewrite R2. case_decide; [by subst|lia].
Qed.

(** Fewer blocks in use than buffers: one is free. *)
Lemma free_buffer k l S :
  cache k l -> (forall m, ref k m ≠ 0 -> m ∈ S) -> (length S < NBUF)%nat ->
  exists i, (i < NBUF)%nat /\ b_refcnt (k.(k_bcache) !!! i) = 0.
Proof.
  intros C HS Hlen.
  destruct (decide (Exists (fun i => b_refcnt (k.(k_bcache) !!! i) = 0) (seq 0 NBUF))) as [He|He].
  { apply Exists_exists in He as (i & Hi & H0). apply elem_of_seq in Hi. exists i. split; [lia|done]. }
  exfalso. assert (Hu : forall i, (i < NBUF)%nat -> b_refcnt (k.(k_bcache) !!! i) ≠ 0).
  { intros i Hi H0. apply He, Exists_exists. exists i. split; [apply elem_of_seq; lia|done]. }
  assert (Hsub : (fun i => b_blockno (k.(k_bcache) !!! i)) <$> seq 0 NBUF ⊆+ S).
  2: { apply submseteq_length in Hsub. rewrite length_fmap, length_seq in Hsub. lia. }
  apply NoDup_submseteq.
  2: { intros m Hm. apply list_elem_of_fmap in Hm as (i & -> & Hi). apply elem_of_seq in Hi. apply HS.
    destruct (ca_used _ _ C i) as [Hd0 _]; [lia|apply Hu; lia|]. unfold ref.
    rewrite (look_uniq k l (b_blockno (k_bcache k !!! i)) i C); [apply Hu; lia|lia|done|done]. }
  apply NoDup_fmap_2_strong; [|apply NoDup_seq]. intros i j Hi Hj E. apply elem_of_seq in Hi, Hj.
  destruct (ca_used _ _ C i) as [H1 _]; [lia|apply Hu; lia|]. destruct (ca_used _ _ C j) as [H2 _]; [lia|apply Hu; lia|].
  apply (ca_uniq _ _ C); auto with lia.
Qed.

(** Every buffer in use: a block that is not cached cannot be read. *)
Lemma bread_no_buffers k l n :
  cache k l -> (forall i, (i < NBUF)%nat -> b_refcnt (k.(k_bcache) !!! i) ≠ 0) -> look k n = None ->
  bread' pid d n k = Panic "bget: no buffers".
Proof.
  intros C Hu El. unfold bread'. apply bind_panic. unfold bget', getb. rewrite bind_gets.
  rewrite (bind_ok _ _ _ _ _ (scan_hit k l n C)), El, bind_gets, (bind_ok _ _ _ _ _ (scan_victim k l C)).
  destruct (victim k l) as [b|] eqn:Ev; [|done]. exfalso. apply first_some in Ev as [Hb H0].
  apply (Hu b); [|by apply Z.eqb_eq]. apply (ring_lt _ _ b (ca_ring _ _ C)).
  apply list_elem_of_In, in_rev. by apply list_elem_of_In.
Qed.
End spec.

(** ** The operations of bio.c *)

Section real.
Context (me : nat) (pid : Z) (d : Z) `{W : Wakes} `{D : Disk} `{DOK : !DiskOK}.
Abbreviation look := (look d).
Abbreviation view := (view d).
Abbreviation ref := (ref d).
Abbreviation held := (held pid d).

(** The parts of the kernel that cache operations, printing and waking leave
    alone. *)
Definition frame (k : kernel) : kernel :=
  set_uart (mkuart false [] [] false) (set_slocks ∅ (set_bcache [] (rest k))).

(** A process between two cache operations, holding the spinlocks [H]. *)
Definition ready (H : list lockid) (k : kernel) : Prop := calm me pid H k /\ exists l, cache d k l.

Lemma cache_rest k l : cache d (rest k) l <-> cache d k l.
Proof. split; intros []; by constructor. Qed.

Lemma sim_ok {A} H H' (c c' : M kernel A) k a r :
  sim me pid H H' c c' -> calm me pid H k -> c' (rest k) = Ok a r ->
  runs (c k) (fun a' k' => a' = a /\ calm me pid H' k' /\ rest k' = r).
Proof. intros Hs Hc E. specialize (Hs k Hc). by rewrite E in Hs. Qed.

(** A block that is not in use is what the disk has. *)
Lemma view_clean k l n : cache d k l -> ref k n = 0 -> view k n = disk_read k.(k_disk) n.
Proof.
  intros C Hr. unfold BioSpec.view. unfold BioSpec.ref in Hr. destruct (look k n) as [i|] eqn:E; [|done].
  destruct (look_some _ _ _ _ E) as (Hi & H1 & H2). destruct (b_valid _) eqn:Ev; [|done].
  by rewrite (ca_clean _ _ _ C i), H2.
Qed.

Lemma ref_nonneg k l n : cache d k l -> 0 <= ref k n.
Proof.
  intros C. unfold BioSpec.ref. destruct (look k n) as [i|] eqn:E; [|done].
  apply (ca_ref _ _ _ C). by destruct (look_some _ _ _ _ E).
Qed.

Lemma held_intro k l n b :
  cache d k l -> look k n = Some b -> k.(k_slocks) !! SlBuf b = Some pid -> ref k n ≠ 0 -> held k n b.
Proof.
  intros C El Es Er. split; [done|]. split; [done|]. split; [|done].
  destruct (look_some _ _ _ _ El) as (Hb & _). unfold BioSpec.view. rewrite El. unfold BioSpec.ref in Er. rewrite El in Er.
  by destruct (ca_used _ _ _ C b Hb Er) as [_ ->].
Qed.

Lemma bread_runs H k n :
  ready H k -> outside H -> room d k n -> ref k n < 2 ^ 32 - 1 ->
  runs (bread d n k) (fun b k' => ready H k' /\ held k' n b /\ frame k' = frame k /\
    (forall m c, look k m = Some c -> ref k m ≠ 0 -> look k' m = Some c) /\
    (forall m, view k' m = view k m) /\ (forall m, ref k' m = ref k m + if decide (m = n) then 1 else 0) /\
    k'.(k_slocks) = <[SlBuf b := pid]> k.(k_slocks) /\ k.(k_slocks) !! SlBuf b = None).
Proof using DOK.
  intros [Hc [l C]] Ho Hroom Hlt. apply cache_rest in C.
  destruct (bread_spec pid d (rest k) l n C Hroom Hlt) as (b & r & E & C' & Hh & Hb & Hst & Hv & Hr & Hs & Hs0).
  eapply runs_mono; [apply (sim_ok _ _ _ _ k b r (sim_bread me pid H d n Ho) Hc E)|].
  intros b' k' (-> & Hc' & <-). split; [split; [done|]; exists l; by apply cache_rest|].
  split; [exact Hh|]. split; [|auto 10]. unfold base in Hb.
  change (frame k') with (set_uart (mkuart false [] [] false) (set_slocks ∅ (set_bcache [] (rest k')))).
  by rewrite Hb.
Qed.

Lemma bread_panics H k n :
  ready H k -> outside H -> (forall i, (i < NBUF)%nat -> b_refcnt (k.(k_bcache) !!! i) ≠ 0) -> look k n = None ->
  bread d n k = Panic "bget: no buffers".
Proof using DOK.
  intros [Hc [l C]] Ho Hu El. apply cache_rest in C. pose proof (sim_bread me pid H d n Ho k Hc) as Hs.
  by rewrite (bread_no_buffers pid d (rest k) l n C Hu El) in Hs.
Qed.

Lemma set_data_runs H k n b y :
  ready H k -> held k n b ->
  runs (modb b (set_data y) k) (fun _ k' => ready H k' /\ held k' n b /\ frame k' = frame k /\
    k'.(k_slocks) = k.(k_slocks) /\ (forall m, look k' m = look k m) /\ (forall m, ref k' m = ref k m) /\
    (forall m, view k' m = if decide (m = n) then y else view k m)).
Proof.
  intros [Hc [l C]] Hh. destruct (set_data_spec pid d k l n b y C Hh) as (k' & E & C' & Hb & Hs & Hl & Hr & Hv & Hh').
  rewrite E. cbn [runs]. assert (k' = set_bcache (alter (set_data y) b k.(k_bcache)) k) as -> by (by injection E).
  split; [split; [by eapply calm_parts|by exists l]|]. auto 10.
Qed.

Lemma bwrite_runs H k n b :
  ready H k -> outside H -> held k n b ->
  runs (bwrite b k) (fun _ k' => ready H k' /\ held k' n b /\
    frame k' = set_disk (disk_write n (view k n) k.(k_disk)) (frame k) /\
    k'.(k_slocks) = k.(k_slocks) /\ (forall m, look k' m = look k m) /\ (forall m, ref k' m = ref k m) /\
    (forall m, view k' m = view k m)).
Proof using DOK.
  intros [Hc [l C]] Ho Hh. apply cache_rest in C.
  destruct (bwrite_spec pid d (rest k) l n b C Hh) as (r & E & Er & C' & Hv).
  eapply runs_mono; [apply (sim_ok _ _ _ _ k tt r (sim_bwrite me pid H b Ho) Hc E)|].
  intros [] k' (_ & Hc' & Ek). rewrite Er in Ek.
  assert (Hl : forall m, look k' m = look k m)
    by (intros m; change (look k' m) with (look (rest k') m); by rewrite Ek).
  assert (Hr : forall m, ref k' m = ref k m)
    by (intros m; change (ref k' m) with (ref (rest k') m); by rewrite Ek).
  assert (Hv' : forall m, view k' m = view k m).
  { intros m. change (view k' m) with (view (rest k') m). rewrite Ek, <- Er. apply Hv. }
  assert (Hs : k_slocks k' = k_slocks k) by (change (k_slocks k') with (k_slocks (rest k')); by rewrite Ek).
  split; [split; [done|]; exists l; apply cache_rest; rewrite Ek, <- Er; done|].
  split; [|split; [|done]].
  - destruct Hh as (H1 & H2 & H3 & H4). unfold BioSpec.held. rewrite Hl, Hs, Hr, Hv'. split; [done|]. split; [done|].
    split; [|done]. change (k_bcache k') with (k_bcache (rest k')). rewrite Ek. done.
  - unfold frame. by rewrite Ek.
Qed.

Lemma brelse_runs H k n b :
  ready H k -> outside H -> held k n b -> ref k n < 2 ^ 32 -> (ref k n = 1 -> view k n = disk_read k.(k_disk) n) ->
  runs (brelse b k) (fun _ k' => ready H k' /\ frame k' = frame k /\
    k'.(k_slocks) = delete (SlBuf b) k.(k_slocks) /\ (forall m, look k' m = look k m) /\
    (forall m, view k' m = view k m) /\ (forall m, ref k' m = ref k m - if decide (m = n) then 1 else 0)).
Proof.
  intros [Hc [l C]] Ho Hh Hlt Hcl. apply cache_rest in C.
  destruct (brelse_spec pid d (rest k) l n b C Hh Hlt Hcl) as (l' & r & E & C' & Hb & Hs & Hl & Hv & Hr).
  eapply runs_mono; [apply (sim_ok _ _ _ _ k tt r (sim_brelse me pid H b Ho) Hc E)|].
  intros [] k' (_ & Hc' & <-). split; [split; [done|]; exists l'; by apply cache_rest|].
  split; [|auto]. unfold base in Hb.
  change (frame k') with (set_uart (mkuart false [] [] false) (set_slocks ∅ (set_bcache [] (rest k')))).
  by rewrite Hb.
Qed.

Lemma bunpin_runs H k n b :
  ready H k -> outside H -> held k n b -> 1 < ref k n < 2 ^ 32 ->
  runs (bunpin b k) (fun _ k' => ready H k' /\ held k' n b /\ frame k' = frame k /\
    k'.(k_slocks) = k.(k_slocks) /\ (forall m, look k' m = look k m) /\
    (forall m, view k' m = view k m) /\ (forall m, ref k' m = ref k m - if decide (m = n) then 1 else 0)).
Proof.
  intros [Hc [l C]] Ho Hh Hlt. apply cache_rest in C.
  destruct (bunpin_spec pid d (rest k) l n b C Hh Hlt) as (r & E & C' & Hb & Hs & Hl & Hv & Hr).
  eapply runs_mono; [apply (sim_ok _ _ _ _ k tt r (sim_bunpin me pid H b Ho) Hc E)|].
  intros [] k' (_ & Hc' & <-). apply (proj1 (cache_rest k' l)) in C'. split; [split; [done|]; by exists l|].
  split; [|split; [|auto]].
  - destruct Hh as (H1 & H2 & H3 & H4). apply (held_intro k' l); auto.
    + change (look (rest k') n = Some b). by rewrite Hl.
    + change (k_slocks (rest k') !! SlBuf b = Some pid). by rewrite Hs.
    + change (ref (rest k') n ≠ 0). rewrite Hr, decide_True by done. change (ref (rest k) n) with (ref k n). lia.
  - unfold base in Hb.
    change (frame k') with (set_uart (mkuart false [] [] false) (set_slocks ∅ (set_bcache [] (rest k')))).
    by rewrite Hb.
Qed.

Lemma bpin_runs H k n b :
  ready H k -> outside H -> held k n b -> ref k n < 2 ^ 32 - 1 ->
  runs (bpin b k) (fun _ k' => ready H k' /\ held k' n b /\ frame k' = frame k /\
    k'.(k_slocks) = k.(k_slocks) /\ (forall m, look k' m = look k m) /\
    (forall m, view k' m = view k m) /\ (forall m, ref k' m = ref k m + if decide (m = n) then 1 else 0)).
Proof.
  intros [Hc [l C]] Ho Hh Hlt. pose proof (ref_nonneg k l n C). apply cache_rest in C.
  destruct (bpin_spec pid d (rest k) l n b C Hh Hlt) as (r & E & C' & Hb & Hs & Hl & Hv & Hr).
  eapply runs_mono; [apply (sim_ok _ _ _ _ k tt r (sim_bpin me pid H b Ho) Hc E)|].
  intros [] k' (_ & Hc' & <-). apply (proj1 (cache_rest k' l)) in C'. split; [split; [done|]; by exists l|].
  split; [|split; [|auto]].
  - destruct Hh as (H1 & H2 & H3 & H4). apply (held_intro k' l); auto.
    + change (look (rest k') n = Some b). by rewrite Hl.
    + change (k_slocks (rest k') !! SlBuf b = Some pid). by rewrite Hs.
    + change (ref (rest k') n ≠ 0). rewrite Hr, decide_True by done. change (ref (rest k) n) with (ref k n). lia.
  - unfold base in Hb.
    change (frame k') with (set_uart (mkuart false [] [] false) (set_slocks ∅ (set_bcache [] (rest k')))).
    by rewrite Hb.
Qed.

Lemma printf_runs H k fmt ap :
  ready H k -> LkPr ∉ H ->
  runs (printf fmt ap k) (fun _ k' => ready H k' /\ frame k' = frame k /\ k'.(k_slocks) = k.(k_slocks) /\
    (forall m, look k' m = look k m) /\ (forall m, view k' m = view k m) /\ (forall m, ref k' m = ref k m)).
Proof.
  intros [Hc [l C]] Hn. eapply runs_mono; [by apply (sim_ok _ _ _ _ k tt (sent (printed fmt ap) (rest k)) (sim_printf me pid H fmt ap Hn) Hc)|].
  intros [] k' (_ & Hc' & Ek). split; [split; [done|]; exists l; apply cache_rest; rewrite Ek|].
  { destruct C; by constructor. }
  split; [unfold frame; by rewrite Ek|]. split; [change (k_slocks k') with (k_slocks (rest k')); by rewrite Ek|].
  split; [|split]; intros m.
  - change (look k' m) with (look (rest k') m). by rewrite Ek.
  - change (view k' m) with (view (rest k') m). by rewrite Ek.
  - change (ref k' m) with (ref (rest k') m). by rewrite Ek.
Qed.

(** Code that changes neither the cache nor what locking changes. *)
Lemma ready_modify H k g :
  (forall k, k_cpu (g k) = k_cpu k /\ k_locks (g k) = k_locks k /\ k_procs (g k) = k_procs k) ->
  (forall k, k_bcache (g k) = k_bcache k /\ k_slocks (g k) = k_slocks k /\ k_disk (g k) = k_disk k) ->
  ready H k -> ready H (g k).
Proof.
  intros H1 H2 [Hc [l C]]. split.
  - destruct (H1 k) as (E1 & E2 & E3). by eapply calm_parts.
  - exists l. destruct (H2 k) as (E1 & E2 & E3). destruct C. by constructor; rewrite ?E1, ?E2, ?E3.
Qed.
End real.
