(* ===== verification/BioInit.v ===== *)
(** * The buffer cache from [binit] on

    [binit] links every buffer into the LRU list and so establishes the
    invariant of the cache.  From there on the cache refines a map of blocks:
    the abstract machine has the contents of every block, how often it is in
    use, and the disk. *)

From Stdlib Require Import ZArith Lia.
From stdpp Require Import base list numbers strings gmap.
From S2P Require Import Prelude Types Mem Layout Kalloc State Spinlock Printf Lottery Proc ProcSpec Sleeplock Seq Bio BioSpec.
Open Scope Z_scope.

(** ** binit *)

(** One round of [binit] on the buffers. *)
Definition link_in (b : nat) (bc : list buf) : list buf :=
  let bc := alter (set_next (b_next (bc !!! bhead))) b bc in
  let bc := alter (set_prev bhead) b bc in
  let bc := alter (set_prev b) (b_next (bc !!! bhead)) bc in
  alter (set_next b) bhead bc.

Definition same_contents (bc bc' : list buf) : Prop :=
  forall i, (i < length bc)%nat -> b_valid (bc' !!! i) = b_valid (bc !!! i) /\ b_dev (bc' !!! i) = b_dev (bc !!! i) /\
    b_blockno (bc' !!! i) = b_blockno (bc !!! i) /\ b_refcnt (bc' !!! i) = b_refcnt (bc !!! i) /\
    b_data (bc' !!! i) = b_data (bc !!! i).

Lemma same_alter bc bc' f i :
  length bc' = length bc ->
  (forall x, b_valid (f x) = b_valid x /\ b_dev (f x) = b_dev x /\ b_blockno (f x) = b_blockno x /\
     b_refcnt (f x) = b_refcnt x /\ b_data (f x) = b_data x) ->
  same_contents bc bc' -> same_contents bc (alter f i bc').
Proof.
  intros Hl Hf Hs j Hj. rewrite lookup_total_alter by lia. case_decide; [|by apply Hs].
  destruct (Hf (bc' !!! j)) as (-> & -> & -> & -> & ->). by apply Hs.
Qed.

Lemma link_in_spec bc0 bc m b :
  length bc0 = S NBUF -> length bc = S NBUF -> same_contents bc0 bc ->
  (forall y, y ∈ b :: m -> (y < NBUF)%nat) -> NoDup (b :: m) ->
  links bc (bhead :: m ++ [bhead]) ->
  length (link_in b bc) = S NBUF /\ same_contents bc0 (link_in b bc) /\ links (link_in b bc) (bhead :: (b :: m) ++ [bhead]).
Proof.
  intros H0 Hl Hs Hm Hn Hk. unfold link_in. split; [by rewrite !length_alter|]. split.
  - repeat (apply same_alter; [rewrite ?length_alter; congruence|done|]). done.
  - by apply front_links.
Qed.

Definition unlocked_bufs (k : kernel) (n : nat) : Prop := forall i, (i < n)%nat -> k.(k_slocks) !! SlBuf i = None.

(** What every round of [binit] keeps: buffers 0..n-1 are in the list, the last
    one first. *)
Record linked (k0 : kernel) (n : nat) (k : kernel) : Prop := {
  li_len : length k.(k_bcache) = S NBUF;
  li_same : same_contents k0.(k_bcache) k.(k_bcache);
  li_links : links k.(k_bcache) (bhead :: rev (seq 0 n) ++ [bhead]);
  li_locks : unlocked_bufs k n;
  li_slocks : forall i, k0.(k_slocks) !! i = None -> k.(k_slocks) !! i = None;
  li_spin : forall lk, k0.(k_locks) !! lk = None -> k.(k_locks) !! lk = None;
  li_rest : set_bcache [] (set_slocks ∅ (set_locks ∅ k)) = set_bcache [] (set_slocks ∅ (set_locks ∅ k0)) }.

Lemma binit_linked k0 :
  length k0.(k_bcache) = S NBUF -> runs (binit k0) (fun _ => linked k0 NBUF).
Proof.
  intros Hl. unfold binit, initlock, modb. rewrite !bind_modify.
  eapply runs_mono; [apply (runs_foreach (seq 0 NBUF) _ (fun pre k => linked k0 (length pre) k))|].
  - cbn [length]. split.
    + cbn. by rewrite !length_alter.
    + cbn. apply same_alter; [by rewrite !length_alter|done|]. apply same_alter; [done|done|]. done.
    + cbn [k_bcache set_bcache seq rev app]. cbn [links k_bcache set_bcache].
      rewrite !lookup_total_alter by (rewrite ?length_alter; cbn; rewrite Hl; unfold bhead; lia). cbn.
      by rewrite !decide_True.
    + by intros i Hi%Nat.nlt_0_r.
    + done.
    + intros lk Hlk. cbn. by apply lookup_delete_None; right.
    + by destruct k0.
  - intros pre x post k Hs [].
    assert (x = length pre) as ->.
    { assert (seq 0 NBUF !! length pre = Some x) as Hx by (rewrite Hs; by rewrite lookup_app_r, Nat.sub_diag).
      apply lookup_seq in Hx. lia. }
    assert (Hx : (length pre < NBUF)%nat) by (apply (f_equal length) in Hs; rewrite length_seq, length_app in Hs; simpl in Hs; lia).
    unfold getb, initsleeplock, initlock, modb, gets, modify, mbind, M_bind. cbn [rbind runs k_bcache set_bcache set_slocks set_locks].
    set (bc := k_bcache k) in *.
    destruct (link_in_spec k0.(k_bcache) bc (rev (seq 0 (length pre))) (length pre)) as (L1 & L2 & L3); [done|done|done| | |done|].
    { intros y. rewrite elem_of_cons, list_elem_of_In, <- in_rev, in_seq. lia. }
    { apply NoDup_cons. split; [rewrite list_elem_of_In, <- in_rev, in_seq; lia|]. rewrite <- (Permutation_rev (seq 0 _)). apply NoDup_seq. }
    rewrite length_app. cbn [length]. rewrite Nat.add_1_r. split; cbn [k_bcache k_slocks k_locks set_bcache set_slocks set_locks].
    + exact L1.
    + exact L2.
    + rewrite seq_S, rev_app_distr. exact L3.
    + unfold unlocked_bufs. cbn [k_slocks set_bcache set_slocks]. intros i Hi. destruct (decide (i = length pre)) as [->|Hne]; [by rewrite lookup_delete_eq|].
      apply lookup_delete_None. right. apply li_locks0. lia.
    + intros i Hi. apply lookup_delete_None. right. by apply li_slocks0.
    + intros lk Hlk. apply lookup_delete_None. right. by apply li_spin0.
    + rewrite <- li_rest0. by destruct k.
  - intros [] k. by rewrite length_seq.
Qed.

(** A cache [binit] has to start from: nothing of device [d] in it, nothing in use. *)
Definition blank (d : Z) (k : kernel) : Prop :=
  length k.(k_bcache) = S NBUF /\
  (forall i, (i < NBUF)%nat -> b_dev (k.(k_bcache) !!! i) ≠ d /\ b_refcnt (k.(k_bcache) !!! i) = 0) /\
  (forall i, (NBUF <= i)%nat -> k.(k_slocks) !! SlBuf i = None).

Lemma linked_cache d k0 k : blank d k0 -> linked k0 NBUF k -> cache d k (rev (seq 0 NBUF)) /\ forall m, ref d k m = 0.
Proof.
  intros (Hl & Hb & Hs) []. assert (Hc : forall i, (i < NBUF)%nat ->
    b_dev (k.(k_bcache) !!! i) ≠ d /\ b_refcnt (k.(k_bcache) !!! i) = 0).
  { intros i Hi. destruct (li_same0 i ltac:(lia)) as (_ & -> & _ & -> & _). by apply Hb. }
  split; [split|].
  - split; [done|]. split; [by rewrite <- (Permutation_rev (seq 0 _))|done].
  - intros i j Hi Hj H1. by destruct (Hc i Hi).
  - intros i Hi H1. by destruct (Hc i Hi).
  - intros i Hi. destruct (Hc i Hi) as [_ ->]. done.
  - intros i Hi H1. by destruct (Hc i Hi).
  - intros i [x Hx]. destruct (decide (i < NBUF)%nat) as [Hi|Hi].
    + by rewrite (li_locks0 i Hi) in Hx.
    + rewrite (li_slocks0 (SlBuf i)) in Hx; [done|]. apply Hs. lia.
  - intros m. unfold ref. destruct (look d k m) as [i|] eqn:E; [|done]. destruct (look_some _ _ _ _ E) as (Hi & H1 & _).
    by destruct (Hc i Hi).
Qed.

(** ** The abstract machine *)

Record blocks := mkblocks {
  bl_view : Z -> block;   (* the contents of every block *)
  bl_ref : Z -> Z;        (* how often a block is in use *)
  bl_disk : disk
}.

(** Abstract machines are compared pointwise. *)
#[global] Instance blocks_equiv : Equiv blocks := fun x y =>
  (forall m, bl_view x m = bl_view y m) /\ (forall m, bl_ref x m = bl_ref y m) /\ bl_disk x = bl_disk y.
#[global] Instance blocks_equivalence : Equivalence (≡@{blocks}).
Proof.
  split.
  - by intros x.
  - intros x y (H1 & H2 & H3). by split.
  - intros x y z (H1 & H2 & H3) (H4 & H5 & H6). split; [|split]; [|intros m|congruence].
    + intros m. by rewrite H1.
    + by rewrite H2.
Qed.

Inductive bio_ev := EvRead (n : Z) (x : block) | EvFill (n : Z) (x : block) | EvWrite (n : Z)
  | EvRelse (n : Z) | EvPin (n : Z) | EvUnpin (n : Z).

Definition count (n c : Z) (f : Z -> Z) (m : Z) : Z := if decide (m = n) then f m + c else f m.

(** What the operations promise: a read returns the contents of the block;
    filling a buffer changes them; a write puts them on the disk. *)
Definition bio_spec (e : bio_ev) (x y : blocks) : Prop :=
  match e with
  | EvRead n v => v = bl_view x n /\ y ≡ mkblocks (bl_view x) (count n 1 (bl_ref x)) (bl_disk x)
  | EvFill n v => y ≡ mkblocks (fun m => if decide (m = n) then v else bl_view x m) (bl_ref x) (bl_disk x)
  | EvWrite n => y ≡ mkblocks (bl_view x) (bl_ref x) (disk_write n (bl_view x n) (bl_disk x))
  | EvPin n => y ≡ mkblocks (bl_view x) (count n 1 (bl_ref x)) (bl_disk x)
  | EvRelse n | EvUnpin n => y ≡ mkblocks (bl_view x) (count n (-1) (bl_ref x)) (bl_disk x)
  end.

(** Sequences of abstract operations. *)
Inductive bio_specs : blocks -> list bio_ev -> blocks -> Prop :=
  | specs_nil x y : y ≡ x -> bio_specs x [] y
  | specs_snoc x es y e z : bio_specs x es y -> bio_spec e y z -> bio_specs x (es ++ [e]) z.

Section client.
Context (me : nat) (pid : Z) (d : Z) `{W : Wakes} `{D : Disk} `{DOK : !DiskOK}.
Abbreviation view := (view d).
Abbreviation ref := (ref d).
Abbreviation held := (held pid d).
Abbreviation ready := (ready me pid d).

Definition abs (k : kernel) : blocks := mkblocks (view k) (ref k) k.(k_disk).

(** The operations of a client of the cache: it reads blocks there is room for,
    works on buffers it holds, and has written a block before its last release. *)
Inductive bio_step (k : kernel) : bio_ev -> kernel -> Prop :=
  | BRead n b k' : room d k n -> ref k n < 2 ^ 32 - 1 -> bread d n k = Ok b k' ->
      bio_step k (EvRead n (b_data (k'.(k_bcache) !!! b))) k'
  | BFill n b x k' : held k n b -> modb b (set_data x) k = Ok tt k' -> bio_step k (EvFill n x) k'
  | BWrite n b k' : held k n b -> bwrite b k = Ok tt k' -> bio_step k (EvWrite n) k'
  | BRelse n b k' : held k n b -> ref k n < 2 ^ 32 -> (ref k n = 1 -> view k n = disk_read k.(k_disk) n) ->
      brelse b k = Ok tt k' -> bio_step k (EvRelse n) k'
  | BPin n b k' : held k n b -> ref k n < 2 ^ 32 - 1 -> bpin b k = Ok tt k' -> bio_step k (EvPin n) k'
  | BUnpin n b k' : held k n b -> 1 < ref k n < 2 ^ 32 -> bunpin b k = Ok tt k' -> bio_step k (EvUnpin n) k'.

Inductive bio_steps (k : kernel) : list bio_ev -> kernel -> Prop :=
  | steps_nil : bio_steps k [] k
  | steps_snoc es k1 e k2 : bio_steps k es k1 -> bio_step k1 e k2 -> bio_steps k (es ++ [e]) k2.

Lemma runs_of {A} (r : res kernel A) a k Q : runs r Q -> r = Ok a k -> Q a k.
Proof. intros H E. by rewrite E in H. Qed.

Lemma abs_intro k' x :
  (forall m, view k' m = bl_view x m) -> (forall m, ref k' m = bl_ref x m) -> k'.(k_disk) = bl_disk x -> abs k' ≡ x.
Proof. done. Qed.

Lemma frame_disk_eq k k' : frame k' = frame k -> k'.(k_disk) = k.(k_disk).
Proof. intros H. by apply (f_equal k_disk) in H. Qed.

Lemma count_add n c f m : f m + (if decide (m = n) then c else 0) = count n c f m.
Proof. unfold count. case_decide; lia. Qed.
Lemma count_sub n f m : f m - (if decide (m = n) then 1 else 0) = count n (-1) f m.
Proof. unfold count. case_decide; lia. Qed.

(** Every operation does what the abstract machine does, and keeps the
    invariant. *)
Lemma bio_step_sim k e k' : ready [] k -> bio_step k e k' -> ready [] k' /\ bio_spec e (abs k) (abs k').
Proof using DOK.
  intros R []; cbn [bio_spec].
  - destruct (runs_of _ _ _ _ (bread_runs me pid d [] k n R (outside_nil) H H0) H1) as (R' & Hh & F & _ & V & Rf & _).
    split; [done|]. split; [by destruct Hh as (_ & _ & -> & _); apply V|].
    apply abs_intro; [done|by intros m; rewrite Rf; apply count_add|by apply frame_disk_eq].
  - destruct (runs_of _ _ _ _ (set_data_runs me pid d [] k n b x R H) H0) as (R' & Hh & F & _ & _ & Rf & V).
    split; [done|]. apply abs_intro; [done|done|by apply frame_disk_eq].
  - destruct (runs_of _ _ _ _ (bwrite_runs me pid d [] k n b R (outside_nil) H) H0) as (R' & Hh & F & _ & _ & Rf & V).
    split; [done|]. apply abs_intro; [done|done|]. by apply (f_equal k_disk) in F.
  - destruct (runs_of _ _ _ _ (brelse_runs me pid d [] k n b R (outside_nil) H H0 H1) H2) as (R' & F & _ & _ & V & Rf).
    split; [done|]. apply abs_intro; [done|by intros m; rewrite Rf; apply count_sub|by apply frame_disk_eq].
  - destruct (runs_of _ _ _ _ (bpin_runs me pid d [] k n b R (outside_nil) H H0) H1) as (R' & Hh & F & _ & _ & V & Rf).
    split; [done|]. apply abs_intro; [done|by intros m; rewrite Rf; apply count_add|by apply frame_disk_eq].
  - destruct (runs_of _ _ _ _ (bunpin_runs me pid d [] k n b R (outside_nil) H H0) H1) as (R' & Hh & F & _ & _ & V & Rf).
    split; [done|]. apply abs_intro; [done|by intros m; rewrite Rf; apply count_sub|by apply frame_disk_eq].
Qed.

Lemma bio_steps_sim k es k' : ready [] k -> bio_steps k es k' -> ready [] k' /\ bio_specs (abs k) es (abs k').
Proof using DOK.
  intros R. induction 1 as [|es k1 e k2 _ [R1 IH] Hs]; [by split; [|constructor]|].
  destruct (bio_step_sim k1 e k2 R1 Hs) as [R2 Hs2]. split; [done|]. by econstructor.
Qed.

Lemma ready_linked k0 k : calm me pid [] k0 -> blank d k0 -> linked k0 NBUF k -> ready [] k /\ forall m, ref k m = 0.
Proof.
  intros Hc Hb Hl. destruct (linked_cache d k0 k Hb Hl) as [C Hr]. split; [|done]. split; [|by eexists].
  destruct Hl as [? ? ? ? ? Hsp Hre]. destruct Hc. split.
  - intros lk. rewrite decide_False by apply not_elem_of_nil. apply Hsp. rewrite calm_locks.
    by rewrite decide_False by apply not_elem_of_nil.
  - apply (f_equal k_cpu) in Hre. cbn in Hre. by rewrite Hre.
  - done.
  - apply (f_equal k_cpu) in Hre. cbn in Hre. by rewrite Hre.
  - apply (f_equal k_procs) in Hre. cbn in Hre. by rewrite Hre.
  - apply (f_equal k_procs) in Hre. cbn in Hre. by rewrite Hre.
Qed.

Lemma linked_abs k0 k : calm me pid [] k0 -> blank d k0 -> linked k0 NBUF k ->
  abs k ≡ mkblocks (disk_read k0.(k_disk)) (fun _ => 0) k0.(k_disk).
Proof.
  intros Hc Hb Hl. destruct (ready_linked k0 k Hc Hb Hl) as [[_ [l C]] Hr].
  assert (Ed : k_disk k = k_disk k0) by (pose proof (f_equal k_disk (li_rest _ _ _ Hl)) as E; exact E).
  apply abs_intro; [|done|done]. intros m. rewrite (view_clean d k l m C) by done. by rewrite Ed.
Qed.

(** C11. The buffer cache refines a map of blocks.  From [binit] on, whatever a
    client does that keeps to the protocol (at most one buffer in use per read, a
    dirty block written before its last release), every read returns the contents
    of its block, which only filling a buffer changes; writes put them on the disk;
    the reference counts are exact; and a read there is room for returns. *)
Theorem bcache_refines k0 :
  calm me pid [] k0 -> blank d k0 ->
  runs (binit k0) (fun _ k1 => forall es k, bio_steps k1 es k ->
    bio_specs (mkblocks (disk_read k0.(k_disk)) (fun _ => 0) k0.(k_disk)) es (abs k) /\
    (forall i j, (i < NBUF)%nat -> (j < NBUF)%nat -> b_dev (k.(k_bcache) !!! i) = d -> b_dev (k.(k_bcache) !!! j) = d ->
       b_blockno (k.(k_bcache) !!! i) = b_blockno (k.(k_bcache) !!! j) -> i = j) /\
    (forall n, room d k n -> ref k n < 2 ^ 32 - 1 -> exists k', bio_step k (EvRead n (view k n)) k')).
Proof using DOK.
  intros Hc Hb. eapply runs_mono; [apply binit_linked, Hb|]. intros [] k1 Hl es k Hs.
  destruct (ready_linked k0 k1 Hc Hb Hl) as [R1 _]. destruct (bio_steps_sim k1 es k R1 Hs) as [R Ha].
  split; [|split].
  - clear Hs. remember (abs k1) as x eqn:Ex.
    assert (Hx : x ≡ mkblocks (disk_read k0.(k_disk)) (fun _ => 0) k0.(k_disk)) by (subst x; by apply linked_abs).
    clear Ex. induction Ha as [x y Hy|x es y e z _ IH Hz]; [constructor; by rewrite Hy|]. econstructor; [by apply IH|done].
  - destruct R as [_ [l C]]. apply (ca_uniq _ _ _ C).
  - intros n Hn Hr. pose proof (bread_runs me pid d [] k n R outside_nil Hn Hr) as Hrun.
    apply runs_ok in Hrun as (b & k' & E & _ & Hh & _ & _ & V & _). exists k'.
    replace (view k n) with (b_data (k'.(k_bcache) !!! b)) by (destruct Hh as (_ & _ & -> & _); apply V). by econstructor.
Qed.
End client.

(** ** Witness: process 1 of lottery_demo, and a disk that answers at once *)

#[local] Instance demo_disk : Disk := {| virtio_disk_rw := transfer; virtio_disk_intr := mret tt |}.
#[local] Instance demo_disk_ok : DiskOK.
Proof. by intros b w k. Qed.
#[local] Instance demo_wakes : Wakes := 0%nat.

Lemma demo_calm : calm 1 0 [] run_demo.
Proof. split; [|done..]. intros lk. by rewrite decide_False by apply not_elem_of_nil. Qed.

Lemma demo_blank : blank 1 run_demo.
Proof.
  split; [done|]. split; [|done]. intros i Hi. cbn [run_demo k_bcache set_cpu set_procs sched_demo zero_kernel].
  rewrite lookup_total_replicate_2 by lia. done.
Qed.

(** The kernel after binit(). *)
Definition demo_bcache : kernel := match binit run_demo with Ok _ k => k | _ => run_demo end.

Lemma bcache_refines_witness :
  binit run_demo = Ok tt demo_bcache /\
  exists k, bio_step 0 1 demo_bcache (EvRead 7 (view 1 demo_bcache 7)) k.
Proof.
  assert (E : binit run_demo = Ok tt demo_bcache) by (vm_compute; reflexivity). split; [exact E|].
  pose proof (bcache_refines 1 0 1 run_demo demo_calm demo_blank) as H. rewrite E in H.
  destruct (H [] demo_bcache (steps_nil _ _ _)) as (_ & _ & Hr).
  assert (L : look 1 demo_bcache 7 = None) by (vm_compute; reflexivity).
  apply Hr; [|unfold ref; rewrite L; lia]. unfold room. rewrite L. exists 0%nat. split; [unfold NBUF; lia|].
  vm_compute. reflexivity.
Defined.
