(* ===== verification/Virtio.v ===== *)
(** * The virtio disk driver (kernel/virtio_disk.c, kernel/virtio.h)

    The driver and the device share the descriptors, the two rings, the request headers
    and the status bytes; [vdisk] has them with the driver's book-keeping, and the
    buffers and the disk a request moves data between.  Pointers that the driver puts in
    descriptors name the object they point to.

    vdisk_lock is held except in [sleep], so the code between two sleeps is one
    transition.  A thread that sleeps may be resumed at any time, which is more than
    wakeup() does. *)

From Stdlib Require Import ZArith Lia.
From stdpp Require Import base numbers list strings.
From S2P Require Import Prelude Types Mem Layout Kalloc State.
Open Scope Z_scope.

Definition NUM : nat := 8.
Definition VRING_DESC_F_NEXT : Z := 1.
Definition VRING_DESC_F_WRITE : Z := 2.
Definition VIRTIO_BLK_T_IN : Z := 0.
Definition VIRTIO_BLK_T_OUT : Z := 1.

(** The registers of kernel/virtio.h and their offsets. *)
Inductive vreg :=
  | VIRTIO_MMIO_MAGIC_VALUE
  | VIRTIO_MMIO_VERSION
  | VIRTIO_MMIO_DEVICE_ID
  | VIRTIO_MMIO_VENDOR_ID
  | VIRTIO_MMIO_DEVICE_FEATURES
  | VIRTIO_MMIO_DRIVER_FEATURES
  | VIRTIO_MMIO_QUEUE_SEL
  | VIRTIO_MMIO_QUEUE_NUM_MAX
  | VIRTIO_MMIO_QUEUE_NUM
  | VIRTIO_MMIO_QUEUE_READY
  | VIRTIO_MMIO_QUEUE_NOTIFY
  | VIRTIO_MMIO_INTERRUPT_STATUS
  | VIRTIO_MMIO_INTERRUPT_ACK
  | VIRTIO_MMIO_STATUS
  | VIRTIO_MMIO_QUEUE_DESC_LOW
  | VIRTIO_MMIO_QUEUE_DESC_HIGH
  | VIRTIO_MMIO_DRIVER_DESC_LOW
  | VIRTIO_MMIO_DRIVER_DESC_HIGH
  | VIRTIO_MMIO_DEVICE_DESC_LOW
  | VIRTIO_MMIO_DEVICE_DESC_HIGH.
Definition reg_offset (r : vreg) : Z :=
  match r with
  | VIRTIO_MMIO_MAGIC_VALUE => 0x000
  | VIRTIO_MMIO_VERSION => 0x004
  | VIRTIO_MMIO_DEVICE_ID => 0x008
  | VIRTIO_MMIO_VENDOR_ID => 0x00c
  | VIRTIO_MMIO_DEVICE_FEATURES => 0x010
  | VIRTIO_MMIO_DRIVER_FEATURES => 0x020
  | VIRTIO_MMIO_QUEUE_SEL => 0x030
  | VIRTIO_MMIO_QUEUE_NUM_MAX => 0x034
  | VIRTIO_MMIO_QUEUE_NUM => 0x038
  | VIRTIO_MMIO_QUEUE_READY => 0x044
  | VIRTIO_MMIO_QUEUE_NOTIFY => 0x050
  | VIRTIO_MMIO_INTERRUPT_STATUS => 0x060
  | VIRTIO_MMIO_INTERRUPT_ACK => 0x064
  | VIRTIO_MMIO_STATUS => 0x070
  | VIRTIO_MMIO_QUEUE_DESC_LOW => 0x080
  | VIRTIO_MMIO_QUEUE_DESC_HIGH => 0x084
  | VIRTIO_MMIO_DRIVER_DESC_LOW => 0x090
  | VIRTIO_MMIO_DRIVER_DESC_HIGH => 0x094
  | VIRTIO_MMIO_DEVICE_DESC_LOW => 0x0a0
  | VIRTIO_MMIO_DEVICE_DESC_HIGH => 0x0a4
  end.

(** The bits of the status register. *)
Definition VIRTIO_CONFIG_S_ACKNOWLEDGE : Z := 1.
Definition VIRTIO_CONFIG_S_DRIVER : Z := 2.
Definition VIRTIO_CONFIG_S_DRIVER_OK : Z := 4.
Definition VIRTIO_CONFIG_S_FEATURES_OK : Z := 8.

(** The features a device may offer and their bits. *)
Inductive vfeature :=
  | VIRTIO_BLK_F_RO
  | VIRTIO_BLK_F_SCSI
  | VIRTIO_BLK_F_CONFIG_WCE
  | VIRTIO_BLK_F_MQ
  | VIRTIO_F_ANY_LAYOUT
  | VIRTIO_RING_F_INDIRECT_DESC
  | VIRTIO_RING_F_EVENT_IDX.
Definition feature_bit (f : vfeature) : Z :=
  match f with
  | VIRTIO_BLK_F_RO => 5
  | VIRTIO_BLK_F_SCSI => 7
  | VIRTIO_BLK_F_CONFIG_WCE => 11
  | VIRTIO_BLK_F_MQ => 12
  | VIRTIO_F_ANY_LAYOUT => 27
  | VIRTIO_RING_F_INDIRECT_DESC => 28
  | VIRTIO_RING_F_EVENT_IDX => 29
  end.

(** What a descriptor points to. *)
Inductive vaddr := Anull | Aops (i : nat) | Adata (b : nat) | Astatus (i : nat).

(** struct virtq_desc *)
Record vdesc := mkdesc { d_addr : vaddr; d_len : Z; d_flags : Z; d_next : nat }.
(** struct virtio_blk_req *)
Record vreq := mkreq { q_type : Z; q_reserved : Z; q_sector : Z }.
(** disk.info[] *)
Record vinfo := mkinfo { i_b : option nat; i_status : Z }.
(** struct buf, as far as the driver uses it *)
Record vbuf := mkvbuf { vb_blockno : Z; vb_data : list Z; vb_disk : Z }.

Record vdisk := mkvdisk {
  v_desc : list vdesc;
  v_avail : list nat;      (* disk.avail->ring *)
  v_avail_idx : Z;         (* disk.avail->idx *)
  v_used : list nat;       (* the ids in disk.used->ring *)
  v_used_dev : Z;          (* disk.used->idx *)
  v_free : list bool;
  v_used_idx : Z;          (* disk.used_idx *)
  v_info : list vinfo;
  v_ops : list vreq;
  v_bufs : list vbuf;
  v_image : Z -> list Z;   (* the blocks on the disk by their first sector *)
  v_log : list (Z * Z)     (* the writes to the device's registers *)
}.
Definition set_vdesc x s := mkvdisk x s.(v_avail) s.(v_avail_idx) s.(v_used) s.(v_used_dev) s.(v_free) s.(v_used_idx) s.(v_info) s.(v_ops) s.(v_bufs) s.(v_image) s.(v_log).
Definition set_avail r i s := mkvdisk s.(v_desc) r i s.(v_used) s.(v_used_dev) s.(v_free) s.(v_used_idx) s.(v_info) s.(v_ops) s.(v_bufs) s.(v_image) s.(v_log).
Definition set_used r i s := mkvdisk s.(v_desc) s.(v_avail) s.(v_avail_idx) r i s.(v_free) s.(v_used_idx) s.(v_info) s.(v_ops) s.(v_bufs) s.(v_image) s.(v_log).
Definition set_vfree x s := mkvdisk s.(v_desc) s.(v_avail) s.(v_avail_idx) s.(v_used) s.(v_used_dev) x s.(v_used_idx) s.(v_info) s.(v_ops) s.(v_bufs) s.(v_image) s.(v_log).
Definition set_used_idx x s := mkvdisk s.(v_desc) s.(v_avail) s.(v_avail_idx) s.(v_used) s.(v_used_dev) s.(v_free) x s.(v_info) s.(v_ops) s.(v_bufs) s.(v_image) s.(v_log).
Definition set_info x s := mkvdisk s.(v_desc) s.(v_avail) s.(v_avail_idx) s.(v_used) s.(v_used_dev) s.(v_free) s.(v_used_idx) x s.(v_ops) s.(v_bufs) s.(v_image) s.(v_log).
Definition set_ops x s := mkvdisk s.(v_desc) s.(v_avail) s.(v_avail_idx) s.(v_used) s.(v_used_dev) s.(v_free) s.(v_used_idx) s.(v_info) x s.(v_bufs) s.(v_image) s.(v_log).
Definition set_vbufs x s := mkvdisk s.(v_desc) s.(v_avail) s.(v_avail_idx) s.(v_used) s.(v_used_dev) s.(v_free) s.(v_used_idx) s.(v_info) s.(v_ops) x s.(v_image) s.(v_log).
Definition set_image x s := mkvdisk s.(v_desc) s.(v_avail) s.(v_avail_idx) s.(v_used) s.(v_used_dev) s.(v_free) s.(v_used_idx) s.(v_info) s.(v_ops) s.(v_bufs) x s.(v_log).
Definition set_vlog x s := mkvdisk s.(v_desc) s.(v_avail) s.(v_avail_idx) s.(v_used) s.(v_used_dev) s.(v_free) s.(v_used_idx) s.(v_info) s.(v_ops) s.(v_bufs) s.(v_image) x.

(** The device's registers: what a read answers after the writes so far, the last
    write first. *)
Class Mmio := mmio : list (Z * Z) -> Z -> Z.

(** The address of a register, and the two uses of it: *R(r) and *R(r) = x *)
Definition R (r : vreg) : Z := VIRTIO0 + reg_offset r.
Definition read_reg `{Mmio} (r : vreg) : M vdisk Z := gets (fun s => u32 (mmio s.(v_log) (R r))).
Definition write_reg (r : vreg) (x : Z) : M vdisk unit := modify (fun s => set_vlog ((R r, u32 x) :: s.(v_log)) s).

(** An array access; outside of the array it is undefined. *)
Definition at_ {A} (f : vdisk -> list A) (i : nat) : M vdisk A :=
  o ← gets (fun s => f s !! i); match o with Some x => mret x | None => panic "undefined" end.

(** sleep(chan, &disk.vdisk_lock) *)
Definition sleep : M vdisk unit := fun s => Swtch s (fun s' => Ok tt s').

(** ** Descriptors *)

Fixpoint first_free (l : list bool) : option nat :=
  match l with [] => None | b :: l => if b : bool then Some O else S <$> first_free l end.

Definition alloc_desc : M vdisk (option nat) :=
  o ← gets (fun s => first_free s.(v_free));
  match o with
  | Some i => modify (fun s => set_vfree (<[i := false]> s.(v_free)) s) ;; mret (Some i)
  | None => mret None
  end.

Definition free_desc (i : nat) : M vdisk unit :=
  if Nat.leb NUM i then panic "free_desc 1"
  else
    f ← at_ v_free i;
    if (f : bool) then panic "free_desc 2"
    else
      modify (fun s => set_vdesc (<[i := mkdesc Anull 0 0 0]> s.(v_desc)) s) ;;
      modify (fun s => set_vfree (<[i := true]> s.(v_free)) s).

(** while(1): the chain has at most NUM descriptors. *)
Fixpoint free_chain (fuel : nat) (i : nat) : M vdisk unit :=
  d ← at_ v_desc i;
  free_desc i ;;
  if negb (Z.land d.(d_flags) VRING_DESC_F_NEXT =? 0) then
    match fuel with O => nofuel | S f => free_chain f d.(d_next) end
  else mret tt.

Definition alloc3_desc : M vdisk (option (nat * nat * nat)) :=
  o0 ← alloc_desc;
  match o0 with
  | None => mret None
  | Some i0 =>
      o1 ← alloc_desc;
      match o1 with
      | None => free_desc i0 ;; mret None
      | Some i1 =>
          o2 ← alloc_desc;
          match o2 with
          | None => free_desc i0 ;; free_desc i1 ;; mret None
          | Some i2 => mret (Some (i0, i1, i2))
          end
      end
  end.

(** ** A request *)

Definition set_desc (i : nat) (d : vdesc) : M vdisk unit := modify (fun s => set_vdesc (<[i := d]> s.(v_desc)) s).
Definition modbuf (b : nat) (f : vbuf -> vbuf) : M vdisk unit := modify (fun s => set_vbufs (alter f b s.(v_bufs)) s).
Definition modinfo (i : nat) (f : vinfo -> vinfo) : M vdisk unit := modify (fun s => set_info (alter f i s.(v_info)) s).
Definition set_bdisk (x : Z) (b : vbuf) : vbuf := mkvbuf b.(vb_blockno) b.(vb_data) x.

(** From the header to the notification of the device. *)
Definition submit (b : nat) (write : bool) (sector : Z) (idx : nat * nat * nat) : M vdisk unit :=
  let '(i0, i1, i2) := idx in
  modify (fun s => set_ops (<[i0 := mkreq (if write then VIRTIO_BLK_T_OUT else VIRTIO_BLK_T_IN) 0 sector]> s.(v_ops)) s) ;;
  set_desc i0 (mkdesc (Aops i0) 16 VRING_DESC_F_NEXT i1) ;;
  set_desc i1 (mkdesc (Adata b) BSIZE (Z.lor (if write then 0 else VRING_DESC_F_WRITE) VRING_DESC_F_NEXT) i2) ;;
  modinfo i0 (fun x => mkinfo x.(i_b) 0xff) ;;
  set_desc i2 (mkdesc (Astatus i0) 1 VRING_DESC_F_WRITE 0) ;;
  modbuf b (set_bdisk 1) ;;
  modinfo i0 (fun x => mkinfo (Some b) x.(i_status)) ;;
  modify (fun s => set_avail (<[Z.to_nat (s.(v_avail_idx) mod Z.of_nat NUM) := i0]> s.(v_avail)) s.(v_avail_idx) s) ;;
  modify (fun s => set_avail s.(v_avail) (u16 (s.(v_avail_idx) + 1)) s) ;;
  write_reg VIRTIO_MMIO_QUEUE_NOTIFY 0.

(** while(1) { if(alloc3_desc(idx) == 0) break; sleep(...); } *)
Fixpoint alloc_wait (fuel : nat) : M vdisk (nat * nat * nat) :=
  o ← alloc3_desc;
  match o with
  | Some idx => mret idx
  | None => sleep ;; match fuel with O => nofuel | S f => alloc_wait f end
  end.

(** while(b->disk == 1) sleep(b, ...); *)
Fixpoint done_wait (fuel : nat) (b : nat) : M vdisk unit :=
  x ← at_ v_bufs b;
  if x.(vb_disk) =? 1 then sleep ;; match fuel with O => nofuel | S f => done_wait f b end
  else mret tt.

(** What is left when the request is finished. *)
Definition finish (i0 : nat) : M vdisk unit :=
  modinfo i0 (fun x => mkinfo None x.(i_status)) ;;
  free_chain NUM i0.

Definition virtio_disk_rw (fuel : nat) (b : nat) (write : bool) : M vdisk unit :=
  x ← at_ v_bufs b;
  let sector := u32 (x.(vb_blockno) * (BSIZE / 512)) in
  idx ← alloc_wait fuel;
  submit b write sector idx ;;
  done_wait fuel b ;;
  finish idx.1.1.

(** ** The interrupt *)

(** The while loop: at most NUM entries of the used ring are new. *)
Fixpoint intr_loop (fuel : nat) : M vdisk unit :=
  s ← get;
  if negb (s.(v_used_idx) =? s.(v_used_dev)) then
    id ← at_ v_used (Z.to_nat (s.(v_used_idx) mod Z.of_nat NUM));
    x ← at_ v_info id;
    if negb (x.(i_status) =? 0) then panic "virtio_disk_intr status"
    else
      match x.(i_b) with
      | None => panic "undefined"
      | Some b =>
          modbuf b (set_bdisk 0) ;;
          modify (fun s => set_used_idx (u16 (s.(v_used_idx) + 1)) s) ;;
          match fuel with O => nofuel | S f => intr_loop f end
      end
  else mret tt.
Definition virtio_disk_intr `{Mmio} : M vdisk unit :=
  x ← read_reg VIRTIO_MMIO_INTERRUPT_STATUS;
  write_reg VIRTIO_MMIO_INTERRUPT_ACK (Z.land x 0x3) ;;
  intr_loop NUM.

(** ** Initialisation

    It runs at boot, before any request, and allocates the pages of the queue. *)
#[global] Instance vdisk_fst : Lens (vdisk * kmem) vdisk.
Proof. refine {| lget := fst; lput t s := (t, s.2) |}; [done|by intros []|done]. Defined.
#[global] Instance kmem_snd : Lens (vdisk * kmem) kmem.
Proof. refine {| lget := snd; lput t s := (s.1, t) |}; [done|by intros []|done]. Defined.

(** features &= ~(1 << bit) *)
Definition drop_feature (features : Z) (f : vfeature) : Z := Z.land features (u64 (Z.lnot (Z.shiftl 1 (feature_bit f)))).

(** The queue has fewer than NUM entries, or is missing. *)
Definition check_queue `{Mmio} : M vdisk unit :=
  write_reg VIRTIO_MMIO_QUEUE_SEL 0 ;;
  ready ← read_reg VIRTIO_MMIO_QUEUE_READY;
  if negb (ready =? 0) then panic "virtio disk should not be ready"
  else
    max ← read_reg VIRTIO_MMIO_QUEUE_NUM_MAX;
    if max =? 0 then panic "virtio disk has no queue 0"
    else if max <? Z.of_nat NUM then panic "virtio disk max queue too short"
    else mret tt.

(** From the reset to FEATURES_OK; the status the device answers. *)
Definition negotiate `{Mmio} : M vdisk Z :=
  write_reg VIRTIO_MMIO_STATUS 0 ;;
  let status := Z.lor 0 VIRTIO_CONFIG_S_ACKNOWLEDGE in
  write_reg VIRTIO_MMIO_STATUS status ;;
  let status := Z.lor status VIRTIO_CONFIG_S_DRIVER in
  write_reg VIRTIO_MMIO_STATUS status ;;
  features ← read_reg VIRTIO_MMIO_DEVICE_FEATURES;
  write_reg VIRTIO_MMIO_DRIVER_FEATURES (foldl drop_feature features
    [VIRTIO_BLK_F_RO; VIRTIO_BLK_F_SCSI; VIRTIO_BLK_F_CONFIG_WCE; VIRTIO_BLK_F_MQ;
     VIRTIO_F_ANY_LAYOUT; VIRTIO_RING_F_EVENT_IDX; VIRTIO_RING_F_INDIRECT_DESC]) ;;
  let status := Z.lor status VIRTIO_CONFIG_S_FEATURES_OK in
  write_reg VIRTIO_MMIO_STATUS status ;;
  status ← read_reg VIRTIO_MMIO_STATUS;
  if Z.land status VIRTIO_CONFIG_S_FEATURES_OK =? 0 then panic "virtio disk FEATURES_OK unset"
  else mret status.

(** Tell the device where the queue is. *)
Definition give_queue (desc avail used : Z) : M vdisk unit :=
  write_reg VIRTIO_MMIO_QUEUE_NUM (Z.of_nat NUM) ;;
  write_reg VIRTIO_MMIO_QUEUE_DESC_LOW desc ;;
  write_reg VIRTIO_MMIO_QUEUE_DESC_HIGH (Z.shiftr desc 32) ;;
  write_reg VIRTIO_MMIO_DRIVER_DESC_LOW avail ;;
  write_reg VIRTIO_MMIO_DRIVER_DESC_HIGH (Z.shiftr avail 32) ;;
  write_reg VIRTIO_MMIO_DEVICE_DESC_LOW used ;;
  write_reg VIRTIO_MMIO_DEVICE_DESC_HIGH (Z.shiftr used 32) ;;
  write_reg VIRTIO_MMIO_QUEUE_READY 0x1.

(** memset(page, 0, PGSIZE) *)
Definition zero_page (pa : Z) : M kmem unit := modify (fun m => mkkmem (memset m.(pm) pa 0 PGSIZE) m.(freelist)).

(** What the three zeroed pages hold. *)
Definition zero_queue (s : vdisk) : vdisk :=
  set_used (replicate NUM O) 0 (set_avail (replicate NUM O) 0 (set_vdesc (replicate NUM (mkdesc Anull 0 0 0)) s)).

Definition virtio_disk_init `{Mmio} : M (vdisk * kmem) unit :=
  magic ← zoom (read_reg VIRTIO_MMIO_MAGIC_VALUE);
  version ← zoom (read_reg VIRTIO_MMIO_VERSION);
  device ← zoom (read_reg VIRTIO_MMIO_DEVICE_ID);
  vendor ← zoom (read_reg VIRTIO_MMIO_VENDOR_ID);
  if negb (magic =? 0x74726976) || negb (version =? 2) || negb (device =? 2) || negb (vendor =? 0x554d4551)
  then panic "could not find virtio disk"
  else
    status ← zoom negotiate;
    zoom check_queue ;;
    desc ← zoom kalloc;
    avail ← zoom kalloc;
    used ← zoom kalloc;
    if (desc =? 0) || (avail =? 0) || (used =? 0) then panic "virtio disk kalloc"
    else
      zoom (zero_page desc) ;;
      zoom (zero_page avail) ;;
      zoom (zero_page used) ;;
      zoom (modify zero_queue) ;;
      zoom (give_queue desc avail used) ;;
      zoom (foreach (seq 0 NUM) (fun i => modify (fun s => set_vfree (<[i := true]> s.(v_free)) s))) ;;
      zoom (write_reg VIRTIO_MMIO_STATUS (Z.lor status VIRTIO_CONFIG_S_DRIVER_OK)).
