(* ===== verification/VirtioSpec.v ===== *)
(** * The driver and its device refine a disk with atomic transfers

    Threads that call virtio_disk_rw, the interrupt handler and the device interleave.
    The device is a relation of which only what the virtio specification documents is
    known ([dev_step]): it fetches the heads of chains from the available ring, serves
    the requests it has fetched in any order, and writes a zero status and a used
    element for each.  On a malformed chain it may do anything.

    Whatever the interleaving, a run is one of the disk [disk_step]: each request moves
    its block once, between the call and its return, no chain is malformed and nothing
    panics. *)

From Stdlib Require Import ZArith Lia.
From stdpp Require Import base numbers list strings gmap relations.
From S2P Require Import Prelude Types Mem Layout Kalloc State Virtio.
Open Scope Z_scope.

(** ** The device *)

(** The chain that starts at [h]: the buffer, whether the device is to read it, the
    sector and the index of the status byte. *)
Definition chain_of (s : vdisk) (h : nat) : option (nat * bool * Z * nat) :=
  d0 ← s.(v_desc) !! h;
  d1 ← s.(v_desc) !! d0.(d_next);
  d2 ← s.(v_desc) !! d1.(d_next);
  match d0.(d_addr), d1.(d_addr), d2.(d_addr) with
  | Aops i, Adata b, Astatus j =>
      q ← s.(v_ops) !! i;
      guard (d0.(d_len) = 16 /\ d0.(d_flags) = VRING_DESC_F_NEXT /\ d1.(d_len) = BSIZE
             /\ d2.(d_len) = 1 /\ d2.(d_flags) = VRING_DESC_F_WRITE) ;;
      if decide (q.(q_type) = VIRTIO_BLK_T_OUT /\ d1.(d_flags) = VRING_DESC_F_NEXT) then Some (b, true, q.(q_sector), j)
      else if decide (q.(q_type) = VIRTIO_BLK_T_IN /\ d1.(d_flags) = Z.lor VRING_DESC_F_WRITE VRING_DESC_F_NEXT)
      then Some (b, false, q.(q_sector), j)
      else None
  | _, _, _ => None
  end.

Definition set_bdata (d : list Z) (b : vbuf) : vbuf := mkvbuf b.(vb_blockno) d b.(vb_disk).

(** The transfer of one block. *)
Definition dma (b : nat) (write : bool) (sector : Z) (s : vdisk) : vdisk :=
  if write then set_image (fun x => if x =? sector then default [] (vb_data <$> s.(v_bufs) !! b) else s.(v_image) x) s
  else set_vbufs (alter (set_bdata (s.(v_image) sector)) b s.(v_bufs)) s.

(** The zero status and the used element. *)
Definition complete (h j : nat) (s : vdisk) : vdisk :=
  set_used (<[Z.to_nat (s.(v_used_dev) mod Z.of_nat NUM) := h]> s.(v_used)) (u16 (s.(v_used_dev) + 1))
    (set_info (alter (fun x => mkinfo x.(i_b) 0) j s.(v_info)) s).

Inductive label := Lstart (b : nat) (w : bool) | Ltau | Lio (b : nat) (w : bool) | Lret (b : nat) (w : bool) | Lwild | Lpanic.

(** The device's position in the available ring and the heads it has fetched. *)
Record vdev := mkdev { dv_seen : Z; dv_todo : list nat }.

Inductive dev_step : label -> vdisk * vdev -> vdisk * vdev -> Prop :=
  | dev_fetch s seen todo h :
      seen <> s.(v_avail_idx) -> s.(v_avail) !! Z.to_nat (seen mod Z.of_nat NUM) = Some h ->
      dev_step Ltau (s, mkdev seen todo) (s, mkdev (u16 (seen + 1)) (h :: todo))
  | dev_serve s seen t1 h t2 b w sector j :
      chain_of s h = Some (b, w, sector, j) ->
      dev_step (Lio b w) (s, mkdev seen (t1 ++ h :: t2)) (complete h j (dma b w sector s), mkdev seen (t1 ++ t2))
  | dev_wild s seen t1 h t2 sd :
      chain_of s h = None -> dev_step Lwild (s, mkdev seen (t1 ++ h :: t2)) sd.

(** ** The system *)

(** The threads in virtio_disk_rw: the buffer, the direction and what is left to run. *)
Definition thread : Type := nat * bool * M vdisk unit.
Record vsys := mksys { sy_disk : vdisk; sy_dev : vdev; sy_pool : list thread }.

Definition owned (pool : list thread) : list nat := (fun t => t.1.1) <$> pool.

Section system.
Context `{I : Mmio} (device : label -> vdisk * vdev -> vdisk * vdev -> Prop) (fuel : nat).

(** A caller holds the lock of its buffer, so two threads never have the same one. *)
Inductive sys_step : label -> vsys -> vsys -> Prop :=
  | step_start s d pool b w :
      (b < length s.(v_bufs))%nat -> b ∉ owned pool ->
      sys_step (Lstart b w) (mksys s d pool) (mksys s d ((b, w, virtio_disk_rw fuel b w) :: pool))
  | step_sleep s d p1 b w k p2 s' k' :
      k s = Swtch s' k' ->
      sys_step Ltau (mksys s d (p1 ++ (b, w, k) :: p2)) (mksys s' d (p1 ++ (b, w, k') :: p2))
  | step_return s d p1 b w k p2 s' :
      k s = Ok tt s' ->
      sys_step (Lret b w) (mksys s d (p1 ++ (b, w, k) :: p2)) (mksys s' d (p1 ++ p2))
  | step_panic s d pool b w k msg y :
      (b, w, k) ∈ pool -> k s = Panic msg -> sys_step Lpanic (mksys s d pool) y
  | step_intr s d pool s' :
      virtio_disk_intr s = Ok tt s' -> sys_step Ltau (mksys s d pool) (mksys s' d pool)
  | step_intr_panic s d pool y :
      (forall s', virtio_disk_intr s <> Ok tt s') -> sys_step Lpanic (mksys s d pool) y
  | step_device l s d pool s' d' :
      device l (s, d) (s', d') -> sys_step l (mksys s d pool) (mksys s' d' pool).

Inductive sys_run : list label -> vsys -> vsys -> Prop :=
  | run_nil y : sys_run [] y y
  | run_snoc tr l y y' y'' : sys_run tr y y' -> sys_step l y' y'' -> sys_run (tr ++ [l]) y y''.
End system.

(** ** The disk a caller sees *)

(** The blocks of the disk, the blocks in the buffers and the calls in progress, with
    their direction and whether the transfer has happened. *)
Record dspec := mkdspec { sp_image : Z -> list Z; sp_data : list (list Z); sp_calls : gmap nat (bool * bool) }.

Definition sector_of (blocks : list Z) (b : nat) : Z := u32 (blocks !!! b * (BSIZE / 512)).

Inductive disk_step (blocks : list Z) : label -> dspec -> dspec -> Prop :=
  | disk_start m data c b w :
      c !! b = None -> disk_step blocks (Lstart b w) (mkdspec m data c) (mkdspec m data (<[b := (w, false)]> c))
  | disk_tau y : disk_step blocks Ltau y y
  | disk_write m data c b x :
      c !! b = Some (true, false) -> data !! b = Some x ->
      disk_step blocks (Lio b true) (mkdspec m data c)
        (mkdspec (fun n => if n =? sector_of blocks b then x else m n) data (<[b := (true, true)]> c))
  | disk_read m data c b :
      c !! b = Some (false, false) ->
      disk_step blocks (Lio b false) (mkdspec m data c)
        (mkdspec m (<[b := m (sector_of blocks b)]> data) (<[b := (false, true)]> c))
  | disk_return m data c b w :
      c !! b = Some (w, true) -> disk_step blocks (Lret b w) (mkdspec m data c) (mkdspec m data (delete b c)).

Inductive disk_run (blocks : list Z) : list label -> dspec -> dspec -> Prop :=
  | disk_nil y : disk_run blocks [] y y
  | disk_snoc tr l y y' y'' : disk_run blocks tr y y' -> disk_step blocks l y' y'' -> disk_run blocks (tr ++ [l]) y y''.
