(* ===== verification/VirtioInv.v ===== *)
(** * What holds of the driver's data between transitions

    A request holds three descriptors from alloc3_desc to free_chain and is in one of
    four stages: in the available ring, fetched by the device, in the used ring, seen by
    the interrupt handler.  [core] is about the descriptors, [rings] about the stages;
    each operation of the driver and of the device has a lemma that says how it moves
    them. *)

From Stdlib Require Import ZArith Lia.
From stdpp Require Import base numbers list strings gmap relations.
From S2P Require Import Prelude Types Mem Layout Kalloc State Virtio VirtioSpec.
Open Scope Z_scope.

Record req := mkr { r_b : nat; r_w : bool; r_0 : nat; r_1 : nat; r_2 : nat }.
#[global] Instance req_eq : EqDecision req.
Proof. solve_decision. Defined.
Definition idxs (r : req) : list nat := [r_0 r; r_1 r; r_2 r].

(** The descriptors and the header of a request, as submitted. *)
Definition formatted (s : vdisk) (r : req) : Prop :=
  s.(v_desc) !! r_0 r = Some (mkdesc (Aops (r_0 r)) 16 VRING_DESC_F_NEXT (r_1 r)) /\
  s.(v_desc) !! r_1 r = Some (mkdesc (Adata (r_b r)) BSIZE (Z.lor (if r_w r then 0 else VRING_DESC_F_WRITE) VRING_DESC_F_NEXT) (r_2 r)) /\
  s.(v_desc) !! r_2 r = Some (mkdesc (Astatus (r_0 r)) 1 VRING_DESC_F_WRITE 0) /\
  s.(v_ops) !! r_0 r = Some (mkreq (if r_w r then VIRTIO_BLK_T_OUT else VIRTIO_BLK_T_IN) 0 (sector_of (vb_blockno <$> s.(v_bufs)) (r_b r))) /\
  i_b <$> s.(v_info) !! r_0 r = Some (Some (r_b r)) /\
  (r_b r < length s.(v_bufs))%nat.

Record core (s : vdisk) (rs : list req) : Prop := {
  c_desc : length s.(v_desc) = NUM;
  c_info : length s.(v_info) = NUM;
  c_ops : length s.(v_ops) = NUM;
  c_free : length s.(v_free) = NUM;
  c_nodup : NoDup (rs ≫= idxs);
  c_bound : forall i, i ∈ rs ≫= idxs -> (i < NUM)%nat;
  c_flags : forall i, (i < NUM)%nat -> s.(v_free) !! i = Some (bool_decide (i ∉ rs ≫= idxs));
  c_bufs : NoDup (r_b <$> rs);
  c_fmt : forall r, r ∈ rs -> formatted s r
}.

(** [l] is in the ring from the position [from] on. *)
Definition ring_ok (ring : list nat) (from : Z) (l : list nat) : Prop :=
  forall k i, l !! k = Some i -> ring !! Z.to_nat ((from + Z.of_nat k) mod Z.of_nat NUM) = Some i.

Record rings (s : vdisk) (d : vdev) (A T U D : list req) : Prop := {
  g_avail_len : length s.(v_avail) = NUM;
  g_used_len : length s.(v_used) = NUM;
  g_seen : 0 <= dv_seen d < 2 ^ 16;
  g_avail_idx : s.(v_avail_idx) = u16 (dv_seen d + Z.of_nat (length A));
  g_avail : ring_ok s.(v_avail) (dv_seen d) (r_0 <$> A);
  g_todo : dv_todo d = r_0 <$> T;
  g_used_idx : 0 <= s.(v_used_idx) < 2 ^ 16;
  g_used_dev : s.(v_used_dev) = u16 (s.(v_used_idx) + Z.of_nat (length U));
  g_used : ring_ok s.(v_used) s.(v_used_idx) (r_0 <$> U);
  g_status : forall r, r ∈ U -> i_status <$> s.(v_info) !! r_0 r = Some 0;
  g_busy : forall r, r ∈ A ++ T ++ U -> vb_disk <$> s.(v_bufs) !! r_b r = Some 1;
  g_done : forall r, r ∈ D -> vb_disk <$> s.(v_bufs) !! r_b r = Some 0
}.

(** ** Lists and rings *)

Lemma fmap_alter {A B} (g : A -> B) (f : A -> A) i (l : list A) j :
  (forall x, g (f x) = g x) -> g <$> alter f i l !! j = g <$> l !! j.
Proof.
  intros H. destruct (decide (i = j)) as [->|Hn].
  - rewrite list_lookup_alter_eq. destruct (l !! j); simpl; by rewrite ?H.
  - by rewrite list_lookup_alter_ne.
Qed.

Lemma list_fmap_alter_same {A B} (g : A -> B) (f : A -> A) i (l : list A) :
  (forall x, g (f x) = g x) -> g <$> alter f i l = g <$> l.
Proof.
  intros H. apply list_eq. intros j. rewrite !list_lookup_fmap. by apply fmap_alter.
Qed.

Lemma u16_NUM x : u16 x mod Z.of_nat NUM = x mod Z.of_nat NUM.
Proof.
  unfold u16. apply Z.mod_mod_divide. exists (2 ^ 13). reflexivity.
Qed.

Lemma ring_slot x : (Z.to_nat (x mod Z.of_nat NUM) < NUM)%nat.
Proof. pose proof (Z.mod_pos_bound x (Z.of_nat NUM)). unfold NUM in *. lia. Qed.

Lemma ring_push ring from l i :
  length ring = NUM -> (length l < NUM)%nat -> ring_ok ring from l ->
  ring_ok (<[Z.to_nat (u16 (from + Z.of_nat (length l)) mod Z.of_nat NUM) := i]> ring) from (l ++ [i]).
Proof.
  intros Hlen Hl H k j Hk. rewrite u16_NUM. apply lookup_app_Some in Hk as [Hk|[Hge Hk]].
  - rewrite list_lookup_insert_ne; [by apply H|]. apply lookup_lt_Some in Hk.
    intros E. apply Z2Nat.inj in E; [|apply Z.mod_pos_bound; unfold NUM; lia..].
    assert ((Z.of_nat (length l) - Z.of_nat k) mod Z.of_nat NUM = 0) as Hz.
    { replace (Z.of_nat (length l) - Z.of_nat k) with ((from + Z.of_nat (length l)) - (from + Z.of_nat k)) by lia.
      rewrite Zminus_mod, E, Z.sub_diag. reflexivity. }
    rewrite Z.mod_small in Hz; unfold NUM in *; lia.
  - apply list_lookup_singleton_Some in Hk as [Hk ->].
    replace k with (length l) by lia. apply list_lookup_insert_eq. rewrite Hlen. apply ring_slot.
Qed.

Lemma ring_pop ring from i l :
  ring_ok ring from (i :: l) ->
  ring !! Z.to_nat (from mod Z.of_nat NUM) = Some i /\ ring_ok ring (u16 (from + 1)) l.
Proof.
  intros H. split.
  - specialize (H O i eq_refl). by rewrite Z.add_0_r in H.
  - intros k j Hk. specialize (H (S k) j Hk).
    assert ((u16 (from + 1) + Z.of_nat k) mod Z.of_nat NUM = (from + Z.of_nat (S k)) mod Z.of_nat NUM) as ->; [|done].
    rewrite Zplus_mod, u16_NUM, <- Zplus_mod. f_equal. lia.
Qed.

(** Three descriptors each: at most two requests at a time. *)
Lemma core_few s rs : core s rs -> (length rs <= 2)%nat.
Proof.
  intros H. assert (length (rs ≫= idxs) = 3 * length rs)%nat as E.
  { clear. induction rs as [|r rs IH]; [done|]. rewrite bind_cons, length_app, IH. cbn [length idxs]. lia. }
  assert (length (rs ≫= idxs) <= length (seq 0 NUM))%nat as Hle.
  { apply submseteq_length, NoDup_submseteq; [apply H|]. intros i Hi. apply elem_of_seq.
    apply (c_bound _ _ H) in Hi. lia. }
  rewrite length_seq in Hle. unfold NUM in *. lia.
Qed.

#[global] Instance core_proper s : Proper ((≡ₚ) ==> iff) (core s).
Proof.
  enough (forall rs rs', rs ≡ₚ rs' -> core s rs -> core s rs') as H by (intros ???; split; apply H; [done|by symmetry]).
  intros rs rs' E []. assert (rs ≫= idxs ≡ₚ rs' ≫= idxs) as Ei by (by apply bind_Permutation).
  assert (r_b <$> rs ≡ₚ r_b <$> rs') as Eb by (by apply fmap_Permutation).
  split; try done.
  - by rewrite <- Ei.
  - intros i. rewrite <- Ei. auto.
  - intros i Hi. rewrite c_flags0 by done. f_equal. apply bool_decide_ext. by rewrite Ei.
  - by rewrite <- Eb.
  - intros r. rewrite <- E. auto.
Qed.

(** What [core] depends on. *)
Lemma core_ext s s' rs :
  s'.(v_desc) = s.(v_desc) -> s'.(v_ops) = s.(v_ops) -> s'.(v_free) = s.(v_free) ->
  i_b <$> s'.(v_info) = i_b <$> s.(v_info) -> vb_blockno <$> s'.(v_bufs) = vb_blockno <$> s.(v_bufs) ->
  core s rs -> core s' rs.
Proof.
  intros E1 E2 E3 E4 E5 []. pose proof (f_equal length E4) as L4. pose proof (f_equal length E5) as L5.
  rewrite !length_fmap in L4. rewrite !length_fmap in L5.
  split; rewrite ?E1, ?E2, ?E3; try done; [congruence|].
  intros r Hr. destruct (c_fmt0 r Hr) as (F1 & F2 & F3 & F4 & F5 & F6).
  unfold formatted. rewrite E1, E2, E5, L5. repeat (split; [done|]). split; [|done].
  by rewrite <- list_lookup_fmap, E4, list_lookup_fmap.
Qed.

(** ** Descriptors *)

Lemma first_free_Some l i : first_free l = Some i -> l !! i = Some true.
Proof.
  revert i. induction l as [|[] l IH]; intros i; simpl; [done|by intros [= <-]|].
  destruct (first_free l); simpl; [|done]. intros [= <-]. by apply IH.
Qed.

Lemma alloc_desc_cases s :
  (alloc_desc s = Ok None s) \/
  exists i, s.(v_free) !! i = Some true /\ alloc_desc s = Ok (Some i) (set_vfree (<[i := false]> s.(v_free)) s).
Proof.
  unfold alloc_desc. mstep. destruct (first_free (v_free s)) as [i|] eqn:E; [right|by left].
  exists i. split; [by apply first_free_Some|done].
Qed.

Definition released (i : nat) (s : vdisk) : vdisk :=
  set_vfree (<[i := true]> s.(v_free)) (set_vdesc (<[i := mkdesc Anull 0 0 0]> s.(v_desc)) s).

Lemma free_desc_ok s i : (i < NUM)%nat -> s.(v_free) !! i = Some false -> free_desc i s = Ok tt (released i s).
Proof.
  intros Hi Hf. unfold free_desc. destruct (Nat.leb_spec NUM i); [lia|].
  unfold at_. rewrite (bind_ok _ _ _ false s) by (mstep; by rewrite Hf). done.
Qed.

Lemma core_set_desc s rs i d : core s rs -> i ∉ rs ≫= idxs -> core (set_vdesc (<[i := d]> s.(v_desc)) s) rs.
Proof.
  intros [] Hi. split; simpl; try done; [by rewrite length_insert|].
  intros r Hr. destruct (c_fmt0 r Hr) as (F1 & F2 & F3 & F4 & F5 & F6).
  assert (forall x, x ∈ idxs r -> i <> x) as Hne.
  { intros x Hx ->. apply Hi, list_elem_of_bind. eauto. }
  unfold formatted. simpl. rewrite !list_lookup_insert_ne by (apply Hne; unfold idxs; rewrite !elem_of_cons; tauto). done.
Qed.

Definition took (i0 i1 i2 : nat) (s : vdisk) : vdisk :=
  set_vfree (<[i2 := false]> (<[i1 := false]> (<[i0 := false]> s.(v_free)))) s.

(** Three new descriptors, or the flags as they were. *)
Lemma alloc3_cases s rs : core s rs ->
  (exists i0 i1 i2, alloc3_desc s = Ok (Some (i0, i1, i2)) (took i0 i1 i2 s) /\ NoDup ([i0; i1; i2] ++ (rs ≫= idxs))
     /\ (i0 < NUM)%nat /\ (i1 < NUM)%nat /\ (i2 < NUM)%nat)
  \/ (exists ds, alloc3_desc s = Ok None (set_vdesc ds s) /\ core (set_vdesc ds s) rs).
Proof.
  intros H. assert (forall i, s.(v_free) !! i = Some true -> (i < NUM)%nat /\ i ∉ rs ≫= idxs) as Hfree.
  { intros i Hi. pose proof (lookup_lt_Some _ _ _ Hi) as Hl. rewrite (c_free _ _ H) in Hl. split; [done|].
    rewrite (c_flags _ _ H) in Hi by done. injection Hi as Hi. by apply bool_decide_eq_true in Hi. }
  unfold alloc3_desc.
  destruct (alloc_desc_cases s) as [E|(i0 & F0 & E)]; rewrite (bind_ok _ _ _ _ _ E); clear E.
  { right. exists s.(v_desc). assert (set_vdesc (v_desc s) s = s) as -> by (by destruct s). done. }
  destruct (Hfree i0 F0) as [L0 N0].
  destruct (alloc_desc_cases (set_vfree (<[i0 := false]> (v_free s)) s)) as [E|(i1 & F1 & E)]; rewrite (bind_ok _ _ _ _ _ E); clear E.
  { right. exists (<[i0 := mkdesc Anull 0 0 0]> s.(v_desc)). split; [|by apply core_set_desc].
    rewrite (bind_ok _ _ _ tt (released i0 (set_vfree (<[i0 := false]> (v_free s)) s))).
    2: { apply free_desc_ok; [done|]. apply list_lookup_insert_eq. by rewrite (c_free _ _ H). }
    unfold released, set_vfree, set_vdesc. simpl. by rewrite list_insert_insert_eq, (list_insert_id (v_free s)). }
  simpl in F1. apply list_lookup_insert_Some in F1 as [(_ & ? & _)|(N01 & F1)]; [done|].
  destruct (Hfree i1 F1) as [L1 N1].
  set (s2 := set_vfree _ _). destruct (alloc_desc_cases s2) as [E|(i2 & F2 & E)]; rewrite (bind_ok _ _ _ _ _ E); clear E.
  { right. exists (<[i1 := mkdesc Anull 0 0 0]> (<[i0 := mkdesc Anull 0 0 0]> s.(v_desc))).
    split; [|exact (core_set_desc _ _ i1 _ (core_set_desc _ _ i0 _ H N0) N1)].
    rewrite (bind_ok _ _ _ tt (released i0 s2)).
    2: { apply free_desc_ok; [done|]. subst s2. simpl. rewrite list_lookup_insert_ne by done.
         apply list_lookup_insert_eq. by rewrite (c_free _ _ H). }
    rewrite (bind_ok _ _ _ tt (released i1 (released i0 s2))).
    2: { apply free_desc_ok; [done|]. subst s2. simpl. rewrite list_lookup_insert_ne by done.
         apply list_lookup_insert_eq. by rewrite length_insert, (c_free _ _ H). }
    subst s2. unfold released, set_vfree, set_vdesc. simpl.
    rewrite (list_insert_insert_ne _ i0 i1 true false), list_insert_insert_eq, list_insert_insert_eq by done.
    rewrite (list_insert_id (v_free s) i0), (list_insert_id (v_free s) i1) by done. done. }
  subst s2. simpl in F2. apply list_lookup_insert_Some in F2 as [(_ & ? & _)|(N12 & F2)]; [done|].
  apply list_lookup_insert_Some in F2 as [(_ & ? & _)|(N02 & F2)]; [done|].
  destruct (Hfree i2 F2) as [L2 N2].
  left. exists i0, i1, i2. split; [done|]. split; [|done].
  simpl. rewrite !NoDup_cons, !elem_of_cons. split; [naive_solver|]. split; [naive_solver|]. split; [done|]. apply H.
Qed.

(** ** A request is submitted *)

Definition header (w : bool) (sector : Z) : vreq := mkreq (if w then VIRTIO_BLK_T_OUT else VIRTIO_BLK_T_IN) 0 sector.
Definition data_desc (b : nat) (w : bool) (i2 : nat) : vdesc :=
  mkdesc (Adata b) BSIZE (Z.lor (if w then 0 else VRING_DESC_F_WRITE) VRING_DESC_F_NEXT) i2.

Definition submitted (r : req) (sector : Z) (s : vdisk) : vdisk :=
  mkvdisk
    (<[r_2 r := mkdesc (Astatus (r_0 r)) 1 VRING_DESC_F_WRITE 0]> (<[r_1 r := data_desc (r_b r) (r_w r) (r_2 r)]>
      (<[r_0 r := mkdesc (Aops (r_0 r)) 16 VRING_DESC_F_NEXT (r_1 r)]> s.(v_desc))))
    (<[Z.to_nat (s.(v_avail_idx) mod Z.of_nat NUM) := r_0 r]> s.(v_avail)) (u16 (s.(v_avail_idx) + 1))
    s.(v_used) s.(v_used_dev) s.(v_free) s.(v_used_idx)
    (alter (fun x => mkinfo (Some (r_b r)) x.(i_status)) (r_0 r) (alter (fun x => mkinfo x.(i_b) 0xff) (r_0 r) s.(v_info)))
    (<[r_0 r := header (r_w r) sector]> s.(v_ops))
    (alter (set_bdisk 1) (r_b r) s.(v_bufs)) s.(v_image) ((R VIRTIO_MMIO_QUEUE_NOTIFY, u32 0) :: s.(v_log)).

Lemma submit_run b w sector i0 i1 i2 s :
  submit b w sector (i0, i1, i2) s = Ok tt (submitted (mkr b w i0 i1 i2) sector s).
Proof. reflexivity. Qed.

(** What a caller of the disk sees. *)
Definition same_view (s s' : vdisk) : Prop :=
  s'.(v_image) = s.(v_image) /\ vb_data <$> s'.(v_bufs) = vb_data <$> s.(v_bufs) /\
  vb_blockno <$> s'.(v_bufs) = vb_blockno <$> s.(v_bufs).

#[global] Instance same_view_trans : Transitive same_view.
Proof. intros x y z (? & ? & ?) (? & ? & ?). split; [congruence|]. split; congruence. Qed.

Lemma set_bdisk_view x b s : same_view s (set_vbufs (alter (set_bdisk x) b s.(v_bufs)) s).
Proof. split; [done|]. split; by apply list_fmap_alter_same. Qed.

Section submit.
Context (s : vdisk) (rs : list req) (r : req) (sector : Z).
Context (H : core s rs) (Hnd : NoDup (idxs r ++ (rs ≫= idxs))) (Hlt : forall i, i ∈ idxs r -> (i < NUM)%nat).
Context (Hb : (r_b r < length s.(v_bufs))%nat) (Hnb : r_b r ∉ r_b <$> rs).
Context (Hs : sector = sector_of (vb_blockno <$> s.(v_bufs)) (r_b r)).

Let s' := submitted r sector (took (r_0 r) (r_1 r) (r_2 r) s).

Lemma submit_new : formatted s' r.
Proof using All.
  assert ((r_0 r < NUM)%nat /\ (r_1 r < NUM)%nat /\ (r_2 r < NUM)%nat) as (L0 & L1 & L2).
  { split; [|split]; apply Hlt; unfold idxs; rewrite !elem_of_cons; tauto. }
  pose proof Hnd as Hnd'. apply NoDup_app in Hnd' as (Hnd' & _ & _). unfold idxs in Hnd'.
  rewrite !NoDup_cons, !elem_of_cons in Hnd'. destruct Hnd' as (N0 & N1 & _).
  assert (r_1 r <> r_0 r /\ r_2 r <> r_0 r /\ r_2 r <> r_1 r) as (N10 & N20 & N21).
  { split; [|split]; intros E; rewrite E in *; tauto. }
  unfold formatted. simpl. rewrite (list_fmap_alter_same vb_blockno) by done. rewrite !length_alter.
  split; [|split; [|split; [|split; [|split; [|done]]]]].
  - rewrite !list_lookup_insert_ne by done. apply list_lookup_insert_eq. by rewrite (c_desc _ _ H).
  - rewrite list_lookup_insert_ne by done. apply list_lookup_insert_eq. by rewrite length_insert, (c_desc _ _ H).
  - apply list_lookup_insert_eq. by rewrite !length_insert, (c_desc _ _ H).
  - rewrite <- Hs. apply list_lookup_insert_eq. by rewrite (c_ops _ _ H).
  - rewrite !list_lookup_alter_eq. destruct (lookup_lt_is_Some_2 (v_info s) (r_0 r)) as [x ->]; [by rewrite (c_info _ _ H)|]. done.
Qed.

Lemma submit_old r' : r' ∈ rs -> formatted s' r'.
Proof using H Hnd.
  intros Hr'. destruct (c_fmt _ _ H r' Hr') as (F1 & F2 & F3 & F4 & F5 & F6).
  assert (forall x y, x ∈ idxs r' -> y ∈ idxs r -> y <> x) as Hne.
  { intros x y Hx Hy ->. apply NoDup_app in Hnd as (_ & Hd & _). apply (Hd x Hy), list_elem_of_bind. eauto. }
  assert (forall x, x ∈ idxs r' -> r_0 r <> x /\ r_1 r <> x /\ r_2 r <> x) as Hne'.
  { intros x Hx. split; [|split]; apply Hne; try done; unfold idxs; rewrite !elem_of_cons; tauto. }
  destruct (Hne' (r_0 r')) as (? & ? & ?); [unfold idxs; rewrite !elem_of_cons; tauto|].
  destruct (Hne' (r_1 r')) as (? & ? & ?); [unfold idxs; rewrite !elem_of_cons; tauto|].
  destruct (Hne' (r_2 r')) as (? & ? & ?); [unfold idxs; rewrite !elem_of_cons; tauto|].
  unfold formatted. simpl. rewrite (list_fmap_alter_same vb_blockno) by done.
  rewrite !list_lookup_alter_ne, !length_alter, !list_lookup_insert_ne by done. done.
Qed.

Lemma submit_core : core s' (r :: rs).
Proof using All.
  split; try (simpl; rewrite ?length_insert, ?length_alter; apply H).
  - rewrite bind_cons. exact Hnd.
  - rewrite bind_cons. intros i [Hi|Hi]%elem_of_app; [by apply Hlt|by apply (c_bound _ _ H)].
  - intros i Hi. rewrite bind_cons.
    change (v_free s') with (<[r_2 r := false]> (<[r_1 r := false]> (<[r_0 r := false]> s.(v_free)))).
    destruct (decide (i ∈ idxs r)) as [Hin|Hn].
    + rewrite bool_decide_eq_false_2 by (rewrite elem_of_app; tauto).
      unfold idxs in Hin. rewrite !elem_of_cons in Hin.
      rewrite !list_lookup_insert, !length_insert, (c_free _ _ H).
      repeat case_decide; try done. exfalso.
      destruct Hin as [Hin|[Hin|[Hin|[]%elem_of_nil]]]; lia.
    + unfold idxs in Hn. rewrite !elem_of_cons in Hn. rewrite !list_lookup_insert_ne by naive_solver.
      rewrite (c_flags _ _ H) by done. f_equal. apply bool_decide_ext. rewrite elem_of_app. unfold idxs. rewrite !elem_of_cons. tauto.
  - apply NoDup_cons. split; [done|apply H].
  - intros r' [->|Hr']%elem_of_cons; [apply submit_new|by apply submit_old].
Qed.
End submit.

Lemma submit_rings s d A T U D r sector :
  core s (A ++ T ++ U ++ D) -> rings s d A T U D -> r_b r ∉ r_b <$> A ++ T ++ U ++ D -> (r_b r < length s.(v_bufs))%nat ->
  (forall r', r' ∈ A ++ T ++ U ++ D -> r_0 r <> r_0 r') ->
  rings (submitted r sector (took (r_0 r) (r_1 r) (r_2 r) s)) d (A ++ [r]) T U D.
Proof.
  intros H [] Hnb Hb Hne. pose proof (core_few _ _ H) as Hfew. rewrite !length_app in Hfew.
  assert (forall r', r' ∈ A ++ T ++ U ++ D -> alter (set_bdisk 1) (r_b r) (v_bufs s) !! r_b r' = v_bufs s !! r_b r') as Hbuf.
  { intros r' Hr'. apply list_lookup_alter_ne. intros E. apply Hnb. rewrite E. by apply list_elem_of_fmap_2. }
  split; simpl; try done.
  - by rewrite length_insert.
  - rewrite g_avail_idx0, length_app. unfold u16. rewrite Zplus_mod_idemp_l. f_equal. simpl. lia.
  - rewrite g_avail_idx0, fmap_app, <- (length_fmap r_0 A). apply ring_push; [done| |done].
    rewrite length_fmap. unfold NUM. lia.
  - intros r' Hr'. rewrite !list_lookup_alter_ne; [by apply g_status0|apply Hne; rewrite !elem_of_app; tauto..].
  - intros r' Hr'. rewrite <- app_assoc, !elem_of_app, list_elem_of_singleton in Hr'.
    destruct (decide (r' = r)) as [->|Hn].
    + rewrite list_lookup_alter_eq. destruct (lookup_lt_is_Some_2 _ _ Hb) as [x ->]. done.
    + rewrite Hbuf by (rewrite !elem_of_app; tauto). apply g_busy0. rewrite !elem_of_app. tauto.
  - intros r' Hr'. rewrite Hbuf by (rewrite !elem_of_app; tauto). by apply g_done0.
Qed.
