(* ===== verification/VirtioOps.v ===== *)
(** * The steps of the driver and of the device on the invariant *)

From Stdlib Require Import ZArith Lia.
From stdpp Require Import base numbers list strings gmap relations.
From S2P Require Import Prelude Types Mem Layout Kalloc State Virtio VirtioSpec VirtioInv.
Open Scope Z_scope.

(** ** A request is finished *)

Definition finished (r : req) (s : vdisk) : vdisk :=
  released (r_2 r) (released (r_1 r) (released (r_0 r)
    (set_info (alter (fun x => mkinfo None x.(i_status)) (r_0 r) s.(v_info)) s))).

Lemma free_chain_next f i d s :
  s.(v_desc) !! i = Some d -> (i < NUM)%nat -> s.(v_free) !! i = Some false ->
  free_chain f i s =
    if negb (Z.land d.(d_flags) VRING_DESC_F_NEXT =? 0) then
      match f with O => NoFuel | S f' => free_chain f' d.(d_next) (released i s) end
    else Ok tt (released i s).
Proof.
  intros Hd Hi Hf. destruct f; cbn [free_chain]; unfold at_.
  all: rewrite (bind_ok _ _ _ d s) by (mstep; by rewrite Hd).
  all: rewrite (bind_ok _ _ _ _ _ (free_desc_ok s i Hi Hf)).
  all: by destruct (negb _).
Qed.

Section finish.
Context (s : vdisk) (rs : list req) (r : req) (H : core s (r :: rs)).

Lemma held_bound i : i ∈ idxs r -> (i < NUM)%nat.
Proof using H. intros Hi. apply (c_bound _ _ H). rewrite bind_cons, elem_of_app. by left. Qed.

Lemma held_flag i : i ∈ idxs r -> s.(v_free) !! i = Some false.
Proof using H.
  intros Hi. rewrite (c_flags _ _ H) by (by apply held_bound).
  rewrite bool_decide_eq_false_2; [done|]. rewrite bind_cons, elem_of_app. tauto.
Qed.

Lemma held_distinct : r_0 r <> r_1 r /\ r_0 r <> r_2 r /\ r_1 r <> r_2 r.
Proof using H.
  pose proof (c_nodup _ _ H) as Hn. rewrite bind_cons in Hn. apply NoDup_app in Hn as (Hn & _ & _).
  unfold idxs in Hn. rewrite !NoDup_cons, !elem_of_cons in Hn. tauto.
Qed.

Lemma finish_run : finish (r_0 r) s = Ok tt (finished r s).
Proof using H.
  destruct (c_fmt _ _ H r) as (F0 & F1 & F2 & _); [by left|].
  destruct held_distinct as (N01 & N02 & N12).
  assert (r_0 r ∈ idxs r /\ r_1 r ∈ idxs r /\ r_2 r ∈ idxs r) as (I0 & I1 & I2)
    by (unfold idxs; rewrite !elem_of_cons; tauto).
  unfold finish, modinfo. mstep. set (s1 := set_info _ s).
  rewrite (free_chain_next _ _ _ s1 F0); [|by apply held_bound|by apply held_flag].
  replace (negb _) with true by done. cbn [NUM d_next].
  rewrite (free_chain_next _ _ (data_desc (r_b r) (r_w r) (r_2 r))); [|simpl; by rewrite list_lookup_insert_ne|by apply held_bound|
    simpl; rewrite list_lookup_insert_ne by done; by apply held_flag].
  cbn [d_flags data_desc].
  replace (negb _) with true by (by destruct (r_w r)). cbn [d_next].
  rewrite (free_chain_next _ _ (mkdesc (Astatus (r_0 r)) 1 VRING_DESC_F_WRITE 0)); [|simpl; by rewrite !list_lookup_insert_ne|by apply held_bound|
    simpl; rewrite !list_lookup_insert_ne by done; by apply held_flag].
  done.
Qed.

Lemma finish_core : core (finished r s) rs.
Proof using H.
  pose proof (c_nodup _ _ H) as Hn. rewrite bind_cons in Hn. apply NoDup_app in Hn as (_ & Hd & Hn).
  destruct held_distinct as (N01 & N02 & N12).
  split; try (simpl; rewrite ?length_insert, ?length_alter; apply H); try done.
  - intros i Hi. apply (c_bound _ _ H). rewrite bind_cons, elem_of_app. by right.
  - intros i Hi. change (v_free (finished r s)) with (<[r_2 r := true]> (<[r_1 r := true]> (<[r_0 r := true]> s.(v_free)))).
    destruct (decide (i ∈ idxs r)) as [Hin|Hni].
    + rewrite bool_decide_eq_true_2 by (by apply Hd). unfold idxs in Hin. rewrite !elem_of_cons in Hin.
      rewrite !list_lookup_insert, !length_insert, (c_free _ _ H).
      repeat case_decide; try done. exfalso. destruct Hin as [Hin|[Hin|[Hin|[]%elem_of_nil]]]; lia.
    + pose proof Hni as Hni'. unfold idxs in Hni'. rewrite !elem_of_cons in Hni'. rewrite !list_lookup_insert_ne by naive_solver.
      rewrite (c_flags _ _ H) by done. f_equal. apply bool_decide_ext. rewrite bind_cons, elem_of_app. tauto.
  - pose proof (c_bufs _ _ H) as Hb. cbn in Hb. by apply NoDup_cons in Hb as [_ ?].
  - intros r' Hr'. destruct (c_fmt _ _ H r') as (F1 & F2 & F3 & F4 & F5 & F6); [by right|].
    assert (forall x, x ∈ idxs r' -> r_0 r <> x /\ r_1 r <> x /\ r_2 r <> x) as Hne.
    { intros x Hx. split; [|split]; intros <-; (eapply Hd; [|apply list_elem_of_bind; exists r'; split; [done|exact Hr']]); unfold idxs; rewrite !elem_of_cons; tauto. }
    destruct (Hne (r_0 r')) as (? & ? & ?); [unfold idxs; rewrite !elem_of_cons; tauto|].
    destruct (Hne (r_1 r')) as (? & ? & ?); [unfold idxs; rewrite !elem_of_cons; tauto|].
    destruct (Hne (r_2 r')) as (? & ? & ?); [unfold idxs; rewrite !elem_of_cons; tauto|].
    unfold formatted. simpl. rewrite !list_lookup_insert_ne, list_lookup_alter_ne by done. done.
Qed.
End finish.

Lemma finish_rings s d A T U D1 D2 r : rings s d A T U (D1 ++ r :: D2) -> rings (finished r s) d A T U (D1 ++ D2).
Proof.
  intros []. split; try done; simpl.
  - intros r' Hr'. rewrite fmap_alter by done. by apply g_status.
  - intros r' Hr'. apply g_done. rewrite elem_of_app, elem_of_cons. rewrite elem_of_app in Hr'. tauto.
Qed.

(** ** The interrupt handler *)

Lemma u16_step x n : 0 <= x < 2 ^ 16 -> (0 < n <= 2)%nat -> u16 (x + Z.of_nat n) <> x.
Proof. intros Hx Hn E. unfold u16 in E. change (2 ^ 16) with 65536 in *. pose proof (Z.div_mod (x + Z.of_nat n) 65536). lia. Qed.

(** The handler takes the first request of the used ring. *)
Definition noticed (r : req) (s : vdisk) : vdisk :=
  set_used_idx (u16 (s.(v_used_idx) + 1)) (set_vbufs (alter (set_bdisk 0) (r_b r) s.(v_bufs)) s).

Lemma noticed_core s r rs : core s rs -> core (noticed r s) rs.
Proof. apply core_ext; try done. by apply list_fmap_alter_same. Qed.

Lemma noticed_rings s d A T U D r :
  core s (A ++ T ++ (r :: U) ++ D) -> rings s d A T (r :: U) D -> rings (noticed r s) d A T U (D ++ [r]).
Proof.
  intros H []. destruct (ring_pop _ _ _ _ g_used) as [_ Hpop].
  assert (forall r', r' ∈ A ++ T ++ U ++ D -> alter (set_bdisk 0) (r_b r) (v_bufs s) !! r_b r' = v_bufs s !! r_b r') as Hbuf.
  { intros r' Hr'. apply list_lookup_alter_ne. intros E. pose proof (c_bufs _ _ H) as Hn.
    assert (A ++ T ++ (r :: U) ++ D ≡ₚ r :: A ++ T ++ U ++ D) as Ep by (simpl; solve_Permutation).
    rewrite Ep in Hn. cbn in Hn. apply NoDup_cons in Hn as [Hn _]. apply Hn. rewrite E. by apply list_elem_of_fmap_2. }
  split; try done; simpl.
  - apply Z.mod_pos_bound. lia.
  - rewrite g_used_dev. unfold u16. rewrite Zplus_mod_idemp_l. f_equal. simpl. lia.
  - intros r' Hr'. apply g_status. by right.
  - intros r' Hr'. rewrite !elem_of_app in Hr'. rewrite Hbuf by (rewrite !elem_of_app; tauto). apply g_busy. rewrite !elem_of_app, elem_of_cons. tauto.
  - intros r' [Hr'| ->%list_elem_of_singleton]%elem_of_app.
    + rewrite Hbuf by (rewrite !elem_of_app; tauto). by apply g_done.
    + rewrite list_lookup_alter_eq. assert (vb_disk <$> v_bufs s !! r_b r = Some 1) as E.
      { apply g_busy. rewrite !elem_of_app, elem_of_cons. tauto. }
      by destruct (v_bufs s !! r_b r).
Qed.

Lemma intr_loop_ok f s d A T U D :
  (length U <= f)%nat -> core s (A ++ T ++ U ++ D) -> rings s d A T U D ->
  exists s', intr_loop f s = Ok tt s' /\ core s' (A ++ T ++ [] ++ (D ++ U)) /\ rings s' d A T [] (D ++ U) /\ same_view s s'.
Proof.
  revert s D f. induction U as [|r U IH]; intros s D f Hf H Hr.
  - exists s. rewrite app_nil_r. split; [|done].
    assert ((v_used_idx s =? v_used_dev s) = true) as E.
    { apply Z.eqb_eq. rewrite (g_used_dev _ _ _ _ _ _ Hr), Z.add_0_r. unfold u16. symmetry. apply Z.mod_small, Hr. }
    destruct f; cbn [intr_loop]; rewrite (bind_ok _ _ _ s s) by done; by rewrite E.
  - destruct f as [|f]; [simpl in Hf; lia|]. pose proof (core_few _ _ H) as Hfew. rewrite !length_app in Hfew. simpl in Hfew.
    destruct (ring_pop _ _ _ _ (g_used _ _ _ _ _ _ Hr)) as [Hpop _].
    assert (r ∈ A ++ T ++ (r :: U) ++ D) as Hin by (rewrite !elem_of_app, elem_of_cons; tauto).
    destruct (c_fmt _ _ H r Hin) as (_ & _ & _ & _ & F5 & _).
    assert (i_status <$> v_info s !! r_0 r = Some 0) as F6 by (apply Hr; by left).
    destruct (v_info s !! r_0 r) as [x|] eqn:Ei; [|done]. destruct x as [xb xs]. simpl in F5, F6.
    injection F5 as ->. injection F6 as ->.
    destruct (IH (noticed r s) (D ++ [r]) f) as (s' & E & Hc & Hg & Hv).
    { simpl in Hf. lia. }
    { apply (core_proper _ (A ++ T ++ (r :: U) ++ D)); [solve_Permutation|]. by apply noticed_core. }
    { by apply noticed_rings. }
    exists s'. rewrite <- app_assoc in Hc, Hg. split; [|split; [done|split; [done|]]].
    + cbn [intr_loop]. rewrite (bind_ok _ _ _ s s) by done.
      assert ((v_used_idx s =? v_used_dev s) = false) as ->.
      { apply Z.eqb_neq. rewrite (g_used_dev _ _ _ _ _ _ Hr). apply not_eq_sym, u16_step; [apply Hr|simpl; lia]. }
      cbn [negb]. unfold at_. rewrite (bind_ok _ _ _ (r_0 r) s) by (mstep; by rewrite Hpop).
      rewrite (bind_ok _ _ _ (mkinfo (Some (r_b r)) 0) s) by (mstep; by rewrite Ei). exact E.
    + etrans; [|exact Hv]. apply (set_bdisk_view 0 (r_b r) s).
Qed.

(** ** The device *)

Lemma fetch_rings s seen todo A T U D h :
  core s (A ++ T ++ U ++ D) -> rings s (mkdev seen todo) A T U D ->
  seen <> s.(v_avail_idx) -> s.(v_avail) !! Z.to_nat (seen mod Z.of_nat NUM) = Some h ->
  exists r A', A = r :: A' /\ rings s (mkdev (u16 (seen + 1)) (h :: todo)) A' (r :: T) U D.
Proof.
  intros H [] Hne Hh. simpl in *. destruct A as [|r A].
  { exfalso. apply Hne. rewrite g_avail_idx, Z.add_0_r. unfold u16. symmetry. by apply Z.mod_small. }
  exists r, A. split; [done|]. destruct (ring_pop _ _ _ _ g_avail) as [Hpop Hrest].
  rewrite Hpop in Hh. injection Hh as <-. split; simpl; try done.
  - apply Z.mod_pos_bound. lia.
  - rewrite g_avail_idx. unfold u16. rewrite Zplus_mod_idemp_l. f_equal. simpl. lia.
  - by rewrite g_todo.
  - intros r' Hr'. apply g_busy. simpl. rewrite !elem_of_app, !elem_of_cons in *. rewrite !elem_of_app in *. tauto.
Qed.

Lemma chain_of_formatted s r :
  formatted s r -> chain_of s (r_0 r) = Some (r_b r, r_w r, sector_of (vb_blockno <$> s.(v_bufs)) (r_b r), r_0 r).
Proof.
  intros (F0 & F1 & F2 & F3 & _). unfold chain_of. rewrite F0. cbn [mbind option_bind d_next]. rewrite F1. cbn [mbind option_bind d_next].
  rewrite F2. cbn [mbind option_bind d_addr]. rewrite F3. cbn [mbind option_bind].
  rewrite option_guard_True by done. cbn [mbind option_bind q_type d_flags q_sector].
  destruct (r_w r).
  - by rewrite decide_True.
  - rewrite decide_False by (intros [? _]; done). by rewrite decide_True.
Qed.

Lemma dma_blocks b w n s : vb_blockno <$> (dma b w n s).(v_bufs) = vb_blockno <$> s.(v_bufs).
Proof. destruct w; [done|]. by apply list_fmap_alter_same. Qed.
Lemma dma_busy b w n s i : vb_disk <$> (dma b w n s).(v_bufs) !! i = vb_disk <$> s.(v_bufs) !! i.
Proof. destruct w; [done|]. by apply fmap_alter. Qed.
Lemma dma_rest b w n s : let s' := dma b w n s in
  s'.(v_desc) = s.(v_desc) /\ s'.(v_avail) = s.(v_avail) /\ s'.(v_avail_idx) = s.(v_avail_idx) /\ s'.(v_used) = s.(v_used) /\
  s'.(v_used_dev) = s.(v_used_dev) /\ s'.(v_free) = s.(v_free) /\ s'.(v_used_idx) = s.(v_used_idx) /\ s'.(v_info) = s.(v_info) /\
  s'.(v_ops) = s.(v_ops).
Proof. by destruct w. Qed.

Lemma serve_core s b w n h j rs : core s rs -> core (complete h j (dma b w n s)) rs.
Proof.
  destruct (dma_rest b w n s) as (E1 & _ & _ & _ & _ & E6 & _ & E8 & E9).
  apply core_ext; simpl; try done; [|apply dma_blocks].
  rewrite E8. by apply list_fmap_alter_same.
Qed.

Lemma serve_rings s seen t A T1 T2 U D r b w n :
  core s (A ++ (T1 ++ r :: T2) ++ U ++ D) -> rings s (mkdev seen t) A (T1 ++ r :: T2) U D ->
  rings (complete (r_0 r) (r_0 r) (dma b w n s)) (mkdev seen (r_0 <$> T1 ++ T2)) A (T1 ++ T2) (U ++ [r]) D.
Proof.
  intros H []. simpl in *. pose proof (core_few _ _ H) as Hfew. rewrite !length_app in Hfew. simpl in Hfew.
  destruct (dma_rest b w n s) as (E1 & E2 & E3 & E4 & E5 & E6 & E7 & E8 & E9).
  split; simpl; rewrite ?E1, ?E2, ?E3, ?E4, ?E5, ?E6, ?E7, ?E8, ?E9; try done.
  - by rewrite length_insert.
  - rewrite g_used_dev, length_app. unfold u16. rewrite Zplus_mod_idemp_l. f_equal. simpl. lia.
  - rewrite g_used_dev, fmap_app, <- (length_fmap r_0 U). apply ring_push; [done| |done]. rewrite length_fmap. unfold NUM. lia.
  - intros r' Hr'. rewrite elem_of_app, list_elem_of_singleton in Hr'. destruct (decide (r_0 r = r_0 r')) as [E|Hn].
    + rewrite <- E, list_lookup_alter_eq. destruct (c_fmt _ _ H r) as (_ & _ & _ & _ & F & _).
      { rewrite !elem_of_app, elem_of_cons. tauto. }
      by destruct (v_info s !! r_0 r).
    + rewrite list_lookup_alter_ne by done. apply g_status. naive_solver.
  - intros r' Hr'. rewrite dma_busy. apply g_busy. rewrite !elem_of_app, list_elem_of_singleton in Hr'. rewrite !elem_of_app, elem_of_cons. tauto.
  - intros r' Hr'. rewrite dma_busy. by apply g_done.
Qed.
