(* ===== verification/VirtioRefine.v ===== *)
(** * Every run of the driver and its device is a run of a disk with atomic transfers *)

From Stdlib Require Import ZArith Lia.
From stdpp Require Import base numbers list strings gmap relations.
From S2P Require Import Prelude Types Mem Layout Kalloc State Virtio VirtioSpec VirtioInv VirtioOps.
Open Scope Z_scope.

(** ** What is left of a call *)

Section calls.
Context (fuel : nat).

(** After the first sleep for descriptors. *)
Definition rest_alloc (f b : nat) (w : bool) (sector : Z) : M vdisk unit :=
  idx ← alloc_wait f; submit b w sector idx ;; done_wait fuel b ;; finish idx.1.1.

(** After the request is submitted. *)
Definition rest_done (f b i0 : nat) : M vdisk unit := done_wait f b ;; finish i0.

Definition fresh (blocks : list Z) (b : nat) (w : bool) (k : M vdisk unit) : Prop :=
  (forall s, k s = virtio_disk_rw fuel b w s) \/
  (exists f, forall s, k s = rest_alloc f b w (sector_of blocks b) s) \/ (forall s, k s = NoFuel).

Definition held (r : req) (k : M vdisk unit) : Prop :=
  (exists f, forall s, k s = rest_done f (r_b r) (r_0 r) s) \/ (forall s, k s = NoFuel).

(** A thread that waits for its buffer sleeps while the device has it. *)
Lemma rest_done_busy f r s x :
  s.(v_bufs) !! r_b r = Some x -> x.(vb_disk) = 1 ->
  exists k, rest_done f (r_b r) (r_0 r) s = Swtch s k /\ held r k.
Proof using Type.
  intros Hx H1. unfold rest_done.
  assert (exists k0, done_wait f (r_b r) s = Swtch s k0 /\
    ((exists f', forall t, k0 t = done_wait f' (r_b r) t) \/ forall t, k0 t = NoFuel)) as (k0 & E & Hk).
  { destruct f as [|f]; cbn [done_wait]; unfold at_.
    all: rewrite (bind_ok _ _ _ x s) by (mstep; by rewrite Hx).
    all: rewrite H1; change (1 =? 1) with true; cbv match.
    all: rewrite (bind_swtch _ _ s s (fun t => Ok tt t)) by done.
    all: eexists; split; [reflexivity|]; simpl.
    - by right.
    - left. by exists f. }
  rewrite (bind_swtch _ _ _ _ _ E). eexists. split; [reflexivity|].
  destruct Hk as [[f' Hk]|Hk]; [left; exists f'|right]; intros t; by rewrite Hk.
Qed.

Lemma rest_done_finish f r s rs x :
  core s (r :: rs) -> s.(v_bufs) !! r_b r = Some x -> x.(vb_disk) = 0 ->
  rest_done f (r_b r) (r_0 r) s = Ok tt (finished r s).
Proof using Type.
  intros H Hx H0. unfold rest_done. rewrite (bind_ok _ _ _ tt s).
  - by apply (finish_run s rs).
  - destruct f; cbn [done_wait]; unfold at_; rewrite (bind_ok _ _ _ x s) by (mstep; by rewrite Hx); by rewrite H0.
Qed.

(** A call that has no descriptors yet submits its request and sleeps, or sleeps with
    everything as it was. *)
Lemma rest_alloc_step f b w s A T U D d :
  core s (A ++ T ++ U ++ D) -> rings s d A T U D -> (b < length s.(v_bufs))%nat -> b ∉ r_b <$> A ++ T ++ U ++ D ->
  let go := rest_alloc f b w (sector_of (vb_blockno <$> s.(v_bufs)) b) s in
  (exists r s' k, go = Swtch s' k /\ held r k /\ r_b r = b /\ r_w r = w /\ core s' (r :: A ++ T ++ U ++ D)
     /\ rings s' d (A ++ [r]) T U D /\ same_view s s') \/
  (exists ds k, go = Swtch (set_vdesc ds s) k /\ fresh (vb_blockno <$> s.(v_bufs)) b w k /\ core (set_vdesc ds s) (A ++ T ++ U ++ D)).
Proof using Type.
  intros H Hr Hb Hnb go. set (n := sector_of _ b) in go.
  destruct (alloc3_cases s _ H) as [(i0 & i1 & i2 & E & Hnd & L0 & L1 & L2)|(ds & E & Hc)].
  - left. set (r := mkr b w i0 i1 i2). set (s1 := submitted r n (took i0 i1 i2 s)).
    assert (exists x, s1.(v_bufs) !! b = Some x /\ x.(vb_disk) = 1) as (x & Hx & H1).
    { destruct (lookup_lt_is_Some_2 _ _ Hb) as [x Hx]. exists (set_bdisk 1 x). simpl. by rewrite list_lookup_alter_eq, Hx. }
    destruct (rest_done_busy fuel r s1 x Hx H1) as (k & Ek & Hk).
    exists r, s1, k. split; [|split; [done|split; [done|split; [done|split; [|split]]]]].
    + subst go. unfold rest_alloc. rewrite (bind_ok _ _ _ (i0, i1, i2) (took i0 i1 i2 s)).
      * rewrite (bind_ok _ _ _ _ _ (submit_run b w n i0 i1 i2 _)). exact Ek.
      * destruct f; cbn [alloc_wait]; by rewrite (bind_ok _ _ _ _ _ E).
    + apply (submit_core s _ r n H); try done.
      intros i. unfold idxs. rewrite !elem_of_cons, elem_of_nil. by intros [-> |[-> |[-> |[]]]].
    + apply (submit_rings s d A T U D r n H Hr Hnb Hb). intros r' Hr' E0.
      apply NoDup_app in Hnd as (_ & Hd & _). apply (Hd i0); [by left|]. apply list_elem_of_bind.
      exists r'. split; [|done]. change i0 with (r_0 r). rewrite E0. by left.
    + split; [done|]. split; by apply list_fmap_alter_same.
  - right. assert (exists k0, alloc_wait f s = Swtch (set_vdesc ds s) k0 /\
      ((exists f', forall t, k0 t = alloc_wait f' t) \/ forall t, k0 t = NoFuel)) as (k0 & E0 & Hk).
    { destruct f as [|f]; cbn [alloc_wait]; rewrite (bind_ok _ _ _ _ _ E).
      all: rewrite (bind_swtch _ _ _ (set_vdesc ds s) (fun t => Ok tt t)) by done.
      all: eexists; split; [reflexivity|]; simpl.
    - by right.
    - left. by exists f. }
    exists ds. subst go. unfold rest_alloc. rewrite (bind_swtch _ _ _ _ _ E0).
    eexists. split; [reflexivity|]. split; [|done]. right.
    destruct Hk as [[f' Hk]|Hk]; [left; exists f'|right]; intros t; by rewrite Hk.
Qed.

Lemma start_step b w s :
  (b < length s.(v_bufs))%nat -> virtio_disk_rw fuel b w s = rest_alloc fuel b w (sector_of (vb_blockno <$> s.(v_bufs)) b) s.
Proof using Type.
  intros Hb. destruct (lookup_lt_is_Some_2 _ _ Hb) as [x Hx]. unfold virtio_disk_rw, at_.
  rewrite (bind_ok _ _ _ x s) by (mstep; by rewrite Hx).
  unfold sector_of. rewrite (list_lookup_total_correct _ _ (vb_blockno x)); [done|]. by rewrite list_lookup_fmap, Hx.
Qed.
End calls.

(** ** Initialisation *)

(** The driver's data when the kernel starts, with the buffers and the disk. *)
Definition boot_disk (bufs : list vbuf) (image : Z -> list Z) : vdisk :=
  mkvdisk [] [] 0 [] 0 (replicate NUM false) 0 (replicate NUM (mkinfo None 0)) (replicate NUM (mkreq 0 0 0)) bufs image [].

(** The driver's data when all the descriptors are free. *)
Definition idle_disk (bufs : list vbuf) (image : Z -> list Z) (l : list (Z * Z)) : vdisk :=
  set_vlog l (set_vfree (replicate NUM true) (zero_queue (boot_disk bufs image))).

(** Code that only writes to the device's registers. *)
Definition logs {A} (c : M vdisk A) : Prop := forall s a s', c s = Ok a s' -> exists l, s' = set_vlog l s.

Lemma bind_ok_inv {S A B} (c : M S A) (f : A -> M S B) s b s' :
  (x ← c; f x) s = Ok b s' -> exists a s1, c s = Ok a s1 /\ f a s1 = Ok b s'.
Proof. unfold mbind, M_bind. destruct (c s); simpl; [eauto|done..]. Qed.
Lemma zoom_ok_inv {S T A} `{Lens S T} (c : M T A) s a s' :
  zoom c s = Ok a s' -> exists t, c (lget s) = Ok a t /\ s' = lput t s.
Proof. unfold zoom. destruct (c (lget s)); simpl; [intros [= <- <-]; eauto|done..]. Qed.

Lemma logs_bind {A B} (c : M vdisk A) (f : A -> M vdisk B) : logs c -> (forall a, logs (f a)) -> logs (x ← c; f x).
Proof.
  intros Hc Hf s b s' (a & s1 & E1 & E2)%bind_ok_inv. destruct (Hc _ _ _ E1) as [l1 ->]. destruct (Hf _ _ _ _ E2) as [l ->]. by exists l.
Qed.
Lemma logs_ret {A} (a : A) : logs (mret a).
Proof. intros s x s' [= <- <-]. exists s.(v_log). by destruct s. Qed.
Lemma logs_panic {A} msg : logs (panic msg : M vdisk A).
Proof. by intros s x s'. Qed.
Lemma logs_read `{Mmio} r : logs (read_reg r).
Proof. intros s x s' [= <- <-]. exists s.(v_log). by destruct s. Qed.
Lemma logs_write r x : logs (write_reg r x).
Proof. intros s a s' [= <- <-]. eexists. done. Qed.
#[local] Hint Resolve logs_ret logs_panic logs_read logs_write : core.

Ltac logs := repeat (first [apply logs_bind; [by auto|intros ?]|case_match]); auto.
Lemma negotiate_logs `{Mmio} : logs negotiate.
Proof. unfold negotiate. logs. Qed.
Lemma check_queue_logs `{Mmio} : logs check_queue.
Proof. unfold check_queue. logs. Qed.
Lemma give_queue_logs desc avail used : logs (give_queue desc avail used).
Proof. unfold give_queue. logs. Qed.

Lemma free_all l s :
  foreach l (fun i => modify (fun s => set_vfree (<[i := true]> s.(v_free)) s)) s =
    Ok tt (set_vfree (foldl (fun f i => <[i := true]> f) s.(v_free) l) s).
Proof.
  revert s. induction l as [|i l IH]; intros s; [by destruct s|]. cbn [foreach]. mstep. by rewrite IH.
Qed.

Lemma init_idle `{Mmio} bufs image m s m' :
  virtio_disk_init (boot_disk bufs image, m) = Ok tt (s, m') -> exists l, s = idle_disk bufs image l.
Proof.
  intros E. unfold virtio_disk_init in E.
  do 4 (apply bind_ok_inv in E as (? & ? & [= <- <-] & E)). case_match; [done|].
  apply bind_ok_inv in E as (status & y1 & E1 & E). apply zoom_ok_inv in E1 as (t1 & E1 & ->).
  apply negotiate_logs in E1 as [l1 ->].
  apply bind_ok_inv in E as (u1 & y2 & E2 & E). apply zoom_ok_inv in E2 as (t2 & E2 & ->).
  apply check_queue_logs in E2 as [l2 ->].
  do 3 (apply bind_ok_inv in E as (? & ? & ?E & E); apply zoom_ok_inv in E0 as (? & _ & ->)).
  case_match; [done|]. cbn [lput lget vdisk_fst kmem_snd fst snd] in E.
  do 4 (apply bind_ok_inv in E as ([] & ? & ?E & E); apply zoom_ok_inv in E0 as (? & [= <-] & ->)).
  apply bind_ok_inv in E as ([] & ? & E3 & E). apply zoom_ok_inv in E3 as (t3 & E3 & ->).
  apply give_queue_logs in E3 as [l3 ->]. 
  apply bind_ok_inv in E as ([] & ? & E4 & E). apply zoom_ok_inv in E4 as (t4 & E4 & ->).
  apply zoom_ok_inv in E as (t5 & E5 & E). apply (f_equal fst) in E. cbn [fst lput vdisk_fst] in E, E4, E5. subst s.
  rewrite free_all in E4. injection E4 as <-. apply logs_write in E5 as [l5 ->]. by exists l5.
Qed.

Lemma idle_core bufs image l : core (idle_disk bufs image l) [].
Proof.
  split; try done; try apply NoDup_nil_2.
  - intros i Hi. by apply elem_of_nil in Hi.
  - intros i Hi. change (replicate NUM true !! i = Some (bool_decide (i ∉ ([] : list nat)))).
    rewrite bool_decide_eq_true_2 by apply not_elem_of_nil. by apply lookup_replicate_2.
  - intros r Hr. by apply elem_of_nil in Hr.
Qed.

Lemma idle_rings bufs image l : rings (idle_disk bufs image l) (mkdev 0 []) [] [] [] [].
Proof. split; try done; intros r Hr; by apply elem_of_nil in Hr. Qed.

(** ** The invariant of the system *)

(** The direction of the calls in progress. *)
Definition dirs (pool : list thread) : gmap nat bool := list_to_map (fst <$> pool).
Definition calls (pool : list thread) (done : list nat) : gmap nat (bool * bool) :=
  map_imap (fun b w => Some (w, bool_decide (b ∈ done))) (dirs pool).

Definition view (y : vsys) (done : list nat) : dspec :=
  mkdspec (sy_disk y).(v_image) (vb_data <$> (sy_disk y).(v_bufs)) (calls (sy_pool y) done).

Lemma calls_lookup pool X b : calls pool X !! b = (fun w => (w, bool_decide (b ∈ X))) <$> dirs pool !! b.
Proof. unfold calls. rewrite map_lookup_imap. by destruct (dirs pool !! b). Qed.

Lemma dirs_in pool b w k : NoDup (owned pool) -> (b, w, k) ∈ pool -> dirs pool !! b = Some w.
Proof.
  intros Hn Hin. apply elem_of_list_to_map.
  - rewrite <- list_fmap_compose. exact Hn.
  - change (b, w) with (fst (b, w, k)). by apply list_elem_of_fmap_2.
Qed.

Lemma dirs_out pool b : b ∉ owned pool -> dirs pool !! b = None.
Proof. intros Hn. apply not_elem_of_list_to_map_1. by rewrite <- list_fmap_compose. Qed.

(** A thread waits for descriptors, or for the one request of its buffer. *)
Definition thread_ok (fuel : nat) (s : vdisk) (rs : list req) (t : thread) : Prop :=
  (t.1.1 < length s.(v_bufs))%nat /\
  (((t.1.1 ∉ r_b <$> rs) /\ fresh fuel (vb_blockno <$> s.(v_bufs)) t.1.1 t.1.2 t.2) \/
   exists r, r ∈ rs /\ r_b r = t.1.1 /\ r_w r = t.1.2 /\ held r t.2).

Lemma thread_ok_ext fuel s s' rs rs' t :
  (forall r, r_b r = t.1.1 -> (r ∈ rs <-> r ∈ rs')) -> vb_blockno <$> s'.(v_bufs) = vb_blockno <$> s.(v_bufs) ->
  thread_ok fuel s rs t -> thread_ok fuel s' rs' t.
Proof.
  intros Hrs Hb [Hlt H]. pose proof (f_equal length Hb) as Hl. rewrite !length_fmap in Hl.
  split; [by rewrite Hl|]. rewrite Hb. destruct H as [[Hn Hf]|(r & Hr & Eb & Ew & Hh)].
  - left. split; [|done]. intros (r & E & Hr)%list_elem_of_fmap. apply Hn, list_elem_of_fmap. exists r. split; [done|]. by apply Hrs.
  - right. exists r. split; [|done]. by apply Hrs.
Qed.

Record sys_inv (fuel : nat) (y : vsys) (A T U D : list req) : Prop := {
  y_core : core (sy_disk y) (A ++ T ++ U ++ D);
  y_rings : rings (sy_disk y) (sy_dev y) A T U D;
  y_nodup : NoDup (owned (sy_pool y));
  y_thread : forall t, t ∈ sy_pool y -> thread_ok fuel (sy_disk y) (A ++ T ++ U ++ D) t;
  y_call : forall r, r ∈ A ++ T ++ U ++ D -> exists k, (r_b r, r_w r, k) ∈ sy_pool y
}.

Lemma owned_in pool (t : thread) : t ∈ pool -> t.1.1 ∈ owned pool.
Proof. intros H. apply (list_elem_of_fmap_2 (fun t : thread => t.1.1)). exact H. Qed.

(** A step that leaves the requests and the pool. *)
Lemma sys_inv_same fuel s d s' d' pool A T U D A' T' U' D' :
  sys_inv fuel (mksys s d pool) A T U D -> A' ++ T' ++ U' ++ D' ≡ₚ A ++ T ++ U ++ D ->
  core s' (A' ++ T' ++ U' ++ D') -> rings s' d' A' T' U' D' -> vb_blockno <$> s'.(v_bufs) = vb_blockno <$> s.(v_bufs) ->
  sys_inv fuel (mksys s' d' pool) A' T' U' D'.
Proof.
  intros [] E Hc Hr Hb. simpl in *. split; try done; simpl.
  - intros t Ht. apply (thread_ok_ext fuel s s' (A ++ T ++ U ++ D)); [|done|by apply y_thread0].
    intros r _. by rewrite E.
  - intros r. rewrite E. apply y_call0.
Qed.

(** A step of one thread: the requests of the others are left. *)
Lemma sys_inv_thread fuel s d s' p1 p2 b w k k' A T U D A' :
  sys_inv fuel (mksys s d (p1 ++ (b, w, k) :: p2)) A T U D ->
  core s' (A' ++ T ++ U ++ D) -> rings s' d A' T U D -> vb_blockno <$> s'.(v_bufs) = vb_blockno <$> s.(v_bufs) ->
  thread_ok fuel s' (A' ++ T ++ U ++ D) (b, w, k') ->
  (A' = A \/ exists r, A' = A ++ [r] /\ r_b r = b /\ r_w r = w) ->
  sys_inv fuel (mksys s' d (p1 ++ (b, w, k') :: p2)) A' T U D.
Proof.
  intros [] Hc Hr Hb Hk HA. simpl in *.
  assert (owned (p1 ++ (b, w, k') :: p2) = owned (p1 ++ (b, w, k) :: p2)) as Eo by (unfold owned; by rewrite !fmap_app).
  split; try done; simpl; [by rewrite Eo| |].
  - intros t Ht. rewrite elem_of_app, elem_of_cons in Ht.
    destruct (decide (t.1.1 = b)) as [E|Hn].
    + assert (t = (b, w, k')) as ->; [|done]. destruct Ht as [Ht|[->|Ht]]; [|done|].
      all: exfalso; unfold owned in y_nodup0; rewrite fmap_app in y_nodup0; apply NoDup_app in y_nodup0 as (_ & Hd & Hn).
      * apply (Hd (t.1.1)); [by apply owned_in|]. rewrite E. by left.
      * cbn in Hn. apply NoDup_cons in Hn as [Hn _]. apply Hn. rewrite <- E. by apply owned_in.
    + apply (thread_ok_ext fuel s s' (A ++ T ++ U ++ D)); [|done|].
      * intros r Er. destruct HA as [->|(r0 & -> & E0 & _)]; [done|]. rewrite !elem_of_app, list_elem_of_singleton.
        assert (r <> r0) by (intros ->; congruence). tauto.
      * apply y_thread0. rewrite elem_of_app, elem_of_cons. destruct Ht as [Ht|[->|Ht]]; [by left|done|by right; right].
  - intros r Hr'. destruct (decide (r_b r = b /\ r_w r = w)) as [[-> ->]|Hn].
    + exists k'. rewrite elem_of_app, elem_of_cons. tauto.
    + assert (r ∈ A ++ T ++ U ++ D) as Hin.
      { destruct HA as [->|(r0 & -> & E0 & E1)]; [done|]. rewrite !elem_of_app, list_elem_of_singleton in Hr'.
        rewrite !elem_of_app. destruct (decide (r = r0)) as [->|]; [by destruct Hn|tauto]. }
      destruct (y_call0 r Hin) as [k0 Hk0]. exists k0. rewrite elem_of_app, elem_of_cons in *.
      destruct Hk0 as [?|[[= E0 E1 _]|?]]; [by left|by destruct Hn|by right; right].
Qed.

(** A thread returns and its request is gone. *)
Lemma sys_inv_return fuel s d s' p1 p2 b w k A T U D1 r D2 :
  sys_inv fuel (mksys s d (p1 ++ (b, w, k) :: p2)) A T U (D1 ++ r :: D2) -> r_b r = b ->
  core s' (A ++ T ++ U ++ D1 ++ D2) -> rings s' d A T U (D1 ++ D2) -> vb_blockno <$> s'.(v_bufs) = vb_blockno <$> s.(v_bufs) ->
  sys_inv fuel (mksys s' d (p1 ++ p2)) A T U (D1 ++ D2).
Proof.
  intros [] Er Hc Hr Hb. simpl in *.
  assert (p1 ++ (b, w, k) :: p2 ≡ₚ (b, w, k) :: p1 ++ p2) as Ep by solve_Permutation.
  assert (A ++ T ++ U ++ D1 ++ r :: D2 ≡ₚ r :: A ++ T ++ U ++ D1 ++ D2) as Erq by solve_Permutation.
  assert (owned (p1 ++ (b, w, k) :: p2) ≡ₚ b :: owned (p1 ++ p2)) as Eo by (unfold owned; by rewrite Ep).
  rewrite Eo in y_nodup0. apply NoDup_cons in y_nodup0 as [Hn Hnd].
  pose proof (c_bufs _ _ y_core0) as Hbs. rewrite Erq in Hbs. cbn in Hbs. apply NoDup_cons in Hbs as [Hnb _].
  split; try done; simpl.
  - intros t Ht. apply (thread_ok_ext fuel s s' (A ++ T ++ U ++ D1 ++ r :: D2)); [|done|].
    + intros r' Er'. rewrite Erq, elem_of_cons. assert (r' <> r); [|tauto]. intros ->. apply Hn.
      rewrite <- Er, Er'. by apply owned_in.
    + apply y_thread0. rewrite Ep. by right.
  - intros r' Hr'. destruct (y_call0 r') as [k0 Hk0]; [rewrite Erq; by right|]. exists k0.
    rewrite Ep in Hk0. apply elem_of_cons in Hk0 as [[= E0 _ _]|?]; [|done]. exfalso. apply Hnb.
    rewrite Er, <- E0. by apply list_elem_of_fmap_2.
Qed.
