(* ===== verification/VirtioSim.v ===== *)
(** * The simulation of the driver and its device, step by step *)

From Stdlib Require Import ZArith Lia.
From stdpp Require Import base numbers list strings gmap relations.
From S2P Require Import Prelude Types Mem Layout Kalloc State Virtio VirtioSpec VirtioInv VirtioOps VirtioRefine.
Open Scope Z_scope.

(** ** The calls in progress *)

Lemma calls_ext pool pool' X X' : dirs pool = dirs pool' -> (forall b, b ∈ X <-> b ∈ X') -> calls pool X = calls pool' X'.
Proof.
  intros E HX. apply map_eq. intros b. rewrite !calls_lookup, E.
  by rewrite (bool_decide_ext (b ∈ X) (b ∈ X')) by apply HX.
Qed.

Lemma calls_start pool X b w k : b ∉ X -> calls ((b, w, k) :: pool) X = <[b := (w, false)]> (calls pool X).
Proof.
  intros Hb. apply map_eq. intros b'. rewrite calls_lookup.
  change (dirs ((b, w, k) :: pool)) with (<[b := w]> (dirs pool)).
  destruct (decide (b = b')) as [<-|Hn].
  - rewrite !lookup_insert_eq. simpl. by rewrite bool_decide_eq_false_2.
  - rewrite !lookup_insert_ne by done. by rewrite calls_lookup.
Qed.

Lemma calls_io pool X X' b w :
  dirs pool !! b = Some w -> (forall b', b' ∈ X' <-> b' = b \/ b' ∈ X) -> calls pool X' = <[b := (w, true)]> (calls pool X).
Proof.
  intros Hd HX. apply map_eq. intros b'. destruct (decide (b = b')) as [<-|Hn].
  - rewrite lookup_insert_eq, calls_lookup, Hd. simpl. rewrite bool_decide_eq_true_2; [done|]. apply HX. by left.
  - rewrite lookup_insert_ne, !calls_lookup by done. rewrite (bool_decide_ext (b' ∈ X') (b' ∈ X)); [done|].
    rewrite HX. naive_solver.
Qed.

Lemma dirs_mid p1 p2 b w k k' : dirs (p1 ++ (b, w, k) :: p2) = dirs (p1 ++ (b, w, k') :: p2).
Proof. unfold dirs. by rewrite !fmap_app. Qed.

Lemma calls_return p1 p2 b w k X X' :
  NoDup (owned (p1 ++ (b, w, k) :: p2)) -> (forall b', b' <> b -> (b' ∈ X' <-> b' ∈ X)) ->
  calls (p1 ++ p2) X' = delete b (calls (p1 ++ (b, w, k) :: p2) X).
Proof.
  intros Hnd HX. assert (p1 ++ (b, w, k) :: p2 ≡ₚ (b, w, k) :: p1 ++ p2) as Ep by solve_Permutation.
  assert (dirs (p1 ++ (b, w, k) :: p2) = <[b := w]> (dirs (p1 ++ p2))) as Ed.
  { change (<[b := w]> (dirs (p1 ++ p2))) with (dirs ((b, w, k) :: p1 ++ p2)). unfold dirs. apply list_to_map_proper.
    - rewrite <- list_fmap_compose. exact Hnd.
    - by rewrite Ep. }
  assert (b ∉ owned (p1 ++ p2)) as Hn.
  { unfold owned in Hnd. rewrite Ep in Hnd. by apply NoDup_cons in Hnd as [? _]. }
  apply map_eq. intros b'. destruct (decide (b = b')) as [<-|Hne].
  - by rewrite lookup_delete_eq, calls_lookup, dirs_out.
  - rewrite lookup_delete_ne, !calls_lookup, Ed, lookup_insert_ne by done.
    by rewrite (bool_decide_ext (b' ∈ X') (b' ∈ X)) by (by apply HX).
Qed.

Section simulation.
Context `{I : Mmio} (device : label -> vdisk * vdev -> vdisk * vdev -> Prop) (fuel : nat).
Context (Hdev : forall l x x', device l x x' -> dev_step l x x').

Abbreviation served U D := (r_b <$> U ++ D).
Abbreviation blocks y := (vb_blockno <$> v_bufs (sy_disk y)).

(** What a step has to establish. *)
Definition simulated (l : label) (y : vsys) (U D : list req) (y' : vsys) : Prop :=
  exists A' T' U' D', sys_inv fuel y' A' T' U' D' /\ blocks y' = blocks y /\
    disk_step (blocks y) l (view y (served U D)) (view y' (served U' D')).

Lemma view_same y y' X X' :
  same_view (sy_disk y) (sy_disk y') -> dirs (sy_pool y') = dirs (sy_pool y) -> (forall b, b ∈ X' <-> b ∈ X) ->
  view y' X' = view y X.
Proof using Type. intros (E1 & E2 & _) Ed HX. unfold view. by rewrite E1, E2, (calls_ext _ _ _ _ Ed HX). Qed.

Lemma sim_tau y y' A' T' U U' D D' :
  sys_inv fuel y' A' T' U' D' -> same_view (sy_disk y) (sy_disk y') -> dirs (sy_pool y') = dirs (sy_pool y) ->
  (forall b, b ∈ served U' D' <-> b ∈ served U D) -> simulated Ltau y U D y'.
Proof using Type.
  intros Hi Hv Hd HX. exists A', T', U', D'. split; [done|]. split; [apply Hv|].
  rewrite (view_same y y' _ _ Hv Hd HX). constructor.
Qed.

Lemma sim_start s d pool A T U D b w :
  sys_inv fuel (mksys s d pool) A T U D -> (b < length s.(v_bufs))%nat -> b ∉ owned pool ->
  simulated (Lstart b w) (mksys s d pool) U D (mksys s d ((b, w, virtio_disk_rw fuel b w) :: pool)).
Proof using Type.
  intros [] Hb Hn. simpl in *.
  assert (forall r, r ∈ A ++ T ++ U ++ D -> r_b r <> b) as Hne.
  { intros r Hr <-. destruct (y_call r Hr) as [k Hk]. apply Hn. exact (owned_in _ _ Hk). }
  assert (b ∉ (r_b <$> A ++ T ++ U ++ D)) as Hnr.
  { intros (r & -> & Hr)%list_elem_of_fmap. by apply (Hne r). }
  exists A, T, U, D. split; [|split; [done|]].
  - split; try done; simpl.
    + by apply NoDup_cons.
    + intros t [->|Ht]%elem_of_cons; [|by apply y_thread]. split; [done|]. left. split; [done|]. by left.
    + intros r Hr. destruct (y_call r Hr) as [k Hk]. exists k. by right.
  - unfold view. simpl. rewrite calls_start.
    + apply disk_start. by rewrite calls_lookup, dirs_out.
    + intros Hin. apply Hnr. rewrite !fmap_app, !elem_of_app in *. tauto.
Qed.

(** ** Threads *)

(** The outcome of running a thread. *)
Definition thread_outcome (s : vdisk) (d : vdev) (p1 : list thread) (b : nat) (w : bool) (k : M vdisk unit) (p2 : list thread)
    (U D : list req) : Prop :=
  match k s with
  | Swtch s' k' => simulated Ltau (mksys s d (p1 ++ (b, w, k) :: p2)) U D (mksys s' d (p1 ++ (b, w, k') :: p2))
  | Ok _ s' => simulated (Lret b w) (mksys s d (p1 ++ (b, w, k) :: p2)) U D (mksys s' d (p1 ++ p2))
  | Panic _ => False
  | NoFuel => True
  end.

Section thread.
Context (s : vdisk) (d : vdev) (p1 p2 : list thread) (b : nat) (w : bool) (k : M vdisk unit) (A T U D : list req).
Context (Hi : sys_inv fuel (mksys s d (p1 ++ (b, w, k) :: p2)) A T U D).

(** It waits for descriptors. *)
Lemma sim_fresh :
  (b < length s.(v_bufs))%nat -> b ∉ (r_b <$> A ++ T ++ U ++ D) -> fresh fuel (vb_blockno <$> s.(v_bufs)) b w k ->
  thread_outcome s d p1 b w k p2 U D.
Proof using Hi.
  intros Hb Hn Hf. pose proof Hi as []. simpl in *. unfold thread_outcome.
  assert ((exists f, k s = rest_alloc fuel f b w (sector_of (vb_blockno <$> s.(v_bufs)) b) s) \/ k s = NoFuel) as [[f E]|E].
  { destruct Hf as [Hf|[[f Hf]|Hf]]; [left; exists fuel; rewrite Hf; by apply start_step|left; exists f; apply Hf|right; apply Hf]. }
  2: { by rewrite E. }
  destruct (rest_alloc_step fuel f b w s A T U D d y_core y_rings Hb Hn)
    as [(r & s' & k' & Er & Hh & Eb & Ew & Hc & Hg & Hv)|(ds & k' & Er & Hf' & Hc)]; rewrite E, Er; clear Er.
  - assert ((A ++ [r]) ++ T ++ U ++ D ≡ₚ r :: A ++ T ++ U ++ D) as Ep by solve_Permutation.
    apply (sim_tau _ _ (A ++ [r]) T U U D D); simpl; [|done|by apply dirs_mid|done].
    apply (sys_inv_thread fuel s d s' p1 p2 b w k k' A); [done|by rewrite Ep|done|apply Hv| |right; by exists r].
    split; simpl.
    + destruct Hv as (_ & _ & Hv). apply (f_equal length) in Hv. rewrite !length_fmap in Hv. by rewrite Hv.
    + right. exists r. split; [|done]. rewrite Ep. by left.
  - apply (sim_tau _ _ A T U U D D); simpl; [|done|by apply dirs_mid|done].
    apply (sys_inv_thread fuel s d _ p1 p2 b w k k' A); [done|done| |done| |by left].
    + destruct y_rings. by split.
    + split; [done|]. by left.
Qed.

(** It waits for its request: the device still has it, or it is finished. *)
Lemma sim_busy r f :
  r ∈ A ++ T ++ U -> r_b r = b -> r_w r = w -> k s = rest_done f (r_b r) (r_0 r) s -> thread_outcome s d p1 b w k p2 U D.
Proof using Hi.
  intros Hin Eb Ew Hk. pose proof Hi as []. simpl in *. unfold thread_outcome. rewrite Hk.
  pose proof (g_busy _ _ _ _ _ _ y_rings r Hin) as H1. destruct (v_bufs s !! r_b r) as [x|] eqn:Ex; [|done].
  simpl in H1. injection H1 as H1. destruct (rest_done_busy f r s x Ex H1) as (k' & Ek & Hk'). rewrite Ek.
  apply (sim_tau _ _ A T U U D D); simpl; [|done|by apply dirs_mid|done].
  apply (sys_inv_thread fuel s d _ p1 p2 b w k k' A); [done..| |by left].
  split; simpl; [rewrite <- Eb; by eapply lookup_lt_Some|]. right. exists r. split; [|done]. rewrite !elem_of_app in *. tauto.
Qed.

Lemma sim_finish r f D1 D2 :
  D = D1 ++ r :: D2 -> r_b r = b -> r_w r = w -> k s = rest_done f (r_b r) (r_0 r) s -> thread_outcome s d p1 b w k p2 U D.
Proof using Hi.
  intros -> Eb Ew Hk. pose proof Hi as []. simpl in *. unfold thread_outcome. rewrite Hk.
  assert (A ++ T ++ U ++ D1 ++ r :: D2 ≡ₚ r :: A ++ T ++ U ++ D1 ++ D2) as Ep by solve_Permutation.
  assert (vb_disk <$> v_bufs s !! r_b r = Some 0) as H0 by (apply y_rings; rewrite elem_of_app, elem_of_cons; tauto).
  destruct (v_bufs s !! r_b r) as [x|] eqn:Ex; [|done]. simpl in H0. injection H0 as H0.
  rewrite Ep in y_core. rewrite (rest_done_finish f r s _ x y_core Ex H0).
  exists A, T, U, (D1 ++ D2). split; [|split; [done|]].
  - apply (sys_inv_return fuel s d _ p1 p2 b w k A T U D1 r D2); [done|done| | |done].
    + by apply finish_core.
    + by apply finish_rings.
  - unfold view. simpl. rewrite (calls_return p1 p2 b w k (served U (D1 ++ r :: D2))); [|done|].
    + apply disk_return. rewrite calls_lookup, (dirs_in _ b w k), bool_decide_eq_true_2; [done| |done|rewrite elem_of_app, elem_of_cons; tauto].
      rewrite <- Eb. apply list_elem_of_fmap_2. rewrite !elem_of_app, elem_of_cons. tauto.
    + intros b' Hb'. rewrite !fmap_app, fmap_cons, !elem_of_app, elem_of_cons. naive_solver congruence.
Qed.

Lemma sim_thread : thread_outcome s d p1 b w k p2 U D.
Proof using Hi.
  destruct (y_thread _ _ _ _ _ _ Hi (b, w, k)) as [Hb [[Hn Hf]|(r & Hr & Eb & Ew & Hh)]]; [simpl; rewrite elem_of_app, elem_of_cons; tauto|by apply sim_fresh|].
  simpl in *. destruct Hh as [[f Hh]|Hh]; [|unfold thread_outcome; by rewrite Hh].
  destruct (decide (r ∈ A ++ T ++ U)) as [Hin|Hout]; [by apply (sim_busy r f)|].
  assert (r ∈ D) as (D1 & D2 & HD)%list_elem_of_split by (rewrite !elem_of_app in *; tauto).
  by apply (sim_finish r f D1 D2).
Qed.
End thread.

(** ** The interrupt and the device *)

Lemma intr_ok s d A T U D :
  core s (A ++ T ++ U ++ D) -> rings s d A T U D ->
  exists s', virtio_disk_intr s = Ok tt s' /\ core s' (A ++ T ++ [] ++ (D ++ U)) /\ rings s' d A T [] (D ++ U) /\ same_view s s'.
Proof using Type.
  intros H Hr. unfold virtio_disk_intr, read_reg, write_reg. mstep. set (s1 := set_vlog _ s).
  destruct (intr_loop_ok NUM s1 d A T U D) as (s' & E & Hc & Hg & Hv).
  - pose proof (core_few _ _ H) as Hf. rewrite !length_app in Hf. unfold NUM. lia.
  - by apply (core_ext s).
  - destruct Hr. by split.
  - by exists s'.
Qed.

Lemma sim_intr s d pool A T U D s' :
  sys_inv fuel (mksys s d pool) A T U D -> virtio_disk_intr s = Ok tt s' ->
  simulated Ltau (mksys s d pool) U D (mksys s' d pool).
Proof using Type.
  intros Hi E. destruct (intr_ok s d A T U D) as (s1 & E1 & Hc & Hg & Hv); [apply Hi..|].
  rewrite E in E1. injection E1 as <-.
  apply (sim_tau _ _ A T U [] D (D ++ U)); [|done|done|].
  - apply (sys_inv_same fuel s d s' d pool A T U D); [done|solve_Permutation|done|done|apply Hv].
  - intros b. rewrite !fmap_app, !elem_of_app, elem_of_nil. tauto.
Qed.

Lemma dma_view s b w X pool d y' :
  (b < length s.(v_bufs))%nat -> calls pool X !! b = Some (w, false) ->
  let n := sector_of (vb_blockno <$> s.(v_bufs)) b in
  v_image (sy_disk y') = v_image (dma b w n s) -> v_bufs (sy_disk y') = v_bufs (dma b w n s) ->
  forall X', calls (sy_pool y') X' = <[b := (w, true)]> (calls pool X) ->
  disk_step (vb_blockno <$> s.(v_bufs)) (Lio b w) (view (mksys s d pool) X) (view y' X').
Proof using Type.
  intros Hb Hc n E1 E2 X' E3. destruct (lookup_lt_is_Some_2 _ _ Hb) as [x Hx].
  unfold view. rewrite E1, E2, E3. simpl. destruct w; simpl.
  - rewrite Hx. apply disk_write; [done|]. by rewrite list_lookup_fmap, Hx.
  - assert (vb_data <$> alter (set_bdata (v_image s n)) b (v_bufs s) = <[b := v_image s n]> (vb_data <$> v_bufs s)) as ->.
    { apply list_eq. intros i. rewrite list_lookup_fmap. destruct (decide (b = i)) as [<-|Hn].
      - rewrite list_lookup_alter_eq, Hx, list_lookup_insert_eq; [done|]. by rewrite length_fmap.
      - by rewrite list_lookup_alter_ne, list_lookup_insert_ne, list_lookup_fmap. }
    by apply disk_read.
Qed.

Lemma todo_split t1 h t2 T : t1 ++ h :: t2 = r_0 <$> T ->
  exists T1 r T2, T = T1 ++ r :: T2 /\ t1 = r_0 <$> T1 /\ h = r_0 r /\ t2 = r_0 <$> T2.
Proof using Type.
  intros E. symmetry in E. apply fmap_app_inv in E as (T1 & T' & -> & E' & ->).
  destruct T' as [|r T2]; [done|]. injection E' as -> ->. by exists T1, r, T2.
Qed.

Lemma sim_device l s d pool A T U D s' d' :
  sys_inv fuel (mksys s d pool) A T U D -> dev_step l (s, d) (s', d') ->
  simulated l (mksys s d pool) U D (mksys s' d' pool).
Proof using Type.
  intros Hi Hs. pose proof Hi as []. simpl in *. inversion Hs as [? seen todo h Hne Hh|? seen t1 h t2 b w n j Hc|? seen t1 h t2 ? Hc]; subst.
  - destruct (fetch_rings _ _ _ _ _ _ _ _ y_core y_rings Hne Hh) as (r & A' & -> & Hg).
    assert (A' ++ (r :: T) ++ U ++ D ≡ₚ (r :: A') ++ T ++ U ++ D) as Ep by (simpl; solve_Permutation).
    apply (sim_tau _ _ A' (r :: T) U U D D); [|done|done|done].
    apply (sys_inv_same fuel s' (mkdev seen todo) s' _ pool (r :: A') T U D); [done|done|by rewrite Ep|done|done].
  - pose proof (g_todo _ _ _ _ _ _ y_rings) as Et. simpl in Et. apply todo_split in Et as (T1 & r & T2 & -> & -> & -> & ->).
    assert (r ∈ A ++ (T1 ++ r :: T2) ++ U ++ D) as Hr by (rewrite !elem_of_app, elem_of_cons; tauto).
    assert (A ++ (T1 ++ T2) ++ (U ++ [r]) ++ D ≡ₚ A ++ (T1 ++ r :: T2) ++ U ++ D) as Ep by solve_Permutation.
    pose proof (c_fmt _ _ y_core r Hr) as Hf. rewrite (chain_of_formatted s r Hf) in Hc. injection Hc as <- <- <- <-.
    destruct (y_call r Hr) as [k Hk].
    exists A, (T1 ++ T2), (U ++ [r]), D. split; [|split; [apply dma_blocks|]].
    + apply (sys_inv_same fuel s (mkdev seen ((r_0 <$> T1) ++ r_0 r :: (r_0 <$> T2))) _ _ pool A (T1 ++ r :: T2) U D); [done|done| | |apply dma_blocks].
      * rewrite Ep. by apply serve_core.
      * rewrite <- fmap_app. by apply (serve_rings s seen ((r_0 <$> T1) ++ r_0 r :: (r_0 <$> T2))).
    + apply dma_view; [apply Hf| |done|done|].
      * rewrite calls_lookup, (dirs_in _ _ (r_w r) k), bool_decide_eq_false_2; [done| |done|done].
        pose proof (c_bufs _ _ y_core) as Hn. assert (A ++ (T1 ++ r :: T2) ++ U ++ D ≡ₚ r :: (A ++ T1 ++ T2) ++ U ++ D) as Ep' by solve_Permutation.
        rewrite Ep' in Hn. cbn in Hn. apply NoDup_cons in Hn as [Hn _]. intros Hin. apply Hn.
        rewrite !fmap_app, !elem_of_app in *. tauto.
      * apply calls_io; [by apply (dirs_in _ _ _ k)|]. intros b'. rewrite !fmap_app, !elem_of_app. cbn. rewrite list_elem_of_singleton. tauto.
  - exfalso. pose proof (g_todo _ _ _ _ _ _ y_rings) as Et. simpl in Et. apply todo_split in Et as (T1 & r & T2 & -> & -> & -> & ->).
    rewrite (chain_of_formatted s r) in Hc; [done|]. apply (c_fmt _ _ y_core). rewrite !elem_of_app, elem_of_cons. tauto.
Qed.

Lemma sim_step l y y' A T U D : sys_inv fuel y A T U D -> sys_step device fuel l y y' -> simulated l y U D y'.
Proof using Hdev.
  intros Hi Hs. destruct Hs as [s d pool b w Hb Hn|s d p1 b w k p2 s' k' E|s d p1 b w k p2 s' E|s d pool b w k msg y Hin E
    |s d pool s' E|s d pool y E|l s d pool s' d' E].
  - by apply (sim_start s d pool A T).
  - pose proof (sim_thread s d p1 p2 b w k A T U D Hi) as H. unfold thread_outcome in H. by rewrite E in H.
  - pose proof (sim_thread s d p1 p2 b w k A T U D Hi) as H. unfold thread_outcome in H. by rewrite E in H.
  - exfalso. apply list_elem_of_split in Hin as (p1 & p2 & ->).
    pose proof (sim_thread s d p1 p2 b w k A T U D Hi) as H. unfold thread_outcome in H. by rewrite E in H.
  - by apply (sim_intr s d pool A T U D).
  - exfalso. destruct (intr_ok s d A T U D) as (s' & E' & _); [apply Hi..|]. by apply (E s').
  - apply Hdev in E. by apply (sim_device l s d pool A T U D).
Qed.

Lemma sim_run y tr y' A T U D :
  sys_run device fuel tr y y' -> sys_inv fuel y A T U D ->
  exists A' T' U' D', sys_inv fuel y' A' T' U' D' /\ blocks y' = blocks y /\
    disk_run (blocks y) tr (view y (served U D)) (view y' (served U' D')).
Proof using Hdev.
  induction 1 as [y|tr l y y1 y2 _ IH Hs]; intros Hi.
  - exists A, T, U, D. split; [done|]. split; [done|constructor].
  - destruct (IH Hi) as (A1 & T1 & U1 & D1 & Hi1 & Eb & Hrun).
    destruct (sim_step l y1 y2 A1 T1 U1 D1 Hi1 Hs) as (A2 & T2 & U2 & D2 & Hi2 & Eb2 & Hst).
    exists A2, T2, U2, D2. split; [done|]. split; [congruence|]. rewrite Eb in Hst. by econstructor.
Qed.
End simulation.

Lemma disk_run_labels blocks tr y y' : disk_run blocks tr y y' -> (Lwild ∉ tr) /\ (Lpanic ∉ tr).
Proof.
  induction 1 as [|tr l y y1 y2 _ [IH1 IH2] Hs]; [split; apply not_elem_of_nil|].
  assert (l <> Lwild /\ l <> Lpanic) as [N1 N2] by (by destruct Hs).
  rewrite !elem_of_app, !list_elem_of_singleton. split; intros [?|E]; [done|by symmetry in E|done|by symmetry in E].
Qed.

(** C3. The disk driver with its device is a disk: after virtio_disk_init has succeeded,
    however the callers of virtio_disk_rw (with distinct buffers), the interrupt handler and
    a device that follows the virtio specification interleave (the device serves a request,
    data, status and used ring, in one step), the run is one of the disk of
    which each call moves its block once, atomically, after it started and before it
    returns.  In particular no descriptor chain the device finds is malformed and neither
    free_desc nor virtio_disk_intr panics. *)
Theorem virtio_refines `{Mmio} device fuel bufs image m s0 m' tr y :
  (forall l x x', device l x x' -> dev_step l x x') ->
  virtio_disk_init (boot_disk bufs image, m) = Ok tt (s0, m') ->
  sys_run device fuel tr (mksys s0 (mkdev 0 []) []) y ->
  (Lwild ∉ tr) /\ (Lpanic ∉ tr) /\
  exists c, disk_run (vb_blockno <$> bufs) tr (mkdspec image (vb_data <$> bufs) ∅)
    (mkdspec (sy_disk y).(v_image) (vb_data <$> (sy_disk y).(v_bufs)) c).
Proof.
  intros Hdev Hinit Hrun. apply init_idle in Hinit as [l ->].
  destruct (sim_run device fuel Hdev _ _ _ [] [] [] [] Hrun) as (A & T & U & D & _ & _ & Hd).
  - split; [apply idle_core|apply idle_rings|apply NoDup_nil_2|..]; intros ? Hin; by apply elem_of_nil in Hin.
  - destruct (disk_run_labels _ _ _ _ Hd). split; [done|]. split; [done|]. eexists. exact Hd.
Qed.

(** A device that identifies itself as the driver expects, with two buffers and three
    free pages. *)
Definition demo_mmio : Mmio := fun _ r =>
  if r =? R VIRTIO_MMIO_MAGIC_VALUE then 0x74726976 else if r =? R VIRTIO_MMIO_VENDOR_ID then 0x554d4551
  else if (r =? R VIRTIO_MMIO_VERSION) || (r =? R VIRTIO_MMIO_DEVICE_ID) then 2
  else if r =? R VIRTIO_MMIO_STATUS then 11 else if r =? R VIRTIO_MMIO_QUEUE_NUM_MAX then 1024 else 0.
Definition demo_bufs : list vbuf := [mkvbuf 46 [7] 0; mkvbuf 47 [] 0].
Definition demo_image : Z -> list Z := fun n => if n =? 94 then [9] else [].
Definition demo_mem : kmem :=
  let p := KERNBASE + 0x200000 in
  mkkmem (store64 (store64 (fun _ => 0) p (p + PGSIZE)) (p + PGSIZE) (p + 2 * PGSIZE)) p.

Definition demo_trace : list label :=
  [Lstart 0 true; Ltau; Lstart 1 false; Ltau; Ltau; Ltau; Lio 1 false; Lio 0 true; Ltau; Lret 0 true; Lret 1 false].

(** The first run of a call for which there are descriptors. *)
Lemma call_sleeps f b w s i0 i1 i2 s' x :
  s.(v_bufs) !! b = Some x -> alloc3_desc s = Ok (Some (i0, i1, i2)) s' -> s'.(v_bufs) = s.(v_bufs) ->
  virtio_disk_rw (S f) b w s =
    Swtch (submitted (mkr b w i0 i1 i2) (u32 (x.(vb_blockno) * (BSIZE / 512))) s') (rest_done f b i0).
Proof.
  intros Hx E Eb. unfold virtio_disk_rw, at_. rewrite (bind_ok _ _ _ x s) by (mstep; by rewrite Hx).
  set (n := u32 _). rewrite (bind_ok _ _ _ (i0, i1, i2) s') by (cbn [alloc_wait]; by rewrite (bind_ok _ _ _ _ _ E)).
  rewrite (bind_ok _ _ _ _ _ (submit_run b w n i0 i1 i2 s')).
  set (s1 := submitted _ n s'). rewrite (bind_swtch _ _ s1 s1 (fun t => done_wait f b t)); [reflexivity|].
  cbn [done_wait]. unfold at_. rewrite (bind_ok _ _ _ (set_bdisk 1 x) s1); [done|].
  mstep. subst s1. simpl. by rewrite Eb, list_lookup_alter_eq, Hx.
Qed.

Section demo.
Context (l : list (Z * Z)).
Definition demo_0 : vdisk := submitted (mkr 0 true 0 1 2) 92 (took 0 1 2 (idle_disk demo_bufs demo_image l)).
Definition demo_1 : vdisk := submitted (mkr 1 false 3 4 5) 94 (took 3 4 5 demo_0).
Definition demo_2 : vdisk := complete 3 3 (dma 1 false 94 demo_1).
Definition demo_3 : vdisk := complete 0 0 (dma 0 true 92 demo_2).
Definition demo_4 : vdisk :=
  noticed (mkr 0 true 0 1 2) (noticed (mkr 1 false 3 4 5) (set_vlog ((R VIRTIO_MMIO_INTERRUPT_ACK, 0) :: demo_3.(v_log)) demo_3)).
Definition demo_5 : vdisk := finished (mkr 0 true 0 1 2) demo_4.
Definition demo_6 : vdisk := finished (mkr 1 false 3 4 5) demo_5.

Let k0 := rest_done 0 0 0.
Let k1 := rest_done 0 1 3.

(** A write of buffer 0 to block 46 and a read of block 47 to buffer 1, which the device
    serves in the other order. *)
Lemma demo_run : sys_run (I := demo_mmio) dev_step 1 demo_trace (mksys (idle_disk demo_bufs demo_image l) (mkdev 0 []) []) (mksys demo_6 (mkdev 2 []) []).
Proof using Type.
  change demo_trace with ([] ++ [Lstart 0 true] ++ [Ltau] ++ [Lstart 1 false] ++ [Ltau] ++ [Ltau] ++ [Ltau] ++ [Lio 1 false] ++ [Lio 0 true] ++ [Ltau] ++ [Lret 0 true] ++ [Lret 1 false]).
  rewrite !app_assoc.
  apply (run_snoc _ _ _ _ _ (mksys demo_5 (mkdev 2 []) [(1%nat, false, k1)])).
  2: { apply (step_return _ _ _ _ []). vm_compute. reflexivity. }
  apply (run_snoc _ _ _ _ _ (mksys demo_4 (mkdev 2 []) [(1%nat, false, k1); (0%nat, true, k0)])).
  2: { apply (step_return _ _ _ _ [(1%nat, false, k1)]). vm_compute. reflexivity. }
  apply (run_snoc _ _ _ _ _ (mksys demo_3 (mkdev 2 []) [(1%nat, false, k1); (0%nat, true, k0)])).
  2: { apply step_intr. vm_compute. reflexivity. }
  apply (run_snoc _ _ _ _ _ (mksys demo_2 (mkdev 2 [0%nat]) [(1%nat, false, k1); (0%nat, true, k0)])).
  2: { apply step_device, (dev_serve _ _ []). vm_compute. reflexivity. }
  apply (run_snoc _ _ _ _ _ (mksys demo_1 (mkdev 2 [3%nat; 0%nat]) [(1%nat, false, k1); (0%nat, true, k0)])).
  2: { apply step_device, (dev_serve _ _ []). vm_compute. reflexivity. }
  apply (run_snoc _ _ _ _ _ (mksys demo_1 (mkdev 1 [0%nat]) [(1%nat, false, k1); (0%nat, true, k0)])).
  2: { by apply step_device, dev_fetch. }
  apply (run_snoc _ _ _ _ _ (mksys demo_1 (mkdev 0 []) [(1%nat, false, k1); (0%nat, true, k0)])).
  2: { by apply step_device, dev_fetch. }
  apply (run_snoc _ _ _ _ _ (mksys demo_0 (mkdev 0 []) [(1%nat, false, virtio_disk_rw 1 1 false); (0%nat, true, k0)])).
  2: { apply (step_sleep _ _ _ _ []). apply (call_sleeps 0 1 false demo_0 3 4 5 (took 3 4 5 demo_0) (mkvbuf 47 [] 0)); vm_compute; reflexivity. }
  apply (run_snoc _ _ _ _ _ (mksys demo_0 (mkdev 0 []) [(0%nat, true, k0)])).
  2: { apply step_start; [simpl; lia|]. cbn. rewrite list_elem_of_singleton. lia. }
  apply (run_snoc _ _ _ _ _ (mksys (idle_disk demo_bufs demo_image l) (mkdev 0 []) [(0%nat, true, virtio_disk_rw 1 0 true)])).
  2: { apply (step_sleep _ _ _ _ []). apply (call_sleeps 0 0 true _ 0 1 2 (took 0 1 2 _) (mkvbuf 46 [7] 0)); vm_compute; reflexivity. }
  apply (run_snoc _ _ [] _ _ _ _ (run_nil _ _ _)). apply step_start; [simpl; lia|apply not_elem_of_nil].
Qed.
End demo.

Lemma virtio_refines_witness : exists y c,
  (sy_disk y).(v_image) 92 = [7] /\ vb_data <$> (sy_disk y).(v_bufs) = [[7]; [9]] /\
  disk_run [46; 47] demo_trace (mkdspec demo_image [[7]; []] ∅) (mkdspec (sy_disk y).(v_image) (vb_data <$> (sy_disk y).(v_bufs)) c).
Proof.
  assert (match virtio_disk_init (H := demo_mmio) (boot_disk demo_bufs demo_image, demo_mem) with Ok _ _ => true | _ => false end = true)
    as Hok by (vm_compute; reflexivity).
  destruct (virtio_disk_init _) as [[] [s0 m']| | |] eqn:E; [|discriminate Hok..]. clear Hok.
  pose proof E as E'. apply init_idle in E' as [l ->].
  destruct (virtio_refines dev_step 1 demo_bufs demo_image demo_mem _ m' demo_trace _ (fun _ _ _ H => H) E (demo_run l)) as (_ & _ & c & Hd).
  exists (mksys (demo_6 l) (mkdev 2 []) []), c. split; [reflexivity|]. split; [reflexivity|exact Hd].
Defined.
