(* ===== verification/Log.v ===== *)
(** * The redo log (kernel/log.c)

    The header block on the disk is a block whose first word is n and whose
    next words are the block numbers.  A C array written out of its bounds is
    [panic "undefined"]. *)

From Stdlib Require Import ZArith Lia.
From stdpp Require Import base list numbers strings gmap.
From S2P Require Import Prelude Types Mem Layout Kalloc Vm State Spinlock Printf Proc Sleeplock Bio.
Open Scope Z_scope.

Definition getlog : M kernel log := gets k_log.
Definition modlog (f : log -> log) : M kernel unit := modify (fun k => set_log (f k.(k_log)) k).

(** hb->n and hb->block[i] of a block *)
Definition hdr_n (b : block) : Z := i32 (load 4 b 0).
Definition hdr_block (b : block) (i : Z) : Z := i32 (load 4 b (4 + 4 * i)).

(** log.lh.block[i] = b *)
Definition set_lh_block (i b : Z) : M kernel unit :=
  if i <? LOGBLOCKS then modlog (fun l => set_lh l.(lh_n) (<[Z.to_nat i := i32 b]> l.(lh_block)) l)
  else panic "undefined".

Section log.
Context `{W : Wakes} `{D : Disk}.

(** The body of the loop of [install_trans] after the message: log block [src]
    copied to its home [dst]. *)
Definition install_block (dev src dst : Z) (recovering : bool) : M kernel unit :=
  lbuf ← bread dev src;
  dbuf ← bread dev dst;
  x ← getb lbuf;
  modb dbuf (set_data x.(b_data)) ;;
  bwrite dbuf ;;
  (if recovering then mret tt else bunpin dbuf) ;;
  brelse lbuf ;;
  brelse dbuf.

(** The loop of [install_trans], from [tail] on. *)
Fixpoint install_loop (fuel : nat) (recovering : bool) (tail : Z) : M kernel unit :=
  l ← getlog;
  if tail <? l.(lh_n) then
    match fuel with
    | O => nofuel
    | S f =>
        let dst := l.(lh_block) !!! Z.to_nat tail in
        (if recovering then printf "recovering tail %d dst %d
" [AInt tail; AInt dst] else mret tt) ;;
        install_block l.(l_dev) (u32 (l.(l_start) + tail + 1)) (u32 dst) recovering ;;
        install_loop f recovering (tail + 1)
    end
  else mret tt.

(** The log has at most LOGBLOCKS blocks. *)
Definition install_trans (recovering : bool) : M kernel unit := install_loop (Z.to_nat LOGBLOCKS) recovering 0.

(** for (i = 0; i < log.lh.n; i++) log.lh.block[i] = lh->block[i]; *)
Fixpoint read_head_loop (fuel : nat) (hb : block) (i : Z) : M kernel unit :=
  l ← getlog;
  if i <? l.(lh_n) then
    match fuel with
    | O => nofuel
    | S f => set_lh_block i (hdr_block hb i) ;; read_head_loop f hb (i + 1)
    end
  else mret tt.

Definition read_head : M kernel unit :=
  l ← getlog;
  b ← bread l.(l_dev) (u32 l.(l_start));
  x ← getb b;
  modlog (fun l => set_lh (hdr_n x.(b_data)) l.(lh_block) l) ;;
  read_head_loop (S (Z.to_nat LOGBLOCKS)) x.(b_data) 0 ;;
  brelse b.

(** The header block after hb->n = n and hb->block[i] = bs[i]. *)
Fixpoint write_blocks (b : block) (i : Z) (bs : list Z) : block :=
  match bs with
  | [] => b
  | x :: bs' => write_blocks (store 4 b (4 + 4 * i) x) (i + 1) bs'
  end.

Definition write_head : M kernel unit :=
  l ← getlog;
  b ← bread l.(l_dev) (u32 l.(l_start));
  modb b (fun x => set_data (store 4 x.(b_data) 0 l.(lh_n)) x) ;;
  modb b (fun x => set_data (write_blocks x.(b_data) 0 (take (Z.to_nat l.(lh_n)) l.(lh_block))) x) ;;
  bwrite b ;;
  brelse b.

Definition recover_from_log : M kernel unit :=
  read_head ;;
  install_trans true ;;
  modlog (fun l => set_lh 0 l.(lh_block) l) ;;
  write_head.

(** sizeof(struct logheader) is 4 + 4 * LOGBLOCKS. *)
Definition initlog (dev : Z) (sb : superblock) : M kernel unit :=
  if BSIZE <=? 4 + 4 * LOGBLOCKS then panic "initlog: too big logheader"
  else
    initlock LkLog ;;
    modlog (fun l => mklog (i32 sb.(sb_logstart)) l.(l_outstanding) l.(l_committing) dev l.(lh_n) l.(lh_block)) ;;
    recover_from_log.

(** The while loop of [begin_op]. *)
Fixpoint begin_op_loop (fuel : nat) : M kernel unit :=
  l ← getlog;
  if l.(l_committing) || (LOGBLOCKS <? l.(lh_n) + (l.(l_outstanding) + 1) * MAXOPBLOCKS) then
    match fuel with
    | O => nofuel
    | S f => sleep (Some ChLog) LkLog ;; begin_op_loop f
    end
  else modlog (set_outstanding (l.(l_outstanding) + 1)) ;; release LkLog.

Definition begin_op : M kernel unit := acquire LkLog ;; begin_op_loop wakes.

(** The body of the loop of [write_log]: block [src] copied to log block [dst]. *)
Definition write_log_block (dev dst src : Z) : M kernel unit :=
  to ← bread dev dst;
  from ← bread dev src;
  x ← getb from;
  modb to (set_data x.(b_data)) ;;
  bwrite to ;;
  brelse from ;;
  brelse to.

Fixpoint write_log_loop (fuel : nat) (tail : Z) : M kernel unit :=
  l ← getlog;
  if tail <? l.(lh_n) then
    match fuel with
    | O => nofuel
    | S f =>
        write_log_block l.(l_dev) (u32 (l.(l_start) + tail + 1)) (u32 (l.(lh_block) !!! Z.to_nat tail)) ;;
        write_log_loop f (tail + 1)
    end
  else mret tt.

Definition write_log : M kernel unit := write_log_loop (Z.to_nat LOGBLOCKS) 0.

Definition commit : M kernel unit :=
  l ← getlog;
  if 0 <? l.(lh_n) then
    write_log ;;
    write_head ;;
    install_trans false ;;
    modlog (fun l => set_lh 0 l.(lh_block) l) ;;
    write_head
  else mret tt.

Definition end_op : M kernel unit :=
  acquire LkLog ;;
  modlog (fun l => set_outstanding (l.(l_outstanding) - 1) l) ;;
  l ← getlog;
  (if l.(l_committing) then panic "log.committing" else mret tt) ;;
  do_commit ← (if l.(l_outstanding) =? 0 then modlog (set_committing true) ;; mret true
               else wakeup (Some ChLog) ;; mret false);
  release LkLog ;;
  if (do_commit : bool) then
    commit ;;
    acquire LkLog ;;
    modlog (set_committing false) ;;
    wakeup (Some ChLog) ;;
    release LkLog
  else mret tt.
End log.

(** The index of the first of the n logged blocks that is [b], or n. *)
Fixpoint find_block (n : nat) (bs : list Z) (b : Z) (i : Z) : Z :=
  match n, bs with
  | S n', x :: bs' => if u32 x =? b then i else find_block n' bs' b (i + 1)
  | _, _ => i
  end.

Definition log_write (b : nat) : M kernel unit :=
  acquire LkLog ;;
  l ← getlog;
  (if LOGBLOCKS <=? l.(lh_n) then panic "too big a transaction" else mret tt) ;;
  (if l.(l_outstanding) <? 1 then panic "log_write outside of trans" else mret tt) ;;
  x ← getb b;
  let i := find_block (Z.to_nat l.(lh_n)) l.(lh_block) x.(b_blockno) 0 in
  set_lh_block i x.(b_blockno) ;;
  (if i =? l.(lh_n) then bpin b ;; modlog (fun l => set_lh (l.(lh_n) + 1) l.(lh_block) l) else mret tt) ;;
  release LkLog.
