(* ===== verification/LogSpec.v ===== *)
(** * The log makes transactions atomic

    [commit] writes the new blocks to the log, then the header, then the blocks
    to their homes, then an empty header; [recover_from_log] copies a committed
    log home.  The writes of [commit] are computed exactly, in order, and for
    every crash point, that is, after any number of those writes, recovery leaves
    the disk as it was before the transaction or as the transaction wants it. *)

From Stdlib Require Import ZArith Lia.
From stdpp Require Import base list numbers strings gmap.
From S2P Require Import Prelude Types Mem Layout Kalloc State Spinlock Printf Proc ProcSpec Sleeplock Seq Bio BioSpec Log.
Open Scope Z_scope.

(** Run the first step of a sequence by a lemma. *)
Ltac step_by lem := apply runs_bind; eapply runs_mono; [apply lem|].

(** ** Sequences of block writes, the first one first *)

Definition writes_to (ws : list (Z * block)) (D : disk) : disk := mkdisk D.(d_image) (rev ws ++ D.(d_writes)).

(** A view of the blocks after the writes. *)
Definition over (ws : list (Z * block)) (f : Z -> block) (m : Z) : block := default (f m) (last_write (rev ws) m).

Lemma last_write_app ws ws' m :
  last_write (ws ++ ws') m = match last_write ws m with Some b => Some b | None => last_write ws' m end.
Proof. induction ws as [|[n b] ws IH]; simpl; [done|]. by destruct (n =? m). Qed.

Lemma over_app ws ws' f m : over (ws ++ ws') f m = over ws' (over ws f) m.
Proof. unfold over. rewrite rev_app_distr, last_write_app. by destruct (last_write (rev ws') m). Qed.
Lemma over_cons w ws f m : over (w :: ws) f m = over ws (over [w] f) m.
Proof. apply (over_app [w] ws). Qed.
Lemma over_one n b f m : over [(n, b)] f m = if decide (m = n) then b else f m.
Proof. unfold over. simpl. destruct (Z.eqb_spec n m), (decide (m = n)); simpl; congruence. Qed.
Lemma over_ext ws f g m : f m = g m -> over ws f m = over ws g m.
Proof. intros H. unfold over. by rewrite H. Qed.
Lemma over_not ws f m : m ∉ ws.*1 -> over ws f m = f m.
Proof.
  induction ws as [|[n b] ws IH] using rev_ind; intros Hm; [done|].
  rewrite fmap_app, elem_of_app in Hm. rewrite over_app, over_one. case_decide; [subst; set_solver|].
  apply IH. tauto.
Qed.

Lemma read_over ws D m : disk_read (writes_to ws D) m = over ws (disk_read D) m.
Proof. unfold disk_read, over, writes_to. simpl. rewrite last_write_app. by destruct (last_write (rev ws) m). Qed.
Lemma writes_to_app ws ws' D : writes_to ws' (writes_to ws D) = writes_to (ws ++ ws') D.
Proof. unfold writes_to. simpl. by rewrite rev_app_distr, app_assoc. Qed.
Lemma writes_to_one n b D : writes_to [(n, b)] D = disk_write n b D.
Proof. done. Qed.
Lemma writes_to_nil D : writes_to [] D = D.
Proof. by destruct D. Qed.

(** Blocks written to the log from its slot [i] on. *)
Fixpoint log_writes (start i : Z) (vs : list block) : list (Z * block) :=
  match vs with [] => [] | v :: vs' => (start + i + 1, v) :: log_writes start (i + 1) vs' end.

(** Blocks copied home from the slots of the log from [i] on. *)
Fixpoint home_writes (start i : Z) (bs : list Z) (f : Z -> block) : list (Z * block) :=
  match bs with [] => [] | b :: bs' => (b, f (start + i + 1)) :: home_writes start (i + 1) bs' f end.

Lemma home_writes_ext start i bs f g :
  (forall j, i <= j < i + Z.of_nat (length bs) -> f (start + j + 1) = g (start + j + 1)) ->
  home_writes start i bs f = home_writes start i bs g.
Proof.
  revert i. induction bs as [|b bs IH]; intros i H; [done|]. cbn [home_writes length] in *.
  rewrite (H i) by lia. f_equal. apply IH. intros j Hj. apply H. lia.
Qed.
Lemma home_writes_fst start i bs f : (home_writes start i bs f).*1 = bs.
Proof. revert i. induction bs as [|b bs IH]; intros i; [done|]. cbn [home_writes fmap list_fmap fst]. f_equal. apply IH. Qed.

(** What [commit] and recovery rely on in the header. *)
Record header_ok (start : Z) (bs : list Z) : Prop := {
  ho_start : 0 <= start /\ start + LOGBLOCKS < 2 ^ 31;
  ho_len : Z.of_nat (length bs) <= LOGBLOCKS;
  ho_nodup : NoDup bs;
  ho_home : forall b, b ∈ bs -> 0 <= b < 2 ^ 31 /\ (b < start \/ start + LOGBLOCKS < b) }.

Section logspec.
Context (me : nat) (pid : Z) (d : Z) `{W : Wakes} `{D : Disk} `{DOK : !DiskOK}.
Abbreviation look := (look d).
Abbreviation view := (view d).
Abbreviation ref := (ref d).
Abbreviation held := (held pid d).
Abbreviation ready := (ready me pid d).

Lemma look_inj k m n b : look k m = Some b -> look k n = Some b -> m = n.
Proof. intros H1 H2. destruct (look_some _ _ _ _ H1) as (_ & _ & <-). by destruct (look_some _ _ _ _ H2) as (_ & _ & <-). Qed.

Definition unlocked (k : kernel) : Prop := forall i, k.(k_slocks) !! SlBuf i = None.

Lemma room_unlocked H k n S :
  ready H k -> unlocked k -> (forall m, ref k m ≠ 0 -> m ∈ S) -> (length S < NBUF)%nat -> room d k n.
Proof.
  intros [_ [l C]] Hu HS Hl. unfold room. destruct (look k n); [apply Hu|]. by eapply free_buffer.
Qed.

(** Two blocks in use at once, as in [write_log] and [install_trans]. *)
Lemma two_breads {B} k a c S (f : nat -> nat -> M kernel B) Q :
  ready [] k -> unlocked k -> a ≠ c -> (forall m, ref k m <= 1) -> (forall m, ref k m ≠ 0 -> m ∈ S) ->
  (length S < NBUF)%nat -> ref k c ≠ 0 \/ (length S + 1 < NBUF)%nat ->
  (forall x y k', ready [] k' -> held k' a x -> held k' c y -> x ≠ y -> frame k' = frame k ->
     (forall m, view k' m = view k m) ->
     (forall m, ref k' m = ref k m + (if decide (m = a) then 1 else 0) + (if decide (m = c) then 1 else 0)) ->
     k'.(k_slocks) = <[SlBuf y := pid]> (<[SlBuf x := pid]> k.(k_slocks)) ->
     runs (f x y k') Q) ->
  runs ((x ← bread d a; y ← bread d c; f x y) k) Q.
Proof using DOK.
  intros R Hu Hac Hr1 HS Hlen Hroom Hf.
  step_by (bread_runs me pid d [] k a); [exact R|apply outside_nil|by eapply room_unlocked|specialize (Hr1 a); lia|].
  intros x k1 (R1 & Hh1 & F1 & St1 & V1 & R1' & S1 & S1n).
  assert (Hrc : ref k1 c = ref k c) by (rewrite R1', decide_False by done; lia).
  step_by (bread_runs me pid d [] k1 c); [exact R1|apply outside_nil| |specialize (Hr1 c); lia|].
  { unfold room. destruct (look k1 c) as [y|] eqn:Ey.
    - rewrite S1. rewrite lookup_insert_ne; [apply Hu|]. intros [= ->]. apply Hac.
      by apply (look_inj k1 a c y); [apply Hh1|].
    - destruct R1 as [_ [l1 C1]]. apply (free_buffer d k1 l1 (a :: S) C1).
      + intros m. rewrite R1'. case_decide; [subst; intros _; by left|]. intros Hm. right. apply HS. lia.
      + destruct Hroom as [Hc|Hc]; [|simpl; lia]. exfalso. apply Hc. rewrite <- Hrc. unfold BioSpec.ref. by rewrite Ey. }
  intros y k2 (R2 & Hh2 & F2 & St2 & V2 & R2' & S2 & S2n).
  assert (Hxy : x ≠ y) by (intros ->; rewrite S1, lookup_insert_eq in S2n; done).
  apply Hf; [exact R2| |exact Hh2|exact Hxy| | | |].
  - destruct R2 as [_ [l2 C2]]. destruct Hh1 as (L1 & Sl1 & _ & Rf1). apply (held_intro pid d k2 l2 a x C2).
    + by apply St2.
    + rewrite S2. rewrite lookup_insert_ne by congruence. done.
    + rewrite R2', decide_False by done. lia.
  - by rewrite F2.
  - intros m. by rewrite V2.
  - intros m. rewrite R2', R1'. done.
  - by rewrite S2, S1.
Qed.

Lemma slocks_back (s : gmap slid Z) x y :
  x ≠ y -> s !! SlBuf x = None -> s !! SlBuf y = None ->
  delete (SlBuf x) (delete (SlBuf y) (<[SlBuf y := pid]> (<[SlBuf x := pid]> s))) = s.
Proof.
  intros Hxy Hx Hy. rewrite delete_insert_id by (rewrite lookup_insert_ne by congruence; done).
  by rewrite delete_insert_id.
Qed.

Lemma frame_disk k k' D' : frame k' = set_disk D' (frame k) -> k'.(k_disk) = D'.
Proof. intros H. by apply (f_equal k_disk) in H. Qed.
Lemma frame_same_disk k k' : frame k' = frame k -> k'.(k_disk) = k.(k_disk).
Proof. intros H. by apply (f_equal k_disk) in H. Qed.
Lemma frame_log k k' D' : frame k' = set_disk D' (frame k) -> k'.(k_log) = k.(k_log).
Proof. intros H. by apply (f_equal k_log) in H. Qed.
Lemma disk_read_write_ne n m v D' : n ≠ m -> disk_read (disk_write n v D') m = disk_read D' m.
Proof. intros H. unfold disk_read. simpl. by destruct (Z.eqb_spec n m). Qed.
Lemma disk_read_write_eq n v D' : disk_read (disk_write n v D') n = v.
Proof. unfold disk_read. simpl. by rewrite Z.eqb_refl. Qed.

(** One round of [write_log]: log block [a] gets the contents of block [c]. *)
Lemma write_log_step k a c S :
  ready [] k -> unlocked k -> a ≠ c -> (forall m, ref k m <= 1) -> (forall m, ref k m ≠ 0 -> m ∈ S) ->
  (length S < NBUF)%nat -> ref k c ≠ 0 ->
  runs (write_log_block d a c k)
    (fun _ k' => ready [] k' /\ k'.(k_slocks) = k.(k_slocks) /\
       frame k' = set_disk (disk_write a (view k c) k.(k_disk)) (frame k) /\
       (forall m, ref k' m = ref k m) /\
       (forall m, view k' m = if decide (m = a) then view k c else view k m)).
Proof using DOK.
  intros R Hu Hac Hr1 HS Hlen Hc.
  apply (two_breads k a c S); [done..|by left|]. intros x y k1 R1 Hx Hy Hxy F1 V1 Rf1 Sl1.
  unfold getb. rewrite bind_gets. assert (Hd : b_data (k_bcache k1 !!! y) = view k c) by (rewrite <- V1; apply Hy).
  rewrite Hd. step_by (set_data_runs me pid d [] k1 a x); [exact R1|exact Hx|].
  intros [] k2 (R2 & Hx2 & F2 & Sl2 & L2 & Rf2 & V2).
  step_by (bwrite_runs me pid d [] k2 a x); [exact R2|apply outside_nil|exact Hx2|].
  intros [] k3 (R3 & Hx3 & F3 & Sl3 & L3 & Rf3 & V3).
  rewrite V2, decide_True in F3 by done. rewrite F2, F1 in F3.
  assert (D2 : k_disk k2 = k_disk k) by (rewrite (frame_same_disk k1 k2), (frame_same_disk k k1) by done; done).
  rewrite D2 in F3. pose proof (frame_disk k k3 _ F3) as D3.
  assert (Hrf : forall m, ref k3 m = ref k m + (if decide (m = a) then 1 else 0) + (if decide (m = c) then 1 else 0))
    by (intros m; by rewrite Rf3, Rf2).
  assert (Hv : forall m, view k3 m = if decide (m = a) then view k c else view k m).
  { intros m. rewrite V3, V2. by case_decide. }
  pose proof R as [_ [l C]]. pose proof (ref_nonneg d k l a C). pose proof (ref_nonneg d k l c C).
  pose proof (Hr1 a). pose proof (Hr1 c).
  step_by (brelse_runs me pid d [] k3 c y); [exact R3|apply outside_nil| | | |].
  { destruct R3 as [_ [l3 C3]]. destruct Hy as (Ly & Sy & _ & Ry). apply (held_intro pid d k3 l3); [exact C3|..].
    - by rewrite L3, L2.
    - by rewrite Sl3, Sl2.
    - by rewrite Rf3, Rf2. }
  { rewrite Hrf. repeat case_decide; lia. }
  { rewrite Hrf, (decide_False (P := c = a)), (decide_True (P := c = c)) by done. lia. }
  intros [] k4 (R4 & F4 & Sl4 & L4 & V4 & Rf4).
  eapply runs_mono; [apply (brelse_runs me pid d [] k4 a x); [exact R4|apply outside_nil| | |]|].
  { destruct R4 as [_ [l4 C4]]. destruct Hx3 as (Lx & Sx & _ & Rx). apply (held_intro pid d k4 l4); [exact C4|..].
    - by rewrite L4.
    - rewrite Sl4, lookup_delete_ne by congruence. done.
    - rewrite Rf4, decide_False by done. lia. }
  { rewrite Rf4, Hrf. repeat case_decide; lia. }
  { intros _. rewrite V4, Hv, decide_True by done. rewrite (frame_same_disk k3 k4 F4), D3. by rewrite disk_read_write_eq. }
  intros [] k5 (R5 & F5 & Sl5 & L5 & V5 & Rf5).
  split; [exact R5|]. split; [|split; [by rewrite F5, F4|split]].
  - rewrite Sl5, Sl4, Sl3, Sl2, Sl1. by apply slocks_back.
  - intros m. rewrite Rf5, Rf4, Hrf. lia.
  - intros m. by rewrite V5, V4.
Qed.

(** A round of [install_trans] after the two reads: block [c] gets the contents of
    log block [a], and loses its pin. *)
Lemma install_step k a c S (recovering : bool) :
  ready [] k -> unlocked k -> a ≠ c -> (forall m, ref k m <= 1) -> (forall m, ref k m ≠ 0 -> m ∈ S) ->
  (length S + 1 < NBUF)%nat \/ ref k c ≠ 0 /\ (length S < NBUF)%nat ->
  ref k a = 0 -> (recovering = false -> ref k c = 1) ->
  runs (install_block d a c recovering k)
    (fun _ k' => ready [] k' /\ k'.(k_slocks) = k.(k_slocks) /\
       frame k' = set_disk (disk_write c (view k a) k.(k_disk)) (frame k) /\
       (forall m, ref k' m = if recovering then ref k m else if decide (m = c) then 0 else ref k m) /\
       (forall m, view k' m = if decide (m = c) then view k a else view k m)).
Proof using DOK.
  intros R Hu Hac Hr1 HS Hlen Ha Hrec.
  apply (two_breads k a c S); [done..|lia|lia|]. intros x y k1 R1 Hx Hy Hxy F1 V1 Rf1 Sl1.
  unfold getb. rewrite bind_gets. assert (Hd : b_data (k_bcache k1 !!! x) = view k a) by (rewrite <- V1; apply Hx).
  rewrite Hd. step_by (set_data_runs me pid d [] k1 c y); [exact R1|exact Hy|].
  intros [] k2 (R2 & Hy2 & F2 & Sl2 & L2 & Rf2 & V2).
  step_by (bwrite_runs me pid d [] k2 c y); [exact R2|apply outside_nil|exact Hy2|].
  intros [] k3 (R3 & Hy3 & F3 & Sl3 & L3 & Rf3 & V3).
  rewrite V2, decide_True in F3 by done. rewrite F2, F1 in F3.
  assert (D2 : k_disk k2 = k_disk k) by (rewrite (frame_same_disk k1 k2), (frame_same_disk k k1) by done; done).
  rewrite D2 in F3. pose proof (frame_disk k k3 _ F3) as D3.
  pose proof R as [_ [l C]]. pose proof (ref_nonneg d k l c C). pose proof (Hr1 c).
  (* the pin is dropped, or there is none *)
  apply runs_bind. eapply (runs_mono _ (fun _ k4 => ready [] k4 /\ held k4 c y /\ frame k4 = frame k3 /\
    k4.(k_slocks) = k3.(k_slocks) /\ (forall m, look k4 m = look k3 m) /\ (forall m, view k4 m = view k3 m) /\
    (forall m, ref k4 m = ref k3 m - if recovering then 0 else if decide (m = c) then 1 else 0))).
  { destruct recovering.
    - cbn [runs mret M_ret]. split; [exact R3|]. split; [exact Hy3|]. do 4 (split; [done|]). intros m. lia.
    - eapply runs_mono; [apply (bunpin_runs me pid d [] k3 c y); [exact R3|apply outside_nil|exact Hy3|]|done].
      rewrite Rf3, Rf2, Rf1, (decide_False (P := c = a)), (decide_True (P := c = c)), Hrec by done. lia. }
  intros [] k4 (R4 & Hy4 & F4 & Sl4 & L4 & V4 & Rf4).
  assert (Hrf : forall m, ref k4 m = ref k m + (if decide (m = a) then 1 else 0) +
    (if decide (m = c) then (if recovering then 1 else 0) else 0)).
  { intros m. rewrite Rf4, Rf3, Rf2, Rf1. destruct recovering; repeat case_decide; lia. }
  assert (Hv : forall m, view k4 m = if decide (m = c) then view k a else view k m).
  { intros m. rewrite V4, V3, V2. by case_decide. }
  assert (D4 : k_disk k4 = disk_write c (view k a) (k_disk k)) by (by rewrite (frame_same_disk k3 k4 F4)).
  step_by (brelse_runs me pid d [] k4 a x); [exact R4|apply outside_nil| | | |].
  { destruct R4 as [_ [l4 C4]]. destruct Hx as (Lx & Sx & _ & Rx). apply (held_intro pid d k4 l4); [exact C4|..].
    - by rewrite L4, L3, L2.
    - by rewrite Sl4, Sl3, Sl2.
    - rewrite Hrf, decide_True, decide_False by done. lia. }
  { rewrite Hrf. destruct recovering; repeat case_decide; lia. }
  { intros _. rewrite Hv, decide_False by done. rewrite D4, disk_read_write_ne by done. by apply (view_clean d k l). }
  intros [] k5 (R5 & F5 & Sl5 & L5 & V5 & Rf5).
  assert (Hrc : ref k4 c = ref k c + if recovering then 1 else 0).
  { rewrite Hrf, (decide_False (P := c = a)), (decide_True (P := c = c)) by done. lia. }
  eapply runs_mono; [apply (brelse_runs me pid d [] k5 c y); [exact R5|apply outside_nil| | |]|].
  { destruct R5 as [_ [l5 C5]]. destruct Hy4 as (Ly & Sy & _ & Ry). apply (held_intro pid d k5 l5); [exact C5|..].
    - by rewrite L5.
    - rewrite Sl5, lookup_delete_ne by congruence. done.
    - rewrite Rf5, decide_False by done. lia. }
  { rewrite Rf5, (decide_False (P := c = a)), Hrc by done. destruct recovering; lia. }
  { intros _. rewrite V5, Hv, decide_True by done. rewrite (frame_same_disk k4 k5 F5), D4. by rewrite disk_read_write_eq. }
  intros [] k6 (R6 & F6 & Sl6 & L6 & V6 & Rf6).
  split; [exact R6|]. split; [|split; [by rewrite F6, F5, F4|split]].
  - rewrite Sl6, Sl5, Sl4, Sl3, Sl2, Sl1. rewrite delete_delete. by apply slocks_back.
  - intros m. rewrite Rf6, Rf5, Hrf. destruct recovering; repeat case_decide; subst; try lia; (rewrite Hrec by done; lia).
  - intros m. by rewrite V6, V5.
Qed.

(** The header block. *)
Lemma write_head_step k S start n bs :
  ready [] k -> unlocked k -> (forall m, ref k m <= 1) -> (forall m, ref k m ≠ 0 -> m ∈ S) -> (length S < NBUF)%nat ->
  k.(k_log).(l_dev) = d -> u32 k.(k_log).(l_start) = start -> k.(k_log).(lh_n) = n ->
  take (Z.to_nat n) k.(k_log).(lh_block) = bs ->
  runs (write_head k) (fun _ k' => ready [] k' /\ k'.(k_slocks) = k.(k_slocks) /\
    frame k' = set_disk (disk_write start (write_blocks (store 4 (view k start) 0 n) 0 bs) k.(k_disk)) (frame k) /\
    (forall m, ref k' m = ref k m) /\
    (forall m, view k' m = if decide (m = start) then write_blocks (store 4 (view k start) 0 n) 0 bs else view k m)).
Proof using DOK.
  intros R Hu Hr1 HS Hlen Ed Es En Eb. unfold write_head, getlog. rewrite bind_gets, Ed, Es, En, Eb.
  step_by (bread_runs me pid d [] k start); [exact R|apply outside_nil|by eapply room_unlocked|specialize (Hr1 start); lia|].
  intros b k1 (R1 & Hb1 & F1 & _ & V1 & Rf1 & Sl1 & Sln).
  assert (Hd : b_data (k_bcache k1 !!! b) = view k start) by (rewrite <- V1; apply Hb1).
  assert (E1 : modb b (fun x => set_data (store 4 x.(b_data) 0 n) x) k1 = modb b (set_data (store 4 (view k start) 0 n)) k1).
  { unfold modb, modify. do 2 f_equal. apply list_alter_ext; [|done]. intros x Hx.
    rewrite (list_lookup_total_correct _ _ _ Hx) in Hd. by rewrite Hd. }
  rewrite (bind_cong _ _ _ _ E1).
  step_by (set_data_runs me pid d [] k1 start b); [exact R1|exact Hb1|].
  intros [] k2 (R2 & Hb2 & F2 & Sl2 & L2 & Rf2 & V2).
  assert (Hd2 : b_data (k_bcache k2 !!! b) = store 4 (view k start) 0 n).
  { destruct Hb2 as (_ & _ & -> & _). by rewrite V2, decide_True. }
  assert (E2 : modb b (fun x => set_data (write_blocks x.(b_data) 0 bs) x) k2 =
    modb b (set_data (write_blocks (store 4 (view k start) 0 n) 0 bs)) k2).
  { unfold modb, modify. do 2 f_equal. apply list_alter_ext; [|done]. intros x Hx.
    rewrite (list_lookup_total_correct _ _ _ Hx) in Hd2. by rewrite Hd2. }
  rewrite (bind_cong _ _ _ _ E2).
  step_by (set_data_runs me pid d [] k2 start b); [exact R2|exact Hb2|].
  intros [] k3 (R3 & Hb3 & F3 & Sl3 & L3 & Rf3 & V3).
  step_by (bwrite_runs me pid d [] k3 start b); [exact R3|apply outside_nil|exact Hb3|].
  intros [] k4 (R4 & Hb4 & F4 & Sl4 & L4 & Rf4 & V4).
  rewrite V3, decide_True in F4 by done. rewrite F3, F2, F1 in F4.
  assert (D3 : k_disk k3 = k_disk k)
    by (rewrite (frame_same_disk k2 k3), (frame_same_disk k1 k2), (frame_same_disk k k1) by done; done).
  rewrite D3 in F4.
  assert (Hrf : forall m, ref k4 m = ref k m + if decide (m = start) then 1 else 0)
    by (intros m; by rewrite Rf4, Rf3, Rf2, Rf1).
  assert (Hv : forall m, view k4 m = if decide (m = start) then write_blocks (store 4 (view k start) 0 n) 0 bs else view k m).
  { intros m. rewrite V4, V3, V2, V1. by case_decide. }
  pose proof (Hr1 start).
  eapply runs_mono; [apply (brelse_runs me pid d [] k4 start b); [exact R4|apply outside_nil|exact Hb4| |]|].
  { rewrite Hrf, decide_True by done. lia. }
  { intros _. rewrite Hv, decide_True by done. rewrite (frame_disk k k4 _ F4). by rewrite disk_read_write_eq. }
  intros [] k5 (R5 & F5 & Sl5 & L5 & V5 & Rf5).
  split; [exact R5|]. split; [|split; [by rewrite F5|split]].
  - rewrite Sl5, Sl4, Sl3, Sl2, Sl1. by apply delete_insert_id.
  - intros m. rewrite Rf5, Hrf. case_decide; lia.
  - intros m. by rewrite V5.
Qed.

(** The in-memory header holds the blocks [bs]. *)
Definition logged (lg : log) (start : Z) (bs : list Z) : Prop :=
  lg.(l_dev) = d /\ lg.(l_start) = start /\ lg.(lh_n) = Z.of_nat (length bs) /\ take (length bs) lg.(lh_block) = bs.

Lemma logged_at lg start pre b suf :
  logged lg start (pre ++ b :: suf) -> lg.(lh_block) !!! length pre = b.
Proof.
  intros (_ & _ & _ & E). apply list_lookup_total_correct.
  rewrite <- (lookup_take_lt _ (length (pre ++ b :: suf))) by (rewrite length_app; simpl; lia).
  rewrite E. by rewrite lookup_app_r, Nat.sub_diag by lia.
Qed.

Lemma write_log_loop_spec start bs suf pre k fuel :
  bs = pre ++ suf -> (length suf <= fuel)%nat -> header_ok start bs -> logged k.(k_log) start bs ->
  ready [] k -> unlocked k -> (forall m, ref k m = if decide (m ∈ bs) then 1 else 0) -> (length bs < NBUF)%nat ->
  let ws := log_writes start (Z.of_nat (length pre)) (view k <$> suf) in
  runs (write_log_loop fuel (Z.of_nat (length pre)) k) (fun _ k' => ready [] k' /\ k'.(k_slocks) = k.(k_slocks) /\
    frame k' = set_disk (writes_to ws k.(k_disk)) (frame k) /\ (forall m, ref k' m = ref k m) /\
    (forall m, view k' m = over ws (view k) m)).
Proof using DOK.
  revert pre k fuel. induction suf as [|b suf IH]; intros pre k fuel Ebs Hf Hh Hlg R Hu Hr Hlen ws; subst ws.
  { rewrite app_nil_r in Ebs. subst pre. destruct Hlg as (_ & _ & En & _).
    assert (E : write_log_loop fuel (Z.of_nat (length bs)) k = Ok tt k).
    { destruct fuel; cbn [write_log_loop]; unfold getlog; rewrite bind_gets, En;
        by destruct (Z.ltb_spec (Z.of_nat (length bs)) (Z.of_nat (length bs))); [lia|]. }
    rewrite E. cbn [runs]. split; [exact R|]. split; [done|]. split; [|done]. cbn [fmap list_fmap log_writes].
    rewrite writes_to_nil. by destruct k. }
  destruct fuel as [|fuel]; [simpl in Hf; lia|]. cbn [write_log_loop]. unfold getlog. rewrite bind_gets.
  pose proof Hlg as (Ed & Es & En & _). rewrite Ebs in Hlg. pose proof (logged_at _ _ _ _ _ Hlg) as Eb.
  assert (Hin : b ∈ bs) by (rewrite Ebs; apply elem_mid).
  destruct (ho_home _ _ Hh b Hin) as [Hb Hhome]. destruct (ho_start _ _ Hh) as [Hs0 Hs1]. pose proof (ho_len _ _ Hh) as Hll.
  assert (Hpl : Z.of_nat (length pre) < Z.of_nat (length bs)) by (rewrite Ebs, length_app; simpl; lia).
  destruct (Z.ltb_spec (Z.of_nat (length pre)) (lh_n (k_log k))); [|lia].
  rewrite Ed, Es, Nat2Z.id, Eb, !u32_small by lia. set (a := start + Z.of_nat (length pre) + 1).
  assert (Hac : a ≠ b) by (unfold a; lia).
  step_by (write_log_step k a b bs); [exact R|exact Hu|exact Hac| | |exact Hlen| |].
  { intros m. rewrite Hr. case_decide; lia. }
  { intros m. rewrite Hr. by case_decide. }
  { rewrite Hr, decide_True by done. lia. }
  intros [] k1 (R1 & Sl1 & F1 & Rf1 & V1).
  replace (Z.of_nat (length pre) + 1) with (Z.of_nat (length (pre ++ [b]))) by (rewrite length_app; simpl; lia).
  assert (Hvs : view k1 <$> suf = view k <$> suf).
  { apply list_fmap_ext. intros i c Hc. rewrite V1, decide_False; [done|]. intros ->.
    apply list_elem_of_lookup_2 in Hc. destruct (ho_home _ _ Hh a); [rewrite Ebs; set_solver|]. unfold a in *. lia. }
  eapply runs_mono; [apply (IH (pre ++ [b]) k1 fuel)|].
  - by rewrite <- app_assoc.
  - simpl in Hf. lia.
  - done.
  - rewrite (frame_log k k1 _ F1). rewrite <- Ebs in Hlg. exact Hlg.
  - exact R1.
  - intros i. rewrite Sl1. apply Hu.
  - intros m. by rewrite Rf1.
  - done.
  - intros [] k2 (R2 & Sl2 & F2 & Rf2 & V2). rewrite Hvs in F2, V2.
    replace (Z.of_nat (length (pre ++ [b]))) with (Z.of_nat (length pre) + 1) in F2, V2 by (rewrite length_app; simpl; lia).
    split; [exact R2|]. split; [congruence|]. cbn [fmap list_fmap log_writes]. fold a. split; [|split].
    + rewrite F2, F1, (frame_disk k k1 _ F1). rewrite <- writes_to_one, writes_to_app. done.
    + intros m. by rewrite Rf2.
    + intros m. rewrite V2. rewrite over_cons. apply over_ext. by rewrite over_one.
Qed.

Lemma install_loop_spec start bs suf pre k fuel (recovering : bool) :
  bs = pre ++ suf -> (length suf <= fuel)%nat -> header_ok start bs -> logged k.(k_log) start bs ->
  ready [] k -> unlocked k ->
  (forall m, ref k m = if recovering then 0 else if decide (m ∈ suf) then 1 else 0) -> (length bs < NBUF)%nat \/ recovering = true ->
  let ws := home_writes start (Z.of_nat (length pre)) suf (view k) in
  runs (install_loop fuel recovering (Z.of_nat (length pre)) k) (fun _ k' => ready [] k' /\ k'.(k_slocks) = k.(k_slocks) /\
    frame k' = set_disk (writes_to ws k.(k_disk)) (frame k) /\ (forall m, ref k' m = 0) /\
    (forall m, view k' m = over ws (view k) m)).
Proof using DOK.
  revert pre k fuel. induction suf as [|b suf IH]; intros pre k fuel Ebs Hf Hh Hlg R Hu Hr Hlen ws; subst ws.
  { rewrite app_nil_r in Ebs. subst pre. destruct Hlg as (_ & _ & En & _).
    assert (E : install_loop fuel recovering (Z.of_nat (length bs)) k = Ok tt k).
    { destruct fuel; cbn [install_loop]; unfold getlog; rewrite bind_gets, En;
        by destruct (Z.ltb_spec (Z.of_nat (length bs)) (Z.of_nat (length bs))); [lia|]. }
    rewrite E. cbn [runs home_writes]. rewrite writes_to_nil. split; [exact R|]. split; [done|].
    split; [by destruct k|]. split; [|done]. intros m. rewrite Hr. destruct recovering; [done|].
    rewrite decide_False; [done|]. apply not_elem_of_nil. }
  destruct fuel as [|fuel]; [simpl in Hf; lia|]. cbn [install_loop]. unfold getlog. rewrite bind_gets.
  pose proof Hlg as (Ed & Es & En & _). rewrite Ebs in Hlg. pose proof (logged_at _ _ _ _ _ Hlg) as Eb.
  assert (Hin : b ∈ bs) by (rewrite Ebs; apply elem_mid).
  destruct (ho_home _ _ Hh b Hin) as [Hb Hhome]. destruct (ho_start _ _ Hh) as [Hs0 Hs1]. pose proof (ho_len _ _ Hh) as Hll.
  assert (Hbl : length bs = (length pre + S (length suf))%nat) by (rewrite Ebs, length_app; done).
  destruct (Z.ltb_spec (Z.of_nat (length pre)) (lh_n (k_log k))); [|lia].
  rewrite Ed, Es, Nat2Z.id, Eb, !u32_small by lia. set (a := start + Z.of_nat (length pre) + 1).
  assert (Hac : a ≠ b) by (unfold a; lia).
  assert (Hlog : forall j, Z.of_nat (length pre) <= j < Z.of_nat (length bs) -> start + j + 1 ∉ bs).
  { intros j Hj Hj'. destruct (ho_home _ _ Hh _ Hj'). lia. }
  assert (Hra : ref k a = 0).
  { rewrite Hr. destruct recovering; [done|]. rewrite decide_False; [done|]. intros Ha.
    apply (Hlog (Z.of_nat (length pre))); [lia|]. fold a. rewrite Ebs. apply elem_of_app. by right. }
  (* the message of recovery *)
  apply runs_bind. eapply (runs_mono _ (fun _ k0 => ready [] k0 /\ frame k0 = frame k /\ k0.(k_slocks) = k.(k_slocks) /\
    (forall m, view k0 m = view k m) /\ (forall m, ref k0 m = ref k m))).
  { destruct recovering; [|by cbn]. eapply runs_mono; [apply (printf_runs me pid d []); [exact R|apply not_elem_of_nil]|].
    intros [] k0 (R0 & F0 & Sl0 & _ & V0 & Rf0). done. }
  intros [] k0 (R0 & F0 & Sl0 & V0 & Rf0).
  step_by (install_step k0 a b (if recovering then [] else b :: suf) recovering); [exact R0| |exact Hac| | | | | |].
  { intros i. rewrite Sl0. apply Hu. }
  { intros m. rewrite Rf0, Hr. destruct recovering; [lia|]. case_decide; lia. }
  { intros m. rewrite Rf0, Hr. destruct recovering; [done|]. by case_decide. }
  { destruct recovering; [left; simpl; unfold NBUF; lia|]. right. rewrite Rf0, Hr, decide_True by by left.
    split; [done|]. destruct Hlen as [Hlen|]; [simpl; lia|done]. }
  { by rewrite Rf0. }
  { intros ->. rewrite Rf0, Hr, decide_True by by left. done. }
  intros [] k1 (R1 & Sl1 & F1 & Rf1 & V1). rewrite V0, F0, (frame_same_disk k k0 F0) in F1.
  replace (Z.of_nat (length pre) + 1) with (Z.of_nat (length (pre ++ [b]))) by (rewrite length_app; simpl; lia).
  pose proof (ho_nodup _ _ Hh) as Hnd. rewrite Ebs in Hnd. apply NoDup_app in Hnd as (_ & _ & Hnd).
  apply NoDup_cons in Hnd as [Hnb _].
  eapply runs_mono; [apply (IH (pre ++ [b]) k1 fuel)|].
  - by rewrite <- app_assoc.
  - simpl in Hf. lia.
  - done.
  - rewrite (frame_log k k1 _ F1). rewrite <- Ebs in Hlg. exact Hlg.
  - exact R1.
  - intros i. rewrite Sl1, Sl0. apply Hu.
  - intros m. rewrite Rf1, Rf0, Hr. destruct recovering; [done|].
    destruct (decide (m = b)) as [->|Hmb]; [by rewrite decide_False|].
    repeat case_decide; try done; set_solver.
  - done.
  - intros [] k2 (R2 & Sl2 & F2 & Rf2 & V2).
    assert (Hws : home_writes start (Z.of_nat (length (pre ++ [b]))) suf (view k1) =
      home_writes start (Z.of_nat (length pre) + 1) suf (view k)).
    { replace (Z.of_nat (length (pre ++ [b]))) with (Z.of_nat (length pre) + 1) by (rewrite length_app; simpl; lia).
      apply home_writes_ext. intros j Hj. rewrite V1, V0, decide_False; [done|].
      intros E. apply (Hlog j); [lia|]. by rewrite E. }
    rewrite Hws in F2, V2.
    split; [exact R2|]. split; [congruence|]. cbn [home_writes]. fold a. split; [|split].
    + rewrite F2, F1, (frame_disk k k1 _ F1). rewrite <- writes_to_one, writes_to_app. done.
    + done.
    + intros m. rewrite V2. rewrite over_cons. apply over_ext.
      rewrite over_one, V1, !V0. by case_decide.
Qed.

(** The header on the disk for the blocks [bs], in a block that held [h]. *)
Definition header (h : block) (bs : list Z) : block := write_blocks (store 4 h 0 (Z.of_nat (length bs))) 0 bs.

(** The writes of a commit, in order. *)
Definition commit_writes (start : Z) (bs : list Z) (f : Z -> block) : list (Z * block) :=
  log_writes start 0 (f <$> bs) ++ [(start, header (f start) bs)] ++
  ((fun b => (b, f b)) <$> bs) ++ [(start, header (header (f start) bs) [])].

Lemma log_writes_over start i vs f j :
  0 <= j < Z.of_nat (length vs) -> over (log_writes start i vs) f (start + (i + j) + 1) = vs !!! Z.to_nat j.
Proof.
  revert i j f. induction vs as [|v vs IH]; intros i j f Hj; [simpl in Hj; lia|]. cbn [log_writes].
  rewrite over_cons. destruct (decide (j = 0)) as [->|Hj0].
  - rewrite Z.add_0_r, over_not.
    + by rewrite over_one, decide_True.
    + clear. assert (forall i' x, i < i' -> x ∈ (log_writes start i' vs).*1 -> start + i + 1 < x) as H.
      { induction vs as [|u vs IH]; intros i' x Hi; cbn [log_writes fmap list_fmap fst]; [by intros ?%not_elem_of_nil|].
        rewrite elem_of_cons. intros [->|Hx]; [lia|]. apply (IH (i' + 1)); [lia|done]. }
      intros Hx. apply H in Hx; lia.
  - replace (i + j) with (i + 1 + (j - 1)) by lia. rewrite IH by (simpl in Hj; lia).
    replace (Z.to_nat j) with (S (Z.to_nat (j - 1))) by lia. done.
Qed.

Lemma log_writes_fst start i vs x : x ∈ (log_writes start i vs).*1 -> start + i + 1 <= x < start + i + 1 + Z.of_nat (length vs).
Proof.
  revert i. induction vs as [|v vs IH]; intros i; cbn [log_writes fmap list_fmap fst length]; [by intros ?%not_elem_of_nil|].
  rewrite elem_of_cons. intros [->|Hx]; [lia|]. apply IH in Hx. lia.
Qed.

Lemma home_writes_fmap start i bs f g :
  (forall j, 0 <= j < Z.of_nat (length bs) -> f (start + (i + j) + 1) = g (bs !!! Z.to_nat j)) ->
  home_writes start i bs f = (fun b => (b, g b)) <$> bs.
Proof.
  revert i. induction bs as [|b bs IH]; intros i H; [done|]. cbn [home_writes fmap list_fmap length] in *. f_equal.
  - f_equal. specialize (H 0 ltac:(lia)). by rewrite Z.add_0_r in H.
  - apply IH. intros j Hj. specialize (H (j + 1) ltac:(lia)). replace (i + 1 + j) with (i + (j + 1)) by lia.
    rewrite H. by replace (Z.to_nat (j + 1)) with (S (Z.to_nat j)) by lia.
Qed.

(** log.lh.n = 0 *)
Lemma clear_runs k :
  ready [] k -> let k' := set_log (set_lh 0 k.(k_log).(lh_block) k.(k_log)) k in
  modlog (fun l => set_lh 0 l.(lh_block) l) k = Ok tt k' /\ ready [] k' /\ k'.(k_slocks) = k.(k_slocks) /\
  k'.(k_disk) = k.(k_disk) /\ (forall m, ref k' m = ref k m) /\ (forall m, view k' m = view k m).
Proof.
  intros R k'. split; [done|]. split; [|done]. destruct R as [Hc [l C]]. split; [by eapply calm_parts|].
  exists l. destruct C. by constructor.
Qed.

Lemma home_not start bs i : header_ok start bs -> 0 <= i <= LOGBLOCKS -> start + i ∉ bs.
Proof. intros Hh Hi Hb. destruct (ho_home _ _ Hh _ Hb). lia. Qed.

(** [write_log] and the first [write_head]: the transaction is in the log. *)
Lemma commit_log_spec start bs k :
  header_ok start bs -> logged k.(k_log) start bs -> ready [] k -> unlocked k ->
  (forall m, ref k m = if decide (m ∈ bs) then 1 else 0) -> (length bs < NBUF)%nat ->
  let ws := log_writes start 0 (view k <$> bs) ++ [(start, header (view k start) bs)] in
  runs ((write_log ;; write_head) k) (fun _ k' => ready [] k' /\ k'.(k_slocks) = k.(k_slocks) /\
    frame k' = set_disk (writes_to ws k.(k_disk)) (frame k) /\ (forall m, ref k' m = ref k m) /\
    (forall m, view k' m = over ws (view k) m)).
Proof using DOK.
  intros Hh Hlg R Hu Hr Hlen ws. destruct (ho_start _ _ Hh) as [Hs0 Hs1]. pose proof (ho_len _ _ Hh) as Hll.
  step_by (write_log_loop_spec start bs bs [] k); [done|lia|done|done|exact R|exact Hu|exact Hr|done|].
  cbn [length Z.of_nat]. intros [] k1 (R1 & Sl1 & F1 & Rf1 & V1).
  pose proof (frame_log k k1 _ F1) as L1. pose proof Hlg as (Ed & Es & En & Eb).
  assert (Vs : view k1 start = view k start).
  { rewrite V1, over_not; [done|]. intros Hx%log_writes_fst. lia. }
  eapply runs_mono; [apply (write_head_step k1 bs start (Z.of_nat (length bs)) bs)|].
  - exact R1.
  - intros i. rewrite Sl1. apply Hu.
  - intros m. rewrite Rf1, Hr. case_decide; lia.
  - intros m. rewrite Rf1, Hr. by case_decide.
  - done.
  - by rewrite L1.
  - rewrite L1, Es. apply u32_small. unfold LOGBLOCKS, MAXOPBLOCKS in *. lia.
  - by rewrite L1.
  - by rewrite L1, Nat2Z.id.
  - intros [] k2 (R2 & Sl2 & F2 & Rf2 & V2). fold (header (view k1 start) bs) in F2, V2. rewrite Vs in F2, V2.
    split; [exact R2|]. split; [congruence|]. subst ws. split; [|split].
    + rewrite F2, F1, (frame_disk k k1 _ F1). rewrite <- writes_to_one, writes_to_app. done.
    + intros m. by rewrite Rf2, Rf1.
    + intros m. rewrite V2, over_app, over_one, V1. done.
Qed.

Lemma commit_spec start bs k :
  header_ok start bs -> bs ≠ [] -> logged k.(k_log) start bs -> ready [] k -> unlocked k ->
  (forall m, ref k m = if decide (m ∈ bs) then 1 else 0) -> (length bs < NBUF)%nat ->
  let ws := commit_writes start bs (view k) in
  runs (commit k) (fun _ k' => ready [] k' /\ k'.(k_slocks) = k.(k_slocks) /\
    frame k' = set_log (set_lh 0 k.(k_log).(lh_block) k.(k_log)) (set_disk (writes_to ws k.(k_disk)) (frame k)) /\
    (forall m, ref k' m = 0) /\ (forall m, view k' m = over ws (view k) m)).
Proof using DOK.
  intros Hh Hne Hlg R Hu Hr Hlen ws. destruct (ho_start _ _ Hh) as [Hs0 Hs1]. pose proof (ho_len _ _ Hh) as Hll.
  pose proof Hlg as (Ed & Es & En & Eb).
  unfold commit, getlog. rewrite bind_gets, En. assert (length bs ≠ 0%nat) by (by destruct bs).
  destruct (Z.ltb_spec 0 (Z.of_nat (length bs))); [|lia].
  apply runs_two. eapply runs_mono; [by apply (commit_log_spec start bs k)|].
  intros [] k1 (R1 & Sl1 & F1 & Rf1 & V1). pose proof (frame_log k k1 _ F1) as L1.
  step_by (install_loop_spec start bs bs [] k1 (Z.to_nat LOGBLOCKS) false); [done|lia|done|by rewrite L1|exact R1| | |by left|].
  { intros i. rewrite Sl1. apply Hu. }
  { intros m. by rewrite Rf1, Hr. }
  cbn [length Z.of_nat]. intros [] k2 (R2 & Sl2 & F2 & Rf2 & V2).
  assert (Hw : home_writes start 0 bs (view k1) = (fun b => (b, view k b)) <$> bs).
  { apply home_writes_fmap. intros j Hj. rewrite V1, over_app, over_one, decide_False by lia.
    rewrite log_writes_over by by rewrite length_fmap. apply list_lookup_total_fmap. lia. }
  cbn [length] in F2, V2. change (Z.of_nat 0) with 0 in F2, V2. rewrite Hw in F2, V2.
  destruct (clear_runs k2 R2) as (E3 & R3 & Sl3 & D3 & Rf3 & V3). set (k3 := set_log _ k2) in *.
  apply runs_bind. rewrite E3. cbn [runs].
  assert (Vs : view k3 start = header (view k start) bs).
  { rewrite V3, V2, over_not, V1, over_app, over_one, decide_True; [done..|].
    rewrite <- list_fmap_compose. rewrite (list_fmap_ext _ id), list_fmap_id by done.
    rewrite <- (Z.add_0_r start). apply home_not; [done|]. unfold LOGBLOCKS, MAXOPBLOCKS. lia. }
  pose proof (frame_log k1 k2 _ F2) as L2.
  eapply runs_mono; [apply (write_head_step k3 [] start 0 [])|].
  - exact R3.
  - intros i. rewrite Sl3, Sl2, Sl1. apply Hu.
  - intros m. rewrite Rf3, Rf2. lia.
  - intros m. by rewrite Rf3, Rf2.
  - simpl. unfold NBUF. lia.
  - change (k_log k3) with (set_lh 0 (lh_block (k_log k2)) (k_log k2)). cbn [set_lh l_dev]. by rewrite L2, L1.
  - change (k_log k3) with (set_lh 0 (lh_block (k_log k2)) (k_log k2)). cbn [set_lh l_start].
    rewrite L2, L1, Es. apply u32_small. unfold LOGBLOCKS, MAXOPBLOCKS in *. lia.
  - done.
  - done.
  - intros [] k4 (R4 & Sl4 & F4 & Rf4 & V4). rewrite Vs in F4, V4.
    change (write_blocks (store 4 ?h 0 0) 0 []) with (header h []) in F4, V4.
    split; [exact R4|]. split; [congruence|]. subst ws. split; [|split].
    + rewrite F4. change (frame k3) with (set_log (set_lh 0 (lh_block (k_log k2)) (k_log k2)) (frame k2)).
      rewrite D3, L2, L1, F2, F1, (frame_disk k1 k2 _ F2), (frame_disk k k1 _ F1).
      rewrite <- writes_to_one, !writes_to_app. unfold commit_writes. rewrite <- !app_assoc. done.
    + intros m. by rewrite Rf4, Rf3, Rf2.
    + intros m. unfold commit_writes. rewrite app_assoc, over_app, (over_app (_ <$> _)), over_one, V4, V3, V2.
      case_decide; [done|]. apply over_ext. apply V1.
Qed.
End logspec.
