(* ===== verification/LogCrash.v ===== *)
(** * Crashes and recovery

    [durable] is what a disk with a log stands for: the contents recovery would
    give it.  Recovery computes it, and a crash in the middle of recovery does
    not change it; the writes of [commit] change it once, at the write of the
    header, from the contents before the transaction to those after it. *)

From Stdlib Require Import ZArith Lia.
From stdpp Require Import base list numbers strings gmap.
From S2P Require Import Prelude Types Mem Layout Kalloc State Spinlock Printf Proc ProcSpec Sleeplock Seq Bio BioSpec BioInit Log LogSpec.
Open Scope Z_scope.

(** ** The header block *)

(** The blocks a header names. *)
Definition log_blocks (h : block) : list Z := hdr_block h <$> seqZ 0 (hdr_n h).

Lemma i32_mod x : i32 (x mod 256 ^ Z.of_nat 4) = i32 x.
Proof. unfold i32. change (256 ^ Z.of_nat 4) with (2 ^ 32). by rewrite Zplus_mod_idemp_l. Qed.

Lemma load_write_blocks b i bs a n :
  0 <= i -> a + Z.of_nat n <= 4 + 4 * i -> load n (write_blocks b i bs) a = load n b a.
Proof.
  revert b i. induction bs as [|x bs IH]; intros b i Hi Ha; [done|]. cbn [write_blocks].
  rewrite IH by lia. apply load_store_ne. lia.
Qed.

Lemma write_blocks_at b i bs j :
  0 <= i -> (forall x, x ∈ bs -> - 2 ^ 31 <= x < 2 ^ 31) -> (j < length bs)%nat ->
  hdr_block (write_blocks b i bs) (i + Z.of_nat j) = bs !!! j.
Proof.
  revert b i j. induction bs as [|x bs IH]; intros b i j Hi Hx Hj; [simpl in Hj; lia|]. cbn [write_blocks].
  destruct j as [|j].
  - rewrite Z.add_0_r. unfold hdr_block. rewrite load_write_blocks by lia. rewrite load_store_eq, i32_mod.
    apply i32_small, Hx. by left.
  - replace (i + Z.of_nat (S j)) with (i + 1 + Z.of_nat j) by lia. rewrite IH; [done|lia| |simpl in Hj; lia].
    intros y Hy. apply Hx. by right.
Qed.

Lemma hdr_n_header h bs : Z.of_nat (length bs) < 2 ^ 31 -> hdr_n (header h bs) = Z.of_nat (length bs).
Proof.
  intros Hl. unfold header, hdr_n. rewrite load_write_blocks by lia. rewrite load_store_eq, i32_mod. apply i32_small. lia.
Qed.

(** What [write_head] writes, [read_head] reads. *)
Lemma log_blocks_header h start bs : header_ok start bs -> log_blocks (header h bs) = bs.
Proof.
  intros Hh. pose proof (ho_len _ _ Hh) as Hl. unfold log_blocks.
  rewrite hdr_n_header by (unfold LOGBLOCKS, MAXOPBLOCKS in *; lia). apply list_eq. intros j.
  destruct (decide (j < length bs)%nat) as [Hj|Hj].
  - rewrite list_lookup_fmap, lookup_seqZ_lt by lia. rewrite (list_lookup_lookup_total_lt bs j Hj). cbn [fmap option_fmap option_map].
    f_equal. unfold header. apply write_blocks_at; [lia| |done]. intros x Hx. destruct (ho_home _ _ Hh x Hx). lia.
  - rewrite lookup_ge_None_2 by (rewrite length_fmap, length_seqZ; lia). by rewrite lookup_ge_None_2 by lia.
Qed.

Lemma log_blocks_empty h : log_blocks (header h []) = [].
Proof. unfold log_blocks. by rewrite hdr_n_header by (simpl; lia). Qed.

(** ** What the disk stands for *)

Definition log_area (start m : Z) : Prop := start <= m <= start + LOGBLOCKS.

Definition durable (start : Z) (D : disk) (m : Z) : block :=
  over (home_writes start 0 (log_blocks (disk_read D start)) (disk_read D)) (disk_read D) m.

Definition log_ok (start : Z) (D : disk) : Prop :=
  0 <= hdr_n (disk_read D start) /\ header_ok start (log_blocks (disk_read D start)).

Lemma header_ok_nil start : 0 <= start -> start + LOGBLOCKS < 2 ^ 31 -> header_ok start [].
Proof. intros. split; [done|done|constructor|by intros ? ?%not_elem_of_nil]. Qed.

Lemma length_log_blocks h : 0 <= hdr_n h -> Z.of_nat (length (log_blocks h)) = hdr_n h.
Proof. intros. unfold log_blocks. rewrite length_fmap, length_seqZ. lia. Qed.

Lemma over_in ws f g m : m ∈ ws.*1 -> over ws f m = over ws g m.
Proof.
  induction ws as [|[n b] ws IH] using rev_ind; intros Hm; [by apply not_elem_of_nil in Hm|].
  rewrite !over_app, !over_one. case_decide; [done|]. apply IH.
  rewrite fmap_app, elem_of_app in Hm. destruct Hm as [Hm|Hm]; [done|].
  apply list_elem_of_singleton in Hm. by simpl in Hm.
Qed.

Lemma over_fmap bs g f m : over ((fun b => (b, g b)) <$> bs) f m = if decide (m ∈ bs) then g m else f m.
Proof.
  induction bs as [|b bs IH] using rev_ind; [by rewrite decide_False by apply not_elem_of_nil|].
  rewrite fmap_app, over_app. cbn [fmap list_fmap]. rewrite over_one, IH.
  destruct (decide (m = b)) as [->|Hb].
  - rewrite decide_True; [done|]. apply elem_of_app. right. by left.
  - repeat case_decide; set_solver.
Qed.

Lemma fst_take (ws : list (Z * block)) j m : m ∈ (take j ws).*1 -> m ∈ ws.*1.
Proof. rewrite fmap_take. intros [i Hi]%list_elem_of_lookup. apply lookup_take_Some in Hi as [Hi _]. by eapply list_elem_of_lookup_2. Qed.

(** A disk whose header is empty stands for itself. *)
Lemma durable_empty start D m : log_blocks (disk_read D start) = [] -> durable start D m = disk_read D m.
Proof. intros H. unfold durable. by rewrite H. Qed.

Lemma home_take start bs f j m :
  header_ok start bs -> log_area start m -> over (take j (home_writes start 0 bs f)) f m = f m.
Proof.
  intros Hh Hm. apply over_not. intros Hx%fst_take. rewrite home_writes_fst in Hx.
  destruct (ho_home _ _ Hh _ Hx). unfold log_area in *. lia.
Qed.

(** ** Recovery *)

Section recovery.
Context (me : nat) (pid : Z) (d : Z) `{W : Wakes} `{D : Disk} `{DOK : !DiskOK}.
Abbreviation view := (view d).
Abbreviation ref := (ref d).
Abbreviation ready := (ready me pid d).

(** A kernel that has booted with the disk [dk]: the cache holds nothing in use. *)
Record rebooted (k : kernel) (dk : disk) : Prop := {
  rb_ready : ready [] k;
  rb_unlocked : unlocked k;
  rb_ref : forall m, ref k m = 0;
  rb_disk : k.(k_disk) = dk;
  rb_head : Z.of_nat (length k.(k_log).(lh_block)) = LOGBLOCKS }.

Lemma rebooted_view k dk m : rebooted k dk -> view k m = disk_read dk m.
Proof. intros Rb. destruct (rb_ready _ _ Rb) as [_ [l C]]. rewrite (view_clean d k l m C) by apply Rb. by rewrite (rb_disk _ _ Rb). Qed.

(** log.lh.block[i] = hb->block[i], the entries of [pre] being done. *)
Lemma read_head_loop_spec hb bs suf pre old k fuel :
  bs = pre ++ suf -> (length suf <= fuel)%nat -> Z.of_nat (length bs) <= LOGBLOCKS ->
  (forall j, (j < length bs)%nat -> hdr_block hb (Z.of_nat j) = bs !!! j) ->
  k.(k_log).(lh_n) = Z.of_nat (length bs) -> k.(k_log).(lh_block) = pre ++ old -> (length suf <= length old)%nat ->
  read_head_loop fuel hb (Z.of_nat (length pre)) k =
    Ok tt (set_log (set_lh (Z.of_nat (length bs)) (bs ++ drop (length suf) old) k.(k_log)) k).
Proof.
  revert pre old k fuel. induction suf as [|b suf IH]; intros pre old k fuel Ebs Hf Hl Hb En Eo Ho.
  - rewrite app_nil_r in Ebs. subst pre.
    assert (E : read_head_loop fuel hb (Z.of_nat (length bs)) k = Ok tt k).
    { destruct fuel; cbn [read_head_loop]; unfold getlog; rewrite bind_gets, En;
        by destruct (Z.ltb_spec (Z.of_nat (length bs)) (Z.of_nat (length bs))); [lia|]. }
    rewrite E, drop_0, <- Eo, <- En. destruct k as [], k_log; done.
  - destruct fuel as [|fuel]; [simpl in Hf; lia|]. destruct old as [|o old]; [simpl in Ho; lia|].
    cbn [read_head_loop]. unfold getlog. rewrite bind_gets, En.
    assert (Hlen : length bs = (length pre + S (length suf))%nat) by (by rewrite Ebs, length_app).
    destruct (Z.ltb_spec (Z.of_nat (length pre)) (Z.of_nat (length bs))); [|lia].
    assert (Eb : hdr_block hb (Z.of_nat (length pre)) = b).
    { rewrite Hb by lia. rewrite Ebs, (lookup_total_app_r pre) by lia. by rewrite Nat.sub_diag. }
    assert (Ei : i32 b = b) by (rewrite <- Eb; apply i32_small, i32_range).
    unfold set_lh_block. destruct (Z.ltb_spec (Z.of_nat (length pre)) LOGBLOCKS); [|lia].
    unfold modlog. rewrite bind_modify. rewrite Nat2Z.id, Eo, Eb, Ei, insert_app_r_alt, Nat.sub_diag by lia.
    cbn [insert list_insert].
    replace (Z.of_nat (length pre) + 1) with (Z.of_nat (length (pre ++ [b]))) by (rewrite length_app; simpl; lia).
    rewrite (IH (pre ++ [b]) old); [by destruct k as [], k_log|by rewrite <- app_assoc|simpl in Hf; lia|done|done|done| |simpl in Ho; lia].
    cbn. by rewrite <- app_assoc.
Qed.

Lemma held_same k k' n b :
  k'.(k_bcache) = k.(k_bcache) -> k'.(k_slocks) = k.(k_slocks) -> k'.(k_disk) = k.(k_disk) ->
  held pid d k n b -> held pid d k' n b.
Proof. intros E1 E2 E3. unfold held, BioSpec.view, BioSpec.ref, BioSpec.look. by rewrite E1, E2, E3. Qed.

Lemma ready_log k L : ready [] k -> ready [] (set_log L k).
Proof. apply (ready_modify me pid d [] k (set_log L)); by intros []. Qed.

(** The header as the disk has it becomes the header in memory. *)
Lemma read_head_spec k start bs :
  ready [] k -> unlocked k -> (forall m, ref k m = 0) -> k.(k_log).(l_dev) = d -> u32 k.(k_log).(l_start) = start ->
  Z.of_nat (length k.(k_log).(lh_block)) = LOGBLOCKS -> Z.of_nat (length bs) <= LOGBLOCKS ->
  0 <= hdr_n (view k start) -> log_blocks (view k start) = bs ->
  runs (read_head k) (fun _ k' => ready [] k' /\ k'.(k_slocks) = k.(k_slocks) /\
    frame k' = set_log (set_lh (Z.of_nat (length bs)) (bs ++ drop (length bs) k.(k_log).(lh_block)) k.(k_log)) (frame k) /\
    (forall m, ref k' m = 0) /\ (forall m, view k' m = view k m)).
Proof using DOK.
  intros R Hu Hr Ed Es Hlb Hl Hn Hbs. unfold read_head, getlog. rewrite bind_gets, Ed, Es.
  assert (Hhn : hdr_n (view k start) = Z.of_nat (length bs)) by (rewrite <- Hbs, length_log_blocks by done; done).
  step_by (bread_runs me pid d [] k start); [exact R|apply outside_nil| |rewrite Hr; lia|].
  { apply (room_unlocked me pid d [] k start []); [exact R|exact Hu| |simpl; unfold NBUF; lia]. intros m Hm. by rewrite Hr in Hm. }
  intros b k1 (R1 & Hb1 & F1 & _ & V1 & Rf1 & Sl1 & Sln).
  assert (Hd : b_data (k_bcache k1 !!! b) = view k start) by (rewrite <- V1; apply Hb1).
  unfold getb. rewrite bind_gets, Hd. unfold modlog. rewrite bind_modify, Hhn.
  assert (L1 : k_log k1 = k_log k) by (by apply (f_equal k_log) in F1).
  set (k2 := set_log _ k1). apply runs_bind.
  rewrite (read_head_loop_spec (view k start) bs bs [] (lh_block (k_log k)) k2); [|done|lia|done| | | |lia].
  2: { intros j Hj. symmetry. apply list_lookup_total_correct. rewrite <- Hbs. unfold log_blocks.
       by rewrite list_lookup_fmap, lookup_seqZ_lt by lia. }
  2: done.
  2: { cbn. by rewrite L1. }
  cbn [runs]. set (k3 := set_log _ k2).
  eapply runs_mono; [apply (brelse_runs me pid d [] k3 start b)|].
  - by apply ready_log, ready_log.
  - apply outside_nil.
  - by apply (held_same k1).
  - change (ref k3 start) with (ref k1 start). rewrite Rf1, Hr, decide_True by done. lia.
  - intros _. change (view k3 start) with (view k1 start). rewrite V1. change (k_disk k3) with (k_disk k1).
    rewrite (frame_same_disk _ _ F1). destruct R as [_ [l C]]. by apply (view_clean d k l).
  - intros [] k4 (R4 & F4 & Sl4 & _ & V4 & Rf4). split; [exact R4|]. split; [|split; [|split]].
    + rewrite Sl4. change (k_slocks k3) with (k_slocks k1). rewrite Sl1. by apply delete_insert_id.
    + rewrite F4. unfold k3, k2. cbn [set_log k_log]. 
      transitivity (set_log (set_lh (Z.of_nat (length bs)) (bs ++ drop (length bs) (lh_block (k_log k))) (k_log k1)) (frame k1)); [done|].
      by rewrite F1, L1.
    + intros m. rewrite Rf4. change (ref k3 m) with (ref k1 m). rewrite Rf1, Hr. case_decide; lia.
    + intros m. rewrite V4. change (view k3 m) with (view k1 m). apply V1.
Qed.

(** The writes of recovery, in order. *)
Definition recovery_writes (start : Z) (f : Z -> block) : list (Z * block) :=
  home_writes start 0 (log_blocks (f start)) f ++ [(start, header (f start) [])].

Lemma recover_spec k start :
  ready [] k -> unlocked k -> (forall m, ref k m = 0) -> k.(k_log).(l_dev) = d -> k.(k_log).(l_start) = start ->
  Z.of_nat (length k.(k_log).(lh_block)) = LOGBLOCKS ->
  0 <= hdr_n (view k start) -> header_ok start (log_blocks (view k start)) ->
  runs (recover_from_log k) (fun _ k' => ready [] k' /\ k'.(k_slocks) = k.(k_slocks) /\ (forall m, ref k' m = 0) /\
    k'.(k_disk) = writes_to (recovery_writes start (view k)) k.(k_disk)).
Proof using DOK.
  intros R Hu Hr Ed Es Hlb Hn Hh. set (bs := log_blocks (view k start)) in *.
  destruct (ho_start _ _ Hh) as [Hs0 Hs1]. pose proof (ho_len _ _ Hh) as Hll.
  assert (Hu32 : u32 start = start) by (apply u32_small; unfold LOGBLOCKS, MAXOPBLOCKS in *; lia).
  unfold recover_from_log.
  step_by (read_head_spec k start bs); [exact R|exact Hu|exact Hr|exact Ed|by rewrite Es|exact Hlb|exact Hll|exact Hn|done|].
  intros [] k1 (R1 & Sl1 & F1 & Rf1 & V1).
  assert (L1 : k_log k1 = set_lh (Z.of_nat (length bs)) (bs ++ drop (length bs) k.(k_log).(lh_block)) k.(k_log))
    by (by apply (f_equal k_log) in F1).
  assert (D1 : k_disk k1 = k_disk k) by (by apply (f_equal k_disk) in F1).
  step_by (install_loop_spec me pid d start bs bs [] k1 (Z.to_nat LOGBLOCKS) true); [done|lia|exact Hh| |exact R1| |done|by right|].
  { rewrite L1. split; [done|]. split; [done|]. split; [done|]. cbn. by rewrite take_app_length. }
  { intros i. rewrite Sl1. apply Hu. }
  intros [] k2 (R2 & Sl2 & F2 & Rf2 & V2). cbn [length] in F2, V2. change (Z.of_nat 0) with 0 in F2, V2.
  rewrite (home_writes_ext start 0 bs (view k1) (view k)) in F2, V2 by done.
  pose proof (frame_log k1 k2 _ F2) as L2. rewrite L1 in L2.
  destruct (clear_runs me pid d k2 R2) as (E3 & R3 & Sl3 & D3 & Rf3 & V3). set (k3 := set_log _ k2) in *.
  apply runs_bind. rewrite E3. cbn [runs].
  assert (Vs : view k3 start = view k start).
  { rewrite V3, V2, over_not, V1; [done|]. rewrite home_writes_fst. rewrite <- (Z.add_0_r start).
    apply home_not; [done|]. unfold LOGBLOCKS, MAXOPBLOCKS. lia. }
  assert (L3 : k_log k3 = set_lh 0 (lh_block (k_log k2)) (k_log k2)) by done.
  eapply runs_mono; [apply (write_head_step me pid d k3 [] start 0 [])|].
  - exact R3.
  - intros i. rewrite Sl3, Sl2, Sl1. apply Hu.
  - intros m. rewrite Rf3, Rf2. lia.
  - intros m. by rewrite Rf3, Rf2.
  - simpl. unfold NBUF. lia.
  - by rewrite L3, L2.
  - rewrite L3, L2. cbn [set_lh l_start]. by rewrite Es.
  - done.
  - done.
  - intros [] k4 (R4 & Sl4 & F4 & Rf4 & V4). rewrite Vs in F4.
    split; [exact R4|]. split; [congruence|]. split; [intros m; by rewrite Rf4, Rf3, Rf2|].
    rewrite (frame_disk k3 k4 _ F4), D3, (frame_disk k1 k2 _ F2), D1.
    by rewrite <- writes_to_one, writes_to_app.
Qed.

Lemma recover_log_ok start D0 j :
  log_ok start D0 -> log_ok start (writes_to (take j (recovery_writes start (disk_read D0))) D0) /\
  forall m, m ≠ start -> durable start (writes_to (take j (recovery_writes start (disk_read D0))) D0) m = durable start D0 m.
Proof.
  intros [Hn Hh]. unfold recovery_writes. set (bs := log_blocks (disk_read D0 start)) in *. set (f := disk_read D0) in *.
  rewrite take_app. set (hw := home_writes start 0 bs f).
  destruct (decide (j <= length hw)%nat) as [Hj|Hj].
  - replace (j - length hw)%nat with 0%nat by lia. rewrite take_0, app_nil_r.
    set (D1 := writes_to (take j hw) D0).
    assert (Hf : forall m, log_area start m -> disk_read D1 m = f m).
    { intros m Hm. unfold D1. rewrite read_over. by apply home_take. }
    assert (Hs : disk_read D1 start = f start) by (apply Hf; unfold log_area, LOGBLOCKS, MAXOPBLOCKS; lia).
    split; [unfold log_ok; by rewrite Hs|]. intros m Hne. unfold durable. rewrite Hs. fold bs f.
    rewrite (home_writes_ext start 0 bs (disk_read D1) f).
    2: { intros i Hi. apply Hf. pose proof (ho_len _ _ Hh). unfold log_area. lia. }
    fold hw. destruct (decide (m ∈ hw.*1)) as [Hm|Hm]; [by apply over_in|]. rewrite !over_not by done.
    unfold D1. rewrite read_over. apply over_not. by intros ?%fst_take.
  - rewrite (take_ge hw) by lia. rewrite (take_ge [_]) by (simpl; lia). set (D1 := writes_to _ D0).
    assert (Hs : disk_read D1 start = header (f start) []).
    { unfold D1. by rewrite read_over, over_app, over_one, decide_True. }
    split; [unfold log_ok; rewrite Hs, hdr_n_header, log_blocks_empty by (simpl; lia); split; [simpl; lia|]; apply header_ok_nil; apply Hh|].
    intros m Hne. rewrite durable_empty by (by rewrite Hs, log_blocks_empty).
    unfold D1. by rewrite read_over, over_app, over_one, decide_False.
Qed.

Lemma initlog_spec k dk sb start :
  rebooted k dk -> sb.(sb_logstart) = start -> log_ok start dk ->
  runs (initlog d sb k) (fun _ k' => ready [] k' /\ unlocked k' /\ (forall m, ref k' m = 0) /\
    k'.(k_disk) = writes_to (recovery_writes start (disk_read dk)) dk).
Proof using DOK.
  intros Rb Es [Hn Hh]. unfold initlog. destruct (Z.leb_spec BSIZE (4 + 4 * LOGBLOCKS)) as [Hb|_]; [vm_compute in Hb; by destruct Hb|].
  unfold initlock, modlog. rewrite !bind_modify. cbn [set_locks k_log].
  set (k1 := set_log _ (set_locks _ k)).
  destruct (ho_start _ _ Hh) as [Hs0 Hs1].
  assert (R1 : ready [] k1).
  { destruct (rb_ready _ _ Rb) as [Hc [l C]]. split; [|exists l; by destruct C].
    destruct Hc. split; [|done..]. intros lk. cbn. rewrite decide_False by apply not_elem_of_nil. apply lookup_delete_None. right.
    rewrite calm_locks. by rewrite decide_False by apply not_elem_of_nil. }
  assert (V : forall m, view k1 m = disk_read dk m) by (intros m; apply (rebooted_view k dk m Rb)).
  pose proof (rebooted_view k dk start Rb) as Vs. 
  eapply runs_mono; [apply (recover_spec k1 start)|].
  - exact R1.
  - apply Rb.
  - apply Rb.
  - done.
  - cbn. rewrite Es. apply i32_small. unfold LOGBLOCKS, MAXOPBLOCKS in *. lia.
  - apply Rb.
  - by rewrite V.
  - by rewrite V.
  - intros [] k' (R' & Sl & Rf & Dk). split; [exact R'|]. split; [intros i; rewrite Sl; apply Rb|]. split; [exact Rf|].
    rewrite Dk. change (k_disk k1) with (k_disk k). rewrite (rb_disk _ _ Rb). f_equal. unfold recovery_writes. rewrite V.
    f_equal. by apply home_writes_ext.
Qed.

Lemma linked_rebooted k0 k :
  calm me pid [] k0 -> blank d k0 -> linked k0 NBUF k -> Z.of_nat (length k0.(k_log).(lh_block)) = LOGBLOCKS ->
  rebooted k k0.(k_disk).
Proof.
  intros Hc Hb H Hl. destruct (ready_linked me pid d k0 k Hc Hb H) as [R Hr]. split; [exact R| |exact Hr| |].
  - intros i. destruct R as [_ [l C]]. destruct (k_slocks k !! SlBuf i) as [x|] eqn:Ex; [|done]. exfalso.
    destruct (ca_lock _ _ _ C i (ex_intro _ x Ex)) as [Hi _]. by rewrite (li_locks _ _ _ H i Hi) in Ex.
  - exact (f_equal k_disk (li_rest _ _ _ H)).
  - rewrite <- Hl. exact (f_equal (fun k => Z.of_nat (length (lh_block (k_log k)))) (li_rest _ _ _ H)).
Qed.

Lemma recovery_empties start dk : log_blocks (disk_read (writes_to (recovery_writes start (disk_read dk)) dk) start) = [].
Proof. unfold recovery_writes. rewrite read_over, over_app, over_one, decide_True by done. apply log_blocks_empty. Qed.

Lemma recovery_durable start dk m : log_ok start dk -> m ≠ start ->
  disk_read (writes_to (recovery_writes start (disk_read dk)) dk) m = durable start dk m.
Proof.
  intros Hok Hm. rewrite <- (durable_empty start) by apply recovery_empties.
  destruct (recover_log_ok start dk (length (recovery_writes start (disk_read dk))) Hok) as [_ H].
  rewrite take_ge in H by done. by apply H.
Qed.

Lemma initlog_durable k dk sb start : rebooted k dk -> sb.(sb_logstart) = start -> log_ok start dk ->
  runs (initlog d sb k) (fun _ k' => forall m, m ≠ start -> disk_read k'.(k_disk) m = durable start dk m).
Proof using DOK.
  intros Rb Es Hok. eapply runs_mono; [by apply initlog_spec|]. intros [] k' (_ & _ & _ & ->) m Hm. by apply recovery_durable.
Qed.

(** C13. Recovery.  A kernel that boots with a disk whose log is well formed copies
    the blocks of a committed transaction home: afterwards the log is empty and
    every block outside the log holds what the disk stood for.  A crash after any
    number of its writes leaves a disk that is well formed and stands for the same,
    so recovering again gives the same contents. *)
Theorem initlog_recovers k dk sb start :
  rebooted k dk -> sb.(sb_logstart) = start -> log_ok start dk ->
  runs (initlog d sb k) (fun _ k' => exists ws, k'.(k_disk) = writes_to ws dk /\
    log_blocks (disk_read k'.(k_disk) start) = [] /\
    (forall m, m ≠ start -> disk_read k'.(k_disk) m = durable start dk m) /\
    forall j, let crashed := writes_to (take j ws) dk in
      log_ok start crashed /\ forall m, m ≠ start -> durable start crashed m = durable start dk m).
Proof using DOK.
  intros Rb Es Hok. eapply runs_mono; [by apply initlog_spec|]. intros [] k' (_ & _ & _ & Dk).
  exists (recovery_writes start (disk_read dk)). rewrite Dk. split; [done|]. split; [apply recovery_empties|].
  split; [by intros m Hm; apply recovery_durable|by intros j; apply recover_log_ok].
Qed.
End recovery.

(** ** Commit *)

Section committed.
Context (start : Z) (bs : list Z) (f : Z -> block) (dk : disk) (Hh : header_ok start bs).
Context (Hempty : log_blocks (disk_read dk start) = []) (Hn0 : 0 <= hdr_n (disk_read dk start)).
Context (Hclean : forall m, m ∉ bs -> f m = disk_read dk m).

(** Before the header is written only the log has changed. *)
Lemma crash_before j : let D1 := writes_to (take j (log_writes start 0 (f <$> bs))) dk in
  log_ok start D1 /\ forall m, ~ log_area start m -> durable start D1 m = durable start dk m.
Proof using Hh Hempty Hn0.
  intros D1. pose proof (ho_len _ _ Hh) as Hl.
  assert (Hr : forall m, m = start \/ ~ log_area start m -> disk_read D1 m = disk_read dk m).
  { intros m Hm. unfold D1. rewrite read_over. apply over_not. intros Hx%fst_take%log_writes_fst.
    rewrite length_fmap in Hx. unfold log_area in Hm. lia. }
  assert (Hs : disk_read D1 start = disk_read dk start) by (apply Hr; by left).
  split.
  - unfold log_ok. rewrite Hs, Hempty. split; [done|]. apply header_ok_nil; apply Hh.
  - intros m Hm. rewrite !durable_empty by (rewrite ?Hs; done). apply Hr. by right.
Qed.

(** Afterwards the log stands for the new contents, however much of it has been
    copied home. *)
Lemma crash_after j : let D1 := writes_to (log_writes start 0 (f <$> bs) ++ [(start, header (f start) bs)] ++
    take j ((fun b => (b, f b)) <$> bs)) dk in
  log_ok start D1 /\ forall m, ~ log_area start m -> durable start D1 m = f m.
Proof using Hh Hclean.
  intros D1. pose proof (ho_len _ _ Hh) as Hl. set (hw := (fun b => (b, f b)) <$> bs).
  assert (Hfst : hw.*1 = bs).
  { unfold hw. rewrite <- list_fmap_compose. rewrite (list_fmap_ext _ id), list_fmap_id by done. done. }
  assert (Ha : forall m, log_area start m -> m ∉ (take j hw).*1).
  { intros m Hm Hx%fst_take. rewrite Hfst in Hx. destruct (ho_home _ _ Hh _ Hx). unfold log_area in Hm. lia. }
  assert (Hs : disk_read D1 start = header (f start) bs).
  { unfold D1. rewrite read_over, app_assoc, over_app, (over_not (take j hw)), over_app, over_one, decide_True; [done..|].
    apply Ha. unfold log_area, LOGBLOCKS, MAXOPBLOCKS. lia. }
  assert (Hlb : log_blocks (disk_read D1 start) = bs) by (rewrite Hs; by apply (log_blocks_header _ start)).
  split.
  - unfold log_ok. rewrite Hlb, Hs, hdr_n_header by (unfold LOGBLOCKS, MAXOPBLOCKS in *; lia). split; [lia|done].
  - intros m Hm. unfold durable. rewrite Hlb, (home_writes_fmap start 0 bs _ f).
    + rewrite over_fmap. case_decide as Hb; [done|]. unfold D1. rewrite read_over, over_not; [by rewrite Hclean|].
      rewrite !fmap_app, !elem_of_app. intros [Hx|[Hx|Hx]].
      * apply log_writes_fst in Hx. rewrite length_fmap in Hx. apply Hm. unfold log_area. lia.
      * apply list_elem_of_singleton in Hx. cbn in Hx. apply Hm. unfold log_area, LOGBLOCKS, MAXOPBLOCKS. lia.
      * apply Hb. rewrite <- Hfst. by eapply fst_take.
    + intros i Hi. unfold D1. rewrite read_over, app_assoc, over_app, (over_not (take j hw)).
      * rewrite over_app, over_one, decide_False by lia. rewrite log_writes_over by by rewrite length_fmap.
        apply list_lookup_total_fmap. lia.
      * apply Ha. unfold log_area. lia.
Qed.

Lemma crash_done j : (length (commit_writes start bs f) <= j)%nat ->
  let D1 := writes_to (take j (commit_writes start bs f)) dk in
  log_ok start D1 /\ forall m, ~ log_area start m -> durable start D1 m = f m.
Proof using Hh Hclean.
  intros Hj. rewrite take_ge by done. intros D1. pose proof (ho_len _ _ Hh) as Hl.
  assert (Hs : disk_read D1 start = header (header (f start) bs) []).
  { unfold D1, commit_writes. by rewrite read_over, !app_assoc, over_app, over_one, decide_True. }
  split.
  - unfold log_ok. rewrite Hs, hdr_n_header, log_blocks_empty by (simpl; lia). split; [simpl; lia|]. apply header_ok_nil; apply Hh.
  - intros m Hm. assert (m ≠ start) by (intros ->; apply Hm; unfold log_area, LOGBLOCKS, MAXOPBLOCKS; lia).
    rewrite durable_empty by (by rewrite Hs, log_blocks_empty).
    unfold D1, commit_writes. rewrite read_over, !app_assoc, over_app, over_one, decide_False by done.
    rewrite over_app, over_fmap. case_decide; [done|]. rewrite over_not; [by rewrite Hclean|].
    rewrite fmap_app, elem_of_app. intros [Hx|Hx].
    + apply log_writes_fst in Hx. rewrite length_fmap in Hx. apply Hm. unfold log_area. lia.
    + apply list_elem_of_singleton in Hx. by cbn in Hx.
Qed.

Lemma length_log_writes i (vs : list block) : length (log_writes start i vs) = length vs.
Proof. revert i. induction vs as [|v vs IH]; intros i; [done|]. cbn. by rewrite IH. Qed.

(** The disk stands for the old contents up to the write of the header and for
    the new ones from then on. *)
Lemma commit_crash j : let D1 := writes_to (take j (commit_writes start bs f)) dk in
  log_ok start D1 /\ forall m, ~ log_area start m ->
    durable start D1 m = if decide (j <= length bs)%nat then durable start dk m else f m.
Proof using Hh Hclean Hempty Hn0.
  assert (Hlw : length (log_writes start 0 (f <$> bs)) = length bs) by (by rewrite length_log_writes, length_fmap).
  case_decide as Hj.
  - unfold commit_writes. rewrite take_app_le by lia. apply crash_before.
  - destruct (decide (length (commit_writes start bs f) <= j)%nat) as [Hd|Hd]; [by apply crash_done|].
    unfold commit_writes in *. rewrite take_app_ge, Hlw by lia.
    rewrite !length_app, Hlw, length_fmap in Hd. cbn [length] in Hd.
    replace (j - length bs)%nat with (S (j - length bs - 1))%nat by lia. cbn [app take].
    rewrite take_app_le by (rewrite length_fmap; lia). apply crash_after.
Qed.
End committed.

(** What [commit] starts from: the blocks [bs] are logged and pinned in the cache,
    nothing else is in use, and the header on the disk is empty. *)
Record transaction (me : nat) (pid d start : Z) (bs : list Z) (k : kernel) : Prop := {
  tx_header : header_ok start bs;
  tx_some : bs ≠ [];
  tx_logged : logged d k.(k_log) start bs;
  tx_ready : ready me pid d [] k;
  tx_unlocked : unlocked k;
  tx_pinned : forall m, ref d k m = if decide (m ∈ bs) then 1 else 0;
  tx_empty : hdr_n (disk_read k.(k_disk) start) = 0 }.

(** The run of [commit] and what every crash during it leaves behind. *)
Lemma commit_atomic me pid d `{W : Wakes} `{D : Disk} `{DOK : !DiskOK} start bs k :
  transaction me pid d start bs k -> (length bs < NBUF)%nat ->
  let ws := commit_writes start bs (view d k) in
  runs (commit k) (fun _ k' => ready me pid d [] k' /\ k'.(k_slocks) = k.(k_slocks) /\
    frame k' = set_log (set_lh 0 k.(k_log).(lh_block) k.(k_log)) (set_disk (writes_to ws k.(k_disk)) (frame k)) /\
    (forall m, ref d k' m = 0) /\ hdr_n (disk_read (writes_to ws k.(k_disk)) start) = 0 /\
    (forall m, ~ log_area start m -> disk_read (writes_to ws k.(k_disk)) m = view d k m) /\
    forall j, let crashed := writes_to (take j ws) k.(k_disk) in
      log_ok start crashed /\ forall m, ~ log_area start m ->
        durable start crashed m = if decide (j <= length bs)%nat then disk_read k.(k_disk) m else view d k m).
Proof.
  intros [Hh Hne Hlg R Hu Hr He] Hlen ws. destruct (ho_start _ _ Hh) as [Hs0 Hs1].
  assert (Hlb : log_blocks (disk_read (k_disk k) start) = []) by (unfold log_blocks; by rewrite He).
  assert (Hcl : forall m, m ∉ bs -> view d k m = disk_read (k_disk k) m).
  { intros m Hm. destruct R as [_ [l C]]. apply (view_clean d k l m C). by rewrite Hr, decide_False. }
  pose proof (commit_crash start bs (view d k) k.(k_disk) Hh Hlb ltac:(lia) Hcl) as Hc.
  assert (Hend : disk_read (writes_to ws (k_disk k)) start = header (header (view d k start) bs) []).
  { unfold ws, commit_writes. by rewrite read_over, !app_assoc, over_app, over_one, decide_True. }
  eapply runs_mono; [by apply (commit_spec me pid d start bs k)|]. intros [] k' (R' & S' & F & Rf & V).
  split; [done|]. split; [done|]. split; [done|]. split; [done|]. split; [by rewrite Hend, hdr_n_header by (simpl; lia)|]. split.
  - intros m Hm. destruct (crash_done start bs (view d k) k.(k_disk) Hh Hcl _ (le_n _)) as [_ H].
    rewrite take_ge in H by done. rewrite <- H by done. symmetry. apply durable_empty. fold ws. rewrite Hend. apply log_blocks_empty.
  - intros j. destruct (Hc j) as [H1 H2]. split; [done|]. intros m Hm. rewrite H2 by done. case_decide; [|done].
    by apply durable_empty.
Qed.

(** C4. Commit is atomic.  For a transaction of fewer blocks than the cache has
    buffers (NBUF), [commit] returns with the transaction on the disk and the log
    empty; and if the machine stops after any number of the disk writes it
    makes, the disk is well formed and stands for the contents before the
    transaction, up to the write of the header, or for the new contents, from that
    write on. *)
Theorem commit_crash_atomic me pid d `{W : Wakes} `{D : Disk} `{DOK : !DiskOK} start bs k :
  transaction me pid d start bs k -> (length bs < NBUF)%nat ->
  runs (commit k) (fun _ k' => exists ws, k'.(k_disk) = writes_to ws k.(k_disk) /\ k'.(k_log).(lh_n) = 0 /\
    (forall m, ref d k' m = 0) /\ (forall m, ~ log_area start m -> disk_read k'.(k_disk) m = view d k m) /\
    forall j, let crashed := writes_to (take j ws) k.(k_disk) in
      log_ok start crashed /\ forall m, ~ log_area start m ->
        durable start crashed m = if decide (j <= length bs)%nat then disk_read k.(k_disk) m else view d k m).
Proof.
  intros Htx Hlen. eapply runs_mono; [by apply (commit_atomic me pid d start bs k)|].
  intros [] k' (_ & _ & F & Rf & _ & Hd & Hc). exists (commit_writes start bs (view d k)).
  assert (Dk : k_disk k' = writes_to (commit_writes start bs (view d k)) (k_disk k)) by (by apply (f_equal k_disk) in F).
  rewrite Dk. split; [done|]. split; [by rewrite (f_equal k_log F : k_log k' = _)|]. done.
Qed.

(** Every buffer caches a block of a transaction as large as the cache. *)
Lemma all_pinned d k bs l :
  cache d k l -> NoDup bs -> length bs = NBUF -> (forall m, m ∈ bs -> ref d k m ≠ 0) ->
  forall i, (i < NBUF)%nat -> exists m, m ∈ bs /\ look d k m = Some i.
Proof.
  intros C Hnd Hlen Hr i Hi. set (ix := (fun m => default 0%nat (look d k m)) <$> bs).
  assert (Hlk : forall m, m ∈ bs -> is_Some (look d k m)).
  { intros m Hm. specialize (Hr m Hm). unfold ref in Hr. by destruct (look d k m). }
  assert (Hp : ix ≡ₚ seq 0 NBUF).
  { apply submseteq_length_Permutation; [|rewrite length_seq; unfold ix; rewrite length_fmap; lia].
    apply NoDup_submseteq.
    - apply NoDup_fmap_2_strong; [|done]. intros m n Hm Hn. destruct (Hlk m Hm) as [a Ha], (Hlk n Hn) as [b Hb].
      rewrite Ha, Hb. cbn. intros ->. exact (look_inj d k m n b Ha Hb).
    - intros a Ha. apply list_elem_of_fmap in Ha as (m & -> & Hm). destruct (Hlk m Hm) as [a Ha]. rewrite Ha.
      change (default 0%nat (Some a)) with a. apply elem_of_seq. destruct (look_some _ _ _ _ Ha). lia. }
  assert (Hin : i ∈ ix) by (rewrite Hp, elem_of_seq; lia). apply list_elem_of_fmap in Hin as (m & -> & Hm).
  exists m. split; [done|]. by destruct (Hlk m Hm) as [a ->].
Qed.

(** C39. A transaction that fills the log cannot commit: LOGBLOCKS and NBUF are both
    30, the 30 logged blocks are pinned, no buffer is left for the log block
    [write_log] reads first, and the kernel panics. *)
Theorem commit_full_log_panics me pid d `{W : Wakes} `{D : Disk} `{DOK : !DiskOK} start bs k :
  transaction me pid d start bs k -> Z.of_nat (length bs) = LOGBLOCKS ->
  commit k = Panic "bget: no buffers".
Proof.
  intros [Hh Hne Hlg R Hu Hr He] Hlen. destruct (ho_start _ _ Hh) as [Hs0 Hs1].
  assert (HN : length bs = NBUF) by (unfold LOGBLOCKS, MAXOPBLOCKS, NBUF in *; lia).
  pose proof R as [_ [l C]]. destruct Hlg as (Ed & Es & En & Eb).
  assert (Hall : forall i, (i < NBUF)%nat -> exists m, m ∈ bs /\ look d k m = Some i).
  { apply (all_pinned d k bs l); [exact C|apply Hh|exact HN|]. intros m Hm. by rewrite Hr, decide_True. }
  assert (Hp : bread d (start + 0 + 1) k = Panic "bget: no buffers").
  { apply (bread_panics me pid d [] k); [exact R|apply outside_nil| |].
    - intros i Hi. destruct (Hall i Hi) as (m & Hm & E). specialize (Hr m). unfold ref in Hr. rewrite E, decide_True in Hr by done. lia.
    - destruct (look d k (start + 0 + 1)) as [i|] eqn:E; [|done]. exfalso. destruct (look_some _ _ _ _ E) as (Hi & _).
      destruct (Hall i Hi) as (m & Hm & Em). rewrite (look_inj d k m _ i Em E) in Hm.
      destruct (ho_home _ _ Hh _ Hm). unfold LOGBLOCKS, MAXOPBLOCKS in *. lia. }
  unfold commit, getlog. rewrite bind_gets, En, Hlen. change (0 <? LOGBLOCKS) with true. cbn match. apply bind_panic.
  unfold write_log. change (Z.to_nat LOGBLOCKS) with (S 29). generalize 29%nat. intros f. cbn [write_log_loop]. unfold getlog. rewrite bind_gets, En, Hlen.
  change (0 <? LOGBLOCKS) with true. cbn match. apply bind_panic. unfold write_log_block. apply bind_panic.
  rewrite Ed, Es, u32_small by (unfold LOGBLOCKS, MAXOPBLOCKS in *; lia). exact Hp.
Qed.

(** ** Witnesses: a kernel whose cache has the blocks [bs] of a transaction pinned *)

#[local] Instance demo_disk : Disk := {| virtio_disk_rw := transfer; virtio_disk_intr := mret tt |}.
#[local] Instance demo_disk_ok : DiskOK.
Proof. by intros b w k. Qed.
#[local] Instance demo_wakes : Wakes := 0%nat.

Definition pin_buf (bs : list Z) (i : nat) (b : buf) : buf :=
  match bs !! i with
  | Some n => mkbuf true false 1 n 1 b.(b_prev) b.(b_next) (fun _ => 42)
  | None => b
  end.

Definition pin_all (bs : list Z) (k : kernel) : kernel :=
  set_log (mklog 2 1 true 1 (Z.of_nat (length bs)) (bs ++ replicate (30 - length bs) 0))
    (set_bcache (imap (pin_buf bs) k.(k_bcache)) k).

Lemma pin_all_buf bs k i : (i < length k.(k_bcache))%nat ->
  (pin_all bs k).(k_bcache) !!! i = pin_buf bs i (k.(k_bcache) !!! i).
Proof.
  intros Hi. apply list_lookup_total_correct. cbn [pin_all k_bcache set_log set_bcache].
  rewrite list_lookup_imap. by rewrite (list_lookup_lookup_total_lt (k_bcache k) i Hi).
Qed.

Section pinned.
Context (k0 k : kernel) (bs : list Z) (Hb : blank 1 k0) (Hl : linked k0 NBUF k).
Context (Hnd : NoDup bs) (Hlen : (length bs <= NBUF)%nat).

Lemma pinned_buf i : (i < NBUF)%nat -> b_dev ((pin_all bs k).(k_bcache) !!! i) = 1 ->
  bs !! i = Some (b_blockno ((pin_all bs k).(k_bcache) !!! i)) /\ b_refcnt ((pin_all bs k).(k_bcache) !!! i) = 1 /\
  b_valid ((pin_all bs k).(k_bcache) !!! i) = true.
Proof using All.
  intros Hi. pose proof (li_len _ _ _ Hl) as HL. rewrite pin_all_buf by lia. unfold pin_buf. destruct (bs !! i) as [n|]; [done|].
  destruct (li_same _ _ _ Hl i) as (_ & E & _); [rewrite (proj1 Hb); lia|]. rewrite E. destruct Hb as (_ & Hb' & _).
  by destruct (Hb' i Hi).
Qed.

Lemma free_buf i : (i < NBUF)%nat -> b_dev ((pin_all bs k).(k_bcache) !!! i) = 1 \/ b_refcnt ((pin_all bs k).(k_bcache) !!! i) = 0.
Proof using All.
  intros Hi. pose proof (li_len _ _ _ Hl) as HL. rewrite pin_all_buf by lia. unfold pin_buf. destruct (bs !! i) as [n|]; [by left|].
  right. destruct (li_same _ _ _ Hl i) as (_ & _ & _ & E & _); [rewrite (proj1 Hb); lia|]. rewrite E.
  destruct Hb as (_ & Hb' & _). by destruct (Hb' i Hi).
Qed.

Lemma pinned_cache : cache 1 (pin_all bs k) (rev (seq 0 NBUF)).
Proof using All.
  destruct (linked_cache 1 k0 k Hb Hl) as [C _]. split.
  - destruct (ca_ring _ _ _ C) as (R1 & R2 & R3). split; [|split; [exact R2|]].
    + cbn [pin_all k_bcache set_log set_bcache]. by rewrite length_imap.
    + apply (links_ext (k_bcache k)); [|exact R3]. intros p x q E.
      assert (Hx : x ∈ bhead :: rev (seq 0 NBUF) ++ [bhead]) by (rewrite E; apply elem_mid).
      assert (x < length (k_bcache k))%nat.
      { rewrite R1. rewrite elem_of_cons, elem_of_app, list_elem_of_singleton, list_elem_of_In, <- in_rev, in_seq in Hx.
        unfold bhead in Hx. lia. }
      rewrite pin_all_buf by done. unfold pin_buf. by destruct (bs !! x).
  - intros i j Hi Hj H1 H2 E. destruct (pinned_buf i Hi H1) as [Ei _], (pinned_buf j Hj H2) as [Ej _].
    rewrite E in Ei. by apply (NoDup_lookup bs i j _ Hnd Ei).
  - intros i Hi Hn. destruct (free_buf i Hi) as [H1|H1]; [|done]. by destruct (pinned_buf i Hi H1) as (_ & _ & ?).
  - intros i Hi. destruct (free_buf i Hi) as [H1|H1]; [|lia]. destruct (pinned_buf i Hi H1) as (_ & H2 & _). lia.
  - intros i Hi H1 H2. destruct (pinned_buf i Hi H1) as (_ & H3 & _). lia.
  - intros i [x Hx]. exfalso. change (k_slocks k !! SlBuf i = Some x) in Hx. destruct (ca_lock _ _ _ C i (ex_intro _ x Hx)) as [Hi _].
    by rewrite (li_locks _ _ _ Hl i Hi) in Hx.
Qed.

Lemma pinned_ref m : ref 1 (pin_all bs k) m = if decide (m ∈ bs) then 1 else 0.
Proof using All.
  pose proof (li_len _ _ _ Hl) as HL. case_decide as Hm.
  - apply list_elem_of_lookup in Hm as [i Hi]. pose proof (lookup_lt_Some _ _ _ Hi).
    assert (E : (pin_all bs k).(k_bcache) !!! i = pin_buf bs i (k.(k_bcache) !!! i)) by (apply pin_all_buf; lia).
    unfold pin_buf in E. rewrite Hi in E. unfold ref. rewrite (look_uniq 1 _ _ m i pinned_cache); [by rewrite E|lia|by rewrite E|by rewrite E].
  - unfold ref. destruct (look 1 (pin_all bs k) m) as [i|] eqn:E; [|done]. destruct (look_some _ _ _ _ E) as (Hi & H1 & H2).
    destruct (pinned_buf i Hi H1) as (Hk & _). rewrite H2 in Hk. by apply list_elem_of_lookup_2 in Hk.
Qed.

Lemma pinned_transaction :
  calm 1 0 [] k -> header_ok 2 bs -> bs ≠ [] -> hdr_n (disk_read k.(k_disk) 2) = 0 -> transaction 1 0 1 2 bs (pin_all bs k).
Proof using All.
  intros Hc Hh Hne He. pose proof pinned_cache as C. split.
  - exact Hh.
  - exact Hne.
  - split; [done|]. split; [done|]. split; [done|]. cbn. by rewrite take_app_length.
  - split; [|eexists; exact C]. by apply (calm_parts 1 0 [] k).
  - intros i. change (k_slocks k !! SlBuf i = None). destruct (k_slocks k !! SlBuf i) as [x|] eqn:E; [|done]. exfalso.
    destruct (ca_lock _ _ _ C i (ex_intro _ x E)) as [Hi _]. by rewrite (li_locks _ _ _ Hl i Hi) in E.
  - exact pinned_ref.
  - exact He.
Qed.
End pinned.

Lemma demo_linked : linked run_demo NBUF demo_bcache.
Proof.
  assert (E : binit run_demo = Ok tt demo_bcache) by (vm_compute; reflexivity).
  pose proof (binit_linked run_demo eq_refl) as H. by rewrite E in H.
Qed.

Lemma demo_transaction bs :
  header_ok 2 bs -> bs ≠ [] -> transaction 1 0 1 2 bs (pin_all bs demo_bcache).
Proof.
  intros Hh Hne. destruct (ready_linked 1 0 1 run_demo demo_bcache demo_calm demo_blank demo_linked) as [[Hc _] _].
  apply (pinned_transaction run_demo demo_bcache bs demo_blank demo_linked (ho_nodup _ _ Hh)); [|exact Hc|exact Hh|exact Hne|].
  - pose proof (ho_len _ _ Hh). unfold LOGBLOCKS, MAXOPBLOCKS, NBUF in *. lia.
  - vm_compute. reflexivity.
Qed.

Lemma demo_header bs : NoDup bs -> Forall (fun b => 40 <= b < 70) bs -> (length bs <= 30)%nat -> header_ok 2 bs.
Proof.
  intros Hn Hf Hl. split; [unfold LOGBLOCKS, MAXOPBLOCKS; lia|unfold LOGBLOCKS, MAXOPBLOCKS; lia|done|].
  intros b Hb. rewrite Forall_forall in Hf. specialize (Hf b Hb). unfold LOGBLOCKS, MAXOPBLOCKS. simpl in Hf. lia.
Qed.

Lemma commit_crash_atomic_witness :
  runs (commit (pin_all [40] demo_bcache)) (fun _ k' => disk_read k'.(k_disk) 40 5 = 42).
Proof.
  eapply runs_mono; [apply (commit_crash_atomic 1 0 1 2 [40] (pin_all [40] demo_bcache))|].
  - apply demo_transaction; [|done]. apply demo_header; [apply NoDup_singleton|repeat constructor; lia|simpl; lia].
  - unfold NBUF. simpl. lia.
  - intros [] k' (ws & _ & _ & _ & H & _). rewrite H by (unfold log_area, LOGBLOCKS, MAXOPBLOCKS; lia). vm_compute. reflexivity.
Defined.

Lemma commit_full_log_panics_witness : commit (pin_all (seqZ 40 30) demo_bcache) = Panic "bget: no buffers".
Proof.
  apply (commit_full_log_panics 1 0 1 2 (seqZ 40 30)).
  - apply demo_transaction; [|done]. apply demo_header; [apply NoDup_seqZ|repeat constructor; lia|rewrite length_seqZ; lia].
  - vm_compute. reflexivity.
Defined.

(** A disk that stopped after the header of a transaction was written. *)
Definition demo_crashed : disk :=
  mkdisk (fun n => if n =? 2 then header (fun _ => 0) [40] else if n =? 3 then fun _ => 42 else fun _ => 0) [].
Definition demo_reboot : kernel :=
  match binit (set_disk demo_crashed run_demo) with Ok _ k => k | _ => run_demo end.

Lemma blank_disk dk d k : blank d k -> blank d (set_disk dk k).
Proof. done. Qed.
Lemma calm_disk dk k : calm 1 0 [] k -> calm 1 0 [] (set_disk dk k).
Proof. intros H. by apply (calm_parts 1 0 [] k). Qed.

Lemma demo_rebooted : rebooted 1 0 1 demo_reboot demo_crashed.
Proof.
  assert (E : binit (set_disk demo_crashed run_demo) = Ok tt demo_reboot) by (vm_compute; reflexivity).
  pose proof (binit_linked (set_disk demo_crashed run_demo) eq_refl) as H. rewrite E in H.
  apply (linked_rebooted 1 0 1 (set_disk demo_crashed run_demo) demo_reboot); [apply calm_disk, demo_calm|apply blank_disk, demo_blank|exact H|].
  vm_compute. reflexivity.
Qed.

Lemma initlog_recovers_witness :
  runs (initlog 1 (mksb 0 0 0 0 0 2 0 0) demo_reboot) (fun _ k' => disk_read k'.(k_disk) 40 5 = 42).
Proof.
  assert (Hh : header_ok 2 [40]) by (apply demo_header; [apply NoDup_singleton|repeat constructor; lia|simpl; lia]).
  eapply runs_mono; [apply (initlog_recovers 1 0 1 demo_reboot demo_crashed (mksb 0 0 0 0 0 2 0 0) 2 demo_rebooted)|].
  - vm_compute. reflexivity.
  - split; [vm_compute; congruence|]. change (disk_read demo_crashed 2) with (header (fun _ => 0) [40]).
    by rewrite (log_blocks_header _ 2).
  - intros [] k' (ws & _ & _ & H & _). rewrite H by lia. vm_compute. reflexivity.
Defined.
