(* ===== verification/Console.v ===== *)
(** * Console input and output (kernel/console.c, uart.c, procdump of proc.c)

    [cons.buf] is a circular buffer of INPUT_BUF_SIZE bytes with three counters:
    bytes before [cons.w] are complete lines a reader may take, those between
    [cons.w] and [cons.e] are still being edited. *)

From Stdlib Require Import ZArith Lia.
From stdpp Require Import base list numbers strings gmap.
From S2P Require Import Prelude Types Mem Layout Kalloc Vm State Spinlock Printf Proc Sleeplock.
Open Scope Z_scope.

Definition INPUT_BUF_SIZE : Z := 128.
Definition CONSOLE : Z := 1.

Definition getcons : M kernel cons := gets k_cons.
Definition modcons (f : cons -> cons) : M kernel unit := modify (fun k => set_cons (f k.(k_cons)) k).
Definition set_r x c := mkcons c.(cons_buf) x c.(cons_w) c.(cons_e).
Definition set_w x c := mkcons c.(cons_buf) c.(cons_r) x c.(cons_e).
Definition set_e x c := mkcons c.(cons_buf) c.(cons_r) c.(cons_w) x.
(** cons.buf[i % INPUT_BUF_SIZE] *)
Definition cons_at (c : cons) (i : Z) : Z := c.(cons_buf) !!! Z.to_nat (i mod INPUT_BUF_SIZE).
Definition cons_put (i x : Z) (c : cons) : cons :=
  mkcons (<[Z.to_nat (i mod INPUT_BUF_SIZE) := u8 x]> c.(cons_buf)) c.(cons_r) c.(cons_w) c.(cons_e).

(** ** The process listing of ^P *)

Definition state_name (s : procstate) : string :=
  match s with
  | UNUSED => "unused" | USED => "used" | SLEEPING => "sleep "
  | RUNNABLE => "runble" | RUNNING => "run   " | ZOMBIE => "zombie"
  end.

(** The bytes of an array up to its NUL. *)
Fixpoint cstring (l : list Z) : list Z :=
  match l with c :: l' => if c =? 0 then [] else c :: cstring l' | [] => [] end.

Definition newline : string := "
".

Definition procdump : M kernel unit :=
  printf newline [] ;;
  foreach slots (fun i =>
    p ← getp i;
    if bool_decide (p.(p_state) = UNUSED) then mret tt
    else
      printf "%d %s %s" [AInt p.(p_pid); AStr (Some (bytes (state_name p.(p_state))));
                         AStr (Some (cstring p.(p_name)))] ;;
      printf newline []).

(** ** The UART *)

Definition moduart (f : uart -> uart) : M kernel unit := modify (fun k => set_uart (f k.(k_uart)) k).
Definition set_tx_busy x u := mkuart x u.(u_out) u.(u_in) u.(u_idle).

(** WriteReg(THR, c) *)
Definition write_thr (c : Z) : M kernel unit :=
  moduart (fun u => mkuart u.(tx_busy) (u8 c :: u.(u_out)) u.(u_in) u.(u_idle)).

Section console.
Context `{L : KernelLayout} `{W : Wakes}.

(** while(tx_busy != 0) sleep(&tx_chan, &tx_lock); *)
Fixpoint tx_wait (fuel : nat) : M kernel unit :=
  u ← gets k_uart;
  if u.(tx_busy) then
    match fuel with O => nofuel | S f => sleep (Some ChUartTx) LkTx ;; tx_wait f end
  else mret tt.

Definition uartwrite (buf : list Z) : M kernel unit :=
  acquire LkTx ;;
  foreach buf (fun c => tx_wait wakes ;; write_thr c ;; moduart (set_tx_busy true)) ;;
  release LkTx.

(** The next input byte, [None] for -1. *)
Definition uartgetc : M kernel (option Z) :=
  u ← gets k_uart;
  match u.(u_in) with
  | c :: l => moduart (fun u => mkuart u.(tx_busy) u.(u_out) l u.(u_idle)) ;; mret (Some c)
  | [] => mret None
  end.

(** ** Reading and writing the console *)

(** [i] and what is left of the source; one round per 32 bytes. *)
Fixpoint consolewrite_loop (fuel : nat) (src : source) (n i : Z) : M kernel Z :=
  if i <? n then
    match fuel with
    | O => nofuel
    | S f =>
        let nn := Z.min 32 (n - i) in
        r ← either_copyin src nn;
        if r.1 =? -1 then mret i
        else uartwrite r.2 ;; consolewrite_loop f (source_add src nn) n (i + nn)
    end
  else mret i.

Definition consolewrite (src : source) (n : Z) : M kernel Z := consolewrite_loop (Z.to_nat n) src n 0.

(** The inner loop of [consoleread]: false when the process was killed, with
    the lock released. *)
Fixpoint cons_wait (fuel : nat) : M kernel bool :=
  c ← getcons;
  if c.(cons_r) =? c.(cons_w) then
    i ← curproc;
    d ← killed i;
    if (d : bool) then release LkCons ;; mret false
    else match fuel with O => nofuel | S f => sleep (Some ChConsR) LkCons ;; cons_wait f end
  else mret true.

(** The outer loop: [n] at the end, [None] for the early return. *)
Fixpoint consoleread_loop (fuel : nat) (dst : dest) (target n : Z) : M kernel (option Z) :=
  if 0 <? n then
    match fuel with
    | O => nofuel
    | S f =>
        ok ← cons_wait wakes;
        if negb ok then mret None
        else
          s ← getcons;
          let c := cons_at s s.(cons_r) in
          modcons (set_r (u32 (s.(cons_r) + 1))) ;;
          if c =? 4 then
            (if n <? target then modcons (fun s => set_r (u32 (s.(cons_r) - 1)) s) else mret tt) ;;
            mret (Some n)
          else
            r ← either_copyout dst [c];
            if r =? -1 then mret (Some n)
            else if c =? 10 then mret (Some (n - 1))
            else consoleread_loop f (dest_add dst 1) target (n - 1)
    end
  else mret (Some n).

Definition consoleread (dst : dest) (n : Z) : M kernel Z :=
  acquire LkCons ;;
  r ← consoleread_loop (Z.to_nat n) dst (u32 n) n;
  match r with
  | None => mret (-1)
  | Some n' => release LkCons ;; mret (i32 (u32 n - n'))
  end.

(** ** The input interrupt *)

(** The loop of ^U. *)
Fixpoint kill_line (fuel : nat) : M kernel unit :=
  c ← getcons;
  if negb (c.(cons_e) =? c.(cons_w)) && negb (cons_at c (u32 (c.(cons_e) - 1)) =? 10) then
    match fuel with
    | O => nofuel
    | S f => modcons (fun c => set_e (u32 (c.(cons_e) - 1)) c) ;; consputc BACKSPACE ;; kill_line f
    end
  else mret tt.

Definition consoleintr (c : Z) : M kernel unit :=
  acquire LkCons ;;
  s ← getcons;
  (if c =? 16 (* ^P *) then procdump
   else if c =? 21 (* ^U *) then kill_line (Z.to_nat INPUT_BUF_SIZE)
   else if (c =? 8) || (c =? 127) (* ^H, Delete *) then
     if negb (s.(cons_e) =? s.(cons_w)) then
       modcons (fun s => set_e (u32 (s.(cons_e) - 1)) s) ;; consputc BACKSPACE
     else mret tt
   else if negb (c =? 0) && (u32 (s.(cons_e) - s.(cons_r)) <? INPUT_BUF_SIZE) then
     let c := if c =? 13 then 10 else c in
     consputc c ;;
     modcons (fun s => set_e (u32 (s.(cons_e) + 1)) (cons_put s.(cons_e) c s)) ;;
     s ← getcons;
     if (c =? 10) || (c =? 4) || (u32 (s.(cons_e) - s.(cons_r)) =? INPUT_BUF_SIZE) then
       modcons (fun s => set_w s.(cons_e) s) ;; wakeup (Some ChConsR)
     else mret tt
   else mret tt) ;;
  release LkCons.

(** while(1){ c = uartgetc(); if(c == -1) break; consoleintr(c); } *)
Fixpoint uart_input (fuel : nat) : M kernel unit :=
  c ← uartgetc;
  match c with
  | None => mret tt
  | Some c => match fuel with O => nofuel | S f => consoleintr c ;; uart_input f end
  end.

Definition uartintr : M kernel unit :=
  acquire LkTx ;;
  u ← gets k_uart;
  (if u.(u_idle) then moduart (set_tx_busy false) ;; wakeup (Some ChUartTx) else mret tt) ;;
  release LkTx ;;
  u ← gets k_uart;
  uart_input (length u.(u_in)).

(** devsw[], as [consoleinit] leaves it *)
Definition devsw_read (major : Z) : option (dest -> Z -> M kernel Z) :=
  if major =? CONSOLE then Some consoleread else None.
Definition devsw_write (major : Z) : option (source -> Z -> M kernel Z) :=
  if major =? CONSOLE then Some consolewrite else None.
End console.

(** The device registers [uartinit] sets keep their values. *)
Definition consoleinit : M kernel unit := initlock LkCons ;; initlock LkTx.
