(* ===== verification/Pipe.v ===== *)
(** * Pipes (kernel/pipe.c)

    A pipe lives in a page of its own and is known by the address of the page.
    [nread] and [nwrite] count bytes modulo 2^32.  [pipealloc] is in File.v. *)

From Stdlib Require Import ZArith Lia.
From stdpp Require Import base list numbers strings gmap.
From S2P Require Import Prelude Types Mem Layout Kalloc Vm State Spinlock Proc Sleeplock.
Open Scope Z_scope.

Definition PIPESIZE : Z := 512.

(** *pi; a pipe that is not there was freed. *)
Definition getpi (pi : Z) : M kernel pipe :=
  o ← gets (fun k => k.(k_pipes) !! pi);
  match o with Some p => mret p | None => panic "undefined" end.
Definition modpi (pi : Z) (f : pipe -> pipe) : M kernel unit :=
  modify (fun k => set_pipes (alter f pi k.(k_pipes)) k).

Definition set_readopen x p := mkpipe p.(pi_data) p.(pi_nread) p.(pi_nwrite) x p.(pi_writeopen).
Definition set_writeopen x p := mkpipe p.(pi_data) p.(pi_nread) p.(pi_nwrite) p.(pi_readopen) x.

(** pi->data[pi->nwrite++ % PIPESIZE] = ch; *)
Definition put_byte (ch : Z) (p : pipe) : pipe :=
  mkpipe (<[Z.to_nat (p.(pi_nwrite) mod PIPESIZE) := ch]> p.(pi_data)) p.(pi_nread)
    (u32 (p.(pi_nwrite) + 1)) p.(pi_readopen) p.(pi_writeopen).
(** pi->data[pi->nread % PIPESIZE] *)
Definition next_byte (p : pipe) : Z := p.(pi_data) !!! Z.to_nat (p.(pi_nread) mod PIPESIZE).
(** pi->nread++ *)
Definition take_byte (p : pipe) : pipe :=
  mkpipe p.(pi_data) (u32 (p.(pi_nread) + 1)) p.(pi_nwrite) p.(pi_readopen) p.(pi_writeopen).

Section pipe.
Context `{L : KernelLayout} `{W : Wakes}.

Definition pipeclose (pi : Z) (writable : bool) : M kernel unit :=
  acquire (LkPipe pi) ;;
  (if writable then modpi pi (set_writeopen false) ;; wakeup (Some (ChPipeRead pi))
   else modpi pi (set_readopen false) ;; wakeup (Some (ChPipeWrite pi))) ;;
  p ← getpi pi;
  if negb p.(pi_readopen) && negb p.(pi_writeopen) then
    release (LkPipe pi) ;;
    modify (fun k => set_pipes (delete pi k.(k_pipes)) k) ;;
    zoom (kfree pi)
  else release (LkPipe pi).

(** The while loop of [pipewrite]: [i] where it ends, [None] for the return
    inside.  A round writes a byte or sleeps, and [wakes] bounds the sleeps. *)
Fixpoint pipewrite_loop (fuel : nat) (pr : nat) (pi addr n i : Z) : M kernel (option Z) :=
  if i <? n then
    p ← getpi pi;
    d ← (if negb p.(pi_readopen) then mret true else killed pr);
    if (d : bool) then release (LkPipe pi) ;; mret None
    else
      match fuel with
      | O => nofuel
      | S f =>
          if p.(pi_nwrite) =? u32 (p.(pi_nread) + PIPESIZE) then
            wakeup (Some (ChPipeRead pi)) ;;
            sleep (Some (ChPipeWrite pi)) (LkPipe pi) ;;
            pipewrite_loop f pr pi addr n i
          else
            q ← getp pr;
            r ← zoom (copyin q.(p_sz) q.(p_pagetable) q.(p_pagetable) (u64 (addr + i)) 1);
            if r.1 =? -1 then mret (Some i)
            else modpi pi (put_byte (nth 0 r.2 0)) ;; pipewrite_loop f pr pi addr n (i + 1)
      end
  else mret (Some i).

Definition pipewrite (pi addr n : Z) : M kernel Z :=
  pr ← curproc;
  acquire (LkPipe pi) ;;
  r ← pipewrite_loop (Z.to_nat n + wakes) pr pi addr n 0;
  match r with
  | None => mret (-1)
  | Some i => wakeup (Some (ChPipeRead pi)) ;; release (LkPipe pi) ;; mret i
  end.

(** The waiting loop of [piperead]: false for the return inside. *)
Fixpoint piperead_wait (fuel : nat) (pr : nat) (pi : Z) : M kernel bool :=
  p ← getpi pi;
  if (p.(pi_nread) =? p.(pi_nwrite)) && p.(pi_writeopen) then
    d ← killed pr;
    if (d : bool) then release (LkPipe pi) ;; mret false
    else
      match fuel with
      | O => nofuel
      | S f => sleep (Some (ChPipeRead pi)) (LkPipe pi) ;; piperead_wait f pr pi
      end
  else mret true.

(** The copying loop of [piperead] with [todo] rounds to go: [i] at the end. *)
Fixpoint piperead_loop (todo : nat) (pr : nat) (pi addr i : Z) : M kernel Z :=
  match todo with
  | O => mret i
  | S todo =>
      p ← getpi pi;
      if p.(pi_nread) =? p.(pi_nwrite) then mret i
      else
        q ← getp pr;
        r ← zoom (copyout q.(p_sz) q.(p_pagetable) q.(p_pagetable) (u64 (addr + i)) [next_byte p]);
        if r =? -1 then mret (if i =? 0 then -1 else i)
        else modpi pi take_byte ;; piperead_loop todo pr pi addr (i + 1)
  end.

Definition piperead (pi addr n : Z) : M kernel Z :=
  pr ← curproc;
  acquire (LkPipe pi) ;;
  ok ← piperead_wait wakes pr pi;
  if negb ok then mret (-1)
  else
    i ← piperead_loop (Z.to_nat n) pr pi addr 0;
    wakeup (Some (ChPipeWrite pi)) ;;
    release (LkPipe pi) ;;
    mret i.
End pipe.
