(* ===== verification/PipeSpec.v ===== *)
(** * Pipes are queues of bytes

    The ring buffer and its two 32-bit counters stand for a queue ([queue_ok]).  A call of
    read() or write() is followed from one sleep to the next: a segment of it runs with
    pi->lock held, moves bytes between the queue and the memory of its process, and ends
    with the answer of the call or asleep ([write_seg], [read_seg]).  What the rest of the
    kernel does in between is arbitrary, the ring apart.  The theorem is about any number
    of readers and writers of a pipe. *)

From Stdlib Require Import ZArith Lia.
From stdpp Require Import base list numbers strings gmap.
From S2P Require Import Prelude Types Mem Layout Kalloc Vm VmTables VmMap VmSpace VmUser VmCopy State Spinlock Proc ProcSpec Sleeplock Pipe.
Open Scope Z_scope.

(** ** The queue *)

Abbreviation is_byte := (fun b : Z => 0 <= b < 256).

Record queue_ok (p : pipe) (q : list Z) : Prop := {
  q_len : Z.of_nat (length p.(pi_data)) = PIPESIZE;
  q_nread : 0 <= p.(pi_nread) < 2 ^ 32;
  q_nwrite : p.(pi_nwrite) = u32 (p.(pi_nread) + Z.of_nat (length q));
  q_size : Z.of_nat (length q) <= PIPESIZE;
  q_bytes : Forall is_byte q;
  q_data : forall i b, q !! i = Some b -> p.(pi_data) !! Z.to_nat ((p.(pi_nread) + Z.of_nat i) mod PIPESIZE) = Some b
}.

Lemma u32_PIPESIZE x : u32 x mod PIPESIZE = x mod PIPESIZE.
Proof. unfold u32. apply Z.mod_mod_divide. by exists (2 ^ 23). Qed.

Lemma slot_ne x i j : 0 <= i < PIPESIZE -> 0 <= j < PIPESIZE -> i <> j -> Z.to_nat ((x + i) mod PIPESIZE) <> Z.to_nat ((x + j) mod PIPESIZE).
Proof.
  intros Hi Hj Hne E. apply Z2Nat.inj in E; [|apply Z.mod_pos_bound; done..].
  assert ((i - j) mod PIPESIZE = 0) as Hz.
  { replace (i - j) with ((x + i) - (x + j)) by lia. by rewrite Zminus_mod, E, Z.sub_diag. }
  apply Z.mod_divide in Hz; [|done]. destruct Hz as [c Hc]. unfold PIPESIZE in *. lia.
Qed.

(** pi->nwrite == pi->nread + PIPESIZE: the buffer is full. *)
Lemma queue_full p q :
  queue_ok p q -> p.(pi_nwrite) = u32 (p.(pi_nread) + PIPESIZE) <-> Z.of_nat (length q) = PIPESIZE.
Proof.
  intros [_ Hr Hw Hs _ _]. rewrite Hw. split; [|by intros ->]. unfold u32, PIPESIZE in *. intros E.
  pose proof (Z.mod_eq (pi_nread p + Z.of_nat (length q)) (2 ^ 32)).
  pose proof (Z.mod_eq (pi_nread p + 512) (2 ^ 32)). lia.
Qed.

(** pi->nread == pi->nwrite: it is empty. *)
Lemma queue_empty p q : queue_ok p q -> p.(pi_nread) = p.(pi_nwrite) <-> q = [].
Proof.
  intros [_ Hr Hw Hs _ _]. rewrite Hw. split.
  - intros E. apply length_zero_iff_nil. unfold u32, PIPESIZE in *.
    pose proof (Z.mod_eq (pi_nread p + Z.of_nat (length q)) (2 ^ 32)). lia.
  - intros ->. simpl. by rewrite Z.add_0_r, u32_small.
Qed.

Lemma queue_put p q b : queue_ok p q -> is_byte b -> Z.of_nat (length q) < PIPESIZE -> queue_ok (put_byte b p) (q ++ [b]).
Proof.
  intros [] Hb Hlt. split; cbn [put_byte pi_data pi_nread pi_nwrite].
  - by rewrite length_insert.
  - done.
  - rewrite q_nwrite0, u32_add_l, length_app. f_equal. simpl. lia.
  - rewrite length_app. simpl. lia.
  - apply Forall_app. split; [done|]. by constructor.
  - intros i x Hi. rewrite q_nwrite0, u32_PIPESIZE. apply lookup_app_Some in Hi as [Hi|[Hge Hi]].
    + pose proof (lookup_lt_Some _ _ _ Hi). rewrite list_lookup_insert_ne; [by apply q_data0|]. apply slot_ne; lia.
    + apply list_lookup_singleton_Some in Hi as [Hi ->]. replace i with (length q) by lia. apply list_lookup_insert_eq.
      pose proof (Z.mod_pos_bound (pi_nread p + Z.of_nat (length q)) PIPESIZE ltac:(done)). lia.
Qed.

Lemma queue_next p b q : queue_ok p (b :: q) -> next_byte p = b.
Proof.
  intros []. unfold next_byte. apply list_lookup_total_correct. specialize (q_data0 0%nat b eq_refl). by rewrite Z.add_0_r in q_data0.
Qed.

Lemma queue_take p b q : queue_ok p (b :: q) -> queue_ok (take_byte p) q.
Proof.
  intros []. split; cbn [take_byte pi_data pi_nread pi_nwrite].
  - done.
  - apply u32_range.
  - rewrite u32_add_l, q_nwrite0. f_equal. simpl. lia.
  - simpl in q_size0. lia.
  - by apply Forall_cons in q_bytes0 as [_ ?].
  - intros i x Hi. specialize (q_data0 (S i) x Hi). rewrite Zplus_mod, u32_PIPESIZE, <- Zplus_mod.
    replace (pi_nread p + 1 + Z.of_nat i) with (pi_nread p + Z.of_nat (S i)) by lia. done.
Qed.

(** The pipe at [pi] holds [q]. *)
Definition holds_queue (pi : Z) (k : kernel) (q : list Z) : Prop := exists p, k.(k_pipes) !! pi = Some p /\ queue_ok p q.

(** The part of the pipe that [pipeclose] and the rest of the kernel leave alone. *)
Definition same_ring (pi : Z) (k k' : kernel) : Prop :=
  forall p, k.(k_pipes) !! pi = Some p ->
  exists p', k'.(k_pipes) !! pi = Some p' /\ p'.(pi_data) = p.(pi_data) /\ p'.(pi_nread) = p.(pi_nread) /\ p'.(pi_nwrite) = p.(pi_nwrite).

Lemma same_ring_holds pi k k' q : same_ring pi k k' -> holds_queue pi k q -> holds_queue pi k' q.
Proof.
  intros Hs (p & Ep & []). destruct (Hs p Ep) as (p' & Ep' & Ed & Er & Ew). exists p'. split; [done|].
  split; rewrite ?Ed, ?Er, ?Ew; done.
Qed.

(** ** A process in a call *)

Section process.
Context `{L : KernelLayout} {LOK : KernelLayoutOK L} `{W : Wakes} (pi : Z) (pr : nat).

Definition self (k : kernel) : proc := k.(k_procs) !!! pr.

(** What the process sees at an address. *)
Definition sees (k : kernel) : Z -> option (Z * Z) := lview (self k).(p_sz) k.(k_mem).(pm) (self k).(p_pagetable).

Definition user_ok (k : kernel) : Prop :=
  (exists fl, as_inv k.(k_mem) fl (self k).(p_pagetable)) /\ 0 <= (self k).(p_sz) <= TRAPFRAME.

(** A hart runs the process: with no lock when it makes the call, with p->lock when the
    scheduler has switched to it, and pi->lock and the locks of other processes are free. *)
Record fit (resumed : bool) (k : kernel) : Prop := {
  fit_proc : k.(k_cpu).(c_proc) = Some pr;
  fit_slots : length k.(k_procs) = NPROC /\ (pr < NPROC)%nat;
  fit_lock : k.(k_locks) !! LkPipe pi = None;
  fit_others : forall j, j <> pr -> k.(k_locks) !! LkProc j = None;
  fit_self : if resumed
    then k.(k_cpu).(c_noff) = 1 /\ k.(k_cpu).(c_sie) = false /\ k.(k_locks) !! LkProc pr = Some k.(k_cpu).(c_id)
    else k.(k_cpu).(c_noff) = 0 /\ k.(k_locks) !! LkProc pr = None;
  fit_user : user_ok k
}.

(** Between acquire(&pi->lock) and its release, or sleep(). *)
Record inside (k : kernel) : Prop := {
  in_proc : k.(k_cpu).(c_proc) = Some pr;
  in_off : k.(k_cpu).(c_noff) = 1 /\ k.(k_cpu).(c_sie) = false;
  in_slots : length k.(k_procs) = NPROC /\ (pr < NPROC)%nat;
  in_lock : k.(k_locks) !! LkPipe pi = Some k.(k_cpu).(c_id);
  in_free : proc_locks_free k
}.

(** Pipes and memory are as they were, and what the process is. *)
Record frame (k k' : kernel) : Prop := {
  fr_pipes : k'.(k_pipes) = k.(k_pipes);
  fr_mem : k'.(k_mem) = k.(k_mem);
  fr_sz : (self k').(p_sz) = (self k).(p_sz);
  fr_pt : (self k').(p_pagetable) = (self k).(p_pagetable);
  fr_killed : (self k').(p_killed) = (self k).(p_killed)
}.

Lemma frame_refl k : frame k k.
Proof. done. Qed.
Lemma frame_trans k1 k2 k3 : frame k1 k2 -> frame k2 k3 -> frame k1 k3.
Proof. intros [] []. split; congruence. Qed.
Lemma frame_user k k' : frame k k' -> user_ok k -> user_ok k'.
Proof. intros [] H. unfold user_ok. rewrite fr_mem0, fr_sz0, fr_pt0. exact H. Qed.
Lemma frame_sees k k' x : frame k k' -> sees k' x = sees k x.
Proof. intros []. unfold sees. by rewrite fr_mem0, fr_sz0, fr_pt0. Qed.

(** *** The calls that do not touch the pipe *)

Lemma in_ok k : inside k -> cpu_ok k.(k_cpu).
Proof. intros [? [] ]. split; [lia|done]. Qed.
Lemma in_settled k : inside k -> settled k = k.
Proof. intros [? []]. apply settled_noff. lia. Qed.

Lemma enter_call {A} (f : nat -> M kernel A) k :
  fit false k -> exists k1, (p ← curproc; acquire (LkPipe pi) ;; f p) k = f pr k1 /\ inside k1 /\ frame k k1.
Proof.
  intros [Hp Hs Hl Ho [Hn Hf] _]. assert (Hc : cpu_ok k.(k_cpu)) by (split; lia).
  rewrite (bind_ok _ _ _ _ _ (curproc_eq k pr Hc Hp)).
  rewrite (bind_ok _ _ _ _ _ (acquire_eq (settled k) (LkPipe pi) Hl)). eexists. split; [reflexivity|].
  split; [|by split]. split; try done.
  - simpl. rewrite Hn. by split.
  - simpl. by rewrite lookup_insert_eq.
  - intros j. simpl. rewrite lookup_insert_ne by done. destruct (decide (j = pr)) as [->|]; [done|by apply Ho].
Qed.

Lemma in_killed k : inside k -> killed pr k = Ok (negb ((self k).(p_killed) =? 0)) k.
Proof. intros H. unfold killed. rewrite lock_read by (by apply in_ok || apply H). by rewrite in_settled. Qed.

Lemma in_wakeup ch k : inside k -> exists k1, wakeup ch k = Ok tt k1 /\ inside k1 /\ frame k k1.
Proof.
  intros H. rewrite (wakeup_eq ch k) by (by apply in_ok || apply H || (intros; apply H)). eexists. split; [reflexivity|].
  pose proof H as [Hp [Hn Hi] [Hs Hlt] Hl Hf].
  assert (Hsame : imap (wake (Some pr) ch) (k_procs k) !!! pr = k_procs k !!! pr).
  { destruct (lookup_lt_is_Some_2 (k_procs k) pr ltac:(lia)) as [p Ep].
    rewrite (list_lookup_total_correct _ _ _ Ep). apply list_lookup_total_correct.
    rewrite list_lookup_imap, Ep. simpl. unfold wake. by rewrite decide_False by tauto. }
  rewrite Hp. split.
  - split; cbn [settled set_cpu set_procs k_cpu k_procs k_locks settle c_proc c_noff c_sie c_id]; try done. by rewrite length_imap.
  - split; unfold self; cbn [settled set_cpu set_procs k_pipes k_mem k_procs]; by rewrite ?Hsame.
Qed.

Lemma in_release k : inside k -> exists k1, release (LkPipe pi) k = Ok tt k1 /\ frame k k1.
Proof.
  intros [Hp [Hn Hi] Hs Hl Hf].
  set (c := mkcpu k.(k_cpu).(c_proc) 0 k.(k_cpu).(c_intena) k.(k_cpu).(c_intena) k.(k_cpu).(c_id)).
  rewrite (release_eq k (LkPipe pi) c); [eexists; split; [reflexivity|by split]|by split| |done].
  unfold pushed, c. simpl. destruct (k_cpu k). simpl in *. by subst.
Qed.

Lemma self_alter f k k' :
  (pr < length k.(k_procs))%nat -> k'.(k_procs) = alter f pr k.(k_procs) -> self k' = f (self k).
Proof. intros Hl E. unfold self. rewrite E. by apply list_alter_total. Qed.

(** sleep() changes no pipe and no memory up to the switch, nor after it, when it has
    got pi->lock back. *)
Lemma in_sleep ch k :
  inside k -> exists k1 c, sleep ch (LkPipe pi) k = Swtch k1 c /\ frame k k1 /\
    forall k2, fit true k2 -> exists k3, c k2 = Ok tt k3 /\ inside k3 /\ frame k2 k3.
Proof.
  intros [Hp [Hn Hi] [Hs Hlt] Hl Hf].
  eexists _, _. split; [apply (sleep_eq k pr ch (LkPipe pi)); auto; lia|]. split.
  - assert (self (asleep pr ch (LkPipe pi) k) = set_state SLEEPING (set_chan ch (self k))) as E.
    { unfold self, asleep. cbn [set_locks set_procs k_procs]. rewrite list_alter_total by (rewrite length_alter; lia).
      by rewrite list_alter_total by lia. }
    split; rewrite ?E; done.
  - intros k2 [Hp2 [Hs2 _] Hl2 Ho2 (Hn2 & Hi2 & Hf2) _]. unfold modp. mstep.
    erewrite bind_ok; [|apply (release_resumed pr k.(k_cpu).(c_intena)); [exact Hn2|exact Hi2|done|exact Hf2]].
    rewrite acquire_eq by (simpl; by rewrite lookup_delete_ne). eexists. split; [reflexivity|]. split.
    + split; simpl; try done.
      * by rewrite length_alter.
      * by rewrite lookup_insert_eq.
      * intros j. simpl. rewrite lookup_insert_ne by done. destruct (decide (j = pr)) as [->|]; [apply lookup_delete_eq|].
        rewrite lookup_delete_ne by congruence. by apply Ho2.
    + match goal with |- frame _ ?x => assert (Hsl : self x = set_chan None (self k2)) by (apply self_alter; [lia|done]) end.
      split; rewrite ?Hsl; done.
Qed.

(** ** Segments *)

Definition readers (k : kernel) : Prop := exists p, k.(k_pipes) !! pi = Some p /\ p.(pi_readopen) = true.
Definition writers (k : kernel) : Prop := exists p, k.(k_pipes) !! pi = Some p /\ p.(pi_writeopen) = true.
Definition is_killed (k : kernel) : Prop := (self k).(p_killed) <> 0.

(** A segment of write(addr, n) after [cnt] bytes, from [k] with [q] in the pipe to [k']
    with [q']: it appends [l], the next bytes of the buffer as the process sees them, and
    changes nothing that the process sees.  It sleeps when the pipe is full and there is
    more to write.  It ends with the number of bytes written, when they are all written or
    the next cannot be read; or with -1, when nobody can read or the process is killed. *)
Definition write_seg (addr n cnt : Z) (k : kernel) (q l q' : list Z) (k' : kernel) (out : option Z) : Prop :=
  q' = q ++ l /\
  (forall i b, l !! i = Some b -> let a := u64 (addr + cnt + Z.of_nat i) in
     user_va a /\ exists f, sees k a = Some (b, f) /\ has f PTE_U = true) /\
  (forall x, user_va x -> sees k' x = sees k x) /\
  let i := cnt + Z.of_nat (length l) in
  match out with
  | None => Z.of_nat (length q') = PIPESIZE /\ i < n
  | Some v =>
      (v = i /\ v <= Z.max 0 n /\ (n <= v \/ ~ readable k.(k_mem).(pm) (self k).(p_pagetable) (u64 (addr + v)))) \/
      (v = -1 /\ l = [] /\ cnt < n /\ (~ readers k \/ is_killed k))
  end.

(** A segment of read(addr, n): it takes [l] from the front of the queue, and then the
    process sees [l] in its buffer and everything else as before.  It sleeps, having taken
    nothing, when the pipe is empty and somebody can write.  It ends with the number of
    bytes read: [n], or what there was, or up to a byte that is not mapped for the process
    to write; or with -1 and nothing taken, when the process is killed while it
    waits or not even the first byte can be delivered. *)
Definition read_seg (addr n : Z) (k : kernel) (q l q' : list Z) (k' : kernel) (out : option Z) : Prop :=
  q = l ++ q' /\
  (forall x, addr <= x < addr + Z.of_nat (length l) -> writable (self k).(p_sz) k.(k_mem) (self k).(p_pagetable) x) /\
  (forall x, user_va x -> sees k' x = written addr l (sees k) x) /\
  let i := Z.of_nat (length l) in
  match out with
  | None => q = [] /\ l = [] /\ writers k
  | Some v =>
      (v = i /\ v <= Z.max 0 n /\ (q = [] -> ~ writers k) /\
        (n <= v \/ q' = [] \/ 0 < v /\ ~ mapped_w k.(k_mem).(pm) (self k).(p_pagetable) (addr + v))) \/
      (v = -1 /\ l = [] /\
        (q = [] /\ is_killed k \/ q <> [] /\ ~ mapped_w k.(k_mem).(pm) (self k).(p_pagetable) addr))
  end.

(** ** Following a call from sleep to sleep *)

(** A run that started its current segment in [k] with [q] in the pipe, after [cnt] bytes
    and [s] sleeps: every segment that sleeps is one of [seg], it never panics, the fuel
    lasts for [wakes] sleeps, and a run that returns satisfies [Q]. *)
Section does.
Context (seg : Z -> kernel -> list Z -> list Z -> list Z -> kernel -> option Z -> Prop).

Fixpoint does {A} (k : kernel) (q : list Z) (cnt : Z) (s : nat) (r : res kernel A)
    (Q : kernel -> list Z -> Z -> nat -> A -> kernel -> Prop) : Prop :=
  match r with
  | Ok a k' => Q k q cnt s a k'
  | Swtch k' c => exists l q', seg cnt k q l q' k' None /\ holds_queue pi k' q' /\
      forall k2 q2, fit true k2 -> holds_queue pi k2 q2 -> does k2 q2 (cnt + Z.of_nat (length l)) (S s) (c k2) Q
  | NoFuel => (wakes <= s)%nat
  | Panic _ => False
  end.

Lemma does_bind {A B} k q cnt s (c : M kernel A) (f : A -> M kernel B) k1 P Q :
  does k q cnt s (c k1) P -> (forall k q cnt s a k', P k q cnt s a k' -> does k q cnt s (f a k') Q) ->
  does k q cnt s ((x ← c; f x) k1) Q.
Proof using.
  intros Hc Hf. unfold mbind, M_bind. revert Hc. generalize (c k1). clear c k1. intros r. revert k q cnt s.
  induction r as [a k'| |k' c IH|]; intros k q cnt s; cbn [does rbind]; try done.
  - apply Hf.
  - intros (l & q' & H1 & H2 & H3). exists l, q'. split; [done|]. split; [done|]. intros k2 q2 F2 Q2. by apply IH, H3.
Qed.

(** sleep() in the segment. *)
Lemma does_sleep {B} ch k q cnt s k1 l q' (f : unit -> M kernel B) Q :
  inside k1 -> (forall k', frame k1 k' -> seg cnt k q l q' k' None) -> holds_queue pi k1 q' ->
  (forall k2 q2 k3, fit true k2 -> holds_queue pi k2 q2 -> inside k3 -> frame k2 k3 ->
     does k2 q2 (cnt + Z.of_nat (length l)) (S s) (f tt k3) Q) ->
  does k q cnt s ((x ← sleep ch (LkPipe pi); f x) k1) Q.
Proof using.
  intros Hi Hs Hq Hf. destruct (in_sleep ch k1 Hi) as (k' & c & E & F & Hc). unfold mbind, M_bind. rewrite E. cbn [rbind does].
  exists l, q'. split; [by apply Hs|]. split; [unfold holds_queue; by rewrite (fr_pipes _ _ F)|].
  intros k2 q2 F2 Q2. destruct (Hc k2 F2) as (k3 & E3 & I3 & Fr3). rewrite E3. cbn [rbind]. by apply (Hf k2 q2 k3).
Qed.
End does.

(** ** In the middle of a segment that started in [k] *)

Record mid (k k1 : kernel) : Prop := {
  mid_in : inside k1;
  mid_sz : (self k1).(p_sz) = (self k).(p_sz);
  mid_pt : (self k1).(p_pagetable) = (self k).(p_pagetable);
  mid_killed : (self k1).(p_killed) = (self k).(p_killed);
  mid_user : user_ok k1;
  mid_keeps : keeps k.(k_mem) k1.(k_mem) (self k).(p_pagetable);
  mid_open : exists p p1, k.(k_pipes) !! pi = Some p /\ k1.(k_pipes) !! pi = Some p1 /\
    p1.(pi_readopen) = p.(pi_readopen) /\ p1.(pi_writeopen) = p.(pi_writeopen)
}.

Lemma mid_start b k q k1 : fit b k -> holds_queue pi k q -> inside k1 -> frame k k1 -> mid k k1.
Proof using.
  intros Hf (p & Ep & _) Hi F. pose proof (frame_user _ _ F (fit_user _ _ Hf)) as Hu. destruct F. split; try done.
  - rewrite fr_mem0. by intros x.
  - exists p, p. by rewrite fr_pipes0.
Qed.

Lemma mid_frame k k1 k2 : mid k k1 -> inside k2 -> frame k1 k2 -> mid k k2.
Proof using.
  intros [] Hi F. pose proof (frame_user _ _ F mid_user0) as Hu. destruct F. split; try congruence.
  - by rewrite fr_mem0.
  - by rewrite fr_pipes0.
Qed.

(** Other memory, in which the process sees more pages mapped. *)
Lemma mid_mem k k1 s' fl' :
  mid k k1 -> as_inv s' fl' (self k1).(p_pagetable) -> keeps k1.(k_mem) s' (self k).(p_pagetable) -> mid k (set_mem s' k1).
Proof using.
  intros [] Hinv K. split; try done.
  - destruct mid_in0. by split.
  - split; [by exists fl'|apply mid_user0].
  - by eapply keeps_trans.
Qed.

(** Another state of the ring. *)
Lemma mid_pipe k k1 p1 g :
  mid k k1 -> k1.(k_pipes) !! pi = Some p1 -> (g p1).(pi_readopen) = p1.(pi_readopen) -> (g p1).(pi_writeopen) = p1.(pi_writeopen) ->
  mid k (set_pipes (alter g pi k1.(k_pipes)) k1).
Proof using.
  intros [] Ep Hr Hw. split; try done; [by destruct mid_in0|]. destruct mid_open0 as (p & p1' & E & E1 & H1 & H2).
  assert (p1' = p1) as -> by congruence. exists p, (g p1). split; [done|]. split; [cbn; by rewrite lookup_alter_eq, Ep|]. by rewrite Hr, Hw.
Qed.

Lemma sees_byte k x b f : user_ok k -> sees k x = Some (b, f) -> is_byte b.
Proof using.
  intros [[fl Hinv] _]. unfold sees, lview, uview. pose proof (vi_kmem _ _ _ (as_vm _ _ _ Hinv)) as (_ & _ & Hb).
  destruct (has _ PTE_V); [intros [= <- _]; apply Hb|]. case_decide; [|done]. intros [= <- _]. lia.
Qed.

(** copyin() of one byte. *)
Lemma mid_copyin k k1 addr :
  mid k k1 -> 0 <= addr < 2 ^ 64 -> (forall x, user_va x -> sees k1 x = sees k x) ->
  exists r s', zoom (copyin (self k1).(p_sz) (self k1).(p_pagetable) (self k1).(p_pagetable) addr 1) k1 = Ok r (set_mem s' k1) /\
    mid k (set_mem s' k1) /\ (forall x, user_va x -> sees (set_mem s' k1) x = sees k x) /\
    ((r.1 = -1 /\ ~ readable k.(k_mem).(pm) (self k).(p_pagetable) addr) \/
     (r.1 = 0 /\ exists b f, r.2 = [b] /\ is_byte b /\ user_va addr /\ sees k addr = Some (b, f) /\ has f PTE_U = true)).
Proof using LOK.
  intros M Ha V. destruct (mid_user _ _ M) as [[fl Hinv] Hsz].
  destruct (copyin_loop_spec (Z.to_nat 1) (self k1).(p_sz) (self k1).(p_pagetable) addr 1 k1.(k_mem) fl)
    as (r & s' & fl' & E & St & V' & K & Hn & Hb & Hr); [done|done|done|done|done|].
  assert (M' : mid k (set_mem s' k1)).
  { eapply mid_mem; [done|apply St|]. by rewrite <- (mid_pt _ _ M). }
  exists r, s'. split; [unfold zoom, copyin; cbn [lget kernel_mem]; by rewrite E|]. split; [done|]. split.
  { intros x Hx. rewrite <- V by done. by apply V'. }
  destruct Hr as [[-> Hlen]|(-> & Hlen & Hnr)]; [right|left].
  - split; [done|]. destruct r as [r [|b [|? ?]]]; cbn [snd length] in *; try lia.
    destruct (Hb 0 ltac:(lia)) as [Hu (f & Hv & HU)]. rewrite Z.add_0_r in *. cbn in Hv. exists b, f.
    split; [done|]. split; [by eapply (sees_byte k1); [apply M|]|]. split; [done|]. by rewrite <- V.
  - split; [done|]. destruct r as [r [|b bs]]; cbn [snd length] in *; [|lia]. rewrite Z.add_0_r in Hnr.
    intros Hrd. apply Hnr. rewrite (mid_pt _ _ M). apply (readable_keeps (self k).(p_sz) k.(k_mem)); [apply M| |done].
    intros x Hx. specialize (V x Hx). unfold sees in V. by rewrite (mid_sz _ _ M), (mid_pt _ _ M) in V.
Qed.

(** *** Writing *)

Definition wmid (addr cnt : Z) (k : kernel) (q l : list Z) (k1 : kernel) : Prop :=
  mid k k1 /\ holds_queue pi k1 (q ++ l) /\
  (forall i b, l !! i = Some b -> let a := u64 (addr + cnt + Z.of_nat i) in
     user_va a /\ exists f, sees k a = Some (b, f) /\ has f PTE_U = true) /\
  (forall x, user_va x -> sees k1 x = sees k x).

Lemma bind_getpi {B} p k (f : pipe -> M kernel B) : k.(k_pipes) !! pi = Some p -> (p ← getpi pi; f p) k = f p k.
Proof using. intros E. unfold getpi, gets, mbind, M_bind. cbn [rbind]. by rewrite E. Qed.

Lemma frame_holds k k' q : frame k k' -> holds_queue pi k q -> holds_queue pi k' q.
Proof using. intros F. unfold holds_queue. by rewrite (fr_pipes _ _ F). Qed.

Lemma wmid_start b addr cnt k q k1 : fit b k -> holds_queue pi k q -> inside k1 -> frame k k1 -> wmid addr cnt k q [] k1.
Proof using.
  intros Hf Hq Hi F. split; [by eapply mid_start|]. rewrite app_nil_r. split; [by eapply frame_holds|]. split; [done|].
  intros x _. by apply frame_sees.
Qed.

Lemma wmid_frame addr cnt k q l k1 k2 : wmid addr cnt k q l k1 -> inside k2 -> frame k1 k2 -> wmid addr cnt k q l k2.
Proof using.
  intros (M & Hq & Hb & V) Hi F. split; [by eapply mid_frame|]. split; [by eapply frame_holds|]. split; [done|].
  intros x Hx. rewrite (frame_sees _ _ x F). by apply V.
Qed.

Lemma wmid_seg addr n cnt k q l k1 k' out :
  wmid addr cnt k q l k1 -> frame k1 k' ->
  (let i := cnt + Z.of_nat (length l) in
   match out with
   | None => Z.of_nat (length (q ++ l)) = PIPESIZE /\ i < n
   | Some v =>
       (v = i /\ v <= Z.max 0 n /\ (n <= v \/ ~ readable k.(k_mem).(pm) (self k).(p_pagetable) (u64 (addr + v)))) \/
       (v = -1 /\ l = [] /\ cnt < n /\ (~ readers k \/ is_killed k))
   end) -> write_seg addr n cnt k q l (q ++ l) k' out.
Proof using.
  intros (M & Hq & Hb & V) F H. split; [done|]. split; [done|]. split; [|exact H].
  intros x Hx. rewrite (frame_sees _ _ x F). by apply V.
Qed.

(** One more byte. *)
Lemma wmid_put addr cnt k q l k1 b f :
  wmid addr cnt k q l k1 -> Z.of_nat (length (q ++ l)) < PIPESIZE -> is_byte b ->
  let a := u64 (addr + (cnt + Z.of_nat (length l))) in user_va a -> sees k a = Some (b, f) -> has f PTE_U = true ->
  wmid addr cnt k q (l ++ [b]) (set_pipes (alter (put_byte b) pi k1.(k_pipes)) k1).
Proof using.
  intros (M & (p1 & E1 & Hq) & Hb & V) Hlen Hby a Ha Hs HU. split; [by eapply mid_pipe|]. split.
  { exists (put_byte b p1). split; [cbn; by rewrite lookup_alter_eq, E1|]. rewrite app_assoc. by apply queue_put. }
  split; [|exact V]. intros i x Hx. apply lookup_app_Some in Hx as [Hx|[Hge Hx]]; [by apply Hb|].
  apply list_lookup_singleton_Some in Hx as [Hi ->]. replace (Z.of_nat i) with (Z.of_nat (length l)) by lia.
  rewrite <- Z.add_assoc. split; [done|]. by exists f.
Qed.

(** The end of the loop of [pipewrite]. *)
Definition write_post (addr n : Z) (k : kernel) (q : list Z) (cnt : Z) (s : nat) (r : option Z) (k' : kernel) : Prop :=
  match r with
  | None => write_seg addr n cnt k q [] q k' (Some (-1)) /\ holds_queue pi k' q
  | Some j => exists l, wmid addr cnt k q l k' /\ j = cnt + Z.of_nat (length l) /\ j <= Z.max 0 n /\
      (n <= j \/ ~ readable k.(k_mem).(pm) (self k).(p_pagetable) (u64 (addr + j)))
  end.

Lemma dead_test addr cnt k q l k1 p1 :
  wmid addr cnt k q l k1 -> k1.(k_pipes) !! pi = Some p1 ->
  exists d : bool, (if negb p1.(pi_readopen) then mret true else killed pr : M kernel bool) k1 = Ok d k1 /\
    (if d then ~ readers k \/ is_killed k else readers k /\ ~ is_killed k).
Proof using.
  intros (M & _) E1. destruct (mid_open _ _ M) as (p & p1' & E & E1' & Hr & _). assert (p1' = p1) as -> by congruence.
  destruct (pi_readopen p1) eqn:Eo; cbn [negb].
  - rewrite in_killed by apply M. eexists. split; [reflexivity|]. unfold is_killed. rewrite <- (mid_killed _ _ M).
    destruct (Z.eqb_spec (self k1).(p_killed) 0); cbn [negb]; [split; [by exists p|tauto]|by right].
  - exists true. split; [done|]. left. intros (p' & E' & Ho). congruence.
Qed.

Lemma does_pipewrite_loop fuel addr n i k1 k q cnt s l :
  wmid addr cnt k q l k1 -> i = cnt + Z.of_nat (length l) -> i <= Z.max 0 n -> (l = [] \/ readers k /\ ~ is_killed k) ->
  n + Z.of_nat wakes <= Z.of_nat fuel + i + Z.of_nat s ->
  does (write_seg addr n) k q cnt s (pipewrite_loop fuel pr pi addr n i k1) (write_post addr n).
Proof using LOK.
  revert i k1 k q cnt s l. induction fuel as [|fuel IH]; intros i k1 k q cnt s l Hm Hi Hn Hl Hf; cbn [pipewrite_loop];
    (destruct (Z.ltb_spec i n) as [Hlt|Hge]; [|by exists l; auto]);
    pose proof Hm as (M & (p1 & E1 & Hq) & _ & V); rewrite (bind_getpi p1) by done;
    destruct (dead_test _ _ _ _ _ _ p1 Hm E1) as (d & Ed & Hd); rewrite (bind_ok _ _ _ _ _ Ed);
    (destruct d;
      [destruct (in_release k1 (mid_in _ _ M)) as (k2 & E2 & F2); rewrite (bind_ok _ _ _ _ _ E2);
       assert (l = []) as -> by tauto; rewrite app_nil_r in *; cbn [length] in *;
       split; [|eapply frame_holds; [exact F2|by exists p1]]; rewrite <- (app_nil_r q) at 2;
       apply (wmid_seg _ _ _ _ _ _ _ _ _ Hm F2); right; auto with lia|]).
  { cbn [does nofuel]. lia. }
  destruct (Z.eqb_spec p1.(pi_nwrite) (u32 (p1.(pi_nread) + PIPESIZE))) as [Efull|Efull].
  - apply (queue_full _ _ Hq) in Efull. destruct (in_wakeup (Some (ChPipeRead pi)) k1 (mid_in _ _ M)) as (k2 & E2 & I2 & F2).
    rewrite (bind_ok _ _ _ _ _ E2). apply (does_sleep _ _ _ _ _ _ _ l (q ++ l)).
    + done.
    + intros k' F'. apply (wmid_seg _ _ _ _ _ _ k1); [done|by eapply frame_trans|]. split; [done|lia].
    + eapply frame_holds; [done|by exists p1].
    + intros k3 q3 k4 F3 H3 I4 F4. apply (IH i k4 k3 q3 _ _ []); [by eapply wmid_start|cbn; lia|lia|by left|lia].
  - assert (Hlen : Z.of_nat (length (q ++ l)) < PIPESIZE).
    { pose proof (q_size _ _ Hq). rewrite (queue_full _ _ Hq) in Efull. lia. }
    unfold getp. rewrite bind_gets. fold (self k1).
    destruct (mid_copyin k k1 (u64 (addr + i)) M (u64_range _) V) as (r & s' & E & M' & V' & Hr). rewrite (bind_ok _ _ _ _ _ E).
    assert (Hm' : wmid addr cnt k q l (set_mem s' k1)) by (destruct Hm as (_ & H2 & H3 & _); split; auto).
    destruct Hr as [[-> Hnr]|(-> & b & f & -> & Hby & Hu & Hs & HU)]; cbn [Z.eqb Pos.eqb].
    + exists l. auto.
    + unfold modpi. mstep. cbn [nth]. apply (IH _ _ k q cnt s (l ++ [b])); try lia.
      * rewrite Hi in Hu, Hs. by eapply wmid_put.
      * rewrite length_app. cbn. lia.
      * by right.
Qed.

Lemma does_pipewrite addr n k q :
  fit false k -> holds_queue pi k q ->
  does (write_seg addr n) k q 0 0 (pipewrite pi addr n k)
    (fun k q cnt s v k' => exists l q', write_seg addr n cnt k q l q' k' (Some v) /\ holds_queue pi k' q').
Proof using LOK.
  intros Hf Hq. unfold pipewrite. destruct (enter_call (fun pr => r ← pipewrite_loop (Z.to_nat n + wakes) pr pi addr n 0;
    match r with None => mret (-1) | Some i => wakeup (Some (ChPipeRead pi)) ;; release (LkPipe pi) ;; mret i end) k Hf)
    as (k1 & E & I1 & F1). rewrite E.
  eapply does_bind; [eapply (does_pipewrite_loop _ _ _ _ _ _ _ _ _ []); [by eapply wmid_start|cbn; lia|lia|by left|lia]|].
  clear. intros k q cnt s [j|] k1; cbn [write_post].
  - intros (l & Hm & -> & Hn & Hend). pose proof Hm as (M & _).
    destruct (in_wakeup (Some (ChPipeRead pi)) k1 (mid_in _ _ M)) as (k2 & E2 & I2 & F2). rewrite (bind_ok _ _ _ _ _ E2).
    destruct (in_release k2 I2) as (k3 & E3 & F3). rewrite (bind_ok _ _ _ _ _ E3). exists l, (q ++ l).
    pose proof (frame_trans _ _ _ F2 F3) as F. split; [apply (wmid_seg _ _ _ _ _ _ k1); auto|].
    eapply frame_holds; [exact F|apply Hm].
  - intros [H1 H2]. exists [], q. auto.
Qed.

(** *** Reading *)

Definition rmid (addr : Z) (k : kernel) (q l q' : list Z) (k1 : kernel) : Prop :=
  mid k k1 /\ q = l ++ q' /\ holds_queue pi k1 q' /\
  (forall x, addr <= x < addr + Z.of_nat (length l) -> writable (self k).(p_sz) k.(k_mem) (self k).(p_pagetable) x) /\
  (forall x, user_va x -> sees k1 x = written addr l (sees k) x).

Lemma written_nil dst v x : written dst [] v x = v x.
Proof using. unfold written. rewrite decide_False; [done|cbn; lia]. Qed.

Lemma rmid_start b addr k q k1 : fit b k -> holds_queue pi k q -> inside k1 -> frame k k1 -> rmid addr k q [] q k1.
Proof using.
  intros Hf Hq Hi F. split; [by eapply mid_start|]. split; [done|]. split; [by eapply frame_holds|]. split; [intros x Hx; cbn in Hx; lia|].
  intros x _. rewrite written_nil. by apply frame_sees.
Qed.

Lemma rmid_seg addr n k q l q' k1 k' out :
  rmid addr k q l q' k1 -> frame k1 k' ->
  (let i := Z.of_nat (length l) in
   match out with
   | None => q = [] /\ l = [] /\ writers k
   | Some v =>
       (v = i /\ v <= Z.max 0 n /\ (q = [] -> ~ writers k) /\
         (n <= v \/ q' = [] \/ 0 < v /\ ~ mapped_w k.(k_mem).(pm) (self k).(p_pagetable) (addr + v))) \/
       (v = -1 /\ l = [] /\
         (q = [] /\ is_killed k \/ q <> [] /\ ~ mapped_w k.(k_mem).(pm) (self k).(p_pagetable) addr))
   end) -> read_seg addr n k q l q' k' out.
Proof using.
  intros (M & Hq & _ & Hw & V) F H. split; [done|]. split; [done|]. split; [|exact H].
  intros x Hx. rewrite (frame_sees _ _ x F). by apply V.
Qed.

(** copyout() of one byte. *)
Lemma mid_copyout k k1 addr l a b :
  mid k k1 -> 0 <= a < 2 ^ 64 -> is_byte b -> (forall x, user_va x -> sees k1 x = written addr l (sees k) x) ->
  exists r s', zoom (copyout (self k1).(p_sz) (self k1).(p_pagetable) (self k1).(p_pagetable) a [b]) k1 = Ok r (set_mem s' k1) /\
    mid k (set_mem s' k1) /\
    ((r = -1 /\ ~ mapped_w k.(k_mem).(pm) (self k).(p_pagetable) a /\ forall x, user_va x -> sees (set_mem s' k1) x = sees k1 x) \/
     (r = 0 /\ writable (self k).(p_sz) k.(k_mem) (self k).(p_pagetable) a /\
      forall x, user_va x -> sees (set_mem s' k1) x = written a [b] (sees k1) x)).
Proof using LOK.
  intros M Ha Hb V. destruct (mid_user _ _ M) as [[fl Hinv] Hsz].
  destruct (copyout_loop_spec 1 (self k1).(p_sz) (self k1).(p_pagetable) a [b] k1.(k_mem) fl)
    as (r & s' & fl' & E & St & n & Hn & Hr & V' & Hw & K); [done|by constructor|done|done|done|].
  assert (M' : mid k (set_mem s' k1)).
  { eapply mid_mem; [done|apply St|]. by rewrite <- (mid_pt _ _ M). }
  assert (Vl : forall x, user_va x -> lview (self k).(p_sz) k1.(k_mem).(pm) (self k).(p_pagetable) x = written addr l (sees k) x).
  { intros x Hx. specialize (V x Hx). unfold sees in V at 1. by rewrite (mid_sz _ _ M), (mid_pt _ _ M) in V. }
  exists r, s'. split; [unfold zoom, copyout; cbn [lget kernel_mem length]; by rewrite E|]. split; [done|].
  destruct Hr as [[-> ->]|(-> & Hlt & Hnm)]; cbn [length] in *; [right|left].
  - split; [done|]. split; [|intros x Hx; by apply V'].
    destruct (Hw a ltac:(lia)) as [(Hu & b0 & f & Hv & Hf) _]. split; [done|].
    specialize (V a Hu). unfold sees in V at 1. rewrite Hv in V. unfold written in V.
    destruct (sees k a) as [[b1 f1]|] eqn:Es; [|by case_decide]. exists b1, f1. split; [exact Es|].
    assert (f1 = f) as -> by (case_decide; cbn in V; congruence). done.
  - assert (n = 0%nat) as -> by lia. cbn [take] in V'. split; [done|]. split; [|intros x Hx; etransitivity; [by apply V'|apply written_nil]].
    rewrite Z.add_0_r in Hnm. intros Hmw. apply Hnm. rewrite (mid_pt _ _ M).
    apply (mapped_w_keeps (self k).(p_sz) k.(k_mem) k1.(k_mem) _ a addr l); [apply M|by apply Vl|done].
Qed.

(** The copying loop of [piperead], which does not sleep. *)
Lemma piperead_loop_run todo addr n k1 k q l q' :
  rmid addr k q l q' k1 -> 0 <= addr < 2 ^ 64 -> Z.of_nat todo + Z.of_nat (length l) = Z.max 0 n ->
  exists v k2 l2 q2, piperead_loop todo pr pi addr (Z.of_nat (length l)) k1 = Ok v k2 /\ rmid addr k q l2 q2 k2 /\
    ((v = Z.of_nat (length l2) /\ v <= Z.max 0 n /\
       (n <= v \/ q2 = [] \/ 0 < v /\ ~ mapped_w k.(k_mem).(pm) (self k).(p_pagetable) (addr + v))) \/
     (v = -1 /\ l2 = [] /\ q <> [] /\ ~ mapped_w k.(k_mem).(pm) (self k).(p_pagetable) addr)).
Proof using LOK.
  revert k1 l q'. induction todo as [|todo IH]; intros k1 l q' Hm Ha Ht; cbn [piperead_loop].
  { eexists _, k1, l, q'. split; [reflexivity|]. split; [done|]. left. lia. }
  pose proof Hm as (M & Eq & (p1 & E1 & Hq) & Hw & V). rewrite (bind_getpi p1) by done.
  destruct (Z.eqb_spec p1.(pi_nread) p1.(pi_nwrite)) as [Ee|Ee].
  { apply (queue_empty _ _ Hq) in Ee. eexists _, k1, l, q'. split; [reflexivity|]. split; [done|]. left. split; [done|]. split; [lia|auto]. }
  rewrite (queue_empty _ _ Hq) in Ee. destruct q' as [|b q']; [done|]. rewrite (queue_next _ _ _ Hq).
  unfold getp. rewrite bind_gets. fold (self k1).
  assert (Hu : u64 (addr + Z.of_nat (length l)) = addr + Z.of_nat (length l)).
  { apply u64_small. destruct l as [|x l]; [cbn; lia|].
    destruct (Hw (addr + Z.of_nat (length l))) as [[_ Hx] _]; [cbn [length]; lia|]. rewrite TRAPFRAME_pages in Hx. cbn [length]. lia. }
  pose proof (q_bytes _ _ Hq) as [Hb _]%Forall_cons. rewrite Hu.
  destruct (mid_copyout k k1 addr l (addr + Z.of_nat (length l)) b M) as (r & s' & E & M' & Hr);
    [rewrite <- Hu; apply u64_range|done|done|]. rewrite (bind_ok _ _ _ _ _ E).
  destruct Hr as [(-> & Hnm & V')|(-> & Hwr & V')]; cbn [Z.eqb Pos.eqb].
  - eexists _, _, l, (b :: q'). split; [reflexivity|]. split.
    { split; [done|]. split; [done|]. split; [by exists p1|]. split; [done|]. intros x Hx. by rewrite V', V. }
    destruct l as [|x l]; cbn [length] in *; [right|left].
    + cbn. split; [done|]. split; [done|]. split; [by subst q|]. by rewrite Z.add_0_r in Hnm.
    + destruct (Z.eqb_spec (Z.of_nat (S (length l))) 0); [lia|]. split; [done|]. split; [lia|]. right. right. split; [lia|done].
  - unfold modpi. mstep. replace (Z.of_nat (length l) + 1) with (Z.of_nat (length (l ++ [b]))) by (rewrite length_app; cbn; lia).
    apply (IH _ (l ++ [b]) q'); [|done|rewrite length_app; cbn; lia].
    split; [by eapply (mid_pipe k (set_mem s' k1) p1)|]. split; [by rewrite <- app_assoc|]. split.
    { exists (take_byte p1). split; [cbn; by rewrite lookup_alter_eq, E1|]. by eapply queue_take. }
    rewrite length_app. cbn [length]. split.
    + intros x Hx. destruct (decide (x = addr + Z.of_nat (length l))) as [->|]; [done|]. apply Hw. lia.
    + intros x Hx. rewrite <- written_app. etransitivity; [by apply V'|]. unfold written at 1 2.
      by rewrite V.
Qed.

(** The waiting loop. *)
Definition wait_post (addr n : Z) (k : kernel) (q : list Z) (cnt : Z) (s : nat) (ok : bool) (k' : kernel) : Prop :=
  cnt = 0 /\
  if ok then rmid addr k q [] q k' /\ (q = [] -> ~ writers k)
  else read_seg addr n k q [] q k' (Some (-1)) /\ holds_queue pi k' q.

Lemma does_piperead_wait fuel addr n k1 k q s :
  rmid addr k q [] q k1 -> (wakes <= fuel + s)%nat ->
  does (fun _ => read_seg addr n) k q 0 s (piperead_wait fuel pr pi k1) (wait_post addr n).
Proof using LOK.
  revert k1 k q s. induction fuel as [|fuel IH]; intros k1 k q s Hm Hf; cbn [piperead_wait];
    pose proof Hm as (M & _ & (p1 & E1 & Hq) & _ & V); rewrite (bind_getpi p1) by done;
    destruct (mid_open _ _ M) as (p & p1' & E & E1' & _ & Hwo); assert (p1' = p1) as -> by congruence;
    pose proof (queue_empty _ _ Hq) as He;
    (destruct (Z.eqb_spec p1.(pi_nread) p1.(pi_nwrite)) as [Ee|Ee]; cbn [andb];
      [|split; [done|]; split; [done|]; intros Hn; by apply He in Hn]);
    (destruct (pi_writeopen p1) eqn:Ew;
      [|split; [done|]; split; [done|]; intros _ (p' & Ep' & Ho); congruence]);
    apply He in Ee; subst q; rewrite (bind_ok _ _ _ _ _ (in_killed k1 (mid_in _ _ M)));
    (destruct (Z.eqb_spec (self k1).(p_killed) 0) as [Ek|Ek]; cbn [negb];
      [|destruct (in_release k1 (mid_in _ _ M)) as (k2 & E2 & F2); rewrite (bind_ok _ _ _ _ _ E2); split; [done|];
        split; [|eapply frame_holds; [exact F2|by exists p1]]; apply (rmid_seg _ _ _ _ _ _ _ _ _ Hm F2); right;
        split; [done|]; split; [done|]; left; split; [done|]; unfold is_killed; by rewrite <- (mid_killed _ _ M)]).
  { cbn [does nofuel]. lia. }
  apply (does_sleep _ _ _ _ _ _ _ [] []).
  - apply M.
  - intros k' F'. apply (rmid_seg _ _ _ _ _ _ k1); [done|done|]. split; [done|]. split; [done|]. exists p. by rewrite <- Hwo.
  - by exists p1.
  - intros k2 q2 k3 F2 H2 I3 F3. apply IH; [by eapply rmid_start|lia].
Qed.

Lemma does_piperead addr n k q :
  fit false k -> holds_queue pi k q -> 0 <= addr < 2 ^ 64 ->
  does (fun _ => read_seg addr n) k q 0 0 (piperead pi addr n k)
    (fun k q cnt s v k' => exists l q', read_seg addr n k q l q' k' (Some v) /\ holds_queue pi k' q').
Proof using LOK.
  intros Hf Hq Ha. unfold piperead. destruct (enter_call (fun pr => ok ← piperead_wait wakes pr pi;
    if negb ok then mret (-1)
    else i ← piperead_loop (Z.to_nat n) pr pi addr 0; wakeup (Some (ChPipeWrite pi)) ;; release (LkPipe pi) ;; mret i) k Hf)
    as (k1 & E & I1 & F1). rewrite E.
  eapply does_bind; [apply (does_piperead_wait _ addr n); [by eapply rmid_start|lia]|].
  clear - LOK Ha. intros k q cnt s [] k1 [_ H]; cbn [negb].
  - destruct H as [Hm Hw]. destruct (piperead_loop_run (Z.to_nat n) addr n k1 k q [] q Hm Ha) as (v & k2 & l & q2 & E & Hm2 & Hv); [cbn; lia|].
    cbn [length] in E. rewrite (bind_ok _ _ _ _ _ E). pose proof Hm2 as (M & _ & H2 & _).
    destruct (in_wakeup (Some (ChPipeWrite pi)) k2 (mid_in _ _ M)) as (k3 & E3 & I3 & F3). rewrite (bind_ok _ _ _ _ _ E3).
    destruct (in_release k3 I3) as (k4 & E4 & F4). rewrite (bind_ok _ _ _ _ _ E4). exists l, q2.
    pose proof (frame_trans _ _ _ F3 F4) as F. split; [apply (rmid_seg _ _ _ _ _ _ k2); [done|done|]|by eapply frame_holds].
    destruct Hv as [(-> & Hn & Hend)|(-> & -> & Hne & Hnm)]; [left; auto|right; auto].
  - destruct H as [H1 H2]. by exists [], q.
Qed.
End process.

(** ** A pipe and its users *)

(** A system call on the pipe; a caller is known by its slot of the process table. *)
Inductive pcall := PWrite (addr n : Z) | PRead (addr n : Z).
Definition addr_of (c : pcall) : Z := match c with PWrite addr _ | PRead addr _ => addr end.

(** A process in such a call: where it goes on when it is run, or what it got. *)
Inductive pthread := Runs (resumed : bool) (c : kernel -> res kernel Z) | Returned (v : Z).

(** A segment of the call [g_call]: the state before and after, and the answer of the call
    or none when it has gone to sleep. *)
Record segment := mksegment { g_call : nat; g_from : kernel; g_to : kernel; g_out : option Z }.

Definition sleeps (i : nat) (T : list segment) : nat := length (filter (fun g => g.(g_call) = i /\ g.(g_out) = None) T).

Section system.
Context `{L : KernelLayout} {LOK : KernelLayoutOK L} `{W : Wakes} (pi : Z) (calls : list (nat * pcall)).

Definition call_start (c : nat * pcall) : pthread :=
  Runs false (match c.2 with PWrite addr n => pipewrite pi addr n | PRead addr n => piperead pi addr n end).

(** One of the processes runs until it returns or sleeps, or the kernel does something
    else. *)
Inductive pipe_step : kernel * list pthread -> list segment -> kernel * list pthread -> Prop :=
  | step_returns k ts i c b f v k' :
      calls !! i = Some c -> ts !! i = Some (Runs b f) -> fit pi c.1 b k -> f k = Ok v k' ->
      pipe_step (k, ts) [mksegment i k k' (Some v)] (k', <[i := Returned v]> ts)
  | step_sleeps k ts i c b f k' f' :
      calls !! i = Some c -> ts !! i = Some (Runs b f) -> fit pi c.1 b k -> f k = Swtch k' f' ->
      pipe_step (k, ts) [mksegment i k k' None] (k', <[i := Runs true f']> ts)
  | step_other k ts k' : same_ring pi k k' -> pipe_step (k, ts) [] (k', ts).

Inductive pipe_run : kernel * list pthread -> list segment -> kernel * list pthread -> Prop :=
  | run_nil s : pipe_run s [] s
  | run_step s T s1 T' s' : pipe_step s T s1 -> pipe_run s1 T' s' -> pipe_run s (T ++ T') s'.

(** What the segments of a run should do to a queue: [moved] is the number of bytes each
    call has moved before, [ins] are the bytes put into the queue and [outs] those taken
    out of it. *)
Definition advance (moved : nat -> Z) (i : nat) (l : list Z) : nat -> Z :=
  fun j => if decide (j = i) then moved i + Z.of_nat (length l) else moved j.

Inductive queue_spec : (nat -> Z) -> list Z -> list segment -> list Z -> list Z -> list Z -> Prop :=
  | spec_nil moved q : queue_spec moved q [] [] [] q
  | spec_write moved q i k k' out T pr addr n l q1 ins outs q' :
      calls !! i = Some (pr, PWrite addr n) -> write_seg pi pr addr n (moved i) k q l q1 k' out ->
      queue_spec (advance moved i l) q1 T ins outs q' ->
      queue_spec moved q (mksegment i k k' out :: T) (l ++ ins) outs q'
  | spec_read moved q i k k' out T pr addr n l q1 ins outs q' :
      calls !! i = Some (pr, PRead addr n) -> read_seg pi pr addr n k q l q1 k' out ->
      queue_spec (advance moved i l) q1 T ins outs q' ->
      queue_spec moved q (mksegment i k k' out :: T) ins (l ++ outs) q'.

(** First in, first out. *)
Lemma queue_spec_fifo moved q T ins outs q' : queue_spec moved q T ins outs q' -> q ++ ins = outs ++ q'.
Proof using.
  induction 1 as [moved q|moved q i k k' out T pr addr n l q1 ins outs q' Hc [-> _] _ IH|moved q i k k' out T pr addr n l q1 ins outs q' Hc [-> _] _ IH].
  - by rewrite app_nil_r.
  - by rewrite app_assoc.
  - by rewrite <- !app_assoc, IH.
Qed.

(** *** The invariant of a run *)

Definition seg_of (c : nat * pcall) : Z -> kernel -> list Z -> list Z -> list Z -> kernel -> option Z -> Prop :=
  match c.2 with PWrite addr n => write_seg pi c.1 addr n | PRead addr n => fun _ => read_seg pi c.1 addr n end.

Definition thread_ok (c : nat * pcall) (cnt : Z) (s : nat) (t : pthread) : Prop :=
  match t with
  | Runs b f => forall k q, fit pi c.1 b k -> holds_queue pi k q ->
      does pi c.1 (seg_of c) k q cnt s (f k)
        (fun k q cnt s v k' => exists l q', seg_of c cnt k q l q' k' (Some v) /\ holds_queue pi k' q')
  | Returned _ => True
  end.

Definition sys_ok (moved : nat -> Z) (slept : nat -> nat) (q : list Z) (s : kernel * list pthread) : Prop :=
  holds_queue pi s.1 q /\ length s.2 = length calls /\
  forall i c t, calls !! i = Some c -> s.2 !! i = Some t -> thread_ok c (moved i) (slept i) t.

Lemma sys_ok_init k q :
  Forall (fun c => 0 <= addr_of c.2 < 2 ^ 64) calls -> holds_queue pi k q ->
  sys_ok (fun _ => 0) (fun _ => 0%nat) q (k, call_start <$> calls).
Proof using LOK.
  intros Ha Hq. split; [done|]. cbn. split; [by rewrite length_fmap|].
  intros i c t Hc Ht. rewrite list_lookup_fmap, Hc in Ht. simplify_eq/=. pose proof (Forall_lookup_1 _ _ _ _ Ha Hc) as Hac.
  destruct c as [pr [addr n|addr n]]; intros k2 q2 F2 H2.
  - by apply does_pipewrite.
  - by apply does_piperead.
Qed.

Lemma sleeps_app i T T' : sleeps i (T ++ T') = (sleeps i T + sleeps i T')%nat.
Proof using. unfold sleeps. by rewrite list.filter_app, length_app. Qed.

(** Call [i] has run a segment. *)
Lemma sys_ok_segment moved slept q k ts i c l q' k' out t T :
  sys_ok moved slept q (k, ts) -> calls !! i = Some c -> holds_queue pi k' q' -> T = [mksegment i k k' out] ->
  thread_ok c (moved i + Z.of_nat (length l)) (slept i + sleeps i T) t ->
  sys_ok (advance moved i l) (fun j => slept j + sleeps j T)%nat q' (k', <[i := t]> ts).
Proof using.
  intros (_ & Hl & Ht) Hc Hq' ET Hi. split; [done|]. split; [cbn; by rewrite length_insert|].
  cbn in *. intros j c' t' Hc' Ht'. unfold advance. destruct (decide (j = i)) as [->|Hne].
  - pose proof (lookup_lt_Some _ _ _ Hc). rewrite list_lookup_insert_eq in Ht' by lia. by simplify_eq.
  - rewrite list_lookup_insert_ne in Ht' by done. replace (slept j + sleeps j T)%nat with (slept j); [by apply Ht|].
    rewrite ET. unfold sleeps. rewrite filter_cons_False; [cbn; lia|]. cbn. intros [? _]. congruence.
Qed.

Lemma spec_segment moved q i c k k' out l q1 T ins outs q' :
  calls !! i = Some c -> seg_of c (moved i) k q l q1 k' out -> queue_spec (advance moved i l) q1 T ins outs q' ->
  exists ins' outs', queue_spec moved q (mksegment i k k' out :: T) ins' outs' q'.
Proof using.
  intros Hc Hs Hq. destruct c as [pr [addr n|addr n]].
  - exists (l ++ ins), outs. eapply spec_write; [exact Hc|exact Hs|exact Hq].
  - exists ins, (l ++ outs). eapply spec_read; [exact Hc|exact Hs|exact Hq].
Qed.

Lemma run_ok s T s' :
  pipe_run s T s' -> forall moved slept q, sys_ok moved slept q s ->
  exists ins outs q' moved' slept', queue_spec moved q T ins outs q' /\ sys_ok moved' slept' q' s' /\
    forall i, slept' i = (slept i + sleeps i T)%nat.
Proof using.
  induction 1 as [s|s T s1 T' s' Hs _ IH]; intros moved slept q Hok.
  { exists [], [], q, moved, slept. split; [constructor|]. split; [done|]. intros i. cbn. lia. }
  destruct Hs as [k ts i c b f v k' Hc Hi Hf Ef|k ts i c b f k' f' Hc Hi Hf Ef|k ts k' Hsame].
  - pose proof Hok as (Hq & _ & Ht). specialize (Ht i c _ Hc Hi k q Hf Hq). rewrite Ef in Ht. destruct Ht as (l & q1 & Hs & Hq1).
    destruct (IH _ _ _ (sys_ok_segment moved slept q k ts i c l q1 k' (Some v) (Returned v) _ Hok Hc Hq1 eq_refl I))
      as (ins & outs & q' & moved' & slept' & H1 & H2 & H3).
    destruct (spec_segment _ _ _ _ _ _ _ _ _ _ _ _ _ Hc Hs H1) as (ins' & outs' & H1'). exists ins', outs', q', moved', slept'.
    split; [done|]. split; [done|]. intros j. rewrite H3, sleeps_app. lia.
  - pose proof Hok as (Hq & _ & Ht). specialize (Ht i c _ Hc Hi k q Hf Hq). rewrite Ef in Ht.
    destruct Ht as (l & q1 & Hs & Hq1 & Hnext).
    assert (Hto : thread_ok c (moved i + Z.of_nat (length l)) (slept i + sleeps i [mksegment i k k' None]) (Runs true f')).
    { unfold sleeps. rewrite filter_cons_True by done. cbn [length filter list_filter]. rewrite Nat.add_1_r. exact Hnext. }
    destruct (IH _ _ _ (sys_ok_segment moved slept q k ts i c l q1 k' None _ _ Hok Hc Hq1 eq_refl Hto))
      as (ins & outs & q' & moved' & slept' & H1 & H2 & H3).
    destruct (spec_segment _ _ _ _ _ _ _ _ _ _ _ _ _ Hc Hs H1) as (ins' & outs' & H1'). exists ins', outs', q', moved', slept'.
    split; [done|]. split; [done|]. intros j. rewrite H3, sleeps_app. lia.
  - apply (IH moved slept q). destruct Hok as (Hq & Hok). split; [by eapply same_ring_holds|done].
Qed.

(** A process that is run gets on, unless it has used up its sleeps. *)
Lemma sys_ok_progress moved slept q k ts i c b f :
  sys_ok moved slept q (k, ts) -> calls !! i = Some c -> ts !! i = Some (Runs b f) -> fit pi c.1 b k -> (slept i < wakes)%nat ->
  exists g s', pipe_step (k, ts) [g] s' /\ g.(g_call) = i.
Proof using.
  intros (Hq & _ & Ht) Hc Hi Hf Hs. specialize (Ht i c _ Hc Hi k q Hf Hq). destruct (f k) as [v k'|m|k' f'|] eqn:Ef; cbn [does] in Ht.
  - eexists _, _. split; [by eapply step_returns|done].
  - done.
  - eexists _, _. split; [by eapply step_sleeps|done].
  - lia.
Qed.
End system.

(** C12. A pipe is a queue of bytes.  Any number of processes call read() and write() on a
    pipe, in any order and with any interleaving of their sleeps; between the segments the
    kernel may do anything but touch the ring.  Every segment of a write() appends the next
    bytes of the caller's buffer, as the caller sees them, and every segment of a read()
    takes the first bytes of the queue and leaves them in the caller's buffer, each with
    the answer or the sleep that [write_seg] and [read_seg] describe.  So the bytes taken,
    followed by the at most PIPESIZE bytes in the pipe, are the bytes it held at first
    followed by the bytes put into it, also when the counters wrap.  No call panics or
    gets stuck: a process that the scheduler runs, and that has slept fewer times than
    the bound on sleeps, runs on to an answer or to its next sleep. *)
Theorem pipe_fifo `{L : KernelLayout} {LOK : KernelLayoutOK L} `{W : Wakes} pi calls q0 k T k' ts :
  Forall (fun c => 0 <= addr_of c.2 < 2 ^ 64) calls -> holds_queue pi k q0 ->
  pipe_run pi calls (k, call_start pi <$> calls) T (k', ts) ->
  exists ins outs q, queue_spec pi calls (fun _ => 0) q0 T ins outs q /\ holds_queue pi k' q /\
    Z.of_nat (length q) <= PIPESIZE /\ q0 ++ ins = outs ++ q /\
    forall i c b f, calls !! i = Some c -> ts !! i = Some (Runs b f) -> fit pi c.1 b k' -> (sleeps i T < wakes)%nat ->
      exists g s', pipe_step pi calls (k', ts) [g] s' /\ g.(g_call) = i.
Proof.
  intros Ha Hq Hr. destruct (run_ok pi calls _ _ _ Hr _ _ _ (sys_ok_init pi calls k q0 Ha Hq))
    as (ins & outs & q & moved & slept & H1 & H2 & H3). pose proof H2 as (Hq' & _).
  exists ins, outs, q. split; [done|]. split; [done|]. split; [by destruct Hq' as (p & _ & [])|].
  split; [by eapply queue_spec_fifo|]. intros i c b f Hc Hi Hf Hs. eapply sys_ok_progress; [done..|]. rewrite H3. cbn. lia.
Qed.

(** ** Witness: a reader sleeps on the empty pipe, a writer puts three bytes and the
    reader takes two of them.  The two counters start at 2^32 - 1. *)

Definition demo_user (i : nat) : proc :=
  mkproc RUNNING None 0 0 (Z.of_nat i + 1) None 0 12288 (demo_page (Z.of_nat i + 1)) 0 zero_context
    (replicate NOFILE None) None (replicate 16 0) 1 0.
Definition demo_procs : list proc := demo_user 0 :: demo_user 1 :: replicate 62 zero_proc.
Definition demo_ring : pipe := mkpipe (replicate 512 0) (2 ^ 32 - 1) (2 ^ 32 - 1) true true.
Definition demo_pi : Z := demo_page 20.

(** A hart runs process [i] in its first address space. *)
Definition demo_runs (i : nat) (l : gmap lockid Z) (noff : Z) (k : kernel) : kernel :=
  set_mem demo_kmem (set_locks l (set_cpu (mkcpu (Some i) noff false false 0) (set_procs demo_procs k))).
Definition demo_start : kernel := demo_runs 0 ∅ 0 (set_pipes {[demo_pi := demo_ring]} zero_kernel).

Definition state_of {A} (r : res kernel A) : kernel := match r with Ok _ k | Swtch k _ => k | _ => zero_kernel end.
Definition rest_of {A} (r : res kernel A) : kernel -> res kernel A := match r with Swtch _ c => c | _ => fun _ => r end.
Definition slept {A} (r : res kernel A) : bool := match r with Swtch _ _ => true | _ => false end.
Definition answered (v : Z) (r : res kernel Z) : bool := match r with Ok a _ => a =? v | _ => false end.

Lemma slept_eq {A} (r : res kernel A) : slept r = true -> r = Swtch (state_of r) (rest_of r).
Proof. by destruct r. Qed.
Lemma answered_eq v (r : res kernel Z) : answered v r = true -> r = Ok v (state_of r).
Proof. destruct r; cbn; try done. by intros ->%Z.eqb_eq. Qed.

#[local] Instance pipe_wakes : Wakes := 1%nat.
#[local] Instance pipe_layout : KernelLayout := demo_layout.

Definition demo_read1 : res kernel Z := piperead demo_pi 5000 2 demo_start.
Definition demo_k1 : kernel := demo_runs 1 ∅ 0 (state_of demo_read1).
Definition demo_write : res kernel Z := pipewrite demo_pi 5000 3 demo_k1.
Definition demo_k2 : kernel := demo_runs 0 {[LkProc 0 := 0]} 1 (state_of demo_write).
Definition demo_read2 : res kernel Z := rest_of demo_read1 demo_k2.

Lemma same_ring_runs i l noff k : same_ring demo_pi k (demo_runs i l noff k).
Proof. intros p Hp. by exists p. Qed.
Lemma demo_read1_eq : piperead demo_pi 5000 2 demo_start = Swtch (state_of demo_read1) (rest_of demo_read1).
Proof. unfold demo_read1. apply slept_eq. vm_compute. reflexivity. Qed.
Lemma demo_write_eq : pipewrite demo_pi 5000 3 demo_k1 = Ok 3 (state_of demo_write).
Proof. unfold demo_write. apply answered_eq. vm_compute. reflexivity. Qed.
Lemma demo_read2_eq : rest_of demo_read1 demo_k2 = Ok 2 (state_of demo_read2).
Proof. unfold demo_read2. apply answered_eq. vm_compute. reflexivity. Qed.

Lemma demo_user_ok i k : (i < 2)%nat -> k.(k_procs) = demo_procs -> k.(k_mem) = demo_kmem -> user_ok i k.
Proof.
  intros Hi Ep Em. assert (Es : self i k = demo_user i) by (unfold self; rewrite Ep; by destruct i as [|[|i]]; [..|lia]).
  unfold user_ok. rewrite Es, Em. split; [exists demo_free; apply demo_root; lia|]. by vm_compute.
Qed.

Lemma demo_fit_start i k : (i < 2)%nat -> fit demo_pi i false (demo_runs i ∅ 0 k).
Proof.
  intros Hi. split; [done|split; [done|unfold NPROC; lia]|done|done|done|by apply demo_user_ok].
Qed.
Lemma demo_fit_resumed k : fit demo_pi 0 true (demo_runs 0 {[LkProc 0 := 0]} 1 k).
Proof.
  split; [done|split; [done|unfold NPROC; lia]|done| |done|apply demo_user_ok; [lia|done|done]].
  intros j Hj. apply (lookup_singleton_ne (M := gmap lockid)). congruence.
Qed.

Lemma pipe_fifo_witness :
  let calls := [(0%nat, PRead 5000 2); (1%nat, PWrite 5000 3)] in
  let T := [mksegment 0 demo_start (state_of demo_read1) None; mksegment 1 demo_k1 (state_of demo_write) (Some 3);
            mksegment 0 demo_k2 (state_of demo_read2) (Some 2)] in
  holds_queue demo_pi demo_start [] /\
  exists ins outs q, queue_spec demo_pi calls (fun _ => 0) [] T ins outs q /\ holds_queue demo_pi (state_of demo_read2) q /\
    Z.of_nat (length q) <= PIPESIZE /\ [] ++ ins = outs ++ q.
Proof.
  intros calls T. assert (holds_queue demo_pi demo_start []) as Hq.
  { exists demo_ring. split; [by vm_compute|]. split; [by vm_compute..|constructor|].
    intros i b Hi. by rewrite lookup_nil in Hi. }
  split; [exact Hq|].
  destruct (pipe_fifo (L := demo_layout) (LOK := demo_layout_ok) demo_pi calls [] demo_start T (state_of demo_read2)
              [Returned 2; Returned 3]) as (ins & outs & q & H1 & H2 & H3 & H4 & _).
  - unfold calls. repeat (apply Forall_cons; split; [cbn; lia|]). by apply Forall_nil.
  - exact Hq.
  - eapply (run_step _ _ _ [_] _ [_; _]); [eapply (step_sleeps _ calls _ _ 0); [reflexivity..|by apply demo_fit_start; lia|exact demo_read1_eq]|].
    eapply (run_step _ _ _ [] _ [_; _]); [apply (step_other _ calls _ _ demo_k1), same_ring_runs|].
    eapply (run_step _ _ _ [_] _ [_]); [eapply (step_returns _ calls _ _ 1); [reflexivity..|by apply demo_fit_start; lia|exact demo_write_eq]|].
    eapply (run_step _ _ _ [] _ [_]); [apply (step_other _ calls _ _ demo_k2), same_ring_runs|].
    eapply (run_step _ _ _ [_] _ []); [eapply (step_returns _ calls _ _ 0); [reflexivity..|apply demo_fit_resumed|exact demo_read2_eq]|].
    apply run_nil.
  - exists ins, outs, q. split; [exact H1|]. split; [exact H2|]. split; [exact H3|exact H4].
Defined.
