(* ===== verification/FsTx.v ===== *)
(** * File system code inside a transaction

    Above the cache and the log, a process reads and writes blocks: [in_tx k bs hs] says
    that the blocks [bs] are in the log and that the process holds the buffers [hs].  Each
    block operation has one lemma, which says what it does to the blocks ([view]); the
    buffers, their reference counts and the log header stay inside [in_tx]. *)

From Stdlib Require Import ZArith Lia.
From stdpp Require Import base list numbers strings gmap.
From S2P Require Import Prelude Types Mem Layout Kalloc State Spinlock Printf Proc ProcSpec Sleeplock Seq Bio BioSpec Log LogSpec.
Open Scope Z_scope.

Section tx.
Context (me : nat) (pid : Z) (d : Z) `{W : Wakes} `{D : Disk} `{DOK : !DiskOK}.
Abbreviation look := (look d).
Abbreviation view := (view d).
Abbreviation ref := (ref d).
Abbreviation held := (held pid d).
Abbreviation ready := (ready me pid d).

(** The kernel but for the cache, the header of the log and what locking changes. *)
Definition others (k : kernel) : kernel := set_log (set_lh 0 [] k.(k_log)) (frame k).
Definition same (k k' : kernel) : Prop :=
  others k' = others k /\ forall l, (forall i, l <> SlBuf i) -> k'.(k_slocks) !! l = k.(k_slocks) !! l.

Lemma same_others_refl k : same k k.
Proof. by split. Qed.
Lemma same_others_trans k1 k2 k3 : same k1 k2 -> same k2 k3 -> same k1 k3.
Proof. intros [H1 H2] [H3 H4]. split; [congruence|]. intros l Hl. by rewrite H4, H2. Qed.
Lemma same_itable k k' : same k k' -> k'.(k_itable) = k.(k_itable).
Proof. intros [H _]. by apply (f_equal k_itable) in H. Qed.
Lemma same_sb k k' : same k k' -> k'.(k_sb) = k.(k_sb).
Proof. intros [H _]. by apply (f_equal k_sb) in H. Qed.
Lemma same_disk k k' : same k k' -> k'.(k_disk) = k.(k_disk).
Proof. intros [H _]. by apply (f_equal k_disk) in H. Qed.
Lemma frame_others k k' : frame k' = frame k -> others k' = others k.
Proof. intros E. unfold others. by rewrite E, (f_equal k_log E : k_log k' = k_log k). Qed.

Definition one (b : bool) : Z := if b then 1 else 0.

(** [o]: the process is between begin_op() and end_op(); without it the log may only be
    looked at. *)
Context (o : bool).

Record in_tx (k : kernel) (bs : list Z) (hs : list (Z * nat)) : Prop := {
  it_ready : ready [] k;
  it_nodup : NoDup bs;
  it_blocks : forall b, b ∈ bs -> 0 <= b < 2 ^ 31;
  it_n : k.(k_log).(lh_n) = Z.of_nat (length bs);
  it_take : take (length bs) k.(k_log).(lh_block) = bs;
  it_len : Z.of_nat (length k.(k_log).(lh_block)) = LOGBLOCKS;
  it_open : o = true -> 1 <= k.(k_log).(l_outstanding);
  it_ref : forall m, ref k m = one (bool_decide (m ∈ bs)) + one (bool_decide (m ∈ hs.*1));
  it_held : forall n b, (n, b) ∈ hs -> held k n b;
  it_locked : forall i, is_Some (k.(k_slocks) !! SlBuf i) -> i ∈ hs.*2;
  it_hnodup : NoDup hs.*1;
  it_clean : forall m, m ∉ bs -> view k m = disk_read k.(k_disk) m
}.

Lemma it_ref_le k bs hs m : in_tx k bs hs -> 0 <= ref k m <= 2.
Proof. intros I. rewrite (it_ref _ _ _ I). unfold one. repeat case_bool_decide; lia. Qed.

(** *** Reading a block *)

Lemma tx_room k bs hs n : in_tx k bs hs -> n ∉ hs.*1 -> (length bs + length hs < NBUF)%nat -> room d k n.
Proof.
  intros I Hn Hlen. unfold room. destruct (look k n) as [b|] eqn:E.
  - destruct (k.(k_slocks) !! SlBuf b) eqn:Es; [|done]. exfalso. apply Hn.
    assert (b ∈ hs.*2) as Hb by (apply (it_locked _ _ _ I); by rewrite Es).
    apply list_elem_of_fmap in Hb as ([m b'] & -> & Hm). apply list_elem_of_fmap. exists (m, b'). split; [|done].
    apply (look_inj d k n m b' E). by apply (it_held _ _ _ I).
  - destruct (it_ready _ _ _ I) as [_ [l C]]. apply (free_buffer d k l (bs ++ hs.*1) C).
    + intros m. rewrite (it_ref _ _ _ I), elem_of_app. unfold one. repeat case_bool_decide; auto; lia.
    + by rewrite length_app, length_fmap.
Qed.

Lemma held_keep k k' n b :
  (exists l, cache d k' l) -> held k n b -> look k' n = look k n -> k'.(k_slocks) !! SlBuf b = k.(k_slocks) !! SlBuf b -> ref k' n <> 0 -> held k' n b.
Proof. intros [l C] (H1 & H2 & _ & _) E1 E2 E3. apply (held_intro pid d k' l); congruence. Qed.

Lemma tx_bread {B} k bs hs n (f : nat -> M kernel B) Q :
  in_tx k bs hs -> n ∉ hs.*1 -> (length bs + length hs < NBUF)%nat ->
  (forall b k', in_tx k' bs ((n, b) :: hs) -> same k k' -> (forall m, view k' m = view k m) -> runs (f b k') Q) ->
  runs ((b ← bread d n; f b) k) Q.
Proof using DOK.
  intros I Hn Hlen Hf. step_by (bread_runs me pid d [] k n); [apply I|apply outside_nil|by eapply tx_room|pose proof (it_ref_le _ _ _ n I); lia|].
  intros b k1 (R1 & Hh1 & F1 & St1 & V1 & R1' & S1 & S1n).
  assert (same k k1) as Hs.
  { split; [by apply frame_others|]. intros l Hl. rewrite S1, lookup_insert_ne; [done|]. intros <-. by apply (Hl b). }
  pose proof (frame_others _ _ F1). pose proof (f_equal k_log F1 : k_log k1 = k_log k) as El.
  apply Hf; [|exact Hs|exact V1]. destruct I. split; rewrite ?El;
    [exact R1|exact it_nodup0|exact it_blocks0|exact it_n0|exact it_take0|exact it_len0|exact it_open0|..].
  - intros m. rewrite R1', it_ref0. cbn [fmap list_fmap fst]. unfold one. rewrite Z.add_comm, Z.add_assoc.
    destruct (decide (m = n)) as [->|Hne].
    + rewrite (bool_decide_eq_false_2 (n ∈ hs.*1)), (bool_decide_eq_true_2 (n ∈ n :: _)) by (done || by left). lia.
    + rewrite (bool_decide_ext (m ∈ n :: hs.*1) (m ∈ hs.*1)); [lia|]. rewrite elem_of_cons. tauto.
  - intros m c [[= -> ->]|Hc]%elem_of_cons; [done|]. pose proof (it_held0 m c Hc) as Hh.
    destruct R1 as [_ C1]. apply (held_keep k k1 m c C1 Hh).
    + destruct Hh as (L & _ & _ & Rf). rewrite L. by apply St1.
    + rewrite S1, lookup_insert_ne; [done|]. intros [= ->]. destruct Hh as (_ & E & _). congruence.
    + rewrite R1'. destruct Hh as (_ & _ & _ & Rf). rewrite it_ref0 in *. unfold one in *. repeat case_bool_decide; case_decide; lia.
  - intros i. rewrite S1. cbn [fmap list_fmap snd]. destruct (decide (i = b)) as [->|Hne]; [intros _; by left|].
    rewrite lookup_insert_ne by congruence. intros Hi. right. by apply it_locked0.
  - cbn. by constructor.
  - intros m Hm. rewrite V1, (it_clean0 m Hm). by rewrite (same_disk _ _ Hs).
Qed.

Lemma tx_getb {B} k bs hs n b (f : buf -> M kernel B) Q :
  in_tx k bs hs -> (n, b) ∈ hs -> (forall x, x.(b_data) = view k n -> x.(b_blockno) = n -> runs (f x k) Q) ->
  runs ((x ← getb b; f x) k) Q.
Proof.
  intros I Hb Hf. unfold getb. rewrite bind_gets. destruct (it_held _ _ _ I n b Hb) as (L & _ & V & _).
  apply Hf; [done|]. by destruct (look_some _ _ _ _ L) as (_ & _ & ?).
Qed.

(** *** Releasing a block *)

Lemma tx_brelse {B} k bs hs n b (f : unit -> M kernel B) Q :
  in_tx k bs ((n, b) :: hs) ->
  (forall k', in_tx k' bs hs -> same k k' -> (forall m, view k' m = view k m) -> runs (f tt k') Q) ->
  runs ((x ← brelse b; f x) k) Q.
Proof.
  intros I Hf. pose proof (it_hnodup _ _ _ I) as Hnd. cbn in Hnd. apply NoDup_cons in Hnd as [Hn Hnd].
  step_by (brelse_runs me pid d [] k n b); [apply I|apply outside_nil|apply (it_held _ _ _ I); by left|pose proof (it_ref_le _ _ _ n I); lia| |].
  { rewrite (it_ref _ _ _ I). cbn [fmap list_fmap fst]. rewrite (bool_decide_eq_true_2 (n ∈ n :: _)) by by left. unfold one.
    case_bool_decide; [lia|]. intros _. by apply (it_clean _ _ _ I). }
  intros [] k1 (R1 & F1 & S1 & L1 & V1 & R1').
  assert (same k k1) as Hs.
  { split; [by apply frame_others|]. intros l Hl. rewrite S1, lookup_delete_ne; [done|]. intros <-. by apply (Hl b). }
  pose proof (f_equal k_log F1 : k_log k1 = k_log k) as El.
  apply Hf; [|exact Hs|exact V1].
  assert (forall m c, (m, c) ∈ hs -> c <> b) as Hb.
  { intros m c Hc ->. apply Hn. apply list_elem_of_fmap. exists (m, b). split; [|done].
    apply (look_inj d k n m b); [apply (it_held _ _ _ I n b)|apply (it_held _ _ _ I m b)]; by (left || right). }
  destruct I. split; rewrite ?El;
    [exact R1|exact it_nodup0|exact it_blocks0|exact it_n0|exact it_take0|exact it_len0|exact it_open0|..].
  - intros m. rewrite R1', it_ref0. cbn [fmap list_fmap fst]. unfold one.
    destruct (decide (m = n)) as [->|Hne].
    + rewrite (bool_decide_eq_false_2 (n ∈ hs.*1)), (bool_decide_eq_true_2 (n ∈ n :: _)) by (done || by left). lia.
    + rewrite (bool_decide_ext (m ∈ n :: hs.*1) (m ∈ hs.*1)); [lia|]. rewrite elem_of_cons. tauto.
  - intros m c Hc. assert ((m, c) ∈ (n, b) :: hs) as Hc' by by right. pose proof (it_held0 m c Hc') as Hh.
    destruct R1 as [_ C1]. apply (held_keep k k1 m c C1 Hh); [apply L1| |].
    + rewrite S1, lookup_delete_ne; [done|]. intros [= ->]. by apply (Hb m c).
    + assert (m <> n) as Hne by (intros ->; apply Hn; apply list_elem_of_fmap; by exists (n, c)).
      rewrite R1'. destruct Hh as (_ & _ & _ & Rf). case_decide; [done|]. lia.
  - intros i Hi. rewrite S1 in Hi. destruct (decide (i = b)) as [->|Hne]; [rewrite lookup_delete_eq in Hi; by destruct Hi|].
    rewrite lookup_delete_ne in Hi by congruence. apply it_locked0 in Hi. cbn in Hi. apply elem_of_cons in Hi as [->|Hi]; done.
  - exact Hnd.
  - intros m Hm. rewrite V1, (it_clean0 m Hm). by rewrite (same_disk _ _ Hs).
Qed.

(** *** Writing a block *)

(** What does not change where only locks do. *)
Lemma ready_lock k k' H' :
  ready [] k \/ ready [LkLog] k -> calm me pid H' k' -> rest k' = rest k ->
  ready H' k' /\ frame k' = frame k /\ k'.(k_slocks) = k.(k_slocks) /\ (forall m, look k' m = look k m) /\
  (forall m, view k' m = view k m) /\ (forall m, ref k' m = ref k m) /\ forall n b, held k n b -> held k' n b.
Proof.
  intros R Hc E. assert (exists l, cache d k l) as [l C] by (by destruct R as [[_ ?]|[_ ?]]).
  assert (forall m, look k' m = look k m) as L by (intros m; change (look k' m) with (look (rest k') m); by rewrite E).
  assert (forall m, view k' m = view k m) as V by (intros m; change (view k' m) with (view (rest k') m); by rewrite E).
  assert (forall m, ref k' m = ref k m) as Rf by (intros m; change (ref k' m) with (ref (rest k') m); by rewrite E).
  assert (k_slocks k' = k_slocks k) as S by (change (k_slocks k') with (k_slocks (rest k')); by rewrite E).
  assert (cache d k' l) as C' by (apply cache_rest; rewrite E; by apply cache_rest).
  split; [split; [done|by exists l]|]. split; [unfold frame; by rewrite E|]. split; [done|]. split; [done|]. split; [done|]. split; [done|].
  intros n b (H1 & H2 & H3 & H4). apply (held_intro pid d k' l); rewrite ?L, ?S, ?Rf; done.
Qed.

Definition add (n : Z) (bs : list Z) : list Z := if decide (n ∈ bs) then bs else bs ++ [n].

Lemma find_block_in n bs bs' i :
  (forall b, b ∈ bs -> 0 <= b < 2 ^ 31) -> n ∈ bs ->
  exists j, bs !! j = Some n /\ find_block (length bs) (bs ++ bs') n i = i + Z.of_nat j.
Proof.
  revert i. induction bs as [|b bs IH]; intros i Hb Hn; [by apply not_elem_of_nil in Hn|]. cbn [length app find_block].
  rewrite u32_small by (pose proof (Hb b ltac:(by left)); lia). destruct (Z.eqb_spec b n) as [->|Hne].
  - exists 0%nat. split; [done|]. lia.
  - apply elem_of_cons in Hn as [->|Hn]; [done|]. destruct (IH (i + 1)) as (j & Hj & ->); [intros; apply Hb; by right|done|].
    exists (S j). split; [done|]. lia.
Qed.
Lemma find_block_out n bs bs' i :
  (forall b, b ∈ bs -> 0 <= b < 2 ^ 31) -> n ∉ bs -> find_block (length bs) (bs ++ bs') n i = i + Z.of_nat (length bs).
Proof.
  revert i. induction bs as [|b bs IH]; intros i Hb Hn; [destruct bs'; cbn; lia|]. cbn [length app find_block].
  apply not_elem_of_cons in Hn as [Hne Hn]. rewrite u32_small by (pose proof (Hb b ltac:(by left)); lia).
  destruct (Z.eqb_spec b n) as [->|_]; [done|]. rewrite IH; [lia|intros; apply Hb; by right|done].
Qed.

Lemma outside_log : outside [LkLog].
Proof. split; [|split]; intros; rewrite list_elem_of_singleton; discriminate. Qed.

Definition logged_state (l : log) (bs : list Z) : Prop :=
  l.(lh_n) = Z.of_nat (length bs) /\ take (length bs) l.(lh_block) = bs /\ Z.of_nat (length l.(lh_block)) = LOGBLOCKS /\ 1 <= l.(l_outstanding).

(** The log after log_write() of block [n]. *)
Definition log_add (n : Z) (bs : list Z) (l : log) : log :=
  if decide (n ∈ bs) then l else set_lh (l.(lh_n) + 1) (<[length bs := n]> l.(lh_block)) l.

Lemma log_add_state n bs l :
  logged_state l bs -> Z.of_nat (length bs) < LOGBLOCKS -> logged_state (log_add n bs l) (add n bs).
Proof.
  intros (E1 & E2 & E3 & E4) Hlt. unfold log_add, add. case_decide; [done|]. split; [|split; [|split]]; cbn.
  - rewrite E1, length_app. cbn. lia.
  - rewrite length_app. cbn. rewrite Nat.add_1_r, (take_S_r _ _ n); [|apply list_lookup_insert_eq; lia].
    by rewrite take_insert_ge, E2.
  - by rewrite length_insert.
  - done.
Qed.

(** log.lh.block[i] = b->blockno, and the test i == log.lh.n *)
Lemma log_slot {B} k bs n (f : Z -> M kernel B) Q :
  logged_state k.(k_log) bs -> (forall b, b ∈ bs -> 0 <= b < 2 ^ 31) -> 0 <= n < 2 ^ 31 -> Z.of_nat (length bs) < LOGBLOCKS ->
  (n ∈ bs -> forall i, i < Z.of_nat (length bs) -> runs (f i k) Q) ->
  (n ∉ bs -> runs (f (Z.of_nat (length bs)) (set_log (set_lh k.(k_log).(lh_n) (<[length bs := n]> k.(k_log).(lh_block)) k.(k_log)) k)) Q) ->
  let i := find_block (Z.to_nat k.(k_log).(lh_n)) k.(k_log).(lh_block) n 0 in
  runs ((set_lh_block i n ;; f i) k) Q.
Proof.
  intros (E1 & E2 & E3 & E4) Hb Hn Hlt Hin Hout. cbv zeta. rewrite E1, Nat2Z.id.
  rewrite <- (take_drop (length bs) (lh_block (k_log k))), E2. unfold set_lh_block, modlog.
  assert (i32 n = n) as Ei by (apply i32_small; lia).
  destruct (decide (n ∈ bs)) as [H|H].
  - destruct (find_block_in n bs (drop (length bs) (lh_block (k_log k))) 0 Hb H) as (j & Hj & ->).
    pose proof (lookup_lt_Some _ _ _ Hj). rewrite (proj2 (Z.ltb_lt _ _)), bind_modify by lia.
    replace (set_log _ k) with k; [apply Hin; [done|lia]|].
    destruct k as [? ? ? ? ? ? ? ? ? ? lg]. cbn in *. unfold set_log. cbn. f_equal. destruct lg as [? ? ? ? ? blk]. cbn in *.
    unfold set_lh. cbn. f_equal. symmetry. apply list_insert_id. rewrite Z.add_0_l, Nat2Z.id, Ei, <- Hj, <- E2. rewrite lookup_take_lt by lia. done.
  - rewrite find_block_out by done. rewrite (proj2 (Z.ltb_lt _ _)), bind_modify by lia.
    rewrite Z.add_0_l, Nat2Z.id, Ei. by apply Hout.
Qed.

Lemma release_log_runs k :
  ready [LkLog] k ->
  runs (release LkLog k) (fun _ k' => ready [] k' /\ frame k' = frame k /\ k'.(k_slocks) = k.(k_slocks) /\
    (forall m, look k' m = look k m) /\ (forall m, view k' m = view k m) /\ (forall m, ref k' m = ref k m) /\ forall n b, held k n b -> held k' n b).
Proof.
  intros R. eapply runs_mono; [exact (sim_ok me pid [LkLog] [] (release LkLog) (mret tt) k tt (rest k) (sim_release me pid [] LkLog (not_elem_of_nil _)) (proj1 R) eq_refl)|].
  intros [] k' (_ & C & E). exact (ready_lock k k' [] (or_intror R) C E).
Qed.

Lemma log_write_runs k n b bs :
  ready [] k -> held k n b -> ref k n < 2 ^ 32 - 1 -> logged_state k.(k_log) bs -> (forall b, b ∈ bs -> 0 <= b < 2 ^ 31) ->
  0 <= n < 2 ^ 31 -> Z.of_nat (length bs) < LOGBLOCKS ->
  runs (log_write b k) (fun _ k' => ready [] k' /\ held k' n b /\ frame k' = set_log (log_add n bs k.(k_log)) (frame k) /\
    k'.(k_slocks) = k.(k_slocks) /\ (forall m, look k' m = look k m) /\ (forall m, view k' m = view k m) /\
    (forall m, ref k' m = ref k m + if decide (m = n /\ n ∉ bs) then 1 else 0)).
Proof.
  intros R Hh Hr Hl Hb Hn Hlt. unfold log_write. pose proof Hl as (E1 & E2 & E3 & E4).
  step_by (fun H => sim_ok me pid [] [LkLog] (acquire LkLog) (mret tt) k tt (rest k) (sim_acquire me pid [] LkLog H) (proj1 R) eq_refl);
    [apply not_elem_of_nil|].
  intros [] k1 (_ & C1 & E). destruct (ready_lock k k1 [LkLog] (or_introl R) C1 E) as (R1 & F1 & S1 & L1 & V1 & Rf1 & H1). specialize (H1 n b Hh).
  assert (k_log k1 = k_log k) as Elog by (by apply (f_equal k_log) in F1).
  unfold getlog. rewrite bind_gets, Elog, (proj2 (Z.leb_gt _ _)), bind_ret, (proj2 (Z.ltb_ge _ _)), bind_ret by lia.
  unfold getb. rewrite bind_gets. destruct (look_some _ _ _ _ (proj1 H1)) as (_ & _ & ->). cbv zeta. rewrite <- Elog.
  apply (log_slot k1 bs n (fun i => (if i =? lh_n (k_log k1) then bpin b ;; modlog (fun l => set_lh (l.(lh_n) + 1) l.(lh_block) l) else mret tt) ;; release LkLog));
    [by rewrite Elog|done..| |].
  - intros Hin i Hi. rewrite Elog, E1, (proj2 (Z.eqb_neq _ _)), bind_ret by lia.
    eapply runs_mono; [apply release_log_runs, R1|]. intros [] k2 (R2 & F2 & S2 & L2 & V2 & Rf2 & H2).
    split; [exact R2|]. split; [by apply H2|]. unfold log_add. rewrite decide_True by done. split; [rewrite F2, F1; by destruct k|]. split; [congruence|].
    split; [intros m; by rewrite L2|]. split; [intros m; by rewrite V2|]. intros m. rewrite Rf2, Rf1, decide_False by tauto. lia.
  - intros Hout. rewrite Elog, E1, Z.eqb_refl. set (lg := set_lh _ _ _). set (k2 := set_log lg k1).
    assert (ready [LkLog] k2) as R2 by (apply (ready_modify me pid d [LkLog] k1 (set_log lg)); [by intros|by intros|exact R1]).
    apply runs_bind. step_by (bpin_runs me pid d [LkLog] k2 n b); [exact R2|exact outside_log|exact H1| |].
    { change (ref k2 n) with (ref k1 n). by rewrite Rf1. }
    intros [] k3 (R3 & H3 & F3 & S3 & L3 & V3 & Rf3). unfold modlog, modify. cbn [runs].
    set (k4 := set_log _ k3). assert (ready [LkLog] k4) as R4 by (apply (ready_modify me pid d [LkLog] k3 (set_log _)); [by intros|by intros|exact R3]).
    eapply runs_mono; [apply release_log_runs, R4|]. intros [] k5 (R5 & F5 & S5 & L5 & V5 & Rf5 & H5).
    split; [exact R5|]. split; [apply H5; exact H3|]. unfold log_add. rewrite decide_False by done. split.
    + rewrite F5. unfold k4. change (frame (set_log ?l k3)) with (set_log l (frame k3)). rewrite F3, (f_equal k_log F3 : k_log k3 = _).
      unfold k2. change (frame (set_log lg k1)) with (set_log lg (frame k1)). rewrite F1. unfold lg. rewrite E1. by destruct k.
    + split; [rewrite S5; change (k_slocks k4) with (k_slocks k3); rewrite S3; exact S1|].
      split; [intros m; rewrite L5; change (look k4 m) with (look k3 m); rewrite L3; apply L1|].
      split; [intros m; rewrite V5; change (view k4 m) with (view k3 m); rewrite V3; apply V1|].
      intros m. rewrite Rf5. change (ref k4 m) with (ref k3 m). rewrite Rf3. change (ref k2 m) with (ref k1 m). rewrite Rf1.
      f_equal. repeat case_decide; tauto.
Qed.

Lemma modb_data k b (h : buf -> buf) y : h (k.(k_bcache) !!! b) = set_data y (k.(k_bcache) !!! b) -> modb b h k = modb b (set_data y) k.
Proof.
  intros E. unfold modb, modify. do 2 f_equal. apply list_eq. intros i. destruct (decide (i = b)) as [->|Hne].
  - rewrite !list_lookup_alter_eq. destruct (k_bcache k !! b) as [x|] eqn:Ex; [|done]. cbn. f_equal.
    by rewrite (list_lookup_total_correct _ _ _ Ex) in E.
  - by rewrite !list_lookup_alter_ne.
Qed.

Lemma elem_of_add n bs m : m ∈ add n bs <-> m = n \/ m ∈ bs.
Proof. unfold add. case_decide; [|rewrite elem_of_app, list_elem_of_singleton; tauto]. split; [tauto|]. by intros [->|]. Qed.
Lemma length_add n bs : (length (add n bs) <= S (length bs))%nat.
Proof. unfold add. case_decide; [lia|]. rewrite length_app. cbn. lia. Qed.

(** Changing a block and logging it. *)
Lemma tx_write {B} k bs hs n b h y (f : unit -> M kernel B) Q :
  o = true -> in_tx k bs hs -> (n, b) ∈ hs -> 0 <= n < 2 ^ 31 -> Z.of_nat (length bs) < LOGBLOCKS ->
  (forall x, x.(b_data) = view k n -> h x = set_data y x) ->
  (forall k', in_tx k' (add n bs) hs -> same k k' -> (forall m, view k' m = if decide (m = n) then y else view k m) -> runs (f tt k') Q) ->
  runs ((modb b h ;; (x ← log_write b; f x)) k) Q.
Proof.
  intros Ho I Hb Hn Hlt Hh Hf. assert (logged_state k.(k_log) bs) as Hls by (destruct I; split; auto).
  pose proof (it_held _ _ _ I n b Hb) as Hd.
  apply runs_bind. rewrite (modb_data k b h y) by (apply Hh, Hd).
  eapply runs_mono; [apply (set_data_runs me pid d [] k n b y); [apply I|exact Hd]|].
  intros [] k1 (R1 & H1 & F1 & S1 & L1 & Rf1 & V1).
  assert (k_log k1 = k_log k) as El by (by apply (f_equal k_log) in F1).
  step_by (log_write_runs k1 n b bs); [exact R1|exact H1|rewrite Rf1; pose proof (it_ref_le _ _ _ n I); lia|
    by rewrite El|apply I|done|done|].
  intros [] k2 (R2 & H2 & F2 & S2 & L2 & V2 & Rf2).
  assert (k_log k2 = log_add n bs (k_log k)) as El2 by (rewrite (f_equal k_log F2 : k_log k2 = _), El; done).
  assert (same k k2) as Hs.
  { split; [|intros; by rewrite S2, S1]. unfold others. rewrite El2, F2. change (set_log ?x (set_log _ ?z)) with (set_log x z). rewrite F1.
    unfold log_add. by case_decide. }
  assert (logged_state (k_log k2) (add n bs)) as (G1 & G2 & G3 & G4) by (rewrite El2; by apply log_add_state).
  apply Hf; [|exact Hs|intros m; rewrite V2; apply V1].
  destruct I. split; [exact R2| | |exact G1|exact G2|exact G3|intros _; exact G4| | | |exact it_hnodup0|].
  - unfold add. case_decide; [done|]. apply NoDup_app. split; [done|]. split; [|apply NoDup_singleton].
    intros x Hx ->%list_elem_of_singleton. done.
  - intros m [->|Hm]%elem_of_add; [done|auto].
  - intros m. rewrite Rf2, Rf1, it_ref0. unfold one. destruct (decide (m = n)) as [->|Hne].
    + rewrite (bool_decide_eq_true_2 (n ∈ add n bs)) by (apply elem_of_add; by left). case_bool_decide as Ebs.
      * rewrite decide_False by tauto. lia.
      * rewrite decide_True by done. lia.
    + rewrite decide_False by tauto. rewrite (bool_decide_ext (m ∈ add n bs) (m ∈ bs)); [lia|]. rewrite elem_of_add. tauto.
  - intros m c Hc. pose proof (it_held0 m c Hc) as Hmc. destruct R2 as [_ C2]. apply (held_keep k k2 m c C2 Hmc).
    + by rewrite L2, L1.
    + by rewrite S2, S1.
    + rewrite Rf2, Rf1. destruct Hmc as (_ & _ & _ & Rm). assert (0 <= ref k m) by (rewrite it_ref0; unfold one; repeat case_bool_decide; lia). destruct (decide (m = n /\ n ∉ bs)); lia.
  - intros i Hi. rewrite S2, S1 in Hi. by apply it_locked0.
  - intros m Hm. rewrite elem_of_add in Hm. rewrite V2, V1, decide_False, it_clean0 by tauto. by rewrite (same_disk _ _ Hs).
Qed.

Lemma tx_write_last k bs hs n b h y Q :
  o = true -> in_tx k bs hs -> (n, b) ∈ hs -> 0 <= n < 2 ^ 31 -> Z.of_nat (length bs) < LOGBLOCKS ->
  (forall x, x.(b_data) = view k n -> h x = set_data y x) ->
  (forall k', in_tx k' (add n bs) hs -> same k k' -> (forall m, view k' m = if decide (m = n) then y else view k m) -> Q tt k') ->
  runs ((modb b h ;; log_write b) k) Q.
Proof.
  intros Ho I Hb Hn Hlt Hh HQ. pose proof (tx_write k bs hs n b h y mret Q Ho I Hb Hn Hlt Hh HQ) as H.
  unfold mbind, M_bind in *. destruct (modb b h k); cbn in *; try done. by destruct (log_write b s).
Qed.

(** Changes of the kernel that the cache and the log do not see. *)
Lemma tx_modify k bs hs g :
  (forall k, k_cpu (g k) = k_cpu k /\ k_locks (g k) = k_locks k /\ k_procs (g k) = k_procs k) ->
  (forall k, k_bcache (g k) = k_bcache k /\ k_slocks (g k) = k_slocks k /\ k_disk (g k) = k_disk k) ->
  (forall k, k_log (g k) = k_log k) -> in_tx k bs hs ->
  in_tx (g k) bs hs /\ forall m, view (g k) m = view k m.
Proof.
  intros H1 H2 H3 I. destruct (H2 k) as (E1 & E2 & E3).
  assert (forall m, look (g k) m = look k m) as L by (intros m; unfold BioSpec.look; by rewrite E1).
  assert (forall m, view (g k) m = view k m) as V by (intros m; unfold BioSpec.view; by rewrite L, E1, E3).
  assert (forall m, ref (g k) m = ref k m) as Rf by (intros m; unfold BioSpec.ref; by rewrite L, E1).
  split; [|exact V]. destruct I. split; rewrite ?H3, ?E2, ?E3;
    [by apply ready_modify|exact it_nodup0|exact it_blocks0|exact it_n0|exact it_take0|exact it_len0|exact it_open0|..].
  - intros m. by rewrite Rf.
  - intros n b Hb. destruct (it_held0 n b Hb) as (A1 & A2 & A3 & A4). unfold BioSpec.held. by rewrite L, E1, E2, V, Rf.
  - exact it_locked0.
  - exact it_hnodup0.
  - intros m Hm. rewrite V. by apply it_clean0.
Qed.

(** Only locks and this hart's struct cpu changed. *)
Lemma tx_rest k k' bs hs :
  in_tx k bs hs -> calm me pid [] k' -> rest k' = rest k -> in_tx k' bs hs /\ same k k' /\ forall m, view k' m = view k m.
Proof.
  intros I C E. destruct (ready_lock k k' [] (or_introl (it_ready _ _ _ I)) C E) as (R1 & F1 & S1 & L1 & V1 & Rf1 & H1).
  assert (same k k') as Hs by (split; [by apply frame_others|by rewrite S1]). split; [|done].
  assert (k_log k' = k_log k) as El by (by apply (f_equal k_log) in F1). destruct I. split; rewrite ?El;
    [exact R1|exact it_nodup0|exact it_blocks0|exact it_n0|exact it_take0|exact it_len0|exact it_open0|..].
  - intros m. by rewrite Rf1.
  - intros n b Hb. by apply H1, it_held0.
  - by rewrite S1.
  - exact it_hnodup0.
  - intros m Hm. rewrite V1, (same_disk _ _ Hs). by apply it_clean0.
Qed.
Lemma tx_curproc {B} k bs hs (f : nat -> M kernel B) Q :
  in_tx k bs hs -> (forall k', in_tx k' bs hs -> same k k' -> (forall m, view k' m = view k m) -> runs (f me k') Q) ->
  runs ((i ← curproc; f i) k) Q.
Proof.
  intros I Hf. apply runs_bind. eapply runs_mono; [exact (sim_ok me pid [] [] curproc (mret me) k me (rest k) (sim_curproc me pid []) (proj1 (it_ready _ _ _ I)) eq_refl)|].
  intros i k' (-> & C & E). destruct (tx_rest k k' bs hs I C E) as (I' & S & V). by apply Hf.
Qed.

Lemma tx_printf {B} k bs hs fmt ap (f : unit -> M kernel B) Q :
  in_tx k bs hs -> (forall k', in_tx k' bs hs -> same k k' -> (forall m, view k' m = view k m) -> runs (f tt k') Q) ->
  runs ((x ← printf fmt ap; f x) k) Q.
Proof.
  intros I Hf. step_by (printf_runs me pid d [] k fmt ap); [apply I|apply not_elem_of_nil|].
  intros [] k1 (R1 & F1 & S1 & L1 & V1 & Rf1). assert (same k k1) as Hs by (split; [by apply frame_others|by rewrite S1]).
  assert (k_log k1 = k_log k) as El by (by apply (f_equal k_log) in F1).
  apply Hf; [|exact Hs|exact V1]. destruct I. split; rewrite ?El;
    [exact R1|exact it_nodup0|exact it_blocks0|exact it_n0|exact it_take0|exact it_len0|exact it_open0|..].
  - intros m. by rewrite Rf1.
  - intros n b Hb. pose proof (it_held0 n b Hb) as Hh. destruct R1 as [_ C1].
    apply (held_keep k k1 n b C1 Hh); [apply L1|by rewrite S1|rewrite Rf1; apply Hh].
  - by rewrite S1.
  - exact it_hnodup0.
  - intros m Hm. rewrite V1, (same_disk _ _ Hs). by apply it_clean0.
Qed.
End tx.
