(* ===== verification/FsSource.v ===== *)
(** * Where written bytes come from and read bytes go

    either_copyin() reads a buffer of the kernel or the memory of the process.  [src_has]
    says which bytes the source holds; file system code does not change them.
    either_copyout() writes the memory of the process, and touches nothing of the file
    system. *)

From Stdlib Require Import ZArith Lia.
From stdpp Require Import base list numbers strings gmap.
From S2P Require Import Prelude Types Mem Str Layout Kalloc Vm VmTables VmMap VmSpace VmUser VmCopy State Spinlock Printf Proc ProcSpec Sleeplock Seq Bio BioSpec Log LogSpec FsTx.
Open Scope Z_scope.

(** *** Bytes *)

Lemma read_bytes_cons m p n : read_bytes m p (Z.of_nat (S n)) = m p :: read_bytes m (p + 1) (Z.of_nat n).
Proof. unfold read_bytes. rewrite seqZ_cons by lia. replace (Z.pred (Z.of_nat (S n))) with (Z.of_nat n) by lia. done. Qed.

Lemma nth_read_bytes m p n j : (j < n)%nat -> nth j (read_bytes m p (Z.of_nat n)) 0 = m (p + Z.of_nat j).
Proof.
  intros Hj. revert p j Hj. induction n as [|n IH]; intros p j Hj; [lia|]. rewrite read_bytes_cons. destruct j as [|j]; cbn; [f_equal; lia|].
  rewrite IH by lia. f_equal. lia.
Qed.

(** *** The memory of a process *)

(** The process whose page table is [root] sees the bytes [l] at [va], in pages that are
    mapped. *)
Definition user_reads (s : kmem) (root va : Z) (l : list Z) : Prop :=
  0 <= va /\ va + Z.of_nat (length l) <= 2 ^ 64 /\
  forall j, (j < length l)%nat -> let x := va + Z.of_nat j in
    exists pa, walkaddr root (PGROUNDDOWN x) s = Ok pa s /\ pa <> 0 /\ s.(pm) (pa + (x - PGROUNDDOWN x)) = nth j l 0.

Lemma user_reads_drop s root va l n : user_reads s root va l -> (n < length l)%nat -> user_reads s root (va + Z.of_nat n) (drop n l).
Proof.
  intros (H0 & H1 & H2) Hn. split; [lia|]. rewrite length_drop. split; [lia|]. intros j Hj. destruct (H2 (n + j)%nat ltac:(lia)) as (pa & J1 & J2 & J3).
  cbv zeta in *. replace (va + Z.of_nat n + Z.of_nat j) with (va + Z.of_nat (n + j)) by lia. exists pa. split; [done|]. split; [done|]. rewrite J3. symmetry. apply nth_skipn.
Qed.

Lemma user_reads_take s root va l n : user_reads s root va l -> user_reads s root va (take n l).
Proof.
  intros (H0 & H1 & H2). split; [done|]. rewrite length_take. split; [lia|]. intros j Hj. destruct (H2 j ltac:(lia)) as (pa & J1 & J2 & J3).
  exists pa. split; [done|]. split; [done|]. rewrite J3. symmetry. rewrite nth_firstn, (proj2 (Nat.ltb_lt _ _)) by lia. done.
Qed.

Section copyin.
Context `{L : KernelLayout}.

Lemma user_page_mapped psz root va s pa : walkaddr root va s = Ok pa s -> pa <> 0 -> user_page psz root root va s = Ok pa s.
Proof. intros E H0. unfold user_page. rewrite (bind_ok _ _ _ _ _ E). by rewrite (proj2 (Z.eqb_neq pa 0)). Qed.

(** copyin() of mapped memory returns it and changes nothing. *)
Lemma copyin_mapped fuel psz root va l s : user_reads s root va l -> (length l <= fuel)%nat ->
  copyin_loop fuel psz root root va (Z.of_nat (length l)) s = Ok (0, l) s.
Proof.
  revert va l. induction fuel as [|fuel IH]; intros va l Hu Hf; cbn [copyin_loop].
  { destruct l; [done|cbn in Hf; lia]. }
  destruct (Z.ltb_spec 0 (Z.of_nat (length l))) as [Hlt|Hge]; [|destruct l; [done|cbn in Hge; lia]].
  pose proof Hu as (H0 & H1 & H2). destruct (PGROUNDDOWN_spec va ltac:(lia)) as [P1 P2]. set (va0 := PGROUNDDOWN va) in *.
  destruct (H2 0%nat ltac:(lia)) as (pa & J1 & J2 & _). cbv zeta in J1. rewrite Z.add_0_r in J1. fold va0 in J1.
  rewrite (bind_ok _ _ _ _ _ (user_page_mapped psz root va0 s pa J1 J2)), (proj2 (Z.eqb_neq pa 0)), bind_gets by done.
  set (n := Z.min (PGSIZE - (va - va0)) (Z.of_nat (length l))). change PGSIZE with 4096 in *.
  assert (n <= 4096 - (va - va0) /\ 0 < n <= Z.of_nat (length l) /\ (n <> Z.of_nat (length l) -> n = 4096 - (va - va0))) as (N1 & N2 & N3) by (unfold n; lia). clearbody n.
  assert (read_bytes (pm s) (pa + (va - va0)) n = take (Z.to_nat n) l) as ->.
  { apply (nth_ext _ _ 0 0); [unfold read_bytes; rewrite length_fmap, length_seqZ, length_take; lia|].
    unfold read_bytes at 1. rewrite length_fmap, length_seqZ. intros j Hj. rewrite nth_firstn, (proj2 (Nat.ltb_lt _ _)) by done.
    destruct (H2 j ltac:(lia)) as (pa' & K1 & K2 & K3). cbv zeta in K1, K3.
    assert (PGROUNDDOWN (va + Z.of_nat j) = va0) as Ep.
    { rewrite PGROUNDDOWN_eq by lia. unfold va0 in *. rewrite PGROUNDDOWN_eq in * by lia. f_equal. symmetry. apply (Z.div_unique _ _ _ (va + Z.of_nat j - va / 4096 * 4096)); [left|]; lia. }
    rewrite Ep in K1, K3. assert (pa' = pa) as -> by congruence. rewrite <- K3.
    rewrite <- (Z2Nat.id n) by lia. rewrite nth_read_bytes by done. f_equal. lia. }
  assert (copyin_loop fuel psz root root (u64 (va0 + 4096)) (Z.of_nat (length l) - n) s = Ok (0, drop (Z.to_nat n) l) s) as E.
  { destruct (Z.eq_dec n (Z.of_nat (length l))) as [En|En].
    - rewrite En, Z.sub_diag, Nat2Z.id, drop_all. destruct fuel; reflexivity.
    - replace (u64 (va0 + 4096)) with (va + Z.of_nat (Z.to_nat n)) by (rewrite u64_small; lia).
      replace (Z.of_nat (length l) - n) with (Z.of_nat (length (drop (Z.to_nat n) l))) by (rewrite length_drop; lia).
      apply IH; [apply user_reads_drop; [done|lia]|rewrite length_drop; lia]. }
  rewrite (bind_ok _ _ _ _ _ E). cbn. by rewrite take_drop.
Qed.
End copyin.

(** *** Sources *)

Section source.
Context (me : nat) (pid : Z) (d : Z) `{L : KernelLayout} `{W : Wakes} `{D : Disk} `{DOK : !DiskOK} (o : bool).
Abbreviation view := (view d).
Abbreviation in_tx := (in_tx me pid d o).

Definition src_has (k : kernel) (src : source) (l : list Z) : Prop :=
  match src with
  | SVar bs => bs = l
  | SUser va => user_reads k.(k_mem) (p_pagetable (k.(k_procs) !!! me)) va l
  end.

Lemma src_add k src l c : src_has k src l -> (c <= length l)%nat -> src_has k (source_add src (Z.of_nat c)) (drop c l).
Proof.
  destruct src as [va|bs]; cbn; [|intros -> _; by rewrite Nat2Z.id]. intros Hu Hc. destruct (decide (c = length l)) as [->|Hne].
  - rewrite drop_all. pose proof (u64_range (va + Z.of_nat (length l))). split; [lia|]. split; [cbn; lia|]. cbn. intros j. lia.
  - pose proof Hu as (H0 & H1 & _). rewrite u64_small by lia. apply user_reads_drop; [done|lia].
Qed.

(** Of a process, file system code changes the state only. *)
Lemma procs_kept k k' : set_state UNUSED <$> k'.(k_procs) = set_state UNUSED <$> k.(k_procs) ->
  p_pagetable (k'.(k_procs) !!! me) = p_pagetable (k.(k_procs) !!! me) /\ p_sz (k'.(k_procs) !!! me) = p_sz (k.(k_procs) !!! me).
Proof.
  intros Ep. pose proof (f_equal (fun l => l !! me) Ep) as E. cbn in E. rewrite !list_lookup_fmap in E. rewrite !list_lookup_total_alt.
  destruct (k_procs k' !! me), (k_procs k !! me); cbn in *; [|done..]. injection E as [] []. done.
Qed.

(** The memory of the process is kept. *)
Lemma src_kept k k' src l : k'.(k_mem) = k.(k_mem) -> set_state UNUSED <$> k'.(k_procs) = set_state UNUSED <$> k.(k_procs) -> src_has k src l -> src_has k' src l.
Proof.
  intros Em Ep. destruct src as [va|bs]; [|done]. cbn. by rewrite Em, (proj1 (procs_kept k k' Ep)).
Qed.
Lemma src_others k k' src l t : others k' = set_itable t (others k) -> src_has k src l -> src_has k' src l.
Proof. intros E. apply src_kept; [exact (f_equal k_mem E)|exact (f_equal k_procs E)]. Qed.

Lemma src_same k k' src l : same k k' -> src_has k src l -> src_has k' src l.
Proof. intros [E _]. apply (src_others k k' src l (k_itable k)). rewrite E. by destruct k. Qed.

Lemma either_copyin_tx {B} k bs hs src l c (f : Z * list Z -> M kernel B) Q :
  in_tx k bs hs -> src_has k src l -> (c <= length l)%nat ->
  (forall k', in_tx k' bs hs -> same k k' -> (forall m, view k' m = view k m) -> runs (f (0, take c l) k') Q) ->
  runs ((r ← either_copyin src (Z.of_nat c); f r) k) Q.
Proof.
  intros I Hs Hc Hf. apply runs_bind. unfold either_copyin. apply (tx_curproc me pid d o k bs hs); [done|]. intros k1 I1 S1 V1.
  assert (src_has k1 src l) as Hs1 by (by apply (src_same k)).
  destruct src as [va|b]; cbn in Hs1; [|subst b; cbn [runs mret M_ret]; rewrite Nat2Z.id; by apply Hf].
  unfold getp. rewrite bind_gets. apply runs_zoom. unfold copyin. cbn [lget kernel_mem].
  pose proof (user_reads_take _ _ _ _ c Hs1) as Hu.
  pose proof (copyin_mapped (Z.to_nat (Z.of_nat c)) (p_sz (k_procs k1 !!! me)) _ va (take c l) (k_mem k1) Hu ltac:(rewrite length_take; lia)) as E.
  rewrite (length_take_le l c Hc) in E. rewrite E. cbn [runs]. replace (lput (k_mem k1) k1) with k1 by (by destruct k1). by apply Hf.
Qed.

(** Nothing in the state of a transaction is in the memory of processes. *)
Lemma tx_mem k bs hs m : in_tx k bs hs -> in_tx (set_mem m k) bs hs.
Proof.
  intros []. split; try done. destruct it_ready as [Hc [l C]]. split; [by apply (calm_parts me pid [] k)|]. exists l. destruct C. by split.
Qed.
Lemma same_mem k k' m : same k k' -> same (set_mem m k) (set_mem m k').
Proof. intros [E S]. split; [|exact S]. change (set_mem m (others k') = set_mem m (others k)). by rewrite E. Qed.

Context {LOK : KernelLayoutOK L}.

Lemma either_copyout_tx {B} k bs hs va l fl (f : Z -> M kernel B) Q :
  let p := k.(k_procs) !!! me in
  in_tx k bs hs -> as_inv k.(k_mem) fl p.(p_pagetable) -> 0 <= va < 2 ^ 64 -> 0 <= p.(p_sz) <= TRAPFRAME -> Forall (fun b => 0 <= b < 256) l ->
  (forall r s' fl' k', in_tx k' bs hs -> same (set_mem s' k) k' -> (forall m, view k' m = view k m) ->
    as_step k.(k_mem) s' fl fl' fl' p.(p_pagetable) -> copyout_post p.(p_sz) p.(p_pagetable) va l k.(k_mem) s' r -> runs (f r k') Q) ->
  runs ((r ← either_copyout (User va) l; f r) k) Q.
Proof using LOK.
  intros p I Hinv Hva Hsz Hl Hf. apply runs_bind. unfold either_copyout. apply (tx_curproc me pid d o k bs hs); [done|]. intros k1 I1 S1 V1.
  pose proof (f_equal k_mem (proj1 S1) : k_mem k1 = k_mem k) as Em. destruct (procs_kept k k1 (f_equal k_procs (proj1 S1))) as [Ep Es].
  unfold getp. rewrite bind_gets. apply runs_zoom. cbn [lget kernel_mem]. rewrite Em, Ep, Es. fold p.
  destruct (copyout_loop_spec (length l) p.(p_sz) p.(p_pagetable) va l k.(k_mem) fl) as (r & s' & fl' & E & St & Post); [done..|].
  unfold copyout. rewrite E. cbn [runs lput]. apply (Hf r s' fl'); [by apply tx_mem|by apply same_mem|exact V1|done|done].
Qed.
End source.
