(* ===== verification/Fs.v ===== *)
(** * The file system (kernel/fs.c)

    Blocks, inodes, inode contents, directories and path names, above the log.
    On-disk structures are read and written at their C offsets in the bytes of
    a buffer.  An inode pointer is an index of itable.inode[]; path names and
    directory names are lists of bytes, a path without its NUL, a name as the
    DIRSIZ bytes of the array. *)

From Stdlib Require Import ZArith Lia.
From stdpp Require Import base list numbers strings gmap.
From S2P Require Import Prelude Types Mem Str Layout Kalloc Vm State Spinlock Printf Proc Sleeplock Bio Log.
Open Scope Z_scope.

(** ** fs.h, stat.h *)
Definition ROOTINO : Z := 1.
Definition FSMAGIC : Z := 0x10203040.
Definition NDIRECT : Z := 12.
Definition NINDIRECT : Z := BSIZE / 4.
Definition MAXFILE : Z := NDIRECT + NINDIRECT.
Definition DINODE_SIZE : Z := 64.
Definition IPB : Z := BSIZE / DINODE_SIZE.
Definition IBLOCK (i : Z) (sb : superblock) : Z := u32 (i / IPB + sb.(sb_inodestart)).
Definition BPB : Z := BSIZE * 8.
Definition BBLOCK (b : Z) (sb : superblock) : Z := u32 (b / BPB + sb.(sb_bmapstart)).
Definition DIRSIZ : nat := 14.
Definition DIRENT_SIZE : Z := 16.
Definition T_DIR : Z := 1.
Definition T_FILE : Z := 2.
Definition T_DEVICE : Z := 3.

Definition geti (ip : nat) : M kernel inode := gets (fun k => k.(k_itable) !!! ip).
Definition modi (ip : nat) (f : inode -> inode) : M kernel unit :=
  modify (fun k => set_itable (alter f ip k.(k_itable)) k).

(** The object behind a pointer; using a null pointer is undefined. *)
Definition deref (p : option nat) : M kernel nat :=
  match p with Some i => mret i | None => panic "undefined" end.

(** The inode fields stored on the disk, at offset [o] of a block. *)
Definition dinode_type (b : block) (o : Z) : Z := i16 (load 2 b o).
Definition dinode_nlink (b : block) (o : Z) : Z := i16 (load 2 b (o + 6)).
Definition read_dinode (b : block) (o : Z) (i : inode) : inode :=
  mkinode i.(i_dev) i.(i_inum) i.(i_ref) i.(i_valid)
    (i16 (load 2 b o)) (i16 (load 2 b (o + 2))) (i16 (load 2 b (o + 4))) (i16 (load 2 b (o + 6)))
    (load 4 b (o + 8)) ((fun j => load 4 b (o + 12 + 4 * j)) <$> seqZ 0 (NDIRECT + 1)).

(** a[i] = l[i] for an array of uint at [a] *)
Fixpoint store_words (b : block) (a : Z) (l : list Z) : block :=
  match l with [] => b | x :: l' => store_words (store 4 b a x) (a + 4) l' end.

Definition write_dinode (i : inode) (o : Z) (b : block) : block :=
  let b := store 2 b o i.(i_type) in
  let b := store 2 b (o + 2) i.(i_major) in
  let b := store 2 b (o + 4) i.(i_minor) in
  let b := store 2 b (o + 6) i.(i_nlink) in
  let b := store 4 b (o + 8) i.(i_size) in
  store_words b (o + 12) i.(i_addrs).

(** ** Blocks *)

Section fs.
Context `{L : KernelLayout} `{W : Wakes} `{D : Disk}.

Definition readsb (dev : Z) : M kernel superblock :=
  bp ← bread dev 1;
  x ← getb bp;
  let w i := load 4 x.(b_data) (4 * i) in
  brelse bp ;;
  mret (mksb (w 0) (w 1) (w 2) (w 3) (w 4) (w 5) (w 6) (w 7)).

Definition bzero (dev bno : Z) : M kernel unit :=
  bp ← bread dev bno;
  modb bp (fun x => set_data (memset x.(b_data) 0 0 BSIZE) x) ;;
  log_write bp ;;
  brelse bp.

(** The inner loop of [balloc]: the first clear bit from [bi] on. *)
Fixpoint clear_bit (fuel : nat) (sz b bi : Z) (data : block) : option Z :=
  match fuel with
  | O => None
  | S f =>
      if (bi <? BPB) && (b + bi <? sz) then
        if Z.land (data (bi / 8)) (Z.shiftl 1 (bi mod 8)) =? 0 then Some bi
        else clear_bit f sz b (bi + 1) data
      else None
  end.

Fixpoint balloc_loop (fuel : nat) (dev b : Z) : M kernel Z :=
  sb ← gets k_sb;
  if b <? sb.(sb_size) then
    match fuel with
    | O => nofuel
    | S f =>
        bp ← bread dev (BBLOCK b sb);
        x ← getb bp;
        match clear_bit (Z.to_nat BPB) sb.(sb_size) b 0 x.(b_data) with
        | Some bi =>
            modb bp (fun x => set_data (upd x.(b_data) (bi / 8)
                        (Z.lor (x.(b_data) (bi / 8)) (Z.shiftl 1 (bi mod 8)))) x) ;;
            log_write bp ;;
            brelse bp ;;
            bzero dev (b + bi) ;;
            mret (b + bi)
        | None => brelse bp ;; balloc_loop f dev (b + BPB)
        end
    end
  else
    printf "balloc: out of blocks
" [] ;;
    mret 0.

(** One round per bitmap block. *)
Definition balloc (dev : Z) : M kernel Z :=
  sb ← gets k_sb;
  balloc_loop (S (Z.to_nat (sb.(sb_size) / BPB))) dev 0.

Definition bfree (dev b : Z) : M kernel unit :=
  sb ← gets k_sb;
  bp ← bread dev (BBLOCK b sb);
  let bi := b mod BPB in
  let m := Z.shiftl 1 (bi mod 8) in
  x ← getb bp;
  if Z.land (x.(b_data) (bi / 8)) m =? 0 then panic "freeing free block"
  else
    modb bp (fun x => set_data (upd x.(b_data) (bi / 8) (u8 (Z.land (x.(b_data) (bi / 8)) (Z.lnot m)))) x) ;;
    log_write bp ;;
    brelse bp.

(** ** Inodes *)

Definition iinit : M kernel unit :=
  initlock LkItable ;;
  foreach (seq 0 NINODE) (fun i => initsleeplock (SlInode i)).

(** The loop of [iget]: the entry of the inode, or the first empty entry. *)
Fixpoint iget_scan (l : list inode) (i : nat) (dev inum : Z) (empty : option nat) : nat + option nat :=
  match l with
  | [] => inr empty
  | x :: l' =>
      if (0 <? x.(i_ref)) && (x.(i_dev) =? dev) && (x.(i_inum) =? inum) then inl i
      else iget_scan l' (S i) dev inum
             (match empty with None => if x.(i_ref) =? 0 then Some i else None | _ => empty end)
  end.

Definition iget (dev inum : Z) : M kernel nat :=
  acquire LkItable ;;
  l ← gets k_itable;
  match iget_scan l 0 dev inum None with
  | inl ip =>
      modi ip (fun x => set_ref (x.(i_ref) + 1) x) ;;
      release LkItable ;;
      mret ip
  | inr None => panic "iget: no inodes"
  | inr (Some ip) =>
      modi ip (fun x => mkinode dev inum 1 false x.(i_type) x.(i_major) x.(i_minor) x.(i_nlink)
                          x.(i_size) x.(i_addrs)) ;;
      release LkItable ;;
      mret ip
  end.

(** for(inum = 1; inum < sb.ninodes; inum++) *)
Definition inums (sb : superblock) : list Z := seqZ 1 (sb.(sb_ninodes) - 1).

Definition ialloc_try (dev type inum : Z) : M kernel (option nat) :=
  sb ← gets k_sb;
  bp ← bread dev (IBLOCK inum sb);
  let o := (inum mod IPB) * DINODE_SIZE in
  x ← getb bp;
  if dinode_type x.(b_data) o =? 0 then
    modb bp (fun x => set_data (memset x.(b_data) o 0 DINODE_SIZE) x) ;;
    modb bp (fun x => set_data (store 2 x.(b_data) o type) x) ;;
    log_write bp ;;
    brelse bp ;;
    ip ← iget dev inum;
    mret (Some ip)
  else brelse bp ;; mret None.

Definition ialloc (dev type : Z) : M kernel (option nat) :=
  sb ← gets k_sb;
  r ← search (inums sb) (ialloc_try dev type);
  match r with
  | Some ip => mret (Some ip)
  | None => printf "ialloc: no inodes
" [] ;; mret None
  end.

Definition iupdate (ip : nat) : M kernel unit :=
  sb ← gets k_sb;
  i ← geti ip;
  bp ← bread i.(i_dev) (IBLOCK i.(i_inum) sb);
  i ← geti ip;
  modb bp (fun x => set_data (write_dinode i ((i.(i_inum) mod IPB) * DINODE_SIZE) x.(b_data)) x) ;;
  log_write bp ;;
  brelse bp.

Definition idup (ip : nat) : M kernel nat :=
  acquire LkItable ;;
  modi ip (fun x => set_ref (x.(i_ref) + 1) x) ;;
  release LkItable ;;
  mret ip.

Definition ilock (ip : option nat) : M kernel unit :=
  match ip with
  | None => panic "ilock"
  | Some ip =>
      i ← geti ip;
      if i.(i_ref) <? 1 then panic "ilock"
      else
        acquiresleep (SlInode ip) ;;
        i ← geti ip;
        if negb i.(i_valid) then
          sb ← gets k_sb;
          bp ← bread i.(i_dev) (IBLOCK i.(i_inum) sb);
          x ← getb bp;
          modi ip (read_dinode x.(b_data) ((i.(i_inum) mod IPB) * DINODE_SIZE)) ;;
          brelse bp ;;
          modi ip (set_ivalid true) ;;
          i ← geti ip;
          if i.(i_type) =? 0 then panic "ilock: no type" else mret tt
        else mret tt
  end.

Definition iunlock (ip : option nat) : M kernel unit :=
  match ip with
  | None => panic "iunlock"
  | Some ip =>
      h ← holdingsleep (SlInode ip);
      i ← geti ip;
      if negb h || (i.(i_ref) <? 1) then panic "iunlock"
      else releasesleep (SlInode ip)
  end.

(** *** Contents: the block map *)

(** ip->addrs[bn], allocated when it is 0. *)
Definition bmap_direct (ip : nat) (bn : Z) : M kernel Z :=
  i ← geti ip;
  let addr := i.(i_addrs) !!! Z.to_nat bn in
  if addr =? 0 then
    addr ← balloc i.(i_dev);
    if addr =? 0 then mret 0
    else modi ip (fun i => set_addrs (<[Z.to_nat bn := addr]> i.(i_addrs)) i) ;; mret addr
  else mret addr.

(** The entry [bn] of the indirect block [addr], allocated when it is empty. *)
Definition bmap_indirect (ip : nat) (bn addr : Z) : M kernel Z :=
  i ← geti ip;
  bp ← bread i.(i_dev) addr;
  x ← getb bp;
  let addr := load 4 x.(b_data) (4 * bn) in
  addr ← (if addr =? 0 then
            addr ← balloc i.(i_dev);
            (if negb (addr =? 0) then
               modb bp (fun x => set_data (store 4 x.(b_data) (4 * bn) addr) x) ;;
               log_write bp
             else mret tt) ;;
            mret addr
          else mret addr);
  brelse bp ;;
  mret addr.

Definition bmap (ip : nat) (bn : Z) : M kernel Z :=
  if bn <? NDIRECT then bmap_direct ip bn
  else
    let bn := bn - NDIRECT in
    if bn <? NINDIRECT then
      addr ← bmap_direct ip NDIRECT;
      if addr =? 0 then mret 0
      else
        bmap_indirect ip bn addr
    else panic "bmap: out of range".

Definition itrunc (ip : nat) : M kernel unit :=
  foreach (seqZ 0 NDIRECT) (fun n =>
    i ← geti ip;
    let a := i.(i_addrs) !!! Z.to_nat n in
    if a =? 0 then mret tt
    else
      bfree i.(i_dev) a ;;
      modi ip (fun i => set_addrs (<[Z.to_nat n := 0]> i.(i_addrs)) i)) ;;
  i ← geti ip;
  let a := i.(i_addrs) !!! Z.to_nat NDIRECT in
  (if a =? 0 then mret tt
   else
     bp ← bread i.(i_dev) a;
     foreach (seqZ 0 NINDIRECT) (fun j =>
       x ← getb bp;
       let aj := load 4 x.(b_data) (4 * j) in
       if aj =? 0 then mret tt else bfree i.(i_dev) aj) ;;
     brelse bp ;;
     bfree i.(i_dev) a ;;
     modi ip (fun i => set_addrs (<[Z.to_nat NDIRECT := 0]> i.(i_addrs)) i)) ;;
  modi ip (set_size 0) ;;
  iupdate ip.

Definition iput (ip : nat) : M kernel unit :=
  acquire LkItable ;;
  i ← geti ip;
  (if (i.(i_ref) =? 1) && i.(i_valid) && (i.(i_nlink) =? 0) then
     acquiresleep (SlInode ip) ;;
     release LkItable ;;
     itrunc ip ;;
     modi ip (set_type 0) ;;
     iupdate ip ;;
     modi ip (set_ivalid false) ;;
     releasesleep (SlInode ip) ;;
     acquire LkItable
   else mret tt) ;;
  modi ip (fun x => set_ref (x.(i_ref) - 1) x) ;;
  release LkItable.

Definition iunlockput (ip : nat) : M kernel unit := iunlock (Some ip) ;; iput ip.

Definition ireclaim (dev : Z) : M kernel unit :=
  sb ← gets k_sb;
  foreach (inums sb) (fun inum =>
    bp ← bread dev (IBLOCK inum sb);
    let o := (inum mod IPB) * DINODE_SIZE in
    x ← getb bp;
    ip ← (if negb (dinode_type x.(b_data) o =? 0) && (dinode_nlink x.(b_data) o =? 0) then
            printf "ireclaim: orphaned inode %d
" [AInt inum] ;;
            ip ← iget dev inum;
            mret (Some ip)
          else mret None);
    brelse bp ;;
    match ip with
    | Some ip => begin_op ;; ilock (Some ip) ;; iunlock (Some ip) ;; iput ip ;; end_op
    | None => mret tt
    end).

Definition fsinit (dev : Z) : M kernel unit :=
  sb ← readsb dev;
  modify (set_sb sb) ;;
  if negb (sb.(sb_magic) =? FSMAGIC) then panic "invalid file system"
  else initlog dev sb ;; ireclaim dev.

(** *** Contents: reading and writing *)

(** struct stat, its 4 bytes of padding 0 *)
Definition stati (ip : nat) : M kernel (list Z) :=
  i ← geti ip;
  let b : block := fun _ => 0 in
  let b := store 4 b 0 i.(i_dev) in
  let b := store 4 b 4 i.(i_inum) in
  let b := store 2 b 8 i.(i_type) in
  let b := store 2 b 10 i.(i_nlink) in
  let b := store 8 b 16 i.(i_size) in
  mret (read_bytes b 0 24).

(** The loop of [readi], with the bytes copied so far. *)
Fixpoint readi_loop (fuel : nat) (ip : nat) (dst : dest) (off n tot : Z) (acc : list Z) : M kernel (Z * list Z) :=
  if tot <? n then
    match fuel with
    | O => nofuel
    | S f =>
        addr ← bmap ip (off / BSIZE);
        if addr =? 0 then mret (tot, acc)
        else
          i ← geti ip;
          bp ← bread i.(i_dev) addr;
          let m := Z.min (n - tot) (BSIZE - off mod BSIZE) in
          x ← getb bp;
          let bs := read_bytes x.(b_data) (off mod BSIZE) m in
          r ← either_copyout dst bs;
          if r =? -1 then brelse bp ;; mret (-1, acc)
          else
            brelse bp ;;
            readi_loop f ip (dest_add dst m) (off + m) n (tot + m) (acc ++ bs)
    end
  else mret (tot, acc).

(** The return value and the bytes read, which are what a kernel variable
    given as destination holds. *)
Definition readi (ip : nat) (dst : dest) (off n : Z) : M kernel (Z * list Z) :=
  i ← geti ip;
  if (i.(i_size) <? off) || (u32 (off + n) <? off) then mret (0, [])
  else
    let n := if i.(i_size) <? off + n then i.(i_size) - off else n in
    readi_loop (Z.to_nat n) ip dst off n 0 [].

(** The loop of [writei]: the final [off] and [tot].  A failed copy may have
    changed the buffer. *)
Fixpoint writei_loop (fuel : nat) (ip : nat) (src : source) (off n tot : Z) : M kernel (Z * Z) :=
  if tot <? n then
    match fuel with
    | O => nofuel
    | S f =>
        addr ← bmap ip (off / BSIZE);
        if addr =? 0 then mret (off, tot)
        else
          i ← geti ip;
          bp ← bread i.(i_dev) addr;
          let m := Z.min (n - tot) (BSIZE - off mod BSIZE) in
          r ← either_copyin src m;
          modb bp (fun x => set_data (write_bytes x.(b_data) (off mod BSIZE) r.2) x) ;;
          if r.1 =? -1 then brelse bp ;; mret (off, tot)
          else
            log_write bp ;;
            brelse bp ;;
            writei_loop f ip (source_add src m) (off + m) n (tot + m)
    end
  else mret (off, tot).

Definition writei (ip : nat) (src : source) (off n : Z) : M kernel Z :=
  i ← geti ip;
  if (i.(i_size) <? off) || (u32 (off + n) <? off) then mret (-1)
  else if MAXFILE * BSIZE <? off + n then mret (-1)
  else
    r ← writei_loop (Z.to_nat n) ip src off n 0;
    i ← geti ip;
    (if i.(i_size) <? r.1 then modi ip (set_size r.1) else mret tt) ;;
    iupdate ip ;;
    mret r.2.

(** ** Directories *)

(** Two byte strings in one memory, at 0 and at 16. *)
Definition two (s t : list Z) : mem := write_bytes (write_bytes (fun _ => 0) 0 s) 16 t.

Definition namecmp (s t : list Z) : Z := strncmp (two s t) 0 16 DIRSIZ.

(** The loop of [dirlookup] from [off] on: the inode number and the offset. *)
Fixpoint dirlookup_loop (fuel : nat) (dp : nat) (name : list Z) (off : Z) : M kernel (option (nat * Z)) :=
  d ← geti dp;
  if off <? d.(i_size) then
    match fuel with
    | O => nofuel
    | S f =>
        r ← readi dp KVar off DIRENT_SIZE;
        if negb (r.1 =? DIRENT_SIZE) then panic "dirlookup read"
        else
          let inum := nth 0 r.2 0 + 256 * nth 1 r.2 0 in
          if inum =? 0 then dirlookup_loop f dp name (off + DIRENT_SIZE)
          else if namecmp name (drop 2 r.2) =? 0 then
            ip ← iget d.(i_dev) inum;
            mret (Some (ip, off))
          else dirlookup_loop f dp name (off + DIRENT_SIZE)
    end
  else mret None.

(** The inode and *poff *)
Definition dirlookup (dp : nat) (name : list Z) : M kernel (option (nat * Z)) :=
  d ← geti dp;
  if negb (d.(i_type) =? T_DIR) then panic "dirlookup not DIR"
  else dirlookup_loop (S (Z.to_nat (d.(i_size) / DIRENT_SIZE))) dp name 0.

(** The offset of the first empty entry, or of the end. *)
Fixpoint free_dirent (fuel : nat) (dp : nat) (off : Z) : M kernel Z :=
  d ← geti dp;
  if off <? d.(i_size) then
    match fuel with
    | O => nofuel
    | S f =>
        r ← readi dp KVar off DIRENT_SIZE;
        if negb (r.1 =? DIRENT_SIZE) then panic "dirlink read"
        else if nth 0 r.2 0 + 256 * nth 1 r.2 0 =? 0 then mret off
        else free_dirent f dp (off + DIRENT_SIZE)
    end
  else mret off.

(** strncpy(de.name, name, DIRSIZ) *)
Definition dirent_name (name : list Z) : list Z :=
  read_bytes (strncpy (two [] name) 0 16 DIRSIZ) 0 (Z.of_nat DIRSIZ).

Definition dirlink (dp : nat) (name : list Z) (inum : Z) : M kernel Z :=
  r ← dirlookup dp name;
  match r with
  | Some (ip, _) => iput ip ;; mret (-1)
  | None =>
      d ← geti dp;
      off ← free_dirent (S (Z.to_nat (d.(i_size) / DIRENT_SIZE))) dp 0;
      let de := [u16 inum mod 256; u16 inum / 256] ++ dirent_name name in
      r ← writei dp (SVar de) off DIRENT_SIZE;
      if negb (r =? DIRENT_SIZE) then mret (-1) else mret 0
  end.

(** ** Paths *)

(** while( *path == '/' ) path++; *)
Fixpoint skip_slashes (path : list Z) : list Z :=
  match path with c :: p => if c =? 47 then skip_slashes p else path | [] => [] end.

(** while( *path != '/' && *path != 0 ) path++; *)
Fixpoint elem (path : list Z) : list Z :=
  match path with c :: p => if c =? 47 then [] else c :: elem p | [] => [] end.

(** The rest of the path and [name] after the call, [None] for 0; [name] keeps
    its old bytes after the NUL. *)
Definition skipelem (path name : list Z) : option (list Z * list Z) :=
  match skip_slashes path with
  | [] => None
  | path =>
      let s := elem path in
      let len := length s in
      let name := if (DIRSIZ <=? len)%nat then take DIRSIZ s
                  else s ++ [0] ++ drop (S len) name in
      Some (skip_slashes (drop len path), name)
  end.

(** The while loop of [namex]; every round uses up an element of the path. *)
Fixpoint namex_loop (fuel : nat) (ip : nat) (path : list Z) (nameiparent : bool) (name : list Z)
  : M kernel (option (nat * list Z)) :=
  match skipelem path name with
  | None => if nameiparent then iput ip ;; mret None else mret (Some (ip, name))
  | Some (path, name) =>
      match fuel with
      | O => nofuel
      | S f =>
          ilock (Some ip) ;;
          i ← geti ip;
          if negb (i.(i_type) =? T_DIR) then iunlockput ip ;; mret None
          else if nameiparent && bool_decide (path = []) then iunlock (Some ip) ;; mret (Some (ip, name))
          else
            r ← dirlookup ip name;
            match r with
            | None => iunlockput ip ;; mret None
            | Some (next, _) => iunlockput ip ;; namex_loop f next path nameiparent name
            end
      end
  end.

(** The inode and the array [name]; an uninitialised [name] is zero bytes. *)
Definition namex (path : list Z) (nameiparent : bool) : M kernel (option (nat * list Z)) :=
  ip ← (if nth 0 path 0 =? 47 then iget ROOTDEV ROOTINO
        else
          i ← curproc;
          p ← getp i;
          cwd ← deref p.(p_cwd);
          idup cwd);
  namex_loop (length path) ip path nameiparent (replicate DIRSIZ 0).

Definition namei (path : list Z) : M kernel (option nat) :=
  r ← namex path false;
  mret (fst <$> r).

Definition nameiparent (path : list Z) : M kernel (option (nat * list Z)) := namex path true.
End fs.
