(* ===== verification/FsInode.v ===== *)
(** * Inodes: locks and slots

    ilock() and iunlock() of an inode that is in memory change nothing but the sleep lock,
    neither the cache nor the log.  An inode written into its slot of an inode block is
    read back, and the inodes in the other slots of the block stay. *)

From Stdlib Require Import ZArith Lia.
From stdpp Require Import base list numbers strings gmap.
From S2P Require Import Prelude Types Mem Str Layout Kalloc Vm State Spinlock Printf Proc ProcSpec Sleeplock Seq Bio BioSpec Log LogSpec FsTx Fs.
Open Scope Z_scope.

(** ** Locks *)

Section slock.
Context (me : nat) (pid : Z) (d : Z) `{W : Wakes} `{D : Disk} `{DOK : !DiskOK} (o : bool).
Abbreviation view := (view d).
Abbreviation in_tx := (in_tx me pid d o).

(** The kernel with other sleep locks held, those of buffers apart. *)
Lemma tx_slocks k bs hs s :
  (forall j, s !! SlBuf j = k.(k_slocks) !! SlBuf j) -> in_tx k bs hs -> in_tx (set_slocks s k) bs hs.
Proof.
  intros Hs []. split; [|exact it_nodup|exact it_blocks|exact it_n|exact it_take|exact it_len|exact it_open|exact it_ref| | |exact it_hnodup|exact it_clean].
  - destruct it_ready as [Hc [l C]]. split; [by apply (calm_parts me pid [] k)|]. exists l. destruct C. split; try done.
    intros j. cbn [k_slocks set_slocks]. rewrite Hs. apply ca_lock.
  - intros n b Hb. destruct (it_held n b Hb) as (A1 & A2 & A3 & A4). split; [exact A1|]. split; [cbn [k_slocks set_slocks]; by rewrite Hs|]. split; [exact A3|exact A4].
  - intros j. cbn [k_slocks set_slocks]. rewrite Hs. apply it_locked.
Qed.

(** [k'] is [k] with the sleep locks [s]. *)
Definition relocked (k k' : kernel) (s : gmap slid Z) : Prop :=
  frame k' = frame k /\ k'.(k_slocks) = s /\ forall m, view k' m = view k m.

Lemma tx_slock_op k bs hs (c : M kernel unit) c' s :
  in_tx k bs hs -> sim me pid [] [] c c' -> c' (rest k) = Ok tt (rest (set_slocks s k)) -> (forall j, s !! SlBuf j = k.(k_slocks) !! SlBuf j) ->
  runs (c k) (fun _ k' => in_tx k' bs hs /\ relocked k k' s).
Proof.
  intros I Hs Hc Hsl. eapply runs_mono; [exact (sim_ok me pid [] [] c c' k tt _ Hs (proj1 (it_ready _ _ _ _ _ _ _ I)) Hc)|].
  intros [] k' (_ & C & E). pose proof (tx_slocks k bs hs s Hsl I) as I1. destruct (tx_rest me pid d o (set_slocks s k) k' bs hs I1 C E) as (I' & _ & V).
  destruct (ready_lock me pid d (set_slocks s k) k' [] (or_introl (it_ready _ _ _ _ _ _ _ I1)) C E) as (_ & F & S & _).
  split; [exact I'|]. split; [rewrite F; reflexivity|]. split; [rewrite S; reflexivity|exact V].
Qed.

Lemma ilock_tx k bs hs ip i :
  in_tx k bs hs -> k.(k_itable) !! ip = Some i -> 1 <= i.(i_ref) -> i.(i_valid) = true -> k.(k_slocks) !! SlInode ip = None ->
  runs (ilock (Some ip) k) (fun _ k' => in_tx k' bs hs /\ relocked k k' (<[SlInode ip := pid]> k.(k_slocks))).
Proof.
  intros I Hi Hr Hv Hs. unfold ilock, geti. rewrite bind_gets, (list_lookup_total_correct _ _ _ Hi), (proj2 (Z.ltb_ge _ _)) by done.
  step_by (tx_slock_op k bs hs (acquiresleep (SlInode ip)) (sl_acquire pid (SlInode ip)) (<[SlInode ip := pid]> k.(k_slocks)) I).
  - by apply sim_acquiresleep, not_elem_of_nil.
  - unfold sl_acquire. rewrite bind_gets. change (k_slocks (rest k)) with (k_slocks k). by rewrite Hs.
  - intros j. by rewrite lookup_insert_ne.
  - intros [] k' (I' & F & S & V). rewrite bind_gets, (f_equal k_itable F : k_itable k' = k_itable k), (list_lookup_total_correct _ _ _ Hi), Hv. done.
Qed.

Lemma iunlock_tx k bs hs ip i :
  in_tx k bs hs -> k.(k_itable) !! ip = Some i -> 1 <= i.(i_ref) -> k.(k_slocks) !! SlInode ip = Some pid ->
  runs (iunlock (Some ip) k) (fun _ k' => in_tx k' bs hs /\ relocked k k' (delete (SlInode ip) k.(k_slocks))).
Proof.
  intros I Hi Hr Hs. unfold iunlock, geti. apply runs_bind.
  eapply runs_mono; [exact (sim_ok me pid [] [] (holdingsleep (SlInode ip)) (sl_holding pid (SlInode ip)) k true (rest k)
    (sim_holdingsleep me pid [] _ (not_elem_of_nil _)) (proj1 (it_ready _ _ _ _ _ _ _ I)) ltac:(unfold sl_holding, gets; change (k_slocks (rest k)) with (k_slocks k); by rewrite Hs, bool_decide_true))|].
  intros h k1 (-> & C & E). destruct (tx_rest me pid d o k k1 bs hs I C E) as (I1 & _ & V1).
  destruct (ready_lock me pid d k k1 [] (or_introl (it_ready _ _ _ _ _ _ _ I)) C E) as (_ & F1 & S1 & _).
  rewrite bind_gets, (f_equal k_itable F1 : k_itable k1 = k_itable k), (list_lookup_total_correct _ _ _ Hi), (proj2 (Z.ltb_ge _ _)) by done. cbn [negb orb].
  eapply runs_mono; [apply (tx_slock_op k1 bs hs (releasesleep (SlInode ip)) (sl_release (SlInode ip)) (delete (SlInode ip) k1.(k_slocks)) I1)|].
  - by apply sim_releasesleep; [apply not_elem_of_nil|intros j; apply not_elem_of_nil].
  - done.
  - intros j. by rewrite lookup_delete_ne.
  - intros [] k' (I' & F & S & V). split; [done|]. split; [congruence|]. split; [congruence|]. intros m. by rewrite V.
Qed.
End slock.

(** ** Slots on the disk *)

Lemma load_store_words n b a l c :
  c + Z.of_nat n <= a \/ a + 4 * Z.of_nat (length l) <= c -> load n (store_words b a l) c = load n b c.
Proof.
  revert b a. induction l as [|x l IH]; intros b a H; [done|]. cbn [store_words]. cbn [length] in H.
  rewrite IH by lia. apply load_store_ne. lia.
Qed.

Lemma load_store_word b a l j x : l !! j = Some x -> load 4 (store_words b a l) (a + 4 * Z.of_nat j) = u32 x.
Proof.
  revert b a j. induction l as [|y l IH]; intros b a j H; [done|]. destruct j as [|j]; cbn [store_words].
  - injection H as ->. rewrite load_store_words by lia. rewrite Z.add_0_r. apply load_store_eq.
  - rewrite <- (IH (store 4 b a y) (a + 4) j H). f_equal. lia.
Qed.

(** The fields have the values of their C types. *)
Definition short_ok (x : Z) : Prop := - 2 ^ 15 <= x < 2 ^ 15.
Record inode_fits (i : inode) : Prop := {
  fit_type : short_ok i.(i_type);
  fit_major : short_ok i.(i_major);
  fit_minor : short_ok i.(i_minor);
  fit_nlink : short_ok i.(i_nlink);
  fit_size : 0 <= i.(i_size) < 2 ^ 32;
  fit_len : length i.(i_addrs) = 13%nat;
  fit_addrs : Forall (fun x => 0 <= x < 2 ^ 32) i.(i_addrs)
}.

Lemma i16_mod x : short_ok x -> i16 (x mod 256 ^ Z.of_nat 2) = x.
Proof.
  intros H. unfold short_ok, i16 in *. change (256 ^ Z.of_nat 2) with (2 ^ 16).
  rewrite Z.add_mod_idemp_l by lia. rewrite Z.mod_small; lia.
Qed.

(** The fields of [j] that the disk does not have, with those that it has from [i]. *)
Definition with_disk (i j : inode) : inode :=
  mkinode j.(i_dev) j.(i_inum) j.(i_ref) j.(i_valid) i.(i_type) i.(i_major) i.(i_minor) i.(i_nlink) i.(i_size) i.(i_addrs).

Lemma read_write_dinode i o b j : inode_fits i -> read_dinode (write_dinode i o b) o j = with_disk i j.
Proof.
  intros []. unfold read_dinode, write_dinode, with_disk.
  rewrite !load_store_words by (rewrite fit_len0; lia). f_equal.
  - rewrite !load_store_ne, load_store_eq by lia. by apply i16_mod.
  - rewrite !load_store_ne, load_store_eq by lia. by apply i16_mod.
  - rewrite !load_store_ne, load_store_eq by lia. by apply i16_mod.
  - rewrite !load_store_ne, load_store_eq by lia. by apply i16_mod.
  - rewrite load_store_eq, Z.mod_small by lia. done.
  - apply list_eq. intros n. rewrite list_lookup_fmap. destruct (i_addrs i !! n) as [x|] eqn:Hx.
    + pose proof (lookup_lt_Some _ _ _ Hx) as Hj. rewrite lookup_seqZ_lt by (unfold NDIRECT; lia). cbn [fmap option_fmap option_map].
      rewrite Z.add_0_l, (load_store_word _ _ _ _ _ Hx). f_equal. apply u32_small. by apply (Forall_lookup_1 _ _ _ _ fit_addrs0 Hx).
    + apply lookup_ge_None in Hx. rewrite lookup_seqZ_ge; [done|]. unfold NDIRECT. lia.
Qed.

Lemma read_write_dinode_ne i o o' b j :
  length i.(i_addrs) = 13%nat -> o' + 64 <= o \/ o + 64 <= o' -> read_dinode (write_dinode i o b) o' j = read_dinode b o' j.
Proof.
  intros Hlen Ho. assert (forall n c, o' <= c -> c + Z.of_nat n <= o' + 64 -> load n (write_dinode i o b) c = load n b c) as H.
  { intros n c H1 H2. unfold write_dinode. rewrite load_store_words by (rewrite Hlen; lia). rewrite !load_store_ne by lia. done. }
  unfold read_dinode. rewrite !H by lia. f_equal. apply list_fmap_ext. intros n x Hx.
  apply lookup_seqZ in Hx as [-> Hi]. apply H; unfold NDIRECT in *; lia.
Qed.
