(* ===== verification/FsBlocks.v ===== *)
(** * Block allocation

    balloc() finds the first clear bit of the bitmap, sets it and zeroes the block; bfree()
    clears a bit.  [used] is the bitmap as a set of blocks. *)

From Stdlib Require Import ZArith Lia.
From stdpp Require Import base list numbers strings gmap.
From S2P Require Import Prelude Types Mem Str Layout Kalloc Vm State Spinlock Printf Proc ProcSpec Sleeplock Seq Bio BioSpec Log LogSpec FsTx Fs.
Open Scope Z_scope.

(** The parts of the disk, in order: inodes, bitmap, data from [ds] on. *)
Record geom (sb : superblock) (ds : Z) : Prop := {
  g_inodes : 0 < sb.(sb_inodestart) /\ 0 <= sb.(sb_ninodes) /\ sb.(sb_inodestart) + sb.(sb_ninodes) / IPB + 1 <= sb.(sb_bmapstart);
  g_bmap : sb.(sb_bmapstart) + (sb.(sb_size) - 1) / BPB + 1 <= ds;
  g_data : 0 < ds <= sb.(sb_size);
  g_size : sb.(sb_size) < 2 ^ 31
}.

(** The bit of block [b] in the bitmap. *)
Definition used (sb : superblock) (V : Z -> block) (b : Z) : bool :=
  Z.testbit (V (BBLOCK b sb) (b mod BPB / 8)) (b mod BPB mod 8).

Lemma land_bit x n : 0 <= n -> (Z.land x (Z.shiftl 1 n) =? 0) = negb (Z.testbit x n).
Proof.
  intros Hn. destruct (Z.testbit x n) eqn:E; cbn; apply eq_true_iff_eq; rewrite Z.eqb_eq.
  - split; [|done]. intros H0. assert (Z.testbit (Z.land x (Z.shiftl 1 n)) n = true); [|rewrite H0, Z.bits_0 in H; done].
    rewrite Z.land_spec, E, Z.shiftl_spec, Z.sub_diag by done. done.
  - split; [done|]. intros _. apply Z.bits_inj'. intros m Hm. rewrite Z.land_spec, Z.bits_0, Z.shiftl_spec by done.
    destruct (Z.eq_dec m n) as [->|Hne]; [by rewrite E|]. destruct (Z.lt_ge_cases m n) as [H|H].
    + rewrite (Z.testbit_neg_r 1) by lia. by rewrite andb_false_r.
    + rewrite (Z.bits_above_log2 1) by (simpl; lia). by rewrite andb_false_r.
Qed.
Lemma lor_bit x n m : 0 <= n -> 0 <= m -> Z.testbit (Z.lor x (Z.shiftl 1 n)) m = Z.testbit x m || (m =? n).
Proof.
  intros Hn Hm. rewrite Z.lor_spec. f_equal. rewrite Z.shiftl_spec by done. destruct (Z.eqb_spec m n) as [->|Hne]; [by rewrite Z.sub_diag|].
  destruct (Z.lt_ge_cases m n); [by rewrite Z.testbit_neg_r by lia|]. apply Z.bits_above_log2; simpl; lia.
Qed.

Lemma clear_bit_spec fuel sz b bi data : 0 <= bi -> BPB - bi <= Z.of_nat fuel ->
  match clear_bit fuel sz b bi data with
  | Some j => bi <= j < BPB /\ b + j < sz /\ Z.testbit (data (j / 8)) (j mod 8) = false /\
      forall i, bi <= i < j -> Z.testbit (data (i / 8)) (i mod 8) = true
  | None => forall i, bi <= i < BPB -> b + i < sz -> Z.testbit (data (i / 8)) (i mod 8) = true
  end.
Proof.
  revert bi. induction fuel as [|fuel IH]; intros bi H0 Hf; cbn [clear_bit]; [intros i Hi; lia|].
  destruct (Z.ltb_spec bi BPB); cbn [andb]; [|intros i Hi; lia]. destruct (Z.ltb_spec (b + bi) sz); [|intros i Hi; lia].
  rewrite land_bit by (apply Z.mod_pos_bound; lia). destruct (Z.testbit (data (bi / 8)) (bi mod 8)) eqn:E; cbn [negb].
  - specialize (IH (bi + 1) ltac:(lia) ltac:(lia)). destruct (clear_bit _ _ _ _ _) as [j|].
    + destruct IH as (J1 & J2 & J3 & J4). split; [lia|]. split; [done|]. split; [done|]. intros i Hi.
      destruct (Z.eq_dec i bi) as [->|]; [done|]. apply J4. lia.
    + intros i Hi. destruct (Z.eq_dec i bi) as [->|]; [done|]. apply IH. lia.
  - split; [lia|]. split; [done|]. split; [done|]. intros i Hi. lia.
Qed.

(** The bitmap block of a block, with the bit of the block set. *)
Definition set_bit (a : Z) (data : block) : block :=
  upd data (a mod BPB / 8) (Z.lor (data (a mod BPB / 8)) (Z.shiftl 1 (a mod BPB mod 8))).

Section geometry.
Context (sb : superblock) (ds : Z) (G : geom sb ds).

Lemma BBLOCK_eq b : 0 <= b < sb.(sb_size) -> BBLOCK b sb = b / BPB + sb.(sb_bmapstart).
Proof using G.
  intros Hb. unfold BBLOCK. apply u32_small. destruct G. assert (0 <= b / BPB <= (sb_size sb - 1) / BPB).
  { split; [apply Z.div_pos; [lia|done]|apply Z.div_le_mono; [done|lia]]. }
  assert (0 <= sb_ninodes sb / IPB) by (apply Z.div_pos; [lia|done]). lia.
Qed.
Lemma BBLOCK_range b : 0 <= b < sb.(sb_size) -> sb.(sb_bmapstart) <= BBLOCK b sb < ds.
Proof using G.
  intros Hb. rewrite BBLOCK_eq by done. destruct G. assert (0 <= b / BPB <= (sb_size sb - 1) / BPB).
  { split; [apply Z.div_pos; [lia|done]|apply Z.div_le_mono; [done|lia]]. }
  lia.
Qed.

Lemma bmapstart_pos : 0 < sb.(sb_bmapstart).
Proof using G. destruct G. assert (0 <= sb_ninodes sb / IPB) by (apply Z.div_pos; [lia|done]). lia. Qed.

Lemma IBLOCK_eq n : 0 <= n < sb.(sb_ninodes) -> IBLOCK n sb = n / IPB + sb.(sb_inodestart).
Proof using G.
  intros Hn. destruct (g_inodes _ _ G) as (H1 & H2 & H3). pose proof (g_bmap _ _ G). pose proof (g_data _ _ G). pose proof (g_size _ _ G).
  assert (0 <= n / IPB <= sb_ninodes sb / IPB) by (split; [apply Z.div_pos; [lia|done]|apply Z.div_le_mono; [done|lia]]).
  assert (0 <= (sb_size sb - 1) / BPB) by (apply Z.div_pos; [lia|done]).
  unfold IBLOCK. apply u32_small; lia.
Qed.
Lemma IBLOCK_range n : 0 <= n < sb.(sb_ninodes) -> 0 < IBLOCK n sb < sb.(sb_bmapstart).
Proof using G.
  intros Hn. rewrite IBLOCK_eq by done. destruct (g_inodes _ _ G) as (H1 & H2 & H3).
  assert (0 <= n / IPB <= sb_ninodes sb / IPB) by (split; [apply Z.div_pos; [lia|done]|apply Z.div_le_mono; [done|lia]]). lia.
Qed.

(** Changing the bit of block [a], to [v]. *)
Lemma used_upd V V' a b y v :
  0 <= a < sb.(sb_size) -> 0 <= b < sb.(sb_size) -> V' (BBLOCK a sb) = upd (V (BBLOCK a sb)) (a mod BPB / 8) y ->
  (forall m, ds > m -> m <> BBLOCK a sb -> V' m = V m) ->
  (forall n, 0 <= n < 8 -> Z.testbit y n = if n =? a mod BPB mod 8 then v else Z.testbit (V (BBLOCK a sb) (a mod BPB / 8)) n) ->
  used sb V' b = if b =? a then v else used sb V b.
Proof using G.
  intros Ha Hb E Hne Hy. unfold used. pose proof (BBLOCK_range b Hb). pose proof (Z.mod_pos_bound a BPB ltac:(done)). pose proof (Z.mod_pos_bound b BPB ltac:(done)).
  destruct (Z.eqb_spec b a) as [->|Hba]; [rewrite E, upd_eq, Hy by (apply Z.mod_pos_bound; lia); by rewrite Z.eqb_refl|].
  destruct (decide (BBLOCK b sb = BBLOCK a sb)) as [Eb|Eb]; [|by rewrite Hne by lia].
  rewrite Eb, E. rewrite !BBLOCK_eq in Eb by done. destruct (decide (b mod BPB / 8 = a mod BPB / 8)) as [E8|E8]; [|by rewrite upd_ne].
  rewrite E8, upd_eq, Hy by (apply Z.mod_pos_bound; lia). destruct (Z.eqb_spec (b mod BPB mod 8) (a mod BPB mod 8)) as [Em|]; [|done].
  destruct Hba. rewrite (Z.div_mod a BPB), (Z.div_mod b BPB) by done. f_equal; [f_equal; lia|].
  rewrite (Z.div_mod (a mod BPB) 8), (Z.div_mod (b mod BPB) 8) by done. congruence.
Qed.

(** Setting a bit adds a block. *)
Lemma used_set_bit V V' a b :
  0 <= a < sb.(sb_size) -> 0 <= b < sb.(sb_size) -> V' (BBLOCK a sb) = set_bit a (V (BBLOCK a sb)) ->
  (forall m, ds > m -> m <> BBLOCK a sb -> V' m = V m) -> used sb V' b = used sb V b || (b =? a).
Proof using G.
  intros Ha Hb E Hne. rewrite (used_upd V V' a b _ true Ha Hb E Hne); [destruct (b =? a); by rewrite ?orb_true_r, ?orb_false_r|].
  intros n Hn. rewrite lor_bit by (try apply Z.mod_pos_bound; lia). destruct (_ =? _); by rewrite ?orb_true_r, ?orb_false_r.
Qed.
End geometry.

(** The blocks after block [a] was allocated. *)
Definition allocated (sb : superblock) (a : Z) (V : Z -> block) (m : Z) : block :=
  if decide (m = a) then memset (V a) 0 0 BSIZE else if decide (m = BBLOCK a sb) then set_bit a (V m) else V m.

Lemma allocated_zero sb a V x : 0 <= x < BSIZE -> allocated sb a V a x = 0.
Proof. intros Hx. unfold allocated. rewrite decide_True by done. apply memset_in. lia. Qed.
Lemma allocated_bit sb ds a V : geom sb ds -> ds <= a < sb.(sb_size) -> allocated sb a V (BBLOCK a sb) = set_bit a (V (BBLOCK a sb)).
Proof.
  intros G Ha. pose proof (g_data _ _ G). pose proof (BBLOCK_range sb ds G a ltac:(lia)). unfold allocated.
  by rewrite decide_False, decide_True by (done || lia).
Qed.
Lemma allocated_same sb a V m : m <> a -> m <> BBLOCK a sb -> allocated sb a V m = V m.
Proof. intros H1 H2. unfold allocated. by rewrite !decide_False. Qed.

Lemma runs_last {S A} (c : M S A) s Q : runs ((x ← c; mret x) s) Q -> runs (c s) Q.
Proof. unfold mbind, M_bind. destruct (c s); done. Qed.

Section blocks.
Context (me : nat) (pid : Z) (d : Z) `{W : Wakes} `{D : Disk} `{DOK : !DiskOK} (o : bool) (Ho : o = true).
Abbreviation view := (view d).
Abbreviation in_tx := (in_tx me pid d o).

Lemma bzero_tx k bs hs n :
  in_tx k bs hs -> n ∉ hs.*1 -> 0 <= n < 2 ^ 31 -> (length bs + length hs < NBUF)%nat ->
  runs (bzero d n k) (fun _ k' => in_tx k' (add n bs) hs /\ same k k' /\
    forall m, view k' m = if decide (m = n) then memset (view k n) 0 0 BSIZE else view k m).
Proof using DOK Ho.
  intros I Hn Hr Hlen. unfold bzero. apply (tx_bread me pid d o k bs hs n); [done..|]. intros b k1 I1 S1 V1.
  apply (tx_write me pid d o k1 bs ((n, b) :: hs) n b _ (memset (view k1 n) 0 0 BSIZE)); [done|done|by left|done| | |].
  - unfold LOGBLOCKS, MAXOPBLOCKS, NBUF in *. lia.
  - by intros x ->.
  - intros k2 I2 S2 V2. apply runs_last. apply (tx_brelse me pid d o k2 (add n bs) hs n b); [done|]. intros k3 I3 S3 V3. cbn.
    split; [done|]. split; [eauto using same_others_trans|]. intros m. rewrite V3, V2, !V1. done.
Qed.

Context (sb : superblock) (ds : Z) (G : geom sb ds).

(** The blocks in front of the data are in use, and the process holds only blocks in use. *)
Definition bitmap_ok (V : Z -> block) (hs : list (Z * nat)) : Prop :=
  (forall m, 0 <= m < ds -> used sb V m = true) /\ forall m, m ∈ hs.*1 -> ds <= m < sb.(sb_size) /\ used sb V m = true.

(** What balloc() answers when it looks from block [b] on. *)
Definition balloc_post (k : kernel) (bs : list Z) (hs : list (Z * nat)) (b a : Z) (k' : kernel) : Prop :=
  same k k' /\
  (a = 0 /\ in_tx k' bs hs /\ (forall m, view k' m = view k m) /\ (forall m, b <= m < sb.(sb_size) -> used sb (view k) m = true) \/
   ds <= a < sb.(sb_size) /\ used sb (view k) a = false /\ in_tx k' (add a (add (BBLOCK a sb) bs)) hs /\
   (forall m, view k' m = allocated sb a (view k) m)).

Lemma BPB_aligned b j : b mod BPB = 0 -> 0 <= j < BPB -> (b + j) mod BPB = j /\ BBLOCK (b + j) sb = BBLOCK b sb.
Proof.
  intros Hb Hj. apply Z.mod_divide in Hb as [c ->]; [|done]. split.
  - rewrite Z.add_comm, Z.mod_add, Z.mod_small; done.
  - unfold BBLOCK. f_equal. f_equal. rewrite Z.add_comm, !Z.div_add, Z.div_mul, Z.div_small by done. done.
Qed.

Lemma balloc_loop_tx fuel k bs hs b :
  in_tx k bs hs -> k.(k_sb) = sb -> bitmap_ok (view k) hs -> (length bs + length hs + 1 < NBUF)%nat ->
  0 <= b -> b mod BPB = 0 -> sb.(sb_size) <= b + BPB * Z.of_nat fuel ->
  runs (balloc_loop fuel d b k) (balloc_post k bs hs b).
Proof using DOK Ho G.
  assert (0 < BPB) as HBPB by done. revert k b. induction fuel as [|fuel IH]; intros k b I Esb Hbm Hlen H0 Hal Hf; cbn [balloc_loop]; rewrite bind_gets, Esb.
  { rewrite (proj2 (Z.ltb_ge _ _)) by lia. apply (tx_printf me pid d o k bs hs); [done|]. intros k' I' S' V'. cbn. split; [done|]. left.
    split; [done|]. split; [done|]. split; [done|]. intros m Hm. lia. }
  destruct (Z.ltb_spec b sb.(sb_size)) as [Hlt|Hge].
  2: { apply (tx_printf me pid d o k bs hs); [done|]. intros k' I' S' V'. cbn. split; [done|]. left.
    split; [done|]. split; [done|]. split; [done|]. intros m Hm. lia. }
  pose proof (BBLOCK_range sb ds G b ltac:(lia)) as Hbb. pose proof (bmapstart_pos sb ds G). pose proof (g_data _ _ G). pose proof (g_size _ _ G).
  assert (BBLOCK b sb ∉ hs.*1) as Hnh by (intros Hin; apply Hbm in Hin; lia).
  apply (tx_bread me pid d o k bs hs); [done|done|lia|]. intros bp k1 I1 S1 V1.
  apply (tx_getb me pid d o k1 bs ((BBLOCK b sb, bp) :: hs) (BBLOCK b sb) bp); [done|by left|]. intros x Hx _.
  pose proof (clear_bit_spec (Z.to_nat BPB) sb.(sb_size) b 0 x.(b_data) ltac:(lia) ltac:(lia)) as Hc.
  destruct (clear_bit _ _ _ _ _) as [j|].
  - destruct Hc as (Hj & Hjs & Hjb & _). destruct (BPB_aligned b j Hal ltac:(lia)) as [Ej Eb]. set (a := b + j) in *.
    assert (used sb (view k) a = false) as Hfree by (unfold used; by rewrite Eb, Ej, <- V1, <- Hx).
    assert (ds <= a) as Hda by (destruct (Z.lt_ge_cases a ds); [|lia]; rewrite (proj1 Hbm) in Hfree by lia; done).
    apply (tx_write me pid d o k1 bs ((BBLOCK b sb, bp) :: hs) (BBLOCK b sb) bp _ (set_bit a (view k1 (BBLOCK b sb)))); [done|done|by left|lia| | |].
    { unfold LOGBLOCKS, MAXOPBLOCKS, NBUF in *. lia. }
    { intros y Hy. unfold set_bit. by rewrite Ej, Hy. }
    intros k2 I2 S2 V2. apply (tx_brelse me pid d o k2 (add (BBLOCK b sb) bs) hs (BBLOCK b sb) bp); [done|]. intros k3 I3 S3 V3.
    pose proof (length_add (BBLOCK b sb) bs).
    step_by (bzero_tx k3 (add (BBLOCK b sb) bs) hs a); [done| |lia|lia|].
    { intros Hin. apply Hbm in Hin as [_ Hin]. congruence. }
    intros [] k4 (I4 & S4 & V4). cbn. split; [eauto 6 using same_others_trans|]. right. split; [lia|]. split; [done|].
    rewrite Eb. split; [done|]. intros m. rewrite V4, !V3, !V2, !V1. unfold allocated. rewrite Eb.
    rewrite (decide_False (P := a = BBLOCK b sb)) by lia. destruct (decide (m = a)); [done|]. destruct (decide (m = BBLOCK b sb)) as [->|]; done.
  - apply (tx_brelse me pid d o k1 bs hs (BBLOCK b sb) bp); [done|]. intros k2 I2 S2 V2.
    assert (forall m, view k2 m = view k m) as V by (intros m; by rewrite V2).
    eapply runs_mono; [apply (IH k2 (b + BPB) I2)|].
    + rewrite (same_sb _ _ S2), (same_sb _ _ S1). done.
    + destruct Hbm as [B1 B2]. unfold bitmap_ok, used. split; intros m Hm; rewrite V; [by apply B1|by apply B2].
    + done.
    + lia.
    + rewrite <- Z.add_mod_idemp_l, Hal by done. done.
    + lia.
    + intros a k3 (S3 & Hpost). split; [eauto 6 using same_others_trans|].
      assert (forall m, b <= m < b + BPB -> m < sb_size sb -> used sb (view k) m = true) as Hlow.
      { intros m Hm1 Hm2. replace m with (b + (m - b)) by lia. destruct (BPB_aligned b (m - b) Hal ltac:(lia)) as [Em Ebm].
        unfold used. rewrite Em, Ebm, <- V1, <- Hx. apply Hc; lia. }
      destruct Hpost as [(-> & I3 & V3 & Hu)|(Ha & Hu & I3 & V3)]; [left|right].
      * split; [done|]. split; [done|]. split; [intros m; by rewrite V3|]. intros m Hm. destruct (Z.lt_ge_cases m (b + BPB)); [apply Hlow; lia|].
        specialize (Hu m ltac:(lia)). unfold used in *. by rewrite V in Hu.
      * split; [done|]. split; [unfold used in *; by rewrite V in Hu|]. split; [done|]. intros m. rewrite V3. unfold allocated. by rewrite !V.
Qed.

Lemma balloc_tx k bs hs :
  in_tx k bs hs -> k.(k_sb) = sb -> bitmap_ok (view k) hs -> (length bs + length hs + 1 < NBUF)%nat ->
  runs (balloc d k) (balloc_post k bs hs 0).
Proof using DOK Ho G.
  intros I Esb Hbm Hlen. unfold balloc. rewrite bind_gets, Esb. apply balloc_loop_tx; try done.
  pose proof (g_data _ _ G). pose proof (Z.div_mod (sb_size sb) BPB ltac:(done)). pose proof (Z.mod_pos_bound (sb_size sb) BPB ltac:(done)).
  assert (0 <= sb_size sb / BPB) by (apply Z.div_pos; [lia|done]). rewrite Nat2Z.inj_succ, Z2Nat.id by done. lia.
Qed.
End blocks.
