(* ===== verification/FsMap.v ===== *)
(** * Files as bytes

    The block map of an inode: [entry] is the address of a block of the file, through
    the indirect block from the thirteenth on, and [fbyte] is a byte of the file, 0 where
    no block is allocated.  Adding a freshly allocated block to the map, directly or in the
    indirect block, changes no byte of the file and nothing of other files. *)

From Stdlib Require Import ZArith Lia.
From stdpp Require Import base list numbers strings gmap.
From S2P Require Import Prelude Types Mem Str Layout Kalloc Vm State Bio Log Fs FsBlocks.
Open Scope Z_scope.

Definition ind (i : inode) : Z := i.(i_addrs) !!! Z.to_nat NDIRECT.
Definition entry (V : Z -> block) (i : inode) (bn : Z) : Z :=
  if bn <? NDIRECT then i.(i_addrs) !!! Z.to_nat bn
  else if ind i =? 0 then 0 else load 4 (V (ind i)) (4 * (bn - NDIRECT)).
Definition fbyte (V : Z -> block) (i : inode) (x : Z) : Z :=
  let a := entry V i (x / BSIZE) in if a =? 0 then 0 else V a (x mod BSIZE).

Abbreviation in_file bn := (0 <= bn < MAXFILE).

Lemma MAXFILE_block x : 0 <= x < MAXFILE * BSIZE -> in_file (x / BSIZE) /\ 0 <= x mod BSIZE < BSIZE.
Proof.
  intros Hx. split; [|by apply Z.mod_pos_bound]. split; [apply Z.div_pos; [lia|done]|]. apply Z.div_lt_upper_bound; [done|]. lia.
Qed.

Section map.
Context (sb : superblock) (ds : Z) (G : geom sb ds).

(** A block that balloc() may have given to a file. *)
Definition data_block (V : Z -> block) (a : Z) : Prop := ds <= a < sb.(sb_size) /\ used sb V a = true.

Record file_ok (V : Z -> block) (i : inode) : Prop := {
  fo_len : length i.(i_addrs) = 13%nat;
  fo_ind : ind i <> 0 -> data_block V (ind i);
  fo_entry : forall bn, in_file bn -> entry V i bn <> 0 -> data_block V (entry V i bn) /\ entry V i bn <> ind i;
  fo_inj : forall bn bn', in_file bn -> in_file bn' -> entry V i bn <> 0 -> entry V i bn = entry V i bn' -> bn = bn'
}.

Definition owns (V : Z -> block) (i : inode) (a : Z) : Prop :=
  a <> 0 /\ (a = ind i \/ exists bn, in_file bn /\ a = entry V i bn).

Lemma owns_entries V V' i a : (forall bn, in_file bn -> entry V' i bn = entry V i bn) -> owns V' i a <-> owns V i a.
Proof.
  intros HE. unfold owns. split; intros [H0 [H|(bn & Hb & H)]]; (split; [done|]); [by left| |by left|]; right; exists bn; (split; [done|]); [by rewrite <- HE|by rewrite HE].
Qed.

Lemma owned_data V i a : file_ok V i -> owns V i a -> data_block V a.
Proof. intros F [H0 [->|(bn & Hb & ->)]]; [by apply F|]. by apply (fo_entry _ _ F). Qed.

(** *** Changes of the map *)

Lemma ind_direct j a i : 0 <= j < NDIRECT -> ind (set_addrs (<[Z.to_nat j := a]> i.(i_addrs)) i) = ind i.
Proof. intros Hj. unfold ind. cbn. apply list_lookup_total_insert_ne. unfold NDIRECT in *. lia. Qed.

Lemma entry_direct V V' i j a bn :
  length i.(i_addrs) = 13%nat -> 0 <= j < NDIRECT -> 0 <= bn -> (ind i <> 0 -> V' (ind i) = V (ind i)) ->
  entry V' (set_addrs (<[Z.to_nat j := a]> i.(i_addrs)) i) bn = if decide (bn = j) then a else entry V i bn.
Proof.
  intros Hl Hj Hb HV. unfold entry. rewrite ind_direct by done. cbn [i_addrs set_addrs]. destruct (Z.ltb_spec bn NDIRECT) as [Hlt|Hge].
  - case_decide as E; [subst; apply list_lookup_total_insert_eq; unfold NDIRECT in *; lia|]. apply list_lookup_total_insert_ne. lia.
  - rewrite decide_False by lia. destruct (Z.eqb_spec (ind i) 0); [done|]. by rewrite HV.
Qed.

Lemma load4_zero b o : 0 <= o -> o + 4 <= BSIZE -> (forall x, 0 <= x < BSIZE -> b x = 0) -> load 4 b o = 0.
Proof. intros H0 H1 Hz. rewrite (load_ext 4 b (fun _ => 0)); [done|]. intros x Hx. apply Hz. lia. Qed.

Lemma ind_new i a : length i.(i_addrs) = 13%nat -> ind (set_addrs (<[Z.to_nat NDIRECT := a]> i.(i_addrs)) i) = a.
Proof. intros Hl. unfold ind. cbn [i_addrs set_addrs]. apply list_lookup_total_insert_eq. unfold NDIRECT. lia. Qed.

Lemma entry_ind V V' i a bn :
  length i.(i_addrs) = 13%nat -> 0 <= bn < MAXFILE -> ind i = 0 -> (forall x, 0 <= x < BSIZE -> V' a x = 0) ->
  entry V' (set_addrs (<[Z.to_nat NDIRECT := a]> i.(i_addrs)) i) bn = entry V i bn.
Proof.
  intros Hl Hb E0 Hz. unfold entry. rewrite ind_new, E0 by done. cbn [i_addrs set_addrs]. destruct (Z.ltb_spec bn NDIRECT) as [Hlt|Hge].
  - apply list_lookup_total_insert_ne. unfold NDIRECT in *. lia.
  - cbn. destruct (a =? 0); [done|]. apply load4_zero; [lia| |done]. change MAXFILE with 268 in *. change NDIRECT with 12 in *. change BSIZE with 1024. lia.
Qed.

Lemma entry_indirect V V' i a bn bn' :
  0 <= bn' < MAXFILE -> NDIRECT <= bn < MAXFILE -> ind i <> 0 -> 0 <= a < 2 ^ 32 ->
  V' (ind i) = store 4 (V (ind i)) (4 * (bn - NDIRECT)) a ->
  entry V' i bn' = if decide (bn' = bn) then a else entry V i bn'.
Proof.
  intros Hb' Hb E0 Ha HV. unfold entry. rewrite (proj2 (Z.eqb_neq _ _)), HV by done. destruct (Z.ltb_spec bn' NDIRECT) as [Hlt|Hge].
  - by rewrite decide_False by lia.
  - case_decide as E; [subst; rewrite load_store_eq; apply Z.mod_small; simpl; lia|]. apply load_store_ne. simpl. lia.
Qed.

(** The file before and after: it keeps its bytes but where [P], blocks of other files and
    the blocks that are neither data nor bitmap do not change, and what the file gains was
    free. *)
Record grows (P : Z -> Prop) (V : Z -> block) (i : inode) (V' : Z -> block) (i' : inode) : Prop := {
  gr_ok : file_ok V' i';
  gr_bytes : forall x, 0 <= x < MAXFILE * BSIZE -> ~ P x -> fbyte V' i' x = fbyte V i x;
  gr_entry : forall bn, in_file bn -> entry V i bn <> 0 -> entry V' i' bn = entry V i bn;
  gr_ind : ind i <> 0 -> ind i' = ind i;
  gr_inode : i' = set_addrs i'.(i_addrs) i;
  gr_used : forall m, 0 <= m < sb.(sb_size) -> used sb V m = true -> used sb V' m = true;
  gr_new : forall m, 0 <= m < sb.(sb_size) -> used sb V' m = true -> used sb V m = false -> owns V' i' m;
  gr_free : forall m, owns V' i' m -> owns V i m \/ used sb V m = false;
  gr_other : forall m, data_block V m -> ~ owns V i m -> V' m = V m;
  gr_meta : forall m, m < ds -> (forall b, 0 <= b < sb.(sb_size) -> m <> BBLOCK b sb) -> V' m = V m
}.

Lemma file_grows_refl P V i : file_ok V i -> grows P V i V i.
Proof. intros F. split; try done; [by destruct i|congruence|by left]. Qed.

Lemma owns_grow P V i V' i' m : grows P V i V' i' -> owns V i m -> owns V' i' m.
Proof.
  intros H [H0 [->|(bn & Hb & ->)]]; split; [done| |done|].
  - left. symmetry. by apply (gr_ind _ _ _ _ _ H).
  - right. exists bn. split; [done|]. symmetry. by apply (gr_entry _ _ _ _ _ H).
Qed.

Lemma file_grows_trans P V i V1 i1 V2 i2 : grows P V i V1 i1 -> grows P V1 i1 V2 i2 -> grows P V i V2 i2.
Proof using G.
  intros A B. split.
  - apply B.
  - intros x Hx HP. by rewrite (gr_bytes _ _ _ _ _ B), (gr_bytes _ _ _ _ _ A).
  - intros bn Hb H. rewrite (gr_entry _ _ _ _ _ B), (gr_entry _ _ _ _ _ A); try done. by rewrite (gr_entry _ _ _ _ _ A).
  - intros H. rewrite (gr_ind _ _ _ _ _ B), (gr_ind _ _ _ _ _ A); try done. by rewrite (gr_ind _ _ _ _ _ A).
  - rewrite (gr_inode _ _ _ _ _ B), (gr_inode _ _ _ _ _ A). done.
  - intros m Hm H. apply B; [done|]. by apply A.
  - intros m Hm H2 H0. destruct (used sb V1 m) eqn:E.
    + apply (owns_grow _ _ _ _ _ _ B). by apply A.
    + by apply B.
  - intros m H. destruct (gr_free _ _ _ _ _ B m H) as [H1|H1].
    + by apply (gr_free _ _ _ _ _ A).
    + right. destruct (used sb V m) eqn:E; [|done]. rewrite <- H1. symmetry. apply A; [|done].
      destruct (owned_data _ _ _ (gr_ok _ _ _ _ _ B) H). pose proof (g_data _ _ G). lia.
  - intros m [H1 H2] H3. pose proof (g_data _ _ G). rewrite (gr_other _ _ _ _ _ B), (gr_other _ _ _ _ _ A); [done|done|done| |].
    + split; [done|]. apply A; [lia|done].
    + intros Ho. destruct (gr_free _ _ _ _ _ A m Ho); [done|congruence].
  - intros m H1 H2. by rewrite (gr_meta _ _ _ _ _ B), (gr_meta _ _ _ _ _ A).
Qed.

Lemma grows_weaken (P P' : Z -> Prop) V i V' i' : (forall x, P x -> P' x) -> grows P V i V' i' -> grows P' V i V' i'.
Proof. intros HP []. split; auto. Qed.

(** *** A new block *)

Section new.
Context (V : Z -> block) (i : inode) (F : file_ok V i).
Context (a : Z) (Ha : ds <= a < sb.(sb_size)) (Hfree : used sb V a = false).
Context (V' : Z -> block) (i' : inode).
Context (Hzero : forall x, 0 <= x < BSIZE -> V' a x = 0) (Hbit : V' (BBLOCK a sb) = set_bit a (V (BBLOCK a sb))).
Context (Hsame : forall m, m <> a -> m <> BBLOCK a sb -> (m = ind i -> m = 0) -> V' m = V m).
Context (Hi : i' = set_addrs i'.(i_addrs) i) (Hlen : length i'.(i_addrs) = 13%nat).

Lemma new_used m : 0 <= m < sb.(sb_size) -> used sb V' m = used sb V m || (m =? a).
Proof using All.
  intros Hm. pose proof (g_data _ _ G). apply (used_set_bit sb ds G); [lia|done|done|]. intros n Hn Hne. apply Hsame; [lia|done|].
  intros ->. destruct (Z.eq_dec (ind i) 0) as [|H0]; [done|]. destruct (fo_ind _ _ F H0). lia.
Qed.
Lemma new_data m : data_block V m -> data_block V' m /\ m <> a.
Proof using All.
  intros [H1 H2]. pose proof (g_data _ _ G). split; [|intros ->; congruence]. split; [done|]. by rewrite new_used, H2 by lia.
Qed.
Lemma new_block : data_block V' a.
Proof using All. pose proof (g_data _ _ G). split; [done|]. rewrite new_used, Z.eqb_refl by lia. by rewrite orb_true_r. Qed.
Lemma new_same m : data_block V m -> m <> ind i -> V' m = V m.
Proof using All.
  intros H Hi'. destruct (new_data m H) as [_ Hne]. pose proof (g_data _ _ G). pose proof (BBLOCK_range sb ds G a ltac:(lia)). destruct H. apply Hsame; [done|lia|done].
Qed.

(** What the two ways to add the block have in common. *)
Lemma new_grows (P : Z -> Prop) :
  file_ok V' i' -> (forall x, 0 <= x < MAXFILE * BSIZE -> ~ P x -> fbyte V' i' x = fbyte V i x) ->
  (forall bn, in_file bn -> entry V i bn <> 0 -> entry V' i' bn = entry V i bn) -> (ind i <> 0 -> ind i' = ind i) ->
  owns V' i' a -> (forall m, owns V' i' m -> owns V i m \/ m = a) -> grows P V i V' i'.
Proof using All.
  intros F' HB HE HI Hown Hnew. pose proof (g_data _ _ G) as Hds. split; try done.
  - intros m Hm Hu. by rewrite new_used, Hu.
  - intros m Hm H1 H2. rewrite new_used, H2 in H1 by done. apply Z.eqb_eq in H1 as ->. done.
  - intros m H. destruct (Hnew m H) as [?| ->]; [by left|by right].
  - intros m Hm Hn. apply new_same; [done|]. intros ->. apply Hn. split; [destruct Hm; lia|]. by left.
  - intros m Hm Hb. apply Hsame; [lia|apply Hb; lia|]. intros ->. destruct (Z.eq_dec (ind i) 0) as [|H0]; [done|].
    destruct (fo_ind _ _ F H0). lia.
Qed.

Lemma grow_entry P j :
  in_file j -> entry V i j = 0 -> ind i' = ind i ->
  (forall bn, in_file bn -> entry V' i' bn = if decide (bn = j) then a else entry V i bn) -> grows P V i V' i'.
Proof using All.
  intros Hj E0 EI HE. pose proof (g_data _ _ G) as Hds. apply new_grows.
  - split; [done| | |].
    + rewrite EI. intros H. apply new_data. by apply F.
    + intros bn Hb. rewrite HE, EI by done. case_decide as Eb.
      * intros _. split; [apply new_block|]. intros Ei. destruct (Z.eq_dec (ind i) 0); [lia|]. destruct (fo_ind _ _ F n). congruence.
      * intros H. destruct (fo_entry _ _ F bn Hb H) as [H1 H2]. split; [by apply new_data|done].
    + intros bn bn' Hb Hb'. rewrite !HE by done. repeat case_decide; subst; try done.
      * intros _ Ea. exfalso. assert (entry V i bn' <> 0) as Hz by lia. destruct (fo_entry _ _ F bn' Hb' Hz) as [[_ Hu] _]. congruence.
      * intros Hz Ea. exfalso. destruct (fo_entry _ _ F bn Hb Hz) as [[_ Hu] _]. congruence.
      * by apply F.
  - intros x Hx _. destruct (MAXFILE_block x Hx) as [Hb Hr]. unfold fbyte. rewrite HE by done. case_decide as Eb.
    + rewrite Eb, E0. cbn. rewrite (proj2 (Z.eqb_neq a 0)) by lia. by apply Hzero.
    + destruct (Z.eqb_spec (entry V i (x / BSIZE)) 0) as [|H0]; [done|]. destruct (fo_entry _ _ F _ Hb H0) as [H1 H2]. by rewrite new_same.
  - intros bn Hb H0. rewrite HE by done. case_decide; [subst; done|done].
  - done.
  - split; [lia|]. right. exists j. split; [done|]. by rewrite HE, decide_True.
  - intros m [H0 [->|(bn & Hb & ->)]]; [left; rewrite EI in *; split; [done|by left]|]. rewrite HE in * by done. case_decide; [by right|].
    left. split; [done|]. right. by exists bn.
Qed.

Lemma grow_ind P :
  ind i = 0 -> ind i' = a -> (forall bn, in_file bn -> entry V' i' bn = entry V i bn) -> grows P V i V' i'.
Proof using All.
  intros EI EI' HE. pose proof (g_data _ _ G) as Hds. apply new_grows.
  - split; [done| | |].
    + rewrite EI'. intros _. apply new_block.
    + intros bn Hb. rewrite HE, EI' by done. intros H0. destruct (fo_entry _ _ F bn Hb H0) as [H1 _]. split; apply new_data, H1.
    + intros bn bn' Hb Hb'. rewrite !HE by done. by apply F.
  - intros x Hx _. destruct (MAXFILE_block x Hx) as [Hb Hr]. unfold fbyte. rewrite HE by done.
    destruct (Z.eqb_spec (entry V i (x / BSIZE)) 0) as [|H0]; [done|]. destruct (fo_entry _ _ F _ Hb H0) as [H1 H2]. by rewrite new_same.
  - intros bn Hb _. by rewrite HE.
  - done.
  - split; [lia|]. by left.
  - intros m [H0 [->|(bn & Hb & ->)]]; [by right|]. rewrite HE in * by done. left. split; [done|]. right. by exists bn.
Qed.
End new.

(** *** Writing into a block of the file *)

Lemma grow_write V i bn o l V' :
  file_ok V i -> in_file bn -> entry V i bn <> 0 -> 0 <= o -> o + Z.of_nat (length l) <= BSIZE ->
  (forall m, V' m = if decide (m = entry V i bn) then write_bytes (V m) o l else V m) ->
  grows (fun x => bn * BSIZE + o <= x < bn * BSIZE + o + Z.of_nat (length l)) V i V' i /\
  (forall x, bn * BSIZE + o <= x < bn * BSIZE + o + Z.of_nat (length l) -> fbyte V' i x = nth (Z.to_nat (x - (bn * BSIZE + o))) l 0) /\
  forall bn', in_file bn' -> entry V' i bn' = entry V i bn'.
Proof using G.
  intros F Hb E0 Ho Hl HV. assert (0 < BSIZE) as HB by done. set (a := entry V i bn) in *.
  destruct (fo_entry _ _ F bn Hb E0) as [[Ha Hu] Hai]. fold a in Ha, Hu, Hai. pose proof (g_data _ _ G) as Hds.
  assert (forall bn', entry V' i bn' = entry V i bn') as HE by (intros bn'; unfold entry; by rewrite HV, decide_False by done).
  assert (forall m, 0 <= m < sb.(sb_size) -> used sb V' m = used sb V m) as HU.
  { intros m Hm. unfold used. pose proof (BBLOCK_range sb ds G m Hm). by rewrite HV, decide_False by lia. }
  assert (forall m, data_block V' m <-> data_block V m) as HD by (intros m; unfold data_block; split; intros [? ?]; split; try done; rewrite HU in *; done || lia).
  assert (forall m, owns V' i m <-> owns V i m) as HO by (intros m; by apply owns_entries).
  assert (forall x, 0 <= x < MAXFILE * BSIZE -> entry V i (x / BSIZE) = a -> x / BSIZE = bn) as Hinj.
  { intros x Hx Ex. destruct (MAXFILE_block x Hx) as [Hbx _]. symmetry. apply (fo_inj _ _ F); [done|done|done|]. by rewrite Ex. }
  split; [|split; [|intros; apply HE]].
  - split; try done.
    + destruct F. split; [done|intros; rewrite HD; auto|intros bn'; rewrite HE, HD; auto|intros b1 b2; rewrite !HE; auto].
    + intros x Hx Hn. unfold fbyte. rewrite HE. destruct (Z.eqb_spec (entry V i (x / BSIZE)) 0); [done|]. rewrite HV. case_decide as Ex; [|done].
      specialize (Hinj x Hx Ex). unfold write_bytes. pose proof (Z.div_mod x BSIZE ltac:(lia)). rewrite Hinj in *.
      destruct (Z.leb_spec o (x mod BSIZE)); [|done]. destruct (Z.ltb_spec (x mod BSIZE) (o + Z.of_nat (length l))); [|done]. exfalso. apply Hn. lia.
    + by destruct i.
    + intros m Hm Hm'. by rewrite HU.
    + intros m Hm. rewrite HU by done. congruence.
    + intros m Hm. left. by apply HO.
    + intros m Hm Hn. rewrite HV, decide_False; [done|]. intros ->. apply Hn. split; [done|]. right. by exists bn.
    + intros m Hm Hn. by rewrite HV, decide_False by lia.
  - intros x Hx. assert (x / BSIZE = bn /\ x mod BSIZE = x - bn * BSIZE) as [Eb Em].
    { assert (x / BSIZE = bn) as Eb by (symmetry; apply (Z.div_unique _ _ _ (x - bn * BSIZE)); lia). split; [done|].
      pose proof (Z.div_mod x BSIZE ltac:(lia)). rewrite Eb in *. lia. }
    unfold fbyte. rewrite HE, Eb. fold a. rewrite (proj2 (Z.eqb_neq a 0)), HV, decide_True, Em by done. unfold write_bytes.
    rewrite (proj2 (Z.leb_le _ _)), (proj2 (Z.ltb_lt _ _)) by lia. cbn [andb]. f_equal. lia.
Qed.
End map.
