(* ===== verification/FsBmap.v ===== *)
(** * bmap

    bmap() answers the address of a block of a file and allocates it, and the indirect
    block, when it is missing.  In terms of FsMap.v the file [grows]. *)

From Stdlib Require Import ZArith Lia.
From stdpp Require Import base list numbers strings gmap sets.
From S2P Require Import Prelude Types Mem Str Layout Kalloc Vm State Spinlock Printf Proc ProcSpec Sleeplock Seq Bio BioSpec Log LogSpec FsTx Fs FsBlocks FsMap.
Open Scope Z_scope.

Section bmap.
Context (me : nat) (pid : Z) (d : Z) `{W : Wakes} `{D : Disk} `{DOK : !DiskOK} (o : bool).
Context (sb : superblock) (ds : Z) (G : geom sb ds).
Abbreviation view := (view d).
Abbreviation in_tx := (in_tx me pid d o).
Abbreviation file_ok := (file_ok sb ds).
Abbreviation grows := (grows sb ds).

(** The bitmap and the inode block [ib]. *)
Definition meta (ib : Z) : gset Z := list_to_set (seqZ sb.(sb_bmapstart) ((sb.(sb_size) - 1) / BPB + 1)) ∪ {[ib]}.

(** How many blocks a transaction has in the log when the blocks of [meta] and the indirect
    block of the file are counted from the start. *)
Definition weight (ib : Z) (bs : list Z) (i : inode) : nat := size (list_to_set bs ∪ meta ib ∪ {[ind i]} : gset Z).

Lemma BBLOCK_meta ib b : 0 <= b < sb.(sb_size) -> BBLOCK b sb ∈ meta ib.
Proof using G.
  intros Hb. apply elem_of_union_l, elem_of_list_to_set, elem_of_seqZ. rewrite (BBLOCK_eq sb ds G) by done.
  assert (0 <= b / BPB <= (sb_size sb - 1) / BPB); [|lia].
  split; [apply Z.div_pos; [lia|done]|apply Z.div_le_mono; [done|lia]].
Qed.

Lemma ib_meta ib : ib ∈ meta ib.
Proof. unfold meta. apply elem_of_union_r, elem_of_singleton. done. Qed.

Lemma length_weight ib bs i : NoDup bs -> (length bs <= weight ib bs i)%nat.
Proof.
  intros H. unfold weight. rewrite <- (size_list_to_set (C := gset Z) bs H). apply subseteq_size.
  intros x Hx. apply elem_of_union_l, elem_of_union_l, Hx.
Qed.
Lemma list_to_set_add n bs : (list_to_set (add n bs) : gset Z) = list_to_set bs ∪ {[n]}.
Proof.
  apply set_eq. intros x. rewrite elem_of_union, !elem_of_list_to_set, elem_of_add, elem_of_singleton. tauto.
Qed.
Lemma weight_add_in ib n bs i : n ∈ meta ib \/ n = ind i \/ n ∈ bs -> weight ib (add n bs) i = weight ib bs i.
Proof.
  intros H. unfold weight. f_equal. rewrite list_to_set_add. apply set_eq. intros x.
  rewrite !elem_of_union, !elem_of_singleton, elem_of_list_to_set. split; [|tauto]. intros [[[?| ->]|?]|?]; [tauto| |tauto..].
  destruct H as [?|[?|?]]; tauto.
Qed.
Lemma weight_add ib n bs i : (weight ib bs i <= weight ib (add n bs) i <= weight ib bs i + 1)%nat.
Proof.
  unfold weight. rewrite list_to_set_add. split; [apply subseteq_size; intros x; rewrite !elem_of_union; tauto|].
  replace (list_to_set bs ∪ {[n]} ∪ meta ib ∪ {[ind i]} : gset Z) with ((list_to_set bs ∪ meta ib ∪ {[ind i]}) ∪ {[n]} : gset Z).
  - rewrite size_union_alt, Nat.add_comm. rewrite (Nat.add_comm _ 1). apply Nat.add_le_mono_r. etransitivity; [apply (subseteq_size _ {[n]})|by rewrite size_singleton].
    intros x. rewrite elem_of_difference. tauto.
  - apply set_eq. intros x. rewrite !elem_of_union. tauto.
Qed.
(** The new indirect block was counted. *)
Lemma weight_ind ib a bs i i' :
  ind i = 0 -> ind i' = a -> 0 ∉ bs -> 0 ∉ meta ib -> (weight ib (add a bs) i' <= weight ib bs i)%nat.
Proof.
  intros E0 E1 Hb Hm. rewrite weight_add_in by (right; by left). unfold weight. rewrite E0, E1.
  rewrite (size_union (list_to_set bs ∪ meta ib) {[0]}), size_singleton.
  - rewrite size_union_alt. apply Nat.add_le_mono_l. etransitivity; [apply (subseteq_size _ {[a]})|by rewrite size_singleton].
    intros x. rewrite elem_of_difference. tauto.
  - intros x Hx ->%elem_of_singleton. apply elem_of_union in Hx as [Hx|Hx]; [|done]. by apply elem_of_list_to_set in Hx.
Qed.
Lemma weight_same_ind ib bs i i' : ind i' = ind i -> weight ib bs i' = weight ib bs i.
Proof. unfold weight. by intros ->. Qed.

(** Only inodes, the bitmap and data are logged. *)
Definition above (bs : list Z) : Prop := forall b, b ∈ bs -> sb.(sb_inodestart) <= b.

Lemma above_add n bs : sb.(sb_inodestart) <= n -> above bs -> above (add n bs).
Proof. intros Hn H b [->|Hb]%elem_of_add; [done|auto]. Qed.
Lemma inodes_first : 0 < sb.(sb_inodestart) < sb.(sb_bmapstart) /\ sb.(sb_bmapstart) <= ds.
Proof using G.
  destruct (g_inodes _ _ G) as (H1 & H2 & H3). assert (0 <= sb_ninodes sb / IPB) by (apply Z.div_pos; [lia|done]).
  pose proof (g_data _ _ G). pose proof (BBLOCK_range sb ds G 0 ltac:(lia)). lia.
Qed.
Lemma above_pos bs : above bs -> 0 ∉ bs.
Proof using G. intros H Hb. apply H in Hb. pose proof inodes_first. lia. Qed.
Lemma above_alloc a bs : ds <= a < sb.(sb_size) -> above bs -> above (add a (add (BBLOCK a sb) bs)).
Proof using G.
  intros Ha H. pose proof inodes_first. pose proof (g_data _ _ G). pose proof (BBLOCK_range sb ds G a ltac:(lia)).
  apply above_add; [lia|]. apply above_add; [lia|done].
Qed.

(** *** A file and the transaction it is changed in *)

Context (ip : nat) (inum : Z) (Hinum : 0 <= inum < sb.(sb_ninodes)).
Abbreviation ib := (IBLOCK inum sb).
Abbreviation wt := (weight ib).

Record fs_file (k : kernel) (i : inode) (bs : list Z) : Prop := {
  ff_tx : in_tx k bs [];
  ff_sb : k.(k_sb) = sb;
  ff_bitmap : forall m, 0 <= m < ds -> used sb (view k) m = true;
  ff_inode : k.(k_itable) !! ip = Some i;
  ff_dev : i.(i_dev) = d;
  ff_inum : i.(i_inum) = inum;
  ff_ok : file_ok (view k) i;
  ff_above : above bs
}.

(** Only the table entry of the file has changed, to [i'], outside the blocks. *)
Definition moved (k k' : kernel) (i' : inode) : Prop :=
  others k' = set_itable (<[ip := i']> k.(k_itable)) (others k) /\
  forall l, (forall j, l <> SlBuf j) -> k'.(k_slocks) !! l = k.(k_slocks) !! l.

Lemma moved_itable k k' i' : moved k k' i' -> k'.(k_itable) = <[ip := i']> k.(k_itable).
Proof. intros [E _]. by apply (f_equal k_itable) in E. Qed.
Lemma moved_sb k k' i' : moved k k' i' -> k'.(k_sb) = k.(k_sb).
Proof. intros [E _]. by apply (f_equal k_sb) in E. Qed.
Lemma moved_same k k' i : same k k' -> k.(k_itable) !! ip = Some i -> moved k k' i.
Proof. intros [E S] Hi. split; [|done]. rewrite list_insert_id by done. rewrite E. by destruct k. Qed.
Lemma moved_trans k k1 k2 i1 i2 : moved k k1 i1 -> moved k1 k2 i2 -> moved k k2 i2.
Proof.
  intros M1 [E2 S2]. pose proof (moved_itable _ _ _ M1) as Et. destruct M1 as [E1 S1]. split; [|intros l Hl; by rewrite S2, S1].
  rewrite E2, E1, Et, list_insert_insert_eq. done.
Qed.

(** Changing the entry of the file in the inode table. *)
Lemma modi_tx k bs hs i f :
  in_tx k bs hs -> k.(k_itable) !! ip = Some i ->
  runs (modi ip f k) (fun _ k' => in_tx k' bs hs /\ moved k k' (f i) /\ k'.(k_itable) !! ip = Some (f i) /\ forall m, view k' m = view k m).
Proof.
  intros I Hi. unfold modi. cbn [runs modify]. set (g := fun k : kernel => set_itable (alter f ip (k_itable k)) k).
  destruct (tx_modify me pid d o k bs hs g) as [I' V]; [by intros|by intros|by intros|done|].
  assert (k_itable (g k) = <[ip := f i]> (k_itable k)) as Et.
  { change (k_itable (g k)) with (alter f ip (k_itable k)). apply list_eq. intros x. destruct (decide (x = ip)) as [->|Hne].
    - rewrite list_lookup_alter_eq, Hi, list_lookup_insert_eq; [done|]. by eapply lookup_lt_Some.
    - by rewrite list_lookup_alter_ne, list_lookup_insert_ne. }
  split; [exact I'|]. split; [split; [|done]|split; [|exact V]].
  - rewrite <- Et. reflexivity.
  - enough (k_itable (g k) !! ip = Some (f i)) as H by exact H. rewrite Et, list_lookup_insert_eq; [done|]. by eapply lookup_lt_Some.
Qed.

Lemma IBLOCK_pos : 0 < ib < sb.(sb_bmapstart).
Proof using G Hinum. by apply (IBLOCK_range sb ds G). Qed.
Lemma meta_pos : 0 ∉ meta ib.
Proof using G Hinum.
  pose proof IBLOCK_pos. intros [Hx|Hx]%elem_of_union; [|apply elem_of_singleton in Hx; lia].
  apply elem_of_list_to_set, elem_of_seqZ in Hx. lia.
Qed.

Context (Ho : o = true).

(** ip->addrs[j], allocated when it is missing *)
Lemma bmap_direct_tx k i bs j :
  fs_file k i bs -> 0 <= j <= NDIRECT -> (length bs + 1 < NBUF)%nat ->
  runs (bmap_direct ip j k) (fun a k' =>
    let a0 := i.(i_addrs) !!! Z.to_nat j in
    a0 <> 0 /\ a = a0 /\ k' = k \/
    a0 = 0 /\ a = 0 /\ in_tx k' bs [] /\ same k k' /\ (forall m, view k' m = view k m) /\
      (forall m, 0 <= m < sb.(sb_size) -> used sb (view k) m = true) \/
    a0 = 0 /\ ds <= a < sb.(sb_size) /\ used sb (view k) a = false /\ in_tx k' (add a (add (BBLOCK a sb) bs)) [] /\
      moved k k' (set_addrs (<[Z.to_nat j := a]> i.(i_addrs)) i) /\ (forall m, view k' m = allocated sb a (view k) m)).
Proof using DOK Ho G.
  intros F Hj Hlen. pose proof (ff_inode _ _ _ F) as Hi. unfold bmap_direct, geti. rewrite bind_gets, (list_lookup_total_correct _ _ _ (ff_inode _ _ _ F)).
  destruct (Z.eqb_spec (i_addrs i !!! Z.to_nat j) 0) as [E0|E0]; [|by left]. rewrite (ff_dev _ _ _ F).
  step_by (balloc_tx me pid d o Ho sb ds G k bs []); [apply F|apply F| |cbn; lia|].
  { split; [apply F|]. intros m Hm. by apply not_elem_of_nil in Hm. }
  intros a k1 (S1 & [(-> & I1 & V1 & Hfull)|(Ha & Hfree & I1 & V1)]); [cbn; right; left; done|].
  pose proof (g_data _ _ G). rewrite (proj2 (Z.eqb_neq a 0)) by lia. rewrite <- (same_itable _ _ S1) in Hi.
  step_by (modi_tx k1 (add a (add (BBLOCK a sb) bs)) [] i (fun i => set_addrs (<[Z.to_nat j := a]> i.(i_addrs)) i) I1 Hi).
  intros [] k2 (I2 & M2 & _ & V2). cbn [runs mret M_ret]. right. right. split; [done|]. split; [done|]. split; [done|]. split; [exact I2|].
  split; [eapply moved_trans; [by apply moved_same, F|exact M2]|]. intros m. by rewrite V2, V1.
Qed.

Lemma file_after P k k' i i' bs bs' :
  fs_file k i bs -> in_tx k' bs' [] -> moved k k' i' -> grows P (view k) i (view k') i' -> above bs' -> fs_file k' i' bs'.
Proof using G.
  intros F I M Gr H0. pose proof (gr_inode _ _ _ _ _ _ _ Gr) as Ei. pose proof (g_data _ _ G). split.
  - done.
  - rewrite (moved_sb _ _ _ M). apply F.
  - intros m Hm. apply (gr_used _ _ _ _ _ _ _ Gr); [lia|]. by apply F.
  - rewrite (moved_itable _ _ _ M). apply list_lookup_insert_eq. by eapply lookup_lt_Some, F.
  - rewrite Ei. apply F.
  - rewrite Ei. apply F.
  - apply Gr.
  - done.
Qed.

Definition bmap_post (k : kernel) (i : inode) (bs : list Z) (bn : Z) (a : Z) (k' : kernel) : Prop :=
  exists i' bs', fs_file k' i' bs' /\ moved k k' i' /\ grows (fun _ => False) (view k) i (view k') i' /\ a = entry (view k') i' bn /\
    (wt bs' i' <= wt bs i + 1)%nat /\ (a <> 0 -> (wt (add a bs') i' <= wt bs i + 1)%nat) /\
    (a = 0 -> forall m, 0 <= m < sb.(sb_size) -> used sb (view k') m = true) /\
    (entry (view k) i bn <> 0 -> i' = i /\ bs' = bs /\ same k k' /\ forall m, view k' m = view k m).

Lemma grows_views P V i V1 V2 i' : (forall m, V1 m = V2 m) -> grows P V i V1 i' -> grows P V i V2 i'.
Proof.
  intros E Gr. assert (forall bn, entry V2 i' bn = entry V1 i' bn) as Ee by (intros bn; unfold entry; by rewrite E).
  assert (forall m, used sb V2 m = used sb V1 m) as Eu by (intros m; unfold used; by rewrite E).
  assert (forall m, owns V2 i' m <-> owns V1 i' m) as Eo by (intros m; unfold owns; by setoid_rewrite Ee).
  destruct Gr. split.
  - assert (forall m, data_block sb ds V2 m <-> data_block sb ds V1 m) as Ed by (intros m; unfold data_block; by rewrite Eu).
    destruct gr_ok. split; [done|intros; rewrite Ed; auto|intros bn; rewrite Ee, Ed; auto|intros bn bn'; rewrite !Ee; auto].
  - intros x Hx HP. rewrite <- gr_bytes by done. unfold fbyte. rewrite Ee. by destruct (_ =? 0); rewrite ?E.
  - intros bn Hb H. rewrite Ee. by apply gr_entry.
  - done.
  - done.
  - intros m. rewrite Eu. apply gr_used.
  - intros m. rewrite Eu, Eo. apply gr_new.
  - intros m. rewrite Eo. apply gr_free.
  - intros m H1 H2. rewrite <- E. by apply gr_other.
  - intros m H1 H2. rewrite <- E. by apply gr_meta.
Qed.

Lemma small_file bn : 0 <= bn < NDIRECT -> 0 <= bn < MAXFILE.
Proof. change MAXFILE with 268. change NDIRECT with 12. lia. Qed.

(** Nothing was allocated. *)
Lemma bmap_post_same k i bs bn a k' :
  fs_file k i bs -> in_tx k' bs [] -> same k k' -> (forall m, view k' m = view k m) -> a = entry (view k) i bn ->
  (a = 0 -> forall m, 0 <= m < sb.(sb_size) -> used sb (view k) m = true) -> bmap_post k i bs bn a k'.
Proof using G.
  intros F I S V Ea Hfull. assert (grows (fun _ => False) (view k) i (view k') i) as Gr.
  { apply (grows_views _ _ _ (view k)); [done|]. apply file_grows_refl, F. }
  pose proof (moved_same k k' i S (ff_inode _ _ _ F)) as M. exists i, bs. split; [apply (file_after _ k k' i i bs bs F I M Gr), F|].
  split; [done|]. split; [done|]. split; [rewrite Ea; unfold entry; by rewrite V|]. split; [lia|]. split; [intros _; apply weight_add|].
  split; [|done]. intros E m Hm. unfold used. rewrite V. by apply Hfull.
Qed.

Lemma bmap_small k i bs bn :
  fs_file k i bs -> 0 <= bn < NDIRECT -> (wt bs i <= 27)%nat -> runs (bmap_direct ip bn k) (bmap_post k i bs bn).
Proof using DOK Ho G Hinum.
  intros F Hb Hw. pose proof (length_weight ib bs i (it_nodup _ _ _ _ _ _ _ (ff_tx _ _ _ F))). pose proof (g_data _ _ G).
  assert (entry (view k) i bn = i_addrs i !!! Z.to_nat bn) as Ee by (unfold entry; by rewrite (proj2 (Z.ltb_lt _ _)) by lia).
  eapply runs_mono; [apply (bmap_direct_tx k i bs bn F); [lia|unfold NBUF; lia]|]. cbv zeta. rewrite <- Ee.
  intros a k' [(E0 & -> & ->)|[(E0 & -> & I & S & V & Hfull)|(E0 & Ha & Hfree & I & M & V)]].
  - apply bmap_post_same; [done|apply F|apply same_others_refl|done|done|done].
  - apply bmap_post_same; done.
  - set (i' := set_addrs _ i) in *. assert (ind i' = ind i) as Ei by by apply ind_direct.
    assert (forall m, m <> a -> m <> BBLOCK a sb -> (m = ind i -> m = 0) -> view k' m = view k m) as Hs.
    { intros m H1 H2 _. rewrite V. by apply allocated_same. }
    assert (forall bn', 0 <= bn' < MAXFILE -> entry (view k') i' bn' = if decide (bn' = bn) then a else entry (view k) i bn') as HE.
    { intros bn' Hb'. apply entry_direct; [apply F|done|lia|]. intros Hi. destruct (fo_ind _ _ _ _ (ff_ok _ _ _ F) Hi) as [H1 H2].
      pose proof (BBLOCK_range sb ds G a ltac:(lia)). rewrite V. apply allocated_same; [congruence|lia]. }
    assert (grows (fun _ => False) (view k) i (view k') i') as Gr.
    { apply (grow_entry sb ds G (view k) i (ff_ok _ _ _ F) a Ha Hfree (view k') i') with (j := bn); [|by rewrite V; apply (allocated_bit sb ds)|exact Hs|done| |
        by apply small_file|done|done|done].
      - intros x Hx. rewrite V. by apply allocated_zero.
      - cbn. rewrite length_insert. apply F. }
    assert (wt (add a (add (BBLOCK a sb) bs)) i' <= wt bs i + 1)%nat as Hwt.
    { rewrite (weight_same_ind _ _ i i' Ei). pose proof (weight_add ib a (add (BBLOCK a sb) bs) i).
      rewrite (weight_add_in ib (BBLOCK a sb) bs i) in * by (left; apply BBLOCK_meta; lia). lia. }
    exists i', (add a (add (BBLOCK a sb) bs)). split; [apply (file_after _ k k' i i' bs _ F I M Gr), above_alloc; [done|apply F]|].
    split; [done|]. split; [done|]. split; [rewrite HE, decide_True; [done..|by apply small_file]|]. split; [done|].
    split; [|split; [lia|done]]. intros _. rewrite weight_add_in; [done|]. right. right. apply elem_of_add. by left.
Qed.

(** A block added to the indirect block. *)
Lemma bmap_post_new k i bs bn a k' :
  fs_file k i bs -> NDIRECT <= bn < MAXFILE -> ind i <> 0 -> entry (view k) i bn = 0 ->
  ds <= a < sb.(sb_size) -> used sb (view k) a = false -> in_tx k' (add (ind i) (add a (add (BBLOCK a sb) bs))) [] -> same k k' ->
  (forall m, view k' m = if decide (m = ind i) then store 4 (view k (ind i)) (4 * (bn - NDIRECT)) a else allocated sb a (view k) m) ->
  bmap_post k i bs bn a k'.
Proof using All.
  intros F Hb Hi E0 Ha Hfree I S V. pose proof (g_data _ _ G). pose proof (g_size _ _ G). pose proof (BBLOCK_range sb ds G a ltac:(lia)) as Hbb.
  destruct (fo_ind _ _ _ _ (ff_ok _ _ _ F) Hi) as [Hi1 Hi2]. assert (0 <= NDIRECT) by done.
  assert (a <> ind i) as Hai by congruence.
  assert (forall bn', 0 <= bn' < MAXFILE -> entry (view k') i bn' = if decide (bn' = bn) then a else entry (view k) i bn') as HE.
  { intros bn' Hb'. apply entry_indirect; [done|done|done|lia|]. by rewrite V, decide_True. }
  assert (grows (fun _ => False) (view k) i (view k') i) as Gr.
  { apply (grow_entry sb ds G (view k) i (ff_ok _ _ _ F) a Ha Hfree (view k') i) with (j := bn); [| | |by destruct i|apply F|lia|done|done|done].
    - intros x Hx. rewrite V, decide_False by done. by apply allocated_zero.
    - rewrite V, decide_False by lia. by apply (allocated_bit sb ds).
    - intros m J1 J2 J3. rewrite V, decide_False; [by apply allocated_same|]. intros Em. specialize (J3 Em). lia. }
  pose proof (moved_same k k' i S (ff_inode _ _ _ F)) as M. set (bs' := add (ind i) _) in *.
  assert (above bs') as Hp by (pose proof inodes_first; apply above_add; [lia|apply above_alloc; [done|apply F]]).
  assert (wt bs' i <= wt bs i + 1)%nat as Hwt.
  { unfold bs'. rewrite weight_add_in by (right; by left). pose proof (weight_add ib a (add (BBLOCK a sb) bs) i).
    rewrite (weight_add_in ib (BBLOCK a sb) bs i) in * by (left; apply BBLOCK_meta; lia). lia. }
  exists i, bs'. split; [by apply (file_after _ k k' i i bs bs' F I M Gr)|]. split; [done|]. split; [done|].
  split; [by rewrite HE, decide_True by (done || lia)|]. split; [done|]. split; [|split; [lia|done]].
  intros _. rewrite weight_add_in; [done|]. right. right. unfold bs'. rewrite !elem_of_add. tauto.
Qed.

Lemma bmap_large k i bs bn :
  fs_file k i bs -> NDIRECT <= bn < MAXFILE -> ind i <> 0 -> (wt bs i <= 27)%nat ->
  runs (bmap_indirect ip (bn - NDIRECT) (ind i) k) (bmap_post k i bs bn).
Proof using DOK Ho G Hinum.
  intros F Hb Hi Hw. pose proof (length_weight ib bs i (it_nodup _ _ _ _ _ _ _ (ff_tx _ _ _ F))) as Hl. pose proof (g_data _ _ G). pose proof (g_size _ _ G).
  destruct (fo_ind _ _ _ _ (ff_ok _ _ _ F) Hi) as [Hi1 Hi2].
  assert (entry (view k) i bn = load 4 (view k (ind i)) (4 * (bn - NDIRECT))) as Ee.
  { unfold entry. by rewrite (proj2 (Z.ltb_ge _ _)), (proj2 (Z.eqb_neq _ _)) by (done || lia). }
  unfold bmap_indirect, geti. rewrite bind_gets, (list_lookup_total_correct _ _ _ (ff_inode _ _ _ F)), (ff_dev _ _ _ F).
  apply (tx_bread me pid d o k bs []); [apply F|apply not_elem_of_nil|unfold NBUF; cbn; lia|]. intros bp k1 I1 S1 V1.
  apply (tx_getb me pid d o k1 bs [(ind i, bp)] (ind i) bp); [done|by left|]. intros x Hx _. cbv zeta. rewrite Hx, V1, <- Ee.
  destruct (Z.eqb_spec (entry (view k) i bn) 0) as [E0|E0].
  2: { rewrite bind_ret. apply (tx_brelse me pid d o k1 bs [] (ind i) bp); [done|]. intros k2 I2 S2 V2. cbn.
    apply bmap_post_same; [done|done|by eapply same_others_trans|intros m; by rewrite V2|done|done]. }
  apply runs_bind. step_by (balloc_tx me pid d o Ho sb ds G k1 bs [(ind i, bp)]); [done|rewrite (same_sb _ _ S1); apply F| |unfold NBUF; cbn; lia|].
  { split; intros m Hm; unfold used; rewrite V1; [by apply F|]. cbn in Hm. apply list_elem_of_singleton in Hm as ->. done. }
  intros a k2 (S2 & [(-> & I2 & V2 & Hfull)|(Ha & Hfree & I2 & V2)]).
  - cbn [negb Z.eqb]. rewrite bind_ret. cbn [runs mret M_ret]. apply (tx_brelse me pid d o k2 bs [] (ind i) bp); [done|]. intros k3 I3 S3 V3. cbn.
    apply bmap_post_same; [done|done|eauto using same_others_trans|intros m; by rewrite V3, V2|done|]. intros _ m Hm.
    specialize (Hfull m Hm). unfold used in *. by rewrite V1 in Hfull.
  - assert (used sb (view k) a = false) as Hfree' by (unfold used in *; by rewrite V1 in Hfree).
    assert (forall m, view k2 m = allocated sb a (view k) m) as V2' by (intros m; rewrite V2; unfold allocated; by rewrite !V1). clear V2 Hfree.
    rewrite (proj2 (Z.eqb_neq a 0)) by lia. cbn [negb]. pose proof (BBLOCK_range sb ds G a ltac:(lia)) as Hbb.
    set (bs2 := add a (add (BBLOCK a sb) bs)) in *. pose proof (length_add a (add (BBLOCK a sb) bs)). pose proof (length_add (BBLOCK a sb) bs).
    assert (view k2 (ind i) = view k (ind i)) as Ei by (rewrite V2'; apply allocated_same; [congruence|lia]).
    apply runs_bind. apply (tx_write_last me pid d o k2 bs2 [(ind i, bp)] (ind i) bp _ (store 4 (view k2 (ind i)) (4 * (bn - NDIRECT)) a));
      [done|done|by left|lia|unfold LOGBLOCKS, MAXOPBLOCKS, bs2 in *; lia|by intros y ->|].
    intros k3 I3 S3 V3. cbn [runs mret M_ret]. apply (tx_brelse me pid d o k3 (add (ind i) bs2) [] (ind i) bp); [done|]. intros k4 I4 S4 V4. cbn.
    apply (bmap_post_new k i bs bn a k4); try done; [by eauto 6 using same_others_trans|].
    intros m. rewrite V4, V3, Ei. case_decide; [done|]. apply V2'.
Qed.

(** An earlier change of the file that does not make the transaction heavier. *)
Lemma bmap_post_after k i bs k1 i1 bs1 bn a k' :
  moved k k1 i1 -> grows (fun _ => False) (view k) i (view k1) i1 -> (wt bs1 i1 <= wt bs i)%nat -> entry (view k) i bn = 0 ->
  bmap_post k1 i1 bs1 bn a k' -> bmap_post k i bs bn a k'.
Proof using G.
  intros M Gr Hw E0 (i' & bs' & F' & M' & Gr' & Ea & W1 & W2 & Hfull & _). exists i', bs'. split; [done|]. split; [exact (moved_trans _ _ _ _ _ M M')|].
  split; [by eapply (file_grows_trans sb ds G)|]. split; [done|]. split; [lia|]. split; [|split; [done|done]]. intros Hn. specialize (W2 Hn). lia.
Qed.

Lemma bmap_tx k i bs bn :
  fs_file k i bs -> 0 <= bn < MAXFILE -> (wt bs i <= 27)%nat -> runs (bmap ip bn k) (bmap_post k i bs bn).
Proof using DOK Ho G Hinum.
  intros F Hb Hw. unfold bmap. destruct (Z.ltb_spec bn NDIRECT) as [Hlt|Hge]; [apply bmap_small; [done|lia|done]|].
  rewrite (proj2 (Z.ltb_lt (bn - NDIRECT) NINDIRECT)) by (change MAXFILE with 268 in *; change NDIRECT with 12 in *; change NINDIRECT with 256; lia).
  pose proof (length_weight ib bs i (it_nodup _ _ _ _ _ _ _ (ff_tx _ _ _ F))) as Hl. pose proof (g_data _ _ G).
  assert (0 <= NDIRECT) by done.
  step_by (bmap_direct_tx k i bs NDIRECT F); [lia|unfold NBUF; lia|]. cbv zeta. change (i_addrs i !!! Z.to_nat NDIRECT) with (ind i).
  intros a k' [(E0 & -> & ->)|[(E0 & -> & I & S & V & Hfull)|(E0 & Ha & Hfree & I & M & V)]].
  - rewrite (proj2 (Z.eqb_neq _ _)) by done. apply bmap_large; [done|lia|done|done].
  - cbn [Z.eqb]. apply bmap_post_same; [done|done|done|done| |done]. unfold entry. by rewrite (proj2 (Z.ltb_ge _ _)), E0 by done.
  - assert (entry (view k) i bn = 0) as Ee by (unfold entry; by rewrite (proj2 (Z.ltb_ge _ _)), E0 by done).
    set (i' := set_addrs _ i) in *. assert (ind i' = a) as Ei by (apply ind_new, F).
    assert (grows (fun _ => False) (view k) i (view k') i') as Gr.
    { apply (grow_ind sb ds G (view k) i (ff_ok _ _ _ F) a Ha Hfree (view k') i'); [|by rewrite V; apply (allocated_bit sb ds)| |done| |done|done|].
      - intros x Hx. rewrite V. by apply allocated_zero.
      - intros m J1 J2 _. rewrite V. by apply allocated_same.
      - cbn. rewrite length_insert. apply F.
      - intros bn' Hb'. apply entry_ind; [apply F|done|done|]. intros x Hx. rewrite V. by apply allocated_zero. }
    assert (wt (add a (add (BBLOCK a sb) bs)) i' <= wt bs i)%nat as Hwt.
    { etransitivity; [apply (weight_ind ib a (add (BBLOCK a sb) bs) i i' E0 Ei); [|by apply meta_pos]|].
      - pose proof (above_pos _ (above_alloc a bs Ha (ff_above _ _ _ F))) as Hp. rewrite elem_of_add in Hp. tauto.
      - by rewrite weight_add_in by (left; apply BBLOCK_meta; lia). }
    pose proof (bmap_large k' i' (add a (add (BBLOCK a sb) bs)) bn) as HL. rewrite Ei in HL.
    rewrite (proj2 (Z.eqb_neq a 0)) by lia. eapply runs_mono; [apply HL; [|lia|lia|lia]|].
    + apply (file_after _ k k' i i' bs _ F I M Gr), above_alloc; [done|apply F].
    + intros a' k2. by apply bmap_post_after.
Qed.
End bmap.
