(* ===== verification/FsFile.v ===== *)
(** * Reading and writing files

    writei() and readi() on the bytes of a file ([fbyte] of FsMap.v), inside a transaction. *)

From Stdlib Require Import ZArith Lia.
From stdpp Require Import base list numbers strings gmap sets.
From S2P Require Import Prelude Types Mem Str Layout Kalloc Vm State Spinlock Printf Proc ProcSpec Sleeplock Seq Bio BioSpec Log LogSpec FsTx FsSource Fs FsInode FsBlocks FsMap FsBmap.
Open Scope Z_scope.

(** The number of blocks that [c] bytes from [off] on touch. *)
Definition nblocks (off c : Z) : Z := if c <=? 0 then 0 else (off + c - 1) / BSIZE - off / BSIZE + 1.
Definition chunk (off c : Z) : Z := Z.min c (BSIZE - off mod BSIZE).

Lemma chunk_range off c : 0 < c -> 0 < chunk off c <= c /\ off mod BSIZE + chunk off c <= BSIZE.
Proof. intros Hc. unfold chunk. pose proof (Z.mod_pos_bound off BSIZE ltac:(done)). lia. Qed.
Lemma nblocks_chunk off c : 0 <= off -> 0 < c -> nblocks off c = 1 + nblocks (off + chunk off c) (c - chunk off c).
Proof.
  intros H0 Hc. assert (0 < BSIZE) as HB by done. unfold nblocks, chunk. rewrite (proj2 (Z.leb_gt c 0)) by done.
  pose proof (Z.mod_pos_bound off BSIZE HB). pose proof (Z.div_mod off BSIZE ltac:(lia)) as Ed.
  destruct (Z.le_gt_cases c (BSIZE - off mod BSIZE)) as [H1|H1].
  - rewrite Z.min_l, Z.sub_diag by done. cbn. replace ((off + c - 1) / BSIZE) with (off / BSIZE); [lia|].
    apply (Z.div_unique _ _ _ (off mod BSIZE + c - 1)); lia.
  - rewrite Z.min_r by lia. rewrite (proj2 (Z.leb_gt _ _)) by lia.
    replace ((off + (BSIZE - off mod BSIZE)) / BSIZE) with (off / BSIZE + 1); [|apply (Z.div_unique _ _ _ 0); lia].
    replace (off + (BSIZE - off mod BSIZE) + (c - (BSIZE - off mod BSIZE)) - 1) with (off + c - 1) by lia. lia.
Qed.
Lemma nblocks_nonneg off c : 0 <= off -> 0 <= nblocks off c.
Proof.
  intros H. unfold nblocks. destruct (Z.leb_spec c 0); [done|]. assert (off / BSIZE <= (off + c - 1) / BSIZE); [|lia]. apply Z.div_le_mono; [done|lia].
Qed.

(** The bytes of a file, and bytes with [l] written over them from [off] on. *)
Definition contents (V : Z -> block) (i : inode) : list Z := fbyte V i <$> seqZ 0 i.(i_size).
Definition splice (c : list Z) (off : Z) (l : list Z) : list Z :=
  take (Z.to_nat off) c ++ l ++ drop (Z.to_nat off + length l) c.

Lemma length_contents V i : length (contents V i) = Z.to_nat i.(i_size).
Proof. unfold contents. by rewrite length_fmap, length_seqZ. Qed.
Lemma lookup_contents V i n : Z.of_nat n < i.(i_size) -> contents V i !! n = Some (fbyte V i (Z.of_nat n)).
Proof. intros H. unfold contents. rewrite list_lookup_fmap, lookup_seqZ_lt by lia. cbn. do 2 f_equal. Qed.

(** A file is determined by its size and its bytes. *)
Lemma contents_splice V i V' i' off l :
  0 <= off <= i.(i_size) -> i'.(i_size) = Z.max i.(i_size) (off + Z.of_nat (length l)) ->
  (forall x, off <= x < off + Z.of_nat (length l) -> fbyte V' i' x = nth (Z.to_nat (x - off)) l 0) ->
  (forall x, 0 <= x < i.(i_size) -> ~ off <= x < off + Z.of_nat (length l) -> fbyte V' i' x = fbyte V i x) ->
  contents V' i' = splice (contents V i) off l.
Proof.
  intros Ho Hs Hin Hout. apply list_eq. intros n. unfold splice. pose proof (length_contents V i) as Hlc.
  destruct (decide (Z.of_nat n < i'.(i_size))) as [Hn|Hn].
  2: { rewrite !lookup_ge_None_2; [done| |rewrite length_contents; lia]. rewrite !length_app, length_take, length_drop. lia. }
  rewrite lookup_contents by done. destruct (decide (Z.of_nat n < off)) as [H1|H1].
  { rewrite lookup_app_l by (rewrite length_take; lia). rewrite lookup_take_lt, lookup_contents, Hout by lia. done. }
  rewrite lookup_app_r, length_take by (rewrite length_take; lia). destruct (decide (Z.of_nat n < off + Z.of_nat (length l))) as [H2|H2].
  { rewrite lookup_app_l by lia. rewrite Hin by lia. destruct (lookup_lt_is_Some_2 l (n - Z.to_nat off `min` length (contents V i))) as [x Hx]; [lia|].
    rewrite Hx. f_equal. apply nth_lookup_Some. rewrite <- Hx. f_equal. lia. }
  rewrite lookup_app_r, lookup_drop by lia. rewrite Hout by lia.
  replace (Z.to_nat off + length l + (n - Z.to_nat off `min` length (contents V i) - length l))%nat with n by lia.
  rewrite lookup_contents by lia. done.
Qed.

Section file.
Context (me : nat) (pid : Z) (d : Z) `{L : KernelLayout} `{W : Wakes} `{D : Disk} `{DOK : !DiskOK} (o : bool).
Context (sb : superblock) (ds : Z) (G : geom sb ds).
Context (ip : nat) (inum : Z) (Hinum : 0 <= inum < sb.(sb_ninodes)).
Abbreviation view := (view d).
Abbreviation in_tx := (in_tx me pid d o).
Abbreviation grows := (grows sb ds).
Abbreviation fs_file := (fs_file me pid d o sb ds ip inum).
Abbreviation moved := (moved ip).
Abbreviation wt := (weight sb (IBLOCK inum sb)).

(** A file that is where it was and of which only blocks and bytes change. *)
Lemma file_same k k' i bs : fs_file k i bs -> in_tx k' bs [] -> same k k' -> (forall m, view k' m = view k m) ->
  fs_file k' i bs /\ moved k k' i.
Proof using G.
  intros F I S V. pose proof (moved_same ip k k' i S (ff_inode _ _ _ _ _ _ _ _ _ _ _ F)) as M. split; [|done].
  apply (file_after me pid d o sb ds G ip inum (fun _ => False) k k' i i bs bs F I M); [|apply F].
  apply (grows_views sb ds _ _ _ (view k)); [done|]. apply file_grows_refl, F.
Qed.

(** What a write of [l] at [off] does to a file: [w] bytes are written. *)
Definition wrote_bytes (k : kernel) (i : inode) (bs : list Z) (off : Z) (l : list Z) (w : Z) (k' : kernel) (i' : inode) (bs' : list Z) : Prop :=
  fs_file k' i' bs' /\ moved k k' i' /\ grows (fun x => off <= x < off + w) (view k) i (view k') i' /\
  (forall x, off <= x < off + w -> fbyte (view k') i' x = nth (Z.to_nat (x - off)) l 0 /\ entry (view k') i' (x / BSIZE) <> 0) /\
  (w < Z.of_nat (length l) -> forall m, 0 <= m < sb.(sb_size) -> used sb (view k') m = true).

(** *** readi *)

(** Every block up to the size is there. *)
Definition no_holes (V : Z -> block) (i : inode) : Prop := forall x, 0 <= x < i.(i_size) -> entry V i (x / BSIZE) <> 0.

(** bmap() of a block that is there only reads. *)
Lemma bmap_present k i bs bn :
  fs_file k i bs -> 0 <= bn < MAXFILE -> entry (view k) i bn <> 0 -> (length bs < NBUF)%nat ->
  runs (bmap ip bn k) (fun a k' => a = entry (view k) i bn /\ in_tx k' bs [] /\ same k k' /\ forall m, view k' m = view k m).
Proof using DOK.
  intros F Hb E0 Hlen. pose proof (list_lookup_total_correct _ _ _ (ff_inode _ _ _ _ _ _ _ _ _ _ _ F)) as Ei.
  unfold bmap, bmap_indirect. unfold entry in *. destruct (Z.ltb_spec bn NDIRECT) as [Hlt|Hge].
  - unfold bmap_direct, geti. rewrite bind_gets, Ei, (proj2 (Z.eqb_neq _ _)) by done. cbn. split; [done|]. split; [apply F|]. split; [apply same_others_refl|done].
  - rewrite (proj2 (Z.ltb_lt (bn - NDIRECT) NINDIRECT)) by (change MAXFILE with 268 in *; change NDIRECT with 12 in *; change NINDIRECT with 256; lia).
    destruct (Z.eqb_spec (ind i) 0) as [|Hi]; [done|]. unfold bmap_direct, geti. apply runs_bind. rewrite bind_gets, Ei.
    change (i_addrs i !!! Z.to_nat NDIRECT) with (ind i). rewrite (proj2 (Z.eqb_neq _ _)) by done. cbn [runs mret M_ret].
    rewrite (proj2 (Z.eqb_neq _ _)) by done. rewrite bind_gets, Ei, (ff_dev _ _ _ _ _ _ _ _ _ _ _ F).
    apply (tx_bread me pid d o k bs []); [apply F|apply not_elem_of_nil|cbn; lia|]. intros bp k1 I1 S1 V1.
    apply (tx_getb me pid d o k1 bs [(ind i, bp)] (ind i) bp); [done|by left|]. intros x Hx _. cbv zeta. rewrite Hx, V1.
    rewrite (proj2 (Z.eqb_neq _ _)), bind_ret by done. apply (tx_brelse me pid d o k1 bs [] (ind i) bp); [done|]. intros k2 I2 S2 V2. cbn.
    split; [done|]. split; [done|]. split; [by eapply same_others_trans|]. intros m. by rewrite V2.
Qed.

Lemma entry_views V V' i bn : (forall m, V' m = V m) -> entry V' i bn = entry V i bn.
Proof using Type. intros E. unfold entry. destruct (_ <? _); [done|]. by destruct (_ =? _); rewrite ?E. Qed.
Lemma fbyte_views V V' i x : (forall m, V' m = V m) -> fbyte V' i x = fbyte V i x.
Proof using Type. intros E. unfold fbyte. rewrite (entry_views V V' i _ E). by destruct (_ =? 0); rewrite ?E. Qed.
Lemma no_holes_views V V' i : (forall m, V' m = V m) -> no_holes V i -> no_holes V' i.
Proof using Type. intros E H x Hx. rewrite (entry_views V V' i _ E). by apply H. Qed.

Lemma fbyte_chunk V i off c :
  0 <= off -> off mod BSIZE + c <= BSIZE -> entry V i (off / BSIZE) <> 0 ->
  read_bytes (V (entry V i (off / BSIZE))) (off mod BSIZE) c = fbyte V i <$> seqZ off c.
Proof.
  intros H0 Hc He. assert (0 < BSIZE) as HB by done. pose proof (Z.mod_pos_bound off BSIZE HB). pose proof (Z.div_mod off BSIZE ltac:(lia)).
  unfold read_bytes. apply list_eq. intros n. rewrite !list_lookup_fmap. destruct (decide (Z.of_nat n < c)) as [Hn|Hn].
  - rewrite !lookup_seqZ_lt by lia. cbn. f_equal. unfold fbyte.
    replace ((off + Z.of_nat n) / BSIZE) with (off / BSIZE) by (apply (Z.div_unique _ _ _ (off mod BSIZE + Z.of_nat n)); lia).
    rewrite (proj2 (Z.eqb_neq _ _)) by done. f_equal. apply (Z.mod_unique _ _ (off / BSIZE)); lia.
  - by rewrite !lookup_seqZ_ge by lia.
Qed.

Lemma readi_loop_tx fuel k i bs off n tot acc :
  fs_file k i bs -> no_holes (view k) i -> i.(i_size) <= MAXFILE * BSIZE -> 0 <= off -> tot <= n -> off + (n - tot) <= i.(i_size) ->
  (length bs < NBUF)%nat -> n - tot <= Z.of_nat fuel ->
  runs (readi_loop fuel ip KVar off n tot acc k) (fun r k' =>
    r = (n, acc ++ (fbyte (view k) i <$> seqZ off (n - tot))) /\ fs_file k' i bs /\ same k k' /\ forall m, view k' m = view k m).
Proof using DOK G.
  revert k off tot acc. induction fuel as [|fuel IH]; intros k off tot acc F Hh Hs Hoff Htot Hend Hlen Hf; cbn [readi_loop].
  { rewrite (proj2 (Z.ltb_ge _ _)) by lia. cbn. replace (n - tot) with 0 by lia. cbn. rewrite app_nil_r. replace tot with n by lia.
    split; [done|]. split; [done|]. split; [apply same_others_refl|done]. }
  destruct (Z.ltb_spec tot n) as [Hlt|Hge].
  2: { cbn. replace (n - tot) with 0 by lia. cbn. rewrite app_nil_r. replace tot with n by lia.
    split; [done|]. split; [done|]. split; [apply same_others_refl|done]. }
  pose proof (Hh off ltac:(lia)) as He. destruct (MAXFILE_block off ltac:(lia)) as [Hb _].
  step_by (bmap_present k i bs (off / BSIZE) F); [done|done|done|]. intros a k1 (-> & I1 & S1 & V1).
  destruct (file_same k k1 i bs F I1 S1 V1) as [F1 _]. rewrite (proj2 (Z.eqb_neq _ _)) by done.
  unfold geti. rewrite bind_gets, (list_lookup_total_correct _ _ _ (ff_inode _ _ _ _ _ _ _ _ _ _ _ F1)), (ff_dev _ _ _ _ _ _ _ _ _ _ _ F1).
  set (a := entry (view k) i (off / BSIZE)) in *. apply (tx_bread me pid d o k1 bs []); [apply F1|apply not_elem_of_nil|cbn; lia|]. intros bp k2 I2 S2 V2.
  cbv zeta. set (c := Z.min (n - tot) (BSIZE - off mod BSIZE)) in *. destruct (chunk_range off (n - tot) ltac:(lia)) as [Hc1 Hc2]. fold c in Hc1, Hc2.
  apply (tx_getb me pid d o k2 bs [(a, bp)] a bp); [done|by left|]. intros x Hx _. rewrite Hx, V2, V1.
  apply runs_bind. unfold either_copyout. apply (tx_curproc me pid d o k2 bs [(a, bp)]); [done|]. intros k3 I3 S3 V3. cbn [runs mret M_ret].
  change (0 =? -1) with false. cbn iota. apply (tx_brelse me pid d o k3 bs [] a bp); [done|]. intros k4 I4 S4 V4. cbn [dest_add].
  assert (forall m, view k4 m = view k m) as V by (intros m; by rewrite V4, V3, V2, V1).
  assert (same k k4) as S by eauto 6 using same_others_trans. destruct (file_same k k4 i bs F I4 S V) as [F4 _].
  eapply runs_mono; [apply (IH k4 (off + c) (tot + c)); try done; try lia|].
  { by apply (no_holes_views (view k)). }
  intros r k5 (-> & F5 & S5 & V5). split; [|split; [done|split; [by eapply same_others_trans|intros m; by rewrite V5]]]. f_equal. rewrite <- app_assoc. f_equal.
  unfold a. rewrite (fbyte_chunk (view k) i off c) by done. replace (n - tot) with (c + (n - (tot + c))) by lia. rewrite seqZ_app, fmap_app by lia. f_equal.
  apply list_fmap_ext. intros ? y _. by apply fbyte_views.
Qed.

Lemma take_drop_contents V i off n : 0 <= off -> 0 <= n -> off + n <= i.(i_size) -> take (Z.to_nat n) (drop (Z.to_nat off) (contents V i)) = fbyte V i <$> seqZ off n.
Proof.
  intros H0 Hn He. apply list_eq. intros j. rewrite list_lookup_fmap. destruct (decide (Z.of_nat j < n)) as [Hj|Hj].
  - rewrite lookup_take_lt, lookup_drop, lookup_contents, lookup_seqZ_lt by lia. cbn. do 2 f_equal. lia.
  - rewrite lookup_take_ge, lookup_seqZ_ge by lia. done.
Qed.

(** What a read() of [n] bytes at [off] gives. *)
Definition read_at (c : list Z) (off n : Z) : list Z := take (Z.to_nat n) (drop (Z.to_nat off) c).

Lemma read_at_bytes V i off n : 0 <= off <= i.(i_size) -> 0 <= n ->
  let c := if i.(i_size) <? off + n then i.(i_size) - off else n in
  0 <= c /\ off + c <= i.(i_size) /\ read_at (contents V i) off n = fbyte V i <$> seqZ off c.
Proof using Type.
  intros Hoff Hn. cbv zeta. pose proof (length_contents V i). unfold read_at.
  destruct (Z.ltb_spec (i_size i) (off + n)); (split; [lia|split; [lia|]]); [|by apply take_drop_contents; lia].
  rewrite <- take_drop_contents by lia. rewrite !take_ge; [done|rewrite length_drop; lia..].
Qed.

Lemma readi_tx k i bs off n :
  fs_file k i bs -> no_holes (view k) i -> 0 <= i.(i_size) <= MAXFILE * BSIZE -> 0 <= off -> 0 <= n -> off + n < 2 ^ 32 -> (length bs < NBUF)%nat ->
  runs (readi ip KVar off n k) (fun r k' => let l := read_at (contents (view k) i) off n in
    r = (Z.of_nat (length l), l) /\ fs_file k' i bs /\ same k k' /\ forall m, view k' m = view k m).
Proof using DOK G.
  intros F Hh Hs Hoff Hn H32 Hlen. unfold readi, geti. rewrite bind_gets, (list_lookup_total_correct _ _ _ (ff_inode _ _ _ _ _ _ _ _ _ _ _ F)).
  rewrite u32_small, (proj2 (Z.ltb_ge (off + n) off)), orb_false_r by lia. cbv zeta. pose proof (length_contents (view k) i) as Hl.
  destruct (Z.ltb_spec (i_size i) off) as [Hgt|Hle].
  { unfold read_at. rewrite drop_ge, take_nil by lia. cbn. split; [done|]. split; [done|]. split; [apply same_others_refl|done]. }
  destruct (read_at_bytes (view k) i off n ltac:(lia) Hn) as (Hc1 & Hc2 & Hc3). set (c := if i_size i <? off + n then i_size i - off else n) in *.
  rewrite Hc3, length_fmap, length_seqZ, Z2Nat.id by done.
  eapply runs_mono; [apply (readi_loop_tx (Z.to_nat c) k i bs off c 0 []); [done|done|lia|done|lia|lia|done|lia]|].
  intros r k' (-> & F' & S & V). rewrite Z.sub_0_r. done.
Qed.

Context (Ho : o = true).

Lemma src_moved k k' src l i' (J : FsBmap.moved ip k k' i') : src_has me k src l -> src_has me k' src l.
Proof. apply (src_others me k k' src l _ (proj1 J)). Qed.

(** One round of the loop of writei(), after bmap() has found the block. *)
Lemma write_chunk {B} k i bs src off c l0 l (e : nat -> M kernel B) (f : unit -> M kernel B) Q :
  src_has me k src l0 -> 0 <= c <= Z.of_nat (length l0) -> take (Z.to_nat c) l0 = l ->
  fs_file k i bs -> 0 <= off -> off + Z.of_nat (length l) <= MAXFILE * BSIZE -> off mod BSIZE + Z.of_nat (length l) <= BSIZE -> l <> [] ->
  (length bs < 29)%nat -> let a := entry (view k) i (off / BSIZE) in a <> 0 ->
  (forall k' bs', bs' = add a bs -> wrote_bytes k i bs off l (Z.of_nat (length l)) k' i bs' -> runs (f tt k') Q) ->
  runs ((bp ← bread d a;
         r ← either_copyin src c;
         modb bp (fun x => set_data (write_bytes x.(b_data) (off mod BSIZE) r.2) x) ;;
         if r.1 =? -1 then e bp else log_write bp ;; x ← brelse bp; f x) k) Q.
Proof using DOK Ho G.
  intros Hsrc Hc El F H0 Hmax Hl Hne Hlen a Ha Hf. assert (0 < BSIZE) as HB by done. pose proof (g_size _ _ G). pose proof (g_data _ _ G).
  assert (0 < Z.of_nat (length l)) by (destruct l; [done|cbn; lia]). pose proof (inodes_first sb ds G).
  assert (0 <= off / BSIZE < MAXFILE) as Hb by (apply MAXFILE_block; lia).
  destruct (fo_entry _ _ _ _ (ff_ok _ _ _ _ _ _ _ _ _ _ _ F) _ Hb Ha) as [[Ha1 Ha2] _]. fold a in Ha1, Ha2.
  apply (tx_bread me pid d o k bs []); [apply F|apply not_elem_of_nil|unfold NBUF; cbn; lia|]. intros bp k0 I0 S0 V0.
  rewrite <- (Z2Nat.id c) by lia. apply (either_copyin_tx me pid d o k0 bs [(a, bp)] src l0); [done|by apply (src_same me k)|lia|]. intros k1 I1 S1' V1'. cbn [fst snd]. rewrite El.
  change (0 =? -1) with false. cbn iota. pose proof (same_others_trans _ _ _ S0 S1') as S1. assert (forall m, view k1 m = view k m) as V1 by (intros x; by rewrite V1').
  apply (tx_write me pid d o k1 bs [(a, bp)] a bp _ (write_bytes (view k1 a) (off mod BSIZE) l)); [done|done|by left|lia|unfold LOGBLOCKS, MAXOPBLOCKS; lia|by intros x ->|].
  intros k2 I2 S2 V2. apply (tx_brelse me pid d o k2 (add a bs) [] a bp); [done|]. intros k3 I3 S3 V3.
  assert (forall m, view k3 m = if decide (m = a) then write_bytes (view k m) (off mod BSIZE) l else view k m) as V.
  { intros m. rewrite V3, V2, !V1. case_decide; [by subst|done]. }
  pose proof (Z.mod_pos_bound off BSIZE HB). pose proof (Z.div_mod off BSIZE ltac:(lia)) as Ed.
  destruct (grow_write sb ds G (view k) i (off / BSIZE) (off mod BSIZE) l (view k3)) as (Gr & Hby & HE); [apply F|done|done|lia|done|done|].
  replace (off / BSIZE * BSIZE + off mod BSIZE) with off in * by lia.
  assert (moved k k3 i) as M by (apply moved_same; [eauto using same_others_trans|apply F]).
  apply (Hf k3 (add a bs)); [done|]. split; [|split; [done|split; [done|split; [|lia]]]].
  - apply (file_after me pid d o sb ds G ip inum _ k k3 i i bs _ F I3 M Gr). apply above_add; [lia|apply F].
  - intros x Hx. split; [by apply Hby|]. replace (x / BSIZE) with (off / BSIZE); [by rewrite HE|].
    apply (Z.div_unique _ _ _ (x - off / BSIZE * BSIZE)); lia.
Qed.

Lemma wrote_nothing k i bs off l : fs_file k i bs -> (length l = 0)%nat -> wrote_bytes k i bs off l 0 k i bs.
Proof.
  intros F Hl. split; [done|]. split; [apply moved_same; [apply same_others_refl|apply F]|]. split; [apply file_grows_refl, F|]. split; [lia|]. lia.
Qed.

(** Writing is in two parts: a chunk, and the rest. *)
Lemma wrote_two k i bs off m l k1 i1 k2 i2 bs2 w k3 i3 bs3 bs' :
  0 <= off -> 0 <= m <= Z.of_nat (length l) -> off + Z.of_nat (length l) <= MAXFILE * BSIZE -> 0 <= w ->
  moved k k1 i1 -> grows (fun _ => False) (view k) i (view k1) i1 ->
  wrote_bytes k1 i1 bs' off (take (Z.to_nat m) l) m k2 i2 bs2 ->
  wrote_bytes k2 i2 bs2 (off + m) (drop (Z.to_nat m) l) w k3 i3 bs3 -> w <= Z.of_nat (length l) - m ->
  wrote_bytes k i bs off l (m + w) k3 i3 bs3.
Proof using G.
  intros H0 Hm Hmax Hw M1 G1 (F2 & M2 & G2 & B2 & _) (F3 & M3 & G3 & B3 & U3) Hwl.
  split; [done|]. split; [exact (moved_trans _ _ _ _ _ _ (moved_trans _ _ _ _ _ _ M1 M2) M3)|].
  assert (grows (fun x => off <= x < off + (m + w)) (view k) i (view k3) i3) as Gr.
  { eapply (file_grows_trans sb ds G); [eapply (file_grows_trans sb ds G)|].
    - apply (grows_weaken _ _ (fun _ => False)); [done|exact G1].
    - eapply grows_weaken; [|exact G2]. cbn. lia.
    - eapply grows_weaken; [|exact G3]. cbn. lia. }
  split; [done|]. split.
  - intros x Hx. destruct (Z.lt_ge_cases x (off + m)) as [H|H].
    + destruct (B2 x ltac:(lia)) as [E1 E2]. destruct (MAXFILE_block x ltac:(lia)) as [Hb _]. split.
      * rewrite (gr_bytes _ _ _ _ _ _ _ G3), E1 by lia. rewrite nth_firstn, (proj2 (Nat.ltb_lt _ _)) by lia. done.
      * by rewrite (gr_entry _ _ _ _ _ _ _ G3).
    + destruct (B3 x ltac:(lia)) as [E1 E2]. split; [|done]. rewrite E1, nth_skipn. f_equal. lia.
  - intros Hlt m' Hm'. apply U3; [rewrite length_drop; lia|done].
Qed.

Lemma chunk_end off n : chunk off n < n -> (off + chunk off n) mod BSIZE = 0.
Proof.
  unfold chunk. intros H. assert (0 < BSIZE) as HB by done. pose proof (Z.div_mod off BSIZE ltac:(lia)) as E.
  replace (off + _) with ((off / BSIZE + 1) * BSIZE) by lia. by apply Z.mod_mul.
Qed.

Lemma writei_loop_tx fuel k i bs src l off n tot :
  src_has me k src l -> fs_file k i bs -> 0 <= off -> off + Z.of_nat (length l) <= MAXFILE * BSIZE -> n - tot = Z.of_nat (length l) -> (length l <= fuel)%nat ->
  Z.of_nat (wt bs i) + nblocks off (Z.of_nat (length l)) <= 28 ->
  runs (writei_loop fuel ip src off n tot k) (fun r k' => exists w i' bs', r = (off + w, tot + w) /\ 0 <= w <= Z.of_nat (length l) /\ (w < Z.of_nat (length l) -> w = 0 \/ (off + w) mod BSIZE = 0) /\
    wrote_bytes k i bs off l w k' i' bs' /\ Z.of_nat (wt bs' i') <= Z.of_nat (wt bs i) + nblocks off (Z.of_nat (length l))).
Proof using DOK Ho G Hinum.
  revert k i bs src l off tot. induction fuel as [|fuel IH]; intros k i bs src l off tot Hsrc F H0 Hmax Hn Hfuel Hw; cbn [writei_loop].
  { rewrite (proj2 (Z.ltb_ge _ _)) by lia. exists 0, i, bs. rewrite !Z.add_0_r. split; [done|]. split; [lia|]. split; [by left|]. split; [by apply wrote_nothing; [|destruct l; cbn in *; lia]|].
    pose proof (nblocks_nonneg off (Z.of_nat (length l)) H0). lia. }
  destruct (Z.ltb_spec tot n) as [Hlt|Hge].
  2: { exists 0, i, bs. rewrite !Z.add_0_r. split; [done|]. split; [lia|]. split; [by left|]. split; [apply wrote_nothing; [done|]; lia|].
    pose proof (nblocks_nonneg off (Z.of_nat (length l)) H0). lia. }
  assert (0 < Z.of_nat (length l)) as Hpos by lia. rewrite nblocks_chunk in * by done.
  set (c := chunk off (Z.of_nat (length l))) in *. destruct (chunk_range off (Z.of_nat (length l)) Hpos) as [Hc1 Hc2]. fold c in Hc1, Hc2.
  pose proof (nblocks_nonneg (off + c) (Z.of_nat (length l) - c) ltac:(lia)) as Hnn.
  assert (0 <= off / BSIZE < MAXFILE) as Hb by (apply MAXFILE_block; lia).
  step_by (bmap_tx me pid d o sb ds G ip inum Hinum Ho k i bs (off / BSIZE) F); [done|lia|].
  intros a k1 (i1 & bs1 & F1 & M1 & G1 & -> & W1 & W1' & Hfull & _).
  destruct (Z.eqb_spec (entry (view k1) i1 (off / BSIZE)) 0) as [E0|E0].
  { exists 0, i1, bs1. rewrite !Z.add_0_r. split; [done|]. split; [lia|]. split; [by left|]. split; [|lia]. split; [done|]. split; [done|].
    split; [by apply (grows_weaken _ _ (fun _ => False))|]. split; [lia|]. intros _. by apply Hfull. }
  unfold geti. rewrite bind_gets, (list_lookup_total_correct _ _ _ (ff_inode _ _ _ _ _ _ _ _ _ _ _ F1)), (ff_dev _ _ _ _ _ _ _ _ _ _ _ F1).
  cbv zeta. rewrite Hn. fold (chunk off (Z.of_nat (length l))). fold c.
  assert (length (take (Z.to_nat c) l) = Z.to_nat c) as Ec by (rewrite length_take; lia).
  apply (write_chunk k1 i1 bs1 src off c l (take (Z.to_nat c) l)); [by apply (src_moved k _ src l _ M1)|lia|done|done|done|rewrite Ec; lia|rewrite Ec; lia| | |done|].
  { intros E. rewrite E in Ec. cbn in Ec. lia. }
  { pose proof (length_weight sb (IBLOCK inum sb) bs1 i1 (it_nodup _ _ _ _ _ _ _ (ff_tx _ _ _ _ _ _ _ _ _ _ _ F1))). lia. }
  intros k2 bs2 Ebs Hwr. rewrite Ec, Z2Nat.id in Hwr by lia. pose proof Hwr as (F2 & M2 & _).
  assert (length (drop (Z.to_nat c) l) = (length l - Z.to_nat c)%nat) as Ed by apply length_drop.
  specialize (W1' E0). rewrite <- Ebs in W1'.
  assert (src_has me k2 (source_add src c) (drop (Z.to_nat c) l)) as Hsrc2.
  { rewrite <- (Z2Nat.id c) at 1 by lia. apply src_add; [|lia]. apply (src_moved k1 _ src l _ M2), (src_moved k _ src l _ M1), Hsrc. }
  eapply runs_mono; [apply (IH k2 i1 bs2 (source_add src c) (drop (Z.to_nat c) l) (off + c) (tot + c) Hsrc2 F2); [lia|lia|lia|lia|]|].
  { replace (Z.of_nat (length (drop (Z.to_nat c) l))) with (Z.of_nat (length l) - c) by lia. lia. }
  intros r k3 (w & i3 & bs3 & -> & Hw3 & Hst & Hwr3 & W3).
  replace (Z.of_nat (length (drop (Z.to_nat c) l))) with (Z.of_nat (length l) - c) in * by lia.
  exists (c + w), i3, bs3. split; [f_equal; lia|]. split; [lia|]. split; [|split; [|lia]].
  { intros Hlw. right. rewrite Z.add_assoc. destruct (Hst ltac:(lia)) as [-> | ?]; [|done]. rewrite Z.add_0_r. apply chunk_end. fold c. lia. }
  apply (wrote_two k i bs off c l k1 i1 k2 i1 bs2 w k3 i3 bs3 bs1); [done|lia|lia|lia|done|done|done|done|lia].
Qed.

(** *** The inode on the disk *)

Abbreviation ib := (IBLOCK inum sb).
Abbreviation slot := (inum mod IPB * DINODE_SIZE).

(** Blocks outside the bitmap and the data do not matter to a file. *)
Lemma file_ok_frame V V' i : (forall m, sb.(sb_bmapstart) <= m -> V' m = V m) -> file_ok sb ds V i ->
  file_ok sb ds V' i /\ (forall m, 0 <= m < sb.(sb_size) -> used sb V' m = used sb V m) /\
  (forall bn, 0 <= bn < MAXFILE -> entry V' i bn = entry V i bn) /\ (forall x, 0 <= x < MAXFILE * BSIZE -> fbyte V' i x = fbyte V i x).
Proof using G.
  intros HV F. pose proof (g_data _ _ G) as Hds. pose proof (bmapstart_pos sb ds G).
  assert (sb_bmapstart sb <= ds) as Hb by (pose proof (BBLOCK_range sb ds G 0 ltac:(lia)); lia).
  assert (forall m, 0 <= m < sb.(sb_size) -> used sb V' m = used sb V m) as HU.
  { intros m Hm. unfold used. rewrite HV; [done|]. pose proof (BBLOCK_range sb ds G m Hm). lia. }
  assert (forall bn, entry V' i bn = entry V i bn) as HE.
  { intros bn. unfold entry. destruct (bn <? NDIRECT); [done|]. destruct (Z.eqb_spec (ind i) 0) as [|H0]; [done|].
    destruct (fo_ind _ _ _ _ F H0). by rewrite HV by lia. }
  assert (forall m, data_block sb ds V' m <-> data_block sb ds V m) as HD.
  { intros m. unfold data_block. split; intros [H1 H2]; (split; [done|]); rewrite HU in *; done || lia. }
  split; [|split; [done|split; [done|]]].
  - destruct F. split; [done|intros; rewrite HD; auto|intros bn; rewrite HE, HD; auto|intros b1 b2; rewrite !HE; auto].
  - intros x Hx. unfold fbyte. rewrite HE. destruct (Z.eqb_spec (entry V i (x / BSIZE)) 0) as [|H0]; [done|].
    destruct (MAXFILE_block x Hx) as [Hbn _]. destruct (fo_entry _ _ _ _ F _ Hbn H0) as [[H1 _] _]. by rewrite HV by lia.
Qed.

Lemma iupdate_tx k i bs :
  fs_file k i bs -> (length bs < 29)%nat ->
  runs (iupdate ip k) (fun _ k' => fs_file k' i (add ib bs) /\ same k k' /\
    forall m, view k' m = if decide (m = ib) then write_dinode i slot (view k ib) else view k m).
Proof using DOK G Hinum Ho.
  intros F Hlen. pose proof (IBLOCK_range sb ds G inum Hinum) as Hib. pose proof (g_size _ _ G). pose proof (g_data _ _ G).
  pose proof (BBLOCK_range sb ds G 0 ltac:(lia)). unfold iupdate, geti.
  rewrite bind_gets, (ff_sb _ _ _ _ _ _ _ _ _ _ _ F), bind_gets, (list_lookup_total_correct _ _ _ (ff_inode _ _ _ _ _ _ _ _ _ _ _ F)).
  rewrite (ff_dev _ _ _ _ _ _ _ _ _ _ _ F), (ff_inum _ _ _ _ _ _ _ _ _ _ _ F).
  apply (tx_bread me pid d o k bs []); [apply F|apply not_elem_of_nil|unfold NBUF; cbn; lia|]. intros bp k1 I1 S1 V1.
  rewrite bind_gets, (same_itable _ _ S1), (list_lookup_total_correct _ _ _ (ff_inode _ _ _ _ _ _ _ _ _ _ _ F)), (ff_inum _ _ _ _ _ _ _ _ _ _ _ F).
  apply (tx_write me pid d o k1 bs [(ib, bp)] ib bp _ (write_dinode i slot (view k1 ib))); [done|done|by left|lia|unfold LOGBLOCKS, MAXOPBLOCKS; lia|by intros x ->|].
  intros k2 I2 S2 V2. apply runs_last, (tx_brelse me pid d o k2 (add ib bs) [] ib bp); [done|]. intros k3 I3 S3 V3. cbn.
  assert (same k k3) as S by eauto using same_others_trans.
  assert (forall m, view k3 m = if decide (m = ib) then write_dinode i slot (view k ib) else view k m) as V by (intros m; by rewrite V3, V2, !V1).
  split; [|done]. destruct (file_ok_frame (view k) (view k3) i) as (F3 & U3 & _); [|apply F|].
  { intros m Hm. rewrite V, decide_False by lia. done. }
  split; [done|rewrite (same_sb _ _ S); apply F| |rewrite (same_itable _ _ S); apply F|apply F|apply F|done|].
  - intros m Hm. rewrite U3 by lia. by apply F.
  - pose proof (IBLOCK_eq sb ds G inum Hinum). assert (0 <= inum / IPB) by (apply Z.div_pos; [lia|done]). apply above_add; [lia|apply F].
Qed.

(** *** writei *)

(** What the rest of the disk sees of a write. *)
Record file_written (V : Z -> block) (i : inode) (V' : Z -> block) (i' : inode) (off : Z) (l : list Z) : Prop := {
  fw_inode : i' = set_size (Z.max i.(i_size) (off + Z.of_nat (length l))) (set_addrs i'.(i_addrs) i);
  fw_contents : contents V' i' = splice (contents V i) off l;
  fw_holes : no_holes V i -> no_holes V' i';
  fw_disk : forall j, read_dinode (V' ib) slot j = with_disk i' j;
  fw_slots : forall n j, 0 <= n < sb.(sb_ninodes) -> n <> inum ->
    read_dinode (V' (IBLOCK n sb)) (n mod IPB * DINODE_SIZE) j = read_dinode (V (IBLOCK n sb)) (n mod IPB * DINODE_SIZE) j;
  fw_other : forall m, data_block sb ds V m -> ~ owns V i m -> V' m = V m;
  fw_free : forall m, owns V' i' m -> owns V i m \/ used sb V m = false;
  fw_bitmap : forall m, 0 <= m < sb.(sb_size) -> (used sb V' m = true <-> used sb V m = true \/ owns V' i' m)
}.

(** The values of the fields an inode has on the disk. *)
Definition inode_ok (i : inode) : Prop :=
  short_ok i.(i_type) /\ short_ok i.(i_major) /\ short_ok i.(i_minor) /\ short_ok i.(i_nlink) /\ 0 <= i.(i_size) <= MAXFILE * BSIZE.

Lemma file_fits V i : file_ok sb ds V i -> inode_ok i -> inode_fits i.
Proof using G.
  intros F (H1 & H2 & H3 & H4 & H5). split; try done; [change (MAXFILE * BSIZE) with 274432 in H5; lia|apply F|].
  apply Forall_lookup. intros n a Ha. pose proof (g_size _ _ G). pose proof (g_data _ _ G). pose proof (lookup_lt_Some _ _ _ Ha) as Hn.
  rewrite (fo_len _ _ _ _ F) in Hn. destruct (Z.eq_dec a 0) as [->|Hz]; [lia|].
  destruct (decide (n = 12%nat)) as [->|].
  - assert (ind i = a) as Ei by (unfold ind; by apply list_lookup_total_correct). rewrite <- Ei in Hz. destruct (fo_ind _ _ _ _ F Hz). lia.
  - assert (entry V i (Z.of_nat n) = a) as Ee.
    { unfold entry. rewrite (proj2 (Z.ltb_lt _ _)) by (unfold NDIRECT; lia). apply list_lookup_total_correct. by rewrite Nat2Z.id. }
    rewrite <- Ee in Hz. destruct (fo_entry _ _ _ _ F (Z.of_nat n)) as [[? _] _]; [change MAXFILE with 268; lia|done|lia].
Qed.

(** The inode blocks lie in front of the bitmap, and the slots of a block are apart. *)
Lemma slot_apart n : 0 <= n < sb.(sb_ninodes) -> n <> inum -> IBLOCK n sb = ib -> 
  n mod IPB * DINODE_SIZE + 64 <= slot \/ slot + 64 <= n mod IPB * DINODE_SIZE.
Proof using G Hinum.
  intros Hn Hne E. assert (n / IPB = inum / IPB) as Ed.
  { pose proof (IBLOCK_eq sb ds G n Hn). pose proof (IBLOCK_eq sb ds G inum Hinum). lia. }
  pose proof (Z.div_mod n IPB ltac:(done)). pose proof (Z.div_mod inum IPB ltac:(done)). change DINODE_SIZE with 64. lia.
Qed.

Lemma fbyte_size V i x n : fbyte V (set_size n i) x = fbyte V i x.
Proof. done. Qed.

(** The loop and the update of the inode together. *)
Lemma file_written_intro k i bs off l w k1 i1 bs1 V2 :
  inode_ok i -> 0 <= off <= i.(i_size) -> 0 <= w <= Z.of_nat (length l) -> off + Z.of_nat (length l) <= MAXFILE * BSIZE ->
  wrote_bytes k i bs off l w k1 i1 bs1 ->
  let i2 := set_size (Z.max i.(i_size) (off + w)) i1 in
  (forall m, V2 m = if decide (m = ib) then write_dinode i2 slot (view k1 ib) else view k1 m) ->
  file_written (view k) i V2 i2 off (take (Z.to_nat w) l).
Proof using G Hinum.
  intros Hi Hoff Hw Hmax (F1 & M1 & G1 & B1 & U1) i2 HV. pose proof (IBLOCK_range sb ds G inum Hinum) as Hib.
  pose proof (gr_inode _ _ _ _ _ _ _ G1) as Ei1.
  assert (length (take (Z.to_nat w) l) = Z.to_nat w) as El by (rewrite length_take; lia).
  destruct (file_ok_frame (view k1) V2 i1) as (F2 & U2 & E2 & B2); [intros m Hm; rewrite HV, decide_False by lia; done|apply F1|].
  assert (inode_ok i2) as Hi2.
  { destruct Hi as (J1 & J2 & J3 & J4 & J5). unfold inode_ok, i2. rewrite Ei1. cbn. split; [done|]. split; [done|]. split; [done|]. split; [done|]. lia. }
  assert (forall m, owns V2 i2 m <-> owns (view k1) i1 m) as Ow.
  { intros m. change (owns V2 i2 m) with (owns V2 i1 m). by apply owns_entries. }
  pose proof (g_data _ _ G) as Hds. pose proof (BBLOCK_range sb ds G 0 ltac:(lia)) as Hb0.
  split.
  - rewrite El, Z2Nat.id by lia. unfold i2. rewrite Ei1. done.
  - apply contents_splice; [done|rewrite El, Z2Nat.id by lia; done| |].
    + rewrite El, Z2Nat.id by lia. intros x Hx. destruct (B1 x Hx) as [Eb _]. change (fbyte V2 i2 x) with (fbyte V2 i1 x).
      rewrite B2, Eb, nth_firstn, (proj2 (Nat.ltb_lt _ _)) by lia. done.
    + rewrite El, Z2Nat.id by lia. intros x Hx Hn. change (fbyte V2 i2 x) with (fbyte V2 i1 x). destruct Hi as (_ & _ & _ & _ & J5). rewrite B2 by lia. apply (gr_bytes _ _ _ _ _ _ _ G1); [lia|done].
  - intros Hh x Hx. cbn in Hx. destruct Hi as (_ & _ & _ & _ & J5). destruct (MAXFILE_block x ltac:(lia)) as [Jb _].
    change (entry V2 i2 (x / BSIZE)) with (entry V2 i1 (x / BSIZE)). rewrite E2 by done. destruct (Z.lt_ge_cases x (i_size i)) as [Hlt|Hge].
    + specialize (Hh x ltac:(lia)). by rewrite (gr_entry _ _ _ _ _ _ _ G1).
    + destruct (B1 x ltac:(lia)). done.
  - intros j. rewrite HV, decide_True by done. apply read_write_dinode, (file_fits V2); [|done]. destruct F2. by split.
  - intros n j Hn Hne. rewrite HV. pose proof (IBLOCK_range sb ds G n Hn). case_decide as E.
    + rewrite read_write_dinode_ne; [|apply F1|by apply slot_apart]. rewrite <- E. f_equal. apply (gr_meta _ _ _ _ _ _ _ G1); [lia|].
      intros b Hb. pose proof (BBLOCK_range sb ds G b Hb). lia.
    + f_equal. apply (gr_meta _ _ _ _ _ _ _ G1); [lia|]. intros b Hb. pose proof (BBLOCK_range sb ds G b Hb). lia.
  - intros m Hm Hn. rewrite HV, decide_False; [by apply (gr_other _ _ _ _ _ _ _ G1)|]. destruct Hm. lia.
  - intros m Hm. apply (gr_free _ _ _ _ _ _ _ G1). by apply Ow.
  - intros m Hm. rewrite U2, Ow by done. split.
    + intros Hu. destruct (used sb (view k) m) eqn:E; [by left|]. right. by apply (gr_new _ _ _ _ _ _ _ G1).
    + intros [Hu|Hu]; [by apply (gr_used _ _ _ _ _ _ _ G1)|]. destruct (owned_data sb ds _ _ _ (gr_ok _ _ _ _ _ _ _ G1) Hu). done.
Qed.

Lemma set_size_tx {B} k i bs off (f : unit -> M kernel B) Q :
  fs_file k i bs ->
  (forall k', fs_file k' (set_size (Z.max i.(i_size) off) i) bs -> moved k k' (set_size (Z.max i.(i_size) off) i) ->
     (forall m, view k' m = view k m) -> runs (f tt k') Q) ->
  runs ((x ← (if i.(i_size) <? off then modi ip (set_size off) else mret tt); f x) k) Q.
Proof using G.
  intros F Hf. destruct (Z.ltb_spec (i_size i) off) as [Hlt|Hge].
  - rewrite Z.max_r in Hf by lia. step_by (modi_tx me pid d o ip k bs [] i (set_size off)); [apply F|apply F|]. intros [] k' (I & M & Hi & V). apply (Hf k'); [|done|done].
    destruct F as [A1 A2 A3 A4 A5 A6 A7 A8]. split; [done|by rewrite (moved_sb _ _ _ _ M)| |done|done|done| |done].
    + intros m Hm. unfold used. rewrite V. by apply A3.
    + destruct (file_ok_frame (view k) (view k') i) as ([] & _); [done|done|]. by split.
  - rewrite Z.max_l in Hf by lia. rewrite bind_ret. replace (set_size (i_size i) i) with i in Hf by (by destruct i).
    apply Hf; [done| |done]. apply moved_same; [apply same_others_refl|apply F].
Qed.

Lemma writei_tx k i bs src off l :
  src_has me k src l -> fs_file k i bs -> inode_ok i -> 0 <= off -> off + Z.of_nat (length l) < 2 ^ 32 ->
  Z.of_nat (wt bs i) + nblocks off (Z.of_nat (length l)) <= 28 ->
  let n := Z.of_nat (length l) in
  runs (writei ip src off n k) (fun r k' =>
    if (i.(i_size) <? off) || (MAXFILE * BSIZE <? off + n) then r = -1 /\ k' = k
    else exists i' bs', 0 <= r <= n /\ (r < n -> r = 0 \/ (off + r) mod BSIZE = 0) /\ fs_file k' i' bs' /\ moved k k' i' /\
      file_written (view k) i (view k') i' off (take (Z.to_nat r) l) /\
      (r < n -> forall m, 0 <= m < sb.(sb_size) -> used sb (view k') m = true) /\
      Z.of_nat (wt bs' i') <= Z.of_nat (wt bs i) + nblocks off n).
Proof using DOK G Hinum Ho.
  intros Hsrc F Hi Hoff H32 Hw n. unfold writei, geti. rewrite bind_gets, (list_lookup_total_correct _ _ _ (ff_inode _ _ _ _ _ _ _ _ _ _ _ F)).
  rewrite u32_small, (proj2 (Z.ltb_ge (off + n) off)), orb_false_r by lia.
  destruct (Z.ltb_spec (i_size i) off) as [|Hs]; [done|]. cbn [orb]. destruct (Z.ltb_spec (MAXFILE * BSIZE) (off + n)) as [|Hmax]; [done|].
  step_by (writei_loop_tx (Z.to_nat n) k i bs src l off n 0); [done|done|done|done|lia|lia|done|].
  intros r k1 (w & i1 & bs1 & -> & Hwl & Hst & Hwr & W1). pose proof Hwr as (F1 & M1 & G1 & B1 & U1). cbn [fst snd].
  rewrite bind_gets, (list_lookup_total_correct _ _ _ (ff_inode _ _ _ _ _ _ _ _ _ _ _ F1)).
  apply (set_size_tx k1 i1 bs1 (off + w)); [done|]. intros k2 F2 M2 V2.
  assert (i_size i1 = i_size i) as Es by (by rewrite (gr_inode _ _ _ _ _ _ _ G1)). rewrite Es in *.
  pose proof (length_weight sb ib bs1 i1 (it_nodup _ _ _ _ _ _ _ (ff_tx _ _ _ _ _ _ _ _ _ _ _ F1))) as Hl1.
  step_by (iupdate_tx k2 (set_size (Z.max (i_size i) (off + w)) i1) bs1); [done|lia|].
  intros [] k3 (F3 & S3 & V3). cbn [runs mret M_ret]. rewrite Z.add_0_l.
  assert (file_written (view k) i (view k3) (set_size (Z.max (i_size i) (off + w)) i1) off (take (Z.to_nat w) l)) as Hfw.
  { apply (file_written_intro k i bs off l w k1 i1 bs1); [done|lia|done|done|done|]. intros m. by rewrite V3, !V2. }
  eexists _, _. split; [done|]. split; [exact Hst|]. split; [exact F3|]. split.
  - eapply moved_trans; [exact M1|]. eapply moved_trans; [exact M2|]. by apply moved_same, F2.
  - split; [exact Hfw|]. split.
    + intros Hlt m Hm. apply (fw_bitmap _ _ _ _ _ _ Hfw m Hm). specialize (U1 Hlt m Hm).
      destruct (used sb (view k) m) eqn:E; [by left|]. right. pose proof (gr_new _ _ _ _ _ _ _ G1 m Hm U1 E) as [J0 [J|(bn & Jb & J)]]; (split; [done|]); [by left|].
      right. exists bn. split; [done|]. rewrite J. destruct (file_ok_frame (view k1) (view k3) i1) as (_ & _ & E2 & _); [|apply F1|].
      * intros x Hx. pose proof (IBLOCK_range sb ds G inum Hinum). rewrite V3, decide_False, V2 by lia. done.
      * symmetry. by apply E2.
    + rewrite weight_add_in by (left; apply ib_meta). exact W1.
Qed.
End file.
