(* ===== verification/FsTrunc.v ===== *)
(** * Truncation

    itrunc() frees the blocks of a file, those of the block map and the indirect block
    itself: afterwards the bitmap has lost exactly the blocks the file owned. *)

From Stdlib Require Import ZArith Lia.
From stdpp Require Import base list numbers strings gmap.
From S2P Require Import Prelude Types Mem Str Layout Kalloc Vm State Spinlock Printf Proc ProcSpec Sleeplock Seq Bio BioSpec Log LogSpec FsTx Fs FsInode FsBlocks FsMap FsBmap FsFile.
Open Scope Z_scope.

(** The bitmap block of a block, with the bit of the block cleared. *)
Definition clear (a : Z) (data : block) : block :=
  upd data (a mod BPB / 8) (u8 (Z.land (data (a mod BPB / 8)) (Z.lnot (Z.shiftl 1 (a mod BPB mod 8))))).

Lemma land_lnot_bit x n m : 0 <= n -> 0 <= m < 8 -> Z.testbit (u8 (Z.land x (Z.lnot (Z.shiftl 1 n)))) m = if m =? n then false else Z.testbit x m.
Proof.
  intros Hn Hm. unfold u8. rewrite Z.mod_pow2_bits_low, Z.land_spec, Z.lnot_spec, Z.shiftl_spec by lia.
  destruct (Z.eqb_spec m n) as [->|Hne]; [by rewrite Z.sub_diag, andb_false_r|].
  assert (Z.testbit 1 (m - n) = false) as ->; [|by rewrite andb_true_r].
  destruct (Z.lt_ge_cases m n); [by apply Z.testbit_neg_r; lia|]. apply Z.bits_above_log2; simpl; lia.
Qed.

Section trunc.
Context (me : nat) (pid : Z) (d : Z) `{L : KernelLayout} `{W : Wakes} `{D : Disk} `{DOK : !DiskOK} (o : bool).
Context (sb : superblock) (ds : Z) (G : geom sb ds) (ip : nat) (inum : Z) (Hinum : 0 <= inum < sb.(sb_ninodes)) (Ho : o = true).
Abbreviation view := (view d).
Abbreviation in_tx := (in_tx me pid d o).
Abbreviation ib := (IBLOCK inum sb).
Abbreviation slot := (inum mod IPB * DINODE_SIZE).
Abbreviation fs_file := (fs_file me pid d o sb ds ip inum).
Abbreviation moved := (moved ip).

Lemma used_clear V V' a b :
  0 <= a < sb.(sb_size) -> 0 <= b < sb.(sb_size) -> V' (BBLOCK a sb) = clear a (V (BBLOCK a sb)) ->
  (forall m, ds > m -> m <> BBLOCK a sb -> V' m = V m) -> used sb V' b = if b =? a then false else used sb V b.
Proof using G.
  intros Ha Hb E Hne. apply (used_upd sb ds G V V' a b _ false Ha Hb E Hne). intros n Hn. apply land_lnot_bit; [|done]. apply Z.mod_pos_bound. lia.
Qed.

(** [k'] is [k] with the blocks [P] freed. *)
Record freed (k k' : kernel) (bs bs' : list Z) (hs : list (Z * nat)) (P : Z -> Prop) : Prop := {
  fr_tx : in_tx k' bs' hs;
  fr_sb : k'.(k_sb) = sb;
  fr_used : forall b, 0 <= b < sb.(sb_size) -> used sb (view k') b = true <-> used sb (view k) b = true /\ ~ P b;
  fr_view : forall m, m < sb.(sb_bmapstart) \/ ds <= m -> view k' m = view k m;
  fr_weight : forall i, weight sb ib bs' i = weight sb ib bs i;
  fr_above : above sb bs'
}.

Lemma bfree_tx k k' bs bs1 hs P a i :
  freed k k' bs bs1 hs P -> ds <= a < sb.(sb_size) -> used sb (view k) a = true -> ~ P a -> (forall n b, (n, b) ∈ hs -> ds <= n) ->
  (weight sb ib bs i + length hs <= 28)%nat ->
  runs (bfree d a k') (fun _ k2 => same k' k2 /\ exists bs2, freed k k2 bs bs2 hs (fun b => P b \/ b = a)).
Proof using DOK G Hinum Ho.
  intros [I Esb Hu Hv Hw Hab] Ha Hua HP Hhs Hlen. pose proof (g_data _ _ G) as Hds. pose proof (g_size _ _ G). pose proof (BBLOCK_range sb ds G a ltac:(lia)) as Hbb.
  pose proof (bmapstart_pos sb ds G). pose proof (length_weight sb ib bs1 i (it_nodup _ _ _ _ _ _ _ I)) as Hl1. rewrite Hw in Hl1. pose proof (inodes_first sb ds G).
  unfold bfree. rewrite bind_gets, Esb. cbv zeta.
  apply (tx_bread me pid d o k' bs1 hs); [done| |change NBUF with 30%nat; lia|].
  { intros ([n b] & E & Hb)%list_elem_of_fmap. cbn in E. subst n. pose proof (Hhs _ _ Hb). lia. }
  intros bp k1 I1 S1 V1. apply (tx_getb me pid d o k1 bs1 ((BBLOCK a sb, bp) :: hs) (BBLOCK a sb) bp); [done|by left|]. intros x Hx _.
  rewrite Hx, V1, land_bit by (apply Z.mod_pos_bound; lia). fold (used sb (view k') a). rewrite (proj2 (Hu a ltac:(lia)) (conj Hua HP)). cbn [negb].
  apply (tx_write me pid d o k1 bs1 ((BBLOCK a sb, bp) :: hs) (BBLOCK a sb) bp _ (clear a (view k1 (BBLOCK a sb)))); [done|done|by left|lia|change LOGBLOCKS with 30; lia|by intros y ->|].
  intros k2 I2 S2 V2. apply runs_last, (tx_brelse me pid d o k2 (add (BBLOCK a sb) bs1) hs (BBLOCK a sb) bp); [done|]. intros k3 I3 S3 V3. cbn.
  assert (same k' k3) as S by eauto using same_others_trans. split; [done|]. exists (add (BBLOCK a sb) bs1).
  assert (forall m, view k3 m = if decide (m = BBLOCK a sb) then clear a (view k' (BBLOCK a sb)) else view k' m) as V by (intros m; rewrite V3, V2, !V1; done). split.
  - done.
  - by rewrite (same_sb _ _ S).
  - intros b Hb. rewrite (used_clear (view k') (view k3) a b); [|lia|done|by rewrite V, decide_True|intros m Hm Hne; by rewrite V, decide_False].
    destruct (Z.eqb_spec b a) as [->|Hne]; [split; [done|intros [_ Hn]; by destruct Hn; right]|]. rewrite Hu by done. tauto.
  - intros m Hm. rewrite V, decide_False by lia. by apply Hv.
  - intros j. rewrite weight_add_in; [apply Hw|]. left. apply (BBLOCK_meta sb ds G). lia.
  - apply above_add; [lia|done].
Qed.

Lemma freed_weaken k k' bs bs' hs P Q : freed k k' bs bs' hs P -> (forall b, P b <-> Q b) -> freed k k' bs bs' hs Q.
Proof. intros [] HPQ. split; try done. intros b Hb. rewrite fr_used0 by done. rewrite HPQ. done. Qed.

Lemma freed_view k k1 k2 bs bs' hs hs' P :
  freed k k1 bs bs' hs P -> in_tx k2 bs' hs' -> k2.(k_sb) = k1.(k_sb) -> (forall m, view k2 m = view k1 m) -> freed k k2 bs bs' hs' P.
Proof.
  intros [] I Es V. split; [done|congruence| |intros m Hm; rewrite V; by apply fr_view0|done|done].
  intros b Hb. rewrite <- fr_used0 by done. unfold used. by rewrite V.
Qed.

(** *** The direct blocks *)

(** The inode with the first [n] entries of the map cleared. *)
Definition cleared (n : nat) (i : inode) : inode := set_addrs (replicate n 0 ++ drop n i.(i_addrs)) i.

Lemma cleared_next n i a : i.(i_addrs) !! n = Some a ->
  cleared n i = set_addrs (replicate n 0 ++ a :: drop (S n) i.(i_addrs)) i /\
  set_addrs (<[n := 0]> (cleared n i).(i_addrs)) (cleared n i) = cleared (S n) i.
Proof.
  intros Ha. assert (drop n (i_addrs i) = a :: drop (S n) (i_addrs i)) as E by (by apply drop_S).
  unfold cleared. rewrite E. split; [done|]. cbn [i_addrs set_addrs]. change (set_addrs ?x (set_addrs ?y i)) with (set_addrs x i). f_equal.
  rewrite insert_app_r_alt by (by rewrite length_replicate). rewrite length_replicate, Nat.sub_diag. cbn [insert list_insert].
  rewrite replicate_S_end, <- app_assoc. done.
Qed.

(** Blocks of the first [n] entries of the map. *)
Definition mapped (V : Z -> block) (i : inode) (n : Z) (b : Z) : Prop := b <> 0 /\ exists bn, 0 <= bn < n /\ b = entry V i bn.

Lemma mapped_next V i n b : 0 <= n -> mapped V i (n + 1) b <-> mapped V i n b \/ (b <> 0 /\ b = entry V i n).
Proof.
  intros Hn. unfold mapped. split.
  - intros (H0 & bn & Hb & E). destruct (Z.eq_dec bn n) as [->|]; [by right|left]. split; [done|]. exists bn. split; [lia|done].
  - intros [(H0 & bn & Hb & E)|[H0 E]]; (split; [done|]); [exists bn; split; [lia|done]|exists n; split; [lia|done]].
Qed.

Lemma mapped_fresh V i n : file_ok sb ds V i -> 0 <= n < MAXFILE -> entry V i n <> 0 -> ~ mapped V i n (entry V i n).
Proof. intros F Hn H0 (_ & bn & Hb & E). pose proof (fo_inj _ _ _ _ F n bn Hn ltac:(lia) H0 E). lia. Qed.

(** [l] as a for loop from 0. *)
Lemma seqZ_split n pre x rest : seqZ 0 n = pre ++ x :: rest -> x = Z.of_nat (length pre) /\ x < n.
Proof.
  intros E. assert (seqZ 0 n !! length pre = Some x) as H by (rewrite E, lookup_app_r, Nat.sub_diag by done; done).
  apply lookup_seqZ in H. lia.
Qed.

Lemma direct_tx k i bs : fs_file k i bs -> (weight sb ib bs i <= 28)%nat ->
  runs (foreach (seqZ 0 NDIRECT) (fun n =>
    i ← geti ip;
    let a := i.(i_addrs) !!! Z.to_nat n in
    if a =? 0 then mret tt
    else
      bfree i.(i_dev) a ;;
      modi ip (fun i => set_addrs (<[Z.to_nat n := 0]> i.(i_addrs)) i)) k)
    (fun _ k' => exists bs', freed k k' bs bs' [] (mapped (view k) i NDIRECT) /\ moved k k' (cleared (Z.to_nat NDIRECT) i) /\
       k'.(k_itable) !! ip = Some (cleared (Z.to_nat NDIRECT) i)).
Proof using DOK G Hinum Ho.
  intros F Hw. pose proof (ff_ok _ _ _ _ _ _ _ _ _ _ _ F) as Hok. pose proof (fo_len _ _ _ _ Hok) as Hlen.
  eapply runs_mono; [apply (runs_foreach _ _ (fun pre k' => exists bs', freed k k' bs bs' [] (mapped (view k) i (Z.of_nat (length pre))) /\
    moved k k' (cleared (length pre) i) /\ k'.(k_itable) !! ip = Some (cleared (length pre) i)))|].
  - exists bs. cbn [length]. assert (cleared 0 i = i) as -> by (unfold cleared; rewrite drop_0; by destruct i). split; [|split; [apply moved_same; [apply same_others_refl|apply F]|apply F]].
    split; [apply F|apply F| |done|done|apply F]. intros b Hb. split; [|by intros [? _]]. intros Hu. split; [done|]. intros (_ & bn & Hbn & _). cbn in Hbn. lia.
  - intros pre n rest k1 El (bs1 & Fr & M & Hi). apply seqZ_split in El as [-> Hn]. change NDIRECT with 12 in Hn.
    rewrite length_app, Nat.add_1_r. destruct (lookup_lt_is_Some_2 (i_addrs i) (length pre) ltac:(lia)) as [a Ha].
    destruct (cleared_next (length pre) i a Ha) as [Ec Es]. unfold geti. rewrite bind_gets, (list_lookup_total_correct _ _ _ Hi). cbv zeta. rewrite Nat2Z.id.
    assert ((cleared (length pre) i).(i_addrs) !!! length pre = a) as ->.
    { rewrite Ec. cbn [i_addrs set_addrs]. apply list_lookup_total_correct. rewrite lookup_app_r by (by rewrite length_replicate). by rewrite length_replicate, Nat.sub_diag. }
    assert (entry (view k) i (Z.of_nat (length pre)) = a) as Ee.
    { unfold entry. change NDIRECT with 12. rewrite (proj2 (Z.ltb_lt _ _)), Nat2Z.id by lia. by apply list_lookup_total_correct. }
    replace (Z.of_nat (S (length pre))) with (Z.of_nat (length pre) + 1) by lia.
    destruct (Z.eqb_spec a 0) as [Ea|Ea].
    + assert (cleared (S (length pre)) i = cleared (length pre) i) as -> by (rewrite Ec, Ea; unfold cleared; by rewrite replicate_S_end, <- app_assoc).
      cbn [runs mret M_ret]. exists bs1.
      split; [|done]. eapply freed_weaken; [exact Fr|]. intros b. rewrite mapped_next by lia. rewrite Ee, Ea. tauto.
    + change (i_dev (cleared (length pre) i)) with (i_dev i). rewrite (ff_dev _ _ _ _ _ _ _ _ _ _ _ F).
      assert (in_file (Z.of_nat (length pre))) as Hb by (change MAXFILE with 268; lia).
      destruct (fo_entry _ _ _ _ Hok _ Hb ltac:(by rewrite Ee)) as [[Hd1 Hd2] _]. rewrite Ee in Hd1, Hd2.
      step_by (bfree_tx k k1 bs bs1 [] (mapped (view k) i (Z.of_nat (length pre))) a i Fr Hd1 Hd2).
      * rewrite <- Ee. apply mapped_fresh; [done|done|by rewrite Ee].
      * by intros ? ? ?%not_elem_of_nil.
      * cbn. lia.
      * intros [] k2 (S2 & bs2 & Fr2). rewrite <- (same_itable _ _ S2) in Hi.
        eapply runs_mono; [apply (modi_tx me pid d o ip k2 bs2 [] _ _ (fr_tx _ _ _ _ _ _ Fr2) Hi)|]. intros [] k3 (I3 & M3 & Hi3 & V3). rewrite Es in M3, Hi3.
        exists bs2. split; [|split; [|done]].
        -- apply (freed_weaken k k3 bs bs2 [] (fun b => mapped (view k) i (Z.of_nat (length pre)) b \/ b = a)); [apply (freed_view k k2 k3 bs bs2 []); [done|done|exact (moved_sb _ _ _ _ M3)|done]|].
           intros b. rewrite mapped_next, Ee by lia. split; [intros [?| ->]; [by left|by right]|intros [?|[_ ?]]; [by left|by right]].
        -- eapply moved_trans; [exact M|]. eapply moved_trans; [apply moved_same; [exact S2|by rewrite (same_itable _ _ S2) in Hi]|exact M3].
  - intros [] k' H. exact H.
Qed.

(** *** The indirect block *)

Lemma indirect_loop_tx k k1 i bs bs1 bp :
  file_ok sb ds (view k) i -> ind i <> 0 -> freed k k1 bs bs1 [(ind i, bp)] (mapped (view k) i NDIRECT) -> (weight sb ib bs i <= 27)%nat ->
  runs (foreach (seqZ 0 NINDIRECT) (fun j =>
    x ← getb bp;
    let aj := load 4 x.(b_data) (4 * j) in
    if aj =? 0 then mret tt else bfree d aj) k1)
    (fun _ k' => exists bs', freed k k' bs bs' [(ind i, bp)] (mapped (view k) i MAXFILE) /\ same k1 k').
Proof using DOK G Hinum Ho.
  intros Hok Hind Fr0 Hw. destruct (fo_ind _ _ _ _ Hok Hind) as [Hi1 Hi2]. change MAXFILE with (NDIRECT + NINDIRECT).
  eapply runs_mono; [apply (runs_foreach _ _ (fun pre k' => exists bs', freed k k' bs bs' [(ind i, bp)] (mapped (view k) i (NDIRECT + Z.of_nat (length pre))) /\ same k1 k'))|].
  - exists bs1. split; [done|apply same_others_refl].
  - intros pre n rest k' El (bs' & Fr & Sm). apply seqZ_split in El as [-> Hn]. change NINDIRECT with 256 in Hn.
    rewrite length_app, Nat.add_1_r. replace (NDIRECT + Z.of_nat (S (length pre))) with (NDIRECT + Z.of_nat (length pre) + 1) by lia.
    set (bn := NDIRECT + Z.of_nat (length pre)) in *. assert (in_file bn) as Hb by (unfold bn; change MAXFILE with 268; change NDIRECT with 12; lia).
    apply (tx_getb me pid d o k' bs' [(ind i, bp)] (ind i) bp); [apply Fr|by left|]. intros x Hx _. cbv zeta.
    assert (load 4 (b_data x) (4 * Z.of_nat (length pre)) = entry (view k) i bn) as ->.
    { rewrite Hx, (fr_view _ _ _ _ _ _ Fr) by lia. unfold entry. rewrite (proj2 (Z.ltb_ge bn NDIRECT)), (proj2 (Z.eqb_neq (ind i) 0)) by (done || unfold bn; lia). f_equal. unfold bn. lia. }
    destruct (Z.eqb_spec (entry (view k) i bn) 0) as [E0|E0].
    + cbn [runs mret M_ret]. exists bs'. split; [|done]. eapply freed_weaken; [exact Fr|]. intros b. rewrite mapped_next by lia. rewrite E0. tauto.
    + destruct (fo_entry _ _ _ _ Hok bn Hb E0) as [[Hd1 Hd2] _].
      eapply runs_mono; [apply (bfree_tx k k' bs bs' [(ind i, bp)] (mapped (view k) i bn) (entry (view k) i bn) i Fr Hd1 Hd2)|].
      * by apply mapped_fresh.
      * intros m b [= -> ->]%list_elem_of_singleton. lia.
      * cbn. lia.
      * intros [] k2 (S2 & bs2 & Fr2). exists bs2. split; [|by eapply same_others_trans]. eapply freed_weaken; [exact Fr2|]. intros b. rewrite mapped_next by lia.
        split; [intros [?| ->]; [by left|by right]|intros [?|[_ ?]]; [by left|by right]].
  - intros [] k' H. rewrite length_seqZ in H. exact H.
Qed.

Lemma mapped_owns V i b : file_ok sb ds V i -> owns V i b <-> mapped V i MAXFILE b \/ (b <> 0 /\ b = ind i).
Proof. intros F. unfold owns, mapped. split; [intros [H0 [->|H]]; [by right|by left]|intros [[H0 H]|[H0 ->]]; (split; [done|]); [by right|by left]]. Qed.
Lemma mapped_direct V i b : ind i = 0 -> mapped V i NDIRECT b <-> mapped V i MAXFILE b.
Proof.
  intros E. unfold mapped. split; intros (H0 & bn & Hb & ->); (split; [done|]); exists bn; (split; [|done]); [change MAXFILE with 268; change NDIRECT with 12 in Hb; lia|].
  split; [lia|]. destruct (Z.lt_ge_cases bn NDIRECT) as [|Hge]; [done|]. destruct H0. unfold entry. rewrite (proj2 (Z.ltb_ge bn NDIRECT)), E by done. done.
Qed.

(** What itrunc() makes of the file, before the inode is written. *)
Lemma indirect_tx k k1 i bs bs1 :
  fs_file k i bs -> freed k k1 bs bs1 [] (mapped (view k) i NDIRECT) -> moved k k1 (cleared 12 i) -> k1.(k_itable) !! ip = Some (cleared 12 i) -> (weight sb ib bs i <= 27)%nat ->
  runs ((i ← geti ip;
    let a := i.(i_addrs) !!! Z.to_nat NDIRECT in
    if a =? 0 then mret tt
    else
      bp ← bread i.(i_dev) a;
      foreach (seqZ 0 NINDIRECT) (fun j =>
        x ← getb bp;
        let aj := load 4 x.(b_data) (4 * j) in
        if aj =? 0 then mret tt else bfree i.(i_dev) aj) ;;
      brelse bp ;;
      bfree i.(i_dev) a ;;
      modi ip (fun i => set_addrs (<[Z.to_nat NDIRECT := 0]> i.(i_addrs)) i)) k1)
    (fun _ k' => exists bs', freed k k' bs bs' [] (owns (view k) i) /\ moved k k' (cleared 13 i) /\ k'.(k_itable) !! ip = Some (cleared 13 i)).
Proof using DOK G Hinum Ho.
  intros F Fr M Hi Hw. pose proof (ff_ok _ _ _ _ _ _ _ _ _ _ _ F) as Hok. pose proof (fo_len _ _ _ _ Hok) as Hlen.
  destruct (lookup_lt_is_Some_2 (i_addrs i) 12 ltac:(lia)) as [a Ha]. assert (a = ind i) as -> by (symmetry; by apply list_lookup_total_correct).
  destruct (cleared_next 12 i (ind i) Ha) as [Ec Es]. unfold geti. rewrite bind_gets, (list_lookup_total_correct _ _ _ Hi). cbv zeta. change (Z.to_nat NDIRECT) with 12%nat.
  assert ((cleared 12 i).(i_addrs) !!! 12%nat = ind i) as -> by (rewrite Ec; reflexivity).
  destruct (Z.eqb_spec (ind i) 0) as [E0|E0].
  - cbn [runs mret M_ret]. assert (cleared 13 i = cleared 12 i) as -> by (rewrite Ec, E0; reflexivity). exists bs1. split; [|done].
    eapply freed_weaken; [exact Fr|]. intros b. rewrite (mapped_owns _ _ _ Hok), (mapped_direct _ _ _ E0), E0. tauto.
  - change (i_dev (cleared 12 i)) with (i_dev i). rewrite (ff_dev _ _ _ _ _ _ _ _ _ _ _ F). destruct (fo_ind _ _ _ _ Hok E0) as [Hd1 Hd2].
    pose proof (length_weight sb ib bs1 i (it_nodup _ _ _ _ _ _ _ (fr_tx _ _ _ _ _ _ Fr))) as Hl1. rewrite (fr_weight _ _ _ _ _ _ Fr) in Hl1.
    apply (tx_bread me pid d o k1 bs1 []); [apply Fr|apply not_elem_of_nil|change NBUF with 30%nat; cbn; lia|]. intros bp k2 I2 S2 V2.
    assert (freed k k2 bs bs1 [(ind i, bp)] (mapped (view k) i NDIRECT)) as Fr2 by (by apply (freed_view k k1 k2 bs bs1 [] _ _ Fr I2 (same_sb _ _ S2))).
    step_by (indirect_loop_tx k k2 i bs bs1 bp Hok E0 Fr2 Hw). intros [] k3 (bs3 & Fr3 & S3).
    apply (tx_brelse me pid d o k3 bs3 [] (ind i) bp); [apply Fr3|]. intros k4 I4 S4 V4.
    assert (freed k k4 bs bs3 [] (mapped (view k) i MAXFILE)) as Fr4 by (by apply (freed_view k k3 k4 bs bs3 _ [] _ Fr3 I4 (same_sb _ _ S4))).
    step_by (bfree_tx k k4 bs bs3 [] (mapped (view k) i MAXFILE) (ind i) i Fr4 Hd1 Hd2).
    + intros (_ & bn & Hb & E). destruct (fo_entry _ _ _ _ Hok bn Hb ltac:(by rewrite <- E)) as [_ Hne]. by destruct Hne.
    + by intros ? ? ?%not_elem_of_nil.
    + cbn. lia.
    + intros [] k5 (S5 & bs5 & Fr5). assert (same k1 k5) as S by eauto using same_others_trans. pose proof Hi as Hi5. rewrite <- (same_itable _ _ S) in Hi5.
      eapply runs_mono; [apply (modi_tx me pid d o ip k5 bs5 [] _ _ (fr_tx _ _ _ _ _ _ Fr5) Hi5)|]. intros [] k6 (I6 & M6 & Hi6 & V6). rewrite Es in M6, Hi6. exists bs5. split; [|split; [|done]].
      * apply (freed_weaken k k6 bs bs5 [] (fun b => mapped (view k) i MAXFILE b \/ b = ind i)); [apply (freed_view k k5 k6 bs bs5 []); [done|done|exact (moved_sb _ _ _ _ M6)|done]|].
        intros b. rewrite (mapped_owns _ _ _ Hok). split; [intros [?| ->]; [by left|by right]|intros [?|[_ ?]]; [by left|by right]].
      * eapply moved_trans; [exact M|]. eapply moved_trans; [apply moved_same; [exact S|done]|exact M6].
Qed.

(** *** The whole of itrunc() *)

Definition emptied (i : inode) : inode := set_size 0 (cleared 13 i).

Lemma emptied_addrs V i : file_ok sb ds V i -> (emptied i).(i_addrs) = replicate 13 0.
Proof. intros F. unfold emptied, cleared. cbn [i_addrs set_size set_addrs]. rewrite drop_ge, app_nil_r; [done|]. rewrite (fo_len _ _ _ _ F). done. Qed.
Lemma empty_entry V i bn : i.(i_addrs) = replicate 13 0 -> 0 <= bn -> entry V i bn = 0 /\ ind i = 0.
Proof.
  intros E Hb. assert (ind i = 0) as E0 by (unfold ind; rewrite E; done). split; [|done]. unfold entry. rewrite E0, E.
  destruct (Z.ltb_spec bn NDIRECT) as [Hlt|]; [|done]. change NDIRECT with 12 in Hlt. rewrite lookup_total_replicate_2 by lia. done.
Qed.
Lemma empty_ok V i : i.(i_addrs) = replicate 13 0 -> file_ok sb ds V i.
Proof.
  intros E. split; [by rewrite E| | |].
  - intros H. by destruct H, (empty_entry V i 0 E ltac:(lia)).
  - intros bn Hb H. by destruct H, (empty_entry V i bn E ltac:(lia)).
  - intros bn bn' Hb _ H. by destruct H, (empty_entry V i bn E ltac:(lia)).
Qed.

Record truncated (V : Z -> block) (i : inode) (V' : Z -> block) : Prop := {
  tr_used : forall b, 0 <= b < sb.(sb_size) -> used sb V' b = true <-> used sb V b = true /\ ~ owns V i b;
  tr_data : forall m, ds <= m -> V' m = V m;
  tr_disk : forall j, read_dinode (V' ib) slot j = with_disk (emptied i) j;
  tr_slots : forall n j, 0 <= n < sb.(sb_ninodes) -> n <> inum ->
    read_dinode (V' (IBLOCK n sb)) (n mod IPB * DINODE_SIZE) j = read_dinode (V (IBLOCK n sb)) (n mod IPB * DINODE_SIZE) j
}.

Lemma runs_bind_assoc {A B C} (c : M kernel A) (f : A -> M kernel B) (g : B -> M kernel C) k Q :
  runs (((c ≫= f) ≫= g) k) Q -> runs ((c ≫= fun x => f x ≫= g) k) Q.
Proof. unfold mbind, M_bind. by destruct (c k). Qed.

Lemma itrunc_tx k i bs : fs_file k i bs -> inode_ok i -> (weight sb ib bs i <= 27)%nat ->
  runs (itrunc ip k) (fun _ k' => exists bs', fs_file k' (emptied i) bs' /\ moved k k' (emptied i) /\ truncated (view k) i (view k') /\ (length bs' <= weight sb ib bs i)%nat).
Proof using DOK G Hinum Ho.
  intros F Hio Hw. pose proof (ff_ok _ _ _ _ _ _ _ _ _ _ _ F) as Hok. pose proof (emptied_addrs _ _ Hok) as Ea. pose proof (g_data _ _ G) as Hds. pose proof (IBLOCK_range sb ds G inum Hinum) as Hib.
  unfold itrunc. step_by (direct_tx k i bs F); [lia|]. change (Z.to_nat NDIRECT) with 12%nat. intros [] k1 (bs1 & Fr1 & M1 & Hi1).
  apply runs_bind_assoc. step_by (indirect_tx k k1 i bs bs1 F Fr1 M1 Hi1 Hw). intros [] k2 (bs2 & Fr2 & M2 & Hi2).
  step_by (modi_tx me pid d o ip k2 bs2 [] _ (set_size 0) (fr_tx _ _ _ _ _ _ Fr2) Hi2). intros [] k3 (I3 & M3 & Hi3 & V3). fold (emptied i) in M3, Hi3.
  pose proof (freed_view k k2 k3 bs bs2 [] [] _ Fr2 I3 (moved_sb _ _ _ _ M3) V3) as Fr3.
  assert (forall b, 0 <= b < ds -> ~ owns (view k) i b) as Hno by (intros b Hb Hb'; destruct (owned_data sb ds _ _ _ Hok Hb'); lia).
  assert (fs_file k3 (emptied i) bs2) as F3.
  { split; [done|apply Fr3| |done|apply F|apply F|by apply empty_ok|apply Fr3]. intros m Hm. apply (fr_used _ _ _ _ _ _ Fr3); [lia|]. split; [by apply F|by apply Hno]. }
  pose proof (length_weight sb ib bs2 i (it_nodup _ _ _ _ _ _ _ I3)) as Hl2. rewrite (fr_weight _ _ _ _ _ _ Fr2) in Hl2.
  eapply runs_mono; [apply (iupdate_tx me pid d o sb ds G ip inum Hinum Ho k3 (emptied i) bs2 F3); lia|]. intros [] k4 (F4 & S4 & V4).
  exists (add ib bs2). split; [done|]. split; [|split; [split|]].
  - eapply moved_trans; [exact M2|]. eapply moved_trans; [exact M3|]. by apply moved_same, Hi3.
  - intros b Hb. rewrite <- (fr_used _ _ _ _ _ _ Fr3) by done. pose proof (BBLOCK_range sb ds G b Hb). unfold used. rewrite V4, decide_False by lia. done.
  - intros m Hm. pose proof (inodes_first sb ds G). rewrite V4, decide_False by lia. apply (fr_view _ _ _ _ _ _ Fr3). by right.
  - intros j. rewrite V4, decide_True by done. apply read_write_dinode. apply (file_fits sb ds G (view k3)); [by apply empty_ok|].
    destruct Hio as (J1 & J2 & J3 & J4 & _). split; [exact J1|]. split; [exact J2|]. split; [exact J3|]. split; [exact J4|]. by split.
  - intros n j Hn Hne. pose proof (IBLOCK_range sb ds G n Hn). rewrite V4. case_decide as E.
    + rewrite read_write_dinode_ne; [|by rewrite Ea|by apply (slot_apart sb ds G inum)]. rewrite <- E. f_equal. apply (fr_view _ _ _ _ _ _ Fr3). left. lia.
    + f_equal. apply (fr_view _ _ _ _ _ _ Fr3). left. lia.
  - pose proof (length_weight sb ib (add ib bs2) i (it_nodup _ _ _ _ _ _ _ (ff_tx _ _ _ _ _ _ _ _ _ _ _ F4))) as Hl4.
    rewrite weight_add_in in Hl4 by (left; apply ib_meta). by rewrite (fr_weight _ _ _ _ _ _ Fr2) in Hl4.
Qed.
End trunc.
