(* ===== verification/FsDirSpec.v ===== *)
(** * Directories as maps

    A directory is a file of 16-byte entries.  [dlookup] is the map from names to inode
    numbers its contents stand for; names are compared as the 14 bytes strncpy() would
    store.  This file has no kernel state: it is about the bytes. *)

From Stdlib Require Import ZArith Lia.
From stdpp Require Import base list numbers strings gmap.
From S2P Require Import Prelude Types Mem Str Layout Kalloc Vm State Bio Log Fs FsSource FsFile.
Open Scope Z_scope.

(** ** Names *)

(** The first [n] bytes of a name, with NULs from its end on. *)
Fixpoint pad (n : nat) (l : list Z) : list Z :=
  match n with
  | O => []
  | S n' => match l with
            | [] => replicate n 0
            | c :: l' => if c =? 0 then replicate n 0 else c :: pad n' l'
            end
  end.

Lemma length_pad n l : length (pad n l) = n.
Proof. revert l. induction n as [|n IH]; intros [|c l]; cbn; [done|done|by rewrite length_replicate|]. destruct (c =? 0); cbn; [by rewrite length_replicate|by rewrite IH]. Qed.

(** Bytes behind the end of a list count as 0. *)
Lemma pad_ext n l l' : (forall j, (j < n)%nat -> nth j l 0 = nth j l' 0) -> pad n l = pad n l'.
Proof.
  revert l l'. induction n as [|n IH]; intros l l' H; [done|]. pose proof (H 0%nat ltac:(lia)) as H0.
  assert (forall a b, l = a -> l' = b -> pad n (tl l) = pad n (tl l')) as Ht.
  { intros _ _ _ _. apply IH. intros j Hj. pose proof (H (S j) ltac:(lia)) as Hs. destruct l, l'; cbn in *; [done|by destruct j|by destruct j|done]. }
  specialize (Ht _ _ eq_refl eq_refl). destruct l as [|c l], l' as [|c' l']; cbn in *; subst; try done; destruct (_ =? 0); congruence.
Qed.

Lemma nth_pad n l j : (j < n)%nat ->
  ((forall i, (i < j)%nat -> nth i l 0 ≠ 0) -> nth j (pad n l) 0 = nth j l 0) /\
  ((exists i, (i < j)%nat /\ nth i l 0 = 0) -> nth j (pad n l) 0 = 0).
Proof.
  revert l j. induction n as [|n IH]; intros l j Hj; [lia|]. cbn [pad].
  assert (forall m i, nth i (replicate m 0) 0 = 0) as Hz by (induction m; intros [|i]; cbn; done).
  destruct l as [|c l]; [by split; intros _; [rewrite (Hz (S n)); destruct j|apply (Hz (S n))]|].
  destruct (Z.eqb_spec c 0) as [->|Hc].
  - rewrite (Hz (S n)). split; [|done]. intros H. destruct j; [done|]. exfalso. by apply (H 0%nat); [lia|].
  - destruct j as [|j]; cbn; [by split; [|intros (i & ? & _); lia]|]. destruct (IH l j ltac:(lia)) as [H1 H2]. split.
    + intros H. apply H1. intros i Hi. apply (H (S i)). lia.
    + intros (i & Hi & E). destruct i as [|i]; [done|]. apply H2. exists i. split; [lia|done].
Qed.

Lemma strncmp_pad n m p q : strncmp m p q n = 0 <-> pad n (read_bytes m p (Z.of_nat n)) = pad n (read_bytes m q (Z.of_nat n)).
Proof.
  revert p q. induction n as [|n IH]; intros p q; [done|]. cbn [strncmp]. rewrite !read_bytes_cons. cbn [pad].
  destruct (Z.eqb_spec (m p) 0) as [Hp|Hp]; cbn [negb andb].
  - destruct (Z.eqb_spec (m q) 0) as [Hq|Hq]; [by rewrite Hp, Hq|]. split; [lia|]. cbn. intros E. congruence.
  - destruct (Z.eqb_spec (m p) (m q)) as [He|He].
    + rewrite <- He, (proj2 (Z.eqb_neq _ _) Hp), IH. split; [congruence|]. intros E. congruence.
    + split; [lia|]. destruct (Z.eqb_spec (m q) 0); cbn; intros E; congruence.
Qed.

(** strncpy() stores the padded name. *)
Lemma strncpy_pad n m s t : (s + Z.of_nat n <= t \/ t + Z.of_nat n <= s) ->
  read_bytes (strncpy m s t n) s (Z.of_nat n) = pad n (read_bytes m t (Z.of_nat n)).
Proof.
  intros Hd. apply (nth_ext _ _ 0 0); [by rewrite length_pad; unfold read_bytes; rewrite length_fmap, length_seqZ, Nat2Z.id|].
  unfold read_bytes at 1. rewrite length_fmap, length_seqZ, Nat2Z.id. intros j Hj. rewrite nth_read_bytes by done.
  destruct (strncpy_spec n m s t (s + Z.of_nat j) Hd) as (H1 & H2 & _). replace (s + Z.of_nat j - s) with (Z.of_nat j) in * by lia.
  destruct (nth_pad n (read_bytes m t (Z.of_nat n)) j Hj) as [P1 P2].
  assert ((forall i, (i < j)%nat -> nth i (read_bytes m t (Z.of_nat n)) 0 ≠ 0) \/ exists i, (i < j)%nat /\ nth i (read_bytes m t (Z.of_nat n)) 0 = 0) as [A|A].
  { clear -Hj. induction j as [|j IH]; [left; lia|]. destruct (IH ltac:(lia)) as [A|(i & Hi & A)]; [|right; exists i; split; [lia|done]].
    destruct (Z.eq_dec (nth j (read_bytes m t (Z.of_nat n)) 0) 0) as [E|E]; [right; exists j; split; [lia|done]|].
    left. intros i Hi. destruct (decide (i = j)) as [->|]; [done|]. apply A. lia. }
  - rewrite P1 by done. rewrite nth_read_bytes by done. apply H1; [|lia]. intros i Hi E.
    apply (A (Z.to_nat i)); [lia|]. rewrite nth_read_bytes by lia. rewrite <- E. f_equal. lia.
  - rewrite P2 by done. apply H2; [|lia]. destruct A as (i & Hi & A). intros Hn. rewrite nth_read_bytes in A by lia. by apply (Hn (Z.of_nat i)); [lia|].
Qed.

Lemma two_fst s t j : (j < 16)%nat -> two s t (Z.of_nat j) = nth j s 0.
Proof.
  intros Hj. unfold two, write_bytes. rewrite (proj2 (Z.leb_gt 16 _)) by lia. cbn [andb]. rewrite (proj2 (Z.leb_le 0 _)) by lia. cbn [andb].
  destruct (Z.ltb_spec (Z.of_nat j) (0 + Z.of_nat (length s))); [f_equal; lia|]. by rewrite nth_overflow by lia.
Qed.
Lemma two_snd s t j : (j < length t)%nat -> two s t (16 + Z.of_nat j) = nth j t 0.
Proof.
  intros Hj. unfold two, write_bytes. rewrite (proj2 (Z.leb_le 16 _)), (proj2 (Z.ltb_lt _ _)) by lia. cbn [andb]. f_equal. lia.
Qed.

(** namecmp() answers 0 exactly on equal names. *)
Lemma namecmp_pad s t : (DIRSIZ <= length t)%nat -> namecmp s t = 0 <-> pad DIRSIZ s = pad DIRSIZ t.
Proof.
  intros Hl. unfold namecmp. rewrite strncmp_pad. unfold DIRSIZ in *.
  rewrite (pad_ext 14 (read_bytes (two s t) 0 _) s), (pad_ext 14 (read_bytes (two s t) 16 _) t); [done|..];
    intros j Hj; rewrite nth_read_bytes by lia; [apply two_snd; lia|apply two_fst; lia].
Qed.

Lemma dirent_name_pad name : dirent_name name = pad DIRSIZ name.
Proof.
  unfold dirent_name, DIRSIZ. rewrite strncpy_pad by lia. apply pad_ext. intros j Hj. rewrite nth_read_bytes by lia.
  destruct (decide (j < length name)%nat) as [|Hn]; [by apply two_snd|]. rewrite (nth_overflow name) by lia.
  unfold two, write_bytes. rewrite (proj2 (Z.ltb_ge (16 + _) (16 + _))), andb_false_r by lia. rewrite (proj2 (Z.ltb_ge (16 + _) _)) by (cbn; lia). by rewrite andb_false_r.
Qed.
Lemma pad_pad n l : pad n (pad n l) = pad n l.
Proof.
  revert l. induction n as [|n IH]; intros [|c l]; cbn; [done..|]. destruct (Z.eqb_spec c 0); cbn; [done|]. rewrite (proj2 (Z.eqb_neq c 0)) by done. by rewrite IH.
Qed.

(** ** Entries *)

Definition dent (c : list Z) (j : nat) : list Z := read_at c (16 * Z.of_nat j) 16.
Definition inum_of (e : list Z) : Z := nth 0 e 0 + 256 * nth 1 e 0.
Definition is_free (e : list Z) : bool := inum_of e =? 0.
Definition hit (name : list Z) (e : list Z) : bool := negb (is_free e) && bool_decide (pad DIRSIZ name = pad DIRSIZ (drop 2 e)).

(** The first entry from [j] on, of [n], that passes the test. *)
Fixpoint dscan (test : list Z -> bool) (c : list Z) (n j : nat) : option nat :=
  match n with
  | O => None
  | S n' => if test (dent c j) then Some j else dscan test c n' (S j)
  end.

Definition dsize (c : list Z) : nat := length c / 16.
Definition dfind (c name : list Z) : option nat := dscan (hit name) c (dsize c) 0.
(** The directory as a map. *)
Definition dlookup (c name : list Z) : option Z := (fun j => inum_of (dent c j)) <$> dfind c name.
(** The entry dirlink() fills. *)
Definition dslot (c : list Z) : nat := default (dsize c) (dscan is_free c (dsize c) 0).
Definition new_dent (name : list Z) (inum : Z) : list Z := [u16 inum mod 256; u16 inum / 256] ++ pad DIRSIZ name.
Definition dlinked (c name : list Z) (inum : Z) : list Z := splice c (16 * Z.of_nat (dslot c)) (new_dent name inum).

Definition whole (c : list Z) : Prop := length c = (16 * dsize c)%nat.

Lemma dscan_spec test c n j :
  match dscan test c n j with
  | Some i => (j <= i < j + n)%nat /\ test (dent c i) = true /\ forall x, (j <= x < i)%nat -> test (dent c x) = false
  | None => forall x, (j <= x < j + n)%nat -> test (dent c x) = false
  end.
Proof.
  revert j. induction n as [|n IH]; intros j; cbn [dscan]; [lia|]. destruct (test (dent c j)) eqn:E; [split; [lia|split; [done|lia]]|].
  specialize (IH (S j)). destruct (dscan test c n (S j)) as [i|].
  - destruct IH as (H1 & H2 & H3). split; [lia|]. split; [done|]. intros x Hx. destruct (decide (x = j)) as [->|]; [done|]. apply H3. lia.
  - intros x Hx. destruct (decide (x = j)) as [->|]; [done|]. apply IH. lia.
Qed.

Lemma dscan_some test c n j i : (j <= i < j + n)%nat -> test (dent c i) = true -> (forall x, (j <= x < i)%nat -> test (dent c x) = false) -> dscan test c n j = Some i.
Proof.
  intros Hi Ht Hb. pose proof (dscan_spec test c n j) as H. destruct (dscan test c n j) as [i'|].
  - destruct H as (H1 & H2 & H3). f_equal. destruct (lt_eq_lt_dec i' i) as [[Hlt| ->]|Hgt]; [|done|].
    + rewrite Hb in H2 by lia. done.
    + rewrite H3 in Ht by lia. done.
  - by rewrite H in Ht.
Qed.

Lemma dslot_le c : (dslot c <= dsize c)%nat.
Proof. unfold dslot. pose proof (dscan_spec is_free c (dsize c) 0) as H. destruct (dscan _ _ _ _); cbn [from_option]; unfold id; [destruct H as [H _]; lia|lia]. Qed.
Lemma dslot_free c : (dslot c < dsize c)%nat -> is_free (dent c (dslot c)) = true.
Proof. unfold dslot. pose proof (dscan_spec is_free c (dsize c) 0) as H. destruct (dscan _ _ _ _); cbn; [intros _; apply H|lia]. Qed.

Lemma length_new_dent name inum : length (new_dent name inum) = 16%nat.
Proof. unfold new_dent. by rewrite length_app, length_pad. Qed.
Lemma inum_new_dent name inum : 0 <= inum < 2 ^ 16 -> inum_of (new_dent name inum) = inum.
Proof. intros H. unfold inum_of, new_dent, u16. cbn [nth app]. rewrite (Z.mod_small inum (2 ^ 16)) by lia. pose proof (Z.div_mod inum 256 ltac:(lia)). lia. Qed.
Lemma hit_new_dent nm name inum : 0 < inum < 2 ^ 16 -> hit nm (new_dent name inum) = bool_decide (pad DIRSIZ nm = pad DIRSIZ name).
Proof.
  intros H. unfold hit, is_free. rewrite inum_new_dent, (proj2 (Z.eqb_neq inum 0)) by lia. change (drop 2 (new_dent name inum)) with (pad DIRSIZ name). by rewrite pad_pad.
Qed.

Section linked.
Context (c name : list Z) (inum : Z) (Hw : whole c) (Hi : 0 < inum < 2 ^ 16).
Abbreviation c' := (dlinked c name inum).

Lemma length_dlinked : length c' = (16 * Nat.max (dsize c) (S (dslot c)))%nat.
Proof using Hw.
  pose proof (dslot_le c) as Hs. unfold dlinked, splice. rewrite !length_app, length_take, length_drop, length_new_dent. unfold whole in Hw. lia.
Qed.
Lemma dsize_dlinked : dsize c' = Nat.max (dsize c) (S (dslot c)).
Proof using Hw. unfold dsize at 1. rewrite length_dlinked, Nat.mul_comm. apply Nat.div_mul. lia. Qed.
Lemma dlinked_whole : whole c'.
Proof using Hw. unfold whole. by rewrite dsize_dlinked, length_dlinked. Qed.

Lemma dent_dlinked j : (j < dsize c')%nat -> dent c' j = if decide (j = dslot c) then new_dent name inum else dent c j.
Proof using Hw.
  rewrite dsize_dlinked. intros Hj. pose proof (dslot_le c) as Hs. unfold whole in Hw. unfold dent, read_at, dlinked, splice.
  change (Z.to_nat 16) with 16%nat. replace (Z.to_nat (16 * Z.of_nat j)) with (16 * j)%nat by lia. replace (Z.to_nat (16 * Z.of_nat (dslot c))) with (16 * dslot c)%nat by lia.
  rewrite length_new_dent. assert (length (take (16 * dslot c) c) = (16 * dslot c)%nat) as Lt by (rewrite length_take; lia).
  case_decide as E; [subst j|].
  - rewrite drop_app_length' by done. rewrite take_app_length' by (symmetry; apply length_new_dent). done.
  - destruct (decide (j < dslot c)%nat) as [Hlt|Hge].
    + rewrite drop_app_le by lia. rewrite take_app_le by (rewrite length_drop; lia). rewrite !take_drop_commute, take_take. do 2 f_equal. lia.
    + rewrite drop_app_ge by lia. rewrite drop_app_ge by (rewrite length_new_dent; lia). rewrite drop_drop. do 2 f_equal. rewrite Lt, length_new_dent. lia.
Qed.

(** Linking a name adds it to the map, and changes nothing else of it. *)
Lemma dlookup_dlinked nm : dlookup c name = None ->
  dlookup c' nm = if decide (pad DIRSIZ nm = pad DIRSIZ name) then Some inum else dlookup c nm.
Proof using Hw Hi.
  intros Hn. pose proof (dslot_le c) as Hs. pose proof dsize_dlinked as Hd.
  assert (forall j, (j < dsize c')%nat -> hit nm (dent c' j) = if decide (j = dslot c) then bool_decide (pad DIRSIZ nm = pad DIRSIZ name) else hit nm (dent c j)) as Hh.
  { intros j Hj. rewrite dent_dlinked by done. case_decide; [by apply hit_new_dent|done]. }
  assert (forall j, (j < dsize c)%nat -> hit name (dent c j) = false) as Hno.
  { pose proof (dscan_spec (hit name) c (dsize c) 0) as H. unfold dlookup, dfind in Hn. destruct (dscan _ _ _ _); [done|]. intros j Hj. apply H. lia. }
  case_decide as E.
  - assert (forall j, (j < dsize c)%nat -> hit nm (dent c j) = false) as Hno' by (intros j Hj; unfold hit; rewrite E; by apply Hno).
    unfold dlookup, dfind. rewrite (dscan_some _ _ _ _ (dslot c)).
    + cbn [fmap option_fmap option_map]. rewrite dent_dlinked, decide_True by (done || lia). by rewrite inum_new_dent by lia.
    + lia.
    + rewrite Hh, decide_True by (done || lia). by apply bool_decide_eq_true.
    + intros x Hx. rewrite Hh, decide_False by lia. apply Hno'. lia.
  - assert (forall j, (j < dsize c')%nat -> hit nm (dent c' j) = true -> (j < dsize c)%nat /\ dent c' j = dent c j) as Hsame.
    { intros j Hj. rewrite Hh by done. case_decide; [by rewrite bool_decide_eq_false_2|]. intros _. split; [lia|]. rewrite dent_dlinked by done. by rewrite decide_False. }
    assert (forall j, (j < dsize c)%nat -> hit nm (dent c' j) = hit nm (dent c j)) as Hold.
    { intros j Hj. rewrite Hh by lia. case_decide as Ej; [|done]. subst j. rewrite bool_decide_eq_false_2 by done. unfold hit. by rewrite dslot_free. }
    unfold dlookup, dfind. pose proof (dscan_spec (hit nm) c (dsize c) 0) as H. destruct (dscan (hit nm) c (dsize c) 0) as [i|] eqn:Ei.
    + destruct H as (H1 & H2 & H3). rewrite (dscan_some _ _ _ _ i); [cbn|lia|by rewrite Hold by lia|intros x Hx; rewrite Hold by lia; by apply H3].
      f_equal. f_equal. apply Hsame; [lia|]. by rewrite Hold by lia.
    + pose proof (dscan_spec (hit nm) c' (dsize c') 0) as H'. destruct (dscan (hit nm) c' (dsize c') 0) as [i|]; [|done].
      destruct H' as (H1 & H2 & _). destruct (Hsame i ltac:(lia) H2) as [Hlt _]. rewrite Hold, H in H2 by lia. done.
Qed.
End linked.
