(* ===== verification/FsAtomic.v ===== *)
(** * Writing a file is atomic

    begin_op(), writei() and end_op() together: the write is seen completely or not at all,
    wherever the machine stops.  The theorem is about the contents of files as they are read
    from the disk after recovery. *)

From Stdlib Require Import ZArith Lia.
From stdpp Require Import base list numbers strings gmap sets.
From S2P Require Import Prelude Types Mem Str Layout Kalloc Vm State Spinlock Printf Proc ProcSpec Sleeplock Seq Bio BioSpec BioInit Log LogSpec LogCrash FsTx FsSource Fs FsInode FsBlocks FsMap FsBmap FsFile.
Open Scope Z_scope.

Section atomic.
Context (me : nat) (pid : Z) (d : Z) `{L : KernelLayout} `{W : Wakes} `{D : Disk} `{DOK : !DiskOK}.
Context (start : Z).
Abbreviation view := (view d).
Abbreviation ref := (ref d).
Abbreviation ready := (ready me pid d).
Abbreviation in_tx := (in_tx me pid d true).

(** What the file system leaves alone: memory, files, and of processes all but the state. *)
Record kept (k k' : kernel) : Prop := {
  ke_mem : k'.(k_mem) = k.(k_mem);
  ke_procs : set_state UNUSED <$> k'.(k_procs) = set_state UNUSED <$> k.(k_procs);
  ke_ftable : k'.(k_ftable) = k.(k_ftable)
}.
Lemma kept_trans k1 k2 k3 : kept k1 k2 -> kept k2 k3 -> kept k1 k3.
Proof. intros [] []. split; congruence. Qed.
Lemma kept_frame k k' lg dk t : frame k' = set_log lg (set_disk dk (set_itable t (frame k))) -> kept k k'.
Proof. intros E. split; [exact (f_equal k_mem E)|exact (f_equal k_procs E)|exact (f_equal k_ftable E)]. Qed.
Lemma kept_others k k' t : others k' = set_itable t (others k) -> kept k k'.
Proof. intros E. split; [exact (f_equal k_mem E)|exact (f_equal k_procs E)|exact (f_equal k_ftable E)]. Qed.

(** *** Between transactions *)

Record idle (k : kernel) : Prop := {
  id_ready : ready [] k;
  id_dev : k.(k_log).(l_dev) = d;
  id_start : k.(k_log).(l_start) = start;
  id_out : k.(k_log).(l_outstanding) = 0;
  id_committing : k.(k_log).(l_committing) = false;
  id_n : k.(k_log).(lh_n) = 0;
  id_len : Z.of_nat (length k.(k_log).(lh_block)) = LOGBLOCKS;
  id_ref : forall m, ref k m = 0;
  id_unlocked : unlocked k;
  id_header : hdr_n (disk_read k.(k_disk) start) = 0
}.

Lemma idle_view k m : idle k -> view k m = disk_read k.(k_disk) m.
Proof. intros I. destruct (id_ready _ I) as [_ [l C]]. apply (view_clean d k l m C), I. Qed.

(** The operation [c] only takes, gives back or looks at locks and sleepers. *)
Definition lock_step (H H' : list lockid) (c : M kernel unit) : Prop :=
  forall k, ready H k -> runs (c k) (fun _ k' => ready H' k' /\ frame k' = frame k /\ k'.(k_slocks) = k.(k_slocks) /\
    (forall m, view k' m = view k m) /\ forall m, ref k' m = ref k m).

Lemma lock_step_sim H H' c : H = [] \/ H = [LkLog] -> sim me pid H H' c (mret tt) -> lock_step H H' c.
Proof.
  intros HH Hs k R. eapply runs_mono; [exact (sim_ok me pid H H' c (mret tt) k tt (rest k) Hs (proj1 R) eq_refl)|].
  intros [] k' (_ & C & E). destruct (ready_lock me pid d k k' H') as (R1 & F1 & S1 & _ & V1 & Rf1 & _); [|done|done|done].
  destruct HH as [-> | ->]; [by left|by right].
Qed.
Lemma lock_acquire : lock_step [] [LkLog] (acquire LkLog).
Proof. apply lock_step_sim; [by left|]. apply sim_acquire, not_elem_of_nil. Qed.
Lemma lock_release : lock_step [LkLog] [] (release LkLog).
Proof. apply lock_step_sim; [by right|]. apply sim_release, not_elem_of_nil. Qed.
Lemma lock_wakeup ch : lock_step [LkLog] [LkLog] (wakeup ch).
Proof. apply lock_step_sim; [by right|]. apply sim_wakeup. intros i. rewrite list_elem_of_singleton. discriminate. Qed.

(** Changing the log header in memory. *)
Lemma ready_set_log H k lg : ready H k -> ready H (set_log lg k).
Proof. intros R. apply (ready_modify me pid d H k (set_log lg)); [by intros|by intros|done]. Qed.

Lemma begin_op_tx k :
  idle k -> runs (begin_op k) (fun _ k' => in_tx k' [] [] /\ frame k' = set_log (set_outstanding 1 k.(k_log)) (frame k) /\
    k'.(k_slocks) = k.(k_slocks) /\ forall m, view k' m = view k m).
Proof.
  intros I. unfold begin_op. step_by (lock_acquire k); [apply I|]. intros [] k1 (R1 & F1 & S1 & V1 & Rf1).
  assert (k_log k1 = k_log k) as E1 by (by apply (f_equal k_log) in F1).
  assert (begin_op_loop wakes k1 = (modlog (set_outstanding 1) ;; release LkLog) k1) as ->.
  { destruct wakes; cbn [begin_op_loop]; unfold getlog; rewrite bind_gets, E1, (id_committing _ I), (id_n _ I), (id_out _ I); done. }
  unfold modlog. rewrite bind_modify, E1. set (k2 := set_log _ k1).
  eapply runs_mono; [apply lock_release, ready_set_log, R1|]. intros [] k3 (R3 & F3 & S3 & V3 & Rf3).
  assert (frame k3 = set_log (set_outstanding 1 (k_log k)) (frame k)) as F by (rewrite F3; change (frame k2) with (set_log (set_outstanding 1 (k_log k)) (frame k1)); by rewrite F1).
  assert (k_log k3 = set_outstanding 1 (k_log k)) as El by (by rewrite (f_equal k_log F : k_log k3 = _)).
  assert (forall m, view k3 m = view k m) as V by (intros m; rewrite V3; change (view k2 m) with (view k1 m); apply V1).
  split; [|split; [done|split; [rewrite S3; exact S1|done]]]. destruct I. split; rewrite ?El;
    [exact R3|constructor|by intros b Hb%not_elem_of_nil|exact id_n0|done|exact id_len0|done|..].
  - intros m. rewrite Rf3. change (ref k2 m) with (ref k1 m). by rewrite Rf1, id_ref0.
  - by intros n b Hb%not_elem_of_nil.
  - intros i. rewrite S3. change (k_slocks k2) with (k_slocks k1). rewrite S1, id_unlocked0. by intros [].
  - constructor.
  - intros m _. rewrite V, (f_equal k_disk F : k_disk k3 = k_disk k). destruct id_ready0 as [_ [l C]]. apply (view_clean d k l m C). apply id_ref0.
Qed.

(** *** The end of the only transaction *)

Record closing (k : kernel) (bs : list Z) : Prop := {
  cl_tx : in_tx k bs [];
  cl_dev : k.(k_log).(l_dev) = d;
  cl_start : k.(k_log).(l_start) = start;
  cl_out : k.(k_log).(l_outstanding) = 1;
  cl_committing : k.(k_log).(l_committing) = false;
  cl_header : header_ok start bs;
  cl_empty : hdr_n (disk_read k.(k_disk) start) = 0
}.

(** What the disk stands for after [j] of the writes [ws] of a commit: the old contents up to
    the write number [c] and the new ones after it. *)
Definition crash_points (dk : disk) (ws : list (Z * block)) (c : nat) (new : Z -> block) : Prop :=
  forall j, let crashed := writes_to (take j ws) dk in
    log_ok start crashed /\ forall m, ~ log_area start m -> durable start crashed m = if decide (j <= c)%nat then disk_read dk m else new m.

Definition ended (k : kernel) (k' : kernel) : Prop :=
  idle k' /\ k'.(k_itable) = k.(k_itable) /\ k'.(k_sb) = k.(k_sb) /\ k'.(k_slocks) = k.(k_slocks) /\ kept k k' /\
  exists ws c, k'.(k_disk) = writes_to ws k.(k_disk) /\ (forall m, ~ log_area start m -> disk_read k'.(k_disk) m = view k m) /\
    crash_points k.(k_disk) ws c (view k).

(** commit() with the lock released, and the state it starts from. *)
Lemma commit_tx k bs lg :
  closing k bs -> (length bs < NBUF)%nat -> forall k1, ready [] k1 -> frame k1 = set_log lg (frame k) -> lg = set_committing true (set_outstanding 0 k.(k_log)) ->
  k1.(k_slocks) = k.(k_slocks) -> (forall m, view k1 m = view k m) -> (forall m, ref k1 m = ref k m) ->
  runs (commit k1) (fun _ k' => exists ws c, ready [] k' /\ k'.(k_slocks) = k.(k_slocks) /\
    frame k' = set_log (set_lh 0 lg.(lh_block) lg) (set_disk (writes_to ws k.(k_disk)) (frame k)) /\
    (forall m, ref k' m = 0) /\ hdr_n (disk_read (writes_to ws k.(k_disk)) start) = 0 /\
    (forall m, ~ log_area start m -> disk_read (writes_to ws k.(k_disk)) m = view k m) /\ crash_points k.(k_disk) ws c (view k)).
Proof using DOK.
  intros [I Ed Es Eo Ec Hh He] Hlen k1 R1 F1 Elg S1 V1 Rf1. assert (k_log k1 = lg) as El by (by rewrite (f_equal k_log F1 : k_log k1 = _)).
  assert (k_disk k1 = k_disk k) as Edk by (by rewrite (f_equal k_disk F1 : k_disk k1 = _)).
  assert (forall m, ref k m = if decide (m ∈ bs) then 1 else 0) as Hr.
  { intros m. rewrite (it_ref _ _ _ _ _ _ _ I). unfold one. rewrite (bool_decide_eq_false_2 (m ∈ [].*1)) by apply not_elem_of_nil.
    case_bool_decide; case_decide; done || lia. }
  destruct (decide (bs = [])) as [->|Hne].
  - assert (commit k1 = Ok tt k1) as ->.
    { unfold commit, getlog. rewrite bind_gets, El, Elg. cbn [lh_n set_committing set_outstanding]. by rewrite (it_n _ _ _ _ _ _ _ I). }
    exists [], 0%nat. rewrite writes_to_nil. split; [done|]. split; [done|]. split.
    { rewrite F1. assert (lh_n lg = 0) as En by (rewrite Elg; exact (it_n _ _ _ _ _ _ _ I)).
      replace (set_lh 0 (lh_block lg) lg) with lg by (destruct lg; cbn in *; by subst). by destruct k. }
    split; [intros m; rewrite Rf1, Hr, decide_False by apply not_elem_of_nil; done|]. split; [done|].
    assert (forall m, view k m = disk_read (k_disk k) m) as Hcl by (intros m; apply (it_clean _ _ _ _ _ _ _ I), not_elem_of_nil).
    split; [intros m _; by rewrite Hcl|]. intros j crashed. unfold crashed. rewrite take_nil, writes_to_nil.
    assert (log_blocks (disk_read (k_disk k) start) = []) as Hlb by (unfold log_blocks; by rewrite He).
    split; [split; [lia|by rewrite Hlb]|]. intros m Hm. rewrite durable_empty by done. case_decide; done.
  - assert (transaction me pid d start bs k1) as Htx.
    { split; [done|done| |done| | |by rewrite Edk].
      - rewrite El, Elg. split; [done|]. split; [done|]. split; [exact (it_n _ _ _ _ _ _ _ I)|exact (it_take _ _ _ _ _ _ _ I)].
      - intros i. rewrite S1. destruct (k_slocks k !! SlBuf i) eqn:E; [|done]. exfalso.
        apply (not_elem_of_nil i). apply (it_locked _ _ _ _ _ _ _ I). by rewrite E.
      - intros m. by rewrite Rf1, Hr. }
    assert (forall f, writes_to (commit_writes start bs f) (k_disk k1) = writes_to (commit_writes start bs f) (k_disk k)) as Ew by (by rewrite Edk).
    eapply runs_mono; [apply (commit_atomic me pid d start bs k1 Htx Hlen)|]. rewrite Edk, El.
    intros [] k' (R' & S' & F' & Rf' & He' & Hd' & Hc'). exists (commit_writes start bs (view k1)), (length bs).
    split; [done|]. split; [congruence|]. split; [rewrite F', F1; by destruct k|]. split; [done|]. split; [done|].
    split; [intros m Hm; by rewrite Hd', V1|]. intros j. destruct (Hc' j) as [H1 H2]. split; [done|]. intros m Hm. rewrite H2 by done. by rewrite V1.
Qed.

Lemma end_op_tx k bs : closing k bs -> (length bs < NBUF)%nat -> runs (end_op k) (fun _ => ended k).
Proof using DOK.
  intros C Hlen. unfold end_op. step_by (lock_acquire k); [apply (cl_tx _ _ C)|]. intros [] k1 (R1 & F1 & S1 & V1 & Rf1).
  assert (k_log k1 = k_log k) as E1 by (by apply (f_equal k_log) in F1).
  unfold modlog, getlog. rewrite bind_modify, E1, (cl_out _ _ C), bind_gets. change (1 - 1) with 0. cbn [k_log set_log l_committing set_outstanding l_outstanding].
  rewrite (cl_committing _ _ C), bind_ret. change (0 =? 0) with true. cbn iota. apply runs_bind. rewrite bind_modify. cbn [runs mret M_ret].
  set (lg := set_committing true (set_outstanding 0 (k_log k))). set (k2 := set_log _ _).
  assert (k2 = set_log lg k1) as Ek2 by done. clearbody k2. subst k2.
  step_by (lock_release (set_log lg k1)); [by apply ready_set_log|]. intros [] k3 (R3 & F3 & S3 & V3 & Rf3).
  step_by (commit_tx k bs lg C Hlen k3); [done| |done|rewrite S3; exact S1|intros m; rewrite V3; apply V1|intros m; rewrite Rf3; apply Rf1|].
  { rewrite F3. change (frame (set_log lg k1)) with (set_log lg (frame k1)). by rewrite F1. }
  intros [] k4 (ws & c & R4 & S4 & F4 & Rf4 & He4 & Hd4 & Hc4).
  step_by (lock_acquire k4); [done|]. intros [] k5 (R5 & F5 & S5 & V5 & Rf5). rewrite bind_modify.
  set (lg5 := set_committing false (k_log k5)). assert (k_log k5 = set_lh 0 (lh_block lg) lg) as E5.
  { rewrite (f_equal k_log F5 : k_log k5 = k_log k4), (f_equal k_log F4 : k_log k4 = _). done. }
  step_by (lock_wakeup (Some ChLog) (set_log lg5 k5)); [by apply ready_set_log|]. intros [] k6 (R6 & F6 & S6 & V6 & Rf6).
  eapply runs_mono; [by apply lock_release|]. intros [] k7 (R7 & F7 & S7 & V7 & Rf7).
  assert (frame k7 = set_log lg5 (set_disk (writes_to ws (k_disk k)) (frame k))) as F.
  { rewrite F7, F6. change (frame (set_log lg5 k5)) with (set_log lg5 (frame k5)). rewrite F5, F4. done. }
  assert (k_log k7 = lg5) as E7 by (by rewrite (f_equal k_log F : k_log k7 = _)).
  assert (k_disk k7 = writes_to ws (k_disk k)) as Ed7 by (by rewrite (f_equal k_disk F : k_disk k7 = _)).
  assert (k_slocks k7 = k_slocks k) as Es7 by (rewrite S7, S6; change (k_slocks (set_log lg5 k5)) with (k_slocks k5); congruence).
  split; [|split; [by rewrite (f_equal k_itable F : k_itable k7 = _)|split; [by rewrite (f_equal k_sb F : k_sb k7 = _)|split; [done|split; [exact (kept_frame k k7 _ _ (k_itable k) F)|]]]]].
  2: { exists ws, c. split; [done|]. rewrite Ed7. done. }
  destruct C as [I Cd Cs Co Cc Ch Ce]. split; rewrite ?E7, ?Ed7; unfold lg5; rewrite ?E5; cbn; try done.
  - exact (it_len _ _ _ _ _ _ _ I).
  - intros m. rewrite Rf7, Rf6. change (ref (set_log lg5 k5) m) with (ref k5 m). by rewrite Rf5.
  - intros i. rewrite Es7. destruct (k_slocks k !! SlBuf i) eqn:E; [|done]. exfalso.
    apply (not_elem_of_nil i). apply (it_locked _ _ _ _ _ _ _ I). by rewrite E.
Qed.

(** *** Files on a disk *)

Context (sb : superblock) (ds : Z) (G : geom sb ds) (Hlog : 0 <= start /\ start + LOGBLOCKS < sb.(sb_inodestart)).

(** Inode [n] as it is on the disk, and its contents. *)
Definition disk_inode (V : Z -> block) (n : Z) : inode := read_dinode (V (IBLOCK n sb)) (n mod IPB * DINODE_SIZE) zero_inode.
Definition file_at (V : Z -> block) (n : Z) : list Z := contents V (disk_inode V n).
Definition good_file (V : Z -> block) (n : Z) : Prop :=
  0 <= n < sb.(sb_ninodes) /\ file_ok sb ds V (disk_inode V n) /\ (disk_inode V n).(i_size) <= MAXFILE * BSIZE.

(** A file stays as it is when its inode and the blocks it owns do. *)
Lemma contents_same V V' i :
  file_ok sb ds V i -> i.(i_size) <= MAXFILE * BSIZE -> (forall m, owns V i m -> V' m = V m) -> contents V' i = contents V i.
Proof.
  intros F Hs HV. unfold contents. apply list_fmap_ext. intros j x Hx. apply lookup_seqZ in Hx as [-> Hj].
  assert (forall bn, 0 <= bn < MAXFILE -> entry V' i bn = entry V i bn) as HE.
  { intros bn Hb. unfold entry. destruct (bn <? NDIRECT); [done|]. destruct (Z.eqb_spec (ind i) 0) as [|H0]; [done|]. rewrite HV; [done|]. split; [done|by left]. }
  destruct (MAXFILE_block (0 + Z.of_nat j) ltac:(lia)) as [Hb _]. unfold fbyte. rewrite HE by done.
  destruct (Z.eqb_spec (entry V i ((0 + Z.of_nat j) / BSIZE)) 0) as [|H0]; [done|]. rewrite HV; [done|]. split; [done|]. right. by eexists.
Qed.

Lemma file_at_same V V' n :
  good_file V n -> disk_inode V' n = disk_inode V n -> (forall m, owns V (disk_inode V n) m -> V' m = V m) -> file_at V' n = file_at V n.
Proof. intros (Hn & F & Hs) E HV. unfold file_at. rewrite E. by apply contents_same. Qed.

(** Only the log differs. *)
Lemma file_at_log V V' n : good_file V n -> (forall m, ~ log_area start m -> V' m = V m) -> file_at V' n = file_at V n.
Proof using G Hlog.
  intros Hg HV. pose proof (inodes_first sb ds G). pose proof Hg as (Hn & F & Hs). pose proof (IBLOCK_eq sb ds G n Hn).
  assert (0 <= n / IPB) by (apply Z.div_pos; [lia|done]).
  apply file_at_same; [done| |].
  - unfold disk_inode. rewrite HV; [done|]. unfold log_area. lia.
  - intros m Ho. destruct (owned_data sb ds _ _ _ F Ho). apply HV. unfold log_area. lia.
Qed.

(** An open file whose entry in the inode table agrees with the disk. *)
Record open_file (k : kernel) (ip : nat) (inum : Z) (i : inode) : Prop := {
  of_sb : k.(k_sb) = sb;
  of_inum : 0 <= inum < sb.(sb_ninodes);
  of_bitmap : forall m, 0 <= m < ds -> used sb (disk_read k.(k_disk)) m = true;
  of_entry : k.(k_itable) !! ip = Some i;
  of_dev : i.(i_dev) = d;
  of_num : i.(i_inum) = inum;
  of_ok : file_ok sb ds (disk_read k.(k_disk)) i;
  of_fields : inode_ok i;
  of_synced : disk_inode (disk_read k.(k_disk)) inum = with_disk i zero_inode;
  of_holes : no_holes (disk_read k.(k_disk)) i;
  of_loaded : 1 <= i.(i_ref) /\ i.(i_valid) = true;
  of_unlocked : k.(k_slocks) !! SlInode ip = None
}.

Lemma open_good k ip inum i : open_file k ip inum i -> good_file (disk_read k.(k_disk)) inum.
Proof. intros []. split; [done|]. rewrite of_synced0. split; [by destruct of_ok0|apply of_fields0]. Qed.
Lemma open_contents k ip inum i : open_file k ip inum i -> file_at (disk_read k.(k_disk)) inum = contents (disk_read k.(k_disk)) i.
Proof. intros []. unfold file_at. by rewrite of_synced0. Qed.
Lemma open_length k ip inum i : open_file k ip inum i -> Z.of_nat (length (file_at (disk_read k.(k_disk)) inum)) = i.(i_size).
Proof. intros O. rewrite (open_contents k ip inum i O), length_contents. destruct (of_fields _ _ _ _ O) as (_ & _ & _ & _ & ?). lia. Qed.

Lemma weight_start inum i : 0 <= inum < sb.(sb_ninodes) -> Z.of_nat (weight sb (IBLOCK inum sb) [] i) <= (sb.(sb_size) - 1) / BPB + 3.
Proof using G Hlog.
  intros Hn. pose proof (g_data _ _ G). assert (0 <= (sb_size sb - 1) / BPB) by (apply Z.div_pos; [lia|done]). unfold weight, meta.
  pose proof (size_union_alt (list_to_set [] ∪ (list_to_set (seqZ (sb_bmapstart sb) ((sb_size sb - 1) / BPB + 1)) ∪ {[IBLOCK inum sb]}) : gset Z) {[ind i]}) as E1.
  assert (forall X Y : gset Z, (size (X ∪ Y) <= size X + size Y)%nat) as Hu.
  { intros X Y. rewrite size_union_alt. apply Nat.add_le_mono_l, subseteq_size. intros x. rewrite elem_of_difference. tauto. }
  etransitivity; [apply Nat2Z.inj_le, Hu|]. rewrite size_singleton. rewrite Nat2Z.inj_add.
  pose proof (Hu (list_to_set [] : gset Z) (list_to_set (seqZ (sb_bmapstart sb) ((sb_size sb - 1) / BPB + 1)) ∪ {[IBLOCK inum sb]})) as H1.
  pose proof (Hu (list_to_set (seqZ (sb_bmapstart sb) ((sb_size sb - 1) / BPB + 1))) {[IBLOCK inum sb]}) as H2.
  rewrite size_singleton, (size_list_to_set (seqZ _ _)), length_seqZ in H2 by apply NoDup_seqZ. change (size (list_to_set [] : gset Z)) with 0%nat in H1. lia.
Qed.

Lemma no_holes_frame V V' i : (forall m, sb.(sb_bmapstart) <= m -> V' m = V m) -> file_ok sb ds V i -> inode_ok i -> no_holes V i -> no_holes V' i.
Proof using G.
  intros HV F (_ & _ & _ & _ & Hs) Hh x Hx. destruct (file_ok_frame sb ds G V V' i HV F) as (_ & _ & E & _).
  destruct (MAXFILE_block x ltac:(lia)) as [Hb _]. rewrite E by done. by apply Hh.
Qed.

(** The file in the transaction that begin_op() starts. *)
Lemma open_tx k k1 ip inum i :
  idle k -> open_file k ip inum i -> in_tx k1 [] [] -> frame k1 = set_log (set_outstanding 1 k.(k_log)) (frame k) ->
  (forall m, view k1 m = view k m) -> fs_file me pid d true sb ds ip inum k1 i [].
Proof using G.
  intros I [] I1 F V. assert (forall m, view k1 m = disk_read (k_disk k) m) as V1 by (intros m; by rewrite V, idle_view).
  split; [done|by rewrite (f_equal k_sb F : k_sb k1 = k_sb k)| |by rewrite (f_equal k_itable F : k_itable k1 = k_itable k)|done|done| |].
  - intros m Hm. unfold used. rewrite V1. by apply of_bitmap0.
  - destruct (file_ok_frame sb ds G (disk_read (k_disk k)) (view k1) i) as (F1 & _); [intros; apply V1|done|done].
  - by intros b Hb%not_elem_of_nil.
Qed.

(** The state in which the transaction ends. *)
Lemma closing_tx k k2 ip inum i' bs :
  idle k -> set_lh 0 [] k2.(k_log) = set_lh 0 [] (set_outstanding 1 k.(k_log)) -> k2.(k_disk) = k.(k_disk) -> fs_file me pid d true sb ds ip inum k2 i' bs ->
  Z.of_nat (length bs) <= LOGBLOCKS -> closing k2 bs.
Proof using G Hlog.
  intros I El Ed F2 Hlen. pose proof (ff_tx _ _ _ _ _ _ _ _ _ _ _ F2) as I2. split.
  - done.
  - rewrite (f_equal l_dev El : l_dev (k_log k2) = _). apply I.
  - rewrite (f_equal l_start El : l_start (k_log k2) = _). apply I.
  - by rewrite (f_equal l_outstanding El : l_outstanding (k_log k2) = _).
  - rewrite (f_equal l_committing El : l_committing (k_log k2) = _). apply I.
  - pose proof (inodes_first sb ds G). pose proof (g_data _ _ G). pose proof (g_size _ _ G). split; [lia|done|apply I2|].
    intros b Hb. split; [by apply (it_blocks _ _ _ _ _ _ _ I2)|]. right. pose proof (ff_above _ _ _ _ _ _ _ _ _ _ _ F2 b Hb). lia.
  - rewrite Ed. apply I.
Qed.

(** *** One file changes *)

(** Two files that share no block. *)
Definition apart (V : Z -> block) (n inum : Z) : Prop := forall m, owns V (disk_inode V n) m -> ~ owns V (disk_inode V inum) m.

(** From [V] to [V'] file [inum] gets the contents [c], and every file that shares no block
    with it stays, and still shares none. *)
Definition only_file (V V' : Z -> block) (inum : Z) (c : list Z) : Prop :=
  file_at V' inum = c /\
  forall n, good_file V n -> n <> inum -> apart V n inum -> good_file V' n /\ apart V' n inum /\ file_at V' n = file_at V n.

Lemma only_file_none V inum : only_file V V inum (file_at V inum).
Proof. by split. Qed.
Lemma only_file_trans V V1 V2 inum c1 c : only_file V V1 inum c1 -> only_file V1 V2 inum c -> only_file V V2 inum c.
Proof.
  intros [_ H1] [Hc H2]. split; [done|]. intros n Hg Hne Ha. destruct (H1 n Hg Hne Ha) as (Hg1 & Ha1 & <-). by apply H2.
Qed.

(** Views that are the same outside the log. *)
Lemma good_log V V' n : (forall m, ~ log_area start m -> V' m = V m) -> good_file V n ->
  good_file V' n /\ disk_inode V' n = disk_inode V n /\ forall m, owns V' (disk_inode V n) m <-> owns V (disk_inode V n) m.
Proof using G Hlog.
  intros HV (Hn & F & Hs). pose proof (inodes_first sb ds G). pose proof (IBLOCK_eq sb ds G n Hn). assert (0 <= n / IPB) by (apply Z.div_pos; [lia|done]).
  assert (disk_inode V' n = disk_inode V n) as E by (unfold disk_inode; rewrite HV; [done|unfold log_area; lia]).
  destruct (file_ok_frame sb ds G V V' (disk_inode V n)) as (F' & _ & E' & _); [intros m Hm; apply HV; unfold log_area; lia|done|].
  split; [split; [done|by rewrite E]|]. split; [done|]. intros m. by apply owns_entries.
Qed.
Lemma apart_log V V' n inum : (forall m, ~ log_area start m -> V' m = V m) -> good_file V n -> good_file V inum -> apart V n inum -> apart V' n inum.
Proof using G Hlog.
  intros HV Hn Hi Ha m. destruct (good_log V V' n HV Hn) as (_ & -> & ->), (good_log V V' inum HV Hi) as (_ & -> & ->). apply Ha.
Qed.
Lemma only_file_log V V1 V2 V3 inum c :
  (forall m, ~ log_area start m -> V1 m = V m) -> (forall m, ~ log_area start m -> V3 m = V2 m) -> good_file V inum -> good_file V2 inum ->
  only_file V1 V2 inum c -> only_file V V3 inum c.
Proof using G Hlog.
  intros H1 H3 Hg Hg2 [Hc Ho]. split.
  - by rewrite (file_at_log V2 V3 inum Hg2 H3).
  - intros n Hn Hne Ha. destruct (Ho n) as (Hg' & Ha' & E); [by apply (good_log V V1)|done|by apply (apart_log V)|].
    split; [by apply (good_log V2 V3)|]. split; [by apply (apart_log V2)|]. rewrite (file_at_log V2 V3 n) by done. rewrite E. by apply file_at_log.
Qed.

Section write.
Context (inum : Z) (Hinum : 0 <= inum < sb.(sb_ninodes)).
Context (V : Z -> block) (i : inode) (Hok : file_ok sb ds V i) (Hfields : inode_ok i).
Context (Hsync : disk_inode V inum = with_disk i zero_inode).
Context (V2 : Z -> block) (i' : inode) (off : Z) (l : list Z) (Hw : file_written sb ds inum V i V2 i' off l) (Hok2 : file_ok sb ds V2 i').
Context (Hbound : 0 <= off /\ off + Z.of_nat (length l) <= MAXFILE * BSIZE).

Lemma written_inode : disk_inode V2 inum = with_disk i' zero_inode.
Proof using Hw. apply (fw_disk _ _ _ _ _ _ _ _ _ Hw). Qed.
Lemma written_size : 0 <= i'.(i_size) <= MAXFILE * BSIZE.
Proof using Hw Hfields Hbound. rewrite (fw_inode _ _ _ _ _ _ _ _ _ Hw). destruct Hfields as (_ & _ & _ & _ & ?). cbn. lia. Qed.
Lemma written_fields : inode_ok i'.
Proof using Hw Hfields Hbound. pose proof written_size as J. revert J. rewrite (fw_inode _ _ _ _ _ _ _ _ _ Hw). intros J. destruct Hfields as (J1 & J2 & J3 & J4 & _). exact (conj J1 (conj J2 (conj J3 (conj J4 J)))). Qed.
Lemma written_good : good_file V2 inum.
Proof using All. pose proof written_size. split; [done|]. rewrite written_inode. split; [by destruct Hok2|cbn; lia]. Qed.
Lemma written_other n : good_file V n -> n <> inum -> apart V n inum -> good_file V2 n /\ apart V2 n inum /\ file_at V2 n = file_at V n.
Proof using All.
  intros Hg Hne Hd. pose proof Hg as (Hn & F & Hs). assert (disk_inode V2 n = disk_inode V n) as E by (by apply (fw_slots _ _ _ _ _ _ _ _ _ Hw)).
  assert (forall m, owns V (disk_inode V n) m -> V2 m = V m) as HV.
  { intros m Ho. apply (fw_other _ _ _ _ _ _ _ _ _ Hw); [by apply (owned_data sb ds V (disk_inode V n))|]. intros Ho'. apply (Hd m Ho). by rewrite Hsync. }
  assert (forall bn, 0 <= bn < MAXFILE -> entry V2 (disk_inode V n) bn = entry V (disk_inode V n) bn) as HE.
  { intros bn Hb. unfold entry. destruct (bn <? NDIRECT); [done|]. destruct (Z.eqb_spec (ind (disk_inode V n)) 0) as [|H0]; [done|]. rewrite HV; [done|]. split; [done|by left]. }
  pose proof (g_data _ _ G). assert (forall m, data_block sb ds V m -> data_block sb ds V2 m) as HD.
  { intros m [H1 H2]. split; [done|]. apply (fw_bitmap _ _ _ _ _ _ _ _ _ Hw); [lia|by left]. }
  split; [|split; [|by apply file_at_same]].
  - split; [done|]. rewrite E. split; [|done].
    destruct F. split; [done|auto|intros bn Hb; rewrite HE by done; intros Hz; split; [apply HD|]; by apply fo_entry|intros b1 b2 J1 J2; rewrite !HE by done; auto].
  - intros m. rewrite E, written_inode, (owns_entries V V2 _ m HE). intros Ho Ho'. destruct (owned_data sb ds _ _ _ F Ho) as [_ Hu].
    destruct (fw_free _ _ _ _ _ _ _ _ _ Hw m Ho') as [Ho2|Hu2]; [|congruence]. apply (Hd m Ho). by rewrite Hsync.
Qed.
Lemma written_only : only_file V V2 inum (splice (file_at V inum) off l).
Proof using All.
  split; [|intros n Hg Hne Hd; by apply written_other]. unfold file_at. rewrite written_inode, Hsync. apply (fw_contents _ _ _ _ _ _ _ _ _ Hw).
Qed.
End write.

(** *** The whole operation *)

(** Every crash point of the operation: a well-formed log, and after recovery either the
    old contents or [c]. *)
Definition atomic_write (dk : disk) (inum : Z) (c : list Z) (ws : list (Z * block)) : Prop :=
  exists cut, forall j, let crashed := writes_to (take j ws) dk in
    log_ok start crashed /\
    forall V, (forall m, ~ log_area start m -> V m = durable start crashed m) ->
      only_file (disk_read dk) V inum (if decide (j <= cut)%nat then file_at (disk_read dk) inum else c).

Lemma atomic_intro dk V1 inum c ws cut :
  good_file (disk_read dk) inum -> good_file V1 inum ->
  only_file (disk_read dk) V1 inum c -> crash_points dk ws cut V1 -> atomic_write dk inum c ws.
Proof using G Hlog.
  intros Hg Hg1 Ho Hc. exists cut. intros j crashed. destruct (Hc j) as [H1 H2]. split; [exact H1|]. fold crashed in H2. intros V HV.
  assert (forall m, ~ log_area start m -> V m = if decide (j <= cut)%nat then disk_read dk m else V1 m) as HV' by (intros m Hm; rewrite HV by done; by apply H2).
  case_decide.
  - apply (only_file_log (disk_read dk) (disk_read dk) (disk_read dk)); done.
  - apply (only_file_log (disk_read dk) (disk_read dk) V1); done.
Qed.

Lemma splice_nil c off : splice c off [] = c.
Proof. unfold splice. cbn. rewrite Nat.add_0_r. apply take_drop. Qed.

Lemma closing_relocked k k' bs sl : closing k bs -> in_tx k' bs [] -> relocked d k k' sl -> closing k' bs.
Proof.
  intros [] I (F & _). pose proof (f_equal k_log F : k_log k' = k_log k) as El. pose proof (f_equal k_disk F : k_disk k' = k_disk k) as Ed.
  by split; rewrite ?El, ?Ed.
Qed.

Lemma unlock_end k2 bs ip i' sl :
  closing k2 bs -> (length bs < NBUF)%nat -> k2.(k_itable) !! ip = Some i' -> 1 <= i'.(i_ref) -> k2.(k_slocks) !! SlInode ip = Some pid ->
  sl = delete (SlInode ip) k2.(k_slocks) ->
  runs ((iunlock (Some ip) ;; end_op) k2) (fun _ k3 => ended (set_slocks sl k2) k3).
Proof using DOK.
  intros C Hlen Hi Hr Hs ->. step_by (iunlock_tx me pid d true k2 bs [] ip i'); [apply C|done..|]. intros [] k' (I' & Hre).
  eapply runs_mono; [by apply (end_op_tx k' bs); [apply (closing_relocked k2 k' bs _ C I' Hre)|]|].
  destruct Hre as (F & S & V). intros [] k3 (I3 & Et & Esb & Es & Ke & ws & cut & Ed & Hd & Hc).
  rewrite (f_equal k_disk F : k_disk k' = k_disk k2) in Ed, Hc. rewrite (f_equal k_itable F : k_itable k' = k_itable k2) in Et. rewrite (f_equal k_sb F : k_sb k' = k_sb k2) in Esb.
  split; [done|]. split; [done|]. split; [done|]. split; [by rewrite Es|]. split.
  { apply (kept_trans _ k'); [|done]. split; [exact (f_equal k_mem F)|exact (f_equal k_procs F)|exact (f_equal k_ftable F)]. }
  exists ws, cut. split; [done|]. split.
  - intros m Hm. rewrite Hd by done. apply V.
  - intros j. destruct (Hc j) as [H1 H2]. split; [done|]. intros m Hm. rewrite H2 by done. case_decide; [done|]. apply V.
Qed.

(** The end of the operation, when the cache shows the new contents. *)
Lemma finish k2 bs ip inum i' c dk :
  closing k2 bs -> (length bs < NBUF)%nat -> k2.(k_disk) = dk -> 0 <= inum < sb.(sb_ninodes) ->
  fs_file me pid d true sb ds ip inum k2 i' bs -> inode_ok i' -> disk_inode (view k2) inum = with_disk i' zero_inode -> no_holes (view k2) i' ->
  1 <= i'.(i_ref) /\ i'.(i_valid) = true -> k2.(k_slocks) !! SlInode ip = Some pid ->
  good_file (disk_read dk) inum -> only_file (disk_read dk) (view k2) inum c ->
  runs ((iunlock (Some ip) ;; end_op) k2) (fun _ k3 => idle k3 /\ open_file k3 ip inum i' /\ only_file (disk_read dk) (disk_read k3.(k_disk)) inum c /\
    (forall m, 0 <= m < sb.(sb_size) -> used sb (disk_read k3.(k_disk)) m = used sb (view k2) m) /\ k3.(k_itable) = k2.(k_itable) /\ kept k2 k3 /\
    exists ws, k3.(k_disk) = writes_to ws dk /\ atomic_write dk inum c ws).
Proof using DOK G Hlog.
  intros C Hlen Edk Hn F Hfl Hsync Hh Hld Hsl Hg Ho.
  eapply runs_mono; [by apply (unlock_end k2 bs ip i' (delete (SlInode ip) (k_slocks k2))); [| |apply F|apply Hld| |]|].
  intros [] k3 (I3 & Et & Esb & Es & Ke & ws & cut & Ed & Hd & Hc). change (k_disk (set_slocks _ k2)) with (k_disk k2) in *. rewrite Edk in Ed, Hc.
  change (view (set_slocks _ k2)) with (view k2) in *.
  assert (good_file (view k2) inum) as Hg2 by (split; [done|]; rewrite Hsync; destruct (ff_ok _ _ _ _ _ _ _ _ _ _ _ F); split; [by split|apply Hfl]).
  destruct (good_log (view k2) (disk_read (k_disk k3)) inum Hd Hg2) as (Hg3 & Ei3 & _). pose proof (inodes_first sb ds G).
  assert (forall m, sb_bmapstart sb <= m -> disk_read (k_disk k3) m = view k2 m) as Hd3 by (intros m Hm; apply Hd; unfold log_area; lia).
  destruct (file_ok_frame sb ds G (view k2) (disk_read (k_disk k3)) i' Hd3) as (Fo & U3 & _); [apply F|].
  pose proof (g_data _ _ G). split; [done|]. split; [|split; [by apply (only_file_log (disk_read dk) (disk_read dk) (view k2))|split; [done|split; [done|split; [by destruct Ke|]]]]].
  - destruct F as [A1 A2 A3 A4 A5 A6 A7 A8]. split; [by rewrite Esb|done| |by rewrite Et|done|done|done|done|congruence|by apply (no_holes_frame (view k2))|done|rewrite Es; apply lookup_delete_eq].
    intros m Hm. rewrite U3 by lia. by apply A3.
  - exists ws. split; [done|]. by apply (atomic_intro dk (view k2) inum c ws cut).
Qed.

(** The file as begin_op() and ilock() leave it. *)
Record began (k k1 : kernel) (ip : nat) (inum : Z) (i : inode) : Prop := {
  be_log : set_lh 0 [] k1.(k_log) = set_lh 0 [] (set_outstanding 1 k.(k_log));
  be_disk : k1.(k_disk) = k.(k_disk);
  be_view : forall m, view k1 m = disk_read k.(k_disk) m;
  be_file : fs_file me pid d true sb ds ip inum k1 i [];
  be_synced : disk_inode (view k1) inum = with_disk i zero_inode;
  be_holes : no_holes (view k1) i;
  be_locked : k1.(k_slocks) !! SlInode ip = Some pid
}.

Lemma begin_write k ip inum i : idle k -> open_file k ip inum i -> runs ((begin_op ;; ilock (Some ip)) k) (fun _ k1 => began k k1 ip inum i /\ k1.(k_itable) = k.(k_itable) /\ kept k k1).
Proof using DOK G Hlog L.
  intros I O. step_by (begin_op_tx k); [done|]. intros [] k0 (I0 & F0 & S0 & V0).
  eapply runs_mono; [apply (ilock_tx me pid d true k0 [] [] ip i); [done| |apply O|apply O|rewrite S0; apply O]|].
  { rewrite (f_equal k_itable F0 : k_itable k0 = k_itable k). apply O. }
  intros [] k1 (I1 & F1 & S1 & V1). rewrite F0 in F1.
  assert (forall m, view k1 m = disk_read (k_disk k) m) as VV by (intros m; by rewrite V1, V0, idle_view).
  split; [|split; [exact (f_equal k_itable F1)|exact (kept_frame k k1 _ (k_disk k) (k_itable k) F1)]]. split.
  - by rewrite (f_equal k_log F1 : k_log k1 = _).
  - exact (f_equal k_disk F1).
  - done.
  - apply (open_tx k k1); [done|done|done|done|]. intros m. by rewrite V1, V0.
  - destruct (good_log (disk_read (k_disk k)) (view k1) inum ltac:(done) (open_good k ip inum i O)) as (_ & -> & _). apply O.
  - apply (no_holes_frame (disk_read (k_disk k))); [done|apply O..].
  - rewrite S1. apply lookup_insert_eq.
Qed.

Definition wrote_atomically (k k' : kernel) (ip : nat) (inum : Z) (c : list Z) : Prop :=
  idle k' /\ (exists i', open_file k' ip inum i') /\ only_file (disk_read k.(k_disk)) (disk_read k'.(k_disk)) inum c /\
  exists ws, k'.(k_disk) = writes_to ws k.(k_disk) /\ atomic_write k.(k_disk) inum c ws.

(** writei() has refused: the transaction is empty. *)
Lemma refused_end k k1 ip inum i : idle k -> open_file k ip inum i -> began k k1 ip inum i ->
  runs ((iunlock (Some ip) ;; end_op) k1) (fun _ k3 => wrote_atomically k k3 ip inum (file_at (disk_read k.(k_disk)) inum) /\ k3.(k_itable) = k1.(k_itable) /\ kept k1 k3).
Proof using DOK G Hlog L.
  intros I O [El1 Ed1 VV Ff1 Hs1 Hh1 Hl1]. pose proof (open_good k ip inum i O) as Hg. set (V := disk_read (k_disk k)) in *.
  assert (only_file V (view k1) inum (file_at V inum)) as Ho by (apply (only_file_log V V V); [done|done|done|done|apply only_file_none]).
  eapply runs_mono; [apply (finish k1 [] ip inum i (file_at V inum) (k_disk k))|].
  - by apply (closing_tx k k1 ip inum i).
  - change NBUF with 30%nat. cbn. lia.
  - done.
  - apply O.
  - done.
  - apply O.
  - done.
  - done.
  - apply O.
  - done.
  - done.
  - done.
  - intros [] k3 (I3 & O3 & Ho3 & _ & Et & Ke & Hws). split; [|done]. split; [done|]. split; [by exists i|done].
Qed.

(** writei() has written [w]. *)
Lemma written_end k k1 k2 ip inum i i' bs off w :
  idle k -> open_file k ip inum i -> began k k1 ip inum i -> 0 <= off /\ off + Z.of_nat (length w) <= MAXFILE * BSIZE ->
  fs_file me pid d true sb ds ip inum k2 i' bs -> set_lh 0 [] k2.(k_log) = set_lh 0 [] k1.(k_log) -> k2.(k_disk) = k1.(k_disk) ->
  k2.(k_slocks) !! SlInode ip = Some pid -> file_written sb ds inum (view k1) i (view k2) i' off w -> (length bs < NBUF)%nat ->
  runs ((iunlock (Some ip) ;; end_op) k2) (fun _ k3 => wrote_atomically k k3 ip inum (splice (file_at (disk_read k.(k_disk)) inum) off w) /\
    (forall m, 0 <= m < sb.(sb_size) -> used sb (disk_read k3.(k_disk)) m = used sb (view k2) m) /\ kept k2 k3).
Proof using DOK G Hlog L.
  intros I O [El1 Ed1 VV Ff1 Hs1 Hh1 Hl1] Hbd Ff2 El2 Ed2 Hl2 Hw Hlen. pose proof (open_good k ip inum i O) as Hg. set (V := disk_read (k_disk k)) in *.
  pose proof (ff_ok _ _ _ _ _ _ _ _ _ _ _ Ff1) as Hok. pose proof (ff_ok _ _ _ _ _ _ _ _ _ _ _ Ff2) as Hok2.
  pose proof (of_fields _ _ _ _ O) as Hfl. pose proof (of_inum _ _ _ _ O) as Hn.
  pose proof (written_only inum Hn (view k1) i Hok Hfl Hs1 (view k2) i' off w Hw Hok2 Hbd) as Hon.
  rewrite (file_at_log V (view k1) inum Hg ltac:(done)) in Hon.
  eapply runs_mono; [apply (finish k2 bs ip inum i' (splice (file_at V inum) off w) (k_disk k))|].
  - apply (closing_tx k k2 ip inum i'); [done|by rewrite <- El1|by rewrite <- Ed1|done|]. change LOGBLOCKS with 30. change NBUF with 30%nat in Hlen. lia.
  - done.
  - by rewrite <- Ed1.
  - done.
  - done.
  - by apply (written_fields inum (view k1) i Hfl (view k2) i' off w).
  - by apply (written_inode inum (view k1) i (view k2) i' off w).
  - by apply (fw_holes _ _ _ _ _ _ _ _ _ Hw).
  - rewrite (fw_inode _ _ _ _ _ _ _ _ _ Hw). apply O.
  - done.
  - done.
  - apply (only_file_log V (view k1) (view k2)); [done|done|done| |done].
    by apply (written_good inum Hn (view k1) i Hok Hfl Hs1 (view k2) i' off w).
  - intros [] k3 (I3 & O3 & Ho3 & HU & _ & Ke & Hws). split; [|done]. split; [done|]. split; [by exists i'|done].
Qed.

(** The body of the loop of filewrite(). *)
Definition write_op (ip : nat) (src : source) (off n : Z) : M kernel Z :=
  begin_op ;;
  ilock (Some ip) ;;
  r ← writei ip src off n;
  iunlock (Some ip) ;;
  end_op ;;
  mret r.

Lemma runs_assoc {A B} (c1 : M kernel unit) (c2 : M kernel A) (f : A -> M kernel B) k Q :
  runs (((c1 ;; c2) ≫= f) k) Q -> runs ((c1 ;; (c2 ≫= f)) k) Q.
Proof. unfold mbind, M_bind. destruct (c1 k); cbn; done. Qed.

Lemma write_op_runs k ip inum i src off l :
  idle k -> open_file k ip inum i -> src_has me k src l -> 0 <= off -> off + Z.of_nat (length l) < 2 ^ 32 ->
  (sb.(sb_size) - 1) / BPB + 3 + nblocks off (Z.of_nat (length l)) <= 28 ->
  let n := Z.of_nat (length l) in
  runs (write_op ip src off n k) (fun r k' =>
    (if (i.(i_size) <? off) || (MAXFILE * BSIZE <? off + n) then r = -1
     else 0 <= r <= n /\ (r < n -> forall m, 0 <= m < sb.(sb_size) -> used sb (disk_read k'.(k_disk)) m = true)) /\
    wrote_atomically k k' ip inum (splice (file_at (disk_read k.(k_disk)) inum) off (take (Z.to_nat r) l))).
Proof using DOK G Hlog L.
  intros I O Hsrc Hoff H32 Hroom n. pose proof (of_inum _ _ _ _ O) as Hn. pose proof (weight_start inum i Hn) as Hwt.
  pose proof (nblocks_nonneg off (Z.of_nat (length l)) Hoff) as Hnb. unfold write_op. apply runs_assoc. step_by (begin_write k ip inum i); [done|done|]. intros [] k1 (B & _ & Ke).
  step_by (writei_tx me pid d true sb ds G ip inum Hn eq_refl k1 i [] src off l); [by apply (src_kept me k); [apply Ke|apply Ke|]|apply B|apply O|done|done|lia|].
  intros r k2. subst n. cbv zeta. destruct (_ || _) eqn:Eb.
  - intros [-> ->]. apply runs_assoc. step_by (refused_end k k1 ip inum i); [done..|]. intros [] k3 [Hw _]. cbn [runs mret M_ret].
    change (Z.to_nat (-1)) with 0%nat. rewrite take_0, splice_nil. done.
  - intros (i' & bs & Hr & _ & Ff & M & Hw & Hfull & Hwt2). apply orb_false_iff in Eb as [_ Eb%Z.ltb_ge].
    pose proof (length_weight sb (IBLOCK inum sb) bs i' (it_nodup _ _ _ _ _ _ _ (ff_tx _ _ _ _ _ _ _ _ _ _ _ Ff))) as Hlen.
    apply runs_assoc. step_by (written_end k k1 k2 ip inum i i' bs off (take (Z.to_nat r) l)); [done|done|done| |done|exact (f_equal k_log (proj1 M))|exact (f_equal k_disk (proj1 M))| |done|change NBUF with 30%nat; lia|].
    { rewrite length_take. lia. }
    { rewrite (proj2 M) by (by intros j). apply B. }
    intros [] k3 (Hat & HU & _). cbn [runs mret M_ret]. split; [|done]. split; [done|]. intros Hlt m Hm. rewrite HU by done. by apply Hfull.
Qed.

(** *** Reading, outside any transaction *)

Lemma idle_tx k : idle k -> FsTx.in_tx me pid d false k [] [].
Proof.
  intros I. pose proof I as []. split; [done|constructor|by intros b Hb%not_elem_of_nil|done|done|done|done| |by intros n b Hb%not_elem_of_nil| |constructor|].
  - intros m. by rewrite id_ref0.
  - intros i [x Hx]. by rewrite id_unlocked0 in Hx.
  - intros m _. by apply idle_view.
Qed.

Lemma idle_file k k1 ip inum i sl : open_file k ip inum i -> FsTx.in_tx me pid d false k1 [] [] -> idle k -> relocked d k k1 sl ->
  fs_file me pid d false sb ds ip inum k1 i [].
Proof using G.
  intros [] I1 I (F & S & V1). assert (forall m, view k1 m = disk_read (k_disk k) m) as V by (intros m; by rewrite V1, idle_view).
  split; [done|by rewrite (f_equal k_sb F : k_sb k1 = k_sb k)| |by rewrite (f_equal k_itable F : k_itable k1 = k_itable k)|done|done| |by intros b Hb%not_elem_of_nil].
  - intros m Hm. unfold used. rewrite V. by apply of_bitmap0.
  - destruct (file_ok_frame sb ds G (disk_read (k_disk k)) (view k1) i) as (F1 & _); [intros; apply V|done|done].
Qed.

Lemma idle_same k k' : idle k -> FsTx.in_tx me pid d false k' [] [] -> set_lh 0 [] k'.(k_log) = set_lh 0 [] k.(k_log) -> k'.(k_disk) = k.(k_disk) -> idle k'.
Proof using L W D.
  intros I T El Ed. destruct I. split.
  - apply T.
  - by rewrite (f_equal l_dev El : l_dev (k_log k') = _).
  - by rewrite (f_equal l_start El : l_start (k_log k') = _).
  - by rewrite (f_equal l_outstanding El : l_outstanding (k_log k') = _).
  - by rewrite (f_equal l_committing El : l_committing (k_log k') = _).
  - apply (it_n _ _ _ _ _ _ _ T).
  - apply T.
  - intros m. by rewrite (it_ref _ _ _ _ _ _ _ T).
  - intros i. destruct (k_slocks k' !! SlBuf i) eqn:Ei; [|done]. exfalso. apply (not_elem_of_nil i), (it_locked _ _ _ _ _ _ _ T). by rewrite Ei.
  - by rewrite Ed.
Qed.

(** iunlock() after reading. *)
Lemma unlock_idle k k2 ip inum i :
  idle k -> open_file k ip inum i -> fs_file me pid d false sb ds ip inum k2 i [] -> set_lh 0 [] k2.(k_log) = set_lh 0 [] k.(k_log) ->
  k2.(k_disk) = k.(k_disk) -> k2.(k_slocks) !! SlInode ip = Some pid ->
  runs (iunlock (Some ip) k2) (fun _ k3 => idle k3 /\ open_file k3 ip inum i /\ k3.(k_disk) = k.(k_disk) /\ kept k2 k3).
Proof using L W D.
  intros I O F El Ed Hs. eapply runs_mono; [apply (iunlock_tx me pid d false k2 [] [] ip i); [apply F|apply F|apply O|done]|].
  intros [] k3 (I3 & E3 & S3 & _). pose proof (f_equal k_disk E3 : k_disk k3 = k_disk k2) as Ed3. rewrite Ed in Ed3.
  split; [apply (idle_same k k3 I I3); [by rewrite (f_equal k_log E3 : k_log k3 = k_log k2)|done]|]. split; [|split; [done|]].
  - destruct O, F. split; rewrite ?Ed3; try done; [by rewrite (f_equal k_sb E3 : k_sb k3 = k_sb k2)|by rewrite (f_equal k_itable E3 : k_itable k3 = k_itable k2)|].
    rewrite S3. apply lookup_delete_eq.
  - split; [exact (f_equal k_mem E3)|exact (f_equal k_procs E3)|exact (f_equal k_ftable E3)].
Qed.

(** What fileread() does, for a buffer of the kernel. *)
Definition read_op (ip : nat) (off n : Z) : M kernel (Z * list Z) :=
  ilock (Some ip) ;;
  r ← readi ip KVar off n;
  iunlock (Some ip) ;;
  mret r.

Lemma read_op_runs k ip inum i off n :
  idle k -> open_file k ip inum i -> 0 <= off -> 0 <= n -> off + n < 2 ^ 32 ->
  runs (read_op ip off n k) (fun r k' => let l := read_at (file_at (disk_read k.(k_disk)) inum) off n in
    r = (Z.of_nat (length l), l) /\ idle k' /\ open_file k' ip inum i /\ k'.(k_disk) = k.(k_disk)).
Proof using DOK G L.
  intros I O Hoff Hn H32. pose proof (of_fields _ _ _ _ O) as Hfl. destruct (of_loaded _ _ _ _ O) as [Hr Hv].
  unfold read_op. step_by (ilock_tx me pid d false k [] [] ip i); [by apply idle_tx|apply O|done|done|apply O|].
  intros [] k1 (I1 & Hre). pose proof (idle_file k k1 ip inum i _ O I1 I Hre) as F1. destruct Hre as (E1 & S1 & V1).
  assert (forall m, view k1 m = disk_read (k_disk k) m) as V by (intros m; by rewrite V1, idle_view).
  step_by (readi_tx me pid d false sb ds G ip inum k1 i [] off n F1); [|apply Hfl|done|done|done|change NBUF with 30%nat; cbn; lia|].
  { apply (no_holes_frame (disk_read (k_disk k))); [done|apply O..]. }
  intros r k2 (-> & F2 & [E2 S2] & _).
  assert (others k2 = others k) as E by (rewrite E2; by apply frame_others).
  step_by (unlock_idle k k2 ip inum i I O F2); [exact (f_equal k_log E)|exact (f_equal k_disk E)|rewrite S2, S1 by (by intros j); apply lookup_insert_eq|].
  intros [] k3 (I3 & O3 & Ed & _). cbn [runs mret M_ret]. split; [|done]. rewrite (open_contents k ip inum i O).
  by rewrite (contents_same (disk_read (k_disk k)) (view k1) i (of_ok _ _ _ _ O) ltac:(apply Hfl) ltac:(done)).
Qed.

(** *** Booting again *)

(** The kernel before binit(), with the disk [dk]. *)
Record boots (kb : kernel) (dk : disk) : Prop := {
  bo_calm : calm me pid [] kb;
  bo_blank : blank d kb;
  bo_disk : kb.(k_disk) = dk;
  bo_head : Z.of_nat (length kb.(k_log).(lh_block)) = LOGBLOCKS
}.

Lemma recovery_op kb dk : boots kb dk -> sb.(sb_logstart) = start -> log_ok start dk ->
  runs ((binit ;; initlog d sb) kb) (fun _ k => forall m, ~ log_area start m -> disk_read k.(k_disk) m = durable start dk m).
Proof using DOK.
  intros B Es Hok. step_by (binit_linked kb); [apply B|]. intros [] k0 Hl.
  pose proof (linked_rebooted me pid d kb k0 (bo_calm _ _ B) (bo_blank _ _ B) Hl (bo_head _ _ B)) as Rb. rewrite (bo_disk _ _ B) in Rb.
  eapply runs_mono; [by apply (initlog_durable me pid d k0 dk sb start)|]. intros [] k Hd m Hm. apply Hd.
  intros ->. apply Hm. unfold log_area. change LOGBLOCKS with 30. lia.
Qed.
End atomic.
