(* ===== verification/FsDir.v ===== *)
(** * Directories

    dirlookup() and dirlink() on the contents of a directory, and iget() and iput() of the
    inode they find: the code computes the map [dlookup] of FsDirSpec.v. *)

From Stdlib Require Import ZArith Lia.
From stdpp Require Import base list numbers strings gmap.
From S2P Require Import Prelude Types Mem Str Layout Kalloc Vm State Spinlock Printf Proc ProcSpec Sleeplock Seq Bio BioSpec Log LogSpec FsTx Fs FsInode FsBlocks FsMap FsBmap FsFile FsDirSpec FsAtomic.
Open Scope Z_scope.

Section dir.
Context (me : nat) (pid : Z) (d : Z) `{L : KernelLayout} `{W : Wakes} `{D : Disk} `{DOK : !DiskOK} (o : bool).
Abbreviation view := (view d).
Abbreviation in_tx := (in_tx me pid d o).

(** *** The inode table *)

(** [k'] is [k] with the inode table [t]. *)
Definition retabled (k k' : kernel) (t : list inode) : Prop :=
  frame k' = set_itable t (frame k) /\ k'.(k_slocks) = k.(k_slocks) /\ forall m, view k' m = view k m.

Lemma tx_table_op {A} k bs hs (c c' : M kernel A) a t :
  in_tx k bs hs -> sim me pid [] [] c c' -> c' (rest k) = Ok a (rest (set_itable t k)) ->
  runs (c k) (fun r k' => r = a /\ in_tx k' bs hs /\ retabled k k' t).
Proof.
  intros I Hs Hc. eapply runs_mono; [exact (sim_ok me pid [] [] c c' k a _ Hs (proj1 (it_ready _ _ _ _ _ _ _ I)) Hc)|].
  intros r k' (-> & C & E). destruct (tx_modify me pid d o k bs hs (set_itable t)) as [I1 V1]; [done|done|done|done|].
  destruct (tx_rest me pid d o (set_itable t k) k' bs hs I1 C E) as (I' & _ & V).
  destruct (ready_lock me pid d (set_itable t k) k' [] (or_introl (it_ready _ _ _ _ _ _ _ I1)) C E) as (_ & F & S & _).
  split; [done|]. split; [exact I'|]. split; [rewrite F; reflexivity|]. split; [rewrite S; reflexivity|]. intros m. by rewrite V.
Qed.

(** The table after iget(), and the entry it returns. *)
Definition igot (t : list inode) (dev inum : Z) : option (nat * list inode) :=
  match iget_scan t 0 dev inum None with
  | inl ip => Some (ip, alter (fun x => set_ref (x.(i_ref) + 1) x) ip t)
  | inr (Some ip) => Some (ip, alter (fun x => mkinode dev inum 1 false x.(i_type) x.(i_major) x.(i_minor) x.(i_nlink) x.(i_size) x.(i_addrs)) ip t)
  | inr None => None
  end.

Definition iget_body (dev inum : Z) : M kernel nat :=
  l ← gets k_itable;
  match iget_scan l 0 dev inum None with
  | inl ip => modi ip (fun x => set_ref (x.(i_ref) + 1) x) ;; mret ip
  | inr None => panic "iget: no inodes"
  | inr (Some ip) =>
      modi ip (fun x => mkinode dev inum 1 false x.(i_type) x.(i_major) x.(i_minor) x.(i_nlink) x.(i_size) x.(i_addrs)) ;;
      mret ip
  end.

Lemma sim_modi_release ip f : sim me pid [LkItable] [] (modi ip f ;; release LkItable ;; mret ip) (modi ip f ;; mret ip).
Proof.
  unfold modi. eapply sim_bind; [by apply sim_modify|]. intros []. eapply sim_skip; [apply sim_release, not_elem_of_nil|apply sim_ret].
Qed.
Lemma sim_iget dev inum : sim me pid [] [] (iget dev inum) (iget_body dev inum).
Proof.
  unfold iget, iget_body. eapply sim_skip; [apply sim_acquire, not_elem_of_nil|]. apply sim_read; [done|]. intros l.
  destruct (iget_scan l 0 dev inum None) as [ip|[ip|]]; [apply sim_modi_release|apply sim_modi_release|apply sim_panic].
Qed.

Lemma iget_tx k bs hs dev inum ip t :
  in_tx k bs hs -> igot k.(k_itable) dev inum = Some (ip, t) ->
  runs (iget dev inum k) (fun r k' => r = ip /\ in_tx k' bs hs /\ retabled k k' t).
Proof.
  intros I Hg. apply (tx_table_op k bs hs (iget dev inum) (iget_body dev inum) ip t I (sim_iget dev inum)).
  unfold igot in Hg. unfold iget_body. rewrite bind_gets. change (k_itable (rest k)) with (k_itable k).
  destruct (iget_scan _ _ _ _ _) as [x|[x|]]; simplify_eq; done.
Qed.
(** iput() that is not the last one of a deleted file. *)
Definition iput_body (ip : nat) : M kernel unit :=
  i ← gets (fun k => k.(k_itable) !!! ip);
  if (i.(i_ref) =? 1) && i.(i_valid) && (i.(i_nlink) =? 0) then nofuel
  else modi ip (fun x => set_ref (x.(i_ref) - 1) x).

Lemma sim_iput ip : sim me pid [] [] (iput ip) (iput_body ip).
Proof.
  unfold iput, iput_body, geti. eapply sim_skip; [apply sim_acquire, not_elem_of_nil|]. apply sim_read; [done|]. intros i.
  destruct (_ && _); [apply sim_nofuel|]. eapply sim_skip; [apply sim_ret|].
  eapply sim_last; [by apply sim_modify|apply sim_release, not_elem_of_nil].
Qed.

Lemma iput_tx k bs hs ip x :
  in_tx k bs hs -> k.(k_itable) !! ip = Some x -> (x.(i_ref) =? 1) && x.(i_valid) && (x.(i_nlink) =? 0) = false ->
  runs (iput ip k) (fun r k' => r = tt /\ in_tx k' bs hs /\ retabled k k' (alter (fun x => set_ref (x.(i_ref) - 1) x) ip k.(k_itable))).
Proof.
  intros I Hx Hb. apply (tx_table_op k bs hs (iput ip) (iput_body ip) tt _ I (sim_iput ip)).
  unfold iput_body. rewrite bind_gets. change (k_itable (rest k)) with (k_itable k). rewrite (list_lookup_total_correct _ _ _ Hx), Hb. done.
Qed.

(** One entry per inode, as the cache of inodes promises. *)
Definition one_entry (t : list inode) : Prop :=
  forall p q x y, t !! p = Some x -> t !! q = Some y -> 0 < x.(i_ref) -> 0 < y.(i_ref) -> x.(i_dev) = y.(i_dev) -> x.(i_inum) = y.(i_inum) -> p = q.

Lemma iget_scan_spec l i dev inum e :
  match iget_scan l i dev inum e with
  | inl p => exists x, (i <= p)%nat /\ l !! (p - i)%nat = Some x /\ 0 < x.(i_ref) /\ x.(i_dev) = dev /\ x.(i_inum) = inum
  | inr e' => (forall p x, l !! p = Some x -> ~ (0 < x.(i_ref) /\ x.(i_dev) = dev /\ x.(i_inum) = inum)) /\
      (e' = e \/ exists p x, e' = Some p /\ (i <= p)%nat /\ l !! (p - i)%nat = Some x /\ x.(i_ref) = 0)
  end.
Proof.
  revert i e. induction l as [|x l IH]; intros i e; cbn [iget_scan]; [split; [by intros|by left]|].
  destruct ((0 <? i_ref x) && (i_dev x =? dev) && (i_inum x =? inum)) eqn:E.
  { apply andb_true_iff in E as [[E1%Z.ltb_lt E2%Z.eqb_eq]%andb_true_iff E3%Z.eqb_eq]. exists x. by rewrite Nat.sub_diag. }
  assert (~ (0 < i_ref x /\ i_dev x = dev /\ i_inum x = inum)) as Hx.
  { intros (J1 & J2 & J3). by rewrite (proj2 (Z.ltb_lt _ _) J1), (proj2 (Z.eqb_eq _ _) J2), (proj2 (Z.eqb_eq _ _) J3) in E. }
  set (e1 := match e with None => _ | Some _ => e end). specialize (IH (S i) e1). destruct (iget_scan l (S i) dev inum e1) as [p|e2].
  { destruct IH as (y & Hp & Hy & ?). exists y. replace (p - i)%nat with (S (p - S i)) by lia. split; [lia|done]. }
  destruct IH as [H1 H2]. split; [intros [|p] y; [by intros [= <-]|apply H1]|].
  destruct H2 as [->|(p & y & -> & Hp & Hy & Hr)]; [|right; exists p, y; replace (p - i)%nat with (S (p - S i)) by lia; split; [done|]; split; [lia|done]].
  unfold e1. destruct e; [by left|]. destruct (Z.eqb_spec (i_ref x) 0); [right; exists i, x; by rewrite Nat.sub_diag|by left].
Qed.

(** The table [t'] is [t] with one more reference to the inode, held by entry [ip]: the
    entry the inode has, or else one that was not in use. *)
Definition referenced (t t' : list inode) (dev inum : Z) (ip : nat) : Prop :=
  exists x x', t !! ip = Some x /\ t' = <[ip := x']> t /\ x'.(i_dev) = dev /\ x'.(i_inum) = inum /\ x'.(i_ref) = x.(i_ref) + 1 /\
    (0 < x.(i_ref) /\ x' = set_ref (x.(i_ref) + 1) x \/
     x.(i_ref) = 0 /\ x'.(i_valid) = false /\ forall q y, t !! q = Some y -> ~ (0 < y.(i_ref) /\ y.(i_dev) = dev /\ y.(i_inum) = inum)).

Lemma alter_insert {A} (f : A -> A) i (l : list A) x : l !! i = Some x -> alter f i l = <[i := f x]> l.
Proof.
  intros H. apply list_eq. intros j. destruct (decide (j = i)) as [->|Hj].
  - rewrite list_lookup_alter_eq, H, list_lookup_insert_eq by (by eapply lookup_lt_Some). done.
  - by rewrite list_lookup_alter_ne, list_lookup_insert_ne.
Qed.

Lemma igot_referenced t dev inum ip t' : igot t dev inum = Some (ip, t') -> referenced t t' dev inum ip.
Proof.
  unfold igot. pose proof (iget_scan_spec t 0 dev inum None) as Hs. destruct (iget_scan t 0 dev inum None) as [p|[p|]]; [| |done].
  - destruct Hs as (x & _ & Hx & Hr & Hd & Hi). rewrite Nat.sub_0_r in Hx. intros [= <- <-]. exists x, (set_ref (i_ref x + 1) x).
    rewrite (alter_insert _ _ _ _ Hx). do 5 (split; [done|]). by left.
  - destruct Hs as [Hno [?|(q & x & [= <-] & _ & Hx & Hr)]]; [done|]. rewrite Nat.sub_0_r in Hx. intros [= <- <-]. eexists x, _.
    split; [done|]. split; [exact (alter_insert _ _ _ _ Hx)|]. cbn. split; [done|]. split; [done|]. split; [lia|]. by right.
Qed.

(** iget() returns an entry of the inode, new or shared, and keeps one entry per inode. *)
Lemma igot_spec t dev inum ip t' : igot t dev inum = Some (ip, t') -> one_entry t ->
  (exists x, t' !! ip = Some x /\ x.(i_dev) = dev /\ x.(i_inum) = inum /\ 0 < x.(i_ref)) /\ (forall q, q <> ip -> t' !! q = t !! q) /\ one_entry t'.
Proof.
  intros Hg Hone. unfold igot in Hg. pose proof (iget_scan_spec t 0 dev inum None) as Hs. destruct (iget_scan t 0 dev inum None) as [p|[p|]]; [| |done].
  - destruct Hs as (x & _ & Hx & Hr & Hd & Hi). rewrite Nat.sub_0_r in Hx. simplify_eq.
    assert (alter (fun x => set_ref (i_ref x + 1) x) ip t !! ip = Some (set_ref (i_ref x + 1) x)) as E by (by rewrite list_lookup_alter_eq, Hx).
    assert (forall q, q <> ip -> alter (fun x => set_ref (i_ref x + 1) x) ip t !! q = t !! q) as En by (intros q Hq; by apply list_lookup_alter_ne).
    split; [eexists; split; [exact E|]; cbn; split; [done|]; split; [done|lia]|]. split; [done|].
    assert (forall q y, alter (fun x => set_ref (i_ref x + 1) x) ip t !! q = Some y -> exists z, t !! q = Some z /\ (0 < i_ref y -> 0 < i_ref z) /\ i_dev z = i_dev y /\ i_inum z = i_inum y) as Hb.
    { intros q y Hy. destruct (decide (q = ip)) as [->|Hq]; [|rewrite En in Hy by done; by exists y]. rewrite E in Hy. simplify_eq. by exists x. }
    intros q1 q2 y1 y2 H1 H2 R1 R2 Ed Ei. destruct (Hb _ _ H1) as (z1 & Z1 & A1 & B1 & C1), (Hb _ _ H2) as (z2 & Z2 & A2 & B2 & C2).
    apply (Hone q1 q2 z1 z2); auto; congruence.
  - destruct Hs as [Hno [?|(q & x & [= <-] & _ & Hx & Hr)]]; [done|]. rewrite Nat.sub_0_r in Hx. simplify_eq.
    set (f := fun x : inode => mkinode dev inum 1 false _ _ _ _ _ _). assert (alter f ip t !! ip = Some (f x)) as E by (by rewrite list_lookup_alter_eq, Hx).
    assert (forall q, q <> ip -> alter f ip t !! q = t !! q) as En by (intros q Hq; by apply list_lookup_alter_ne).
    split; [by exists (f x)|]. split; [done|]. intros q1 q2 y1 y2 H1 H2 R1 R2 Ed Ei.
    destruct (decide (q1 = ip)) as [->|N1], (decide (q2 = ip)) as [->|N2]; [done| | |].
    + rewrite E in H1. rewrite En in H2 by done. simplify_eq. destruct (Hno q2 y2 H2). done.
    + rewrite E in H2. rewrite En in H1 by done. simplify_eq. destruct (Hno q1 y1 H1). done.
    + rewrite En in H1, H2 by done. by apply (Hone q1 q2 y1 y2).
Qed.

(** *** Lookup *)

Context (sb : superblock) (ds : Z) (G : geom sb ds) (dp : nat) (dinum : Z).
Abbreviation fs_file := (fs_file me pid d o sb ds dp dinum).
Abbreviation same := FsTx.same.

(** A directory in memory, with the contents [c]. *)
Record dir_file (k : kernel) (i : inode) (bs : list Z) (c : list Z) : Prop := {
  di_file : fs_file k i bs;
  di_holes : no_holes (view k) i;
  di_size : 0 <= i.(i_size) <= MAXFILE * BSIZE;
  di_contents : contents (view k) i = c;
  di_whole : whole c
}.

Lemma dir_size k i bs c : dir_file k i bs c -> i.(i_size) = 16 * Z.of_nat (dsize c).
Proof.
  intros []. pose proof (length_contents (view k) i) as Hl. rewrite di_contents0 in Hl. unfold whole in di_whole0. lia.
Qed.

Lemma dir_same k k' i bs c : dir_file k i bs c -> fs_file k' i bs -> (forall m, view k' m = view k m) -> dir_file k' i bs c.
Proof using G.
  intros [] F V. pose proof (ff_ok _ _ _ _ _ _ _ _ _ _ _ di_file0) as Hok. split; [done| |done| |done].
  - intros x Hx. destruct (file_ok_frame sb ds G (view k) (view k') i ltac:(done) Hok) as (_ & _ & E & _).
    destruct (MAXFILE_block x ltac:(lia)) as [Hb _]. rewrite E by done. by apply di_holes0.
  - rewrite <- di_contents0. by apply (contents_same sb ds); [|apply di_size0|].
Qed.

(** Reading entry [j]. *)
Lemma dent_tx k i bs c j : dir_file k i bs c -> (j < dsize c)%nat -> (length bs < NBUF)%nat ->
  runs (readi dp KVar (16 * Z.of_nat j) DIRENT_SIZE k) (fun r k' =>
    r = (DIRENT_SIZE, dent c j) /\ dir_file k' i bs c /\ same k k' /\ forall m, view k' m = view k m).
Proof using DOK G.
  intros Hd Hj Hlen. pose proof (dir_size k i bs c Hd) as Hs. pose proof Hd as []. change (MAXFILE * BSIZE) with 274432 in *.
  eapply runs_mono; [apply (readi_tx me pid d o sb ds G dp dinum k i bs (16 * Z.of_nat j) DIRENT_SIZE); [done|done|done|lia|done|unfold DIRENT_SIZE; lia|done]|].
  rewrite di_contents0. cbv zeta. intros r k' (-> & F & S & V). split; [|split; [by apply (dir_same k)|done]].
  change (read_at c (16 * Z.of_nat j) DIRENT_SIZE) with (dent c j). f_equal. unfold dent, read_at. rewrite length_take, length_drop. unfold whole in di_whole0. change DIRENT_SIZE with 16. lia.
Qed.

Lemma negb_hit name e : length e = 16%nat -> is_free e = false -> (namecmp name (drop 2 e) =? 0) = hit name e.
Proof.
  intros Hl Hf. unfold hit. rewrite Hf. cbn [negb andb]. apply eq_true_iff_eq. rewrite Z.eqb_eq, bool_decide_eq_true. apply namecmp_pad. rewrite length_drop, Hl. done.
Qed.
Lemma length_dent c j : whole c -> (j < dsize c)%nat -> length (dent c j) = 16%nat.
Proof. unfold whole, dent, read_at. intros Hw Hj. rewrite length_take, length_drop. lia. Qed.

(** What dirlookup() answers: the entry found, and the inode it got. *)
Definition looked (k : kernel) (i : inode) (bs : list Z) (c name : list Z) (r : option (nat * Z)) (k' : kernel) : Prop :=
  match dfind c name with
  | None => r = None /\ dir_file k' i bs c /\ same k k' /\ forall m, view k' m = view k m
  | Some j => exists ip t, igot k.(k_itable) i.(i_dev) (inum_of (dent c j)) = Some (ip, t) /\ r = Some (ip, 16 * Z.of_nat j) /\ in_tx k' bs [] /\
      others k' = set_itable t (others k) /\ (forall l, (forall b, l <> SlBuf b) -> k'.(k_slocks) !! l = k.(k_slocks) !! l) /\ forall m, view k' m = view k m
  end.

Lemma dirlookup_loop_tx fuel k i bs c name j n :
  dir_file k i bs c -> (j + n = dsize c)%nat -> (n < fuel)%nat -> (length bs < NBUF)%nat ->
  (forall x, (x < j)%nat -> hit name (dent c x) = false) ->
  (forall x, dfind c name = Some x -> igot k.(k_itable) i.(i_dev) (inum_of (dent c x)) <> None) ->
  runs (dirlookup_loop fuel dp name (16 * Z.of_nat j) k) (looked k i bs c name).
Proof using DOK G.
  revert k j n. induction fuel as [|fuel IH]; intros k j n Hd Hjn Hf Hlen Hno Hroom; [lia|]. cbn [dirlookup_loop]. unfold geti.
  pose proof (dir_size k i bs c Hd) as Hs. rewrite bind_gets, (list_lookup_total_correct _ _ _ (ff_inode _ _ _ _ _ _ _ _ _ _ _ (di_file _ _ _ _ Hd))), Hs.
  destruct (Z.ltb_spec (16 * Z.of_nat j) (16 * Z.of_nat (dsize c))) as [Hlt|Hge].
  - step_by (dent_tx k i bs c j Hd); [lia|done|]. intros r k1 (-> & Hd1 & S1 & V1). cbn [fst snd]. change (negb (DIRENT_SIZE =? DIRENT_SIZE)) with false. cbn iota.
    fold (inum_of (dent c j)). fold (is_free (dent c j)).
    assert (hit name (dent c j) = false -> runs (dirlookup_loop fuel dp name (16 * Z.of_nat j + DIRENT_SIZE) k1) (looked k i bs c name)) as Hnext.
    { intros Hh. replace (16 * Z.of_nat j + DIRENT_SIZE) with (16 * Z.of_nat (S j)) by (unfold DIRENT_SIZE; lia).
      eapply runs_mono; [apply (IH k1 (S j) (n - 1)%nat Hd1)|]; [lia|lia|done| | |].
      - intros x Hx. destruct (decide (x = j)) as [->|]; [done|]. apply Hno. lia.
      - by rewrite (same_itable _ _ S1).
      - intros r k2 H2. revert H2. unfold looked. rewrite (same_itable _ _ S1). destruct (dfind c name).
        + intros (ip & t & Hg & -> & I2 & E2 & L2 & V2). exists ip, t. split; [done|]. split; [done|]. split; [done|].
          split; [by rewrite E2, (proj1 S1)|]. split; [intros l Hl; rewrite L2 by done; by apply (proj2 S1)|]. intros m. by rewrite V2.
        + intros (-> & F2 & S2 & V2). split; [done|]. split; [done|]. split; [by eapply same_others_trans|]. intros m. by rewrite V2. }
    destruct (is_free (dent c j)) eqn:Ef; [apply Hnext; unfold hit; by rewrite Ef|].
    rewrite negb_hit; [|apply length_dent; [apply Hd|lia]|done]. destruct (hit name (dent c j)) eqn:Eh; [|by apply Hnext].
    assert (dfind c name = Some j) as Ej by (apply dscan_some; [lia|done|intros x Hx; apply Hno; lia]).
    destruct (igot (k_itable k) (i_dev i) (inum_of (dent c j))) as [[ip t]|] eqn:Eg; [|by destruct (Hroom j Ej)].
    step_by (iget_tx k1 bs [] (i_dev i) (inum_of (dent c j)) ip t); [apply Hd1|by rewrite (same_itable _ _ S1)|].
    intros q k2 (-> & I2 & F2 & L2 & V2). cbn [runs mret M_ret]. unfold looked. rewrite Ej. exists ip, t. split; [done|]. split; [done|]. split; [done|].
    split; [|split; [intros l Hl; rewrite L2; by apply (proj2 S1)|intros m; by rewrite V2]].
    rewrite <- (proj1 S1). unfold others. rewrite F2. rewrite (f_equal k_log F2 : k_log k2 = k_log k1). done.
  - unfold looked. assert (dfind c name = None) as ->; [|split; [done|]; split; [done|]; split; [apply same_others_refl|done]].
    unfold dfind. pose proof (dscan_spec (hit name) c (dsize c) 0) as H. destruct (dscan _ _ _ _) as [x|]; [|done]. destruct H as (H1 & H2 & _). by rewrite Hno in H2 by lia.
Qed.

Lemma dirlookup_tx k i bs c name :
  dir_file k i bs c -> i.(i_type) = T_DIR -> (length bs < NBUF)%nat ->
  (forall j, dfind c name = Some j -> igot k.(k_itable) i.(i_dev) (inum_of (dent c j)) <> None) ->
  runs (dirlookup dp name k) (looked k i bs c name).
Proof using DOK G.
  intros Hd Ht Hlen Hroom. unfold dirlookup, geti. rewrite bind_gets, (list_lookup_total_correct _ _ _ (ff_inode _ _ _ _ _ _ _ _ _ _ _ (di_file _ _ _ _ Hd))), Ht.
  change (negb (T_DIR =? T_DIR)) with false. cbn iota. rewrite (dir_size k i bs c Hd).
  assert (Z.to_nat (16 * Z.of_nat (dsize c) / DIRENT_SIZE) = dsize c) as -> by (rewrite Z.mul_comm; change DIRENT_SIZE with 16; rewrite Z.div_mul by done; lia).
  by apply (dirlookup_loop_tx (S (dsize c)) k i bs c name 0 (dsize c)); [|lia|lia| |intros x Hx; lia|].
Qed.

(** free_dirent finds the entry to fill. *)
Lemma free_dirent_tx fuel k i bs c j n :
  dir_file k i bs c -> (j + n = dsize c)%nat -> (n < fuel)%nat -> (length bs < NBUF)%nat -> (forall x, (x < j)%nat -> is_free (dent c x) = false) ->
  runs (free_dirent fuel dp (16 * Z.of_nat j) k) (fun r k' => r = 16 * Z.of_nat (dslot c) /\ dir_file k' i bs c /\ same k k' /\ forall m, view k' m = view k m).
Proof using DOK G.
  revert k j n. induction fuel as [|fuel IH]; intros k j n Hd Hjn Hf Hlen Hno; [lia|]. cbn [free_dirent]. unfold geti.
  pose proof (dir_size k i bs c Hd) as Hs. rewrite bind_gets, (list_lookup_total_correct _ _ _ (ff_inode _ _ _ _ _ _ _ _ _ _ _ (di_file _ _ _ _ Hd))), Hs.
  destruct (Z.ltb_spec (16 * Z.of_nat j) (16 * Z.of_nat (dsize c))) as [Hlt|Hge].
  - step_by (dent_tx k i bs c j Hd); [lia|done|]. intros r k1 (-> & Hd1 & S1 & V1). cbn [fst snd]. change (negb (DIRENT_SIZE =? DIRENT_SIZE)) with false. cbn iota.
    fold (inum_of (dent c j)). fold (is_free (dent c j)). destruct (is_free (dent c j)) eqn:Ef.
    + cbn [runs mret M_ret]. split; [|done]. unfold dslot. by rewrite (dscan_some is_free c (dsize c) 0 j) by (done || lia || (intros x Hx; apply Hno; lia)).
    + replace (16 * Z.of_nat j + DIRENT_SIZE) with (16 * Z.of_nat (S j)) by (unfold DIRENT_SIZE; lia).
      eapply runs_mono; [apply (IH k1 (S j) (n - 1)%nat Hd1)|]; [lia|lia|done| |].
      * intros x Hx. destruct (decide (x = j)) as [->|]; [done|]. apply Hno. lia.
      * intros r k2 (-> & F2 & S2 & V2). split; [done|]. split; [done|]. split; [by eapply same_others_trans|]. intros m. by rewrite V2.
  - cbn [runs mret M_ret]. split; [|split; [done|split; [apply same_others_refl|done]]]. unfold dslot.
    pose proof (dscan_spec is_free c (dsize c) 0) as H. destruct (dscan _ _ _ _) as [x|]; [|cbn [from_option]; lia]. destruct H as (H1 & H2 & _). by rewrite Hno in H2 by lia.
Qed.

(** *** Linking *)

Context (Hdinum : 0 <= dinum < sb.(sb_ninodes)) (Ho : o = true).
Abbreviation file_written := (file_written sb ds dinum).
Abbreviation wt := (weight sb (IBLOCK dinum sb)).

Lemma file_written_from V V1 i V' i' off l : (forall m, V1 m = V m) -> file_ok sb ds V i -> inode_ok i ->
  file_written V1 i V' i' off l -> file_written V i V' i' off l.
Proof using G.
  intros HV Hok (_ & _ & _ & _ & Hs) [F1 F2 F3 F4 F5 F6 F7 F8]. destruct (file_ok_frame sb ds G V V1 i ltac:(done) Hok) as (Hok1 & HU & HE & _).
  assert (forall m, owns V1 i m <-> owns V i m) as Hown by (intros m; by apply owns_entries).
  assert (forall m, data_block sb ds V m -> data_block sb ds V1 m) as HD by (intros m [H1 H2]; pose proof (g_data _ _ G); split; [done|]; rewrite HU by lia; done).
  split.
  - done.
  - rewrite F2. f_equal. apply (contents_same sb ds); [done|lia|by intros m _].
  - intros Hh. apply F3. intros x Hx. destruct (MAXFILE_block x ltac:(lia)) as [Hb _]. rewrite HE by done. by apply Hh.
  - done.
  - intros n j Hn Hne. rewrite F5 by done. by rewrite HV.
  - intros m Hm Hno. rewrite F6, HV; [done|by apply HD|by rewrite Hown].
  - intros m Hm. destruct (F7 m Hm) as [?|Hu]; [left; by apply Hown|right]. revert Hu. unfold used. by rewrite HV.
  - intros m Hm. rewrite F8, HU by done. done.
Qed.

Lemma nblocks_dent j : nblocks (16 * Z.of_nat j) 16 = 1.
Proof. unfold nblocks. cbn [Z.leb Z.compare]. change BSIZE with 1024. Z.to_euclidean_division_equations. lia. Qed.

Definition dent_written (k k' : kernel) (i i' : inode) (c name : list Z) (inum r : Z) : Prop :=
  let off := 16 * Z.of_nat (dslot c) in
  (r = 0 /\ file_written (view k) i (view k') i' off (new_dent name inum)) \/
  (r = -1 /\ file_written (view k) i (view k') i' off [] /\ forall m, 0 <= m < sb.(sb_size) -> used sb (view k') m = true).

Lemma dirlink_tx k i bs c name inum :
  dir_file k i bs c -> inode_ok i -> i.(i_type) = T_DIR -> dfind c name = None -> (wt bs i <= 27)%nat ->
  16 * Z.of_nat (dslot c) + 16 <= MAXFILE * BSIZE ->
  runs (dirlink dp name inum k) (fun r k' => exists i' bs', fs_file k' i' bs' /\ moved dp k k' i' /\
    Z.of_nat (wt bs' i') <= Z.of_nat (wt bs i) + 1 /\ dent_written k k' i i' c name inum r).
Proof using DOK G Hdinum Ho.
  intros Hd Hi Ht Hno Hwt Hmax. pose proof (length_weight sb (IBLOCK dinum sb) bs i (it_nodup _ _ _ _ _ _ _ (ff_tx _ _ _ _ _ _ _ _ _ _ _ (di_file _ _ _ _ Hd)))) as Hlen.
  assert (length bs < NBUF)%nat as Hlen' by (change NBUF with 30%nat; lia). pose proof (dslot_le c) as Hsl.
  unfold dirlink. step_by (dirlookup_tx k i bs c name Hd Ht Hlen'); [by rewrite Hno|]. intros r0 k1. unfold looked. rewrite Hno. intros (-> & Hd1 & S1 & V1).
  unfold geti. rewrite bind_gets, (list_lookup_total_correct _ _ _ (ff_inode _ _ _ _ _ _ _ _ _ _ _ (di_file _ _ _ _ Hd1))), (dir_size k1 i bs c Hd1).
  assert (Z.to_nat (16 * Z.of_nat (dsize c) / DIRENT_SIZE) = dsize c) as -> by (rewrite Z.mul_comm; change DIRENT_SIZE with 16; rewrite Z.div_mul by done; lia).
  change 0 with (16 * Z.of_nat 0) at 1. step_by (free_dirent_tx (S (dsize c)) k1 i bs c 0 (dsize c) Hd1); [lia|lia|done|intros x Hx; lia|].
  intros off k2 (-> & Hd2 & S2 & V2). set (off := 16 * Z.of_nat (dslot c)) in *. cbv zeta. rewrite dirent_name_pad. fold (new_dent name inum).
  pose proof (writei_tx me pid d o sb ds G dp dinum Hdinum Ho k2 i bs (SVar (new_dent name inum)) off (new_dent name inum) eq_refl (di_file _ _ _ _ Hd2) Hi) as Hw. rewrite length_new_dent in Hw.
  change (Z.of_nat 16) with DIRENT_SIZE in Hw. step_by Hw.
  - unfold off. lia.
  - change DIRENT_SIZE with 16. change (MAXFILE * BSIZE) with 274432 in Hmax. lia.
  - change DIRENT_SIZE with 16. unfold off. rewrite nblocks_dent. lia.
  - intros r k3. cbv beta. rewrite (proj2 (Z.ltb_ge (i_size i) off)), (proj2 (Z.ltb_ge (MAXFILE * BSIZE) _)) by (rewrite ?(dir_size k2 i bs c Hd2); unfold off in *; change DIRENT_SIZE with 16; lia).
    change (16 * Z.of_nat 0) with 0. change DIRENT_SIZE with 16. cbn [orb]. rewrite (nblocks_dent (dslot c) : nblocks off 16 = 1). intros (i' & bs' & Hr & Hst & F3 & M3 & Hw3 & Hfull & W3).
    assert (moved dp k k3 i') as M by (eapply moved_trans; [apply moved_same; [by eapply same_others_trans|apply Hd]|done]).
    assert (forall l, file_written (view k2) i (view k3) i' off l -> file_written (view k) i (view k3) i' off l) as Hfrom.
    { intros l. apply file_written_from; [intros m; by rewrite V2|apply Hd|done]. }
    assert (r = 16 \/ r = 0) as [-> | ->].
    { destruct (decide (r = 16)); [by left|right]. destruct (Hst ltac:(lia)) as [?|Hm]; [done|]. revert Hm. unfold off. change BSIZE with 1024. Z.to_euclidean_division_equations. lia. }
    + cbn [negb Z.eqb Pos.eqb runs mret M_ret]. exists i', bs'. split; [done|]. split; [done|]. split; [done|]. left. split; [done|].
      apply Hfrom. rewrite take_ge in Hw3 by (by rewrite length_new_dent). done.
    + cbn [negb Z.eqb Pos.eqb runs mret M_ret]. exists i', bs'. split; [done|]. split; [done|]. split; [done|]. right. split; [done|].
      split; [by apply Hfrom|]. apply Hfull. lia.
Qed.

(** iget() changes nothing but the count of an entry in use. *)
Lemma igot_keeps t dev inum ip t1 q y : igot t dev inum = Some (ip, t1) -> t !! q = Some y -> 1 <= y.(i_ref) ->
  exists r, t1 !! q = Some (set_ref r y) /\ 1 <= r.
Proof.
  intros Hg Hy Hr. assert (set_ref (i_ref y) y = y) as Ey by (by destruct y).
  unfold igot in Hg. pose proof (iget_scan_spec t 0 dev inum None) as Hs. destruct (iget_scan t 0 dev inum None) as [p|[p|]]; [| |done].
  - simplify_eq. destruct (decide (q = ip)) as [->|Hq].
    + exists (i_ref y + 1). rewrite list_lookup_alter_eq, Hy. split; [done|lia].
    + exists (i_ref y). rewrite list_lookup_alter_ne, Ey by done. done.
  - destruct Hs as [_ [?|(p' & x & [= <-] & _ & Hx & Hr0)]]; [done|]. rewrite Nat.sub_0_r in Hx. simplify_eq.
    assert (q <> ip) by (intros ->; simplify_eq; lia). exists (i_ref y). rewrite list_lookup_alter_ne, Ey by done. done.
Qed.

(** iget() and then iput() of an entry leave the table as it was, but for an unused entry. *)
Lemma igot_iput t dev inum ip t1 : igot t dev inum = Some (ip, t1) ->
  exists x, t1 !! ip = Some x /\ (x.(i_ref) =? 1) && x.(i_valid) && (x.(i_nlink) =? 0) = false /\
    (forall q y, t !! q = Some y -> 1 <= y.(i_ref) -> alter (fun x => set_ref (x.(i_ref) - 1) x) ip t1 !! q = Some y) /\
    i_ref <$> alter (fun x => set_ref (x.(i_ref) - 1) x) ip t1 = i_ref <$> t.
Proof.
  intros Hg. unfold igot in Hg. pose proof (iget_scan_spec t 0 dev inum None) as Hs. destruct (iget_scan t 0 dev inum None) as [p|[p|]]; [| |done].
  - destruct Hs as (x & _ & Hx & Hr & _). rewrite Nat.sub_0_r in Hx. simplify_eq. exists (set_ref (i_ref x + 1) x).
    split; [by rewrite list_lookup_alter_eq, Hx|]. split; [cbn; by rewrite (proj2 (Z.eqb_neq _ _)) by lia|].
    assert (forall q, alter (fun x => set_ref (x.(i_ref) - 1) x) ip (alter (fun x => set_ref (x.(i_ref) + 1) x) ip t) !! q = t !! q) as E.
    { intros q. destruct (decide (q = ip)) as [->|Hq]; [|by rewrite !list_lookup_alter_ne].
      rewrite !list_lookup_alter_eq, Hx. cbn. f_equal. rewrite Z.add_simpl_r. by destruct x. }
    split; [intros q y Hy _; by rewrite E|]. apply list_eq. intros q. by rewrite !list_lookup_fmap, E.
  - destruct Hs as [_ [?|(q & x & [= <-] & _ & Hx & Hr)]]; [done|]. rewrite Nat.sub_0_r in Hx. simplify_eq. eexists.
    split; [by rewrite list_lookup_alter_eq, Hx|]. split; [done|].
    split.
    + intros q y Hy Hry. assert (q <> ip) by (intros ->; simplify_eq; lia). by rewrite !list_lookup_alter_ne.
    + apply list_eq. intros q. rewrite !list_lookup_fmap. destruct (decide (q = ip)) as [->|Hq]; [|by rewrite !list_lookup_alter_ne].
      rewrite !list_lookup_alter_eq, Hx. cbn. by rewrite Hr.
Qed.

(** The name is there: nothing of the directory or the disk changes. *)
Lemma dirlink_exists_tx k i bs c name inum j :
  dir_file k i bs c -> i.(i_type) = T_DIR -> (length bs < NBUF)%nat -> dfind c name = Some j -> igot k.(k_itable) i.(i_dev) (inum_of (dent c j)) <> None ->
  runs (dirlink dp name inum k) (fun r k' => r = -1 /\ in_tx k' bs [] /\ (forall m, view k' m = view k m) /\
    (exists t, others k' = set_itable t (others k) /\ (forall q y, k.(k_itable) !! q = Some y -> 1 <= y.(i_ref) -> t !! q = Some y) /\
       i_ref <$> t = i_ref <$> k.(k_itable)) /\
    forall l, (forall b, l <> SlBuf b) -> k'.(k_slocks) !! l = k.(k_slocks) !! l).
Proof using DOK G.
  intros Hd Ht Hlen Hj Hroom. unfold dirlink. step_by (dirlookup_tx k i bs c name Hd Ht Hlen); [rewrite Hj; by intros x [= <-]|].
  intros r k1. unfold looked. rewrite Hj. intros (ip & t & Hg & -> & I1 & E1 & L1 & V1). destruct (igot_iput _ _ _ _ _ Hg) as (x & Hx & Hb & Hq).
  pose proof (f_equal k_itable E1 : k_itable k1 = t) as Et. step_by (iput_tx k1 bs [] ip x I1); [by rewrite Et|done|].
  intros [] k2 (_ & I2 & F2 & L2 & V2). cbn [runs mret M_ret]. split; [done|]. split; [done|]. split; [intros m; by rewrite V2|].
  split; [|intros l Hl; rewrite L2; by apply L1]. rewrite Et in F2. eexists. split; [|exact Hq].
  unfold others at 1. rewrite F2. rewrite (f_equal k_log F2 : k_log k2 = k_log k1). change (set_log ?x (set_itable ?t ?k)) with (set_itable t (set_log x k)).
  change (set_log (set_lh 0 [] (k_log k1)) (frame k1)) with (others k1). by rewrite E1.
Qed.
End dir.
