(* ===== verification/File.v ===== *)
(** * Open files (kernel/file.c, pipealloc of pipe.c)

    A file pointer is an index of ftable.file[]. *)

From Stdlib Require Import ZArith Lia.
From stdpp Require Import base list numbers strings gmap.
From S2P Require Import Prelude Types Mem Layout Kalloc Vm State Spinlock Printf Proc Sleeplock Bio Log Console Pipe Fs.
Open Scope Z_scope.

Definition getf (f : nat) : M kernel file := gets (fun k => k.(k_ftable) !!! f).
Definition modf (f : nat) (g : file -> file) : M kernel unit :=
  modify (fun k => set_ftable (alter g f k.(k_ftable)) k).

Definition fileinit : M kernel unit := initlock LkFtable.

(** The first entry with ref == 0. *)
Fixpoint free_file (l : list file) (i : nat) : option nat :=
  match l with
  | [] => None
  | f :: l' => if f.(f_ref) =? 0 then Some i else free_file l' (S i)
  end.

Definition filealloc : M kernel (option nat) :=
  acquire LkFtable ;;
  l ← gets k_ftable;
  match free_file l 0 with
  | Some f => modf f (set_f_ref 1) ;; release LkFtable ;; mret (Some f)
  | None => release LkFtable ;; mret None
  end.

Definition filedup (f : nat) : M kernel nat :=
  acquire LkFtable ;;
  x ← getf f;
  if x.(f_ref) <? 1 then panic "filedup"
  else
    modf f (fun x => set_f_ref (x.(f_ref) + 1) x) ;;
    release LkFtable ;;
    mret f.

Section file.
Context `{L : KernelLayout} `{W : Wakes} `{D : Disk}.

Definition fileclose (f : nat) : M kernel unit :=
  acquire LkFtable ;;
  x ← getf f;
  if x.(f_ref) <? 1 then panic "fileclose"
  else
    modf f (fun x => set_f_ref (x.(f_ref) - 1) x) ;;
    ff ← getf f;
    if 0 <? ff.(f_ref) then release LkFtable
    else
      modf f (set_f_ref 0) ;;
      modf f (set_f_type FD_NONE) ;;
      release LkFtable ;;
      match ff.(f_type) with
      | FD_PIPE => pipeclose ff.(f_pipe) ff.(f_writable)
      | FD_INODE | FD_DEVICE =>
          begin_op ;;
          ip ← deref ff.(f_ip);
          iput ip ;;
          end_op
      | FD_NONE => mret tt
      end.

(** pi->readopen = 1; pi->writeopen = 1; pi->nwrite = 0; pi->nread = 0; in a
    page that kalloc filled with 5. *)
Definition new_pipe : pipe := mkpipe (replicate (Z.to_nat PIPESIZE) 5) 0 0 true true.

(** The label [bad] of [pipealloc]. *)
Definition pipealloc_bad (f0 f1 : option nat) : M kernel (option (nat * nat)) :=
  match f0 with Some f => fileclose f | None => mret tt end ;;
  match f1 with Some f => fileclose f | None => mret tt end ;;
  mret None.

(** The read end and the write end, [None] for -1. *)
Definition pipealloc : M kernel (option (nat * nat)) :=
  f0 ← filealloc;
  match f0 with
  | None => pipealloc_bad None None
  | Some r =>
      f1 ← filealloc;
      match f1 with
      | None => pipealloc_bad f0 None
      | Some w =>
          pi ← zoom kalloc;
          if pi =? 0 then pipealloc_bad f0 f1
          else
            modify (fun k => set_pipes (<[pi := new_pipe]> k.(k_pipes)) k) ;;
            initlock (LkPipe pi) ;;
            modf r (fun f => set_f_pipe pi (set_f_rw true false (set_f_type FD_PIPE f))) ;;
            modf w (fun f => set_f_pipe pi (set_f_rw false true (set_f_type FD_PIPE f))) ;;
            mret (Some (r, w))
      end
  end.

Definition filestat (f : nat) (addr : Z) : M kernel Z :=
  i ← curproc;
  x ← getf f;
  match x.(f_type) with
  | FD_INODE | FD_DEVICE =>
      ilock x.(f_ip) ;;
      ip ← deref x.(f_ip);
      st ← stati ip;
      iunlock x.(f_ip) ;;
      p ← getp i;
      r ← zoom (copyout p.(p_sz) p.(p_pagetable) p.(p_pagetable) addr st);
      mret (if r <? 0 then -1 else 0)
  | _ => mret (-1)
  end.

Definition fileread (f : nat) (addr n : Z) : M kernel Z :=
  x ← getf f;
  if negb x.(f_readable) then mret (-1)
  else
    match x.(f_type) with
    | FD_PIPE => piperead x.(f_pipe) addr n
    | FD_DEVICE =>
        if (x.(f_major) <? 0) || (NDEV <=? x.(f_major)) then mret (-1)
        else match devsw_read x.(f_major) with
             | None => mret (-1)
             | Some read => read (User addr) n
             end
    | FD_INODE =>
        ilock x.(f_ip) ;;
        ip ← deref x.(f_ip);
        x ← getf f;
        r ← readi ip (User addr) x.(f_off) (u32 n);
        (if 0 <? r.1 then modf f (fun x => set_f_off (u32 (x.(f_off) + r.1)) x) else mret tt) ;;
        iunlock x.(f_ip) ;;
        mret r.1
    | FD_NONE => panic "fileread"
    end.

(** The most bytes one transaction writes. *)
Definition max_write : Z := ((MAXOPBLOCKS - 1 - 1 - 2) / 2) * BSIZE.

(** The loop of [filewrite]: [i] at the end. *)
Fixpoint filewrite_loop (fuel : nat) (f : nat) (addr n i : Z) : M kernel Z :=
  if i <? n then
    match fuel with
    | O => nofuel
    | S fuel =>
        let n1 := Z.min (n - i) max_write in
        begin_op ;;
        x ← getf f;
        ilock x.(f_ip) ;;
        ip ← deref x.(f_ip);
        x ← getf f;
        r ← writei ip (SUser (u64 (addr + i))) x.(f_off) n1;
        (if 0 <? r then modf f (fun x => set_f_off (u32 (x.(f_off) + r)) x) else mret tt) ;;
        iunlock x.(f_ip) ;;
        end_op ;;
        if negb (r =? n1) then mret i else filewrite_loop fuel f addr n (i + r)
    end
  else mret i.

Definition filewrite (f : nat) (addr n : Z) : M kernel Z :=
  x ← getf f;
  if negb x.(f_writable) then mret (-1)
  else
    match x.(f_type) with
    | FD_PIPE => pipewrite x.(f_pipe) addr n
    | FD_DEVICE =>
        if (x.(f_major) <? 0) || (NDEV <=? x.(f_major)) then mret (-1)
        else match devsw_write x.(f_major) with
             | None => mret (-1)
             | Some write => write (SUser addr) n
             end
    | FD_INODE =>
        i ← filewrite_loop (S (Z.to_nat (n / max_write))) f addr n 0;
        mret (if i =? n then n else -1)
    | FD_NONE => panic "filewrite"
    end.
End file.
