(* ===== verification/FsCrash.v ===== *)
(** * Files across crashes

    What the system calls rely on when they write, read and empty an open file: a write is
    atomic with respect to crashes, is read back, and stays within the blocks begin_op()
    reserved for it; truncation is atomic and frees the blocks of the file. *)

From Stdlib Require Import ZArith Lia.
From stdpp Require Import base list numbers strings gmap sets.
From S2P Require Import Prelude Types Mem Str Layout Kalloc Vm State Spinlock Printf Proc ProcSpec Sleeplock Seq Bio BioSpec BioInit Log LogSpec LogCrash FsTx FsSource Fs FsInode FsBlocks FsMap FsBmap FsFile FsTrunc FsAtomic File.
Open Scope Z_scope.

Section crash.
Context (me : nat) (pid : Z) (d : Z) `{L : KernelLayout} `{W : Wakes} `{D : Disk} `{DOK : !DiskOK}.
Context (start : Z) (sb : superblock) (ds : Z) (G : geom sb ds) (Hlog : 0 <= start /\ start + LOGBLOCKS < sb.(sb_inodestart)).
Abbreviation idle := (idle me pid d start).
Abbreviation open_file := (open_file d sb ds).
Abbreviation file_at := (file_at sb).
Abbreviation only_file := (only_file sb ds).

(** C1. Writing a file is atomic.  begin_op(), ilock(), writei(), iunlock() and end_op() on
    an open file write the first r bytes at the offset given, r being less than n only when the disk is full;
    a write that starts behind the end or would exceed the largest file returns -1 and
    changes nothing.  No other file changes.  Wherever in its disk writes the machine
    stops, the kernel that boots next and recovers the log finds the file with its old
    contents or with the new ones, and every other file as it was. *)
Theorem write_crash_atomic k ip inum i src off l :
  idle k -> open_file k ip inum i -> src_has me k src l -> sb.(sb_logstart) = start -> 0 <= off -> off + Z.of_nat (length l) < 2 ^ 32 ->
  (sb.(sb_size) - 1) / BPB + 3 + nblocks off (Z.of_nat (length l)) <= 28 ->
  let n := Z.of_nat (length l) in let V := disk_read k.(k_disk) in
  runs (write_op ip src off n k) (fun r k' =>
    let new := splice (file_at V inum) off (take (Z.to_nat r) l) in
    (if (i.(i_size) <? off) || (MAXFILE * BSIZE <? off + n) then r = -1
     else 0 <= r <= n /\ (r < n -> forall m, 0 <= m < sb.(sb_size) -> used sb (disk_read k'.(k_disk)) m = true)) /\
    idle k' /\ (exists i', open_file k' ip inum i') /\ only_file V (disk_read k'.(k_disk)) inum new /\
    exists ws cut, k'.(k_disk) = writes_to ws k.(k_disk) /\
      forall j kb, boots me pid d kb (writes_to (take j ws) k.(k_disk)) ->
        runs ((binit ;; initlog d sb) kb) (fun _ k2 =>
          only_file V (disk_read k2.(k_disk)) inum (if decide (j <= cut)%nat then file_at V inum else new))).
Proof using DOK G Hlog L.
  intros I O Hsrc Es Hoff H32 Hroom n V. eapply runs_mono; [by apply (write_op_runs me pid d start sb ds G Hlog k ip inum i src off l)|].
  intros r k' (Hr & I' & O' & Ho & ws & Ed & cut & Hc). split; [done|]. split; [done|]. split; [done|]. split; [done|].
  exists ws, cut. split; [done|]. intros j kb B. destruct (Hc j) as [Hok Hcr].
  eapply runs_mono; [by apply (recovery_op me pid d start sb kb _ B)|]. intros [] k2 H2. by apply Hcr.
Qed.

(** Reading a file.  readi(), between ilock() and iunlock(), returns the bytes of the file from the offset on, n of
    them or those up to its end, and changes neither the file nor the disk. *)
Theorem read_contents k ip inum i off n :
  idle k -> open_file k ip inum i -> 0 <= off -> 0 <= n -> off + n < 2 ^ 32 ->
  runs (read_op ip off n k) (fun r k' => let l := read_at (file_at (disk_read k.(k_disk)) inum) off n in
    r = (Z.of_nat (length l), l) /\ idle k' /\ open_file k' ip inum i /\ k'.(k_disk) = k.(k_disk)).
Proof using DOK G L. apply (read_op_runs me pid d start sb ds G k ip inum i off n). Qed.

Lemma read_splice c off w n : 0 <= off <= Z.of_nat (length c) -> Z.of_nat (length w) <= n ->
  read_at (splice c off w) off n = w ++ take (Z.to_nat n - length w) (drop (Z.to_nat off + length w) c).
Proof.
  intros Hoff Hn. unfold read_at, splice. rewrite drop_app_length' by (rewrite length_take; lia). rewrite take_app.
  by rewrite take_ge by lia.
Qed.

(** C9. What is written is read back: after the write, reading the same range returns
    the bytes that were written, all of them unless the disk was full, followed by the old
    bytes of the rest of the range. *)
Theorem write_read_roundtrip k ip inum i src off l :
  idle k -> open_file k ip inum i -> src_has me k src l -> 0 <= off <= i.(i_size) -> off + Z.of_nat (length l) <= MAXFILE * BSIZE ->
  (sb.(sb_size) - 1) / BPB + 3 + nblocks off (Z.of_nat (length l)) <= 28 ->
  let n := Z.of_nat (length l) in
  runs ((r ← write_op ip src off n; x ← read_op ip off n; mret (r, x)) k) (fun p k' =>
    let '(r, (m, x)) := p in
    0 <= r <= n /\ m = Z.of_nat (length x) /\
    x = take (Z.to_nat r) l ++ take (Z.to_nat (n - r)) (drop (Z.to_nat (off + r)) (file_at (disk_read k.(k_disk)) inum)) /\
    (r < n -> forall a, 0 <= a < sb.(sb_size) -> used sb (disk_read k'.(k_disk)) a = true)).
Proof using DOK G Hlog L.
  intros I O Hsrc [Hoff Hsz] Hmax Hroom n. pose proof (of_fields _ _ _ _ _ _ _ O) as Hfl.
  assert (off + Z.of_nat (length l) < 2 ^ 32) as H32 by (change (MAXFILE * BSIZE) with 274432 in *; lia).
  step_by (write_op_runs me pid d start sb ds G Hlog k ip inum i src off l); [done..|].
  rewrite (proj2 (Z.ltb_ge (i_size i) off)), (proj2 (Z.ltb_ge (MAXFILE * BSIZE) _)) by lia. cbn [orb]. cbv zeta.
  intros r k1 ([Hr Hfull] & I1 & [i1 O1] & [Hc _] & _).
  step_by (read_op_runs me pid d start sb ds G k1 ip inum i1 off n I1 O1); [done|lia|done|].
  intros x k2 (-> & I2 & O2 & Ed). cbn [runs mret M_ret]. rewrite Ed, Hc. split; [done|]. split; [done|]. split; [|done].
  assert (length (take (Z.to_nat r) l) = Z.to_nat r) as Hl by (rewrite length_take; lia).
  pose proof (open_length d sb ds k ip inum i O) as Hlen.
  rewrite read_splice by lia. rewrite Hl. f_equal. f_equal; [lia|]. f_equal. lia.
Qed.

Lemma nblocks_piece off n : n <= max_write -> nblocks off n <= 4.
Proof.
  change max_write with 3072. intros Hn. unfold nblocks. destruct (Z.leb_spec n 0); [lia|].
  change BSIZE with 1024. Z.to_euclidean_division_equations. lia.
Qed.

(** C21. A write of filewrite() fits its reservation: a piece of at most 3 blocks, what
    filewrite() limits it to, on a file system with one block of bitmap puts no more than
    MAXOPBLOCKS blocks into the log. *)
Theorem write_fits_reservation k ip inum i src off l :
  idle k -> open_file k ip inum i -> src_has me k src l -> 0 <= off -> off + Z.of_nat (length l) < 2 ^ 32 ->
  sb.(sb_size) <= BPB -> Z.of_nat (length l) <= max_write ->
  runs ((begin_op ;; ilock (Some ip) ;; writei ip src off (Z.of_nat (length l))) k) (fun r k' =>
    0 <= k'.(k_log).(lh_n) <= MAXOPBLOCKS /\ k'.(k_disk) = k.(k_disk)).
Proof using DOK G Hlog L.
  intros I O Hsrc Hoff H32 Hsz Hn. pose proof (of_inum _ _ _ _ _ _ _ O) as Hi. pose proof (weight_start start sb ds G Hlog inum i Hi) as Hwt.
  pose proof (nblocks_nonneg off (Z.of_nat (length l)) Hoff) as Hnb. pose proof (nblocks_piece off (Z.of_nat (length l)) Hn) as Hnp.
  pose proof (g_data _ _ G). assert ((sb_size sb - 1) / BPB = 0) as E0 by (apply Z.div_small; lia).
  apply runs_assoc. step_by (begin_write me pid d start sb ds G Hlog k ip inum i); [done|done|]. intros [] k1 (B & _ & Ke).
  pose proof (be_disk _ _ _ _ _ _ _ _ _ _ B) as Ed1.
  eapply runs_mono; [apply (writei_tx me pid d true sb ds G ip inum Hi eq_refl k1 i [] src off l); [by apply (src_kept me k); [apply Ke|apply Ke|]|apply B|apply O|done|done|lia]|].
  intros r k2. cbv zeta. destruct (_ || _).
  - intros [-> ->]. rewrite (it_n _ _ _ _ _ _ _ (ff_tx _ _ _ _ _ _ _ _ _ _ _ (be_file _ _ _ _ _ _ _ _ _ _ B))). done.
  - intros (i' & bs & _ & _ & Ff & M & _ & _ & Hwt2). pose proof (ff_tx _ _ _ _ _ _ _ _ _ _ _ Ff) as T. rewrite (it_n _ _ _ _ _ _ _ T).
    pose proof (length_weight sb (IBLOCK inum sb) bs i' (it_nodup _ _ _ _ _ _ _ T)). split; [change MAXOPBLOCKS with 10; lia|].
    rewrite <- Ed1. exact (f_equal k_disk (proj1 M)).
Qed.
End crash.

(** ** Truncation, as open() does it with O_TRUNC *)

(** itrunc() in a transaction of its own. *)
Definition trunc_op `{L : KernelLayout} `{W : Wakes} `{D : Disk} (ip : nat) : M kernel unit :=
  begin_op ;;
  ilock (Some ip) ;;
  itrunc ip ;;
  iunlock (Some ip) ;;
  end_op.

Section trunc.
Context (me : nat) (pid : Z) (d : Z) `{L : KernelLayout} `{W : Wakes} `{D : Disk} `{DOK : !DiskOK}.
Context (start : Z) (sb : superblock) (ds : Z) (G : geom sb ds) (Hlog : 0 <= start /\ start + LOGBLOCKS < sb.(sb_inodestart)).
Abbreviation idle := (idle me pid d start).
Abbreviation open_file := (open_file d sb ds).
Abbreviation file_at := (file_at sb).
Abbreviation only_file := (only_file sb ds).
Abbreviation disk_inode := (disk_inode sb).
Abbreviation good_file := (good_file sb ds).
Abbreviation apart := (apart sb).

Lemma emptied_owns V V' i m : file_ok sb ds V i -> ~ owns V' (with_disk (emptied i) zero_inode) m.
Proof.
  intros F. pose proof (empty_entry V' (with_disk (emptied i) zero_inode)) as H. specialize (fun bn => H bn (emptied_addrs sb ds V i F)).
  intros [H0 [E|(bn & Hb & E)]]; apply H0; rewrite E; [by apply (H 0)|]. apply H. lia.
Qed.

(** A file that shares no block with the one that is emptied. *)
Lemma trunc_other V i V2 inum n :
  truncated sb ds inum V i V2 -> file_ok sb ds V i -> disk_inode V inum = with_disk i zero_inode -> good_file V n -> n <> inum ->
  apart V n inum -> good_file V2 n /\ apart V2 n inum /\ file_at V2 n = file_at V n.
Proof using G.
  intros T Hok Hsync Hg Hne Hd. pose proof Hg as (Hn & F & Hs). assert (disk_inode V2 n = disk_inode V n) as E by (by apply (tr_slots _ _ _ _ _ _ T)).
  assert (forall m, owns V (disk_inode V n) m -> V2 m = V m) as HV by (intros m Ho; apply (tr_data _ _ _ _ _ _ T); destruct (owned_data sb ds _ _ _ F Ho); lia).
  split; [|split; [|by apply (file_at_same sb ds)]].
  2: { intros m _. rewrite (tr_disk _ _ _ _ _ _ T zero_inode : disk_inode V2 inum = _). by apply (emptied_owns V). }
  split; [done|]. rewrite E. split; [|done].
  assert (forall bn, 0 <= bn < MAXFILE -> entry V2 (disk_inode V n) bn = entry V (disk_inode V n) bn) as HE.
  { intros bn Hb. unfold entry. destruct (bn <? NDIRECT); [done|]. destruct (Z.eqb_spec (ind (disk_inode V n)) 0) as [|H0]; [done|]. rewrite HV; [done|]. split; [done|by left]. }
  pose proof (g_data _ _ G). assert (forall m, owns V (disk_inode V n) m -> data_block sb ds V2 m) as HD.
  { intros m Ho. destruct (owned_data sb ds _ _ _ F Ho) as [J1 J2]. split; [done|]. apply (tr_used _ _ _ _ _ _ T); [lia|]. split; [done|].
    intros Ho'. apply (Hd m Ho). by rewrite Hsync. }
  destruct F. split; [done|intros H0; apply HD; split; [done|by left]| |intros b1 b2 J1 J2; rewrite !HE by done; auto].
  intros bn Hb. rewrite HE by done. intros H0. split; [apply HD; split; [done|right; by exists bn]|by apply fo_entry].
Qed.

(** C7. Truncation is atomic and frees exactly the file's blocks.  After itrunc() in its
    transaction the file is empty, every other file is as it was, and the bitmap has lost
    the blocks of the file, the indirect block included, and no other.  Wherever the
    machine stops, the next boot finds the old contents or the empty file. *)
Theorem trunc_crash_atomic k ip inum i :
  idle k -> open_file k ip inum i -> sb.(sb_logstart) = start -> (sb.(sb_size) - 1) / BPB <= 24 ->
  let V := disk_read k.(k_disk) in
  runs (trunc_op ip k) (fun _ k' => idle k' /\ open_file k' ip inum (emptied i) /\ only_file V (disk_read k'.(k_disk)) inum [] /\
    (forall b, 0 <= b < sb.(sb_size) -> used sb (disk_read k'.(k_disk)) b = true <-> used sb V b = true /\ ~ owns V i b) /\
    exists ws cut, k'.(k_disk) = writes_to ws k.(k_disk) /\
      forall j kb, boots me pid d kb (writes_to (take j ws) k.(k_disk)) ->
        runs ((binit ;; initlog d sb) kb) (fun _ k2 => only_file V (disk_read k2.(k_disk)) inum (if decide (j <= cut)%nat then file_at V inum else []))).
Proof using DOK G Hlog L.
  intros I O Es Hbm V. pose proof (of_inum _ _ _ _ _ _ _ O) as Hn. pose proof (weight_start start sb ds G Hlog inum i Hn) as Hwt. pose proof (open_good d sb ds k ip inum i O) as Hg. fold V in Hg.
  unfold trunc_op. apply runs_assoc. step_by (begin_write me pid d start sb ds G Hlog k ip inum i); [done|done|]. intros [] k1 [[El1 Ed1 VV Ff1 Hs1 Hh1 Hl1] _]. fold V in VV.
  step_by (itrunc_tx me pid d true sb ds G ip inum Hn eq_refl k1 i [] Ff1); [apply O|lia|]. intros [] k2 (bs & F2 & M & T & Hlen).
  assert (forall n, good_file V n -> n <> inum -> apart V n inum -> good_file (view d k2) n /\ apart (view d k2) n inum /\ file_at (view d k2) n = file_at V n) as Hoth.
  { intros n J1 J2 J3. rewrite <- (file_at_log start sb ds G Hlog V (view d k1) n J1 ltac:(done)).
    apply (trunc_other (view d k1) i (view d k2) inum n T (ff_ok _ _ _ _ _ _ _ _ _ _ _ Ff1) Hs1); [by apply (good_log start sb ds G Hlog V)|done|by apply (apart_log start sb ds G Hlog V)]. }
  assert (disk_inode (view d k2) inum = with_disk (emptied i) zero_inode) as Hd2 by apply (tr_disk _ _ _ _ _ _ T).
  eapply runs_mono; [apply (finish me pid d start sb ds G Hlog k2 bs ip inum (emptied i) [] (k_disk k))|].
  - apply (closing_tx me pid d start sb ds G Hlog k k2 ip inum (emptied i)); [done|rewrite <- El1; exact (f_equal k_log (proj1 M))|rewrite <- Ed1; exact (f_equal k_disk (proj1 M))|done|]. change LOGBLOCKS with 30. lia.
  - change NBUF with 30%nat. lia.
  - rewrite <- Ed1. exact (f_equal k_disk (proj1 M)).
  - done.
  - done.
  - destruct (of_fields _ _ _ _ _ _ _ O) as (J1 & J2 & J3 & J4 & _). split; [exact J1|]. split; [exact J2|]. split; [exact J3|]. split; [exact J4|]. by split.
  - done.
  - intros x Hx. cbn in Hx. lia.
  - apply O.
  - rewrite (proj2 M); [done|by intros j].
  - done.
  - split; [|intros n J1 J2 J3; by apply Hoth]. unfold FsAtomic.file_at. rewrite Hd2. reflexivity.
  - intros [] k3 (I3 & O3 & Ho3 & HU & _ & _ & ws & Ed & cut & Hcr). split; [done|]. split; [done|]. split; [done|]. split.
    + intros b Hb. rewrite HU, (tr_used _ _ _ _ _ _ T) by done.
      destruct (file_ok_frame sb ds G V (view d k1) i ltac:(done) (of_ok _ _ _ _ _ _ _ O)) as (_ & U1 & HE & _).
      by rewrite U1, (owns_entries V (view d k1) i b HE) by done.
    + exists ws, cut. split; [done|]. intros j kb Hb. destruct (Hcr j) as [Hok Hx].
      eapply runs_mono; [by apply (recovery_op me pid d start sb kb _ Hb)|]. intros [] k4 H4. by apply Hx.
Qed.
End trunc.

(** ** Witnesses: a small file system with one file of five bytes, or one directory *)

#[local] Instance demo_disk : Disk := {| virtio_disk_rw := transfer; virtio_disk_intr := mret tt |}.
#[local] Instance demo_disk_ok : DiskOK.
Proof. by intros b w k. Qed.
#[local] Instance demo_wakes : Wakes := 0%nat.
#[local] Instance crash_layout : KernelLayout := demo_layout.

(** 60 blocks: the log from 2 on, the inodes from 33, the bitmap in 35, data from 36. *)
Definition demo_sb : superblock := mksb FSMAGIC 60 24 16 31 2 33 35.
Definition demo_inode (dir : bool) : inode := mkinode 1 1 1 true (if dir then T_DIR else T_FILE) 0 0 1 (if dir then 32 else 5) (36 :: replicate 12 0).
(** The entry of . and an unused one. *)
Definition demo_dir : block := write_bytes (fun _ => 0) 0 [1; 0; 46].
Definition demo_blocks (dir : bool) (n : Z) : block :=
  if n =? 33 then write_dinode (demo_inode dir) DINODE_SIZE (fun _ => 0)
  else if n =? 35 then fun x => if x <? 4 then 255 else if x =? 4 then 31 else 0
  else if n =? 36 then (if dir then demo_dir else fun x => 97 + x)
  else fun _ => 0.
Definition demo_base (dir : bool) : kernel :=
  set_itable (<[0%nat := demo_inode dir]> run_demo.(k_itable))
    (set_sb demo_sb (set_log (mklog 2 0 false 1 0 (replicate 30 0)) (set_disk (mkdisk (demo_blocks dir) []) run_demo))).
Definition demo_fs (dir : bool) : kernel := match binit (demo_base dir) with Ok _ k => k | _ => demo_base dir end.

Lemma demo_geom : geom demo_sb 36.
Proof. split; vm_compute; intuition congruence. Qed.
Lemma demo_log : 0 <= 2 /\ 2 + LOGBLOCKS < demo_sb.(sb_inodestart).
Proof. split; vm_compute; congruence. Qed.

Lemma demo_fs_linked dir : linked (demo_base dir) NBUF (demo_fs dir).
Proof.
  pose proof (binit_linked (demo_base dir) eq_refl) as H. unfold demo_fs. by destruct (binit (demo_base dir)) as [[] k| | |].
Qed.

(** A kernel with this file system, whatever its processes, memory and open files are. *)
Record like_demo (dir : bool) (k : kernel) : Prop := {
  ld_calm : calm 1 0 [] k;
  ld_blank : blank 1 k;
  ld_fs : (k.(k_log), k.(k_disk), k.(k_sb), k.(k_itable), k.(k_slocks)) = ((demo_base dir).(k_log), (demo_base dir).(k_disk), demo_sb, (demo_base dir).(k_itable), ∅)
}.
Lemma demo_like dir : like_demo dir (demo_base dir).
Proof. split; [|exact demo_blank|done]. apply (calm_parts 1 0 [] run_demo); [apply demo_calm|done..]. Qed.

(** The kernel once binit() has run. *)
Lemma like_parts dir k0 k : like_demo dir k0 -> linked k0 NBUF k ->
  k.(k_log) = (demo_base dir).(k_log) /\ k.(k_disk) = (demo_base dir).(k_disk) /\ k.(k_sb) = demo_sb /\ k.(k_itable) = (demo_base dir).(k_itable) /\ k.(k_slocks) !! SlInode 0 = None.
Proof.
  intros [_ _ E] H. injection E as E1 E2 E3 E4 E5. pose proof (li_rest _ _ _ H) as R.
  rewrite (f_equal k_log R : k_log k = k_log k0), (f_equal k_disk R : k_disk k = k_disk k0), (f_equal k_sb R : k_sb k = k_sb k0), (f_equal k_itable R : k_itable k = k_itable k0).
  do 4 (split; [done|]). apply (li_slocks _ _ _ H). by rewrite E5.
Qed.
Lemma like_idle dir k0 k : like_demo dir k0 -> linked k0 NBUF k -> idle 1 0 1 2 k.
Proof.
  intros Hl H. destruct (ready_linked 1 0 1 k0 k (ld_calm _ _ Hl) (ld_blank _ _ Hl) H) as [R Hr]. destruct (like_parts dir k0 k Hl H) as (El & Ed & _).
  split; [exact R|rewrite El; reflexivity..|exact Hr|apply (linked_rebooted 1 0 1 k0 k (ld_calm _ _ Hl) (ld_blank _ _ Hl) H)|rewrite Ed; reflexivity].
  pose proof (f_equal k_log (li_rest _ _ _ H) : k_log k = k_log k0) as E0. rewrite <- E0, El. reflexivity.
Qed.
Lemma demo_idle dir k : linked (demo_base dir) NBUF k -> idle 1 0 1 2 k.
Proof. apply like_idle with (dir := dir), demo_like. Qed.

Lemma demo_entry dir V bn : 0 <= bn -> entry V (demo_inode dir) bn = if bn =? 0 then 36 else 0.
Proof.
  intros Hb. unfold entry. change (ind (demo_inode dir) =? 0) with true. destruct (Z.ltb_spec bn NDIRECT) as [Hlt|Hge].
  - change NDIRECT with 12 in Hlt. destruct (Z.eqb_spec bn 0) as [->|Hne]; [done|].
    change (i_addrs (demo_inode dir)) with (36 :: replicate 12 0). replace (Z.to_nat bn) with (S (Z.to_nat (bn - 1))) by lia.
    transitivity (replicate 12 0 !!! Z.to_nat (bn - 1)); [reflexivity|]. by rewrite lookup_total_replicate_2 by lia.
  - change NDIRECT with 12 in Hge. destruct (Z.eqb_spec bn 0); [lia|done].
Qed.

Lemma demo_used dir m : 0 <= m < 37 -> used demo_sb (demo_blocks dir) m = true.
Proof.
  intros Hm. assert (forallb (used demo_sb (demo_blocks dir)) (seqZ 0 37) = true) as H by (vm_compute; reflexivity).
  rewrite forallb_forall in H. apply H. apply list_elem_of_In, elem_of_seqZ. lia.
Qed.

Lemma like_open dir k0 k : like_demo dir k0 -> linked k0 NBUF k -> open_file 1 demo_sb 36 k 0 1 (demo_inode dir).
Proof.
  intros Hl H. destruct (like_parts dir k0 k Hl H) as (_ & Edk & Esb & Et & Es). assert (disk_read (k_disk k) = demo_blocks dir) as Ed by (rewrite Edk; reflexivity).
  assert (data_block demo_sb 36 (demo_blocks dir) 36) as Hd by (split; [split; vm_compute; congruence|by apply demo_used]).
  split; rewrite ?Ed.
  - exact Esb.
  - split; vm_compute; congruence.
  - intros m Hm. apply demo_used. lia.
  - rewrite Et. reflexivity.
  - done.
  - done.
  - split; [done|by intros []| |].
    + intros bn Hb. rewrite demo_entry by lia. destruct (bn =? 0); [|done]. intros _. by split.
    + intros b1 b2 H1 H2. rewrite !demo_entry by lia. destruct (Z.eqb_spec b1 0), (Z.eqb_spec b2 0); congruence.
  - repeat split; destruct dir; vm_compute; congruence.
  - destruct dir; vm_compute; reflexivity.
  - intros x Hx. assert (0 <= x < 32) by (destruct dir; cbn in Hx; lia). rewrite demo_entry by (apply Z.div_pos; [lia|done]). rewrite Z.div_small; [done|]. change BSIZE with 1024. lia.
  - done.
  - exact Es.
Qed.
Lemma demo_open dir k : linked (demo_base dir) NBUF k -> open_file 1 demo_sb 36 k 0 1 (demo_inode dir).
Proof. apply like_open, demo_like. Qed.

(** The file holds "abcde". *)
Lemma like_file k0 k : like_demo false k0 -> linked k0 NBUF k -> file_at demo_sb (disk_read k.(k_disk)) 1 = [97; 98; 99; 100; 101].
Proof. intros Hl H. destruct (like_parts false k0 k Hl H) as (_ & -> & _). vm_compute. reflexivity. Qed.
Lemma demo_file k : linked (demo_base false) NBUF k -> file_at demo_sb (disk_read k.(k_disk)) 1 = [97; 98; 99; 100; 101].
Proof. apply like_file, demo_like. Qed.
Lemma demo_splice w : splice [97; 98; 99; 100; 101] 5 w = [97; 98; 99; 100; 101] ++ w.
Proof. unfold splice. rewrite drop_ge by (cbn; lia). by rewrite app_nil_r. Qed.

Lemma write_crash_atomic_witness :
  runs (write_op 0 (SVar [33; 10]) 5 2 (demo_fs false)) (fun r k' => exists ws cut, k'.(k_disk) = writes_to ws (demo_fs false).(k_disk) /\
    0 <= r <= 2 /\ file_at demo_sb (disk_read k'.(k_disk)) 1 = [97; 98; 99; 100; 101] ++ take (Z.to_nat r) [33; 10] /\
    forall j kb, boots 1 0 1 kb (writes_to (take j ws) (demo_fs false).(k_disk)) ->
      runs ((binit ;; initlog 1 demo_sb) kb) (fun _ k2 => file_at demo_sb (disk_read k2.(k_disk)) 1 =
        [97; 98; 99; 100; 101] ++ if decide (j <= cut)%nat then [] else take (Z.to_nat r) [33; 10])).
Proof.
  pose proof (demo_file (demo_fs false) (demo_fs_linked false)) as Ef.
  eapply runs_mono; [apply (write_crash_atomic 1 0 1 2 demo_sb 36 demo_geom demo_log (demo_fs false) 0 1 (demo_inode false) (SVar [33; 10]) 5 [33; 10]
    (demo_idle _ _ (demo_fs_linked _)) (demo_open _ _ (demo_fs_linked _)) eq_refl); [reflexivity|lia|reflexivity|vm_compute; congruence]|].
  cbv zeta. rewrite Ef. intros r k' (Hr & _ & _ & [Hc _] & ws & cut & Ed & Hj). rewrite demo_splice in *. exists ws, cut.
  split; [exact Ed|]. split; [apply Hr|]. split; [exact Hc|]. intros j kb B. eapply runs_mono; [apply (Hj j kb B)|].
  intros [] k2 [H2 _]. rewrite H2. case_decide; [by rewrite app_nil_r|reflexivity].
Defined.

Lemma read_contents_witness :
  runs (read_op 0 1 3 (demo_fs false)) (fun r k' => r = (3, [98; 99; 100]) /\ k'.(k_disk) = (demo_fs false).(k_disk)).
Proof.
  eapply runs_mono; [apply (read_contents 1 0 1 2 demo_sb 36 demo_geom (demo_fs false) 0 1 (demo_inode false) 1 3
    (demo_idle _ _ (demo_fs_linked _)) (demo_open _ _ (demo_fs_linked _))); [lia|lia|reflexivity]|].
  cbv zeta. rewrite (demo_file (demo_fs false) (demo_fs_linked false)). intros r k' (-> & _ & _ & Ed). split; [reflexivity|exact Ed].
Defined.

Lemma write_read_roundtrip_witness :
  runs ((r ← write_op 0 (SVar [33; 10]) 3 2; x ← read_op 0 3 2; mret (r, x)) (demo_fs false))
    (fun p _ => let '(r, (m, x)) := p in r = 2 -> x = [33; 10]).
Proof.
  eapply runs_mono; [apply (write_read_roundtrip 1 0 1 2 demo_sb 36 demo_geom demo_log (demo_fs false) 0 1 (demo_inode false) (SVar [33; 10]) 3 [33; 10]
    (demo_idle _ _ (demo_fs_linked _)) (demo_open _ _ (demo_fs_linked _)) eq_refl); [vm_compute; split; congruence|vm_compute; congruence|vm_compute; congruence]|].
  cbv zeta. intros (r & m & x) k' (_ & _ & -> & _) ->. reflexivity.
Defined.

Lemma write_fits_reservation_witness :
  runs ((begin_op ;; ilock (Some 0%nat) ;; writei 0 (SVar [33; 10]) 5 2) (demo_fs false)) (fun r k' => k'.(k_log).(lh_n) <= MAXOPBLOCKS).
Proof.
  eapply runs_mono; [apply (write_fits_reservation 1 0 1 2 demo_sb 36 demo_geom demo_log (demo_fs false) 0 1 (demo_inode false) (SVar [33; 10]) 5 [33; 10]
    (demo_idle _ _ (demo_fs_linked _)) (demo_open _ _ (demo_fs_linked _)) eq_refl); [lia|reflexivity|vm_compute; congruence|vm_compute; congruence]|].
  intros r k' [[_ H] _]. exact H.
Defined.

Lemma demo_first : 0 <= 0 < MAXFILE.
Proof. split; vm_compute; congruence. Qed.
Lemma demo_36 : 0 <= 36 < demo_sb.(sb_size).
Proof. split; vm_compute; congruence. Qed.

Lemma trunc_crash_atomic_witness :
  runs (trunc_op 0 (demo_fs false)) (fun _ k' => file_at demo_sb (disk_read k'.(k_disk)) 1 = [] /\ used demo_sb (disk_read k'.(k_disk)) 36 = false /\
    exists ws cut, k'.(k_disk) = writes_to ws (demo_fs false).(k_disk) /\
      forall j kb, boots 1 0 1 kb (writes_to (take j ws) (demo_fs false).(k_disk)) ->
        runs ((binit ;; initlog 1 demo_sb) kb) (fun _ k2 =>
          file_at demo_sb (disk_read k2.(k_disk)) 1 = if decide (j <= cut)%nat then [97; 98; 99; 100; 101] else [])).
Proof.
  generalize (demo_fs false), (demo_fs_linked false). intros k H. pose proof (demo_file k H) as Ef.
  eapply runs_mono; [apply (trunc_crash_atomic 1 0 1 2 demo_sb 36 demo_geom demo_log k 0 1 (demo_inode false) (demo_idle _ k H) (demo_open _ k H)); [reflexivity|vm_compute; congruence]|].
  cbv zeta. rewrite Ef. intros [] k' (_ & _ & [Hc _] & HU & ws & cut & Ed & Hj). split; [exact Hc|]. split.
  - apply not_true_is_false. intros E. apply (proj2 (proj1 (HU 36 demo_36) E)). split; [discriminate|]. right. exists 0.
    split; [exact demo_first|]. symmetry. apply (demo_entry false). discriminate.
  - exists ws, cut. split; [exact Ed|]. intros j kb B. eapply runs_mono; [apply (Hj j kb B)|]. intros [] k2 [H2 _]. exact H2.
Defined.
