(* ===== verification/FsIO.v ===== *)
(** * fileread() and filewrite() on files of the file system

    fileread() copies the contents of the file to the memory of the process as one
    copyout() of them would.  The loop of filewrite() writes the user's buffer in pieces of at most three blocks, each
    in a transaction of its own.  Its specification: how much is written, what the offset
    of the open file is afterwards, and what a crash in the middle leaves. *)

From Stdlib Require Import ZArith Lia.
From stdpp Require Import base list numbers strings gmap sets.
From S2P Require Import Prelude Types Mem Str Layout Kalloc Vm VmTables VmMap VmSpace VmUser VmCopy State Spinlock Printf Proc ProcSpec Sleeplock Seq Bio BioSpec BioInit Log LogSpec LogCrash FsTx FsSource Fs FsInode FsBlocks FsMap FsBmap FsFile FsAtomic File FsCrash.
Open Scope Z_scope.

(** *** Pieces of a buffer *)

Lemma length_splice c off w : 0 <= off <= Z.of_nat (length c) -> off + Z.of_nat (length w) <= Z.of_nat (length (splice c off w)).
Proof. intros H. unfold splice. rewrite !length_app, length_take. lia. Qed.

(** Writing the next piece behind what has been written. *)
Lemma splice_more c off l a b :
  0 <= off -> (a <= length l)%nat -> a = 0%nat \/ off <= Z.of_nat (length c) ->
  splice (splice c off (take a l)) (off + Z.of_nat a) (take b (drop a l)) = splice c off (take (a + b) l).
Proof.
  intros H0 Ha [-> |Hoff]; [by rewrite take_0, splice_nil, drop_0, Z.add_0_r|].
  assert (take a l ++ take b (drop a l) = take (a + b) l) as <- by (by rewrite take_take_drop).
  unfold splice. assert (length (take a l) = a) as El by (rewrite length_take; lia). assert (length (take (Z.to_nat off) c) = Z.to_nat off) as Eo by (rewrite length_take; lia).
  set (A := take (Z.to_nat off) c) in *. set (B := take a l) in *. set (w := take b (drop a l)). rewrite (app_assoc A B).
  rewrite take_app_length' by (rewrite length_app; lia). rewrite drop_app_ge by (rewrite length_app; lia).
  rewrite drop_drop, <- !app_assoc, length_app. do 4 f_equal. rewrite length_app. lia.
Qed.

Section write.
Context (me : nat) (pid : Z) (d : Z) `{L : KernelLayout} `{W : Wakes} `{D : Disk} `{DOK : !DiskOK}.
Context (start : Z) (sb : superblock) (ds : Z) (G : geom sb ds) (Hlog : 0 <= start /\ start + LOGBLOCKS < sb.(sb_inodestart)).
Abbreviation idle := (idle me pid d start).
Abbreviation open_file := (open_file d sb ds).
Abbreviation file_at := (file_at sb).
Abbreviation only_file := (only_file sb ds).
Abbreviation fs_file := (fs_file me pid d true sb ds).
Abbreviation wrote_atomically := (wrote_atomically me pid d start sb ds).

(** The file table is no part of the file system's state. *)
Lemma fs_file_ftable o ip inum k i bs ft : FsBmap.fs_file me pid d o sb ds ip inum k i bs -> FsBmap.fs_file me pid d o sb ds ip inum (set_ftable ft k) i bs.
Proof.
  intros []. split; try done. destruct ff_tx. split; try done. destruct it_ready as [Hc [l C]]. split; [by apply (calm_parts me pid [] k)|].
  exists l. destruct C. by split.
Qed.

(** The entry of the file table once [r] bytes have been written, as filewrite() computes it. *)
Definition advanced (f : nat) (r : Z) (ft : list file) : list file :=
  if 0 <? r then alter (fun x => set_f_off (u32 (x.(f_off) + r)) x) f ft else ft.

Lemma modf_advanced f r k : (if 0 <? r then modf f (fun x => set_f_off (u32 (x.(f_off) + r)) x) else mret tt) k = Ok tt (set_ftable (advanced f r k.(k_ftable)) k).
Proof. unfold advanced. destruct (0 <? r); [done|]. by destruct k. Qed.
Lemma set_f_off_id x : set_f_off x.(f_off) x = x.
Proof. by destruct x. Qed.
Lemma advanced_entry f r ft x : ft !! f = Some x -> 0 <= x.(f_off) -> x.(f_off) + r < 2 ^ 32 ->
  advanced f r ft !! f = Some (set_f_off (x.(f_off) + Z.max 0 r) x).
Proof.
  intros E H0 H1. unfold advanced. destruct (Z.ltb_spec 0 r).
  - rewrite list_lookup_alter_eq, E. cbn. rewrite u32_small by lia. do 3 f_equal. lia.
  - by rewrite E, Z.max_l, Z.add_0_r, set_f_off_id by lia.
Qed.

(** What one turn of the loop does. *)
Definition piece_written (k k' : kernel) (f ip : nat) (inum : Z) (i : inode) (off : Z) (l : list Z) (r : Z) : Prop :=
  (if (i.(i_size) <? off) || (MAXFILE * BSIZE <? off + Z.of_nat (length l)) then r = -1
   else 0 <= r <= Z.of_nat (length l) /\ (r < Z.of_nat (length l) -> forall m, 0 <= m < sb.(sb_size) -> used sb (disk_read k'.(k_disk)) m = true)) /\
  wrote_atomically k k' ip inum (splice (file_at (disk_read k.(k_disk)) inum) off (take (Z.to_nat r) l)) /\
  kept (set_ftable (advanced f r k.(k_ftable)) k) k'.

Lemma piece_tx {B} k f x ip inum i src l (g : Z -> M kernel B) Q :
  idle k -> open_file k ip inum i -> k.(k_ftable) !! f = Some x -> x.(f_ip) = Some ip -> src_has me k src l ->
  0 <= x.(f_off) -> x.(f_off) + Z.of_nat (length l) < 2 ^ 32 -> (sb.(sb_size) - 1) / BPB + 3 + nblocks x.(f_off) (Z.of_nat (length l)) <= 28 ->
  (forall r k', piece_written k k' f ip inum i x.(f_off) l r -> runs (g r k') Q) ->
  runs ((begin_op ;; x ← getf f; ilock x.(f_ip) ;; ip ← deref x.(f_ip); x ← getf f; r ← writei ip src x.(f_off) (Z.of_nat (length l));
    (if 0 <? r then modf f (fun x => set_f_off (u32 (x.(f_off) + r)) x) else mret tt) ;; iunlock x.(f_ip) ;; end_op ;; g r) k) Q.
Proof using DOK G Hlog L.
  intros I O Ef Eip Hsrc Hoff H32 Hroom Hg. pose proof (of_inum _ _ _ _ _ _ _ O) as Hn. pose proof (weight_start start sb ds G Hlog inum i Hn) as Hwt.
  pose proof (nblocks_nonneg (f_off x) (Z.of_nat (length l)) Hoff) as Hnb.
  pose proof (begin_write me pid d start sb ds G Hlog k ip inum i I O) as Hb. pose proof (begin_op_tx me pid d start k I) as H0. apply runs_bind.
  unfold mbind in Hb at 1. unfold M_bind in Hb at 1. destruct (begin_op k) as [[] k0| | |]; [|done..]. cbn in Hb, H0. destruct H0 as (_ & F0 & _).
  cbn [runs]. unfold getf. rewrite bind_gets, (f_equal k_ftable F0 : k_ftable k0 = k_ftable k), (list_lookup_total_correct _ _ _ Ef), Eip.
  step_by Hb. intros [] k1 (Bg & _ & Ke). rewrite (bind_ok (deref (Some ip)) _ k1 ip k1 eq_refl), bind_gets, (ke_ftable _ _ Ke), (list_lookup_total_correct _ _ _ Ef).
  step_by (writei_tx me pid d true sb ds G ip inum Hn eq_refl k1 i [] src (f_off x) l); [by apply (src_kept me k); [apply Ke|apply Ke|]|apply Bg|apply O|done|done|lia|].
  intros r k2. rewrite Eip. destruct (_ || _) eqn:Eb.
  - intros [-> ->]. cbn [Z.ltb Z.compare]. rewrite (bind_ok (mret tt) _ k1 tt k1 eq_refl). apply runs_assoc. step_by (refused_end me pid d start sb ds G Hlog k k1 ip inum i); [done..|].
    intros [] k3 (Hw & _ & K3). apply Hg. split; [by rewrite Eb|]. change (Z.to_nat (-1)) with 0%nat. rewrite take_0, splice_nil. split; [done|].
    apply (kept_trans _ k1); [by destruct Ke|done].
  - intros (i' & bs & Hr & _ & Ff & M & Hw & Hfull & Hwt2). pose proof Eb as [_ Eb2%Z.ltb_ge]%orb_false_iff.
    pose proof (length_weight sb (IBLOCK inum sb) bs i' (it_nodup _ _ _ _ _ _ _ (ff_tx _ _ _ _ _ _ _ _ _ _ _ Ff))) as Hlen.
    apply runs_bind. rewrite modf_advanced.
    cbn [runs]. apply runs_assoc. set (k2' := set_ftable _ k2).
    step_by (written_end me pid d start sb ds G Hlog k k1 k2' ip inum i i' bs (f_off x) (take (Z.to_nat r) l));
      [done|done|done|rewrite length_take; lia|by apply fs_file_ftable|exact (f_equal k_log (proj1 M))|exact (f_equal k_disk (proj1 M))| |done|change NBUF with 30%nat; lia|].
    { change (k_slocks k2 !! SlInode ip = Some pid). rewrite (proj2 M) by (by intros j). apply Bg. }
    intros [] k3 (Hat & HU & K3). apply Hg. split; [|split; [done|]].
    + rewrite Eb. split; [done|]. intros Hlt m Hm. rewrite HU by done. by apply Hfull.
    + apply (kept_trans _ k2'); [|done]. pose proof (kept_trans _ _ _ Ke (kept_others k1 k2 _ (proj1 M))) as [K1 K2 K4]. split; [exact K1|exact K2|]. cbn. by rewrite K4.
Qed.
(** *** The loop *)

Section loop.
Context (k0 : kernel) (f ip : nat) (x : file) (inum : Z) (i0 : inode) (addr : Z) (l : list Z).
Context (I0 : idle k0) (O0 : open_file k0 ip inum i0) (Ef : k0.(k_ftable) !! f = Some x) (Eip : x.(f_ip) = Some ip).
Context (Hu : src_has me k0 (SUser addr) l) (Hoff : 0 <= x.(f_off)) (H32 : x.(f_off) + Z.of_nat (length l) < 2 ^ 32).
Context (Hbm : (sb.(sb_size) - 1) / BPB <= 21).
Abbreviation V0 := (disk_read k0.(k_disk)).

(** The contents with the first [c] bytes of the buffer. *)
Definition so_far (c : nat) : list Z := splice (file_at V0 inum) x.(f_off) (take c l).

(** A crash with the disk as [dk] leaves all [t] bytes or those of whole pieces. *)
Definition crash_at (t : nat) (dk : disk) : Prop :=
  log_ok start dk /\
  forall V, (forall m, ~ log_area start m -> V m = durable start dk m) ->
    exists c, (c = t \/ (c <= t)%nat /\ Z.of_nat c mod max_write = 0) /\ only_file V0 V inum (so_far c).

(** [t] bytes have been written. *)
Record progress (t : nat) (k : kernel) : Prop := {
  pr_idle : idle k;
  pr_open : exists i, open_file k ip inum i;
  pr_file : only_file V0 (disk_read k.(k_disk)) inum (so_far t);
  pr_entry : k.(k_ftable) !! f = Some (set_f_off (x.(f_off) + Z.of_nat t) x);
  pr_mem : k.(k_mem) = k0.(k_mem);
  pr_procs : set_state UNUSED <$> k.(k_procs) = set_state UNUSED <$> k0.(k_procs);
  pr_inside : t = 0%nat \/ x.(f_off) <= i0.(i_size);
  pr_crash : exists ws, k.(k_disk) = writes_to ws k0.(k_disk) /\ forall j, crash_at t (writes_to (take j ws) k0.(k_disk))
}.

Lemma progress_start : progress 0 k0.
Proof using I0 O0 Ef G Hlog.
  pose proof (inodes_first sb ds G). pose proof (g_data _ _ G). pose proof (g_size _ _ G).
  assert (only_file V0 V0 inum (so_far 0)) as Ho by (unfold so_far; rewrite take_0, splice_nil; apply only_file_none).
  split; [done|by exists i0|done|by rewrite Ef, Z.add_0_r, set_f_off_id|done|done|by left|]. exists []. split; [by rewrite writes_to_nil|]. intros j. rewrite take_nil, writes_to_nil.
  assert (log_blocks (disk_read (k_disk k0) start) = []) as E by (unfold log_blocks; by rewrite (id_header _ _ _ _ _ I0)). split.
  - split; [by rewrite (id_header _ _ _ _ _ I0)|]. rewrite E. apply header_ok_nil; lia.
  - intros V HV. exists 0%nat. split; [by left|].
    apply (only_file_log start sb ds G Hlog V0 V0 V0); [done|intros m Hm; rewrite HV by done; by apply durable_empty|by apply (open_good d sb ds k0 ip inum i0)..|done].
Qed.

(** One more piece, in a transaction of its own. *)
Lemma crash_step t t' k k' :
  progress t k -> (t <= t')%nat -> Z.of_nat t mod max_write = 0 -> wrote_atomically k k' ip inum (so_far t') ->
  exists ws, k'.(k_disk) = writes_to ws k0.(k_disk) /\ forall j, crash_at t' (writes_to (take j ws) k0.(k_disk)).
Proof using Type.
  intros P Ht Hm (_ & _ & _ & ws2 & E2 & cut & H2). destruct (pr_crash _ _ P) as (ws & E & Hc). exists (ws ++ ws2).
  rewrite <- writes_to_app, <- E. split; [done|]. intros j. rewrite take_app. destruct (decide (j <= length ws)%nat) as [Hj|Hj].
  - rewrite (proj2 (Nat.sub_0_le _ _)), take_0, app_nil_r by done. destruct (Hc j) as [Hok HV]. split; [done|]. intros V H. destruct (HV V H) as (c & Hcc & Ho).
    exists c. split; [|done]. right. destruct Hcc as [-> |[? ?]]; split; (done || lia).
  - rewrite (take_ge ws) by lia. rewrite <- writes_to_app, <- E. destruct (H2 (j - length ws)%nat) as [Hok HV]. split; [done|]. intros V H. specialize (HV V H).
    pose proof (only_file_trans _ _ _ _ _ _ _ _ (pr_file _ _ P) HV) as Ho. rewrite (proj1 (pr_file _ _ P)) in Ho.
    destruct (decide _); [exists t; split; [by right|done]|exists t'; split; [by left|done]].
Qed.

(** Why not everything is written: the offset is behind the end of the file, the file
    would become too large, or the disk is full. *)
Definition stuck (k : kernel) : Prop :=
  i0.(i_size) < x.(f_off) \/ MAXFILE * BSIZE < x.(f_off) + Z.of_nat (length l) \/
  forall m, 0 <= m < sb.(sb_size) -> used sb (disk_read k.(k_disk)) m = true.

Lemma length_piece t : (t <= length l)%nat -> Z.of_nat (length (take (Z.to_nat max_write) (drop t l))) = Z.min (Z.of_nat (length l) - Z.of_nat t) max_write.
Proof using Type. intros Ht. rewrite length_take, length_drop. change max_write with 3072. lia. Qed.

Lemma progress_open t k i : progress t k -> open_file k ip inum i -> x.(f_off) <= i0.(i_size) -> (t <= length l)%nat -> x.(f_off) + Z.of_nat t <= i.(i_size).
Proof using O0 Hoff.
  intros P O Hin Ht. rewrite <- (open_length d sb ds k ip inum i O), (proj1 (pr_file _ _ P)).
  pose proof (open_length d sb ds k0 ip inum i0 O0) as E0. pose proof (length_splice (file_at V0 inum) (f_off x) (take t l) ltac:(lia)) as H.
  rewrite length_take, Nat.min_l in H by lia. exact H.
Qed.

Lemma progress_step t k k' i r :
  progress t k -> (t < length l)%nat -> Z.of_nat t mod max_write = 0 -> open_file k ip inum i ->
  let p := take (Z.to_nat max_write) (drop t l) in
  piece_written k k' f ip inum i (x.(f_off) + Z.of_nat t) p r ->
  progress (t + Z.to_nat r) k' /\ -1 <= r <= Z.of_nat (length p) /\ (r <> Z.of_nat (length p) -> stuck k').
Proof using O0 Hoff H32.
  intros P Ht Hm O p (Hr & Hat & Ke). pose proof (length_piece t ltac:(lia)) as Hp. fold p in Hp.
  assert (-1 <= r <= Z.of_nat (length p) /\ (r <> Z.of_nat (length p) -> stuck k') /\ (r = -1 \/ x.(f_off) + Z.of_nat t <= i.(i_size))) as (Hb & Hst & Hin).
  { destruct (Z.ltb_spec (i_size i) (f_off x + Z.of_nat t)) as [Hlt|Hge]; cbn [orb] in Hr.
    - split; [lia|]. split; [|by left]. intros _. left. apply Z.lt_nge. intros Hle. pose proof (progress_open t k i P O Hle ltac:(lia)). lia.
    - destruct (Z.ltb_spec (MAXFILE * BSIZE) (f_off x + Z.of_nat t + Z.of_nat (length p))).
      + split; [lia|]. split; [|by left]. intros _. right. left. lia.
      + destruct Hr as [Hr Hf]. split; [lia|]. split; [|by right]. intros Hne. right. right. apply Hf. lia. }
  split; [|done].
  assert (t = 0%nat \/ f_off x <= Z.of_nat (length (file_at V0 inum))) as Hins by (rewrite (open_length d sb ds k0 ip inum i0 O0); apply P).
  assert (splice (file_at (disk_read (k_disk k)) inum) (f_off x + Z.of_nat t) (take (Z.to_nat r) p) = so_far (t + Z.to_nat r)) as Es.
  { rewrite (proj1 (pr_file _ _ P)). unfold p. rewrite take_take, Nat.min_l by (change max_write with 3072 in *; lia). apply splice_more; [done|lia|done]. }
  rewrite Es in Hat. pose proof (crash_step t (t + Z.to_nat r) k k' P ltac:(lia) Hm Hat) as Hc. destruct Hat as (I' & O' & Ho & _). split.
  - done.
  - done.
  - exact (only_file_trans _ _ _ _ _ _ _ _ (pr_file _ _ P) Ho).
  - rewrite (ke_ftable _ _ Ke : k_ftable k' = advanced f r (k_ftable k)), (advanced_entry f r _ _ (pr_entry _ _ P)) by (cbn; lia). cbn.
    replace (f_off x + Z.of_nat t + Z.max 0 r) with (f_off x + Z.of_nat (t + Z.to_nat r)) by lia. done.
  - rewrite (ke_mem _ _ Ke). apply P.
  - rewrite (ke_procs _ _ Ke). apply P.
  - destruct Hins as [-> |Hin0]; [|right; by rewrite <- (open_length d sb ds k0 ip inum i0 O0)]. destruct Hin as [-> |Hin]; [by left|]. right.
    rewrite <- (open_length d sb ds k ip inum i O), (proj1 (pr_file _ _ P)) in Hin. unfold so_far in Hin. rewrite take_0, splice_nil, (open_length d sb ds k0 ip inum i0 O0) in Hin. lia.
  - done.
Qed.

Lemma loop_runs fuel t k :
  progress t k -> (t <= length l)%nat -> Z.of_nat t mod max_write = 0 \/ t = length l -> Z.of_nat (length l) - Z.of_nat t <= Z.of_nat fuel * max_write ->
  runs (filewrite_loop fuel f addr (Z.of_nat (length l)) (Z.of_nat t) k) (fun r k' => exists t', progress t' k' /\ (t' <= length l)%nat /\
    (r = Z.of_nat (length l) <-> t' = length l) /\ ((t' < length l)%nat -> stuck k')).
Proof using All.
  revert t k. induction fuel as [|fuel IH]; intros t k P Ht Hmod Hf; cbn [filewrite_loop]; destruct (Z.ltb_spec (Z.of_nat t) (Z.of_nat (length l))) as [Hlt|Hge].
  1: change max_write with 3072 in Hf; lia.
  1, 3: exists t; (split; [done|]); lia.
  destruct Hmod as [Hmod| ->]; [|lia]. destruct (pr_open _ _ P) as [i O]. set (p := take (Z.to_nat max_write) (drop t l)).
  pose proof (length_piece t Ht) as Hp. fold p in Hp. rewrite <- Hp.
  pose proof (nblocks_piece (f_off x + Z.of_nat t) (Z.of_nat (length p)) ltac:(lia)) as Hnb.
  simple apply (piece_tx k f (set_f_off (f_off x + Z.of_nat t) x) ip inum i); [apply P|done|apply P|done| |cbn; lia|cbn; lia|cbn; lia|].
  { apply (src_kept me k0); [apply P|apply P|]. pose proof (src_add me k0 (SUser addr) l t Hu Ht) as Hs. cbn in *. by apply user_reads_take. }
  intros r k' Hw. destruct (progress_step t k k' i r P ltac:(lia) Hmod O Hw) as (P' & Hb & Hst). fold p in Hb, Hst.
  destruct (Z.eqb_spec r (Z.of_nat (length p))) as [Er|Hne]; cbn [negb].
  - rewrite Er in *. rewrite Nat2Z.id in P'. rewrite <- Nat2Z.inj_add. apply IH; [done|lia| |change max_write with 3072 in *; lia].
    destruct (Z.min_spec (Z.of_nat (length l) - Z.of_nat t) max_write) as [[_ E]|[_ E]]; rewrite E in Hp; [right; lia|left].
    rewrite Nat2Z.inj_add, Hp, <- Zplus_mod_idemp_r, Z_mod_same_full, Z.add_0_r. done.
  - cbn [runs mret M_ret]. exists (t + Z.to_nat r)%nat. split; [done|]. split; [lia|]. split; [lia|]. intros _. by apply Hst.
Qed.
End loop.

(** C2. filewrite() on a file writes the user's buffer at the offset of the open file.  It
    returns n when all n bytes are written and -1 otherwise, and then the offset was
    behind the end of the file, the file would have become too large, or the disk is full.
    In every case the offset has advanced by the t bytes written, which are the first ones of the
    buffer, and no other file has changed.  The pieces are written one transaction each: wherever the
    machine stops, the kernel that boots next finds the file with the first c bytes of the
    buffer, c being t or the end of a piece, so a write of one piece is atomic. *)
Theorem filewrite_pieces k f x ip inum i addr l :
  idle k -> open_file k ip inum i -> sb.(sb_logstart) = start -> (sb.(sb_size) - 1) / BPB <= 21 ->
  k.(k_ftable) !! f = Some x -> x.(f_type) = FD_INODE -> x.(f_writable) = true -> x.(f_ip) = Some ip ->
  src_has me k (SUser addr) l -> 0 <= x.(f_off) -> x.(f_off) + Z.of_nat (length l) < 2 ^ 32 ->
  let n := Z.of_nat (length l) in let V := disk_read k.(k_disk) in
  let after c := splice (file_at V inum) x.(f_off) (take c l) in
  runs (filewrite f addr n k) (fun r k' => exists t : nat, (t <= length l)%nat /\
    r = (if decide (t = length l) then n else -1) /\
    ((t < length l)%nat -> i.(i_size) < x.(f_off) \/ MAXFILE * BSIZE < x.(f_off) + n \/ forall m, 0 <= m < sb.(sb_size) -> used sb (disk_read k'.(k_disk)) m = true) /\
    k'.(k_ftable) !! f = Some (set_f_off (x.(f_off) + Z.of_nat t) x) /\
    idle k' /\ (exists i', open_file k' ip inum i') /\ only_file V (disk_read k'.(k_disk)) inum (after t) /\
    exists ws, k'.(k_disk) = writes_to ws k.(k_disk) /\
      forall j kb, boots me pid d kb (writes_to (take j ws) k.(k_disk)) ->
        runs ((binit ;; initlog d sb) kb) (fun _ k2 =>
          exists c, (c = t \/ (c <= t)%nat /\ Z.of_nat c mod max_write = 0) /\ only_file V (disk_read k2.(k_disk)) inum (after c))).
Proof using DOK G Hlog L.
  intros I O Es Hbm Ef Ety Ew Eip Hu Hoff H32 n V after. unfold filewrite, getf. rewrite bind_gets, (list_lookup_total_correct _ _ _ Ef), Ew, Ety. cbn [negb].
  change 0 with (Z.of_nat 0) at 1. step_by (loop_runs k f ip x inum i addr l I O Ef Eip Hu Hoff H32 Hbm (S (Z.to_nat (n / max_write))) 0 k); [by apply progress_start|lia|by left| |].
  { change max_write with 3072. subst n. Z.to_euclidean_division_equations. lia. }
  intros r k' (t & P & Ht & Hr & Hst). cbn [runs mret M_ret]. exists t. split; [done|]. split.
  { fold n in Hr. destruct (Z.eqb_spec r n), (decide (t = length l)); tauto. }
  split; [exact Hst|]. split; [apply P|]. split; [apply P|]. split; [apply P|]. split; [apply P|].
  destruct (pr_crash _ _ _ _ _ _ _ _ _ P) as (ws & E & Hc). exists ws. split; [done|]. intros j kb Hb. destruct (Hc j) as [Hok HV].
  eapply runs_mono; [by apply (recovery_op me pid d start sb kb _ Hb)|]. intros [] k2 H2. by apply HV.
Qed.
End write.

(** ** fileread() *)

Section read.
Context (me : nat) (pid : Z) (d : Z) `{L : KernelLayout} {LOK : KernelLayoutOK L} `{W : Wakes} `{D : Disk} `{DOK : !DiskOK}.
Context (start : Z) (sb : superblock) (ds : Z) (G : geom sb ds) (Hlog : 0 <= start /\ start + LOGBLOCKS < sb.(sb_inodestart)).
Abbreviation idle := (idle me pid d start).
Abbreviation open_file := (open_file d sb ds).
Abbreviation file_at := (file_at sb).
Abbreviation fs_file := (fs_file me pid d false sb ds).
Abbreviation view := (view d).

Section file.
Context (ip : nat) (inum : Z).

Lemma fs_file_mem k i bs m : fs_file ip inum k i bs -> fs_file ip inum (set_mem m k) i bs.
Proof. intros []. split; try done. by apply tx_mem. Qed.

(** The process, its page table and its size. *)
Context (root psz : Z) (Hsz : 0 <= psz <= TRAPFRAME).
Definition runs_in (k : kernel) : Prop := p_pagetable (k.(k_procs) !!! me) = root /\ p_sz (k.(k_procs) !!! me) = psz.
Lemma runs_in_same k k' : same k k' -> runs_in k -> runs_in k'.
Proof using Type. intros [E _]. unfold runs_in. destruct (procs_kept me k k' (f_equal k_procs E)) as [-> ->]. done. Qed.

(** From [k] to [k'] the bytes [data] were copied to [va], as by copyout() with result [r];
    the free pages were [fl] and are [fl']. *)
Record copied (k k' : kernel) (fl fl' : list Z) (va : Z) (data : list Z) (r : Z) : Prop := {
  cp_same : same (set_mem k'.(k_mem) k) k';
  cp_view : forall m, view k' m = view k m;
  cp_step : as_step k.(k_mem) k'.(k_mem) fl fl' fl' root;
  cp_post : copyout_post psz root va data k.(k_mem) k'.(k_mem) r
}.

Lemma copied_nothing k fl va : as_inv k.(k_mem) fl root -> copied k k fl fl va [] 0.
Proof using Type.
  intros H. split; [|done|by apply as_step_refl|apply copyout_done]. replace (set_mem (k_mem k) k) with k by (by destruct k). apply same_others_refl.
Qed.
Lemma copied_from k k1 k' fl fl' va data r : same k k1 -> (forall m, view k1 m = view k m) -> copied k1 k' fl fl' va data r -> copied k k' fl fl' va data r.
Proof using Type.
  intros S V [S1 V1 St P]. pose proof (f_equal k_mem (proj1 S) : k_mem k1 = k_mem k) as E. rewrite E in St, P.
  split; [eapply same_others_trans; [|exact S1]; by apply same_mem|intros m; by rewrite V1|done|done].
Qed.
Lemma copied_prefix k k' fl fl' va data c : copied k k' fl fl' va (take c data) (-1) -> copied k k' fl fl' va data (-1).
Proof using Type. intros []. split; [done..|]. by apply (copyout_post_prefix psz root va data c). Qed.

(** The bytes written are at user addresses. *)
Lemma copied_end k k' fl fl' va data : copied k k' fl fl' va data 0 -> data <> [] -> va + Z.of_nat (length data) <= MAXVA.
Proof using Type.
  intros [_ _ _ (c & _ & [[_ ->]|[? _]] & _ & Ww & _)] Hne; [|done]. assert (0 < length data)%nat by (destruct data; [done|cbn; lia]).
  pose proof (proj1 (proj1 (Ww (va + Z.of_nat (length data) - 1) ltac:(lia)))) as Hu%user_va_max. lia.
Qed.
Lemma copied_app k k1 k2 fl fl1 fl2 va data c r : (c <= length data)%nat ->
  copied k k1 fl fl1 va (take c data) 0 -> copied k1 k2 fl1 fl2 (va + Z.of_nat c) (drop c data) r -> copied k k2 fl fl2 va data r.
Proof using Type.
  intros Hc [S1 V1 St1 (c' & _ & [[_ ->]|[? _]] & Vw & Ww & K)] [S2 V2 St2 P2]; [|done]. rewrite length_take_le in Vw, Ww by done. rewrite take_take, Nat.min_id in Vw. split.
  - eapply same_others_trans; [|exact S2]. exact (same_mem _ _ _ S1).
  - intros m. by rewrite V2.
  - by eapply as_step_trans.
  - by apply (copyout_post_app psz root va data c _ k.(k_mem) k1.(k_mem)).
Qed.

(** One round of the loop of readi(), after bmap() has found the block. *)
Lemma read_chunk {B} k i bs va off c fl (e : M kernel B) (f : list Z -> M kernel B) Q :
  fs_file ip inum k i bs -> 0 <= off -> off mod BSIZE + c <= BSIZE -> (length bs < NBUF)%nat -> runs_in k -> as_inv k.(k_mem) fl root -> 0 <= va < 2 ^ 64 ->
  let a := entry (view k) i (off / BSIZE) in a <> 0 ->
  let l := fbyte (view k) i <$> seqZ off c in Forall (fun b => 0 <= b < 256) l ->
  (forall k' fl', fs_file ip inum k' i bs -> copied k k' fl fl' va l (-1) -> runs (e k') Q) ->
  (forall k' fl', fs_file ip inum k' i bs -> copied k k' fl fl' va l 0 -> runs (f l k') Q) ->
  runs ((bp ← bread d a; x ← getb bp; r ← either_copyout (User va) (read_bytes x.(b_data) (off mod BSIZE) c);
         if r =? -1 then brelse bp ;; e else brelse bp ;; f (read_bytes x.(b_data) (off mod BSIZE) c)) k) Q.
Proof using DOK G LOK Hsz.
  intros F Hoff Hc Hlen Hrun Hinv Hva a Ha l Hl He Hf. apply (tx_bread me pid d false k bs []); [apply F|apply not_elem_of_nil|cbn; lia|]. intros bp k2 I2 S2 V2.
  apply (tx_getb me pid d false k2 bs [(a, bp)] a bp); [done|by left|]. intros x Hx _. rewrite Hx, V2. unfold a at 1 2. rewrite (fbyte_chunk (view k) i off c) by done. fold l.
  destruct (procs_kept me k k2 (f_equal k_procs (proj1 S2))) as [Rp Rs]. destruct Hrun as [Kp Ks]. rewrite Kp in Rp. rewrite Ks in Rs.
  pose proof (f_equal k_mem (proj1 S2) : k_mem k2 = k_mem k) as Em.
  apply (either_copyout_tx me pid d false k2 bs [(a, bp)] va l fl); [done|by rewrite Em, Rp|done|by rewrite Rs|done|].
  intros r s' fl' k3 I3 S3 V3 St Post. rewrite Em, Rp in St. rewrite Em, Rp, Rs in Post.
  assert (forall k4, FsTx.in_tx me pid d false k4 bs [] -> same k3 k4 -> (forall m, view k4 m = view k3 m) -> fs_file ip inum k4 i bs /\ copied k k4 fl fl' va l r) as Hend.
  { intros k4 I4 S4 V4. assert (same (set_mem s' k) k4) as S by (eapply same_others_trans; [apply same_mem, S2|]; by eapply same_others_trans).
    assert (forall m, view k4 m = view k m) as V by (intros m; by rewrite V4, V3, V2). pose proof (f_equal k_mem (proj1 S) : k_mem k4 = s') as E4.
    split; [|by split; rewrite ?E4]. by apply (file_same me pid d false sb ds G ip inum (set_mem s' k) k4 i bs (fs_file_mem k i bs s' F) I4 S). }
  destruct (Z.eqb_spec r (-1)) as [Er|Er]; (apply (tx_brelse me pid d false k3 bs [] a bp); [done|]); intros k4 I4 S4 V4; destruct (Hend k4 I4 S4 V4) as [F4 C4].
  - rewrite Er in C4. by apply (He k4 fl').
  - destruct Post as (? & _ & [[E0 _]|[? _]] & _); [|done]. rewrite E0 in C4. by apply (Hf k4 fl').
Qed.

Lemma readi_loop_user fuel k i bs va off n tot acc fl :
  fs_file ip inum k i bs -> no_holes (view k) i -> i.(i_size) <= MAXFILE * BSIZE -> 0 <= off -> tot <= n -> off + (n - tot) <= i.(i_size) ->
  (length bs < NBUF)%nat -> n - tot <= Z.of_nat fuel -> runs_in k -> as_inv k.(k_mem) fl root -> 0 <= va < 2 ^ 64 ->
  let data := fbyte (view k) i <$> seqZ off (n - tot) in Forall (fun b => 0 <= b < 256) data ->
  runs (readi_loop fuel ip (User va) off n tot acc k) (fun r k' => exists e fl',
    r.1 = (if e =? 0 then n else -1) /\ fs_file ip inum k' i bs /\ copied k k' fl fl' va data e).
Proof using DOK G LOK Hsz.
  revert k va off tot acc fl. induction fuel as [|fuel IH]; intros k va off tot acc fl F Hh Hs Hoff Htot Hend Hlen Hf Hrun Hinv Hva data Hdata; cbn [readi_loop]; destruct (Z.ltb_spec tot n) as [Hlt|Hge].
  1: lia.
  1, 3: exists 0, fl; unfold data; replace (n - tot) with 0 by lia; (split; [cbn; lia|]); (split; [done|by apply copied_nothing]).
  pose proof (Hh off ltac:(lia)) as He. destruct (MAXFILE_block off ltac:(lia)) as [Hb _].
  step_by (bmap_present me pid d false sb ds ip inum k i bs (off / BSIZE) F); [done|done|done|]. intros a k1 (-> & I1 & S1 & V1).
  destruct (file_same me pid d false sb ds G ip inum k k1 i bs F I1 S1 V1) as [F1 _]. rewrite (proj2 (Z.eqb_neq _ _)), <- (entry_views _ _ i _ V1) by done.
  unfold geti. rewrite bind_gets, (list_lookup_total_correct _ _ _ (ff_inode _ _ _ _ _ _ _ _ _ _ _ F1)), (ff_dev _ _ _ _ _ _ _ _ _ _ _ F1).
  cbv zeta. set (c := Z.min (n - tot) (BSIZE - off mod BSIZE)) in *. destruct (chunk_range off (n - tot) ltac:(lia)) as [Hc1 Hc2]. fold c in Hc1, Hc2.
  assert (length data = Z.to_nat (n - tot)) as Hl by (unfold data; by rewrite length_fmap, length_seqZ).
  assert (forall k', (forall m, view k' m = view k m) -> fbyte (view k') i <$> seqZ off c = take (Z.to_nat c) data /\
    fbyte (view k') i <$> seqZ (off + c) (n - (tot + c)) = drop (Z.to_nat c) data) as Hd.
  { intros k' V. unfold data. replace (n - tot) with (c + (n - (tot + c))) by lia. rewrite seqZ_app, fmap_app by lia.
    rewrite take_app_length', drop_app_length' by (by rewrite length_fmap, length_seqZ). split; apply list_fmap_ext; intros ? y _; by apply fbyte_views. }
  destruct (Hd k1 V1) as [Ed1 _]. pose proof (runs_in_same k k1 S1 Hrun) as R1. pose proof (f_equal k_mem (proj1 S1) : k_mem k1 = k_mem k) as Em.
  apply (read_chunk k1 i bs va off c fl (mret (-1, acc)) (fun l => readi_loop fuel ip (dest_add (User va) c) (off + c) n (tot + c) (acc ++ l))); [done|done|lia|done|done|by rewrite Em|done|by rewrite (entry_views _ _ i _ V1)|rewrite Ed1; by apply Forall_take| |]; rewrite Ed1.
  - intros k2 fl2 F2 C2. exists (-1), fl2. split; [done|]. split; [done|]. apply (copied_prefix _ _ _ _ _ _ (Z.to_nat c)). by apply (copied_from k k1).
  - intros k2 fl2 F2 C2. apply (copied_from k k1) in C2; [|done|done]. destruct (Hd k2 (cp_view _ _ _ _ _ _ _ C2)) as [_ Ed2].
    pose proof (copied_end _ _ _ _ _ _ C2) as Hu. rewrite length_take_le in Hu by lia. change MAXVA with (2 ^ 38) in Hu.
    assert (va + c <= 2 ^ 38) as Hva2. { rewrite <- (Z2Nat.id c) by lia. apply Hu. intros E%(f_equal length). rewrite length_take_le in E by lia. cbn in E. lia. }
    cbn [dest_add]. rewrite u64_small by lia.
    eapply runs_mono; [apply (IH k2 (va + c) (off + c) (tot + c) _ fl2); try done; try lia|].
    + apply (no_holes_views (view k)); [apply C2|done].
    + by apply (runs_in_same _ _ (cp_same _ _ _ _ _ _ _ C2)).
    + apply C2.
    + rewrite Ed2. by apply Forall_drop.
    + intros r k3 (e & fl3 & Er & F3 & C3). exists e, fl3. split; [done|]. split; [done|]. rewrite Ed2 in C3.
      apply (copied_app k k2 k3 fl fl2 fl3 va data (Z.to_nat c)); [lia|done|]. by rewrite Z2Nat.id by lia.
Qed.

Lemma length_read_at c off n : 0 <= n -> Z.of_nat (length (read_at c off n)) <= n.
Proof using Type. intros H. unfold read_at. rewrite length_take. lia. Qed.

Lemma readi_user k i va off n fl :
  fs_file ip inum k i [] -> no_holes (view k) i -> 0 <= i.(i_size) <= MAXFILE * BSIZE -> 0 <= off -> 0 <= n -> off + n < 2 ^ 32 ->
  runs_in k -> as_inv k.(k_mem) fl root -> 0 <= va < 2 ^ 64 ->
  let data := read_at (contents (view k) i) off n in Forall (fun b => 0 <= b < 256) data ->
  runs (readi ip (User va) off n k) (fun r k' => exists e fl',
    r.1 = (if e =? 0 then Z.of_nat (length data) else -1) /\ fs_file ip inum k' i [] /\ copied k k' fl fl' va data e).
Proof using DOK G LOK Hsz.
  intros F Hh Hs Hoff Hn H32 Hrun Hinv Hva data Hdata. unfold readi, geti. rewrite bind_gets, (list_lookup_total_correct _ _ _ (ff_inode _ _ _ _ _ _ _ _ _ _ _ F)).
  rewrite u32_small, (proj2 (Z.ltb_ge (off + n) off)), orb_false_r by lia. cbv zeta. pose proof (length_contents (view k) i).
  destruct (Z.ltb_spec (i_size i) off) as [Hgt|Hle].
  { exists 0, fl. unfold data, read_at. rewrite drop_ge, take_nil by lia. split; [done|]. split; [done|by apply copied_nothing]. }
  destruct (read_at_bytes (view k) i off n ltac:(lia) Hn) as (Hc1 & Hc2 & Hc3). set (c := if i_size i <? off + n then i_size i - off else n) in *.
  unfold data in *. rewrite Hc3 in *. rewrite length_fmap, length_seqZ, Z2Nat.id by done. rewrite <- (Z.sub_0_r c) in Hdata at 1.
  eapply runs_mono; [apply (readi_loop_user (Z.to_nat c) k i [] va off c 0 [] fl); [done|done|lia|done|lia|lia|change NBUF with 30%nat; cbn; lia|lia|done|done|done|exact Hdata]|].
  intros r k' (e & fl' & Hr & F' & C). rewrite Z.sub_0_r in C. by exists e, fl'.
Qed.
End file.

(** C20. fileread() on a file copies its contents from the offset on, n bytes or those up to
    the end, to the memory of the process at addr, and returns their number and advances
    the offset by it.  The pages written are mapped or are allocated on demand.  It
    returns -1, with the offset unchanged, only when it comes to a byte that is not mapped for the
    process to write; the bytes before have been copied.  Nothing else the process sees
    changes, neither the file nor the disk does, and no page of another process is touched. *)
Theorem fileread_reads k f x ip inum i addr n fl :
  idle k -> open_file k ip inum i -> k.(k_ftable) !! f = Some x -> x.(f_type) = FD_INODE -> x.(f_readable) = true -> x.(f_ip) = Some ip ->
  0 <= x.(f_off) -> 0 <= n -> x.(f_off) + n < 2 ^ 32 -> 0 <= addr < 2 ^ 64 -> let p := k.(k_procs) !!! me in
  as_inv k.(k_mem) fl p.(p_pagetable) -> 0 <= p.(p_sz) <= TRAPFRAME -> Forall (fun b => 0 <= b < 256) (file_at (disk_read k.(k_disk)) inum) ->
  let data := read_at (file_at (disk_read k.(k_disk)) inum) x.(f_off) n in
  let sees s := lview p.(p_sz) s.(k_mem).(pm) p.(p_pagetable) in
  runs (fileread f addr n k) (fun r k' => exists c fl',
    (r = Z.of_nat (length data) /\ c = length data \/
     r = -1 /\ (c < length data)%nat /\ ~ mapped_w k.(k_mem).(pm) p.(p_pagetable) (addr + Z.of_nat c)) /\
    (forall y, user_va y -> sees k' y = written addr (take c data) (sees k) y) /\
    (forall y, addr <= y < addr + Z.of_nat c -> writable p.(p_sz) k.(k_mem) p.(p_pagetable) y) /\
    as_step k.(k_mem) k'.(k_mem) fl fl' fl' p.(p_pagetable) /\
    k'.(k_ftable) !! f = Some (set_f_off (x.(f_off) + Z.max 0 r) x) /\
    idle k' /\ open_file k' ip inum i /\ k'.(k_disk) = k.(k_disk)).
Proof using DOK G L LOK.
  intros I O Ef Ety Er Eip Hoff Hn H32 Ha p Hinv Hsz Hb data sees. pose proof (of_fields _ _ _ _ _ _ _ O) as Hfl. destruct (of_loaded _ _ _ _ _ _ _ O) as [Hrf Hv].
  unfold fileread, getf. rewrite bind_gets, (list_lookup_total_correct _ _ _ Ef), Er, Ety, Eip. cbn [negb].
  step_by (ilock_tx me pid d false k [] [] ip i); [by apply (idle_tx me pid d start)|apply O|done|done|apply O|].
  intros [] k1 (I1 & Hre). pose proof (idle_file me pid d start sb ds G k k1 ip inum i _ O I1 I Hre) as F1. destruct Hre as (E1 & S1 & V1).
  assert (forall m, view k1 m = disk_read (k_disk k) m) as V by (intros m; by rewrite V1, (idle_view me pid d start)).
  pose proof (f_equal k_mem E1 : k_mem k1 = k_mem k) as Em. pose proof (f_equal k_ftable E1 : k_ftable k1 = k_ftable k) as Eft.
  destruct (procs_kept me k k1 (f_equal k_procs E1)) as [Rp Rs]. fold p in Rp, Rs.
  assert (contents (view k1) i = file_at (disk_read (k_disk k)) inum) as Ec.
  { rewrite (open_contents d sb ds k ip inum i O). apply (contents_same sb ds); [apply O|apply Hfl|done]. }
  rewrite (bind_ok (deref (Some ip)) _ k1 ip k1 eq_refl), bind_gets, Eft, (list_lookup_total_correct _ _ _ Ef), u32_small, Eip by lia.
  step_by (readi_user ip inum p.(p_pagetable) p.(p_sz) Hsz k1 i addr (f_off x) n fl F1); [|apply Hfl|done|done|done|done|by rewrite Em|done|rewrite Ec; by apply Forall_take, Forall_drop|].
  { by apply (no_holes_views (disk_read (k_disk k))), O. }
  rewrite Ec. fold data. intros r k2 (e & fl' & Hr & F2 & [[E2 S2] V2 St (c & Hc & He & Vw & Ww & _)]). rewrite Em in *.
  apply runs_bind. rewrite modf_advanced. cbn [runs]. set (k2' := set_ftable _ k2).
  assert (k_ftable k2 = k_ftable k) as Eft2 by (rewrite <- Eft; exact (f_equal k_ftable E2)).
  step_by (unlock_idle me pid d start sb ds k k2' ip inum i I O (fs_file_ftable me pid d sb ds false ip inum k2 i [] _ F2)).
  - change (set_lh 0 [] (k_log k2) = set_lh 0 [] (k_log k)). rewrite <- (f_equal k_log E1 : k_log k1 = k_log k). exact (f_equal k_log E2).
  - change (k_disk k2 = k_disk k). rewrite <- (f_equal k_disk E1 : k_disk k1 = k_disk k). exact (f_equal k_disk E2).
  - change (k_slocks k2 !! SlInode ip = Some pid). rewrite S2 by (by intros j). change (k_slocks k1 !! SlInode ip = Some pid). rewrite S1. apply lookup_insert_eq.
  - intros [] k3 (I3 & O3 & Ed & [Km _ Kf]). change (k_mem k2') with (k_mem k2) in Km. cbn [runs mret M_ret]. exists c, fl'. unfold sees. rewrite Km.
    split; [destruct He as [[-> ->]|(-> & Hlt & Hm)]; [by left|right; rewrite Hr; done]|]. split; [exact Vw|]. split; [intros y Hy; by apply Ww|]. split; [done|]. split; [|done].
    rewrite Kf. cbn [k2' k_ftable set_ftable]. rewrite Eft2. apply advanced_entry; [done|done|]. rewrite Hr. pose proof (length_read_at (file_at (disk_read (k_disk k)) inum) (f_off x) n). fold data in H. destruct (e =? 0); lia.
Qed.
End read.

(** ** Witnesses: process 1 writes two bytes of its memory behind the file of FsCrash.v, and
    reads three bytes of the file to a page it has not touched yet *)

#[local] Instance write_disk : Disk := {| virtio_disk_rw := transfer; virtio_disk_intr := mret tt |}.
#[local] Instance write_disk_ok : DiskOK.
Proof. by intros b w k. Qed.
#[local] Instance write_wakes : Wakes := 0%nat.
#[local] Instance write_layout : KernelLayout := demo_layout.

(** The second page is mapped and holds the bytes 33 and 10. *)
Definition demo_user : kmem :=
  mkkmem (store64 (store64 (store64 (fun a => if a =? demo_page 13 then 33 else if a =? demo_page 13 + 1 then 10 else 0)
    (demo_page 10) (Z.lor (PA2PTE (demo_page 11)) PTE_V)) (demo_page 11) (Z.lor (PA2PTE (demo_page 12)) PTE_V))
    (demo_page 12 + 8) (Z.lor (PA2PTE (demo_page 13)) (Z.lor PTE_V (Z.lor PTE_R PTE_U)))) 0.
Definition demo_open_entry : file := mkfile FD_INODE 1 true true 0 (Some 0%nat) 5 0.
Definition writer_base : kernel :=
  set_ftable [demo_open_entry] (set_mem demo_user (set_procs (alter (set_pagetable (demo_page 10)) 1%nat (demo_base false).(k_procs)) (demo_base false))).
Definition writer : kernel := match binit writer_base with Ok _ k => k | _ => writer_base end.

Lemma writer_linked : linked writer_base NBUF writer.
Proof. pose proof (binit_linked writer_base eq_refl) as H. unfold writer. by destruct (binit writer_base) as [[] k| | |]. Qed.
Lemma like_user dir k ft m ps : like_demo dir k -> length ps = NPROC -> p_pid (ps !!! 1%nat) = 0 -> like_demo dir (set_ftable ft (set_mem m (set_procs ps k))).
Proof. intros [[] B E] Hl Hp. split; [by split|exact B|exact E]. Qed.
Lemma writer_like : like_demo false writer_base.
Proof. apply like_user; [apply demo_like|vm_compute; reflexivity..]. Qed.
Lemma writer_reads : src_has 1 writer_base (SUser 4096) [33; 10].
Proof.
  split; [lia|]. split; [cbn; lia|]. intros j Hj. assert (j = 0 \/ j = 1)%nat as [-> | ->] by (cbn in Hj; lia); exists (demo_page 13).
  all: split; [rewrite walkaddr_spec; f_equal; vm_compute; reflexivity|split; vm_compute; congruence].
Qed.
Lemma writer_source k : linked writer_base NBUF k -> src_has 1 k (SUser 4096) [33; 10].
Proof.
  intros H. apply (src_kept 1 writer_base); [exact (f_equal k_mem (li_rest _ _ _ H))| |exact writer_reads].
  by rewrite (f_equal k_procs (li_rest _ _ _ H) : k_procs k = k_procs writer_base).
Qed.
Lemma writer_entry k : linked writer_base NBUF k -> k.(k_ftable) !! 0%nat = Some demo_open_entry.
Proof. intros H. by rewrite (f_equal k_ftable (li_rest _ _ _ H) : k_ftable k = k_ftable writer_base). Qed.

Lemma filewrite_pieces_witness :
  runs (filewrite 0 4096 2 writer) (fun r k' => exists t, (t <= 2)%nat /\ k'.(k_ftable) !! 0%nat = Some (set_f_off (5 + Z.of_nat t) demo_open_entry) /\
    (r = 2 -> file_at demo_sb (disk_read k'.(k_disk)) 1 = [97; 98; 99; 100; 101; 33; 10])).
Proof.
  eapply runs_mono; [apply (filewrite_pieces 1 0 1 2 demo_sb 36 demo_geom demo_log writer 0 demo_open_entry 0 1 (demo_inode false) 4096 [33; 10]
    (like_idle _ _ _ writer_like writer_linked) (like_open _ _ _ writer_like writer_linked) eq_refl);
    [vm_compute; congruence|exact (writer_entry _ writer_linked)|reflexivity|reflexivity|reflexivity|exact (writer_source _ writer_linked)|vm_compute; congruence|reflexivity]|].
  cbv zeta. rewrite (like_file _ _ writer_like writer_linked). intros r k' (t & Ht & Hr & _ & He & _ & _ & [Hc _] & _). exists t.
  split; [exact Ht|]. split; [exact He|]. intros ->. rewrite Hc. case_decide as Et; [|discriminate Hr]. rewrite Et. reflexivity.
Defined.

Definition reader_base : kernel :=
  set_ftable [set_f_off 1 demo_open_entry] (set_mem demo_kmem (set_procs (alter (fun p => set_sz 12288 (set_pagetable (demo_page 1) p)) 1%nat (demo_base false).(k_procs)) (demo_base false))).
Definition reader : kernel := match binit reader_base with Ok _ k => k | _ => reader_base end.

Lemma reader_linked : linked reader_base NBUF reader.
Proof. pose proof (binit_linked reader_base eq_refl) as H. unfold reader. by destruct (binit reader_base) as [[] k| | |]. Qed.
Lemma reader_like : like_demo false reader_base.
Proof. apply like_user; [apply demo_like|vm_compute; reflexivity..]. Qed.
Lemma reader_entry k : linked reader_base NBUF k -> k.(k_ftable) !! 0%nat = Some (set_f_off 1 demo_open_entry).
Proof. intros H. by rewrite (f_equal k_ftable (li_rest _ _ _ H) : k_ftable k = k_ftable reader_base). Qed.
Lemma reader_space k : linked reader_base NBUF k -> k.(k_mem) = demo_kmem /\ p_pagetable (k.(k_procs) !!! 1%nat) = demo_page 1 /\ p_sz (k.(k_procs) !!! 1%nat) = 12288.
Proof.
  intros H. rewrite (f_equal k_procs (li_rest _ _ _ H) : k_procs k = k_procs reader_base), (f_equal k_mem (li_rest _ _ _ H) : k_mem k = k_mem reader_base). done.
Qed.

Lemma fileread_reads_witness :
  runs (fileread 0 5000 3 reader) (fun r k' => k'.(k_ftable) !! 0%nat = Some (set_f_off (1 + Z.max 0 r) (set_f_off 1 demo_open_entry)) /\
    (r = 3 -> forall y, user_va y -> lview 12288 k'.(k_mem).(pm) (demo_page 1) y = written 5000 [98; 99; 100] (lview 12288 demo_kmem.(pm) (demo_page 1)) y)).
Proof.
  generalize reader, reader_linked. intros k H. destruct (reader_space k H) as (Em & Ep & Es). pose proof (like_file _ _ reader_like H) as Ef.
  eapply runs_mono; [apply (fileread_reads (LOK := demo_layout_ok) 1 0 1 2 demo_sb 36 demo_geom k 0 (set_f_off 1 demo_open_entry) 0 1 (demo_inode false) 5000 3 demo_free
    (like_idle _ _ _ reader_like H) (like_open _ _ _ reader_like H) (reader_entry k H)); [reflexivity|reflexivity|reflexivity|vm_compute; congruence|lia|reflexivity|lia| | |]|].
  - rewrite Em, Ep. by apply demo_root.
  - rewrite Es. by vm_compute.
  - rewrite Ef. repeat constructor; lia.
  - cbv zeta. rewrite Em, Ep, Es, Ef. intros r k' (c & fl' & Hr & Hv & _ & _ & He & _). split; [exact He|]. intros -> y Hy. rewrite (Hv y Hy), Em.
    destruct Hr as [[_ ->]|[Hr _]]; [reflexivity|discriminate Hr].
Defined.
