(* ===== verification/FsLink.v ===== *)
(** * Names across crashes

    A directory is a map from names to inode numbers: dirlookup() reads it, dirlink() adds
    to it, and the new name is there after a crash or it is not. *)

From Stdlib Require Import ZArith Lia.
From stdpp Require Import base list numbers strings gmap sets.
From S2P Require Import Prelude Types Mem Str Layout Kalloc Vm State Spinlock Printf Proc ProcSpec Sleeplock Seq Bio BioSpec BioInit Log LogSpec LogCrash FsTx Fs FsInode FsBlocks FsMap FsBmap FsFile FsDirSpec FsAtomic FsDir FsCrash.
Open Scope Z_scope.

(** dirlink() in a transaction of its own. *)
Definition link_op `{L : KernelLayout} `{W : Wakes} `{D : Disk} (dp : nat) (name : list Z) (inum : Z) : M kernel Z :=
  begin_op ;;
  ilock (Some dp) ;;
  r ← dirlink dp name inum;
  iunlock (Some dp) ;;
  end_op ;;
  mret r.

(** dirlookup() with the directory locked. *)
Definition lookup_op `{L : KernelLayout} `{W : Wakes} `{D : Disk} (dp : nat) (name : list Z) : M kernel (option (nat * Z)) :=
  ilock (Some dp) ;;
  r ← dirlookup dp name;
  iunlock (Some dp) ;;
  mret r.

Section link.
Context (me : nat) (pid : Z) (d : Z) `{L : KernelLayout} `{W : Wakes} `{D : Disk} `{DOK : !DiskOK}.
Context (start : Z) (sb : superblock) (ds : Z) (G : geom sb ds) (Hlog : 0 <= start /\ start + LOGBLOCKS < sb.(sb_inodestart)).
Abbreviation idle := (idle me pid d start).
Abbreviation open_file := (open_file d sb ds).
Abbreviation file_at := (file_at sb).
Abbreviation only_file := (only_file sb ds).

Lemma view_dir o k k1 ip inum i bs :
  open_file k ip inum i -> fs_file me pid d o sb ds ip inum k1 i bs -> (forall m, view d k1 m = disk_read k.(k_disk) m) ->
  whole (file_at (disk_read k.(k_disk)) inum) -> dir_file me pid d o sb ds ip inum k1 i bs (file_at (disk_read k.(k_disk)) inum).
Proof using G.
  intros O F V Hw. destruct (of_fields _ _ _ _ _ _ _ O) as (_ & _ & _ & _ & Hs). split; [done| |done| |done].
  - apply (no_holes_frame sb ds G (disk_read (k_disk k))); [done|apply O..].
  - rewrite (open_contents d sb ds k ip inum i O). apply (contents_same sb ds); [apply O|apply Hs|by intros m _].
Qed.

(** C6. Adding a name to a directory is atomic.  In a directory that lacks the name and can
    hold another entry (it is 16 bytes short of the largest file, at least), on a disk of
    at most 25 bitmap blocks, dirlink() in its transaction returns 0 and the directory maps the new name to the inode, or it returns -1, because the disk is
    full, and the directory is unchanged; no other name and no other file changes.
    Wherever in its disk writes the machine stops, the kernel that boots next finds the
    directory as it was before or as it is after. *)
Theorem link_crash_atomic k dp dinum i name inum :
  idle k -> open_file k dp dinum i -> i.(i_type) = T_DIR -> sb.(sb_logstart) = start -> (sb.(sb_size) - 1) / BPB <= 24 ->
  let V := disk_read k.(k_disk) in let c := file_at V dinum in
  whole c -> dlookup c name = None -> 0 < inum < 2 ^ 16 -> Z.of_nat (length c) + 16 <= MAXFILE * BSIZE ->
  runs (link_op dp name inum k) (fun r k' => exists c',
    ((r = 0 /\ forall nm, dlookup c' nm = if decide (pad DIRSIZ nm = pad DIRSIZ name) then Some inum else dlookup c nm) \/
     (r = -1 /\ c' = c /\ forall m, 0 <= m < sb.(sb_size) -> used sb (disk_read k'.(k_disk)) m = true)) /\
    whole c' /\ idle k' /\ (exists i', open_file k' dp dinum i') /\ only_file V (disk_read k'.(k_disk)) dinum c' /\
    exists ws cut, k'.(k_disk) = writes_to ws k.(k_disk) /\
      forall j kb, boots me pid d kb (writes_to (take j ws) k.(k_disk)) ->
        runs ((binit ;; initlog d sb) kb) (fun _ k2 => only_file V (disk_read k2.(k_disk)) dinum (if decide (j <= cut)%nat then c else c'))).
Proof using DOK G Hlog L.
  intros I O Ht Es Hbm V c Hw Hno Hi Hmax. pose proof (of_inum _ _ _ _ _ _ _ O) as Hn. pose proof (weight_start start sb ds G Hlog dinum i Hn) as Hwt.
  pose proof (dslot_le c) as Hsl. assert (16 * Z.of_nat (dslot c) + 16 <= MAXFILE * BSIZE) as Hoff by (unfold whole in Hw; lia).
  unfold link_op. apply runs_assoc. step_by (begin_write me pid d start sb ds G Hlog k dp dinum i); [done|done|]. intros [] k1 (B & Et & _).
  pose proof (view_dir true k k1 dp dinum i [] O (be_file _ _ _ _ _ _ _ _ _ _ B) (be_view _ _ _ _ _ _ _ _ _ _ B) Hw) as Hd. fold V c in Hd.
  step_by (dirlink_tx me pid d true sb ds G dp dinum Hn eq_refl k1 i [] c name inum Hd); [apply O|done| |lia|done|].
  { unfold dlookup in Hno. by destruct (dfind c name). }
  intros r k2 (i' & bs & F2 & M & Hwt2 & Hdw). apply runs_assoc.
  assert (exists w, file_written sb ds dinum (view d k1) i (view d k2) i' (16 * Z.of_nat (dslot c)) w /\ (length w <= 16)%nat /\
    ((r = 0 /\ w = new_dent name inum) \/ (r = -1 /\ w = [] /\ forall m, 0 <= m < sb.(sb_size) -> used sb (view d k2) m = true))) as (w & Hfw & Hlw & Hr).
  { destruct Hdw as [[-> Hfw]|(-> & Hfw & Hfull)]; [exists (new_dent name inum)|exists []]; (split; [done|]); [rewrite length_new_dent; split; [lia|by left]|split; [cbn; lia|by right]]. }
  pose proof (length_weight sb (IBLOCK dinum sb) bs i' (it_nodup _ _ _ _ _ _ _ (ff_tx _ _ _ _ _ _ _ _ _ _ _ F2))) as Hlen.
  step_by (written_end me pid d start sb ds G Hlog k k1 k2 dp dinum i i' bs (16 * Z.of_nat (dslot c)) w I O B); [lia|done|exact (f_equal k_log (proj1 M))|exact (f_equal k_disk (proj1 M))|rewrite (proj2 M) by (by intros j); apply B|done|change NBUF with 30%nat; lia|].
  intros [] k3 ((I3 & O3 & Ho3 & ws & Ed & cut & Hcr) & HU & _). cbn [runs mret M_ret]. fold V c in Ho3. exists (splice c (16 * Z.of_nat (dslot c)) w).
  split; [|split; [|split; [done|split; [done|split; [done|]]]]].
  - destruct Hr as [[-> ->]|(-> & -> & Hfull)]; [left|right]; (split; [done|]).
    + intros nm. by apply (dlookup_dlinked c name inum).
    + split; [apply splice_nil|]. intros m Hm. rewrite HU by done. by apply Hfull.
  - destruct Hr as [[-> ->]|(-> & -> & _)]; [by apply (dlinked_whole c name inum)|by rewrite splice_nil].
  - exists ws, cut. split; [done|]. intros j kb Hb. destruct (Hcr j) as [Hok Hx].
    eapply runs_mono; [by apply (recovery_op me pid d start sb kb _ Hb)|]. intros [] k4 H4. by apply Hx.
Qed.

Lemma open_shared k k' ip inum i r :
  open_file k ip inum i -> 1 <= r -> k'.(k_disk) = k.(k_disk) -> k'.(k_sb) = k.(k_sb) -> k'.(k_itable) !! ip = Some (set_ref r i) ->
  k'.(k_slocks) !! SlInode ip = None -> open_file k' ip inum (set_ref r i).
Proof. intros O Hr Ed Es Et Hl. pose proof (proj2 (of_loaded _ _ _ _ _ _ _ O)) as Hv. destruct O as [? ? ? ? ? ? Hok]. destruct Hok. split; rewrite ?Ed, ?Es; done. Qed.

(** What dirlookup() answers, in terms of the map. *)
Definition found (c name : list Z) (r : option (nat * Z)) (t t' : list inode) : Prop :=
  match dlookup c name with
  | None => r = None /\ t' = t
  | Some inum => exists ip j, r = Some (ip, 16 * Z.of_nat j) /\ hit name (dent c j) = true /\ referenced t t' d inum ip
  end.

Lemma looked_found o k dp dinum i bs c name r k' :
  looked me pid d o sb ds dp dinum k i bs c name r k' -> one_entry k.(k_itable) -> k.(k_itable) !! dp = Some i -> i.(i_dev) = d -> 1 <= i.(i_ref) ->
  in_tx me pid d o k' bs [] /\ (exists t, others k' = set_itable t (others k)) /\ (forall l, (forall b, l <> SlBuf b) -> k'.(k_slocks) !! l = k.(k_slocks) !! l) /\
  found c name r k.(k_itable) k'.(k_itable) /\ one_entry k'.(k_itable) /\ exists n, k'.(k_itable) !! dp = Some (set_ref n i) /\ 1 <= n.
Proof.
  unfold looked, found, dlookup. intros Hl Hone Hdp Hdev Hr. pose proof (dscan_spec (hit name) c (dsize c) 0) as Hs. fold (dfind c name) in Hs. destruct (dfind c name) as [j|]; cbn [fmap option_fmap option_map].
  - destruct Hl as (ip & t & Hg & -> & I & E & Sl & _). pose proof (f_equal k_itable E : k_itable k' = t) as ->.
    destruct (igot_spec _ _ _ _ _ Hg Hone) as (_ & _ & Hone'). split; [done|]. split; [by exists t|]. split; [done|].
    split; [exists ip, j; split; [done|]; split; [apply Hs|]; rewrite <- Hdev; by apply igot_referenced|]. split; [done|]. by apply (igot_keeps _ _ _ _ _ dp i Hg).
  - destruct Hl as (-> & F & S & _). rewrite (same_itable _ _ S). split; [apply F|]. split; [exists (k_itable k); rewrite (proj1 S); by destruct k|].
    split; [apply S|]. split; [done|]. split; [done|]. exists (i_ref i). rewrite Hdp. split; [by destruct i|done].
Qed.

(** C19. Looking up a name.  dirlookup() returns null exactly when the directory does not
    have the name; otherwise it returns the entry of the inode table for the inode the
    directory maps the name to, and the table has exactly one reference more than before:
    one added to the entry of the inode, or an entry that was not in use given to it with
    one reference.  The table still has one entry per inode, and the disk does not
    change.  The table must not be full of other inodes, where iget() panics. *)
Theorem dirlookup_finds k dp dinum i name :
  idle k -> open_file k dp dinum i -> i.(i_type) = T_DIR -> one_entry k.(k_itable) ->
  let c := file_at (disk_read k.(k_disk)) dinum in whole c ->
  (forall inum, dlookup c name = Some inum -> igot k.(k_itable) d inum <> None) ->
  runs (lookup_op dp name k) (fun r k' =>
    found c name r k.(k_itable) k'.(k_itable) /\
    one_entry k'.(k_itable) /\ idle k' /\ k'.(k_disk) = k.(k_disk) /\ exists n, open_file k' dp dinum (set_ref n i)).
Proof using DOK G L.
  intros I O Ht Hone c Hw Hroom. destruct (of_loaded _ _ _ _ _ _ _ O) as [Hr Hv]. pose proof (of_entry _ _ _ _ _ _ _ O) as Hdp. pose proof (of_dev _ _ _ _ _ _ _ O) as Hdev.
  unfold lookup_op. step_by (ilock_tx me pid d false k [] [] dp i); [by apply (idle_tx me pid d start)|done|done|done|apply O|].
  intros [] k1 (I1 & Hre). pose proof (idle_file me pid d start sb ds G k k1 dp dinum i _ O I1 I Hre) as F1. destruct Hre as (E1 & S1 & V1).
  assert (forall m, view d k1 m = disk_read (k_disk k) m) as V by (intros m; rewrite V1; by apply (idle_view me pid d start)).
  pose proof (f_equal k_itable E1 : k_itable k1 = k_itable k) as Et1. pose proof (view_dir false k k1 dp dinum i [] O F1 V Hw) as Hd. fold c in Hd.
  step_by (dirlookup_tx me pid d false sb ds G dp dinum k1 i [] c name Hd Ht); [change NBUF with 30%nat; cbn; lia| |].
  { intros j Hj. rewrite Et1, Hdev. apply Hroom. unfold dlookup. by rewrite Hj. }
  intros r k2 Hl. destruct (looked_found _ _ _ _ _ _ _ _ _ _ Hl) as (I2 & [t E2] & S2 & Hf & Hone2 & n & Hn & Hn1); [by rewrite Et1|by rewrite Et1|done|done|]. rewrite Et1 in Hf.
  step_by (iunlock_tx me pid d false k2 [] [] dp (set_ref n i) I2); [done|done|rewrite S2, S1 by (by intros b); apply lookup_insert_eq|].
  intros [] k3 (I3 & E3 & S3 & _). cbn [runs mret M_ret]. pose proof (f_equal k_itable E3 : k_itable k3 = k_itable k2) as Et.
  pose proof (f_equal k_disk E1 : k_disk k1 = k_disk k) as Ed1. pose proof (f_equal k_disk E2 : k_disk k2 = k_disk k1) as Ed2. pose proof (f_equal k_disk E3 : k_disk k3 = k_disk k2) as Ed3.
  pose proof (f_equal k_sb E1 : k_sb k1 = k_sb k) as Es1. pose proof (f_equal k_sb E2 : k_sb k2 = k_sb k1) as Es2. pose proof (f_equal k_sb E3 : k_sb k3 = k_sb k2) as Es3.
  pose proof (f_equal k_log E1 : k_log k1 = k_log k) as El1. pose proof (f_equal k_log E2 : set_lh 0 [] (k_log k2) = set_lh 0 [] (k_log k1)) as El2. pose proof (f_equal k_log E3 : k_log k3 = k_log k2) as El3.
  assert (k_disk k3 = k_disk k) as Ed by congruence. rewrite Et. split; [done|]. split; [done|]. split; [|split; [done|]].
  - apply (idle_same me pid d start k k3 I I3); [|done]. rewrite El3, El2. congruence.
  - exists n. apply (open_shared k); [done|done|done|congruence|by rewrite Et|]. rewrite S3. apply lookup_delete_eq.
Qed.

Lemma began_keep k k1 k2 ip inum i t :
  began me pid d sb ds k k1 ip inum i -> open_file k ip inum i -> in_tx me pid d true k2 [] [] -> others k2 = set_itable t (others k1) -> t !! ip = Some i ->
  (forall m, view d k2 m = view d k1 m) -> k2.(k_slocks) !! SlInode ip = Some pid -> began me pid d sb ds k k2 ip inum i.
Proof using G.
  intros [El Ed VV F Hs Hh _] O I2 E Hi V Hl. assert (forall m, view d k2 m = disk_read (k_disk k) m) as VV2 by (intros m; by rewrite V).
  split; [rewrite <- El; exact (f_equal k_log E)|rewrite <- Ed; exact (f_equal k_disk E)|done| | | |done].
  - destruct F as [_ A2 A3 A4 A5 A6 A7 A8]. split; [done|by rewrite (f_equal k_sb E : k_sb k2 = k_sb k1)| |by rewrite (f_equal k_itable E : k_itable k2 = t)|done|done| |done].
    + intros m Hm. unfold used. rewrite V. by apply A3.
    + by destruct (file_ok_frame sb ds G (view d k1) (view d k2) i ltac:(done) A7) as (? & _).
  - unfold disk_inode in *. by rewrite V.
  - apply (no_holes_frame sb ds G (disk_read (k_disk k))); [done|apply O..].
Qed.

(** C22. A name is linked once: when the directory has the name already, dirlink() returns
    -1 and changes no file; this holds at every crash point, too.  It gives back the
    inode it found: every entry of the inode table has as many references as before, and
    those in use are unchanged. *)
Theorem link_exists k dp dinum i name inum old :
  idle k -> open_file k dp dinum i -> i.(i_type) = T_DIR -> sb.(sb_logstart) = start ->
  let V := disk_read k.(k_disk) in let c := file_at V dinum in
  whole c -> dlookup c name = Some old -> igot k.(k_itable) d old <> None ->
  runs (link_op dp name inum k) (fun r k' => r = -1 /\ idle k' /\ (exists i', open_file k' dp dinum i') /\
    i_ref <$> k'.(k_itable) = i_ref <$> k.(k_itable) /\
    (forall q y, k.(k_itable) !! q = Some y -> 1 <= y.(i_ref) -> k'.(k_itable) !! q = Some y) /\
    only_file V (disk_read k'.(k_disk)) dinum c /\
    exists ws, k'.(k_disk) = writes_to ws k.(k_disk) /\
      forall j kb, boots me pid d kb (writes_to (take j ws) k.(k_disk)) ->
        runs ((binit ;; initlog d sb) kb) (fun _ k2 => only_file V (disk_read k2.(k_disk)) dinum c)).
Proof using DOK G Hlog L.
  intros I O Ht Es V c Hw Hold Hroom. unfold link_op. apply runs_assoc. step_by (begin_write me pid d start sb ds G Hlog k dp dinum i); [done|done|]. intros [] k1 (B & Et & _).
  pose proof (view_dir true k k1 dp dinum i [] O (be_file _ _ _ _ _ _ _ _ _ _ B) (be_view _ _ _ _ _ _ _ _ _ _ B) Hw) as Hd. fold V c in Hd.
  unfold dlookup in Hold. destruct (dfind c name) as [j|] eqn:Ej; [|done]. injection Hold as <-.
  step_by (dirlink_exists_tx me pid d true sb ds G dp dinum k1 i [] c name inum j Hd Ht); [change NBUF with 30%nat; cbn; lia|done| |].
  { by rewrite Et, (of_dev _ _ _ _ _ _ _ O). }
  intros r k2 (-> & I2 & V2 & (t & E2 & Hq & Hrefs) & S2). rewrite Et in Hq, Hrefs. apply runs_assoc.
  assert (began me pid d sb ds k k2 dp dinum i) as B2.
  { apply (began_keep k k1 k2 dp dinum i t B O I2 E2); [apply Hq; apply O|done|rewrite S2 by (by intros b); apply B]. }
  step_by (refused_end me pid d start sb ds G Hlog k k2 dp dinum i I O B2). intros [] k3 ((I3 & O3 & Ho3 & ws & Ed & cut & Hcr) & Et3 & _). cbn [runs mret M_ret].
  rewrite Et3, (f_equal k_itable E2 : k_itable k2 = t). split; [done|]. split; [done|]. split; [done|]. split; [done|]. split; [done|]. split; [done|]. exists ws. split; [done|]. intros x kb Hb. destruct (Hcr x) as [Hok Hx].
  eapply runs_mono; [by apply (recovery_op me pid d start sb kb _ Hb)|]. intros [] k4 H4. specialize (Hx _ H4). by destruct (decide _).
Qed.
End link.

(** ** Witnesses: the directory of FsCrash.v, with the one name "." *)

#[local] Instance link_disk : Disk := {| virtio_disk_rw := transfer; virtio_disk_intr := mret tt |}.
#[local] Instance link_disk_ok : DiskOK.
Proof. by intros b w k. Qed.
#[local] Instance link_wakes : Wakes := 0%nat.
#[local] Instance link_layout : KernelLayout := demo_layout.

Definition demo_listing : list Z := [1; 0; 46] ++ replicate 29 0.
Lemma demo_dir_file k : linked (demo_base true) NBUF k -> file_at demo_sb (disk_read k.(k_disk)) 1 = demo_listing.
Proof.
  intros H. rewrite (f_equal k_disk (li_rest _ _ _ H) : k_disk k = k_disk (demo_base true)). vm_compute. reflexivity.
Qed.
Lemma demo_itable k : linked (demo_base true) NBUF k -> k.(k_itable) = <[0%nat := demo_inode true]> run_demo.(k_itable).
Proof. intros H. exact (f_equal k_itable (li_rest _ _ _ H)). Qed.
Lemma demo_one_entry k : linked (demo_base true) NBUF k -> one_entry k.(k_itable).
Proof.
  intros H. rewrite (demo_itable k H). change (k_itable run_demo) with (replicate 50 zero_inode).
  assert (forall p x, <[0%nat := demo_inode true]> (replicate 50 zero_inode) !! p = Some x -> 0 < i_ref x -> p = 0%nat) as Hp.
  { intros p x Hx Hr. destruct (decide (p = 0%nat)) as [|Hne]; [done|]. rewrite list_lookup_insert_ne in Hx by done.
    apply lookup_replicate in Hx as [-> _]. cbn in Hr. lia. }
  intros p q x y Hx Hy Rx Ry _ _. by rewrite (Hp p x Hx Rx), (Hp q y Hy Ry).
Qed.

Lemma link_crash_atomic_witness :
  runs (link_op 0 [97] 7 (demo_fs true)) (fun r k' => exists c', (r = 0 -> dlookup c' [97] = Some 7 /\ dlookup c' [46] = Some 1) /\
    file_at demo_sb (disk_read k'.(k_disk)) 1 = c' /\
    exists ws cut, k'.(k_disk) = writes_to ws (demo_fs true).(k_disk) /\
      forall j kb, boots 1 0 1 kb (writes_to (take j ws) (demo_fs true).(k_disk)) ->
        runs ((binit ;; initlog 1 demo_sb) kb) (fun _ k2 => file_at demo_sb (disk_read k2.(k_disk)) 1 = if decide (j <= cut)%nat then demo_listing else c')).
Proof.
  generalize (demo_fs true), (demo_fs_linked true). intros k H. pose proof (demo_dir_file k H) as Ef.
  eapply runs_mono; [apply (link_crash_atomic 1 0 1 2 demo_sb 36 demo_geom demo_log k 0 1 (demo_inode true) [97] 7
    (demo_idle _ k H) (demo_open _ k H) eq_refl eq_refl); rewrite ?Ef; [vm_compute; congruence|reflexivity|vm_compute; reflexivity|lia|vm_compute; congruence]|].
  cbv zeta. rewrite Ef. intros r k' (c' & Hr & _ & _ & _ & [Hc _] & ws & cut & Ed & Hj). exists c'. split; [|split; [exact Hc|]].
  - intros ->. destruct Hr as [[_ Hr]|[Hz _]]; [|discriminate Hz]. split; rewrite Hr; vm_compute; reflexivity.
  - exists ws, cut. split; [exact Ed|]. intros j kb B. eapply runs_mono; [apply (Hj j kb B)|]. intros [] k2 [H2 _]. exact H2.
Defined.

Lemma dirlookup_finds_witness :
  runs (lookup_op 0 [46] (demo_fs true)) (fun r k' => exists ip off, r = Some (ip, off) /\ referenced (<[0%nat := demo_inode true]> run_demo.(k_itable)) k'.(k_itable) 1 1 ip).
Proof.
  generalize (demo_fs true), (demo_fs_linked true). intros k H. pose proof (demo_dir_file k H) as Ef. pose proof (demo_itable k H) as Et.
  eapply runs_mono; [apply (dirlookup_finds 1 0 1 2 demo_sb 36 demo_geom k 0 1 (demo_inode true) [46]
    (demo_idle _ k H) (demo_open _ k H) eq_refl (demo_one_entry k H)); rewrite ?Ef, ?Et|].
  - reflexivity.
  - vm_compute. intros inum [= <-]. congruence.
  - cbv zeta. rewrite Ef. rewrite Et. intros r k' [(ip & j & -> & _ & Hx) _]. exists ip, (16 * Z.of_nat j). split; [reflexivity|exact Hx].
Defined.

Lemma link_exists_witness :
  runs (link_op 0 [46] 7 (demo_fs true)) (fun r k' => r = -1 /\ file_at demo_sb (disk_read k'.(k_disk)) 1 = demo_listing /\ k'.(k_itable) !! 0%nat = Some (demo_inode true)).
Proof.
  generalize (demo_fs true), (demo_fs_linked true). intros k H. pose proof (demo_dir_file k H) as Ef. pose proof (demo_itable k H) as Et.
  eapply runs_mono; [apply (link_exists 1 0 1 2 demo_sb 36 demo_geom demo_log k 0 1 (demo_inode true) [46] 7 1
    (demo_idle _ k H) (demo_open _ k H) eq_refl eq_refl); rewrite ?Ef, ?Et|].
  - reflexivity.
  - vm_compute. reflexivity.
  - vm_compute. congruence.
  - cbv zeta. rewrite Ef. intros r k' (-> & _ & _ & _ & Hq & [Hc _] & _). split; [reflexivity|]. split; [exact Hc|]. apply Hq; [rewrite Et; reflexivity|cbn; lia].
Defined.
