(* ===== verification/Exec.v ===== *)
(** * Loading programs (kernel/exec.c, elf.h)

    The program is read from the file system through [readi]; the new address
    space is built beside the old one and replaces it only when nothing can
    fail any more. *)

From Stdlib Require Import ZArith Lia.
From stdpp Require Import base list numbers strings gmap.
From S2P Require Import Prelude Types Mem Str Layout Kalloc Vm State Spinlock Printf Proc Sleeplock Bio Log Fs.
Open Scope Z_scope.

(** ** elf.h *)
Definition ELF_MAGIC : Z := 0x464C457F.
Definition ELF_PROG_LOAD : Z := 1.

(** The field of [n] bytes at offset [o] of a structure held in bytes. *)
Definition field (bs : list Z) (n : nat) (o : Z) : Z := load n (write_bytes (fun _ => 0) 0 bs) o.

Record elfhdr := mkelf { elf_magic : Z; elf_entry : Z; elf_phoff : Z; elf_phnum : Z }.
Definition ELFHDR_SIZE : Z := 64.
Definition read_elf (bs : list Z) : elfhdr :=
  mkelf (field bs 4 0) (field bs 8 24) (field bs 8 32) (field bs 2 56).

Record proghdr := mkph { ph_type : Z; ph_flags : Z; ph_off : Z; ph_vaddr : Z; ph_filesz : Z; ph_memsz : Z }.
Definition PROGHDR_SIZE : Z := 56.
Definition read_ph (bs : list Z) : proghdr :=
  mkph (field bs 4 0) (field bs 4 4) (field bs 8 8) (field bs 8 16) (field bs 8 32) (field bs 8 40).

(** ** Trap frames: the fields of proc.h at their offsets *)
Definition TF_kernel_satp : Z := 0.
Definition TF_kernel_sp : Z := 8.
Definition TF_kernel_trap : Z := 16.
Definition TF_epc : Z := 24.
Definition TF_kernel_hartid : Z := 32.
Definition TF_sp : Z := 48.
(** a0 to a7 *)
Definition TF_a (n : Z) : Z := 112 + 8 * n.
Definition TF_SIZE : Z := 288.

(** p->trapframe->field *)
Definition get_tf (i : nat) (o : Z) : M kernel Z := p ← getp i; zoom (rd64 (p.(p_trapframe) + o)).
Definition set_tf (i : nat) (o v : Z) : M kernel unit := p ← getp i; zoom (wr64 (p.(p_trapframe) + o) (u64 v)).

(** safestrcpy(dst, src, n) on the bytes of two arrays. *)
Definition safestrcpy_bytes (dst src : list Z) (n : Z) : list Z :=
  let m := write_bytes (write_bytes (fun _ => 0) 0 dst) (Z.of_nat (length dst)) src in
  read_bytes (safestrcpy m 0 (Z.of_nat (length dst)) n) 0 (Z.of_nat (length dst)).

Definition flags2perm (flags : Z) : Z :=
  let perm := if negb (Z.land flags 1 =? 0) then PTE_X else 0 in
  if negb (Z.land flags 2 =? 0) then Z.lor perm PTE_W else perm.

(** The bytes of ustack[] *)
Definition words (l : list Z) : list Z := concat ((fun x => read_bytes (store 8 (fun _ => 0) 0 x) 0 8) <$> l).

(** The part of the path after the last slash. *)
Fixpoint basename (last path : list Z) : list Z :=
  match path with
  | [] => last
  | c :: p => basename (if c =? 47 then p else last) p
  end.

Section exec.
Context `{L : KernelLayout} `{W : Wakes} `{D : Disk}.

(** The loop of [loadseg] from [i] on. *)
Fixpoint loadseg_loop (fuel : nat) (pagetable va : Z) (ip : nat) (offset sz i : Z) : M kernel Z :=
  if i <? sz then
    match fuel with
    | O => nofuel
    | S f =>
        pa ← zoom (walkaddr pagetable (u64 (va + i)));
        if pa =? 0 then panic "loadseg: address should exist"
        else
          let n := if sz - i <? PGSIZE then sz - i else PGSIZE in
          r ← readi ip (KPage pa) (u32 (offset + i)) n;
          if negb (r.1 =? n) then mret (-1)
          else loadseg_loop f pagetable va ip offset sz (u32 (i + PGSIZE))
    end
  else mret 0.

(** A segment of [sz] bytes has at most sz/PGSIZE + 1 pages. *)
Definition loadseg (pagetable va : Z) (ip : nat) (offset sz : Z) : M kernel Z :=
  loadseg_loop (S (Z.to_nat (sz / PGSIZE))) pagetable va ip offset sz 0.

(** The loop over the program headers, [n] of them left: [sz], and false for
    goto bad. *)
Fixpoint load_segments (n : nat) (pagetable : Z) (ip : nat) (off sz : Z) : M kernel (Z * bool) :=
  match n with
  | O => mret (sz, true)
  | S n =>
      r ← readi ip KVar (u32 off) PROGHDR_SIZE;
      let ph := read_ph r.2 in
      if negb (r.1 =? PROGHDR_SIZE) then mret (sz, false)
      else if negb (ph.(ph_type) =? ELF_PROG_LOAD) then
        load_segments n pagetable ip (i32 (off + PROGHDR_SIZE)) sz
      else if ph.(ph_memsz) <? ph.(ph_filesz) then mret (sz, false)
      else if u64 (ph.(ph_vaddr) + ph.(ph_memsz)) <? ph.(ph_vaddr) then mret (sz, false)
      else if negb (ph.(ph_vaddr) mod PGSIZE =? 0) then mret (sz, false)
      else
        sz1 ← zoom (uvmalloc pagetable sz (u64 (ph.(ph_vaddr) + ph.(ph_memsz))) (flags2perm ph.(ph_flags)));
        if sz1 =? 0 then mret (sz, false)
        else
          r ← loadseg pagetable ph.(ph_vaddr) ip (u32 ph.(ph_off)) (u32 ph.(ph_filesz));
          if r <? 0 then mret (sz1, false)
          else load_segments n pagetable ip (i32 (off + PROGHDR_SIZE)) sz1
  end.

(** The loop that copies the argument strings to the new stack: [sp] and
    ustack[0..argc), [None] for goto bad. *)
Fixpoint push_args (i : nat) (pagetable stackbase : Z) (argv : list (list Z)) (sp : Z) (ustack : list Z)
  : M kernel (option (Z * list Z)) :=
  match argv with
  | [] => mret (Some (sp, ustack))
  | arg :: argv =>
      if (MAXARG <=? length ustack)%nat then mret None
      else
        let sp := u64 (sp - (Z.of_nat (length arg) + 1)) in
        let sp := sp - sp mod 16 in
        if sp <? stackbase then mret None
        else
          p ← getp i;
          r ← zoom (copyout p.(p_sz) p.(p_pagetable) pagetable sp (arg ++ [0]));
          if r <? 0 then mret None
          else push_args i pagetable stackbase argv sp (ustack ++ [sp])
  end.

(** The second half of [kexec], after the program is in memory: the stack, the
    arguments and the switch to the new image.  [inl sz] is goto bad. *)
Definition kexec_stack (i : nat) (path : list Z) (argv : list (list Z)) (elf : elfhdr) (pagetable sz : Z)
  : M kernel (Z + Z) :=
  p ← getp i;
  let oldsz := p.(p_sz) in
  let sz := PGROUNDUP sz in
  sz1 ← zoom (uvmalloc pagetable sz (u64 (sz + (USERSTACK + 1) * PGSIZE)) PTE_W);
  if sz1 =? 0 then mret (inl sz)
  else
    let sz := sz1 in
    zoom (uvmclear pagetable (sz - (USERSTACK + 1) * PGSIZE)) ;;
    let stackbase := sz - USERSTACK * PGSIZE in
    r ← push_args i pagetable stackbase argv sz [];
    match r with
    | None => mret (inl sz)
    | Some (sp, ustack) =>
        let argc := Z.of_nat (length ustack) in
        if Z.of_nat MAXARG <=? argc then panic "undefined"  (* ustack[MAXARG] = 0 *)
        else
          let sp := u64 (sp - (argc + 1) * 8) in
          let sp := sp - sp mod 16 in
          if sp <? stackbase then mret (inl sz)
          else
            p ← getp i;
            r ← zoom (copyout p.(p_sz) p.(p_pagetable) pagetable sp (words (ustack ++ [0])));
            if r <? 0 then mret (inl sz)
            else
              set_tf i (TF_a 1) sp ;;
              modp i (fun p => set_name (safestrcpy_bytes p.(p_name) (basename path path) 16) p) ;;
              p ← getp i;
              modp i (set_pagetable pagetable) ;;
              modp i (set_sz sz) ;;
              set_tf i TF_epc elf.(elf_entry) ;;
              set_tf i TF_sp sp ;;
              zoom (proc_freepagetable p.(p_pagetable) oldsz) ;;
              mret (inr argc)
    end.

(** The label [bad] with the inode still locked. *)
Definition kexec_bad (pagetable sz : Z) (ip : nat) : M kernel Z :=
  (if pagetable =? 0 then mret tt else zoom (proc_freepagetable pagetable sz)) ;;
  iunlockput ip ;;
  end_op ;;
  mret (-1).

Definition kexec (path : list Z) (argv : list (list Z)) : M kernel Z :=
  i ← curproc;
  begin_op ;;
  o ← namei path;
  match o with
  | None => end_op ;; mret (-1)
  | Some ip =>
      ilock (Some ip) ;;
      r ← readi ip KVar 0 ELFHDR_SIZE;
      let elf := read_elf r.2 in
      if negb (r.1 =? ELFHDR_SIZE) then kexec_bad 0 PGSIZE ip
      else if negb (elf.(elf_magic) =? ELF_MAGIC) then kexec_bad 0 PGSIZE ip
      else
        p ← getp i;
        pagetable ← zoom (proc_pagetable p.(p_trapframe));
        if pagetable =? 0 then kexec_bad 0 PGSIZE ip
        else
          r ← load_segments (Z.to_nat elf.(elf_phnum)) pagetable ip (i32 elf.(elf_phoff)) PGSIZE;
          if negb r.2 then kexec_bad pagetable r.1 ip
          else
            iunlockput ip ;;
            end_op ;;
            i ← curproc;
            r ← kexec_stack i path argv elf pagetable r.1;
            match r with
            | inl sz => zoom (proc_freepagetable pagetable sz) ;; mret (-1)
            | inr argc => mret argc
            end
  end.
End exec.
