(* ===== verification/Fork.v ===== *)
(** * The life of a process (kernel/proc.c): userinit, kfork, kexit, kwait *)

From Stdlib Require Import ZArith Lia.
From stdpp Require Import base list numbers strings gmap.
From S2P Require Import Prelude Types Mem Str Layout Kalloc Vm State Spinlock Printf Proc Sleeplock Bio Log Pipe Fs File Exec.
Open Scope Z_scope.

Section fork.
Context `{L : KernelLayout} `{W : Wakes} `{D : Disk}.

Definition userinit : M kernel unit :=
  o ← allocproc;
  modify (set_initproc o) ;;
  i ← deref o;
  cwd ← namei [47];
  modp i (set_cwd cwd) ;;
  modp i (set_state RUNNABLE) ;;
  release (LkProc i).

Definition kfork : M kernel Z :=
  i ← curproc;
  o ← allocproc;
  match o with
  | None => mret (-1)
  | Some np =>
      p ← getp i;
      n ← getp np;
      r ← zoom (uvmcopy p.(p_pagetable) n.(p_pagetable) p.(p_sz));
      if r <? 0 then
        freeproc np ;;
        release (LkProc np) ;;
        mret (-1)
      else
        modp np (set_sz p.(p_sz)) ;;
        zoom (move_bytes n.(p_trapframe) p.(p_trapframe) TF_SIZE) ;;
        set_tf np (TF_a 0) 0 ;;
        foreach (seq 0 NOFILE) (fun fd =>
          p ← getp i;
          match p.(p_ofile) !!! fd with
          | None => mret tt
          | Some f =>
              f ← filedup f;
              modp np (fun n => set_ofile (<[fd := Some f]> n.(p_ofile)) n)
          end) ;;
        p ← getp i;
        cwd ← deref p.(p_cwd);
        cwd ← idup cwd;
        modp np (set_cwd (Some cwd)) ;;
        modp np (fun n => set_name (safestrcpy_bytes n.(p_name) p.(p_name) 16) n) ;;
        modp np (set_tickets p.(p_tickets)) ;;
        n ← getp np;
        let pid := n.(p_pid) in
        release (LkProc np) ;;
        acquire LkWait ;;
        modp np (set_parent (Some i)) ;;
        release LkWait ;;
        acquire (LkProc np) ;;
        modp np (set_state RUNNABLE) ;;
        release (LkProc np) ;;
        mret pid
  end.

Definition reparent (p : nat) : M kernel unit :=
  foreach slots (fun pp =>
    x ← getp pp;
    if bool_decide (x.(p_parent) = Some p) then
      init ← gets k_initproc;
      modp pp (set_parent init) ;;
      wakeup (ChProc <$> init)
    else mret tt).

(** The loop that closes the open files. *)
Definition close_files (i : nat) : M kernel unit :=
  foreach (seq 0 NOFILE) (fun fd =>
    p ← getp i;
    match p.(p_ofile) !!! fd with
    | None => mret tt
    | Some f => fileclose f ;; modp i (fun p => set_ofile (<[fd := None]> p.(p_ofile)) p)
    end).

Definition kexit {A} (status : Z) : M kernel A :=
  i ← curproc;
  init ← gets k_initproc;
  if bool_decide (init = Some i) then panic "init exiting"
  else
    close_files i ;;
    begin_op ;;
    p ← getp i;
    cwd ← deref p.(p_cwd);
    iput cwd ;;
    end_op ;;
    modp i (set_cwd None) ;;
    acquire LkWait ;;
    reparent i ;;
    p ← getp i;
    wakeup (ChProc <$> p.(p_parent)) ;;
    acquire (LkProc i) ;;
    modp i (set_xstate status) ;;
    modp i (set_state ZOMBIE) ;;
    release LkWait ;;
    sched ;;
    panic "zombie exit".

(** The scan of [kwait] over the slots [l]: [inl] for the return inside, or
    [havekids]. *)
Fixpoint kwait_scan (i : nat) (addr : Z) (l : list nat) (havekids : bool) : M kernel (Z + bool) :=
  match l with
  | [] => mret (inr havekids)
  | pp :: l =>
      x ← getp pp;
      if bool_decide (x.(p_parent) = Some i) then
        acquire (LkProc pp) ;;
        x ← getp pp;
        if bool_decide (x.(p_state) = ZOMBIE) then
          p ← getp i;
          bad ← (if addr =? 0 then mret false
                 else
                   r ← zoom (copyout p.(p_sz) p.(p_pagetable) p.(p_pagetable) addr
                              (read_bytes (store 4 (fun _ => 0) 0 x.(p_xstate)) 0 4));
                   mret (r <? 0));
          if (bad : bool) then
            release (LkProc pp) ;; release LkWait ;; mret (inl (-1))
          else
            freeproc pp ;;
            release (LkProc pp) ;;
            release LkWait ;;
            mret (inl x.(p_pid))
        else
          release (LkProc pp) ;;
          kwait_scan i addr l true
      else kwait_scan i addr l havekids
  end.

Fixpoint kwait_loop (fuel : nat) (i : nat) (addr : Z) : M kernel Z :=
  r ← kwait_scan i addr slots false;
  match r with
  | inl v => mret v
  | inr havekids =>
      d ← (if negb havekids then mret true else killed i);
      if (d : bool) then release LkWait ;; mret (-1)
      else
        match fuel with
        | O => nofuel
        | S f => sleep (Some (ChProc i)) LkWait ;; kwait_loop f i addr
        end
  end.

Definition kwait (addr : Z) : M kernel Z :=
  i ← curproc;
  acquire LkWait ;;
  kwait_loop wakes i addr.
End fork.
