(* ===== verification/Syscall.v ===== *)
(** * System calls (kernel/syscall.c, sysproc.c, sysfile.c)

    A handler reads its arguments from the trap frame of the current process;
    [syscall] counts the call, dispatches on a7 and stores the result in a0. *)

From Stdlib Require Import ZArith Lia.
From stdpp Require Import base list numbers strings gmap.
From S2P Require Import Prelude Types Mem Str Layout Kalloc Vm State Spinlock Printf Proc Sleeplock Bio Log Console Pipe Fs File Exec Fork.
Open Scope Z_scope.

(** fcntl.h, vm.h *)
Definition O_RDONLY : Z := 0x000.
Definition O_WRONLY : Z := 0x001.
Definition O_RDWR : Z := 0x002.
Definition O_CREATE : Z := 0x200.
Definition O_TRUNC : Z := 0x400.
Definition SBRK_EAGER : Z := 1.

(** The bytes of a C int. *)
Definition int_bytes (x : Z) : list Z := read_bytes (store 4 (fun _ => 0) 0 x) 0 4.

(** struct pstat: four arrays of NPROC ints *)
Definition pstat_bytes (st : pstat) : list Z :=
  concat (int_bytes <$> st.(st_inuse)) ++ concat (int_bytes <$> st.(st_tickets)) ++
  concat (int_bytes <$> st.(st_pid)) ++ concat (int_bytes <$> st.(st_ticks)).

Section syscall.
Context `{L : KernelLayout} `{W : Wakes} `{D : Disk}.

(** ** Arguments *)

(** *ip, [None] for -1 *)
Definition fetchaddr (addr : Z) : M kernel (option Z) :=
  i ← curproc;
  p ← getp i;
  if (p.(p_sz) <=? addr) || (p.(p_sz) <? u64 (addr + 8)) then mret None
  else
    r ← zoom (copyin p.(p_sz) p.(p_pagetable) p.(p_pagetable) addr 8);
    if negb (r.1 =? 0) then mret None else mret (Some (field r.2 8 0)).

(** The string in [buf]; its length is the value returned. *)
Definition fetchstr (addr max : Z) : M kernel (option (list Z)) :=
  i ← curproc;
  p ← getp i;
  zoom (copyinstr p.(p_pagetable) addr max).

Definition argraw (n : Z) : M kernel Z :=
  i ← curproc;
  if (0 <=? n) && (n <? 6) then get_tf i (TF_a n) else panic "argraw".

Definition argint (n : Z) : M kernel Z := x ← argraw n; mret (i32 x).
Definition argaddr (n : Z) : M kernel Z := argraw n.
Definition argstr (n max : Z) : M kernel (option (list Z)) := addr ← argaddr n; fetchstr addr max.

(** The descriptor and the file, [None] for -1. *)
Definition argfd (n : Z) : M kernel (option (nat * nat)) :=
  fd ← argint n;
  if (fd <? 0) || (Z.of_nat NOFILE <=? fd) then mret None
  else
    i ← curproc;
    p ← getp i;
    mret ((fun f => (Z.to_nat fd, f)) <$> p.(p_ofile) !!! Z.to_nat fd).

(** The first free descriptor. *)
Fixpoint free_fd (l : list (option nat)) (fd : nat) : option nat :=
  match l with
  | [] => None
  | None :: _ => Some fd
  | Some _ :: l' => free_fd l' (S fd)
  end.

Definition set_fd (i fd : nat) (x : option nat) : M kernel unit :=
  modp i (fun p => set_ofile (<[fd := x]> p.(p_ofile)) p).

Definition fdalloc (f : nat) : M kernel (option nat) :=
  i ← curproc;
  p ← getp i;
  match free_fd p.(p_ofile) 0 with
  | Some fd => set_fd i fd (Some f) ;; mret (Some fd)
  | None => mret None
  end.

(** ** sysproc.c *)

Definition sys_exit : M kernel Z := n ← argint 0; kexit n.
Definition sys_getpid : M kernel Z := i ← curproc; p ← getp i; mret p.(p_pid).
Definition sys_fork : M kernel Z := kfork.
Definition sys_wait : M kernel Z := p ← argaddr 0; kwait p.

Definition sys_sbrk : M kernel Z :=
  n ← argint 0;
  t ← argint 1;
  i ← curproc;
  p ← getp i;
  let addr := p.(p_sz) in
  if (t =? SBRK_EAGER) || (n <? 0) then
    r ← growproc n;
    if r <? 0 then mret (-1) else mret addr
  else if u64 (addr + n) <? addr then mret (-1)
  else if TRAPFRAME <? u64 (addr + n) then mret (-1)
  else
    i ← curproc;
    modp i (fun p => set_sz (u64 (p.(p_sz) + n)) p) ;;
    mret addr.

Fixpoint pause_loop (fuel : nat) (ticks0 n : Z) : M kernel Z :=
  ticks ← gets k_ticks;
  if u32 (ticks - ticks0) <? n then
    i ← curproc;
    d ← killed i;
    if (d : bool) then release LkTicks ;; mret (-1)
    else
      match fuel with
      | O => nofuel
      | S f => sleep (Some ChTicks) LkTicks ;; pause_loop f ticks0 n
      end
  else release LkTicks ;; mret 0.

Definition sys_pause : M kernel Z :=
  n ← argint 0;
  let n := if n <? 0 then 0 else n in
  acquire LkTicks ;;
  ticks0 ← gets k_ticks;
  pause_loop wakes ticks0 n.

Definition sys_kill : M kernel Z := pid ← argint 0; kkill pid.

Definition sys_uptime : M kernel Z :=
  acquire LkTicks ;;
  xticks ← gets k_ticks;
  release LkTicks ;;
  mret xticks.

Definition sys_settickets : M kernel Z := n ← argint 0; ksettickets n.

(** An uninitialised [st] is zeros; [kgetpinfo] sets all of it. *)
Definition sys_getpinfo : M kernel Z :=
  addr ← argaddr 0;
  if addr =? 0 then mret (-1)
  else
    let z := replicate NPROC 0 in
    st ← kgetpinfo (mkpstat z z z z);
    i ← curproc;
    p ← getp i;
    r ← zoom (copyout p.(p_sz) p.(p_pagetable) p.(p_pagetable) addr (pstat_bytes st));
    mret (if r <? 0 then -1 else 0).

(** syscall.c *)
Definition NSYSCALLS : Z := 25.
Definition sys_getcnt : M kernel Z :=
  n ← argint 0;
  if (n <=? 0) || (NSYSCALLS <=? n) then mret (-1)
  else gets (fun k => k.(k_counts) !!! Z.to_nat n).

(** ** sysfile.c *)

Definition sys_dup : M kernel Z :=
  a ← argfd 0;
  match a with
  | None => mret (-1)
  | Some (_, f) =>
      fd ← fdalloc f;
      match fd with
      | None => mret (-1)
      | Some fd => _ ← filedup f; mret (Z.of_nat fd)
      end
  end.

Definition sys_read : M kernel Z :=
  p ← argaddr 1;
  n ← argint 2;
  a ← argfd 0;
  match a with None => mret (-1) | Some (_, f) => fileread f p n end.

Definition sys_write : M kernel Z :=
  p ← argaddr 1;
  n ← argint 2;
  a ← argfd 0;
  match a with None => mret (-1) | Some (_, f) => filewrite f p n end.

Definition sys_close : M kernel Z :=
  a ← argfd 0;
  match a with
  | None => mret (-1)
  | Some (fd, f) =>
      i ← curproc;
      set_fd i fd None ;;
      fileclose f ;;
      mret 0
  end.

Definition sys_fstat : M kernel Z :=
  st ← argaddr 1;
  a ← argfd 0;
  match a with None => mret (-1) | Some (_, f) => filestat f st end.

Definition add_nlink (ip : nat) (d : Z) : M kernel unit :=
  modi ip (fun i => set_nlink (i16 (i.(i_nlink) + d)) i).

(** The label [bad] of [sys_link]. *)
Definition link_bad (ip : nat) : M kernel Z :=
  ilock (Some ip) ;;
  add_nlink ip (-1) ;;
  iupdate ip ;;
  iunlockput ip ;;
  end_op ;;
  mret (-1).

Definition sys_link : M kernel Z :=
  old ← argstr 0 MAXPATH;
  match old with
  | None => mret (-1)
  | Some old =>
  new ← argstr 1 MAXPATH;
  match new with
  | None => mret (-1)
  | Some new =>
  begin_op ;;
  o ← namei old;
  match o with
  | None => end_op ;; mret (-1)
  | Some ip =>
  ilock (Some ip) ;;
  i ← geti ip;
  if i.(i_type) =? T_DIR then iunlockput ip ;; end_op ;; mret (-1)
  else
    add_nlink ip 1 ;;
    iupdate ip ;;
    iunlock (Some ip) ;;
    o ← nameiparent new;
    match o with
    | None => link_bad ip
    | Some (dp, name) =>
        ilock (Some dp) ;;
        d ← geti dp;
        i ← geti ip;
        bad ← (if negb (d.(i_dev) =? i.(i_dev)) then mret true
               else r ← dirlink dp name i.(i_inum); mret (r <? 0));
        if (bad : bool) then iunlockput dp ;; link_bad ip
        else iunlockput dp ;; iput ip ;; end_op ;; mret 0
    end
  end end end.

Fixpoint isdirempty_loop (fuel : nat) (dp : nat) (off : Z) : M kernel bool :=
  d ← geti dp;
  if off <? d.(i_size) then
    match fuel with
    | O => nofuel
    | S f =>
        r ← readi dp KVar off DIRENT_SIZE;
        if negb (r.1 =? DIRENT_SIZE) then panic "isdirempty: readi"
        else if negb (field r.2 2 0 =? 0) then mret false
        else isdirempty_loop f dp (off + DIRENT_SIZE)
    end
  else mret true.

Definition isdirempty (dp : nat) : M kernel bool :=
  d ← geti dp;
  isdirempty_loop (S (Z.to_nat (d.(i_size) / DIRENT_SIZE))) dp (2 * DIRENT_SIZE).

(** The label [bad] of [sys_unlink]. *)
Definition unlink_bad (dp : nat) : M kernel Z := iunlockput dp ;; end_op ;; mret (-1).

Definition sys_unlink : M kernel Z :=
  path ← argstr 0 MAXPATH;
  match path with
  | None => mret (-1)
  | Some path =>
  begin_op ;;
  o ← nameiparent path;
  match o with
  | None => end_op ;; mret (-1)
  | Some (dp, name) =>
  ilock (Some dp) ;;
  if (namecmp name [46] =? 0) || (namecmp name [46; 46] =? 0) then unlink_bad dp
  else
  r ← dirlookup dp name;
  match r with
  | None => unlink_bad dp
  | Some (ip, off) =>
  ilock (Some ip) ;;
  i ← geti ip;
  (if i.(i_nlink) <? 1 then panic "unlink: nlink < 1" else mret tt) ;;
  e ← (if i.(i_type) =? T_DIR then isdirempty ip else mret true);
  if negb e then iunlockput ip ;; unlink_bad dp
  else
    r ← writei dp (SVar (replicate (Z.to_nat DIRENT_SIZE) 0)) off DIRENT_SIZE;
    (if negb (r =? DIRENT_SIZE) then panic "unlink: writei" else mret tt) ;;
    (if i.(i_type) =? T_DIR then add_nlink dp (-1) ;; iupdate dp else mret tt) ;;
    iunlockput dp ;;
    add_nlink ip (-1) ;;
    iupdate ip ;;
    iunlockput ip ;;
    end_op ;;
    mret 0
  end end end.

(** The label [fail] of [create]. *)
Definition create_fail (ip dp : nat) : M kernel (option nat) :=
  modi ip (set_nlink 0) ;;
  iupdate ip ;;
  iunlockput ip ;;
  iunlockput dp ;;
  mret None.

(** The new inode, locked. *)
Definition create (path : list Z) (type major minor : Z) : M kernel (option nat) :=
  o ← nameiparent path;
  match o with
  | None => mret None
  | Some (dp, name) =>
  ilock (Some dp) ;;
  r ← dirlookup dp name;
  match r with
  | Some (ip, _) =>
      iunlockput dp ;;
      ilock (Some ip) ;;
      i ← geti ip;
      if (type =? T_FILE) && ((i.(i_type) =? T_FILE) || (i.(i_type) =? T_DEVICE)) then mret (Some ip)
      else iunlockput ip ;; mret None
  | None =>
  d ← geti dp;
  o ← ialloc d.(i_dev) type;
  match o with
  | None => iunlockput dp ;; mret None
  | Some ip =>
  ilock (Some ip) ;;
  modi ip (set_majmin major minor) ;;
  modi ip (set_nlink 1) ;;
  iupdate ip ;;
  i ← geti ip;
  d ← geti dp;
  bad ← (if type =? T_DIR then
           r ← dirlink ip [46] i.(i_inum);
           if r <? 0 then mret true
           else r ← dirlink ip [46; 46] d.(i_inum); mret (r <? 0)
         else mret false);
  if (bad : bool) then create_fail ip dp
  else
    r ← dirlink dp name i.(i_inum);
    if r <? 0 then create_fail ip dp
    else
      (if type =? T_DIR then add_nlink dp 1 ;; iupdate dp else mret tt) ;;
      iunlockput dp ;;
      mret (Some ip)
  end end end.

(** The first half of [sys_open]: the locked inode, [None] after end_op. *)
Definition open_inode (path : list Z) (omode : Z) : M kernel (option nat) :=
  begin_op ;;
  if negb (Z.land omode O_CREATE =? 0) then
    o ← create path T_FILE 0 0;
    match o with None => end_op ;; mret None | Some ip => mret (Some ip) end
  else
    o ← namei path;
    match o with
    | None => end_op ;; mret None
    | Some ip =>
        ilock (Some ip) ;;
        i ← geti ip;
        if (i.(i_type) =? T_DIR) && negb (omode =? O_RDONLY) then iunlockput ip ;; end_op ;; mret None
        else mret (Some ip)
    end.

Definition sys_open : M kernel Z :=
  omode ← argint 1;
  path ← argstr 0 MAXPATH;
  match path with
  | None => mret (-1)
  | Some path =>
  o ← open_inode path omode;
  match o with
  | None => mret (-1)
  | Some ip =>
  i ← geti ip;
  if (i.(i_type) =? T_DEVICE) && ((i.(i_major) <? 0) || (NDEV <=? i.(i_major))) then
    iunlockput ip ;; end_op ;; mret (-1)
  else
  o ← filealloc;
  match o with
  | None => iunlockput ip ;; end_op ;; mret (-1)
  | Some f =>
  fd ← fdalloc f;
  match fd with
  | None => fileclose f ;; iunlockput ip ;; end_op ;; mret (-1)
  | Some fd =>
      (if i.(i_type) =? T_DEVICE then modf f (fun x => set_f_major i.(i_major) (set_f_type FD_DEVICE x))
       else modf f (fun x => set_f_off 0 (set_f_type FD_INODE x))) ;;
      modf f (set_f_ip (Some ip)) ;;
      modf f (set_f_rw (Z.land omode O_WRONLY =? 0)
                (negb (Z.land omode O_WRONLY =? 0) || negb (Z.land omode O_RDWR =? 0))) ;;
      (if negb (Z.land omode O_TRUNC =? 0) && (i.(i_type) =? T_FILE) then itrunc ip else mret tt) ;;
      iunlock (Some ip) ;;
      end_op ;;
      mret (Z.of_nat fd)
  end end end end.

Definition sys_mkdir : M kernel Z :=
  begin_op ;;
  path ← argstr 0 MAXPATH;
  o ← match path with None => mret None | Some path => create path T_DIR 0 0 end;
  match o with
  | None => end_op ;; mret (-1)
  | Some ip => iunlockput ip ;; end_op ;; mret 0
  end.

Definition sys_mknod : M kernel Z :=
  begin_op ;;
  major ← argint 1;
  minor ← argint 2;
  path ← argstr 0 MAXPATH;
  o ← match path with None => mret None | Some path => create path T_DEVICE (i16 major) (i16 minor) end;
  match o with
  | None => end_op ;; mret (-1)
  | Some ip => iunlockput ip ;; end_op ;; mret 0
  end.

Definition sys_chdir : M kernel Z :=
  i ← curproc;
  begin_op ;;
  path ← argstr 0 MAXPATH;
  o ← match path with None => mret None | Some path => namei path end;
  match o with
  | None => end_op ;; mret (-1)
  | Some ip =>
      ilock (Some ip) ;;
      x ← geti ip;
      if negb (x.(i_type) =? T_DIR) then iunlockput ip ;; end_op ;; mret (-1)
      else
        iunlock (Some ip) ;;
        p ← getp i;
        cwd ← deref p.(p_cwd);
        iput cwd ;;
        end_op ;;
        modp i (set_cwd (Some ip)) ;;
        mret 0
  end.

(** The argument loop of [sys_exec] from argv[i] on, [n] entries left: the
    pages allocated, and the strings, [None] for goto bad.  A string is left
    with its NUL in its page. *)
Fixpoint exec_args (n : nat) (uargv : Z) (pages : list Z) (strs : list (list Z))
  : M kernel (list Z * option (list (list Z))) :=
  match n with
  | O => mret (pages, None)
  | S n =>
      uarg ← fetchaddr (u64 (uargv + 8 * Z.of_nat (length strs)));
      match uarg with
      | None => mret (pages, None)
      | Some uarg =>
          if uarg =? 0 then mret (pages, Some strs)
          else
            pa ← zoom kalloc;
            if pa =? 0 then mret (pages, None)
            else
              s ← fetchstr uarg PGSIZE;
              match s with
              | None => mret (pages ++ [pa], None)
              | Some s =>
                  modify (fun k => set_mem (mkkmem (write_bytes k.(k_mem).(pm) pa (s ++ [0]))
                                              k.(k_mem).(freelist)) k) ;;
                  exec_args n uargv (pages ++ [pa]) (strs ++ [s])
              end
      end
  end.

Definition sys_exec : M kernel Z :=
  uargv ← argaddr 1;
  path ← argstr 0 MAXPATH;
  match path with
  | None => mret (-1)
  | Some path =>
      r ← exec_args MAXARG uargv [] [];
      ret ← match r.2 with Some argv => kexec path argv | None => mret (-1) end;
      foreach r.1 (fun pa => zoom (kfree pa)) ;;
      mret ret
  end.

Definition sys_pipe : M kernel Z :=
  i ← curproc;
  fdarray ← argaddr 0;
  o ← pipealloc;
  match o with
  | None => mret (-1)
  | Some (rf, wf) =>
      fd0 ← fdalloc rf;
      fd1 ← match fd0 with None => mret None | Some _ => fdalloc wf end;
      match fd0, fd1 with
      | Some fd0, Some fd1 =>
          p ← getp i;
          r ← zoom (copyout p.(p_sz) p.(p_pagetable) p.(p_pagetable) fdarray (int_bytes (Z.of_nat fd0)));
          r ← (if r <? 0 then mret r
               else zoom (copyout p.(p_sz) p.(p_pagetable) p.(p_pagetable) (u64 (fdarray + 4))
                            (int_bytes (Z.of_nat fd1))));
          if r <? 0 then
            set_fd i fd0 None ;;
            set_fd i fd1 None ;;
            fileclose rf ;;
            fileclose wf ;;
            mret (-1)
          else mret 0
      | _, _ =>
          match fd0 with Some fd0 => set_fd i fd0 None | None => mret tt end ;;
          fileclose rf ;;
          fileclose wf ;;
          mret (-1)
      end
  end.

(** ** Dispatch *)

(** syscalls[], with the numbers of syscall.h *)
Definition syscalls (num : Z) : option (M kernel Z) :=
  match num with
  | 1 => Some sys_fork | 2 => Some sys_exit | 3 => Some sys_wait | 4 => Some sys_pipe
  | 5 => Some sys_read | 6 => Some sys_kill | 7 => Some sys_exec | 8 => Some sys_fstat
  | 9 => Some sys_chdir | 10 => Some sys_dup | 11 => Some sys_getpid | 12 => Some sys_sbrk
  | 13 => Some sys_pause | 14 => Some sys_uptime | 15 => Some sys_open | 16 => Some sys_write
  | 17 => Some sys_mknod | 18 => Some sys_unlink | 19 => Some sys_link | 20 => Some sys_mkdir
  | 21 => Some sys_close | 22 => Some sys_getcnt | 23 => Some sys_settickets | 24 => Some sys_getpinfo
  | _ => None
  end.

(** syscall_counts[num]++ *)
Definition count_call (num : Z) : M kernel unit :=
  modify (fun k => set_counts (alter (fun c => i32 (c + 1)) (Z.to_nat num) k.(k_counts)) k).

Definition syscall : M kernel unit :=
  i ← curproc;
  a7 ← get_tf i (TF_a 7);
  let num := i32 a7 in
  match (if (0 <? num) && (num <? NSYSCALLS) then syscalls num else None) with
  | Some handler =>
      count_call num ;;
      r ← handler;
      set_tf i (TF_a 0) r
  | None =>
      p ← getp i;
      printf "%d %s: unknown sys call %d
" [AInt p.(p_pid); AStr (Some (cstring p.(p_name))); AInt num] ;;
      set_tf i (TF_a 0) (-1)
  end.
End syscall.
