(* ===== verification/Plic.v ===== *)
(** * The interrupt controller (kernel/plic.c)

    The registers of the PLIC are 32-bit words of its memory-mapped range.  Claiming and
    completing an interrupt are in the model of traps. *)

From Stdlib Require Import ZArith Lia.
From stdpp Require Import base numbers list.
From S2P Require Import Prelude Types Mem.
Open Scope Z_scope.

Definition PLIC_SENABLE (hart : Z) : Z := PLIC + 0x2080 + hart * 0x100.
Definition PLIC_SPRIORITY (hart : Z) : Z := PLIC + 0x201000 + hart * 0x2000.

(** The registers, by their address. *)
Definition plic : Type := Z -> Z.
Definition set_reg (r : plic) (a x : Z) : plic := fun b => if b =? a then u32 x else r b.

Definition plicinit (r : plic) : plic :=
  set_reg (set_reg r (PLIC + UART0_IRQ * 4) 1) (PLIC + VIRTIO0_IRQ * 4) 1.

Definition plicinithart (hart : Z) (r : plic) : plic :=
  set_reg (set_reg r (PLIC_SENABLE hart) (Z.lor (Z.shiftl 1 UART0_IRQ) (Z.shiftl 1 VIRTIO0_IRQ))) (PLIC_SPRIORITY hart) 0.

(** What the PLIC's documentation asks of a source to interrupt a hart's supervisor mode:
    it is enabled and its priority is above the threshold. *)
Definition interrupts (r : plic) (hart irq : Z) : bool :=
  Z.testbit (r (PLIC_SENABLE hart + 4 * (irq / 32))) (irq mod 32) && (r (PLIC_SPRIORITY hart) <? r (PLIC + irq * 4)).

(** ** The harts that get the interrupts *)

Section harts.
Context (r : plic) (harts : list Z).
Context (Hr : forall a, r a = 0) (Hh : forall h, h ∈ harts -> 0 <= h < Z.of_nat NCPU).

(** The registers after boot, the harts in any order. *)
Definition after_boot : plic := foldr plicinithart (plicinit r) harts.

Ltac regs := unfold after_boot, plicinit, plicinithart, set_reg, PLIC_SENABLE, PLIC_SPRIORITY, PLIC, UART0_IRQ, VIRTIO0_IRQ, NCPU in *;
  repeat (match goal with |- context [?a =? ?b] => destruct (Z.eqb_spec a b); [lia|] end).

Lemma priorities a : a < PLIC + 0x2000 -> after_boot a = plicinit r a.
Proof using Hh.
  intros Ha. unfold after_boot. clear Hr. induction harts as [|h hs IH]; [done|]. cbn [foldr]. pose proof (Hh h ltac:(by left)).
  unfold plicinithart at 1; unfold set_reg at 1. rewrite (proj2 (Z.eqb_neq a (PLIC_SPRIORITY h))) by (unfold PLIC_SPRIORITY, NCPU in *; lia).
  unfold set_reg at 1. rewrite (proj2 (Z.eqb_neq a (PLIC_SENABLE h))) by (unfold PLIC_SENABLE, NCPU in *; lia).
  apply IH. intros h' ?. apply Hh. by right.
Qed.

Lemma threshold hart : 0 <= hart < Z.of_nat NCPU -> after_boot (PLIC_SPRIORITY hart) = 0.
Proof using Hr Hh.
  intros Hhart. unfold after_boot. induction harts as [|h hs IH]; cbn [foldr]; [regs; apply Hr|]. pose proof (Hh h ltac:(by left)).
  unfold plicinithart at 1; unfold set_reg at 1. destruct (_ =? _); [done|]. unfold set_reg at 1.
  rewrite (proj2 (Z.eqb_neq _ (PLIC_SENABLE h))) by (unfold PLIC_SENABLE, PLIC_SPRIORITY, NCPU in *; lia).
  apply IH. intros h' ?. apply Hh. by right.
Qed.

Lemma enables hart : 0 <= hart < Z.of_nat NCPU -> after_boot (PLIC_SENABLE hart) = if bool_decide (hart ∈ harts) then 1026 else 0.
Proof using Hr Hh.
  intros Hhart. unfold after_boot. induction harts as [|h hs IH]; cbn [foldr]; [regs; by rewrite Hr|]. pose proof (Hh h ltac:(by left)).
  unfold plicinithart at 1; unfold set_reg at 1.
  rewrite (proj2 (Z.eqb_neq _ (PLIC_SPRIORITY h))) by (unfold PLIC_SENABLE, PLIC_SPRIORITY, NCPU in *; lia).
  unfold set_reg at 1. destruct (Z.eqb_spec (PLIC_SENABLE hart) (PLIC_SENABLE h)) as [E|E].
  - assert (hart = h) as -> by (unfold PLIC_SENABLE in E; lia). by rewrite bool_decide_eq_true_2 by (by left).
  - rewrite IH by (intros h' ?; apply Hh; by right).
    assert (hart <> h) by (intros ->; done). rewrite (bool_decide_ext (hart ∈ h :: hs) (hart ∈ hs)); [done|].
    rewrite elem_of_cons. tauto.
Qed.

(** The harts that have run plicinithart get the interrupts of the UART and of the disk and
    no others. *)
Lemma plic_devices hart irq : 0 <= hart < Z.of_nat NCPU -> 0 <= irq < 32 ->
  interrupts after_boot hart irq = bool_decide (hart ∈ harts) && ((irq =? UART0_IRQ) || (irq =? VIRTIO0_IRQ)).
Proof using Hr Hh.
  intros Hhart Hirq. unfold interrupts. rewrite (Z.div_small irq), Z.mul_0_r, Z.add_0_r, Z.mod_small by lia.
  rewrite enables, threshold, priorities by (done || unfold PLIC; lia).
  destruct (bool_decide _); [|by rewrite Z.bits_0].
  destruct (Z.eqb_spec irq VIRTIO0_IRQ) as [->|N1]; [reflexivity|]. destruct (Z.eqb_spec irq UART0_IRQ) as [->|N10]; [reflexivity|].
  assert (forallb (fun i => (i =? VIRTIO0_IRQ) || (i =? UART0_IRQ) || negb (Z.testbit 1026 i)) (seqZ 0 32) = true) as Hall by reflexivity.
  rewrite forallb_forall in Hall. specialize (Hall irq). rewrite <- list_elem_of_In, elem_of_seqZ in Hall.
  rewrite (proj2 (Z.eqb_neq _ _) N1), (proj2 (Z.eqb_neq _ _) N10) in Hall. by rewrite (proj1 (negb_true_iff _) (Hall ltac:(lia))).
Qed.
End harts.
