(* ===== verification/Trap.v ===== *)
(** * Traps (kernel/trap.c), the first return of a process (forkret of proc.c)
    and the start of the kernel (main.c)

    The trap registers of the hart are [k_csr].  [sret] and the assembly of
    trampoline.S are not part of the model: [usertrap] and [forkret] end with the
    value of satp they hand to it. *)

From Stdlib Require Import ZArith Lia.
From stdpp Require Import base list numbers strings gmap.
From S2P Require Import Prelude Types Mem Str Layout Kalloc Vm State Spinlock Printf Proc Sleeplock Bio Log Console Pipe Fs File Exec Fork Syscall.
Open Scope Z_scope.

Definition csr {A} (f : csrs -> A) : M kernel A := gets (fun k => f k.(k_csr)).
Definition modcsr (f : csrs -> csrs) : M kernel unit := modify (fun k => set_csr (f k.(k_csr)) k).

(** riscv.h *)
Definition SATP_SV39 : Z := Z.shiftl 8 60.
Definition MAKE_SATP (pagetable : Z) : Z := Z.lor SATP_SV39 (Z.shiftr pagetable 12).

Definition trapinit : M kernel unit := initlock LkTicks.

Section trap.
Context `{L : KernelLayout} `{W : Wakes} `{D : Disk}.

Definition trapinithart : M kernel unit := modcsr (set_stvec kernelvec_addr).

Definition clockintr : M kernel unit :=
  c ← gets k_cpu;
  (if c.(c_id) =? 0 then
     acquire LkTicks ;;
     modify (fun k => set_kticks (u32 (k.(k_ticks) + 1)) k) ;;
     wakeup (Some ChTicks) ;;
     release LkTicks
   else mret tt) ;;
  t ← csr time;
  modcsr (set_stimecmp (u64 (t + 1000000))).

(** plic.c: the claim register *)
Definition plic_claim : M kernel Z := csr sclaim.
Definition plic_complete (irq : Z) : M kernel unit := modcsr (set_sclaim 0).

Definition devintr : M kernel Z :=
  cause ← csr scause;
  if cause =? 0x8000000000000009 then
    irq ← plic_claim;
    (if irq =? UART0_IRQ then uartintr
     else if irq =? VIRTIO0_IRQ then virtio_disk_intr
     else if negb (irq =? 0) then printf "unexpected interrupt irq=%d
" [AInt irq]
     else mret tt) ;;
    (if negb (irq =? 0) then plic_complete irq else mret tt) ;;
    mret 1
  else if cause =? 0x8000000000000005 then clockintr ;; mret 2
  else mret 0.

Definition prepare_return : M kernel unit :=
  i ← curproc;
  intr_off ;;
  modcsr (set_stvec (u64 (TRAMPOLINE + uservec_off))) ;;
  kpt ← csr satp;
  set_tf i TF_kernel_satp kpt ;;
  p ← getp i;
  set_tf i TF_kernel_sp (p.(p_kstack) + PGSIZE) ;;
  set_tf i TF_kernel_trap usertrap_addr ;;
  c ← gets k_cpu;
  set_tf i TF_kernel_hartid c.(c_id) ;;
  modcsr (set_spp_spie false true) ;;
  epc ← get_tf i TF_epc;
  modcsr (set_sepc epc).

Definition usertrap : M kernel Z :=
  spp ← csr sstatus_spp;
  if (spp : bool) then panic "usertrap: not from user mode"
  else
    modcsr (set_stvec kernelvec_addr) ;;
    i ← curproc;
    pc ← csr sepc;
    set_tf i TF_epc pc ;;
    cause ← csr scause;
    which_dev ←
      (if cause =? 8 then
         d ← killed i;
         (if (d : bool) then kexit (-1) else mret tt) ;;
         epc ← get_tf i TF_epc;
         set_tf i TF_epc (epc + 4) ;;
         intr_on ;;
         syscall ;;
         mret 0
       else
         which_dev ← devintr;
         if negb (which_dev =? 0) then mret which_dev
         else
           cause ← csr scause;
           va ← csr stval;
           p ← getp i;
           if ((cause =? 13) || (cause =? 15) || (cause =? 12)) && (va <? PGSIZE) then
             printf "usertrap(): null pointer dereference pid=%d
" [AInt p.(p_pid)] ;;
             pc ← csr sepc;
             printf "            scause=0x%lx sepc=0x%lx stval=0x%lx
" [AInt cause; AInt pc; AInt va] ;;
             setkilled i ;;
             mret 0
           else
             ok ← (if (cause =? 15) || (cause =? 13) then
                     pa ← zoom (vmfault p.(p_sz) p.(p_pagetable) p.(p_pagetable) va);
                     mret (negb (pa =? 0))
                   else mret false);
             if (ok : bool) then mret 0
             else
               printf "usertrap(): unexpected scause 0x%lx pid=%d
" [AInt cause; AInt p.(p_pid)] ;;
               pc ← csr sepc;
               printf "            sepc=0x%lx stval=0x%lx
" [AInt pc; AInt va] ;;
               setkilled i ;;
               mret 0);
    d ← killed i;
    (if (d : bool) then kexit (-1) else mret tt) ;;
    (if which_dev =? 2 then yield else mret tt) ;;
    prepare_return ;;
    p ← getp i;
    mret (MAKE_SATP p.(p_pagetable)).

(** The registers as they are read at the start, sstatus as its SPP, SPIE and SIE
    bits. *)
Definition kerneltrap : M kernel unit :=
  epc ← csr sepc;
  spp ← csr sstatus_spp;
  spie ← csr sstatus_spie;
  cause ← csr scause;
  if negb spp then panic "kerneltrap: not from supervisor mode"
  else
    sie ← intr_get;
    if (sie : bool) then panic "kerneltrap: interrupts enabled"
    else
      which_dev ← devintr;
      (if which_dev =? 0 then
         pc ← csr sepc;
         va ← csr stval;
         printf "scause=0x%lx sepc=0x%lx stval=0x%lx
" [AInt cause; AInt pc; AInt va] ;;
         panic "kerneltrap"
       else mret tt) ;;
      me ← (if which_dev =? 2 then myproc else mret None);
      (if bool_decide (me = None) then mret tt else yield) ;;
      modcsr (set_sepc epc) ;;
      modcsr (set_spp_spie spp spie) ;;
      intr_off.

(** The value of satp passed to userret. *)
Definition forkret : M kernel Z :=
  i ← curproc;
  release (LkProc i) ;;
  first ← gets k_first;
  (if (first : bool) then
     fsinit ROOTDEV ;;
     modify (set_first false) ;;
     r ← kexec (bytes "/init") [bytes "/init"];
     set_tf i (TF_a 0) r ;;
     a0 ← get_tf i (TF_a 0);
     if a0 =? u64 (-1) then panic "exec" else mret tt
   else mret tt) ;;
  prepare_return ;;
  p ← getp i;
  mret (MAKE_SATP p.(p_pagetable)).

Definition kvminit : M kernel unit := pt ← zoom kvmmake; modify (set_kpgtbl pt).
Definition kvminithart : M kernel unit :=
  pt ← gets k_kpgtbl;
  modcsr (set_satp (MAKE_SATP pt)).

(** main() on hart 0 up to the call of [scheduler].  [plicinit], [plicinithart] and
    [virtio_disk_init] are about the registers of devices that are not in [kernel]: they are
    in the models of the interrupt controller and of the disk driver. *)
Definition boot : M kernel unit :=
  consoleinit ;;
  initlock LkPr ;;
  printf newline [] ;;
  printf "xv6 kernel is booting
" [] ;;
  printf newline [] ;;
  zoom kinit ;;
  kvminit ;;
  kvminithart ;;
  procinit ;;
  trapinit ;;
  trapinithart ;;
  binit ;;
  iinit ;;
  fileinit ;;
  userinit.

(** main() on the other harts, when [started] is set, up to the call of [scheduler]. *)
Definition boot_other : M kernel unit :=
  c ← gets k_cpu;
  printf "hart %d starting
" [AInt c.(c_id)] ;;
  kvminithart ;;
  trapinithart.
End trap.
