(* ===== verification/Usys.v ===== *)
(** * User programs and their system calls (user/usys.pl, user/user.h)

    A user program is a tree: it returns, or makes a system call and goes on with the
    answer of the kernel.  A [fork] is one call with two answers, 0 in the child.  A
    loop without a bound in the source has fuel, and [Umore] is where it ends. *)

From Stdlib Require Import ZArith Lia.
From stdpp Require Import base numbers list strings.
From S2P Require Import Prelude.
Open Scope Z_scope.

(** struct stat, as far as programs look at it *)
Record ustat := mkustat { us_type : Z; us_ino : Z; us_size : Z }.

(** The system calls with their arguments and the type of the answer.  read() answers
    its value and the bytes it has put in the buffer; pipe() the two descriptors. *)
Inductive sysc : Type -> Type :=
  | Sexit (status : Z) : sysc Empty_set
  | Sfork : sysc Z
  | Swait : sysc Z
  | Sread (fd n : Z) : sysc (Z * list Z)
  | Swrite (fd : Z) (bs : list Z) : sysc Z
  | Sopen (path : list Z) (mode : Z) : sysc Z
  | Sclose (fd : Z) : sysc Z
  | Sdup (fd : Z) : sysc Z
  | Spipe : sysc (option (Z * Z))
  | Sexec (path : list Z) (argv : list (list Z)) : sysc Z
  | Schdir (path : list Z) : sysc Z
  | Skill (pid : Z) : sysc Z
  | Slink (old new : list Z) : sysc Z
  | Sunlink (path : list Z) : sysc Z
  | Smkdir (path : list Z) : sysc Z
  | Smknod (path : list Z) (major minor : Z) : sysc Z
  | Sfstat (fd : Z) : sysc (option ustat)
  | Spause (n : Z) : sysc Z
  | Sgetcnt (n : Z) : sysc Z.

Inductive uprog (A : Type) : Type :=
  | Uret (a : A)
  | Ucall {X : Type} (c : sysc X) (k : X -> uprog A)
  | Umore.
Arguments Uret {A} a.
Arguments Ucall {A X} c k.
Arguments Umore {A}.

Fixpoint ubind {A B} (f : A -> uprog B) (p : uprog A) : uprog B :=
  match p with
  | Uret a => f a
  | Ucall c k => Ucall c (fun x => ubind f (k x))
  | Umore => Umore
  end.

#[global] Instance uprog_ret : MRet uprog := fun _ => Uret.
#[global] Instance uprog_bind : MBind uprog := fun _ _ => ubind.

Definition sys {X} (c : sysc X) : uprog X := Ucall c Uret.

(** exit(n) does not return. *)
Definition exit {A} (n : Z) : uprog A := Ucall (Sexit n) (fun x : Empty_set => match x with end).

Fixpoint ueach {A} (l : list A) (f : A -> uprog unit) : uprog unit :=
  match l with [] => mret tt | x :: l' => f x ;; ueach l' f end.

(** ** Running a program against a handler of its calls *)

Inductive outcome (S A : Type) :=
  | Returned (a : A) (s : S)
  | Exited (n : Z) (s : S)
  | Blocked (s : S)      (* no answer: the handler does not know the call *)
  | More.
Arguments Returned {S A} a s.
Arguments Exited {S A} n s.
Arguments Blocked {S A} s.
Arguments More {S A}.

Section run.
Context {S : Type} (handle : forall X, sysc X -> S -> option (X * S)).

Fixpoint urun {A} (p : uprog A) (s : S) : outcome S A :=
  match p with
  | Uret a => Returned a s
  | Umore => More
  | Ucall c k =>
      match c with
      | Sexit n => Exited n s
      | _ => match handle _ c s with Some (x, s') => urun (k x) s' | None => Blocked s end
      end
  end.
End run.

Lemma urun_bind {S} (handle : forall X, sysc X -> S -> option (X * S)) {A B} (p : uprog A) (f : A -> uprog B) s :
  urun handle (x ← p; f x) s =
  match urun handle p s with
  | Returned a s' => urun handle (f a) s'
  | Exited n s' => Exited n s'
  | Blocked s' => Blocked s'
  | More => More
  end.
Proof.
  revert s. induction p as [a|X c k IH|]; intros s; [done| |done]. unfold mbind, uprog_bind in *. cbn [ubind urun].
  destruct c; try done; (destruct (handle _ _ s) as [[x s']|]; [apply IH|done]).
Qed.
