(* ===== verification/Ulib.v ===== *)
(** * The C library of user programs (user/ulib.c)

    The functions on strings and memory, as their loops over the bytes of the
    process, and the ones that make system calls. *)

From Stdlib Require Import ZArith Lia.
From stdpp Require Import base numbers list strings.
From S2P Require Import Prelude Types Mem Str Usys.
Open Scope Z_scope.

(** ** Strings *)

(** A loop over a string has no bound in C; [fuel] bounds the bytes examined. *)

(** while(( *s++ = *t++ ) != 0) ; *)
Fixpoint strcpy (fuel : nat) (m : mem) (s t : Z) : option mem :=
  match fuel with
  | O => None
  | S f => let m' := upd m s (m t) in if m t =? 0 then Some m' else strcpy f m' (s + 1) (t + 1)
  end.

Fixpoint strcmp (fuel : nat) (m : mem) (p q : Z) : option Z :=
  match fuel with
  | O => None
  | S f => if negb (m p =? 0) && (m p =? m q) then strcmp f m (p + 1) (q + 1) else Some (m p - m q)
  end.

(** Of a string literal; a NUL is not found. *)
Definition strchr (s : list Z) (c : Z) : bool := existsb (fun x => x =? c) s.

(** while('0' <= *s && *s <= '9') n = n*10 + *s++ - '0'; *)
Fixpoint atoi_loop (s : list Z) (n : Z) : Z :=
  match s with
  | c :: s' => if (48 <=? c) && (c <=? 57) then atoi_loop s' (i32 (n * 10 + c - 48)) else n
  | [] => n
  end.
Definition atoi (s : list Z) : Z := atoi_loop s 0.

(** memmove, and memcpy, which is memmove *)
Definition umemmove (m : mem) (dst src : Z) (n : nat) : mem :=
  if dst <? src then copy_forward m dst src n else copy_backward m (dst + Z.of_nat n) (src + Z.of_nat n) n.

(** ** Calls *)

(** The loop of gets(): [i] bytes are in the buffer. *)
Fixpoint gets_loop (todo : nat) (m : mem) (buf i : Z) : uprog (mem * Z) :=
  match todo with
  | O => mret (m, i)
  | S todo =>
      r ← sys (Sread 0 1);
      if r.1 <? 1 then mret (m, i)
      else
        let c := nth 0 r.2 0 in
        let m := upd m (buf + i) c in
        if (c =? 10) || (c =? 13) then mret (m, i + 1) else gets_loop todo m buf (i + 1)
  end.

Definition gets (m : mem) (buf max : Z) : uprog mem :=
  r ← gets_loop (Z.to_nat (max - 1)) m buf 0;
  mret (upd r.1 (buf + r.2) 0).

Definition stat (n : list Z) : uprog (option ustat) :=
  fd ← sys (Sopen n 0);
  if fd <? 0 then mret None
  else
    r ← sys (Sfstat fd);
    sys (Sclose fd) ;;
    mret r.

(** start(): main and then exit with what it returns *)
Definition start (main : uprog Z) : uprog unit := r ← main; exit r.
