(* ===== verification/Uprintf.v ===== *)
(** * printf of user programs (user/printf.c)

    Every byte is one write() to the descriptor.  The loop over the format has two
    states, as in the source: outside and after a percent sign. *)

From Stdlib Require Import ZArith Lia.
From stdpp Require Import base numbers list strings.
From S2P Require Import Prelude Usys.
Open Scope Z_scope.

Definition udigits : list Z := bytes "0123456789ABCDEF".

Definition putc (fd c : Z) : uprog unit := sys (Swrite fd [u8 c]) ;; mret tt.

(** The do-while loop of [printint]: least significant digit first. *)
Fixpoint digit_loop (fuel : nat) (x base : Z) : list Z :=
  match fuel with
  | O => []
  | S f => nth (Z.to_nat (x mod base)) udigits 0 :: (if x / base =? 0 then [] else digit_loop f (x / base) base)
  end.

(** buf; a 64-bit number has at most 20 digits in base 10 or 16 *)
Definition int_buf (xx base : Z) (sgn : bool) : list Z :=
  let neg := sgn && (xx <? 0) in
  digit_loop 20 (u64 (if neg then - xx else xx)) base ++ (if neg then [45] else []).

Definition printint (fd xx base : Z) (sgn : bool) : uprog unit := ueach (rev (int_buf xx base sgn)) (putc fd).

Definition printptr (fd x : Z) : uprog unit :=
  putc fd 48 ;;
  putc fd 120 ;;
  ueach (seqZ 0 16) (fun i => putc fd (nth (Z.to_nat (Z.shiftr (u64 (Z.shiftl x (4 * i))) 60)) udigits 0)).

(** A variadic argument: a register, or a string; [None] is a null pointer. *)
Inductive uarg := UInt (x : Z) | UStr (s : option (list Z)).
Definition arg_reg (a : list uarg) : Z := match a with UInt x :: _ => x | _ => 0 end.
Definition arg_chars (a : list uarg) : option (list Z) := match a with UStr s :: _ => s | _ => None end.

(** One conversion, at the bytes after the percent sign: what it prints, the bytes it
    takes besides [c0], and the arguments. *)
Definition convert (fd c0 c1 c2 : Z) (ap : list uarg) : uprog unit * nat * nat :=
  let x := arg_reg ap in
  if c0 =? 100 (* d *) then (printint fd (i32 x) 10 true, 0%nat, 1%nat)
  else if (c0 =? 108) && (c1 =? 100) (* ld *) then (printint fd (i64 x) 10 true, 1%nat, 1%nat)
  else if (c0 =? 108) && (c1 =? 108) && (c2 =? 100) (* lld *) then (printint fd (i64 x) 10 true, 2%nat, 1%nat)
  else if c0 =? 117 (* u *) then (printint fd (u32 x) 10 false, 0%nat, 1%nat)
  else if (c0 =? 108) && (c1 =? 117) (* lu *) then (printint fd (i64 x) 10 false, 1%nat, 1%nat)
  else if (c0 =? 108) && (c1 =? 108) && (c2 =? 117) (* llu *) then (printint fd (i64 x) 10 false, 2%nat, 1%nat)
  else if c0 =? 120 (* x *) then (printint fd (u32 x) 16 false, 0%nat, 1%nat)
  else if (c0 =? 108) && (c1 =? 120) (* lx *) then (printint fd (i64 x) 16 false, 1%nat, 1%nat)
  else if (c0 =? 108) && (c1 =? 108) && (c2 =? 120) (* llx *) then (printint fd (i64 x) 16 false, 2%nat, 1%nat)
  else if c0 =? 112 (* p *) then (printptr fd (u64 x), 0%nat, 1%nat)
  else if c0 =? 99 (* c *) then (putc fd (u32 x), 0%nat, 1%nat)
  else if c0 =? 115 (* s *) then (ueach (default (bytes "(null)") (arg_chars ap)) (putc fd), 0%nat, 1%nat)
  else if c0 =? 37 then (putc fd 37, 0%nat, 0%nat)
  else (putc fd 37 ;; putc fd c0, 0%nat, 0%nat).

(** The for loop; [skip] bytes are skipped by i += 1 and i += 2. *)
Fixpoint vprintf_loop (fd : Z) (fmt : list Z) (ap : list uarg) (percent : bool) (skip : nat) : uprog unit :=
  match fmt with
  | [] => mret tt
  | c0 :: fmt' =>
      match skip with
      | S skip => vprintf_loop fd fmt' ap percent skip
      | O =>
          if percent then
            let c1 := nth 0 fmt' 0 in
            let c2 := if c1 =? 0 then 0 else nth 1 fmt' 0 in
            let '(p, n, a) := convert fd c0 c1 c2 ap in
            p ;; vprintf_loop fd fmt' (drop a ap) false n
          else if c0 =? 37 then vprintf_loop fd fmt' ap true 0
          else putc fd c0 ;; vprintf_loop fd fmt' ap false 0
      end
  end.

Definition vprintf (fd : Z) (fmt : list Z) (ap : list uarg) : uprog unit := vprintf_loop fd fmt ap false 0.
Definition fprintf (fd : Z) (fmt : list Z) (ap : list uarg) : uprog unit := vprintf fd fmt ap.
Definition printf (fmt : list Z) (ap : list uarg) : uprog unit := vprintf 1 fmt ap.

(** A format string that ends in a newline. *)
Definition line (s : string) : list Z := bytes s ++ [10].
