(* ===== verification/Uprogs.v ===== *)
(** * The small user programs

    cat, wc, echo, kill, ln, mkdir, rm, ls, getcnt, init and the programs that leave a
    process or a file behind.  [argv] is the list of the arguments, argv[0] included. *)

From Stdlib Require Import ZArith Lia.
From stdpp Require Import base numbers list strings.
From S2P Require Import Prelude Usys Ulib Uprintf.
Open Scope Z_scope.

Definition O_RDONLY : Z := 0.
Definition O_WRONLY : Z := 1.
Definition O_RDWR : Z := 2.
Definition O_CREATE : Z := 0x200.

(** for(i = 1; i < argc; i++) with a break: the body answers whether to go on. *)
Fixpoint args {A} (l : list A) (f : A -> uprog bool) : uprog unit :=
  match l with [] => mret tt | x :: l' => b ← f x; if (b : bool) then args l' f else mret tt end.

(** ** cat *)

Fixpoint cat (fuel : nat) (fd : Z) : uprog unit :=
  r ← sys (Sread fd 512);
  if 0 <? r.1 then
    w ← sys (Swrite 1 r.2);
    if negb (w =? r.1) then fprintf 2 (line "cat: write error") [] ;; exit 1
    else match fuel with O => Umore | S f => cat f fd end
  else if r.1 <? 0 then fprintf 2 (line "cat: read error") [] ;; exit 1
  else mret tt.

Definition cat_main (fuel : nat) (argv : list (list Z)) : uprog Z :=
  if Nat.leb (length argv) 1 then cat fuel 0 ;; exit 0
  else
    ueach (tl argv) (fun a =>
      fd ← sys (Sopen a O_RDONLY);
      if fd <? 0 then fprintf 2 (line "cat: cannot open %s") [UStr (Some a)] ;; exit 1
      else cat fuel fd ;; sys (Sclose fd) ;; mret tt) ;;
    exit 0.

(** ** wc *)

Record counts := mkcounts { wl : Z; ww : Z; wc_c : Z; inword : bool }.

(** The body of the inner loop. *)
Definition count (k : counts) (x : Z) : counts :=
  let c := i32 (k.(wc_c) + 1) in
  let l := if x =? 10 then i32 (k.(wl) + 1) else k.(wl) in
  if strchr [32; 13; 9; 10; 11] x then mkcounts l k.(ww) c false
  else if negb k.(inword) then mkcounts l (i32 (k.(ww) + 1)) c true
  else mkcounts l k.(ww) c true.

Fixpoint wc_loop (fuel : nat) (fd : Z) (k : counts) : uprog (Z * counts) :=
  r ← sys (Sread fd 512);
  if 0 <? r.1 then
    match fuel with O => Umore | S f => wc_loop f fd (fold_left count r.2 k) end
  else mret (r.1, k).

Definition wc (fuel : nat) (fd : Z) (name : list Z) : uprog unit :=
  r ← wc_loop fuel fd (mkcounts 0 0 0 false);
  if r.1 <? 0 then printf (line "wc: read error") [] ;; exit 1
  else printf (line "%d %d %d %s") [UInt r.2.(wl); UInt r.2.(ww); UInt r.2.(wc_c); UStr (Some name)].

Definition wc_main (fuel : nat) (argv : list (list Z)) : uprog Z :=
  if Nat.leb (length argv) 1 then wc fuel 0 [] ;; exit 0
  else
    ueach (tl argv) (fun a =>
      fd ← sys (Sopen a O_RDONLY);
      if fd <? 0 then printf (line "wc: cannot open %s") [UStr (Some a)] ;; exit 1
      else wc fuel fd a ;; sys (Sclose fd) ;; mret tt) ;;
    exit 0.

(** ** Programs on their arguments *)

Fixpoint echo_loop (l : list (list Z)) : uprog unit :=
  match l with
  | [] => mret tt
  | a :: l' =>
      sys (Swrite 1 a) ;;
      sys (Swrite 1 (match l' with [] => [10] | _ => [32] end)) ;;
      echo_loop l'
  end.
Definition echo_main (argv : list (list Z)) : uprog Z := echo_loop (tl argv) ;; exit 0.

Definition kill_main (argv : list (list Z)) : uprog Z :=
  (if Nat.ltb (length argv) 2 then fprintf 2 (line "usage: kill pid...") [] ;; exit 1 else mret tt) ;;
  ueach (tl argv) (fun a => sys (Skill (atoi a)) ;; mret tt) ;;
  exit 0.

Definition ln_main (argv : list (list Z)) : uprog Z :=
  match argv with
  | [_; old; new] =>
      r ← sys (Slink old new);
      (if r <? 0 then fprintf 2 (line "link %s %s: failed") [UStr (Some old); UStr (Some new)] else mret tt) ;;
      exit 0
  | _ => fprintf 2 (line "Usage: ln old new") [] ;; exit 1
  end.

Definition mkdir_main (argv : list (list Z)) : uprog Z :=
  (if Nat.ltb (length argv) 2 then fprintf 2 (line "Usage: mkdir files...") [] ;; exit 1 else mret tt) ;;
  args (tl argv) (fun a =>
    r ← sys (Smkdir a);
    if r <? 0 then fprintf 2 (line "mkdir: %s failed to create") [UStr (Some a)] ;; mret false else mret true) ;;
  exit 0.

Definition rm_main (argv : list (list Z)) : uprog Z :=
  (if Nat.ltb (length argv) 2 then fprintf 2 (line "Usage: rm files...") [] ;; exit 1 else mret tt) ;;
  args (tl argv) (fun a =>
    r ← sys (Sunlink a);
    if r <? 0 then fprintf 2 (line "rm: %s failed to delete") [UStr (Some a)] ;; mret false else mret true) ;;
  exit 0.

Definition getcnt_main (argv : list (list Z)) : uprog Z :=
  match argv with
  | _ :: a :: _ =>
      let syscall_num := atoi a in
      count ← sys (Sgetcnt syscall_num);
      printf (line "syscall %d has been called %d times") [UInt syscall_num; UInt count] ;;
      exit 0
  | _ => exit 1
  end.

Definition zombie_main : uprog Z :=
  pid ← sys Sfork;
  (if 0 <? pid then sys (Spause 5) ;; mret tt else mret tt) ;;
  exit 0.

(** ** init *)

(** The inner loop: wait until the shell has exited. *)
Fixpoint init_wait (fuel : nat) (pid : Z) : uprog unit :=
  wpid ← sys Swait;
  if wpid =? pid then mret tt
  else if wpid <? 0 then printf (line "init: wait returned an error") [] ;; exit 1
  else match fuel with O => Umore | S f => init_wait f pid end.

Fixpoint init_loop (fuel : nat) : uprog unit :=
  printf (line "init: starting sh") [] ;;
  pid ← sys Sfork;
  (if pid <? 0 then printf (line "init: fork failed") [] ;; exit 1 else mret tt) ;;
  (if pid =? 0 then
     sys (Sexec (bytes "sh") [bytes "sh"]) ;;
     printf (line "init: exec sh failed") [] ;;
     exit 1
   else mret tt) ;;
  match fuel with
  | O => Umore
  | S f => init_wait f pid ;; init_loop f
  end.

Definition CONSOLE : Z := 1.

Definition init_main (fuel : nat) : uprog unit :=
  fd ← sys (Sopen (bytes "console") O_RDWR);
  (if fd <? 0 then
     sys (Smknod (bytes "console") CONSOLE 0) ;;
     sys (Sopen (bytes "console") O_RDWR) ;;
     mret tt
   else mret tt) ;;
  sys (Sdup 0) ;;
  sys (Sdup 0) ;;
  init_loop fuel.

(** ** Orphans *)

(** for(;;) pause(1000); *)
Fixpoint pause_forever (fuel : nat) : uprog unit :=
  sys (Spause 1000) ;; match fuel with O => Umore | S f => pause_forever f end.

Definition forphan_main (fuel : nat) (argv : list (list Z)) : uprog unit :=
  let s := UStr (head argv) in
  let ff := bytes "file0" in
  fd ← sys (Sopen ff (Z.lor O_CREATE O_WRONLY));
  (if fd <? 0 then printf (line "%s: open failed") [s] ;; exit 1 else mret tt) ;;
  st ← sys (Sfstat fd);
  match st with
  | None => fprintf 2 (line "%s: cannot stat %s") [s; UStr (Some (bytes "ff"))] ;; exit 1
  | Some st =>
      r ← sys (Sunlink ff);
      (if r <? 0 then printf (line "%s: unlink failed") [s] ;; exit 1 else mret tt) ;;
      fd ← sys (Sopen ff O_RDONLY);
      (if negb (fd =? -1) then printf (line "%s: open successed") [s] ;; exit 1 else mret tt) ;;
      printf (line "wait for kill and reclaim %d") [UInt st.(us_ino)] ;;
      pause_forever fuel
  end.

Definition dorphan_main (fuel : nat) (argv : list (list Z)) : uprog unit :=
  let s := UStr (head argv) in
  r ← sys (Smkdir (bytes "dd"));
  (if negb (r =? 0) then printf (line "%s: mkdir dd failed") [s] ;; exit 1 else mret tt) ;;
  r ← sys (Schdir (bytes "dd"));
  (if negb (r =? 0) then printf (line "%s: chdir dd failed") [s] ;; exit 1 else mret tt) ;;
  r ← sys (Sunlink (bytes "../dd"));
  (if r <? 0 then printf (line "%s: unlink failed") [s] ;; exit 1 else mret tt) ;;
  printf (line "wait for kill and reclaim") [] ;;
  pause_forever fuel.

(** ** ls *)

Definition DIRSIZ : nat := 14.
Definition T_DIR : Z := 1.
Definition T_FILE : Z := 2.
Definition T_DEVICE : Z := 3.

(** The bytes after the last slash, and the name padded with blanks. *)
Fixpoint after_slash (path acc : list Z) : list Z :=
  match path with [] => acc | c :: p => after_slash p (if c =? 47 then p else acc) end.
Definition fmtname (path : list Z) : list Z :=
  let p := after_slash path path in
  if Nat.leb DIRSIZ (length p) then p else p ++ replicate (DIRSIZ - length p) 32.

Definition ls_line (path : list Z) (st : ustat) : uprog unit :=
  printf (line "%s %d %d %d") [UStr (Some (fmtname path)); UInt st.(us_type); UInt st.(us_ino); UInt (i32 st.(us_size))].

(** The bytes of a C string in a buffer: up to the first NUL. *)
Fixpoint cstr (l : list Z) : list Z := match l with [] => [] | c :: l' => if c =? 0 then [] else c :: cstr l' end.

(** while(read(fd, &de, sizeof(de)) == sizeof(de)): a struct dirent is the 2 bytes of
    its inum and the DIRSIZ bytes of its name. *)
Fixpoint ls_dir (fuel : nat) (fd : Z) (path : list Z) : uprog unit :=
  r ← sys (Sread fd 16);
  if negb (r.1 =? 16) then mret tt
  else
    let inum := nth 0 r.2 0 + 256 * nth 1 r.2 0 in
    let next := match fuel with O => Umore | S f => ls_dir f fd path end in
    if inum =? 0 then next
    else
      let buf := path ++ [47] ++ cstr (take DIRSIZ (drop 2 r.2)) in
      st ← stat buf;
      match st with
      | None => printf (line "ls: cannot stat %s") [UStr (Some buf)] ;; next
      | Some st => ls_line buf st ;; next
      end.

Definition ls (fuel : nat) (path : list Z) : uprog unit :=
  fd ← sys (Sopen path O_RDONLY);
  if fd <? 0 then fprintf 2 (line "ls: cannot open %s") [UStr (Some path)]
  else
    r ← sys (Sfstat fd);
    match r with
    | None => fprintf 2 (line "ls: cannot stat %s") [UStr (Some path)] ;; sys (Sclose fd) ;; mret tt
    | Some st =>
        (if (st.(us_type) =? T_DEVICE) || (st.(us_type) =? T_FILE) then ls_line path st
         else if st.(us_type) =? T_DIR then
           if 512 <? Z.of_nat (length path) + 1 + 14 + 1 then printf (line "ls: path too long") []
           else ls_dir fuel fd path
         else mret tt) ;;
        sys (Sclose fd) ;;
        mret tt
    end.

Definition ls_main (fuel : nat) (argv : list (list Z)) : uprog Z :=
  if Nat.ltb (length argv) 2 then ls fuel (bytes ".") ;; exit 0
  else ueach (tl argv) (ls fuel) ;; exit 0.
