(* ===== verification/UprogsSpec.v ===== *)
(** * What cat and wc compute

    Both read their input in whatever pieces the kernel hands out.  [stream] is a
    standard input with the sizes of the pieces, and the standard output. *)

From Stdlib Require Import ZArith Lia.
From stdpp Require Import base numbers list strings.
From S2P Require Import Prelude Usys Ulib Uprintf Uprogs.
Open Scope Z_scope.

Record stream := mkstream { st_in : list Z; st_cuts : list nat; st_out : list Z }.

(** read(): as many bytes as fit, or fewer, but none only at the end. *)
Definition stream_read (n : Z) (s : stream) : (Z * list Z) * stream :=
  let k := match s.(st_cuts) with [] => Z.to_nat n | c :: _ => Nat.min (S c) (Z.to_nat n) end in
  let bs := take k s.(st_in) in
  ((Z.of_nat (length bs), bs), mkstream (drop k s.(st_in)) (tl s.(st_cuts)) s.(st_out)).

Definition stream_handle (fd : Z) (X : Type) (c : sysc X) (s : stream) : option (X * stream) :=
  match c in sysc X return option (X * stream) with
  | Sread f n => if f =? fd then Some (stream_read n s) else None
  | Swrite f bs => if f =? 1 then Some (Z.of_nat (length bs), mkstream s.(st_in) s.(st_cuts) (s.(st_out) ++ bs)) else None
  | _ => None
  end.

Definition emit (bs : list Z) (s : stream) : stream := mkstream s.(st_in) s.(st_cuts) (s.(st_out) ++ bs).

Lemma stream_read_spec n s : 0 < n -> exists bs rest cuts,
  stream_read n s = ((Z.of_nat (length bs), bs), mkstream rest cuts s.(st_out)) /\ s.(st_in) = bs ++ rest /\
  (bs = [] -> s.(st_in) = []) /\ (length bs <= Z.to_nat n)%nat.
Proof.
  intros Hn. unfold stream_read. eexists _, _, _. split; [reflexivity|]. split; [by rewrite take_drop|].
  set (k := match st_cuts s with [] => _ | _ => _ end).
  assert (Hk : (1 <= k <= Z.to_nat n)%nat) by (unfold k; destruct (st_cuts s); lia).
  rewrite length_take. split; [|lia]. destruct k; [lia|]. by destruct (st_in s).
Qed.

(** A read and a write, and what the program does next. *)
Lemma run_read {A} fd n (k : Z * list Z -> uprog A) s :
  urun (stream_handle fd) (r ← sys (Sread fd n); k r) s = urun (stream_handle fd) (k (stream_read n s).1) (stream_read n s).2.
Proof. rewrite urun_bind. unfold sys. cbn [urun stream_handle]. rewrite Z.eqb_refl. by destruct (stream_read n s). Qed.
Lemma run_write {A} fd bs (k : Z -> uprog A) s :
  urun (stream_handle fd) (r ← sys (Swrite 1 bs); k r) s = urun (stream_handle fd) (k (Z.of_nat (length bs))) (emit bs s).
Proof. rewrite urun_bind. done. Qed.

(** ** cat *)

Lemma cat_run fuel fd s :
  (length s.(st_in) <= fuel)%nat ->
  exists cuts, urun (stream_handle fd) (cat fuel fd) s = Returned tt (mkstream [] cuts (s.(st_out) ++ s.(st_in))).
Proof.
  revert s. induction fuel as [|fuel IH]; intros s Hf; cbn [cat]; rewrite run_read;
    (destruct (stream_read_spec 512 s) as (bs & rest & cuts & -> & E & Hnil & _); [lia|]); cbn [fst snd]; (destruct bs as [|b bs];
      [rewrite (Hnil eq_refl) in *; destruct rest; [|done]; exists cuts; change (Z.of_nat (length (@nil Z))) with 0; cbn [Z.ltb Z.compare];
       by rewrite app_nil_r|]).
  - rewrite E in Hf. cbn in Hf. lia.
  - destruct (Z.ltb_spec 0 (Z.of_nat (length (b :: bs)))) as [_|Hx]; [|cbn [length] in Hx; lia].
    rewrite run_write, Z.eqb_refl. cbn [negb].
    destruct (IH (emit (b :: bs) (mkstream rest cuts s.(st_out)))) as (cuts' & ->).
    { apply (f_equal length) in E. rewrite length_app in E. cbn [length st_in emit] in *. lia. }
    exists cuts'. cbn [st_in st_out emit]. by rewrite <- app_assoc, <- E.
Qed.

(** ** wc *)

Definition white (x : Z) : bool := strchr [32; 13; 9; 10; 11] x.

Definition starts (l : list Z) : bool := match l with x :: _ => negb (white x) | [] => false end.

(** The words of a text: the maximal runs of bytes that are not white. *)
Fixpoint words (l : list Z) : list (list Z) :=
  match l with
  | [] => []
  | x :: l' =>
      let ws := words l' in
      if white x then ws
      else match ws with
           | w :: ws' => if starts l' then (x :: w) :: ws' else [x] :: ws
           | [] => [[x]]
           end
  end.

Definition newlines (l : list Z) : list Z := filter (fun x => x = 10) l.

(** A text that does not start with a blank has a first word. *)
Lemma words_first l : starts l = true -> exists w ws, words l = w :: ws.
Proof.
  destruct l as [|x l]; [done|]. cbn [starts words]. intros H%negb_true_iff. rewrite H. destruct (words l) as [|w ws]; [by eexists _, _|].
  destruct (starts l); by eexists _, _.
Qed.

Lemma words_cons x l : length (words (x :: l)) = (length (words l) + (if white x || starts l then 0 else 1))%nat.
Proof.
  cbn [words]. destruct (white x); [cbn; lia|]. cbn [orb]. destruct (starts l) eqn:E.
  - destruct (words_first l E) as (w & ws & ->). cbn [length]. lia.
  - destruct (words l); cbn [length]; lia.
Qed.

Lemma count_fold l k :
  0 <= k.(wl) -> 0 <= k.(ww) -> 0 <= k.(wc_c) -> k.(wl) + Z.of_nat (length l) < 2 ^ 31 -> k.(ww) + Z.of_nat (length l) < 2 ^ 31 ->
  k.(wc_c) + Z.of_nat (length l) < 2 ^ 31 ->
  let r := fold_left count l k in
  r.(wl) = k.(wl) + Z.of_nat (length (newlines l)) /\ r.(wc_c) = k.(wc_c) + Z.of_nat (length l) /\
  r.(ww) = k.(ww) + Z.of_nat (length (words l)) - (if k.(inword) && starts l then 1 else 0).
Proof.
  revert k. induction l as [|x l IH]; intros k H1 H2 H3 H4 H5 H6; [cbn; rewrite andb_false_r; lia|].
  cbn [fold_left]. rewrite words_cons. cbn [starts].
  assert (Hk : (count k x).(wl) = k.(wl) + (if x =? 10 then 1 else 0) /\ (count k x).(wc_c) = k.(wc_c) + 1 /\
    (count k x).(ww) = k.(ww) + (if white x || k.(inword) then 0 else 1) /\ (count k x).(inword) = negb (white x)).
  { unfold count. fold (white x). cbn [length] in *.
    rewrite (i32_small (k.(wc_c) + 1)), (i32_small (k.(wl) + 1)), (i32_small (k.(ww) + 1)) by lia.
    destruct (white x), (inword k), (Z.eqb_spec x 10); cbn; repeat split; lia. }
  destruct Hk as (K1 & K2 & K3 & K4). cbn [length] in *.
  destruct (IH (count k x)) as (I1 & I2 & I3).
  1-6: rewrite ?K1, ?K2, ?K3; destruct (x =? 10), (white x || inword k); lia.
  rewrite I1, I2, I3, K1, K2, K3, K4. unfold newlines. rewrite filter_cons.
  destruct (Z.eqb_spec x 10); [rewrite decide_True by done|rewrite decide_False by done]; cbn [length];
    (split; [lia|]; split; [lia|]); destruct (white x), (starts l), (inword k); cbn; lia.
Qed.

Lemma wc_loop_run fuel fd k s :
  (length s.(st_in) <= fuel)%nat ->
  exists cuts, urun (stream_handle fd) (wc_loop fuel fd k) s = Returned (0, fold_left count s.(st_in) k) (mkstream [] cuts s.(st_out)).
Proof.
  revert k s. induction fuel as [|fuel IH]; intros k s Hf; cbn [wc_loop]; rewrite run_read;
    (destruct (stream_read_spec 512 s) as (bs & rest & cuts & -> & E & Hnil & _); [lia|]); cbn [fst snd]; (destruct bs as [|b bs];
      [rewrite (Hnil eq_refl) in *; destruct rest; [|done]; by exists cuts|]).
  - rewrite E in Hf. cbn in Hf. lia.
  - destruct (Z.ltb_spec 0 (Z.of_nat (length (b :: bs)))) as [_|Hx]; [|cbn [length] in Hx; lia].
    destruct (IH (fold_left count (b :: bs) k) (mkstream rest cuts s.(st_out))) as (cuts' & IH').
    { apply (f_equal length) in E. rewrite length_app in E. cbn [length st_in] in *. lia. }
    exists cuts'. rewrite IH'. cbn [st_in st_out]. by rewrite E, fold_left_app.
Qed.

(** ** Printing *)

Section prints.
Context (fd : Z).

(** The program prints [bs] on the standard output, and returns. *)
Definition prints (p : uprog unit) (bs : list Z) : Prop := forall s, urun (stream_handle fd) p s = Returned tt (emit bs s).

Lemma emit_emit a b s : emit b (emit a s) = emit (a ++ b) s.
Proof. unfold emit. cbn. by rewrite app_assoc. Qed.

Lemma uprints_ret : prints (mret tt) [].
Proof. intros [i c o]. cbn. unfold emit. cbn. by rewrite app_nil_r. Qed.
Lemma uprints_bind p q a b : prints p a -> prints q b -> prints (p ;; q) (a ++ b).
Proof. intros Hp Hq s. rewrite urun_bind, Hp, Hq, emit_emit. done. Qed.
Lemma prints_putc c : 0 <= c < 256 -> prints (putc 1 c) [c].
Proof. intros H s. unfold putc. rewrite run_write, u8_small by done. done. Qed.
Lemma prints_each l : Forall (fun c => 0 <= c < 256) l -> prints (ueach l (putc 1)) l.
Proof.
  induction 1 as [|c l Hc _ IH]; [apply uprints_ret|]. cbn [ueach]. apply (uprints_bind _ _ [c]); [by apply prints_putc|done].
Qed.
End prints.

(** The decimal text of a number. *)
Definition dec (n : Z) : list Z := rev (int_buf n 10 true).

Lemma digit_10 x : nth (Z.to_nat (x mod 10)) udigits 0 = 48 + x mod 10.
Proof.
  pose proof (Z.mod_pos_bound x 10 ltac:(lia)) as H. generalize (x mod 10) H. clear. intros d H.
  assert (d = 0 \/ d = 1 \/ d = 2 \/ d = 3 \/ d = 4 \/ d = 5 \/ d = 6 \/ d = 7 \/ d = 8 \/ d = 9) as Hd by lia.
  by repeat (destruct Hd as [->|Hd]; [done|]); subst.
Qed.

Definition is_digit (c : Z) : Prop := 48 <= c <= 57.

Lemma digit_loop_digits fuel x : Forall is_digit (digit_loop fuel x 10).
Proof.
  revert x. induction fuel as [|f IH]; intros x; cbn [digit_loop]; [constructor|]. constructor.
  - rewrite digit_10. pose proof (Z.mod_pos_bound x 10). unfold is_digit. lia.
  - destruct (x / 10 =? 0); [constructor|apply IH].
Qed.

Lemma atoi_app l l' n : Forall is_digit l -> atoi_loop (l ++ l') n = atoi_loop l' (atoi_loop l n).
Proof.
  intros H. revert n. induction H as [|c l Hc _ IH]; intros n; [done|]. cbn [app atoi_loop]. unfold is_digit in Hc.
  destruct (Z.leb_spec 48 c), (Z.leb_spec c 57); try lia. apply IH.
Qed.

Lemma atoi_digits fuel x :
  0 <= x < 2 ^ 31 -> x < 10 ^ Z.of_nat fuel -> (0 < fuel)%nat -> atoi (rev (digit_loop fuel x 10)) = x.
Proof.
  revert x. induction fuel as [|f IH]; intros x Hx Hf Hp; [lia|]. cbn [digit_loop].
  pose proof (Z.mod_pos_bound x 10 ltac:(lia)) as Hm. pose proof (Z.div_mod x 10 ltac:(lia)) as Hd. rewrite digit_10.
  destruct (Z.eqb_spec (x / 10) 0) as [E|E].
  - cbn [rev app]. unfold atoi. cbn [atoi_loop]. destruct (Z.leb_spec 48 (48 + x mod 10)), (Z.leb_spec (48 + x mod 10) 57); try lia.
    cbn [andb]. rewrite i32_small by lia. lia.
  - rewrite Nat2Z.inj_succ, Z.pow_succ_r in Hf by lia.
    assert (Hq : 0 <= x / 10 < 2 ^ 31 /\ x / 10 < 10 ^ Z.of_nat f) by (split; [lia|apply Z.div_lt_upper_bound; lia]).
    destruct f as [|f]; [cbn in Hq; lia|]. specialize (IH (x / 10) (proj1 Hq) (proj2 Hq) ltac:(lia)).
    cbn [rev]. unfold atoi in *. rewrite atoi_app by (apply Forall_rev, digit_loop_digits). rewrite IH. cbn [atoi_loop].
    destruct (Z.leb_spec 48 (48 + x mod 10)), (Z.leb_spec (48 + x mod 10) 57); try lia. cbn [andb]. rewrite i32_small by lia. lia.
Qed.

Lemma dec_atoi n : 0 <= n < 2 ^ 31 -> atoi (dec n) = n /\ Forall is_digit (dec n).
Proof.
  intros H. unfold dec, int_buf. destruct (Z.ltb_spec n 0); [lia|]. cbn [andb]. rewrite app_nil_r, u64_small by lia. split.
  - apply atoi_digits; [done| |lia]. change (Z.of_nat 20) with 20. lia.
  - apply Forall_rev, digit_loop_digits.
Qed.

Lemma prints_dec fd n : 0 <= n < 2 ^ 31 -> prints fd (printint 1 (i32 n) 10 true) (dec n).
Proof.
  intros H. rewrite i32_small by lia. apply prints_each. eapply Forall_impl; [apply dec_atoi; lia|]. unfold is_digit. intros; lia.
Qed.

Lemma words_le l : (length (words l) <= length l)%nat.
Proof. induction l as [|x l IH]; [done|]. rewrite words_cons. cbn [length]. destruct (white x || starts l); lia. Qed.
Lemma newlines_le l : (length (newlines l) <= length l)%nat.
Proof. apply length_filter. Qed.

Lemma prints_counts fd l w c name :
  0 <= l < 2 ^ 31 -> 0 <= w < 2 ^ 31 -> 0 <= c < 2 ^ 31 -> Forall (fun c => 0 <= c < 256) name ->
  prints fd (printf (line "%d %d %d %s") [UInt l; UInt w; UInt c; UStr (Some name)])
    (dec l ++ [32] ++ dec w ++ [32] ++ dec c ++ [32] ++ name ++ [10]).
Proof.
  intros Hl Hw Hc Hn. unfold printf, vprintf.
  change (line "%d %d %d %s") with [37; 100; 32; 37; 100; 32; 37; 100; 32; 37; 115; 10].
  cbn [vprintf_loop convert Z.eqb Pos.eqb andb nth arg_reg arg_chars drop default].
  repeat (apply uprints_bind; [by apply prints_dec|]; apply (uprints_bind _ _ _ [32]); [by apply prints_putc|]).
  apply uprints_bind; [by apply prints_each|]. apply (uprints_bind _ _ _ [10] []); [by apply prints_putc|apply uprints_ret].
Qed.

(** C38. Whatever pieces the kernel delivers the input in, wc prints the number of
    newlines, of words and of bytes in decimal, and then the name: reading the three
    numbers back with atoi gives the counts of the whole input.  The input is less than
    2 GiB, so that the int counters do not overflow. *)
Theorem wc_counts fuel fd name s :
  Z.of_nat (length s.(st_in)) < 2 ^ 31 -> (length s.(st_in) <= fuel)%nat -> Forall (fun c => 0 <= c < 256) name ->
  exists cuts l w c, urun (stream_handle fd) (wc fuel fd name) s =
      Returned tt (mkstream [] cuts (s.(st_out) ++ l ++ [32] ++ w ++ [32] ++ c ++ [32] ++ name ++ [10])) /\
    atoi l = Z.of_nat (length (newlines s.(st_in))) /\ atoi w = Z.of_nat (length (words s.(st_in))) /\
    atoi c = Z.of_nat (length s.(st_in)).
Proof.
  intros Hlen Hf Hname. destruct (wc_loop_run fuel fd (mkcounts 0 0 0 false) s Hf) as (cuts & E).
  destruct (count_fold s.(st_in) (mkcounts 0 0 0 false)) as (C1 & C2 & C3); cbn [wl ww wc_c inword] in *; try lia.
  set (k := fold_left count s.(st_in) (mkcounts 0 0 0 false)) in *. clearbody k. cbn [andb] in C3.
  rewrite Z.add_0_l in C1, C2. rewrite Z.add_0_l, Z.sub_0_r in C3.
  pose proof (newlines_le s.(st_in)). pose proof (words_le s.(st_in)).
  exists cuts, (dec k.(wl)), (dec k.(ww)), (dec k.(wc_c)). split.
  - unfold wc. rewrite urun_bind, E. cbn [fst snd Z.ltb Z.compare]. rewrite prints_counts by (done || lia). done.
  - rewrite <- C1, <- C2, <- C3. repeat split; apply dec_atoi; lia.
Qed.

Lemma wc_counts_witness : exists cuts l w c,
  urun (stream_handle 0) (wc 20 0 (bytes "f")) (mkstream (line "to be  or" ++ line "not") [3%nat; 0%nat; 7%nat] []) =
    Returned tt (mkstream [] cuts (l ++ [32] ++ w ++ [32] ++ c ++ [32] ++ bytes "f" ++ [10])) /\
  atoi l = 2 /\ atoi w = 4 /\ atoi c = 14.
Proof.
  apply (wc_counts 20 0 (bytes "f") (mkstream (line "to be  or" ++ line "not") [3%nat; 0%nat; 7%nat] [])); cbn.
  - lia.
  - lia.
  - repeat constructor; lia.
Defined.
