(* ===== verification/Sh.v ===== *)
(** * The shell (user/sh.c)

    The parser works on the line in memory and builds commands in a heap of nodes that
    it shares and updates in place: a redirection points to the execcmd whose argv is
    still being filled.  Pointers to the line are addresses, pointers to commands are
    numbers, 0 for a null pointer.  [can_alloc n] says whether the n-th malloc gives
    memory; the constructors do not check, and memset of a null pointer faults. *)

From Stdlib Require Import ZArith Lia.
From stdpp Require Import base numbers list strings.
From S2P Require Import Types Mem Str Usys Ulib Uprintf Prelude.
Open Scope Z_scope.

Definition MAXARGS : nat := 10.

Inductive cmd :=
  | EXEC (argv eargv : list Z)
  | REDIR (cmd : nat) (file efile mode fd : Z)
  | PIPE (left right : nat)
  | LIST (left right : nat)
  | BACK (cmd : nat).

Record shell := mkshell {
  s_mem : mem;
  s_ps : Z;             (* the char *s that ps points to *)
  s_cmds : list cmd     (* the command with number n+1 is s_cmds[n] *)
}.
Definition set_smem x s := mkshell x s.(s_ps) s.(s_cmds).
Definition set_ps x s := mkshell s.(s_mem) x s.(s_cmds).
Definition set_cmds x s := mkshell s.(s_mem) s.(s_ps) x.

Definition cmd_at (s : shell) (p : nat) : option cmd := match p with O => None | S n => s.(s_cmds) !! n end.

(** ** Constructors *)

Section sh.
Context (can_alloc : nat -> bool).

Definition new_cmd (c : cmd) : M shell nat :=
  n ← gets (fun s => length s.(s_cmds));
  if can_alloc n then modify (fun s => set_cmds (s.(s_cmds) ++ [c]) s) ;; mret (S n)
  else panic "undefined".

Definition execcmd : M shell nat := new_cmd (EXEC (replicate MAXARGS 0) (replicate MAXARGS 0)).
Definition redircmd (subcmd : nat) (file efile mode fd : Z) : M shell nat := new_cmd (REDIR subcmd file efile mode fd).
Definition pipecmd (left right : nat) : M shell nat := new_cmd (PIPE left right).
Definition listcmd (left right : nat) : M shell nat := new_cmd (LIST left right).
Definition backcmd (subcmd : nat) : M shell nat := new_cmd (BACK subcmd).

(** ** Tokens *)

Definition whitespace : list Z := [32; 9; 13; 10; 11].
Definition symbols : list Z := bytes "<|>&;()".

(** while(s < es && f( *s)) s++; with [n] bytes before es *)
Fixpoint skip_while (f : Z -> bool) (n : nat) (m : mem) (s : Z) : Z :=
  match n with O => s | S n => if f (m s) then skip_while f n m (s + 1) else s end.
Definition skip_white (m : mem) (s es : Z) : Z := skip_while (strchr whitespace) (Z.to_nat (es - s)) m s.
Definition word_char (c : Z) : bool := negb (strchr whitespace c) && negb (strchr symbols c).

(** The switch: the token at [s] and where it ends. *)
Definition token (m : mem) (s es : Z) : Z * Z :=
  let c := m s in
  if c =? 0 then (0, s)
  else if strchr (bytes "|();&<") c then (c, s + 1)
  else if c =? 62 then if m (s + 1) =? 62 then (43, s + 2) else (62, s + 1)
  else (97, skip_while word_char (Z.to_nat (es - s)) m s).

(** The token, and the q and eq it has. *)
Definition gettoken (es : Z) : M shell (Z * Z * Z) :=
  m ← gets s_mem;
  s ← gets s_ps;
  let q := skip_white m s es in
  let '(ret, eq) := token m q es in
  modify (set_ps (skip_white m eq es)) ;;
  mret (ret, q, eq).

Definition peek (es : Z) (toks : string) : M shell bool :=
  m ← gets s_mem;
  s ← gets s_ps;
  let s := skip_white m s es in
  modify (set_ps s) ;;
  mret (negb (m s =? 0) && strchr (bytes toks) (m s)).

(** ** The parser *)

Definition left_bytes (es : Z) : M shell nat := gets (fun s => S (Z.to_nat (es - s.(s_ps)))).

Definition O_RDONLY : Z := 0.
Definition O_TO : Z := Z.lor 1 (Z.lor 0x200 0x400).   (* O_WRONLY|O_CREATE|O_TRUNC *)
Definition O_APPEND : Z := Z.lor 1 0x200.             (* O_WRONLY|O_CREATE *)

Fixpoint redir_loop (fuel : nat) (cmd : nat) (es : Z) : M shell nat :=
  b ← peek es "<>";
  if (b : bool) then
    t ← gettoken es;
    a ← gettoken es;
    let '(tok, q, eq) := a in
    if negb (tok =? 97) then panic "missing file for redirection"
    else
      c ← (if t.1.1 =? 60 then redircmd cmd q eq O_RDONLY 0
           else if t.1.1 =? 62 then redircmd cmd q eq O_TO 1
           else if t.1.1 =? 43 then redircmd cmd q eq O_APPEND 1
           else mret cmd);
      match fuel with O => nofuel | S f => redir_loop f c es end
  else mret cmd.
Definition parseredirs (cmd : nat) (es : Z) : M shell nat := n ← left_bytes es; redir_loop n cmd es.

(** cmd->argv[argc] = q; cmd->eargv[argc] = eq; *)
Definition set_arg (c argc : nat) (q eq : Z) : M shell unit :=
  s ← get;
  match cmd_at s c with
  | Some (EXEC argv eargv) =>
      if decide (argc < length argv)%nat then
        modify (set_cmds (<[pred c := EXEC (<[argc := q]> argv) (<[argc := eq]> eargv)]> s.(s_cmds)))
      else panic "undefined"
  | _ => panic "undefined"
  end.

(** The while loop of [parseexec]. *)
Fixpoint exec_loop (fuel : nat) (cmd ret argc : nat) (es : Z) : M shell (nat * nat) :=
  b ← peek es "|)&;";
  if (b : bool) then mret (ret, argc)
  else
    t ← gettoken es;
    let '(tok, q, eq) := t in
    if tok =? 0 then mret (ret, argc)
    else if negb (tok =? 97) then panic "syntax"
    else
      set_arg cmd argc q eq ;;
      if Nat.leb MAXARGS (S argc) then panic "too many args"
      else
        ret ← parseredirs ret es;
        match fuel with O => nofuel | S f => exec_loop f cmd ret (S argc) es end.

(** while(peek(ps, es, "&")) of [parseline] *)
Fixpoint back_loop (fuel : nat) (cmd : nat) (es : Z) : M shell nat :=
  b ← peek es "&";
  if (b : bool) then
    gettoken es ;;
    c ← backcmd cmd;
    match fuel with O => nofuel | S f => back_loop f c es end
  else mret cmd.

Fixpoint parseline (fuel : nat) (es : Z) : M shell nat :=
  match fuel with
  | O => nofuel
  | S f =>
      cmd ← parsepipe f es;
      n ← left_bytes es;
      cmd ← back_loop n cmd es;
      b ← peek es ";";
      if (b : bool) then
        gettoken es ;;
        r ← parseline f es;
        listcmd cmd r
      else mret cmd
  end
with parsepipe (fuel : nat) (es : Z) : M shell nat :=
  match fuel with
  | O => nofuel
  | S f =>
      cmd ← parseexec f es;
      b ← peek es "|";
      if (b : bool) then
        gettoken es ;;
        r ← parsepipe f es;
        pipecmd cmd r
      else mret cmd
  end
with parseexec (fuel : nat) (es : Z) : M shell nat :=
  match fuel with
  | O => nofuel
  | S f =>
      b ← peek es "(";
      if (b : bool) then parseblock f es
      else
        cmd ← execcmd;
        ret ← parseredirs cmd es;
        n ← left_bytes es;
        r ← exec_loop n cmd ret 0 es;
        set_arg cmd r.2 0 0 ;;
        mret r.1
  end
with parseblock (fuel : nat) (es : Z) : M shell nat :=
  match fuel with
  | O => nofuel
  | S f =>
      b ← peek es "(";
      if negb b then panic "parseblock"
      else
        gettoken es ;;
        cmd ← parseline f es;
        b ← peek es ")";
        if negb b then panic "syntax - missing )"
        else
          gettoken es ;;
          parseredirs cmd es
  end.

(** for(i=0; ecmd->argv[i]; i++) *ecmd->eargv[i] = 0; *)
Fixpoint nul_args (argv eargv : list Z) : M shell unit :=
  match argv, eargv with
  | a :: argv, e :: eargv => if a =? 0 then mret tt else modify (fun s => set_smem (upd s.(s_mem) e 0) s) ;; nul_args argv eargv
  | _, _ => panic "undefined"
  end.

Fixpoint nulterminate (fuel : nat) (c : nat) : M shell unit :=
  match fuel with
  | O => nofuel
  | S f =>
      s ← get;
      match cmd_at s c with
      | None => mret tt
      | Some (EXEC argv eargv) => nul_args argv eargv
      | Some (REDIR c' _ efile _ _) => nulterminate f c' ;; modify (fun s => set_smem (upd s.(s_mem) efile 0) s)
      | Some (PIPE l r) => nulterminate f l ;; nulterminate f r
      | Some (LIST l r) => nulterminate f l ;; nulterminate f r
      | Some (BACK c') => nulterminate f c'
      end
  end.

(** Four calls for a byte of the line: line, pipe, exec, block.  A command points to
    commands made before it.  [parse_all] is [parsecmd] up to its test: the command,
    s and es. *)
Definition parse_all (s : Z) (len : nat) : M shell (nat * Z * Z) :=
  sh ← get;
  match strlen len sh.(s_mem) s with
  | None => nofuel
  | Some n =>
      let es := s + n in
      modify (set_ps s) ;;
      cmd ← parseline (4 * Z.to_nat n + 4) es;
      peek es EmptyString ;;
      s ← gets s_ps;
      mret (cmd, s, es)
  end.

Definition parsecmd (s : Z) (len : nat) : M shell nat :=
  r ← parse_all s len;
  let '(cmd, s, es) := r in
  (if negb (s =? es) then panic "syntax" else mret tt) ;;
  k ← gets (fun sh => S (length sh.(s_cmds)));
  nulterminate k cmd ;;
  mret cmd.
End sh.

(** ** Running commands *)

(** The C string at [q], at most [n] bytes of it. *)
Fixpoint read_str (n : nat) (m : mem) (q : Z) : list Z :=
  match n with O => [] | S n => if m q =? 0 then [] else m q :: read_str n m (q + 1) end.

Fixpoint args_of (n : nat) (m : mem) (argv : list Z) : list (list Z) :=
  match argv with [] => [] | a :: argv => if a =? 0 then [] else read_str n m a :: args_of n m argv end.

(** panic(s) and fork1() of the shell *)
Definition sh_panic {A} (msg : string) : uprog A := fprintf 2 (line "%s") [UStr (Some (bytes msg))] ;; exit 1.
Definition fork1 : uprog Z := pid ← sys Sfork; if pid =? -1 then sh_panic "fork" else mret pid.

(** [n] bounds the length of the strings of the command.  A call of runcmd does not
    return. *)
Fixpoint runcmd (fuel n : nat) (sh : shell) (p : nat) : uprog unit :=
  match fuel with
  | O => Umore
  | S f =>
      match cmd_at sh p with
      | None => exit 1
      | Some (EXEC argv _) =>
          (if nth 0 argv 0 =? 0 then exit 1 else mret tt) ;;
          let a0 := read_str n sh.(s_mem) (nth 0 argv 0) in
          sys (Sexec a0 (args_of n sh.(s_mem) argv)) ;;
          fprintf 2 (line "exec %s failed") [UStr (Some a0)] ;;
          exit 0
      | Some (REDIR c file _ mode fd) =>
          sys (Sclose fd) ;;
          let name := read_str n sh.(s_mem) file in
          r ← sys (Sopen name mode);
          (if r <? 0 then fprintf 2 (line "open %s failed") [UStr (Some name)] ;; exit 1 else mret tt) ;;
          runcmd f n sh c ;;
          exit 0
      | Some (LIST l r) =>
          pid ← fork1;
          (if pid =? 0 then runcmd f n sh l else mret tt) ;;
          sys Swait ;;
          runcmd f n sh r ;;
          exit 0
      | Some (PIPE l r) =>
          fds ← sys Spipe;
          match fds with
          | None => sh_panic "pipe"
          | Some (p0, p1) =>
              pid ← fork1;
              (if pid =? 0 then
                 sys (Sclose 1) ;; sys (Sdup p1) ;; sys (Sclose p0) ;; sys (Sclose p1) ;; runcmd f n sh l
               else mret tt) ;;
              pid ← fork1;
              (if pid =? 0 then
                 sys (Sclose 0) ;; sys (Sdup p0) ;; sys (Sclose p0) ;; sys (Sclose p1) ;; runcmd f n sh r
               else mret tt) ;;
              sys (Sclose p0) ;;
              sys (Sclose p1) ;;
              sys Swait ;;
              sys Swait ;;
              exit 0
          end
      | Some (BACK c) =>
          pid ← fork1;
          (if pid =? 0 then runcmd f n sh c else mret tt) ;;
          exit 0
      end
  end.

(** getcmd(): -1 at the end of the input *)
Definition getcmd (m : mem) (buf nbuf : Z) : uprog (mem * Z) :=
  sys (Swrite 2 (bytes "$ ")) ;;
  let m := memset m buf 0 nbuf in
  m ← Ulib.gets m buf nbuf;
  mret (m, if m buf =? 0 then -1 else 0).

(** fprintf(2, "leftovers: %s\n", s), where [parsecmd] has not come to the end. *)
Definition leftovers (s : Z) (m : mem) : uprog unit :=
  match parse_all (fun _ => true) s 100 (mkshell m s []) with
  | Ok (_, s, es) sh =>
      if negb (s =? es) then fprintf 2 (line "leftovers: %s") [UStr (Some (read_str 100 sh.(s_mem) s))] else mret tt
  | _ => mret tt
  end.

(** parsecmd() in a process: its panic prints the message and exits. *)
Definition parse_line (s : Z) (m : mem) : uprog (nat * shell) :=
  match parsecmd (fun _ => true) s 100 (mkshell m s []) with
  | Ok p sh => mret (p, sh)
  | Panic msg => leftovers s m ;; sh_panic msg
  | _ => Umore
  end.

(** The body of the loop of main(): one line in buf. *)
Definition run_line (m : mem) (buf : Z) : uprog unit :=
  let cmd := skip_while (fun c => (c =? 32) || (c =? 9)) 100 m buf in
  if m cmd =? 10 then mret tt
  else if (m cmd =? 99) && (m (cmd + 1) =? 100) && (m (cmd + 2) =? 32) then
    let path := removelast (read_str 100 m (cmd + 3)) in
    r ← sys (Schdir path);
    if r <? 0 then fprintf 2 (line "cannot cd %s") [UStr (Some path)] else mret tt
  else
    pid ← fork1;
    (if pid =? 0 then
       r ← parse_line cmd m;
       runcmd (S r.1) 100 r.2 r.1
     else mret tt) ;;
    sys Swait ;;
    mret tt.

(** while((fd = open("console", O_RDWR)) >= 0) ...: at most three descriptors are
    closed. *)
Fixpoint open_console (todo : nat) : uprog unit :=
  match todo with
  | O => Umore
  | S todo =>
      fd ← sys (Sopen (bytes "console") 2);
      if 0 <=? fd then
        if 3 <=? fd then sys (Sclose fd) ;; mret tt else open_console todo
      else mret tt
  end.

(** while(getcmd(buf, sizeof(buf)) >= 0) *)
Fixpoint main_loop (fuel : nat) (m : mem) (buf : Z) : uprog unit :=
  r ← getcmd m buf 100;
  if r.2 <? 0 then mret tt
  else
    run_line r.1 buf ;;
    match fuel with O => Umore | S f => main_loop f r.1 buf end.

Definition main (fuel : nat) (m : mem) (buf : Z) : uprog unit :=
  open_console 4 ;;
  main_loop fuel m buf ;;
  exit 0.
