(* ===== verification/ShLex.v ===== *)
(** * The shell's line as a stream of tokens

    gettoken and peek work on the bytes of the line.  [stream m es s ts] says that the
    tokens [ts] are what is left of the line from [s] on; every line has such a stream,
    and the two functions are the head and the tail of it. *)

From Stdlib Require Import ZArith Lia.
From stdpp Require Import base numbers list strings.
From S2P Require Import Types Mem Str Usys Ulib Uprintf Prelude Sh.
Open Scope Z_scope.

(** A token: a symbol, with 43 for two greater-than signs, or a word. *)
Inductive tok := TSym (c : Z) | TWord (w : list Z).

Definition kind (t : tok) : Z := match t with TSym c => c | TWord _ => 97 end.
Definition text (t : tok) : list Z := match t with TSym c => if c =? 43 then [62; 62] else [c] | TWord w => w end.

Definition white (c : Z) : bool := strchr whitespace c.
Definition wordc (c : Z) : Prop := word_char c = true /\ c ≠ 0.

(** The bytes [l] are at [s]. *)
Fixpoint holds (m : mem) (s : Z) (l : list Z) : Prop := match l with [] => True | c :: l' => m s = c /\ holds m (s + 1) l' end.

(** The token [t] is at [s] and ends at [e]. *)
Definition tok_at (m : mem) (es s : Z) (t : tok) (e : Z) : Prop :=
  holds m s (text t) /\ e = s + Z.of_nat (length (text t)) /\ s < e <= es /\
  match t with
  | TSym c => c = 43 \/ (c = 62 /\ m e ≠ 62) \/ strchr (bytes "|();&<") c = true
  | TWord w => w ≠ [] /\ Forall wordc w /\ (e = es \/ word_char (m e) = false)
  end.

Inductive stream (m : mem) (es : Z) : Z -> list tok -> Prop :=
  | stream_end s : s <= es -> skip_white m s es = es -> stream m es s []
  | stream_tok s e t ts : s <= es -> tok_at m es (skip_white m s es) t e -> stream m es e ts -> stream m es s (t :: ts).

Lemma holds_app m s l l' : holds m s (l ++ l') <-> holds m s l /\ holds m (s + Z.of_nat (length l)) l'.
Proof.
  revert s. induction l as [|c l IH]; intros s; [cbn; rewrite Z.add_0_r; tauto|]. cbn [app holds length].
  rewrite IH, Nat2Z.inj_succ. replace (s + 1 + Z.of_nat (length l)) with (s + Z.succ (Z.of_nat (length l))) by lia. tauto.
Qed.

(** ** Skipping *)

Lemma skip_while_range f n m s : s <= skip_while f n m s <= s + Z.of_nat n.
Proof. revert s. induction n as [|n IH]; intros s; cbn [skip_while]; [lia|]. destruct (f (m s)); [specialize (IH (s + 1)); lia|lia]. Qed.
Lemma skip_white_range m s es : s <= es -> s <= skip_white m s es <= es.
Proof. intros H. unfold skip_white. pose proof (skip_while_range (strchr whitespace) (Z.to_nat (es - s)) m s). lia. Qed.

Lemma skip_white_step m s es :
  s < es -> skip_white m s es = if white (m s) then skip_white m (s + 1) es else s.
Proof.
  intros H. unfold skip_white. replace (Z.to_nat (es - s)) with (S (Z.to_nat (es - (s + 1)))) by lia. done.
Qed.
Lemma skip_white_end m es : skip_white m es es = es.
Proof. unfold skip_white. by rewrite Z.sub_diag. Qed.

Lemma skip_white_stop m s es : s <= es -> skip_white m s es = es \/ white (m (skip_white m s es)) = false.
Proof.
  intros H. remember (Z.to_nat (es - s)) as n eqn:En. revert s H En. induction n as [|n IH]; intros s H En.
  - left. assert (s = es) as -> by lia. apply skip_white_end.
  - rewrite skip_white_step by lia. destruct (white (m s)) eqn:E; [|by right]. apply IH; lia.
Qed.

Lemma skip_white_idem m s es : s <= es -> skip_white m (skip_white m s es) es = skip_white m s es.
Proof.
  intros H. pose proof (skip_white_range m s es H) as Hr. destruct (skip_white_stop m s es H) as [->|E]; [apply skip_white_end|].
  destruct (decide (skip_white m s es = es)) as [->|Hn]; [apply skip_white_end|]. rewrite skip_white_step by lia. by rewrite E.
Qed.

Lemma stream_skip m es s ts : stream m es s ts -> stream m es (skip_white m s es) ts.
Proof.
  intros H. assert (Hs : s <= es) by (by inversion H). pose proof (skip_white_range m s es Hs).
  inversion H as [? ? E|? ? ? ? ? Ht Hr]; subst.
  - constructor; [lia|]. rewrite skip_white_idem; done.
  - econstructor; [lia| |exact Hr]. rewrite skip_white_idem by done. exact Ht.
Qed.
Lemma stream_white m es s ts : s < es -> white (m s) = true -> stream m es (s + 1) ts -> stream m es s ts.
Proof.
  intros Hs Hw H. assert (E : skip_white m s es = skip_white m (s + 1) es) by (rewrite skip_white_step, Hw by lia; done).
  inversion H as [? ? E'|? ? ? ? ? Ht Hr]; subst; [constructor; [lia|congruence]|econstructor; [lia|rewrite E; exact Ht|exact Hr]].
Qed.

Lemma stream_le m es s ts : stream m es s ts -> s <= es.
Proof. by inversion 1. Qed.

Lemma stream_length m es s ts : stream m es s ts -> Z.of_nat (length ts) <= es - s.
Proof.
  induction 1 as [s Hs _|s e t ts Hs Ht _ IH]; [cbn; lia|]. pose proof (skip_white_range m s es Hs).
  destruct Ht as (_ & _ & He & _). cbn [length]. lia.
Qed.

(** ** Tokens *)

Lemma skip_word m es s w :
  holds m s w -> Forall wordc w -> s + Z.of_nat (length w) <= es ->
  s + Z.of_nat (length w) = es \/ word_char (m (s + Z.of_nat (length w))) = false ->
  skip_while word_char (Z.to_nat (es - s)) m s = s + Z.of_nat (length w).
Proof.
  revert s. induction w as [|c w IH]; intros s Hh Hf Hle Hend; cbn [length] in *.
  - rewrite Z.add_0_r in *. destruct Hend as [<-|E]; [by rewrite Z.sub_diag|]. destruct (Z.to_nat (es - s)); [done|]. cbn. by rewrite E.
  - destruct Hh as [E Hh]. apply Forall_cons in Hf as [[Hc _] Hf].
    replace (Z.to_nat (es - s)) with (S (Z.to_nat (es - (s + 1)))) by lia. cbn [skip_while]. rewrite E, Hc.
    rewrite Nat2Z.inj_succ in *. replace (s + Z.succ (Z.of_nat (length w))) with (s + 1 + Z.of_nat (length w)) in * by lia.
    apply IH; [done|done|lia|done].
Qed.

(** A byte of a word is neither a symbol nor white. *)
Lemma wordc_not c l : wordc c -> forallb (fun x => strchr symbols x || white x) l = true -> strchr l c = false.
Proof.
  intros [Hw _] Hl. destruct (strchr l c) eqn:E; [|done]. unfold strchr in E. apply existsb_exists in E as (x & Hx & Ex).
  apply Z.eqb_eq in Ex. subst x. rewrite forallb_forall in Hl. specialize (Hl c Hx). unfold word_char in Hw. fold (white c) in Hw.
  destruct (white c), (strchr symbols c); done.
Qed.

Lemma token_spec m es s t e : tok_at m es s t e -> token m s es = (kind t, e).
Proof.
  intros (Hh & -> & Hle & Ht). unfold token. destruct t as [c|w]; cbn [kind text] in *.
  - destruct Ht as [->|[[-> Hn]|Hc]].
    + cbn in Hh. destruct Hh as (E1 & E2 & _). rewrite E1, E2. reflexivity.
    + cbn in Hh, Hn. destruct Hh as [E1 _]. rewrite E1. apply Z.eqb_neq in Hn. change (Z.of_nat 1) with 1 in Hn.
      change ((if m (s + 1) =? 62 then (43, s + 2) else (62, s + 1)) = (62, s + 1)). by rewrite Hn.
    + assert (c ≠ 43 /\ c ≠ 0) as [H43 H0] by (split; intros ->; done).
      destruct (Z.eqb_spec c 43); [done|]. cbn [holds length] in *. destruct Hh as [-> _].
      destruct (Z.eqb_spec c 0); [done|]. rewrite Hc. done.
  - destruct Ht as (Hne & Hf & He). destruct w as [|c w]; [done|]. pose proof Hh as [E _]. pose proof Hf as Hf'.
    apply Forall_cons in Hf' as [Hc _]. pose proof Hc as [_ Hc0]. rewrite E.
    destruct (Z.eqb_spec c 0); [done|].
    rewrite (wordc_not c (bytes "|();&<")) by done.
    destruct (Z.eqb_spec c 62) as [->|_]; [destruct Hc as [Hc _]; done|].
    by rewrite (skip_word m es s (c :: w)) by (done || lia).
Qed.

Lemma gettoken_spec sh es t ts :
  stream sh.(s_mem) es sh.(s_ps) (t :: ts) ->
  exists q e ps, gettoken es sh = Ok (kind t, q, e) (set_ps ps sh) /\ tok_at sh.(s_mem) es q t e /\ sh.(s_ps) <= q /\
    e <= ps /\ stream sh.(s_mem) es ps ts.
Proof.
  intros H. inversion H as [|s e t' ts' Hs Ht Hr]; subst. exists (skip_white sh.(s_mem) sh.(s_ps) es), e, (skip_white sh.(s_mem) e es).
  pose proof (stream_le _ _ _ _ Hr). split; [|split; [done|split; [by apply skip_white_range|split; [by apply skip_white_range|by apply stream_skip]]]].
  unfold gettoken. mstep. by rewrite (token_spec _ _ _ _ _ Ht).
Qed.

Lemma gettoken_end sh es :
  stream sh.(s_mem) es sh.(s_ps) [] -> sh.(s_mem) es = 0 -> exists q e, gettoken es sh = Ok (0, q, e) (set_ps es sh).
Proof.
  intros H H0. inversion H as [s Hs E|]; subst. exists es, es. unfold gettoken. mstep. rewrite E. unfold token. rewrite H0. cbn [Z.eqb].
  mstep. by rewrite skip_white_end.
Qed.

(** Does the line go on with one of these symbols? *)
Definition next_in (toks : string) (ts : list tok) : bool :=
  match ts with TSym c :: _ => strchr (bytes toks) (if c =? 43 then 62 else c) | _ => false end.

Lemma tok_first m es q t e : tok_at m es q t e -> white (m q) = false /\ m q ≠ 0 /\
  match t with TSym c => m q = if c =? 43 then 62 else c | TWord _ => wordc (m q) end.
Proof.
  intros (Hh & _ & _ & Ht). destruct t as [c|w]; cbn [text] in Hh.
  - destruct Ht as [->|[[-> _]|Hc]]; [cbn in Hh; destruct Hh as [-> _]; done..|].
    assert (c ≠ 43) as H43 by (intros ->; done). destruct (Z.eqb_spec c 43); [done|]. destruct Hh as [-> _].
    split; [|split; [|done]]; [|intros ->; done]. unfold strchr in Hc. apply existsb_exists in Hc as (x & Hx & E%Z.eqb_eq). subst x.
    cbn in Hx. repeat (destruct Hx as [<-|Hx]; [done|]). done.
  - destruct Ht as (Hne & Hf & _). destruct w as [|c w]; [done|]. destruct Hh as [-> _]. apply Forall_cons in Hf as [Hc _].
    split; [|split; [apply Hc|done]]. by apply (wordc_not c whitespace).
Qed.

Lemma peek_spec sh es toks ts :
  stream sh.(s_mem) es sh.(s_ps) ts -> sh.(s_mem) es = 0 -> forallb (strchr symbols) (bytes toks) = true ->
  exists ps, peek es toks sh = Ok (next_in toks ts) (set_ps ps sh) /\ stream sh.(s_mem) es ps ts /\ (ts = [] -> ps = es) /\ sh.(s_ps) <= ps.
Proof.
  intros H H0 Hsym. exists (skip_white sh.(s_mem) sh.(s_ps) es). split; [|split; [by apply stream_skip|split; [|by apply skip_white_range, (stream_le _ _ _ _ H)]]].
  - unfold peek. mstep. unfold mret, M_ret. f_equal. inversion H as [s Hs E|s e t ts' Hs Ht Hr]; subst; cbn [next_in].
    + by rewrite E, H0.
    + destruct (tok_first _ _ _ _ _ Ht) as (_ & Hn & Hc). apply Z.eqb_neq in Hn. rewrite Hn. cbn [negb andb].
      destruct t as [c|w]; [by rewrite Hc|]. apply wordc_not; [done|]. rewrite forallb_forall in *. intros x Hx. by rewrite Hsym.
  - intros ->. by inversion H.
Qed.

(** ** Every line is a stream *)

(** The word at [s]. *)
Lemma word_at m es s :
  s <= es -> (forall x, s <= x < es -> m x ≠ 0) ->
  exists w, holds m s w /\ Forall wordc w /\ s + Z.of_nat (length w) <= es /\
    (s + Z.of_nat (length w) = es \/ word_char (m (s + Z.of_nat (length w))) = false).
Proof.
  intros Hs H0. remember (Z.to_nat (es - s)) as n eqn:En. revert s Hs H0 En. induction n as [|n IH]; intros s Hs H0 En.
  - exists []. cbn. rewrite Z.add_0_r. split; [done|]. split; [done|]. split; [lia|left; lia].
  - destruct (word_char (m s)) eqn:E.
    + destruct (IH (s + 1)) as (w & H1 & H2 & H3 & H4); [lia|intros x Hx; apply H0; lia|lia|].
      exists (m s :: w). split; [done|]. split; [constructor; [split; [done|apply H0; lia]|done]|]. cbn [length].
      rewrite Nat2Z.inj_succ. replace (s + Z.succ (Z.of_nat (length w))) with (s + 1 + Z.of_nat (length w)) by lia. done.
    + exists []. cbn. rewrite Z.add_0_r. split; [done|]. split; [done|]. split; [lia|by right].
Qed.

Lemma strchr_in l c : strchr l c = true <-> c ∈ l.
Proof.
  unfold strchr. rewrite existsb_exists. split.
  - intros (x & Hx & E%Z.eqb_eq). subst x. by apply list_elem_of_In.
  - intros H%list_elem_of_In. exists c. split; [done|apply Z.eqb_refl].
Qed.

Lemma tok_exists m es s :
  s < es -> (forall x, s <= x < es -> m x ≠ 0) -> m es = 0 -> white (m s) = false -> exists t e, tok_at m es s t e.
Proof.
  intros Hs H0 He Hw. destruct (strchr symbols (m s)) eqn:Esym.
  - destruct (Z.eqb_spec (m s) 62) as [E|E].
    + destruct (Z.eqb_spec (m (s + 1)) 62) as [E'|E'].
      * exists (TSym 43), (s + 2). split; [done|]. split; [done|]. split; [|by left].
        destruct (decide (s + 1 = es)) as [Hx|]; [rewrite Hx in E'; lia|lia].
      * exists (TSym 62), (s + 1). split; [done|]. split; [done|]. split; [lia|]. right. by left.
    + exists (TSym (m s)), (s + 1). assert (Hc : strchr (bytes "|();&<") (m s) = true).
      { apply strchr_in in Esym. apply strchr_in. change symbols with [60; 124; 62; 38; 59; 40; 41] in Esym.
        change (bytes "|();&<") with [124; 40; 41; 59; 38; 60]. rewrite !elem_of_cons in *. tauto. }
      assert (m s ≠ 43) by (intros Ex; rewrite Ex in Hc; done). unfold tok_at. cbn [text]. destruct (Z.eqb_spec (m s) 43); [done|].
      split; [done|]. split; [done|]. split; [lia|]. by right; right.
  - destruct (word_at m es s ltac:(lia) H0) as (w & H1 & H2 & H3 & H4).
    assert (Hne : w ≠ []).
    { intros ->. cbn [length] in H4. rewrite Z.add_0_r in H4. destruct H4 as [|H4]; [lia|]. unfold word_char in H4. fold (white (m s)) in H4.
      rewrite Hw, Esym in H4. done. }
    exists (TWord w), (s + Z.of_nat (length w)). split; [done|]. split; [done|]. split; [|done]. destruct w; [done|]. cbn [length] in *. lia.
Qed.

Lemma stream_total m es s :
  s <= es -> (forall x, s <= x < es -> m x ≠ 0) -> m es = 0 -> exists ts, stream m es s ts.
Proof.
  intros Hs H0 He. remember (Z.to_nat (es - s)) as n eqn:En. revert s Hs H0 En.
  induction n as [n IH] using lt_wf_ind; intros s Hs H0 En. pose proof (skip_white_range m s es Hs) as Hr.
  destruct (skip_white_stop m s es Hs) as [E|E]; [exists []; by constructor|].
  destruct (decide (skip_white m s es = es)) as [E'|E']; [exists []; by constructor|].
  destruct (tok_exists m es (skip_white m s es)) as (t & e & Ht); [lia|intros x Hx; apply H0; lia|done|done|].
  pose proof Ht as (_ & _ & Hle & _).
  destruct (IH (Z.to_nat (es - e))) with (s := e) as (ts & Hts); [lia|lia|intros x Hx; apply H0; lia|done|].
  exists (t :: ts). by econstructor.
Qed.

(** ** The text of tokens *)

Definition tok_ok (t : tok) : Prop :=
  match t with
  | TSym c => c = 43 \/ c = 62 \/ strchr (bytes "|();&<") c = true
  | TWord w => w ≠ [] /\ Forall wordc w
  end.

(** The tokens with a blank after each. *)
Definition print_toks (ts : list tok) : list Z := concat (map (fun t => text t ++ [32]) ts).

Lemma text_tok_at m es s t :
  tok_ok t -> holds m s (text t) -> m (s + Z.of_nat (length (text t))) = 32 -> s + Z.of_nat (length (text t)) <= es ->
  tok_at m es s t (s + Z.of_nat (length (text t))).
Proof.
  intros Hok Hh Hb Hle. split; [done|]. split; [done|]. rewrite Hb. destruct t as [c|w].
  - split; [cbn [text] in *; destruct (c =? 43); cbn [length] in *; lia|]. destruct Hok as [->|[->|H]]; [by left|right; left; done|by right; right].
  - destruct Hok as [Hne Hf]. split; [cbn [text] in *; destruct w; [done|cbn [length] in *; lia]|]. split; [done|]. split; [done|]. by right.
Qed.

Lemma skip_blank m s l : holds m s l -> Forall (fun c => white c = true) l -> skip_white m s (s + Z.of_nat (length l)) = s + Z.of_nat (length l).
Proof.
  revert s. induction l as [|c l IH]; intros s Hh Hf; [cbn; rewrite Z.add_0_r; apply skip_white_end|].
  destruct Hh as [Hc Hh]. apply Forall_cons in Hf as [Hw Hf]. rewrite skip_white_step by (cbn [length]; lia). rewrite Hc, Hw. cbn [length].
  rewrite Nat2Z.inj_succ. replace (s + Z.succ (Z.of_nat (length l))) with (s + 1 + Z.of_nat (length l)) by lia. by apply IH.
Qed.

(** The line may end in white space. *)
Lemma stream_text m s ts ws :
  Forall tok_ok ts -> Forall (fun c => white c = true) ws -> holds m s (print_toks ts ++ ws) ->
  stream m (s + Z.of_nat (length (print_toks ts ++ ws))) s ts.
Proof.
  intros Hok Hws. revert s. induction Hok as [|t ts Ht _ IH]; intros s Hh; [constructor; [lia|by apply skip_blank]|].
  change (print_toks (t :: ts)) with ((text t ++ [32]) ++ print_toks ts) in *. rewrite <- app_assoc in *.
  rewrite holds_app, holds_app in Hh. destruct Hh as [[Hh [Hb _]] Hr]. rewrite length_app in *. specialize (IH _ Hr).
  set (r := print_toks ts ++ ws) in *. set (e := s + Z.of_nat (length (text t))) in *. rewrite length_app in *. cbn [length] in *.
  replace (s + Z.of_nat (length (text t) + 1)) with (e + 1) in IH by lia.
  replace (s + Z.of_nat (length (text t) + 1 + length r)) with (e + 1 + Z.of_nat (length r)) by lia.
  rewrite <- length_app in IH. fold r in IH. set (es := e + 1 + Z.of_nat (length r)) in *. assert (Hes : e + 1 <= es) by lia.
  assert (Ta : tok_at m es s t e) by (apply text_tok_at; [done|done|done|lia]).
  destruct (tok_first _ _ _ _ _ Ta) as (Hw & _). pose proof Ta as (_ & _ & Hse & _).
  apply stream_tok with (e := e); [lia| |].
  - rewrite skip_white_step by lia. by rewrite Hw.
  - apply stream_white; [lia|by rewrite Hb|done].
Qed.
