(* ===== verification/ShParse.v ===== *)
(** * The shell's parser against its grammar

    [pline] is the grammar of the shell on token lists, as a function.  The parser of
    the shell, on the bytes of the line and with its heap of commands, computes the same
    tree or stops with the same message. *)

From Stdlib Require Import ZArith Lia.
From stdpp Require Import base numbers list strings.
From S2P Require Import Types Mem Str Usys Ulib Uprintf Prelude Sh ShLex.
Open Scope Z_scope.

(** ** Trees and the grammar *)

Record redir := mkredir { r_file : list Z; r_mode : Z; r_fd : Z }.

Inductive tree :=
  | Exec (args : list (list Z))
  | Redir (r : redir) (t : tree)
  | Pipe (l r : tree)
  | List (l r : tree)
  | Back (t : tree).

(** The redirections [rs], the last one first, around a command. *)
Definition wrap (rs : list redir) (t : tree) : tree := fold_right Redir t rs.

Inductive pres (A : Type) := POk (a : A) (ts : list tok) | PErr (msg : string) | PMore.
Arguments POk {A} a ts.
Arguments PErr {A} msg.
Arguments PMore {A}.

Definition pbind {A B} (f : A -> list tok -> pres B) (r : pres A) : pres B :=
  match r with POk a ts => f a ts | PErr msg => PErr msg | PMore => PMore end.

Definition redir_of (c : Z) : option (Z * Z) :=
  if c =? 60 then Some (O_RDONLY, 0) else if c =? 62 then Some (O_TO, 1) else if c =? 43 then Some (O_APPEND, 1) else None.

Fixpoint predirs (ts : list tok) (rs : list redir) : pres (list redir) :=
  match ts with
  | TSym c :: ts1 =>
      match redir_of c with
      | Some (mode, fd) =>
          match ts1 with
          | TWord f :: ts2 => predirs ts2 (mkredir f mode fd :: rs)
          | _ => PErr "missing file for redirection"
          end
      | None => POk rs ts
      end
  | _ => POk rs ts
  end.

Fixpoint pargs (fuel : nat) (ts : list tok) (args : list (list Z)) (rs : list redir) : pres (list (list Z) * list redir) :=
  if next_in "|)&;" ts then POk (args, rs) ts
  else
    match ts with
    | [] => POk (args, rs) []
    | TSym _ :: _ => PErr "syntax"
    | TWord w :: ts1 =>
        if Nat.leb MAXARGS (S (length args)) then PErr "too many args"
        else pbind (fun rs ts2 => match fuel with O => PMore | S f => pargs f ts2 (args ++ [w]) rs end) (predirs ts1 rs)
    end.

Fixpoint pbacks (ts : list tok) (t : tree) : tree * list tok :=
  match ts with TSym c :: ts1 => if c =? 38 then pbacks ts1 (Back t) else (t, ts) | _ => (t, ts) end.

Definition is_sym (c : Z) (ts : list tok) : option (list tok) :=
  match ts with TSym c' :: ts1 => if c' =? c then Some ts1 else None | _ => None end.

Fixpoint pline (fuel : nat) (ts : list tok) : pres tree :=
  match fuel with
  | O => PMore
  | S f =>
      pbind (fun t ts =>
        let '(t, ts) := pbacks ts t in
        match is_sym 59 ts with
        | Some ts1 => pbind (fun r ts2 => POk (List t r) ts2) (pline f ts1)
        | None => POk t ts
        end) (ppipe f ts)
  end
with ppipe (fuel : nat) (ts : list tok) : pres tree :=
  match fuel with
  | O => PMore
  | S f =>
      pbind (fun t ts =>
        match is_sym 124 ts with
        | Some ts1 => pbind (fun r ts2 => POk (Pipe t r) ts2) (ppipe f ts1)
        | None => POk t ts
        end) (pexec f ts)
  end
with pexec (fuel : nat) (ts : list tok) : pres tree :=
  match fuel with
  | O => PMore
  | S f =>
      match is_sym 40 ts with
      | Some _ => pblock f ts
      | None =>
          pbind (fun rs ts1 => pbind (fun a ts2 => POk (wrap a.2 (Exec a.1)) ts2) (pargs (length ts1) ts1 [] rs)) (predirs ts [])
      end
  end
with pblock (fuel : nat) (ts : list tok) : pres tree :=
  match fuel with
  | O => PMore
  | S f =>
      match is_sym 40 ts with
      | None => PErr "parseblock"
      | Some ts1 =>
          pbind (fun t ts2 =>
            match is_sym 41 ts2 with
            | None => PErr "syntax - missing )"
            | Some ts3 => pbind (fun rs ts4 => POk (wrap rs t) ts4) (predirs ts3 [])
            end) (pline f ts1)
      end
  end.

(** ** The grammar is total

    It leaves no more tokens than it was given, or it fails with a message. *)

Definition syntax_errors : list string := ["syntax"; "missing file for redirection"; "syntax - missing )"; "too many args"].

Definition shorter {A} (n : nat) (r : pres A) : Prop :=
  match r with POk _ ts => (length ts <= n)%nat | PErr msg => msg ∈ syntax_errors | PMore => False end.

Lemma error_0 : "syntax" ∈ syntax_errors.
Proof. by left. Qed.
Lemma error_1 : "missing file for redirection" ∈ syntax_errors.
Proof. right. by left. Qed.
Lemma error_2 : "syntax - missing )" ∈ syntax_errors.
Proof. right. right. by left. Qed.
Lemma error_3 : "too many args" ∈ syntax_errors.
Proof. right. right. right. by left. Qed.

Lemma shorter_bind {A B} n k (f : A -> list tok -> pres B) r :
  shorter n r -> (forall a ts, (length ts <= n)%nat -> shorter k (f a ts)) -> shorter k (pbind f r).
Proof. destruct r; cbn; auto. Qed.
Lemma shorter_mono {A} n k (r : pres A) : shorter n r -> (n <= k)%nat -> shorter k r.
Proof. destruct r; cbn; auto. lia. Qed.

Lemma predirs_shorter ts rs : shorter (length ts) (predirs ts rs).
Proof.
  remember (length ts) as n eqn:En. revert ts rs En. induction n as [n IH] using lt_wf_ind; intros ts rs ->.
  destruct ts as [|[c|w] ts1]; cbn [predirs]; [cbn; lia| |cbn; lia]. destruct (redir_of c) as [[mode fd]|]; [|cbn; lia].
  destruct ts1 as [|[c'|w] ts2]; [apply error_1|apply error_1|]. eapply shorter_mono; [apply (IH (length ts2)); cbn; lia|cbn; lia].
Qed.

Lemma pargs_shorter fuel ts args rs : (length ts <= fuel)%nat -> shorter (length ts) (pargs fuel ts args rs).
Proof.
  revert ts args rs. induction fuel as [|f IH]; intros ts args rs Hf; cbn [pargs];
    (destruct (next_in _ ts); [cbn; lia|]); (destruct ts as [|[c|w] ts1]; [cbn; lia|apply error_0|]); cbn [length] in *; [lia|].
  destruct (Nat.leb MAXARGS _); [apply error_3|]. eapply shorter_bind; [apply predirs_shorter|]. intros a ts2 H2.
  eapply shorter_mono; [apply IH; lia|lia].
Qed.

Lemma pbacks_shorter ts t : (length (pbacks ts t).2 <= length ts)%nat.
Proof.
  revert t. induction ts as [|[c|w] ts IH]; intros t; cbn [pbacks]; [cbn; lia| |cbn; lia].
  destruct (c =? 38); [|cbn; lia]. specialize (IH (Back t)). cbn [length]. lia.
Qed.

Lemma is_sym_length c ts ts1 : is_sym c ts = Some ts1 -> length ts = S (length ts1).
Proof. destruct ts as [|[c'|] ts]; cbn; try done. destruct (c' =? c); [|done]. by intros [= ->]. Qed.

Lemma grammar_shorter fuel :
  (forall ts, (4 * length ts + 3 < fuel)%nat -> shorter (length ts) (pline fuel ts)) /\
  (forall ts, (4 * length ts + 2 < fuel)%nat -> shorter (length ts) (ppipe fuel ts)) /\
  (forall ts, (4 * length ts + 1 < fuel)%nat -> shorter (length ts) (pexec fuel ts)) /\
  (forall ts, (4 * length ts < fuel)%nat -> is_sym 40 ts ≠ None -> shorter (length ts) (pblock fuel ts)).
Proof.
  induction fuel as [|f (IH1 & IH2 & IH3 & IH4)]; [split; [|split; [|split]]; intros; lia|].
  split; [|split; [|split]]; intros ts Hf; cbn [pline ppipe pexec pblock].
  - eapply shorter_bind; [apply IH2; lia|]. intros t ts1 H1. pose proof (pbacks_shorter ts1 t) as H2.
    destruct (pbacks ts1 t) as [t' ts2]. cbn [snd] in H2. destruct (is_sym 59 ts2) as [ts3|] eqn:E; [|cbn; lia].
    apply is_sym_length in E. eapply shorter_bind; [apply IH1; lia|]. intros r ts4 H4. cbn. lia.
  - eapply shorter_bind; [apply IH3; lia|]. intros t ts1 H1. destruct (is_sym 124 ts1) as [ts3|] eqn:E; [|cbn; lia].
    apply is_sym_length in E. eapply shorter_bind; [apply IH2; lia|]. intros r ts4 H4. cbn. lia.
  - destruct (is_sym 40 ts) eqn:E; [apply IH4; [lia|congruence]|]. eapply shorter_bind; [apply predirs_shorter|]. intros rs ts1 H1.
    eapply shorter_bind; [by apply pargs_shorter|]. intros a ts2 H2. cbn. lia.
  - intros Hsym. destruct (is_sym 40 ts) as [ts1|] eqn:E; [|done]. apply is_sym_length in E. eapply shorter_bind; [apply IH1; lia|].
    intros t ts2 H2. destruct (is_sym 41 ts2) as [ts3|] eqn:E'; [|apply error_2]. apply is_sym_length in E'.
    eapply shorter_bind; [apply predirs_shorter|]. intros rs ts4 H4. cbn. lia.
Qed.
