(* ===== verification/ShPrint.v ===== *)
(** * Printing commands for the shell

    [show] writes a tree with the parentheses it needs, and the grammar reads it
    back. *)

From Stdlib Require Import ZArith Lia.
From stdpp Require Import base numbers list strings.
From S2P Require Import Types Mem Str Usys Ulib Uprintf Prelude Sh ShLex ShParse.
Open Scope Z_scope.

Definition op_of (r : redir) : Z := if r.(r_mode) =? O_RDONLY then 60 else if r.(r_mode) =? O_TO then 62 else 43.
Definition rtoks (rs : list redir) : list tok := concat (map (fun r => [TSym (op_of r); TWord r.(r_file)]) rs).

(** Around a command that binds less than its place needs. *)
Definition paren (b : bool) (ts : list tok) : list tok := if b then TSym 40 :: ts ++ [TSym 41] else ts.

(** The tokens of a tree where a line (0), its part before the semicolon (1), a pipe
    (2) or a simple command (3) is expected. *)
Fixpoint show (lvl : nat) (t : tree) : list tok :=
  match t with
  | Exec args => map TWord args
  | Redir r t => show 3 t ++ rtoks [r]
  | Pipe l r => paren (Nat.ltb 2 lvl) (show 3 l ++ TSym 124 :: show 2 r)
  | List l r => paren (Nat.ltb 0 lvl) (show 1 l ++ TSym 59 :: show 0 r)
  | Back t => paren (Nat.ltb 1 lvl) (show 1 t ++ [TSym 38])
  end.

Definition word_ok (w : list Z) : Prop := w ≠ [] /\ Forall wordc w.
Definition redir_ok (r : redir) : Prop := word_ok r.(r_file) /\ redir_of (op_of r) = Some (r.(r_mode), r.(r_fd)).

Fixpoint tree_ok (t : tree) : Prop :=
  match t with
  | Exec args => (length args < MAXARGS)%nat /\ Forall word_ok args
  | Redir r t => redir_ok r /\ tree_ok t
  | Pipe l r | List l r => tree_ok l /\ tree_ok r
  | Back t => tree_ok t
  end.

(** What may come after a simple command. *)
Definition follow (rest : list tok) : Prop := rest = [] \/ next_in "|)&;" rest = true.

Lemma follow_sym c rest : c = 124 \/ c = 41 \/ c = 38 \/ c = 59 -> follow (TSym c :: rest).
Proof. intros H. right. by repeat (destruct H as [->|H]; [done|]); subst. Qed.

(** A symbol that may follow. *)
Lemma follow_cases rest : follow rest -> rest = [] \/ exists c ts, rest = TSym c :: ts /\ (c = 124 \/ c = 41 \/ c = 38 \/ c = 59).
Proof.
  intros [->|H]; [by left|]. destruct rest as [|[c|w] ts]; [by left| |done]. right. exists c, ts. split; [done|]. cbn [next_in] in H.
  destruct (Z.eqb_spec c 43) as [->|_]; [done|]. apply strchr_in in H. change (bytes "|)&;") with [124; 41; 38; 59] in H.
  rewrite !elem_of_cons, elem_of_nil in H. tauto.
Qed.

Lemma predirs_end rest rs : follow rest -> predirs rest rs = POk rs rest.
Proof. intros [->|(c & ts & -> & H)]%follow_cases; [done|]. by repeat (destruct H as [->|H]; [done|]); subst. Qed.

Lemma predirs_show rs rest acc :
  Forall redir_ok rs -> follow rest -> predirs (rtoks rs ++ rest) acc = POk (rev rs ++ acc) rest.
Proof.
  intros H Hf. revert acc. induction H as [|r rs [_ Hr] _ IH]; intros acc; [by apply predirs_end|].
  change (rtoks (r :: rs) ++ rest) with (TSym (op_of r) :: TWord r.(r_file) :: rtoks rs ++ rest). cbn [predirs]. rewrite Hr, IH.
  cbn [rev]. rewrite <- app_assoc. by destruct r.
Qed.

Lemma pargs_end fuel rest args rs : follow rest -> pargs fuel rest args rs = POk (args, rs) rest.
Proof. intros [->|H]; [by destruct fuel|]. destruct fuel; cbn [pargs]; by rewrite H. Qed.

Lemma pargs_show ws args rs rest fuel :
  ws ≠ [] -> Forall redir_ok rs -> follow rest -> (length args + length ws < MAXARGS)%nat -> (length ws <= fuel)%nat ->
  pargs fuel (map TWord ws ++ rtoks rs ++ rest) args [] = POk (args ++ ws, rev rs) rest.
Proof.
  intros Hne Hr Hf. revert args fuel Hne. induction ws as [|w ws IH]; intros args fuel Hne Hlen Hfu; [done|].
  destruct fuel as [|f]; [cbn in Hfu; lia|]. cbn [map app pargs next_in length] in *.
  destruct (Nat.leb_spec MAXARGS (S (length args))); [lia|]. destruct ws as [|w' ws].
  - cbn [map app]. rewrite predirs_show by done. cbn [pbind]. rewrite pargs_end, app_nil_r by done. done.
  - change (predirs (map TWord (w' :: ws) ++ rtoks rs ++ rest) []) with (POk (@nil redir) (map TWord (w' :: ws) ++ rtoks rs ++ rest)).
    cbn [pbind]. rewrite IH; [by rewrite <- app_assoc|done|rewrite length_app; cbn [length] in *; lia|cbn [length] in *; lia].
Qed.

Lemma wrap_rev r rs t : wrap (rev (r :: rs)) t = wrap (rev rs) (Redir r t).
Proof. unfold wrap. cbn [rev]. by rewrite fold_right_app. Qed.

(** ** Reading back *)

Section levels.
Context (t : tree).

(** A simple command with redirections behind it. *)
Definition reads3 : Prop := forall rs rest fuel,
  Forall redir_ok rs -> follow rest -> let ts := show 3 t ++ rtoks rs ++ rest in
  (4 * length ts + 1 < fuel)%nat -> pexec fuel ts = POk (wrap (rev rs) t) rest.
Definition reads2 : Prop := forall rest fuel,
  follow rest -> is_sym 124 rest = None -> let ts := show 2 t ++ rest in
  (4 * length ts + 2 < fuel)%nat -> ppipe fuel ts = POk t rest.
Definition reads1 : Prop := forall rest fuel,
  follow rest -> is_sym 124 rest = None -> let ts := show 1 t ++ rest in
  (4 * length ts + 2 < fuel)%nat -> exists t0 ts0, ppipe fuel ts = POk t0 ts0 /\ pbacks ts0 t0 = pbacks rest t.
Definition reads0 : Prop := forall rest fuel,
  follow rest -> is_sym 124 rest = None -> is_sym 38 rest = None -> is_sym 59 rest = None -> let ts := show 0 t ++ rest in
  (4 * length ts + 3 < fuel)%nat -> pline fuel ts = POk t rest.

Lemma pbacks_none rest : is_sym 38 rest = None -> pbacks rest t = (t, rest).
Proof. destruct rest as [|[c|w] rest]; cbn; try done. by destruct (c =? 38). Qed.

Lemma reads_3_2 : show 2 t = show 3 t -> reads3 -> reads2.
Proof.
  intros E H3 rest fuel Hf Hp ts Hfu. unfold ts in *. rewrite E in *. destruct fuel as [|f]; [lia|]. cbn [ppipe].
  specialize (H3 [] rest f (List.Forall_nil _) Hf). cbn [rtoks app concat map] in H3. rewrite H3 by lia. cbn [pbind rev wrap fold_right]. by rewrite Hp.
Qed.
Lemma reads_2_1 : show 1 t = show 2 t -> reads2 -> reads1.
Proof. intros E H2 rest fuel Hf Hp ts Hfu. unfold ts in *. rewrite E in *. exists t, rest. by rewrite H2. Qed.
Lemma reads_1_0 : show 0 t = show 1 t -> reads1 -> reads0.
Proof.
  intros E H1 rest fuel Hf Hp Hb Hs ts Hfu. unfold ts in *. rewrite E in *. destruct fuel as [|f]; [lia|]. cbn [pline].
  destruct (H1 rest f Hf Hp ltac:(lia)) as (t0 & ts0 & -> & E'). cbn [pbind]. rewrite E', pbacks_none by done. by rewrite Hs.
Qed.
Lemma reads_0_3 : show 3 t = TSym 40 :: show 0 t ++ [TSym 41] -> reads0 -> reads3.
Proof.
  intros E H0 rs rest fuel Hr Hf ts Hfu. unfold ts in *. rewrite E in *. destruct fuel as [|[|f]]; [lia|lia|].
  cbn [app pexec is_sym]. change (40 =? 40) with true. cbn iota. cbn [pblock is_sym]. change (40 =? 40) with true. cbn iota.
  rewrite <- app_assoc in *. cbn [app length] in *.
  rewrite H0; [|by apply follow_sym; auto|done|done|done|rewrite !length_app in *; cbn [length] in *; rewrite ?length_app in *; cbn [length] in *; lia]. cbn [pbind is_sym]. change (41 =? 41) with true. cbn iota.
  rewrite predirs_show by done. cbn [pbind]. by rewrite app_nil_r.
Qed.
End levels.

Ltac lens := rewrite ?length_app in *; cbn [length] in *; rewrite ?length_app in *; cbn [length] in *; lia.

Lemma is_sym_words ws rest : is_sym 40 rest = None -> is_sym 40 (map TWord ws ++ rest) = None.
Proof. by destruct ws. Qed.

Lemma is_sym_rtoks rs rest : follow rest -> is_sym 40 (rtoks rs ++ rest) = None.
Proof.
  intros Hf. destruct rs as [|r rs].
  - apply follow_cases in Hf as [->|(c & ts & -> & H)]; [done|]. by repeat (destruct H as [->|H]; [done|]); subst.
  - cbn. unfold op_of. by destruct (r_mode r =? O_RDONLY), (r_mode r =? O_TO).
Qed.

Lemma reads_exec args : (length args < MAXARGS)%nat -> reads3 (Exec args).
Proof.
  intros Ha rs rest fuel Hr Hf ts Hfu. unfold ts in *. cbn [show] in *. destruct fuel as [|f]; [lia|]. cbn [pexec].
  rewrite is_sym_words by (by apply is_sym_rtoks). destruct args as [|w ws].
  - cbn [map app]. rewrite predirs_show by done. cbn [pbind]. by rewrite pargs_end, app_nil_r by done.
  - change (predirs (map TWord (w :: ws) ++ rtoks rs ++ rest) []) with (POk (@nil redir) (map TWord (w :: ws) ++ rtoks rs ++ rest)).
    cbn [pbind]. rewrite pargs_show; [done|done|done|done|done|]. rewrite length_app, length_map. lia.
Qed.

(** Every tree is read back, at every level. *)
Lemma reads_all t : tree_ok t -> reads3 t /\ reads2 t /\ reads1 t /\ reads0 t.
Proof.
  assert (down : forall t, show 2 t = show 3 t -> show 1 t = show 2 t -> show 0 t = show 1 t -> reads3 t -> reads3 t /\ reads2 t /\ reads1 t /\ reads0 t).
  { intros t' E1 E2 E3 H3. pose proof (reads_3_2 _ E1 H3) as H2. pose proof (reads_2_1 _ E2 H2) as H1. pose proof (reads_1_0 _ E3 H1). auto. }
  induction t as [args|r t IH|l IHl r IHr|l IHl r IHr|t IH]; cbn [tree_ok]; intros Hok.
  - apply down; try done. apply reads_exec, Hok.
  - destruct Hok as [Hr (H3 & _)%IH]. apply down; try done. intros rs rest fuel Hrs Hf ts Hfu. unfold ts in *. cbn [show] in *.
    rewrite <- wrap_rev. specialize (H3 (r :: rs) rest fuel ltac:(by constructor) Hf). cbn [rtoks map concat app] in *.
    rewrite <- app_assoc in *. apply H3, Hfu.
  - destruct Hok as [(L3 & _)%IHl (_ & R2 & _)%IHr].
    assert (H2 : reads2 (Pipe l r)).
    { intros rest fuel Hf Hp ts Hfu. unfold ts in *. cbn [show paren Nat.ltb Nat.leb] in *. rewrite <- app_assoc in *. cbn [app] in *.
      destruct fuel as [|f]; [lia|]. cbn [ppipe].
      pose proof (L3 [] (TSym 124 :: show 2 r ++ rest) f (List.Forall_nil _) ltac:(apply follow_sym; auto)) as E. cbn [rtoks map concat app] in E.
      rewrite E by lens. cbn [pbind is_sym rev wrap fold_right]. change (124 =? 124) with true. cbn iota. rewrite R2 by (done || lens). done. }
    pose proof (reads_2_1 (Pipe l r) eq_refl H2) as H1. pose proof (reads_1_0 (Pipe l r) eq_refl H1) as H0. split; [by apply reads_0_3|auto].
  - destruct Hok as [(_ & _ & L1 & _)%IHl (_ & _ & _ & R0)%IHr].
    assert (H0 : reads0 (List l r)).
    { intros rest fuel Hf Hp Hb Hs ts Hfu. unfold ts in *. cbn [show paren Nat.ltb Nat.leb] in *. rewrite <- app_assoc in *. cbn [app] in *.
      destruct fuel as [|f]; [lia|]. cbn [pline].
      destruct (L1 (TSym 59 :: show 0 r ++ rest) f) as (t0 & ts0 & -> & E); [apply follow_sym; auto|done|lens|]. cbn [pbind].
      rewrite E, pbacks_none by done. cbn [is_sym]. change (59 =? 59) with true. cbn iota. rewrite R0 by (done || lens). done. }
    pose proof (reads_0_3 (List l r) eq_refl H0) as H3. pose proof (reads_3_2 (List l r) eq_refl H3) as H2. pose proof (reads_2_1 (List l r) eq_refl H2). auto.
  - destruct (IH Hok) as (_ & _ & I1 & _).
    assert (H1 : reads1 (Back t)).
    { intros rest fuel Hf Hp ts Hfu. unfold ts in *. cbn [show paren Nat.ltb Nat.leb] in *. rewrite <- app_assoc in *. cbn [app] in *.
      destruct (I1 (TSym 38 :: rest) fuel) as (t0 & ts0 & -> & E); [apply follow_sym; auto|done|lens|]. by exists t0, ts0. }
    pose proof (reads_1_0 (Back t) eq_refl H1) as H0. pose proof (reads_0_3 (Back t) eq_refl H0) as H3. pose proof (reads_3_2 (Back t) eq_refl H3). auto.
Qed.

(** The tokens that are printed. *)
Lemma show_ok lvl t : tree_ok t -> Forall tok_ok (show lvl t).
Proof.
  assert (Hp : forall b ts, Forall tok_ok ts -> Forall tok_ok (paren b ts)).
  { intros [] ts H; [|done]. constructor; [by right; right|]. apply Forall_app. split; [done|]. constructor; [by right; right|done]. }
  revert lvl. induction t as [args|r t IH|l IHl r IHr|l IHl r IHr|t IH]; intros lvl; cbn [tree_ok show].
  - intros [_ H]. apply Forall_map. eapply Forall_impl; [exact H|]. by intros w [? ?].
  - intros [[[Hn Hw] _] Ht]. apply Forall_app. split; [by apply IH|]. constructor; [|constructor; [done|done]].
    unfold op_of. destruct (r_mode r =? O_RDONLY), (r_mode r =? O_TO); cbn; auto.
  - intros [Hl Hr]. apply Hp, Forall_app. split; [by apply IHl|]. constructor; [by right; right|by apply IHr].
  - intros [Hl Hr]. apply Hp, Forall_app. split; [by apply IHl|]. constructor; [by right; right|by apply IHr].
  - intros Ht. apply Hp, Forall_app. split; [by apply IH|]. constructor; [by right; right|done].
Qed.
