(* ===== verification/ShRefine.v ===== *)
(** * The parser computes the grammar

    The bytes of the line are read through their stream of tokens; the heap of commands
    is read through [repr], which says that a pointer leads to the nodes of a tree. *)

From Stdlib Require Import ZArith Lia.
From stdpp Require Import base numbers list strings.
From S2P Require Import Types Mem Str Usys Ulib Uprintf Prelude Sh ShLex ShParse.
Open Scope Z_scope.

Definition node (cmds : list cmd) (p : nat) : option cmd := match p with O => None | S n => cmds !! n end.

(** ** Trees in the heap *)

Section repr.
Context (W : Z -> Z -> list Z -> Prop).   (* the word from q to eq *)

Definition args_repr (argv eargv : list Z) (args : list (list Z)) : Prop :=
  length argv = MAXARGS /\ length eargv = MAXARGS /\ (length args < MAXARGS)%nat /\
  (forall i w, args !! i = Some w -> exists q e, argv !! i = Some q /\ eargv !! i = Some e /\ 0 < q /\ W q e w) /\
  (forall i, (length args <= i < MAXARGS)%nat -> argv !! i = Some 0).

Fixpoint repr (cmds : list cmd) (p : nat) (t : tree) : Prop :=
  match t with
  | Exec args => exists argv eargv, node cmds p = Some (EXEC argv eargv) /\ args_repr argv eargv args
  | Redir r t => exists c q e, node cmds p = Some (REDIR c q e r.(r_mode) r.(r_fd)) /\ (c < p)%nat /\ 0 < q /\ W q e r.(r_file) /\ repr cmds c t
  | Pipe l r => exists a b, node cmds p = Some (PIPE a b) /\ (a < p)%nat /\ (b < p)%nat /\ repr cmds a l /\ repr cmds b r
  | List l r => exists a b, node cmds p = Some (LIST a b) /\ (a < p)%nat /\ (b < p)%nat /\ repr cmds a l /\ repr cmds b r
  | Back t => exists c, node cmds p = Some (BACK c) /\ (c < p)%nat /\ repr cmds c t
  end.

(** The redirections around the command [c]. *)
Fixpoint over (cmds : list cmd) (p c : nat) (rs : list redir) : Prop :=
  match rs with
  | [] => p = c
  | r :: rs => exists c' q e, node cmds p = Some (REDIR c' q e r.(r_mode) r.(r_fd)) /\ (c < p)%nat /\ (c' < p)%nat /\ 0 < q /\
                 W q e r.(r_file) /\ over cmds c' c rs
  end.

Lemma node_app cmds l p x : node cmds p = Some x -> node (cmds ++ l) p = Some x.
Proof. destruct p; [done|]. apply lookup_app_l_Some. Qed.

Lemma repr_app cmds l p t : repr cmds p t -> repr (cmds ++ l) p t.
Proof.
  revert p. induction t as [args|r t IH|a IHa b IHb|a IHa b IHb|t IH]; intros p; cbn [repr].
  - intros (argv & eargv & H & Ha). exists argv, eargv. split; [by apply node_app|done].
  - intros (c & q & e & H & Hc & Hq & Hw & Hr). exists c, q, e. repeat (split; [by (apply node_app || done)|]). by apply IH.
  - intros (x & y & H & H1 & H2 & H3 & H4). exists x, y. repeat (split; [by (apply node_app || apply IHa || done)|]). by apply IHb.
  - intros (x & y & H & H1 & H2 & H3 & H4). exists x, y. repeat (split; [by (apply node_app || apply IHa || done)|]). by apply IHb.
  - intros (c & H & Hc & Hr). exists c. repeat (split; [by (apply node_app || done)|]). by apply IH.
Qed.

Lemma over_cmds_app cmds l p c rs : over cmds p c rs -> over (cmds ++ l) p c rs.
Proof.
  revert p. induction rs as [|r rs IH]; intros p; [done|]. cbn [over]. intros (c' & q & e & H & H1 & H2 & H3 & H4 & H5).
  exists c', q, e. repeat (split; [by (apply node_app || done)|]). by apply IH.
Qed.

Lemma over_repr cmds p c rs t : over cmds p c rs -> repr cmds c t -> repr cmds p (wrap rs t).
Proof.
  revert p. induction rs as [|r rs IH]; intros p; cbn [over]; [by intros ->|]. intros (c' & q & e & H & H1 & H2 & H3 & H4 & H5) Hr.
  cbn [wrap fold_right repr]. exists c', q, e. repeat (split; [done|]). by apply IH.
Qed.

(** A node that is not part of the chain does not matter to it. *)
Lemma over_insert cmds p c rs x : (0 < c)%nat -> over cmds p c rs -> over (<[pred c := x]> cmds) p c rs.
Proof.
  intros Hc. revert p. induction rs as [|r rs IH]; intros p; cbn [over]; [done|]. intros (c' & q & e & H & H1 & H2 & H3 & H4 & H5).
  exists c', q, e. split; [|repeat (split; [done|]); by apply IH]. destruct p as [|p]; [done|]. cbn [node] in *.
  rewrite list_lookup_insert_ne by lia. done.
Qed.

Lemma args_repr_add argv eargv args w q e :
  args_repr argv eargv args -> (S (length args) < MAXARGS)%nat -> 0 < q -> W q e w ->
  args_repr (<[length args := q]> argv) (<[length args := e]> eargv) (args ++ [w]).
Proof.
  intros (H1 & H2 & H3 & H4 & H5) Hl Hq Hw. unfold args_repr. rewrite !length_insert, length_app. cbn [length].
  split; [done|]. split; [done|]. split; [lia|]. split.
  - intros i w' Hi. apply lookup_app_Some in Hi as [Hi|[Hge Hi]].
    + pose proof (lookup_lt_Some _ _ _ Hi). rewrite !list_lookup_insert_ne by lia. by apply H4.
    + apply list_lookup_singleton_Some in Hi as [Ei <-]. assert (i = length args) as -> by lia. exists q, e.
      rewrite !list_lookup_insert_eq by lia. done.
  - intros i Hi. rewrite list_lookup_insert_ne by lia. apply H5. lia.
Qed.
End repr.

(** ** The parser *)

Section refine.
Context (can_alloc : nat -> bool) (Halloc : forall n, can_alloc n = true).
Context (m : mem) (lo es : Z) (Hlo : 0 < lo) (Hes : m es = 0).   (* the line is from lo to es *)

(** The parser is in front of the tokens [ts]. *)
Definition good (sh : shell) (ts : list tok) : Prop := sh.(s_mem) = m /\ stream m es sh.(s_ps) ts /\ lo <= sh.(s_ps).

Definition word (q e : Z) (w : list Z) : Prop := lo <= q /\ tok_at m es q (TWord w) e.

Definition grows (sh sh' : shell) : Prop := exists l, sh'.(s_cmds) = sh.(s_cmds) ++ l.

Lemma grows_refl sh sh' : sh'.(s_cmds) = sh.(s_cmds) -> grows sh sh'.
Proof. intros E. exists []. by rewrite app_nil_r. Qed.
Lemma grows_trans a b c : grows a b -> grows b c -> grows a c.
Proof. intros [l E] [l' E']. exists (l ++ l'). by rewrite E', E, app_assoc. Qed.

Lemma gettoken_good sh t ts :
  good sh (t :: ts) -> exists q e sh', gettoken es sh = Ok (kind t, q, e) sh' /\ good sh' ts /\ sh'.(s_cmds) = sh.(s_cmds) /\ tok_at m es q t e /\ lo <= q.
Proof using Type.
  intros (Em & Hs & Hp). rewrite <- Em in Hs. destruct (gettoken_spec sh es t ts Hs) as (q & e & ps & E & Ht & Hq & He & Hr).
  exists q, e, (set_ps ps sh). rewrite Em in Ht, Hr. pose proof Ht as (_ & _ & Hle & _).
  split; [done|]. split; [|split; [done|split; [done|lia]]]. split; [done|]. split; [done|]. cbn. lia.
Qed.

Lemma gettoken_none sh : good sh [] -> exists q e sh', gettoken es sh = Ok (0, q, e) sh' /\ good sh' [] /\ sh'.(s_cmds) = sh.(s_cmds).
Proof using Hes Hlo.
  intros (Em & Hs & Hp). pose proof Hs as Hs'. rewrite <- Em in Hs. destruct (gettoken_end sh es Hs) as (q & e & E); [by rewrite Em|].
  exists q, e, (set_ps es sh). split; [done|]. split; [|done]. split; [done|]. split.
  - constructor; [done|apply skip_white_end].
  - apply stream_le in Hs. cbn. lia.
Qed.

Lemma peek_good sh toks ts :
  good sh ts -> forallb (strchr symbols) (bytes toks) = true ->
  exists sh', peek es toks sh = Ok (next_in toks ts) sh' /\ good sh' ts /\ sh'.(s_cmds) = sh.(s_cmds) /\ (ts = [] -> sh'.(s_ps) = es).
Proof using Hes Hlo.
  intros (Em & Hs & Hp) Ht. rewrite <- Em in Hs. destruct (peek_spec sh es toks ts Hs) as (ps & E & Hr & Hn & Hle); [by rewrite Em|done|].
  exists (set_ps ps sh). rewrite Em in Hr. split; [done|]. split; [|done]. split; [done|]. split; [done|]. cbn. lia.
Qed.

Lemma new_cmd_run c sh : new_cmd can_alloc c sh = Ok (S (length sh.(s_cmds))) (set_cmds (sh.(s_cmds) ++ [c]) sh).
Proof using Halloc. unfold new_cmd. mstep. rewrite Halloc. done. Qed.

Lemma node_last cmds c : node (cmds ++ [c]) (S (length cmds)) = Some c.
Proof. cbn. apply list_lookup_middle. done. Qed.

Lemma good_cmds sh ts l : good sh ts -> good (set_cmds l sh) ts.
Proof. done. Qed.

Lemma next_redir ts : next_in "<>" ts = match ts with TSym c :: _ => match redir_of c with Some _ => true | None => false end | _ => false end.
Proof.
  destruct ts as [|[c|w] ts]; [done| |done]. cbn [next_in]. unfold redir_of. change (bytes "<>") with [60; 62].
  destruct (Z.eqb_spec c 43) as [->|]; [done|]. unfold strchr. cbn [existsb]. rewrite (Z.eqb_sym 60), (Z.eqb_sym 62), orb_false_r.
  by destruct (c =? 60), (c =? 62).
Qed.

Lemma redir_loop_good c fuel ts rs p sh :
  good sh ts -> over word sh.(s_cmds) p c rs -> (c <= length sh.(s_cmds))%nat -> (p <= length sh.(s_cmds))%nat -> (length ts <= fuel)%nat ->
  match predirs ts rs with
  | POk rs' ts' => exists p' sh', redir_loop can_alloc fuel p es sh = Ok p' sh' /\ good sh' ts' /\ grows sh sh' /\ over word sh'.(s_cmds) p' c rs'
  | PErr msg => redir_loop can_alloc fuel p es sh = Panic msg
  | PMore => False
  end.
Proof using Halloc Hlo Hes.
  revert ts rs p sh. induction fuel as [|f IH]; intros ts rs p sh Hg Ho Hc Hp Hf;
    (destruct (peek_good sh "<>" ts Hg eq_refl) as (sh1 & E1 & Hg1 & Ec1 & _)); unfold redir_loop; fold (redir_loop can_alloc);
    rewrite (bind_ok _ _ _ _ _ E1), next_redir.
  - destruct ts; [|cbn in Hf; lia]. cbn [predirs]. exists p, sh1. split; [done|]. split; [done|]. split; [by apply grows_refl|]. by rewrite Ec1.
  - destruct ts as [|[x|w] ts1]; cbn [predirs].
    1,3: exists p, sh1; split; [done|]; split; [done|]; split; [by apply grows_refl|]; by rewrite Ec1.
    destruct (redir_of x) as [[mode fd]|] eqn:Er; [|exists p, sh1; split; [done|]; split; [done|]; split; [by apply grows_refl|]; by rewrite Ec1].
    destruct (gettoken_good _ _ _ Hg1) as (q0 & e0 & sh2 & E2 & Hg2 & Ec2 & _ & _). rewrite (bind_ok _ _ _ _ _ E2). cbn [kind fst].
    assert (Hmiss : forall k, match ts1 with TWord _ :: _ => False | _ => True end ->
      (a ← gettoken es; (let '(tok, q, eq) := a in if negb (tok =? 97) then panic "missing file for redirection" else k q eq) : M shell nat) sh2 = Panic "missing file for redirection").
    { intros k Hts. destruct ts1 as [|[y|w] ts2]; [|clear Hts|done].
      - destruct (gettoken_none _ Hg2) as (q & e & sh3 & E3 & _). by rewrite (bind_ok _ _ _ _ _ E3).
      - destruct (gettoken_good _ _ _ Hg2) as (q & e & sh3 & E3 & _ & _ & Ht & _). rewrite (bind_ok _ _ _ _ _ E3). cbn [kind].
        destruct (Z.eqb_spec y 97) as [->|]; [|done]. destruct Ht as (_ & _ & _ & [?|[[? _]|?]]); done. }
    destruct ts1 as [|[y|w] ts2]; [by apply Hmiss|by apply Hmiss|].
    destruct (gettoken_good _ _ _ Hg2) as (q & e & sh3 & E3 & Hg3 & Ec3 & Ht & Hq). rewrite (bind_ok _ _ _ _ _ E3). cbn [kind].
    change (97 =? 97) with true. cbn [negb].
    assert (Ered : (if x =? 60 then redircmd can_alloc p q e O_RDONLY 0 else if x =? 62 then redircmd can_alloc p q e O_TO 1
                    else if x =? 43 then redircmd can_alloc p q e O_APPEND 1 else mret p) sh3 = new_cmd can_alloc (REDIR p q e mode fd) sh3).
    { unfold redir_of in Er. destruct (x =? 60); [by injection Er as <- <-|]. destruct (x =? 62); [by injection Er as <- <-|].
      destruct (x =? 43); [by injection Er as <- <-|done]. }
    rewrite (bind_cong _ _ _ _ Ered), (bind_ok _ _ _ _ _ (new_cmd_run _ _)). set (c2 := REDIR p q e mode fd).
    assert (Ecm : s_cmds sh3 = s_cmds sh) by congruence.
    assert (Ho' : over word (s_cmds sh3 ++ [c2]) (S (length (s_cmds sh3))) c (mkredir w mode fd :: rs)).
    { exists p, q, e. cbn [r_mode r_fd r_file]. split; [apply node_last|]. rewrite Ecm. split; [lia|]. split; [lia|]. split; [lia|].
      split; [done|by apply over_cmds_app]. }
    specialize (IH ts2 (mkredir w mode fd :: rs) (S (length (s_cmds sh3))) (set_cmds (s_cmds sh3 ++ [c2]) sh3) Hg3 Ho').
    cbn [s_cmds set_cmds] in IH. rewrite Ecm, length_app in IH. cbn [length] in *.
    specialize (IH ltac:(lia) ltac:(lia) ltac:(lia)). rewrite Ecm. destruct (predirs ts2 _) as [rs' ts'|msg|]; [|done|done].
    destruct IH as (p' & sh' & -> & Hg' & Hgr & Ho''). exists p', sh'. split; [done|]. split; [done|]. split; [|done].
    eapply grows_trans; [|exact Hgr]. by exists [c2].
Qed.

Lemma node_le cmds p x : node cmds p = Some x -> (p <= length cmds)%nat.
Proof. destruct p as [|p]; [done|]. cbn. intros H%lookup_lt_Some. lia. Qed.
Lemma over_le cmds p c rs : over word cmds p c rs -> (c <= length cmds)%nat -> (p <= length cmds)%nat.
Proof. destruct rs as [|r rs]; cbn [over]; [by intros ->|]. intros (c' & q & e & H & _) _. by apply node_le in H. Qed.

Lemma left_bytes_run sh ts : good sh ts -> exists n, (length ts < n)%nat /\ left_bytes es sh = Ok n sh.
Proof using Type.
  intros (Em & Hs & _). exists (S (Z.to_nat (es - s_ps sh))). split; [|done]. pose proof (stream_length _ _ _ _ Hs). lia.
Qed.

Lemma parseredirs_good c ts rs p sh :
  good sh ts -> over word sh.(s_cmds) p c rs -> (c <= length sh.(s_cmds))%nat ->
  match predirs ts rs with
  | POk rs' ts' => exists p' sh', parseredirs can_alloc p es sh = Ok p' sh' /\ good sh' ts' /\ grows sh sh' /\ over word sh'.(s_cmds) p' c rs'
  | PErr msg => parseredirs can_alloc p es sh = Panic msg
  | PMore => False
  end.
Proof using Halloc Hlo Hes.
  intros Hg Ho Hc. unfold parseredirs. destruct (left_bytes_run sh ts Hg) as (n & Hn & E). rewrite (bind_ok _ _ _ _ _ E).
  apply redir_loop_good; [done|done|done|by apply over_le in Ho|lia].
Qed.

(** The execcmd that is being filled is the first node after [pre]. *)
Definition filling (pre : list cmd) (sh : shell) (p : nat) (args : list (list Z)) (rs : list redir) : Prop :=
  exists argv eargv l, sh.(s_cmds) = pre ++ EXEC argv eargv :: l /\ args_repr word argv eargv args /\
    over word sh.(s_cmds) p (S (length pre)) rs.

Lemma filling_node pre sh p args rs : filling pre sh p args rs -> exists argv eargv,
  cmd_at sh (S (length pre)) = Some (EXEC argv eargv) /\ args_repr word argv eargv args.
Proof. intros (argv & eargv & l & E & Ha & _). exists argv, eargv. split; [|done]. cbn. rewrite E. by apply list_lookup_middle. Qed.

Lemma filling_grows pre sh sh' p p' args rs rs' :
  filling pre sh p args rs -> grows sh sh' -> over word sh'.(s_cmds) p' (S (length pre)) rs' -> filling pre sh' p' args rs'.
Proof.
  intros (argv & eargv & l & E & Ha & _) [l' E'] Ho. exists argv, eargv, (l ++ l'). rewrite E', E, <- app_assoc. cbn [app].
  split; [done|]. split; [done|]. rewrite E', E, <- app_assoc in Ho. done.
Qed.

Lemma set_arg_good pre sh p args rs q e w ts :
  good sh ts -> filling pre sh p args rs -> (S (length args) < MAXARGS)%nat -> 0 < q -> word q e w ->
  exists sh', set_arg (S (length pre)) (length args) q e sh = Ok tt sh' /\ good sh' ts /\ filling pre sh' p (args ++ [w]) rs.
Proof using Type.
  intros Hg Hf Hl Hq Hw. destruct (filling_node _ _ _ _ _ Hf) as (argv & eargv & E & Ha). unfold set_arg, get. cbn [mbind M_bind rbind].
  rewrite (bind_ok _ _ _ sh sh) by done. rewrite E. pose proof Ha as (Hla & _). rewrite decide_True by lia.
  eexists. split; [done|]. split; [done|]. destruct Hf as (argv' & eargv' & l & Ec & _ & Ho). cbn [pred s_cmds set_cmds].
  assert (Hins : forall x, <[length pre := x]> (s_cmds sh) = pre ++ x :: l).
  { intros x. rewrite Ec, insert_app_r_alt, Nat.sub_diag by lia. done. }
  eexists _, _, l. cbn [s_cmds set_cmds]. split; [apply Hins|]. split; [by apply args_repr_add|]. apply (over_insert word _ _ (S (length pre))); [lia|done].
Qed.

Lemma set_arg_end pre sh p args rs ts :
  good sh ts -> filling pre sh p args rs ->
  exists sh', set_arg (S (length pre)) (length args) 0 0 sh = Ok tt sh' /\ good sh' ts /\ filling pre sh' p args rs.
Proof using Type.
  intros Hg Hf. destruct (filling_node _ _ _ _ _ Hf) as (argv & eargv & E & Ha). unfold set_arg, get.
  rewrite (bind_ok _ _ _ sh sh) by done. rewrite E. pose proof Ha as (Hla & Hle & Hlt & Hw & Hz). rewrite decide_True by lia.
  eexists. split; [done|]. split; [done|]. destruct Hf as (argv' & eargv' & l & Ec & _ & Ho). cbn [pred s_cmds set_cmds].
  assert (Hins : forall x, <[length pre := x]> (s_cmds sh) = pre ++ x :: l).
  { intros x. rewrite Ec, insert_app_r_alt, Nat.sub_diag by lia. done. }
  eexists _, _, l. cbn [s_cmds set_cmds]. split; [apply Hins|]. split; [|apply (over_insert word _ _ (S (length pre))); [lia|done]].
  unfold args_repr. rewrite !length_insert. split; [done|]. split; [done|]. split; [done|]. split.
  - intros i w Hi. pose proof (lookup_lt_Some _ _ _ Hi). rewrite !list_lookup_insert_ne by lia. by apply Hw.
  - intros i Hi. destruct (decide (i = length args)) as [->|]; [apply list_lookup_insert_eq; lia|]. rewrite list_lookup_insert_ne by lia. by apply Hz.
Qed.

Lemma set_arg_run pre sh p args rs q e :
  filling pre sh p args rs -> exists sh', set_arg (S (length pre)) (length args) q e sh = Ok tt sh'.
Proof using Type.
  intros Hf. destruct (filling_node _ _ _ _ _ Hf) as (argv & eargv & E & Hla & _ & Hlt & _). unfold set_arg, get.
  rewrite (bind_ok _ _ _ sh sh) by done. rewrite E, decide_True by lia. by eexists.
Qed.

(** A word has kind 97, a symbol another kind that is not 0. *)
Lemma kind_sym q e c : tok_at m es q (TSym c) e -> c ≠ 97 /\ c ≠ 0.
Proof. intros (_ & _ & _ & H). split; intros ->; destruct H as [|[[? _]|]]; done. Qed.

Lemma filling_same pre sh sh' p args rs : sh'.(s_cmds) = sh.(s_cmds) -> filling pre sh p args rs -> filling pre sh' p args rs.
Proof. intros E. unfold filling. by rewrite E. Qed.

Lemma exec_loop_good pre fuel k ts args rs p sh :
  good sh ts -> filling pre sh p args rs -> (length ts <= fuel)%nat -> (length ts <= k)%nat ->
  match pargs k ts args rs with
  | POk a ts' => exists p' sh', exec_loop can_alloc fuel (S (length pre)) p (length args) es sh = Ok (p', length a.1) sh' /\ good sh' ts' /\
                   filling pre sh' p' a.1 a.2
  | PErr msg => exec_loop can_alloc fuel (S (length pre)) p (length args) es sh = Panic msg
  | PMore => False
  end.
Proof using Halloc Hlo Hes.
  revert k ts args rs p sh. induction fuel as [|f IH]; intros k ts args rs p sh Hg Hf Hfu Hk;
    (destruct (peek_good sh "|)&;" ts Hg eq_refl) as (sh1 & E1 & Hg1 & Ec1 & _)); unfold exec_loop; fold (exec_loop can_alloc);
    rewrite (bind_ok _ _ _ _ _ E1); pose proof (filling_same _ _ _ _ _ _ Ec1 Hf) as Hf1;
    (destruct k as [|k]; cbn [pargs]); (destruct (next_in "|)&;" ts) eqn:En; [by exists p, sh1|]);
    (destruct ts as [|[x|w] ts1]; [destruct (gettoken_none _ Hg1) as (q & e & sh2 & E2 & Hg2 & Ec2); rewrite (bind_ok _ _ _ _ _ E2);
       exists p, sh2; split; [done|]; split; [done|]; exact (filling_same _ _ _ _ _ _ Ec2 Hf1)| |]); cbn [length] in Hfu, Hk; try lia.
  - destruct (gettoken_good _ _ _ Hg1) as (q & e & sh2 & E2 & Hg2 & Ec2 & Ht & _). rewrite (bind_ok _ _ _ _ _ E2). cbn [kind].
    destruct (kind_sym _ _ _ Ht) as [H97 H0]. apply Z.eqb_neq in H97, H0. by rewrite H97, H0.
  - destruct (gettoken_good _ _ _ Hg1) as (q & e & sh2 & E2 & Hg2 & Ec2 & Ht & Hq). rewrite (bind_ok _ _ _ _ _ E2). cbn [kind].
    change (97 =? 0) with false. change (negb (97 =? 97)) with false. cbn iota. pose proof (filling_same _ _ _ _ _ _ Ec2 Hf1) as Hf2.
    destruct (Nat.leb_spec MAXARGS (S (length args))) as [Hm|Hm].
    + destruct (set_arg_run _ _ _ _ _ q e Hf2) as (sh3 & E3). by rewrite (bind_ok _ _ _ _ _ E3).
    + destruct (set_arg_good pre sh2 p args rs q e w ts1 Hg2 Hf2 Hm ltac:(lia) (conj Hq Ht)) as (sh3 & E3 & Hg3 & Hf3). rewrite (bind_ok _ _ _ _ _ E3).
      assert (Ho3 : over word (s_cmds sh3) p (S (length pre)) rs) by (by destruct Hf3 as (? & ? & ? & _ & _ & ?)).
      assert (Hle : (S (length pre) <= length (s_cmds sh3))%nat).
      { destruct Hf3 as (? & ? & ? & -> & _). rewrite length_app. cbn. lia. }
      pose proof (parseredirs_good (S (length pre)) ts1 rs p sh3 Hg3 Ho3 Hle) as Hp. pose proof (predirs_shorter ts1 rs) as Hs.
      destruct (predirs ts1 rs) as [rs' ts'|msg|]; cbn [pbind]; [|by rewrite (bind_panic _ _ _ _ Hp)|done].
      destruct Hp as (p' & sh4 & E4 & Hg4 & Hgr & Ho4). rewrite (bind_ok _ _ _ _ _ E4). cbn [shorter] in Hs.
      pose proof (filling_grows _ _ _ _ _ _ _ _ Hf3 Hgr Ho4) as Hf4.
      specialize (IH k ts' (args ++ [w]) rs' p' sh4 Hg4 Hf4 ltac:(lia) ltac:(lia)). rewrite length_app, Nat.add_1_r in IH. exact IH.
Qed.

Lemma next_is x toks ts : bytes toks = [x] -> x ≠ 62 -> x ≠ 43 -> next_in toks ts = match is_sym x ts with Some _ => true | None => false end.
Proof.
  intros E H1 H2. destruct ts as [|[c|w] ts]; [done| |done]. cbn [next_in is_sym]. rewrite E. unfold strchr. cbn [existsb]. rewrite orb_false_r.
  destruct (Z.eqb_spec c 43) as [->|Hc].
  - apply Z.eqb_neq in H1, H2. rewrite H1, (Z.eqb_sym 43), H2. done.
  - rewrite (Z.eqb_sym x). by destruct (c =? x).
Qed.

Lemma is_sym_cons x ts ts1 : is_sym x ts = Some ts1 -> ts = TSym x :: ts1.
Proof. destruct ts as [|[c|w] ts]; cbn; try done. destruct (Z.eqb_spec c x) as [->|]; [|done]. by intros [= ->]. Qed.

(** peek for one symbol and gettoken when it is there. *)
Lemma peek_sym sh x toks ts :
  good sh ts -> bytes toks = [x] -> x ≠ 62 -> x ≠ 43 -> strchr symbols x = true ->
  exists sh', peek es toks sh = Ok (match is_sym x ts with Some _ => true | None => false end) sh' /\ good sh' ts /\ sh'.(s_cmds) = sh.(s_cmds) /\
    forall ts1, is_sym x ts = Some ts1 -> exists v sh2, gettoken es sh' = Ok v sh2 /\ good sh2 ts1 /\ sh2.(s_cmds) = sh.(s_cmds).
Proof using Hes Hlo.
  intros Hg Hb H1 H2 Hs. destruct (peek_good sh toks ts Hg) as (sh' & E & Hg' & Ec & _); [by rewrite Hb; cbn [forallb]; rewrite Hs|].
  exists sh'. rewrite (next_is x) in E by done. split; [done|]. split; [done|]. split; [done|]. intros ts1 ->%is_sym_cons.
  destruct (gettoken_good _ _ _ Hg') as (q & e & sh2 & E2 & Hg2 & Ec2 & _). exists (x, q, e), sh2. split; [done|]. split; [done|congruence].
Qed.

(** The outcome of a parsing function against that of the grammar. *)
Definition parsed (sh : shell) (r : res shell nat) (pr : pres tree) : Prop :=
  match pr with
  | POk t ts => exists p sh', r = Ok p sh' /\ good sh' ts /\ grows sh sh' /\ repr word sh'.(s_cmds) p t
  | PErr msg => r = Panic msg
  | PMore => True
  end.

Lemma repr_le cmds p t : repr word cmds p t -> (p <= length cmds)%nat.
Proof. destruct t; cbn [repr]; intros; repeat match goal with H : exists _, _ |- _ => destruct H | H : _ /\ _ |- _ => destruct H end; by eapply node_le. Qed.

(** A bind whose first part has been parsed. *)
Lemma parsed_bind sh c (k : nat -> M shell nat) pr f :
  parsed sh (c sh) pr ->
  (forall t ts p sh', good sh' ts -> grows sh sh' -> repr word sh'.(s_cmds) p t -> parsed sh (k p sh') (f t ts)) ->
  parsed sh ((x ← c; k x) sh) (pbind f pr).
Proof using Type.
  destruct pr as [t ts|msg|]; cbn [parsed pbind]; [|intros E _; by apply bind_panic|done].
  intros (p & sh' & E & Hg & Hgr & Hr) H. rewrite (bind_ok _ _ _ _ _ E). by apply H.
Qed.

Lemma parsed_grows sh sh' r pr : grows sh sh' -> parsed sh' r pr -> parsed sh r pr.
Proof. intros H. destruct pr; cbn; try done. intros (p & s & E & Hg & Hgr & Hr). exists p, s. split; [done|]. split; [done|]. split; [by eapply grows_trans|done]. Qed.

(** Returning a command that is there, and a new one. *)
Lemma parsed_ret sh sh' p t ts : good sh' ts -> grows sh sh' -> repr word sh'.(s_cmds) p t -> parsed sh (Ok p sh') (POk t ts).
Proof. intros. by exists p, sh'. Qed.

Lemma parsed_new sh sh' c t ts :
  good sh' ts -> grows sh sh' -> repr word (sh'.(s_cmds) ++ [c]) (S (length sh'.(s_cmds))) t -> parsed sh (new_cmd can_alloc c sh') (POk t ts).
Proof using Halloc.
  intros Hg Hgr Hr. rewrite new_cmd_run. apply parsed_ret; [done| |done]. eapply grows_trans; [exact Hgr|]. by exists [c].
Qed.

Lemma grows_repr sh sh' p t : grows sh sh' -> repr word sh.(s_cmds) p t -> repr word sh'.(s_cmds) p t.
Proof. intros [l ->]. apply repr_app. Qed.

Lemma repr_back cmds p t : repr word cmds p t -> repr word (cmds ++ [BACK p]) (S (length cmds)) (Back t).
Proof. intros H. exists p. split; [apply node_last|]. split; [apply repr_le in H; lia|by apply repr_app]. Qed.
Lemma repr_pipe cmds p q t u : repr word cmds p t -> repr word cmds q u -> repr word (cmds ++ [PIPE p q]) (S (length cmds)) (Pipe t u).
Proof.
  intros H H'. exists p, q. split; [apply node_last|]. pose proof (repr_le _ _ _ H). pose proof (repr_le _ _ _ H').
  split; [lia|]. split; [lia|]. split; by apply repr_app.
Qed.
Lemma repr_list cmds p q t u : repr word cmds p t -> repr word cmds q u -> repr word (cmds ++ [LIST p q]) (S (length cmds)) (List t u).
Proof.
  intros H H'. exists p, q. split; [apply node_last|]. pose proof (repr_le _ _ _ H). pose proof (repr_le _ _ _ H').
  split; [lia|]. split; [lia|]. split; by apply repr_app.
Qed.

Lemma back_loop_good fuel ts t p sh :
  good sh ts -> repr word sh.(s_cmds) p t -> (length ts <= fuel)%nat ->
  exists p' sh', back_loop can_alloc fuel p es sh = Ok p' sh' /\ good sh' (pbacks ts t).2 /\ grows sh sh' /\ repr word sh'.(s_cmds) p' (pbacks ts t).1.
Proof using Halloc Hlo Hes.
  revert ts t p sh. induction fuel as [|f IH]; intros ts t p sh Hg Hr Hf;
    (destruct (peek_sym sh 38 "&" ts Hg) as (sh1 & E1 & Hg1 & Ec1 & Hs1); [done..|]); unfold back_loop; fold (back_loop can_alloc);
    rewrite (bind_ok _ _ _ _ _ E1).
  - destruct ts; [|cbn in Hf; lia]. exists p, sh1. split; [done|]. split; [done|]. split; [by apply grows_refl|]. cbn. by rewrite Ec1.
  - destruct ts as [|[c|w] ts1]; cbn [is_sym pbacks] in *.
    1,3: exists p, sh1; split; [done|]; split; [done|]; split; [by apply grows_refl|]; cbn; by rewrite Ec1.
    destruct (c =? 38); [|exists p, sh1; split; [done|]; split; [done|]; split; [by apply grows_refl|]; cbn; by rewrite Ec1].
    destruct (Hs1 ts1 eq_refl) as (v & sh2 & E2 & Hg2 & Ec2). rewrite (bind_ok _ _ _ _ _ E2). unfold backcmd.
    rewrite (bind_ok _ _ _ _ _ (new_cmd_run _ _)).
    destruct (IH ts1 (Back t) (S (length (s_cmds sh2))) (set_cmds (s_cmds sh2 ++ [BACK p]) sh2)) as (p' & sh' & E & Hg' & Hgr & Hr').
    + done.
    + apply repr_back. by rewrite Ec2.
    + cbn [length] in Hf. lia.
    + exists p', sh'. split; [done|]. split; [done|]. split; [|done]. eapply grows_trans; [|exact Hgr]. exists [BACK p]. cbn. by rewrite Ec2.
Qed.

Lemma exec_good sh sh1 ts :
  good sh1 ts -> sh1.(s_cmds) = sh.(s_cmds) ->
  parsed sh ((cmd ← execcmd can_alloc; ret ← parseredirs can_alloc cmd es; n ← left_bytes es;
              r ← exec_loop can_alloc n cmd ret 0 es; set_arg cmd r.2 0 0 ;; mret r.1) sh1)
    (pbind (fun rs ts1 => pbind (fun a ts2 => POk (wrap a.2 (Exec a.1)) ts2) (pargs (length ts1) ts1 [] rs)) (predirs ts [])).
Proof using Halloc Hlo Hes.
  intros Hg Ec. unfold execcmd. rewrite (bind_ok _ _ _ _ _ (new_cmd_run _ _)). set (pre := s_cmds sh1). set (c := EXEC _ _).
  set (sh2 := set_cmds (pre ++ [c]) sh1).
  assert (Hf : filling pre sh2 (S (length pre)) [] []).
  { eexists _, _, []. split; [done|]. split; [|done]. unfold args_repr. rewrite !length_replicate. split; [done|]. split; [done|].
    split; [unfold MAXARGS; cbn; lia|]. split; [done|]. intros i Hi. apply lookup_replicate_2. lia. }
  assert (Hle : (S (length pre) <= length (s_cmds sh2))%nat) by (cbn; rewrite length_app; cbn; lia).
  pose proof (parseredirs_good (S (length pre)) ts [] (S (length pre)) sh2 Hg eq_refl Hle) as Hp.
  destruct (predirs ts []) as [rs ts1|msg|]; cbn [pbind]; [|by apply bind_panic|done].
  destruct Hp as (p & sh3 & E3 & Hg3 & Hgr & Ho). rewrite (bind_ok _ _ _ _ _ E3).
  pose proof (filling_grows _ _ _ _ _ _ _ _ Hf Hgr Ho) as Hf3.
  destruct (left_bytes_run sh3 ts1 Hg3) as (n & Hn & En). rewrite (bind_ok _ _ _ _ _ En).
  pose proof (exec_loop_good pre n (length ts1) ts1 [] rs p sh3 Hg3 Hf3 ltac:(lia) ltac:(lia)) as He. cbn [length] in He.
  destruct (pargs (length ts1) ts1 [] rs) as [[args rs'] ts2|msg|]; cbn [pbind fst snd] in *; [|by apply bind_panic|done].
  destruct He as (p' & sh4 & E4 & Hg4 & Hf4). rewrite (bind_ok _ _ _ _ _ E4). cbn [fst snd].
  destruct (set_arg_end _ _ _ _ _ _ Hg4 Hf4) as (sh5 & E5 & Hg5 & Hf5). rewrite (bind_ok _ _ _ _ _ E5).
  destruct Hf5 as (argv & eargv & l & E & Ha & Ho5). apply parsed_ret; [done| |].
  - exists (EXEC argv eargv :: l). by rewrite E, <- Ec.
  - apply (over_repr word _ _ (S (length pre))); [done|]. exists argv, eargv. split; [|done]. cbn. rewrite E. by apply list_lookup_middle.
Qed.

Lemma parse_refines fuel :
  (forall sh ts, good sh ts -> parsed sh (parseline can_alloc fuel es sh) (pline fuel ts)) /\
  (forall sh ts, good sh ts -> parsed sh (parsepipe can_alloc fuel es sh) (ppipe fuel ts)) /\
  (forall sh ts, good sh ts -> parsed sh (parseexec can_alloc fuel es sh) (pexec fuel ts)) /\
  (forall sh ts, good sh ts -> parsed sh (parseblock can_alloc fuel es sh) (pblock fuel ts)).
Proof using Halloc Hlo Hes.
  induction fuel as [|f (IH1 & IH2 & IH3 & IH4)]; [by split; [|split; [|split]]; intros|].
  split; [|split; [|split]]; intros sh ts Hg; cbn [parseline parsepipe parseexec parseblock pline ppipe pexec pblock].
  - apply parsed_bind; [by apply IH2|]. intros t ts1 p sh1 Hg1 Hgr1 Hr1.
    destruct (left_bytes_run sh1 ts1 Hg1) as (n & Hn & En). rewrite (bind_ok _ _ _ _ _ En).
    destruct (back_loop_good n ts1 t p sh1 Hg1 Hr1 ltac:(lia)) as (p2 & sh2 & E2 & Hg2 & Hgr2 & Hr2). rewrite (bind_ok _ _ _ _ _ E2).
    destruct (pbacks ts1 t) as [t2 ts2]. cbn [fst snd] in *. pose proof (grows_trans _ _ _ Hgr1 Hgr2) as Hgr.
    destruct (peek_sym sh2 59 ";" ts2 Hg2) as (sh3 & E3 & Hg3 & Ec3 & Hs3); [done..|]. rewrite (bind_ok _ _ _ _ _ E3).
    pose proof (grows_trans _ _ _ Hgr (grows_refl _ _ Ec3)) as Hgr3.
    destruct (is_sym 59 ts2) as [ts3|]; [|apply parsed_ret; [done|done|by rewrite Ec3]].
    destruct (Hs3 ts3 eq_refl) as (v & sh4 & E4 & Hg4 & Ec4). rewrite (bind_ok _ _ _ _ _ E4).
    apply (parsed_grows _ sh4); [eapply grows_trans; [exact Hgr|by apply grows_refl]|].
    apply parsed_bind; [by apply IH1|]. intros t5 ts5 p5 sh5 Hg5 Hgr5 Hr5. apply parsed_new; [done|done|]. apply repr_list; [|done].
    eapply grows_repr; [exact Hgr5|]. by rewrite Ec4.
  - apply parsed_bind; [by apply IH3|]. intros t ts1 p sh1 Hg1 Hgr1 Hr1.
    destruct (peek_sym sh1 124 "|" ts1 Hg1) as (sh3 & E3 & Hg3 & Ec3 & Hs3); [done..|]. rewrite (bind_ok _ _ _ _ _ E3).
    destruct (is_sym 124 ts1) as [ts3|]; [|apply parsed_ret; [done|eapply grows_trans; [exact Hgr1|by apply grows_refl]|by rewrite Ec3]].
    destruct (Hs3 ts3 eq_refl) as (v & sh4 & E4 & Hg4 & Ec4). rewrite (bind_ok _ _ _ _ _ E4).
    apply (parsed_grows _ sh4); [eapply grows_trans; [exact Hgr1|by apply grows_refl]|].
    apply parsed_bind; [by apply IH2|]. intros t5 ts5 p5 sh5 Hg5 Hgr5 Hr5. apply parsed_new; [done|done|]. apply repr_pipe; [|done].
    eapply grows_repr; [exact Hgr5|]. by rewrite Ec4.
  - destruct (peek_sym sh 40 "(" ts Hg) as (sh1 & E1 & Hg1 & Ec1 & _); [done..|]. rewrite (bind_ok _ _ _ _ _ E1).
    destruct (is_sym 40 ts); [|by apply exec_good]. apply (parsed_grows _ sh1); [by apply grows_refl|]. by apply IH4.
  - destruct (peek_sym sh 40 "(" ts Hg) as (sh1 & E1 & Hg1 & Ec1 & Hs1); [done..|]. rewrite (bind_ok _ _ _ _ _ E1).
    destruct (is_sym 40 ts) as [ts1|]; [|done]. destruct (Hs1 ts1 eq_refl) as (v & sh2 & E2 & Hg2 & Ec2). cbn [negb]. rewrite (bind_ok _ _ _ _ _ E2).
    apply (parsed_grows _ sh2); [by apply grows_refl|]. apply parsed_bind; [by apply IH1|]. intros t ts3 p sh3 Hg3 Hgr3 Hr3.
    destruct (peek_sym sh3 41 ")" ts3 Hg3) as (sh4 & E4 & Hg4 & Ec4 & Hs4); [done..|]. rewrite (bind_ok _ _ _ _ _ E4).
    destruct (is_sym 41 ts3) as [ts4|]; [|done]. destruct (Hs4 ts4 eq_refl) as (v' & sh5 & E5 & Hg5 & Ec5). cbn [negb]. rewrite (bind_ok _ _ _ _ _ E5).
    pose proof (parseredirs_good p ts4 [] p sh5 Hg5 eq_refl ltac:(rewrite Ec5; by eapply repr_le)) as Hp.
    destruct (predirs ts4 []) as [rs ts6|msg|]; cbn [pbind]; [|done|done]. destruct Hp as (p' & sh6 & E6 & Hg6 & Hgr6 & Ho6).
    exists p', sh6. split; [done|]. split; [done|]. split.
    + eapply grows_trans; [exact Hgr3|]. eapply grows_trans; [by apply (grows_refl _ sh5)|done].
    + apply (over_repr word _ _ p); [done|]. eapply grows_repr; [exact Hgr6|]. by rewrite Ec5.
Qed.
End refine.
