(* ===== verification/ShSpec.v ===== *)
(** * The shell's parser: termination and round trip

    parsecmd returns on every line, with a command or one of its error messages, and
    reads back every command that is printed with the parentheses it needs. *)

From Stdlib Require Import ZArith Lia.
From stdpp Require Import base numbers list strings.
From S2P Require Import Types Mem Str Usys Ulib Uprintf Prelude Sh ShLex ShParse ShPrint ShRefine.
Open Scope Z_scope.

(** ** Reading a command from memory *)

(** The tree that a pointer to a command stands for; the strings end at their NULs. *)
Fixpoint tree_of (fuel n : nat) (sh : shell) (p : nat) : option tree :=
  match fuel with
  | O => None
  | S f =>
      match cmd_at sh p with
      | Some (EXEC argv _) => Some (Exec (args_of n sh.(s_mem) argv))
      | Some (REDIR c file _ mode fd) => t ← tree_of f n sh c; Some (Redir (mkredir (read_str n sh.(s_mem) file) mode fd) t)
      | Some (PIPE l r) => a ← tree_of f n sh l; b ← tree_of f n sh r; Some (Pipe a b)
      | Some (LIST l r) => a ← tree_of f n sh l; b ← tree_of f n sh r; Some (List a b)
      | Some (BACK c) => t ← tree_of f n sh c; Some (Back t)
      | None => None
      end
  end.

Lemma repr_mono (W W' : Z -> Z -> list Z -> Prop) cmds p t :
  (forall q e w, W q e w -> W' q e w) -> repr W cmds p t -> repr W' cmds p t.
Proof.
  intros HW. revert p. induction t as [args|r t IH|a IHa b IHb|a IHa b IHb|t IH]; intros p; cbn [repr].
  - intros (argv & eargv & H & H1 & H2 & H3 & H4 & H5). exists argv, eargv. repeat (split; [done|]). split; [|done].
    intros i w Hi. destruct (H4 i w Hi) as (q & e & ? & ? & ? & ?). exists q, e. auto.
  - intros (c & q & e & H & Hc & Hq & Hw & Hr). exists c, q, e. repeat (split; [by auto|]). by apply IH.
  - intros (x & y & H & H1 & H2 & H3 & H4). exists x, y. auto 10.
  - intros (x & y & H & H1 & H2 & H3 & H4). exists x, y. auto 10.
  - intros (c & H & Hc & Hr). exists c. auto.
Qed.

(** ** nulterminate *)

Section nul.
Context (m : mem) (lo es : Z).

Abbreviation word := (word m lo es).

(** Only delimiters have been overwritten, with NULs. *)
Definition nul (m' : mem) : Prop := forall x, m' x = m x \/ (m' x = 0 /\ (x = es \/ word_char (m x) = false)).
Definition keeps (m1 m2 : mem) : Prop := forall x, m1 x = 0 -> m2 x = 0.
Definition ended (m' : mem) (q e : Z) (w : list Z) : Prop := word q e w /\ m' e = 0.

Lemma nul_write m' q e w : nul m' -> word q e w -> nul (upd m' e 0) /\ keeps m' (upd m' e 0) /\ upd m' e 0 e = 0.
Proof.
  intros Hn (_ & _ & _ & _ & _ & _ & He). split; [|split].
  - intros x. destruct (decide (x = e)) as [->|Hx]; [rewrite upd_eq; by right|rewrite upd_ne by done; apply Hn].
  - intros x H0. destruct (decide (x = e)) as [->|Hx]; [apply upd_eq|by rewrite upd_ne].
  - apply upd_eq.
Qed.

Lemma ended_keeps m1 m2 q e w : keeps m1 m2 -> ended m1 q e w -> ended m2 q e w.
Proof. intros H [Hw H0]. split; [done|by apply H]. Qed.

Lemma nul_args_good args argv eargv sh :
  (length args < length argv)%nat -> length eargv = length argv ->
  (forall i w, args !! i = Some w -> exists q e, argv !! i = Some q /\ eargv !! i = Some e /\ 0 < q /\ word q e w) ->
  argv !! length args = Some 0 -> nul sh.(s_mem) ->
  exists m2, nul_args argv eargv sh = Ok tt (set_smem m2 sh) /\ nul m2 /\ keeps sh.(s_mem) m2 /\
    (forall i w, args !! i = Some w -> exists q e, argv !! i = Some q /\ eargv !! i = Some e /\ 0 < q /\ ended m2 q e w).
Proof.
  revert argv eargv sh. induction args as [|w args IH]; intros argv eargv sh Hl Hle Hw H0 Hn.
  - destruct argv as [|a argv]; [cbn in Hl; lia|]. destruct eargv as [|e eargv]; [done|]. injection H0 as ->.
    exists sh.(s_mem). split; [by destruct sh|]. split; [done|]. split; [by intros x|done].
  - destruct (Hw 0%nat w eq_refl) as (q & e & Hq & He & Hq0 & Hwd). destruct argv as [|a argv]; [done|]. destruct eargv as [|e' eargv]; [done|].
    injection Hq as ->. injection He as ->. cbn [nul_args]. assert (q ≠ 0) as E0%Z.eqb_neq by lia. rewrite E0. rewrite bind_modify.
    destruct (nul_write _ _ _ _ Hn Hwd) as (Hn1 & Hk1 & He1).
    destruct (IH argv eargv (set_smem (upd sh.(s_mem) e 0) sh)) as (m2 & E & Hn2 & Hk2 & Hw2); [cbn in Hl; lia|by injection Hle| |done|done|].
    { intros i w' Hi. by apply (Hw (S i) w'). }
    exists m2. split; [exact E|]. split; [done|]. split; [intros x Hx; by apply Hk2, Hk1|].
    intros [|i] w' Hi; [|by apply Hw2]. injection Hi as <-. exists q, e. split; [done|]. split; [done|]. split; [done|].
    split; [done|]. apply Hk2. cbn. exact He1.
Qed.

Lemma nulterminate_good fuel p t sh :
  repr word sh.(s_cmds) p t -> (p < fuel)%nat -> nul sh.(s_mem) ->
  exists m2, nulterminate fuel p sh = Ok tt (set_smem m2 sh) /\ nul m2 /\ keeps sh.(s_mem) m2 /\ repr (ended m2) sh.(s_cmds) p t.
Proof.
  revert p sh fuel. induction t as [args|r t IH|a IHa b IHb|a IHa b IHb|t IH]; intros p sh fuel Hr Hf Hn;
    (destruct fuel as [|f]; [lia|]); cbn [repr] in Hr; cbn [nulterminate]; unfold get; rewrite (bind_ok _ _ _ sh sh) by done.
  - destruct Hr as (argv & eargv & H & H1 & H2 & H3 & H4 & H5). change (cmd_at sh p) with (node (s_cmds sh) p). rewrite H.
    destruct (nul_args_good args argv eargv sh) as (m2 & E & Hn2 & Hk & Hw); try done; [lia|lia|apply H5; lia|].
    exists m2. split; [done|]. split; [done|]. split; [done|]. exists argv, eargv. by repeat (split; [done|]).
  - destruct Hr as (c & q & e & H & Hc & Hq & Hw & Hr). change (cmd_at sh p) with (node (s_cmds sh) p). rewrite H.
    destruct (IH c sh f Hr ltac:(lia) Hn) as (m1 & E & Hn1 & Hk1 & Hr1). rewrite (bind_ok _ _ _ _ _ E).
    destruct (nul_write _ _ _ _ Hn1 Hw) as (Hn2 & Hk2 & He2). exists (upd m1 e 0). split; [done|]. split; [done|].
    split; [intros x Hx; by apply Hk2, Hk1|]. exists c, q, e. repeat (split; [done|]).
    eapply repr_mono; [|exact Hr1]. intros q' e' w'. by apply ended_keeps.
  - destruct Hr as (x & y & H & H1 & H2 & H3 & H4). change (cmd_at sh p) with (node (s_cmds sh) p). rewrite H.
    destruct (IHa x sh f H3 ltac:(lia) Hn) as (m1 & E & Hn1 & Hk1 & Hr1). rewrite (bind_ok _ _ _ _ _ E).
    destruct (IHb y (set_smem m1 sh) f H4 ltac:(lia) Hn1) as (m2 & E2 & Hn2 & Hk2 & Hr2). exists m2. split; [exact E2|]. split; [done|].
    split; [intros z Hz; by apply Hk2, Hk1|]. exists x, y. repeat (split; [done|]). split; [|done].
    eapply repr_mono; [|exact Hr1]. intros q' e' w'. by apply ended_keeps.
  - destruct Hr as (x & y & H & H1 & H2 & H3 & H4). change (cmd_at sh p) with (node (s_cmds sh) p). rewrite H.
    destruct (IHa x sh f H3 ltac:(lia) Hn) as (m1 & E & Hn1 & Hk1 & Hr1). rewrite (bind_ok _ _ _ _ _ E).
    destruct (IHb y (set_smem m1 sh) f H4 ltac:(lia) Hn1) as (m2 & E2 & Hn2 & Hk2 & Hr2). exists m2. split; [exact E2|]. split; [done|].
    split; [intros z Hz; by apply Hk2, Hk1|]. exists x, y. repeat (split; [done|]). split; [|done].
    eapply repr_mono; [|exact Hr1]. intros q' e' w'. by apply ended_keeps.
  - destruct Hr as (c & H & Hc & Hr). change (cmd_at sh p) with (node (s_cmds sh) p). rewrite H.
    destruct (IH c sh f Hr ltac:(lia) Hn) as (m1 & E & Hn1 & Hk1 & Hr1). exists m1. split; [exact E|]. split; [done|]. split; [done|]. by exists c.
Qed.
End nul.

(** ** The tree after nulterminate *)

Lemma read_holds m q w n :
  holds m q w -> Forall (fun c => c ≠ 0) w -> m (q + Z.of_nat (length w)) = 0 -> (length w < n)%nat -> read_str n m q = w.
Proof.
  revert q n. induction w as [|c w IH]; intros q n Hh Hf H0 Hlen; (destruct n as [|n]; [lia|]); cbn [read_str length] in *.
  - rewrite Z.add_0_r in H0. by rewrite H0.
  - destruct Hh as [-> Hh]. apply Forall_cons in Hf as [Hc%Z.eqb_neq Hf]. rewrite Hc. f_equal. apply IH; [done|done| |lia].
    rewrite <- H0. f_equal. lia.
Qed.

Lemma word_intact m es m' q w : nul m es m' -> holds m q w -> Forall wordc w -> q + Z.of_nat (length w) <= es -> holds m' q w.
Proof.
  intros Hn. revert q. induction w as [|c w IH]; intros q Hh Hf Hle; [done|]. destruct Hh as [Hc Hh]. apply Forall_cons in Hf as [[Hw _] Hf].
  cbn [length] in Hle. split; [|apply IH; [done|done|lia]]. destruct (Hn q) as [->|[_ [Hx|Hx]]]; [done|lia|]. rewrite Hc, Hw in Hx. done.
Qed.

Lemma read_word m lo es m' q e w n : nul m es m' -> ended m lo es m' q e w -> (length w < n)%nat -> read_str n m' q = w.
Proof.
  intros Hn [(_ & Hh & -> & Hle & _ & Hf & _) H0] Hlen. cbn [text] in *. apply read_holds; [|by eapply Forall_impl; [exact Hf|intros c []]|done|done].
  eapply word_intact; [done|done|done|lia].
Qed.

Lemma word_short m lo es m' q e w n : ended m lo es m' q e w -> (Z.to_nat (es - lo) < n)%nat -> (length w < n)%nat.
Proof. intros [(Hq & _ & -> & Hle & _) _] Hn. cbn [text] in *. lia. Qed.

Lemma args_of_repr m lo es m' argv eargv args n :
  nul m es m' -> args_repr (ended m lo es m') argv eargv args -> (Z.to_nat (es - lo) < n)%nat -> args_of n m' argv = args.
Proof.
  intros Hn (H1 & _ & H3 & H4 & H5) Hle. assert (H0 : argv !! length args = Some 0) by (apply H5; lia). clear H1 H3 H5.
  revert argv eargv H4 H0. induction args as [|w args IH]; intros argv eargv H4 H0.
  - destruct argv as [|a argv]; [done|]. injection H0 as ->. done.
  - destruct (H4 0%nat w eq_refl) as (q & e & Hq & He & Hq0 & Hw). destruct argv as [|a argv]; [done|]. injection Hq as ->.
    destruct eargv as [|e' eargv]; [done|]. cbn [args_of]. assert (q ≠ 0) as E0%Z.eqb_neq by lia. rewrite E0. f_equal.
    + eapply read_word; [done|done|by eapply word_short].
    + apply (IH argv eargv); [|done]. intros i w' Hi. by apply (H4 (S i) w').
Qed.

Lemma tree_of_repr m lo es sh p t fuel n :
  nul m es sh.(s_mem) -> repr (ended m lo es sh.(s_mem)) sh.(s_cmds) p t -> (p < fuel)%nat -> (Z.to_nat (es - lo) < n)%nat ->
  tree_of fuel n sh p = Some t.
Proof.
  intros Hn Hr Hf Hle. revert p fuel Hr Hf. induction t as [args|r t IH|a IHa b IHb|a IHa b IHb|t IH]; intros p fuel Hr Hf;
    (destruct fuel as [|f]; [lia|]); cbn [repr tree_of] in *; change (cmd_at sh p) with (node (s_cmds sh) p).
  - destruct Hr as (argv & eargv & H & Ha). rewrite H. f_equal. f_equal. by eapply args_of_repr.
  - destruct Hr as (c & q & e & H & Hc & Hq & Hw & Hr). rewrite H, (IH c f Hr) by lia. cbn.
    rewrite (read_word m lo es _ q e r.(r_file)); [by destruct r|done|done|by eapply word_short].
  - destruct Hr as (x & y & H & H1 & H2 & H3 & H4). rewrite H, (IHa x f H3), (IHb y f H4) by lia. done.
  - destruct Hr as (x & y & H & H1 & H2 & H3 & H4). rewrite H, (IHa x f H3), (IHb y f H4) by lia. done.
  - destruct Hr as (c & H & Hc & Hr). rewrite H, (IH c f Hr) by lia. done.
Qed.

(** ** parsecmd *)

Lemma strlen_run n fuel m s :
  (forall i, 0 <= i < Z.of_nat n -> m (s + i) ≠ 0) -> m (s + Z.of_nat n) = 0 -> (n < fuel)%nat -> strlen fuel m s = Some (Z.of_nat n).
Proof.
  revert fuel s. induction n as [|n IH]; intros fuel s Hi H0 Hf; (destruct fuel as [|f]; [lia|]); cbn [strlen].
  - rewrite Z.add_0_r in H0. by rewrite H0.
  - specialize (Hi 0 ltac:(lia)) as H. rewrite Z.add_0_r in H. apply Z.eqb_neq in H. rewrite H, (IH f (s + 1)).
    + cbn. f_equal. lia.
    + intros i Hr. replace (s + 1 + i) with (s + (i + 1)) by lia. apply Hi. lia.
    + rewrite <- H0. f_equal. lia.
    + lia.
Qed.

(** The grammar on a whole line. *)
Definition grammar (fuel : nat) (ts : list tok) : pres tree :=
  pbind (fun t rest => match rest with [] => POk t [] | _ => PErr "syntax" end) (pline fuel ts).

(** The line of [n] bytes at [s]. *)
Definition line_at (m : mem) (s : Z) (n : nat) : Prop :=
  0 < s /\ (forall i, 0 <= i < Z.of_nat n -> m (s + i) ≠ 0) /\ m (s + Z.of_nat n) = 0.

Lemma parse_all_run can_alloc sh s n len :
  line_at sh.(s_mem) s n -> (n < len)%nat -> let es := s + Z.of_nat n in
  parse_all can_alloc s len sh =
    (cmd ← parseline can_alloc (4 * n + 4) es; peek es EmptyString ;; s ← gets s_ps; mret (cmd, s, es)) (set_ps s sh).
Proof.
  intros (Hs & Hi & H0) Hlen es. unfold parse_all, get. rewrite (bind_ok _ _ _ sh sh) by done.
  rewrite (strlen_run n) by done. by rewrite bind_modify, Nat2Z.id.
Qed.

Lemma parsecmd_grammar can_alloc sh s n len ts :
  (forall k, can_alloc k = true) -> line_at sh.(s_mem) s n -> (n < len)%nat -> let es := s + Z.of_nat n in
  stream sh.(s_mem) es s ts ->
  match grammar (4 * n + 4) ts with
  | POk t _ => exists p sh', parsecmd can_alloc s len sh = Ok p sh' /\ forall k, (n < k)%nat -> tree_of (S p) k sh' p = Some t
  | PErr msg => parsecmd can_alloc s len sh = Panic msg
  | PMore => True
  end.
Proof.
  intros Ha Hline Hlen es Hst. pose proof (parse_all_run can_alloc sh s n len Hline Hlen) as Hall. fold es in Hall.
  destruct Hline as (Hs & Hi & H0). unfold parsecmd.
  assert (Hg : good sh.(s_mem) s es (set_ps s sh) ts) by done.
  pose proof (proj1 (parse_refines can_alloc Ha sh.(s_mem) s es Hs H0 (4 * n + 4)) _ _ Hg) as Hp. unfold grammar.
  destruct (pline (4 * n + 4) ts) as [t rest|msg|]; cbn [pbind parsed] in *; [|by rewrite (bind_panic _ _ _ _ Hp) in Hall; apply bind_panic|done].
  destruct Hp as (p & sh1 & E1 & Hg1 & _ & Hr1). 
  destruct (peek_good sh.(s_mem) s es Hs H0 sh1 EmptyString rest Hg1 eq_refl) as (sh2 & E2 & Hg2 & Ec2 & Hend).
  rewrite (bind_ok _ _ _ _ _ E1), (bind_ok _ _ _ _ _ E2) in Hall. rewrite (bind_ok _ _ _ _ _ Hall).
  destruct rest as [|t' rest].
  - rewrite (Hend eq_refl), Z.eqb_refl. cbn [negb]. mstep.
    destruct (nulterminate_good sh.(s_mem) s es (S (length (s_cmds sh2))) p t sh2) as (m2 & E3 & Hn & _ & Hr).
    + by rewrite Ec2.
    + rewrite Ec2. apply repr_le in Hr1. lia.
    + destruct Hg2 as [-> _]. intros x. by left.
    + rewrite (bind_ok _ _ _ _ _ E3). exists p, (set_smem m2 sh2). split; [done|]. intros k Hk. eapply tree_of_repr; [exact Hn|exact Hr|lia|lia].
  - assert (Hlt : s_ps sh2 ≠ es).
    { destruct Hg2 as (_ & Hs2 & _). inversion Hs2 as [|? e ? ? Hle (_ & _ & Ht & _) _]; subst.
      pose proof (skip_white_range sh.(s_mem) _ es Hle). lia. }
    apply Z.eqb_neq in Hlt. by rewrite Hlt.
Qed.

Lemma holds_at m s l i : holds m s l -> 0 <= i < Z.of_nat (length l) -> m (s + i) ∈ l.
Proof.
  revert s i. induction l as [|c l IH]; intros s i Hh Hi; [cbn in Hi; lia|]. destruct Hh as [Hc Hh]. cbn [length] in Hi.
  destruct (decide (i = 0)) as [->|]; [rewrite Z.add_0_r, Hc; by left|].
  right. replace (s + i) with (s + 1 + (i - 1)) by lia. apply IH; [done|lia].
Qed.

Lemma print_nonzero ts : Forall tok_ok ts -> Forall (fun c => c ≠ 0) (print_toks ts).
Proof.
  induction 1 as [|t ts Ht _ IH]; [constructor|]. change (print_toks (t :: ts)) with ((text t ++ [32]) ++ print_toks ts).
  apply Forall_app. split; [|done]. apply Forall_app. split; [|by repeat constructor].
  destruct t as [c|w]; cbn [text tok_ok] in *.
  - destruct (Z.eqb_spec c 43); [by repeat constructor|]. constructor; [|constructor]. intros ->. destruct Ht as [?|[?|?]]; done.
  - destruct Ht as [_ Hf]. eapply Forall_impl; [exact Hf|]. by intros c [].
Qed.

(** C29. The parser terminates on every line.  As long as malloc, whose result the
    constructors do not check, delivers memory: whatever the bytes, parsecmd returns a
    command that is well formed in memory, or exits with one of four error messages;
    it never loops, and never reads or writes outside argv and the commands it has
    made. *)
Theorem sh_parse_terminates can_alloc sh s n len :
  (forall k, can_alloc k = true) -> line_at sh.(s_mem) s n -> (n < len)%nat ->
  (exists p sh' t, parsecmd can_alloc s len sh = Ok p sh' /\ tree_of (S p) (S n) sh' p = Some t) \/
  (exists msg, parsecmd can_alloc s len sh = Panic msg /\ msg ∈ syntax_errors).
Proof.
  intros Ha Hline Hlen. pose proof Hline as (Hs & Hi & H0). set (es := s + Z.of_nat n).
  destruct (stream_total sh.(s_mem) es s) as (ts & Hts); [lia| |done|].
  { intros x Hx. replace x with (s + (x - s)) by lia. apply Hi. lia. }
  pose proof (parsecmd_grammar can_alloc sh s n len ts Ha Hline Hlen Hts) as Hp.
  pose proof (stream_length _ _ _ _ Hts) as Hl. pose proof (proj1 (grammar_shorter (4 * n + 4)) ts ltac:(lia)) as Hsh. unfold grammar in Hp.
  destruct (pline (4 * n + 4) ts) as [t rest|msg|]; cbn [pbind shorter] in *; [|right; by exists msg|done].
  destruct rest as [|t' rest]; [|right; exists "syntax"; split; [done|apply error_0]].
  destruct Hp as (p & sh' & E & Ht). left. exists p, sh', t. split; [done|]. apply Ht. lia.
Qed.

(** The text of a tree, followed by white space, is a line whose tokens the grammar
    reads as the tree. *)
Lemma printed_line m s t ws :
  tree_ok t -> 0 < s -> Forall (fun c => white c = true) ws -> let text := print_toks (show 0 t) ++ ws in
  holds m s (text ++ [0]) ->
  line_at m s (length text) /\ stream m (s + Z.of_nat (length text)) s (show 0 t) /\ grammar (4 * length text + 4) (show 0 t) = POk t [].
Proof.
  intros Hok Hs Hws text Hh. apply holds_app in Hh as [Hh [H0 _]]. pose proof (show_ok 0 t Hok) as Hto.
  pose proof (stream_text _ _ _ _ Hto Hws Hh) as Hst. fold text in Hst. split; [|split; [done|]].
  - split; [done|]. split; [|done]. intros i Hi. pose proof (holds_at _ _ _ i Hh Hi) as [Hin|Hin]%elem_of_app.
    + pose proof (print_nonzero _ Hto) as Hnz. rewrite Forall_forall in Hnz. by apply Hnz.
    + rewrite Forall_forall in Hws. specialize (Hws _ Hin). intros E. rewrite E in Hws. done.
  - pose proof (stream_length _ _ _ _ Hst). destruct (reads_all t Hok) as (_ & _ & _ & R0).
    specialize (R0 [] (4 * length text + 4)%nat). cbn beta zeta in R0. rewrite app_nil_r in R0. unfold grammar. rewrite R0 by (done || (by left) || lia). done.
Qed.

(** C5. Print and parse round trip.  As long as malloc delivers memory, every command tree whose words contain no white
    space or symbol and whose argument lists fit in argv, printed with the
    parentheses it needs and followed by any white space, is read back by parsecmd as
    the same tree. *)
Theorem sh_roundtrip can_alloc sh s t ws len :
  (forall k, can_alloc k = true) -> tree_ok t -> 0 < s -> Forall (fun c => white c = true) ws ->
  let text := print_toks (show 0 t) ++ ws in
  holds sh.(s_mem) s (text ++ [0]) -> (length text < len)%nat ->
  exists p sh', parsecmd can_alloc s len sh = Ok p sh' /\ tree_of (S p) (S (length text)) sh' p = Some t.
Proof.
  intros Ha Hok Hs Hws text Hh Hlen. destruct (printed_line _ _ _ _ Hok Hs Hws Hh) as (Hline & Hst & Hg). fold text in Hg.
  pose proof (parsecmd_grammar can_alloc sh s (length text) len _ Ha Hline Hlen Hst) as Hp. rewrite Hg in Hp.
  destruct Hp as (p & sh' & E & Ht). exists p, sh'. split; [done|]. apply Ht. lia.
Qed.

(** ** A line *)

Definition line_mem (s : Z) (l : list Z) : mem := fun a => nth (Z.to_nat (a - s)) l 0.
Definition demo_line : list Z := bytes "cat < in | (grep x; wc) >> out &".
Definition demo_tree : tree :=
  Back (Pipe (Redir (mkredir (bytes "in") O_RDONLY 0) (Exec [bytes "cat"]))
    (Redir (mkredir (bytes "out") O_APPEND 1) (List (Exec [bytes "grep"; bytes "x"]) (Exec [bytes "wc"])))).

Lemma sh_parse_terminates_witness :
  (exists p sh' t, parsecmd (fun _ => true) 256 100 (mkshell (line_mem 256 demo_line) 0 []) = Ok p sh' /\
     tree_of (S p) 33 sh' p = Some t) \/
  (exists msg, parsecmd (fun _ => true) 256 100 (mkshell (line_mem 256 demo_line) 0 []) = Panic msg /\ msg ∈ syntax_errors).
Proof.
  apply (sh_parse_terminates (fun _ => true) (mkshell (line_mem 256 demo_line) 0 []) 256 32 100); [done| |lia].
  split; [lia|]. split; [|done]. intros i Hi.
  assert (Hall : forallb (fun k => negb (line_mem 256 demo_line (256 + Z.of_nat k) =? 0)) (seq 0 32) = true) by (vm_compute; reflexivity).
  rewrite forallb_forall in Hall. specialize (Hall (Z.to_nat i) ltac:(apply in_seq; lia)). rewrite Z2Nat.id in Hall by lia.
  cbn [s_mem]. by apply negb_true_iff, Z.eqb_neq in Hall.
Defined.

Lemma sh_roundtrip_witness :
  exists p sh', parsecmd (fun _ => true) 256 100 (mkshell (line_mem 256 (print_toks (show 0 demo_tree) ++ [10])) 0 []) = Ok p sh' /\
    tree_of (S p) 38 sh' p = Some demo_tree.
Proof.
  apply (sh_roundtrip (fun _ => true) (mkshell (line_mem 256 (print_toks (show 0 demo_tree) ++ [10])) 0 []) 256 demo_tree [10] 100);
    [done| |lia|by repeat constructor| |vm_compute; lia].
  - unfold demo_tree, tree_ok, redir_ok, word_ok, wordc. cbn [r_file]. repeat (split || constructor || done).
  - vm_compute. repeat split.
Defined.
