(* ===== verification/ShRun.v ===== *)
(** * What the shell runs

    [jobs] follows a program of system calls through all its forks, each process with
    its own table of descriptors, and collects the exec calls with the descriptors the
    programs start with.  [plumb] says what a command should run. *)

From Stdlib Require Import ZArith Lia.
From stdpp Require Import base numbers list strings.
From S2P Require Import Types Mem Str Usys Ulib Uprintf Prelude Sh ShLex ShParse ShPrint ShRefine ShSpec.
Open Scope Z_scope.

(** ** Descriptors *)

(** An open file; a pipe is named by the process that made it. *)
Inductive obj := OFile (path : list Z) (mode : Z) | OPipeR (id : list bool) | OPipeW (id : list bool) | OOther (n : Z).

Abbreviation table := (list (option obj)).

(** A program that is started: the file that exec() names, its arguments and its
    descriptors. *)
Record job := mkjob { j_path : list Z; j_argv : list (list Z); j_fds : table }.

(** fdalloc(): the lowest free descriptor *)
Fixpoint lowest (fds : table) : option nat :=
  match fds with [] => None | None :: _ => Some O | Some _ :: l => S <$> lowest l end.

Section jobs.
Context (opens : list Z -> Z -> bool).   (* which open() calls succeed *)

(** The answers of a call: two for fork(), none where the program ends.  A process is
    named by the forks that lead to it. *)
Definition branches (X : Type) (c : sysc X) (s : list bool * table) : list (X * (list bool * table)) :=
  let '(id, fds) := s in
  match c in sysc X return list (X * (list bool * table)) with
  | Sfork => [(0, (true :: id, fds)); (1, (false :: id, fds))]
  | Swait => [(1, s)]
  | Swrite _ bs => [(Z.of_nat (length bs), s)]
  | Sclose fd => [(0, (id, <[Z.to_nat fd := None]> fds))]
  | Sdup fd =>
      match fds !! Z.to_nat fd, lowest fds with
      | Some (Some o), Some n => [(Z.of_nat n, (id, <[n := Some o]> fds))]
      | _, _ => [(-1, s)]
      end
  | Sopen path mode =>
      match opens path mode, lowest fds with
      | true, Some n => [(Z.of_nat n, (id, <[n := Some (OFile path mode)]> fds))]
      | _, _ => [(-1, s)]
      end
  | Spipe =>
      match lowest fds with
      | Some a =>
          let fds1 := <[a := Some (OPipeR id)]> fds in
          match lowest fds1 with
          | Some b => [(Some (Z.of_nat a, Z.of_nat b), (false :: id, <[b := Some (OPipeW id)]> fds1))]
          | None => [(None, s)]
          end
      | None => [(None, s)]
      end
  | _ => []
  end.

Definition emits {X} (c : sysc X) (fds : table) : list job := match c with Sexec path argv => [mkjob path argv fds] | _ => [] end.

Fixpoint jobs {A} (p : uprog A) (s : list bool * table) : list job :=
  match p with
  | Ucall c k => emits c s.2 ++ concat (map (fun a => jobs (k a.1) a.2) (branches _ c s))
  | _ => []
  end.

(** ** What a command should run

    A command runs the file that its first word names.  Redirections replace a descriptor; the two sides of a pipe have its ends as
    standard output and input, and no other descriptor of it. *)
Fixpoint plumb (t : tree) (id : list bool) (fds : table) : list job :=
  match t with
  | Exec [] => []
  | Exec (a0 :: args) => [mkjob a0 (a0 :: args) fds]
  | Redir r t =>
      if opens r.(r_file) r.(r_mode) then plumb t id (<[Z.to_nat r.(r_fd) := Some (OFile r.(r_file) r.(r_mode))]> fds) else []
  | List l r => plumb l (true :: id) fds ++ plumb r (false :: id) fds
  | Pipe l r =>
      plumb l (true :: false :: id) (<[1%nat := Some (OPipeW id)]> fds) ++
      plumb r (true :: false :: false :: id) (<[0%nat := Some (OPipeR id)]> fds)
  | Back t => plumb t (true :: id) fds
  end.

(** ** Lemmas *)

Lemma jobs_sys {X A} (c : sysc X) (k : X -> uprog A) s :
  jobs (x ← sys c; k x) s = emits c s.2 ++ concat (map (fun a => jobs (k a.1) a.2) (branches _ c s)).
Proof. done. Qed.

(** A program that does not return. *)
Fixpoint noret {A} (p : uprog A) : Prop := match p with Uret _ => False | Umore => True | Ucall c k => forall x, noret (k x) end.

Lemma noret_exit {A} n : noret (@exit A n).
Proof. by intros []. Qed.
Lemma noret_then {A B} (p : uprog A) (f : A -> uprog B) : (forall x, noret (f x)) -> noret (x ← p; f x).
Proof. intros H. induction p as [a|X c k IH|]; [apply H|exact IH|done]. Qed.
Lemma noret_bind {A B} (p : uprog A) (f : A -> uprog B) : noret p -> noret (x ← p; f x).
Proof. induction p as [a|X c k IH|]; [done| |done]. intros H x. by apply IH. Qed.

Lemma jobs_noret {A B} (p : uprog A) (f : A -> uprog B) s : noret p -> jobs (x ← p; f x) s = jobs p s.
Proof.
  revert s. induction p as [a|X c k IH|]; intros s H; [done| |done]. cbn [jobs]. unfold mbind, uprog_bind. cbn [ubind jobs]. f_equal. f_equal.
  apply map_ext. intros a. by apply IH.
Qed.

Lemma noret_runcmd fuel n sh p : noret (runcmd fuel n sh p).
Proof.
  revert p. induction fuel as [|f IH]; intros p; cbn [runcmd]; [done|]. destruct (cmd_at sh p) as [[argv eargv|c file ef mode fd|l r|l r|c]|]; [..|apply noret_exit].
  - repeat (apply noret_then; intros). apply noret_exit.
  - repeat (apply noret_then; intros). apply noret_exit.
  - apply noret_then. intros [[p0 p1]|]; [|repeat (apply noret_then; intros); apply noret_exit]. repeat (apply noret_then; intros). apply noret_exit.
  - repeat (apply noret_then; intros). apply noret_exit.
  - repeat (apply noret_then; intros). apply noret_exit.
Qed.

Lemma jobs_ret {A B} (a : A) (k : A -> uprog B) s : jobs (x ← mret a; k x) s = jobs (k a) s.
Proof. done. Qed.

Lemma jobs_assoc {A B C} (p : uprog A) (f : A -> uprog B) (k : B -> uprog C) s :
  jobs (y ← (x ← p; f x); k y) s = jobs (x ← p; y ← f x; k y) s.
Proof.
  revert s. induction p as [a|X c k' IH|]; intros s; [done| |done]. unfold mbind, uprog_bind. cbn [ubind jobs]. f_equal. f_equal.
  apply map_ext. intros a. apply IH.
Qed.

(** Printing runs nothing. *)
Definition quiet (p : uprog unit) : Prop := forall B (k : unit -> uprog B) s, jobs (x ← p; k x) s = jobs (k tt) s.

Lemma quiet_ret : quiet (mret tt).
Proof. done. Qed.
Lemma quiet_bind p q : quiet p -> quiet q -> quiet (p ;; q).
Proof. intros Hp Hq B k s. rewrite jobs_assoc, Hp. apply Hq. Qed.
Lemma quiet_putc fd c : quiet (putc fd c).
Proof. intros B k [id fds]. cbn. apply app_nil_r. Qed.
Lemma quiet_each {A} (l : list A) f : (forall x, quiet (f x)) -> quiet (ueach l f).
Proof. intros H. induction l as [|x l IH]; cbn [ueach]; [apply quiet_ret|]. apply quiet_bind; [apply H|done]. Qed.

Lemma quiet_printint fd x base sgn : quiet (printint fd x base sgn).
Proof. apply quiet_each. intros. apply quiet_putc. Qed.
Lemma quiet_convert fd c0 c1 c2 ap : quiet (convert fd c0 c1 c2 ap).1.1.
Proof.
  unfold convert. repeat (match goal with |- context [if ?b then _ else _] => destruct b end; [try apply quiet_printint|]); cbn [fst].
  - apply quiet_bind; [apply quiet_putc|]. apply quiet_bind; [apply quiet_putc|]. apply quiet_each. intros. apply quiet_putc.
  - apply quiet_putc.
  - apply quiet_each. intros. apply quiet_putc.
  - apply quiet_putc.
  - apply quiet_bind; apply quiet_putc.
Qed.

Lemma quiet_vprintf fd fmt ap b n : quiet (vprintf_loop fd fmt ap b n).
Proof.
  revert ap b n. induction fmt as [|c fmt IH]; intros ap b n; cbn [vprintf_loop]; [apply quiet_ret|]. destruct n as [|n]; [|apply IH].
  destruct b.
  - pose proof (quiet_convert fd c (nth 0 fmt 0) (if nth 0 fmt 0 =? 0 then 0 else nth 1 fmt 0) ap) as H.
    destruct (convert _ _ _ _ _) as [[p k] a]. apply quiet_bind; [exact H|apply IH].
  - destruct (c =? 37); [apply IH|]. apply quiet_bind; [apply quiet_putc|apply IH].
Qed.

(** One system call with one answer. *)
Lemma jobs_one {X A} (c : sysc X) (k : X -> uprog A) s a s' :
  emits c s.2 = [] -> branches X c s = [(a, s')] -> jobs (x ← sys c; k x) s = jobs (k a) s'.
Proof. intros E1 E2. rewrite jobs_sys, E1, E2. cbn. apply app_nil_r. Qed.

Lemma jobs_fork1 {A} (k : Z -> uprog A) id fds :
  jobs (pid ← fork1; k pid) (id, fds) = jobs (k 0) (true :: id, fds) ++ jobs (k 1) (false :: id, fds).
Proof. unfold fork1. cbn. by rewrite app_nil_r. Qed.

Lemma jobs_close {A} (k : Z -> uprog A) id fds n :
  jobs (x ← sys (Sclose (Z.of_nat n)); k x) (id, fds) = jobs (k 0) (id, <[n := None]> fds).
Proof. apply jobs_one; [done|]. cbn. by rewrite Nat2Z.id. Qed.

Lemma jobs_wait {A} (k : Z -> uprog A) s : jobs (x ← sys Swait; k x) s = jobs (k 1) s.
Proof. destruct s. by apply jobs_one. Qed.

Lemma jobs_dup {A} (k : Z -> uprog A) id fds n m o :
  fds !! n = Some (Some o) -> lowest fds = Some m ->
  jobs (x ← sys (Sdup (Z.of_nat n)); k x) (id, fds) = jobs (k (Z.of_nat m)) (id, <[m := Some o]> fds).
Proof. intros E1 E2. apply jobs_one; [done|]. cbn. by rewrite Nat2Z.id, E1, E2. Qed.

Lemma jobs_exit {A} n s : jobs (@exit A n) s = [].
Proof. by destruct s. Qed.

Lemma lowest_spec fds a : lowest fds = Some a -> fds !! a = Some None /\ forall i, (i < a)%nat -> exists o, fds !! i = Some (Some o).
Proof.
  revert a. induction fds as [|[o|] fds IH]; intros a; cbn [lowest]; [done| |].
  - destruct (lowest fds) as [b|]; [|done]. intros [= <-]. destruct (IH b eq_refl) as [H1 H2]. split; [done|].
    intros [|i] Hi; [by exists o|]. apply H2. lia.
  - intros [= <-]. split; [done|]. intros i Hi. lia.
Qed.

Lemma lowest_some fds a : fds !! a = Some None -> exists b, lowest fds = Some b /\ (b <= a)%nat.
Proof.
  revert a. induction fds as [|[o|] fds IH]; intros a; cbn [lowest]; [done| |].
  - destruct a as [|a]; [done|]. intros H. destruct (IH a H) as (b & -> & Hb). exists (S b). split; [done|lia].
  - intros _. exists O. split; [done|lia].
Qed.

Lemma lowest_first fds a : fds !! a = Some None -> (forall i, (i < a)%nat -> exists o, fds !! i = Some (Some o)) -> lowest fds = Some a.
Proof.
  intros Ha Hi. destruct (lowest_some _ _ Ha) as (b & E & Hb). destruct (lowest_spec _ _ E) as [Hb' _].
  destruct (decide (b = a)) as [->|Hne]; [done|]. destruct (Hi b ltac:(lia)) as [o Ho]. congruence.
Qed.

(** Standard input and output are open, and there is room for a pipe. *)
Record fds_ok (fds : table) : Prop := {
  f_in : exists o, fds !! 0%nat = Some (Some o);
  f_out : exists o, fds !! 1%nat = Some (Some o);
  f_room : exists a b, (a < b)%nat /\ fds !! a = Some None /\ fds !! b = Some None }.

Lemma fds_ok_insert fds i o : fds_ok fds -> (i < 2)%nat -> fds_ok (<[i := Some o]> fds).
Proof.
  intros [[o0 H0] [o1 H1] (a & b & Hab & Ha & Hb)] Hi. assert (Hl : (1 < length fds)%nat) by (by eapply lookup_lt_Some).
  assert (Hne : forall k, fds !! k = Some None -> k ≠ i).
  { intros k Hk ->. destruct i as [|[|i]]; [congruence|congruence|lia]. }
  constructor.
  - destruct i as [|[|i]]; [exists o; by apply list_lookup_insert_eq; lia|exists o0; by rewrite list_lookup_insert_ne|lia].
  - destruct i as [|[|i]]; [exists o1; by rewrite list_lookup_insert_ne|exists o; by apply list_lookup_insert_eq; lia|lia].
  - exists a, b. rewrite !list_lookup_insert_ne by (apply not_eq_sym; by apply Hne). done.
Qed.

(** pipe() in a table with room: two fresh descriptors above 1. *)
Lemma pipe_branch id fds :
  fds_ok fds -> exists a b, (1 < a)%nat /\ (1 < b)%nat /\ a ≠ b /\ fds !! a = Some None /\ fds !! b = Some None /\
    branches _ Spipe (id, fds) = [(Some (Z.of_nat a, Z.of_nat b), (false :: id, <[b := Some (OPipeW id)]> (<[a := Some (OPipeR id)]> fds)))].
Proof.
  intros [[o0 H0] [o1 H1] (x & y & Hxy & Hx & Hy)]. destruct (lowest_some _ _ Hx) as (a & Ea & Ha). destruct (lowest_spec _ _ Ea) as [Ha' _].
  assert (Hgt : forall i, fds !! i = Some None -> (1 < i)%nat) by (intros i Hi; destruct i as [|[|i]]; [congruence|congruence|lia]).
  assert (Hy1 : <[a := Some (OPipeR id)]> fds !! y = Some None) by (rewrite list_lookup_insert_ne by lia; done).
  destruct (lowest_some _ _ Hy1) as (b & Eb & Hb). destruct (lowest_spec _ _ Eb) as [Hb' _].
  assert (Hab : a ≠ b).
  { intros ->. rewrite list_lookup_insert_eq in Hb' by (by eapply lookup_lt_Some). done. }
  rewrite list_lookup_insert_ne in Hb' by done. exists a, b. repeat (split; [by auto|]).
  cbn. by rewrite Ea, Eb.
Qed.

(** The table of a child: one end of the pipe has replaced the descriptor [i], and
    both ends are closed. *)
Lemma child_table fds a b i (o : obj) x y :
  (1 < a)%nat -> (1 < b)%nat -> a ≠ b -> (i < 2)%nat -> (i < length fds)%nat -> fds !! a = Some None -> fds !! b = Some None ->
  <[b := None]> (<[a := None]> (<[i := Some o]> (<[i := None]> (<[b := x]> (<[a := y]> fds))))) = <[i := Some o]> fds.
Proof.
  intros Ha Hb Hab Hi Hl Ea Eb. pose proof (lookup_lt_Some _ _ _ Ea). pose proof (lookup_lt_Some _ _ _ Eb).
  apply list_eq. intros j. destruct (decide (j = b)) as [->|Hjb].
  { rewrite list_lookup_insert_eq by (rewrite !length_insert; lia). rewrite list_lookup_insert_ne by lia. congruence. }
  rewrite list_lookup_insert_ne by done. destruct (decide (j = a)) as [->|Hja].
  { rewrite list_lookup_insert_eq by (rewrite !length_insert; lia). rewrite list_lookup_insert_ne by lia. congruence. }
  rewrite list_lookup_insert_ne by done. destruct (decide (j = i)) as [->|Hji].
  { rewrite (list_lookup_insert_eq fds) by done. apply list_lookup_insert_eq. rewrite !length_insert. done. }
  by rewrite !list_lookup_insert_ne by done.
Qed.

(** close(i); dup(e); close(p[0]); close(p[1]) *)
Lemma jobs_child {A} (p : uprog A) id fds a b i e x y (o : obj) :
  (1 < a)%nat -> (1 < b)%nat -> a ≠ b -> (i < 2)%nat -> fds_ok fds -> fds !! a = Some None -> fds !! b = Some None ->
  <[b := Some x]> (<[a := Some y]> fds) !! e = Some (Some o) -> (1 < e)%nat ->
  jobs (sys (Sclose (Z.of_nat i)) ;; sys (Sdup (Z.of_nat e)) ;; sys (Sclose (Z.of_nat a)) ;; sys (Sclose (Z.of_nat b)) ;; p)
    (id, <[b := Some x]> (<[a := Some y]> fds)) = jobs p (id, <[i := Some o]> fds).
Proof.
  intros Ha Hb Hab Hi [[o0 H0] [o1 H1] _] Ea Eb Ee He. assert (Hl : (1 < length fds)%nat) by (by eapply lookup_lt_Some).
  rewrite jobs_close, (jobs_dup _ _ _ e i o), !jobs_close, child_table; try done; try lia.
  - by rewrite list_lookup_insert_ne by lia.
  - apply lowest_first; [apply list_lookup_insert_eq; rewrite !length_insert; lia|]. intros j Hj.
    assert (i = 1 /\ j = 0)%nat as [-> ->] by lia. exists o0. by rewrite !list_lookup_insert_ne by lia.
Qed.

Fixpoint fd_ok (t : tree) : Prop :=
  match t with
  | Exec _ => True
  | Redir r t => (r.(r_fd) = 0 \/ r.(r_fd) = 1) /\ fd_ok t
  | Pipe l r | List l r => fd_ok l /\ fd_ok r
  | Back t => fd_ok t
  end.

Lemma jobs_redir {A} (k : Z -> uprog A) r id fds :
  fds_ok fds -> r.(r_fd) = 0 \/ r.(r_fd) = 1 ->
  jobs (sys (Sclose r.(r_fd)) ;; x ← sys (Sopen r.(r_file) r.(r_mode)); k x) (id, fds) =
  if opens r.(r_file) r.(r_mode) then jobs (k r.(r_fd)) (id, <[Z.to_nat r.(r_fd) := Some (OFile r.(r_file) r.(r_mode))]> fds)
  else jobs (k (-1)) (id, <[Z.to_nat r.(r_fd) := None]> fds).
Proof.
  intros [[o0 H0] [o1 H1] _] Hr. assert (Hl : (1 < length fds)%nat) by (by eapply lookup_lt_Some).
  assert (Hi : exists i, r.(r_fd) = Z.of_nat i /\ (i < 2)%nat) by (destruct Hr as [->| ->]; [by exists 0%nat; split; [|lia]|by exists 1%nat; split; [|lia]]).
  destruct Hi as (i & -> & Hi). rewrite jobs_close, Nat2Z.id.
  assert (Hlow : lowest (<[i := None]> fds) = Some i).
  { apply lowest_first; [apply list_lookup_insert_eq; lia|]. intros j Hj. assert (i = 1 /\ j = 0)%nat as [-> ->] by lia.
    exists o0. by rewrite list_lookup_insert_ne by lia. }
  destruct (opens r.(r_file) r.(r_mode)) eqn:Eo.
  - apply jobs_one; [done|]. cbn. by rewrite Eo, Hlow, list_insert_insert_eq.
  - apply jobs_one; [done|]. cbn. by rewrite Eo.
Qed.

(** The command at the root of a tree. *)
Lemma tree_of_inv f n sh p t :
  tree_of (S f) n sh p = Some t ->
  match t with
  | Exec args => exists argv eargv, cmd_at sh p = Some (EXEC argv eargv) /\ args = args_of n sh.(s_mem) argv
  | Redir r t => exists c file e, cmd_at sh p = Some (REDIR c file e r.(r_mode) r.(r_fd)) /\ r.(r_file) = read_str n sh.(s_mem) file /\ tree_of f n sh c = Some t
  | Pipe a b => exists x y, cmd_at sh p = Some (PIPE x y) /\ tree_of f n sh x = Some a /\ tree_of f n sh y = Some b
  | List a b => exists x y, cmd_at sh p = Some (LIST x y) /\ tree_of f n sh x = Some a /\ tree_of f n sh y = Some b
  | Back t => exists c, cmd_at sh p = Some (BACK c) /\ tree_of f n sh c = Some t
  end.
Proof.
  cbn [tree_of]. destruct (cmd_at sh p) as [[argv eargv|c file ef mode fd|x y|x y|c]|]; [| | | | |done].
  - intros [= <-]. by exists argv, eargv.
  - intros (t' & E & [= <-])%bind_Some. by exists c, file, ef.
  - intros (a & E & (b & E' & [= <-])%bind_Some)%bind_Some. by exists x, y.
  - intros (a & E & (b & E' & [= <-])%bind_Some)%bind_Some. by exists x, y.
  - intros (t' & E & [= <-])%bind_Some. by exists c.
Qed.

Lemma jobs_exec f n sh p argv eargv id fds :
  cmd_at sh p = Some (EXEC argv eargv) -> jobs (runcmd (S f) n sh p) (id, fds) = plumb (Exec (args_of n sh.(s_mem) argv)) id fds.
Proof.
  intros E. cbn [runcmd]. rewrite E. destruct argv as [|q argv]; [change (nth 0 [] 0) with 0; rewrite jobs_noret by apply noret_exit; apply jobs_exit|].
  cbn [args_of nth]. destruct (q =? 0); [rewrite jobs_noret by apply noret_exit; apply jobs_exit|].
  rewrite jobs_ret. cbn zeta. rewrite jobs_sys. done.
Qed.

Lemma jobs_runcmd t fuel n sh p id fds :
  tree_of fuel n sh p = Some t -> fd_ok t -> fds_ok fds -> jobs (runcmd fuel n sh p) (id, fds) = plumb t id fds.
Proof.
  revert fuel p id fds. induction t as [args|r t IH|l IHl r IHr|l IHl r IHr|t IH]; intros [|f] p id fds Ht; try done;
    apply tree_of_inv in Ht; cbn [fd_ok]; intros Hfd Hok.
  - destruct Ht as (argv & eargv & E & ->). by apply (jobs_exec _ _ _ _ argv eargv).
  - destruct Ht as (c & file & e & E & Ef & Et), Hfd as [Hr Hfd]. cbn [runcmd plumb]. rewrite E, <- Ef, jobs_redir by done.
    destruct (opens (r_file r) (r_mode r)).
    + assert (Hlt : (r_fd r <? 0) = false) by (by destruct Hr as [->| ->]). rewrite Hlt, jobs_ret, jobs_noret by apply noret_runcmd.
      apply IH; [done|done|]. apply fds_ok_insert; [done|]. destruct Hr as [->| ->]; cbn; lia.
    + change (-1 <? 0) with true. cbn iota. rewrite jobs_noret by (apply noret_then; intros; apply noret_exit).
      unfold fprintf, vprintf. rewrite quiet_vprintf. apply jobs_exit.
  - destruct Ht as (x & y & E & El & Er), Hfd as [Hl Hr]. cbn [runcmd plumb]. rewrite E.
    destruct (pipe_branch id fds Hok) as (a & b & Ha & Hb & Hab & Ea & Eb & Ep). rewrite (jobs_one Spipe _ (id, fds) _ _ eq_refl Ep).
    pose proof (lookup_lt_Some _ _ _ Ea) as La. pose proof (lookup_lt_Some _ _ _ Eb) as Lb.
    rewrite jobs_fork1. change (0 =? 0) with true. change (1 =? 0) with false. cbn iota.
    f_equal.
    + rewrite jobs_noret by (repeat (apply noret_then; intros); apply noret_runcmd).
      change (Sclose 1) with (Sclose (Z.of_nat 1)). rewrite (jobs_child _ _ fds a b 1 b _ _ (OPipeW id)); try done; try lia; [|apply list_lookup_insert_eq; rewrite length_insert; lia].
      apply IHl; [done|done|apply fds_ok_insert; [done|lia]].
    + rewrite jobs_ret, jobs_fork1. change (0 =? 0) with true. change (1 =? 0) with false. cbn iota.
      rewrite jobs_noret by (repeat (apply noret_then; intros); apply noret_runcmd).
      change (Sclose 0) with (Sclose (Z.of_nat 0)). rewrite (jobs_child _ _ fds a b 0 a _ _ (OPipeR id)); try done; try lia;
        [|rewrite list_lookup_insert_ne by done; apply list_lookup_insert_eq; lia].
      rewrite jobs_ret, !jobs_close, !jobs_wait, jobs_exit, app_nil_r.
      apply IHr; [done|done|apply fds_ok_insert; [done|lia]].
  - destruct Ht as (x & y & E & El & Er), Hfd as [Hl Hr]. cbn [runcmd plumb]. rewrite E, jobs_fork1. change (0 =? 0) with true. change (1 =? 0) with false.
    cbn iota. rewrite jobs_noret by apply noret_runcmd. rewrite jobs_ret, jobs_wait, jobs_noret by apply noret_runcmd.
    f_equal; [by apply IHl|by apply IHr].
  - destruct Ht as (c & E & Et). cbn [runcmd plumb]. rewrite E, jobs_fork1. change (0 =? 0) with true. change (1 =? 0) with false. cbn iota.
    rewrite jobs_noret by apply noret_runcmd. rewrite jobs_ret, jobs_exit, app_nil_r. by apply IH.
Qed.
End jobs.

Lemma tree_fd_ok t : tree_ok t -> fd_ok t.
Proof.
  induction t as [args|r t IH|l IHl r IHr|l IHl r IHr|t IH]; cbn [tree_ok fd_ok]; try tauto. intros [[_ Hr] Ht]. split; [|by apply IH].
  unfold redir_of in Hr. destruct (op_of r =? 60); [injection Hr; auto|]. destruct (op_of r =? 62); [injection Hr; auto|].
  destruct (op_of r =? 43); [injection Hr; auto|done].
Qed.

(** A printed line does not start with a blank. *)
Lemma print_first ts : Forall tok_ok ts -> exists c l, print_toks ts ++ [10] = c :: l /\ ((c =? 32) || (c =? 9)) = false /\ (c = 10 -> ts = []).
Proof.
  intros H. destruct H as [|t ts Ht _]; [by exists 10, []|].
  change (print_toks (t :: ts)) with ((text t ++ [32]) ++ print_toks ts).
  destruct (text t) as [|c l] eqn:E; [destruct t as [c|w]; cbn in *; [by destruct (c =? 43)|by destruct Ht]|].
  exists c. eexists. split; [done|]. assert (Hw : white c = false).
  { destruct t as [x|w]; cbn [text tok_ok] in *.
    - destruct (Z.eqb_spec x 43); [injection E as <- _; done|]. injection E as <- _. destruct Ht as [?|[->|Hc]]; [done|done|].
      apply strchr_in in Hc. change (bytes "|();&<") with [124; 40; 41; 59; 38; 60] in Hc. rewrite !elem_of_cons, elem_of_nil in Hc.
      by repeat (destruct Hc as [->|Hc]; [done|]).
    - destruct Ht as [_ Hf]. rewrite E in Hf. apply Forall_cons in Hf as [Hc _]. by apply (wordc_not c whitespace). }
  unfold white, strchr, whitespace in Hw. cbn [existsb] in Hw. rewrite !orb_false_iff, !Z.eqb_neq in Hw. split; [|lia].
  apply orb_false_iff. rewrite !Z.eqb_neq. lia.
Qed.

Lemma show_nil t : show 0 t = [] -> t = Exec [].
Proof. destruct t as [[|w args]|r t|l r|l r|t]; cbn [show paren Nat.ltb Nat.leb]; try done; intros [_ H]%app_eq_nil; done. Qed.

Lemma skip_first f n m s : f (m s) = false -> skip_while f n m s = s.
Proof. intros H. destruct n; cbn [skip_while]; [done|]. by rewrite H. Qed.

Lemma cd_test m s l :
  holds m s (l ++ [0]) -> take 3 l ≠ bytes "cd " -> (m s =? 99) && (m (s + 1) =? 100) && (m (s + 2) =? 32) = false.
Proof.
  intros Hh Hl. destruct (Z.eqb_spec (m s) 99) as [E1|]; [|done]. destruct (Z.eqb_spec (m (s + 1)) 100) as [E2|]; [|done].
  destruct (Z.eqb_spec (m (s + 2)) 32) as [E3|]; [|done]. exfalso. replace (s + 2) with (s + 1 + 1) in E3 by lia.
  destruct l as [|a [|b [|c l]]]; cbn [app holds] in Hh; destruct Hh as (H1 & Hh); try (cbn in Hh); try lia.
  destruct Hh as (H2 & H3 & _). apply Hl. cbn. by rewrite <- H1, <- H2, <- H3, E1, E2, E3.
Qed.


(** ** A pipeline with a redirection, three descriptors open *)

Definition demo_cmd : tree :=
  Pipe (Exec [bytes "cat"; bytes "f"]) (Redir (mkredir (bytes "out") O_TO 1) (Exec [bytes "wc"])).
Definition demo_text : list Z := print_toks (show 0 demo_cmd) ++ [10].
Definition demo_fds : table := [Some (OOther 0); Some (OOther 1); Some (OOther 2)] ++ replicate 13 None.

