(* ===== verification/Grep.v ===== *)
(** * grep (user/grep.c)

    The regular expression matcher of grep against the language its pattern stands
    for, and the loop that reads a file in pieces and prints the lines that match.
    C strings are the lists of their bytes before the NUL. *)

From Stdlib Require Import ZArith Lia.
From stdpp Require Import base numbers list strings.
From S2P Require Import Prelude Usys Ulib Uprintf Uprogs UprogsSpec.
Open Scope Z_scope.

(** ** The matcher *)

Definition CARET : Z := 94.
Definition DOLLAR : Z := 36.
Definition DOT : Z := 46.
Definition STAR : Z := 42.
Definition NL : Z := 10.

(** do { if(matchhere(re, text)) return 1; } while( *text!='\0' && ( *text++==c || c=='.')); *)
Fixpoint matchstar (here : list Z -> bool) (c : Z) (text : list Z) : bool :=
  if here text then true
  else
    match text with
    | [] => false
    | x :: text' => if (x =? c) || (c =? DOT) then matchstar here c text' else false
    end.

Fixpoint matchhere (re text : list Z) {struct re} : bool :=
  match re with
  | [] => true
  | c :: re1 =>
      let rest :=
        if (c =? DOLLAR) && bool_decide (re1 = []) then bool_decide (text = [])
        else
          match text with
          | x :: text' => if (c =? DOT) || (c =? x) then matchhere re1 text' else false
          | [] => false
          end in
      match re1 with
      | s :: re2 => if s =? STAR then matchstar (matchhere re2) c text else rest
      | [] => rest
      end
  end.

(** do{ if(matchhere(re, text)) return 1; } while( *text++ != '\0'); *)
Fixpoint match_loop (re text : list Z) : bool :=
  if matchhere re text then true
  else match text with [] => false | _ :: text' => match_loop re text' end.

Definition grep_match (re text : list Z) : bool :=
  match re with
  | c :: re1 => if c =? CARET then matchhere re1 text else match_loop re text
  | [] => match_loop re text
  end.

(** ** The language of a pattern *)

Inductive atom := Any | Chr (c : Z).
Inductive item := One (a : atom) | Many (a : atom).

Definition is_atom (a : atom) (x : Z) : Prop := match a with Any => True | Chr c => x = c end.

Inductive lang : list item -> list Z -> Prop :=
  | lang_nil : lang [] []
  | lang_one a l x t : is_atom a x -> lang l t -> lang (One a :: l) (x :: t)
  | lang_many a l ts t : Forall (is_atom a) ts -> lang l t -> lang (Many a :: l) (ts ++ t).

Definition to_atom (c : Z) : atom := if c =? DOT then Any else Chr c.

(** The items of a pattern, and whether it ends in $. *)
Fixpoint items (re : list Z) : list item * bool :=
  match re with
  | [] => ([], false)
  | c :: re1 =>
      let rest := if (c =? DOLLAR) && bool_decide (re1 = []) then ([], true)
                  else let '(l, e) := items re1 in (One (to_atom c) :: l, e) in
      match re1 with
      | s :: re2 => if s =? STAR then let '(l, e) := items re2 in (Many (to_atom c) :: l, e) else rest
      | [] => rest
      end
  end.

(** A pattern matches a prefix of the text; all of it, if it ends in $. *)
Definition prefix_match (p : list item * bool) (text : list Z) : Prop :=
  exists mid post, text = mid ++ post /\ lang p.1 mid /\ (p.2 = true -> post = []).

Definition anchored (re : list Z) : bool := match re with c :: _ => c =? CARET | [] => false end.
Definition body (re : list Z) : list Z := if anchored re then tail re else re.

(** ** Correctness *)

Lemma to_atom_spec c x : is_atom (to_atom c) x <-> (c =? DOT) || (c =? x) = true.
Proof.
  unfold to_atom. destruct (Z.eqb_spec c DOT); simpl; [tauto|]. rewrite Z.eqb_eq. intuition congruence.
Qed.

Lemma matchstar_spec (here : list Z -> bool) c text :
  matchstar here c text = true <->
  exists ts t, text = ts ++ t /\ Forall (is_atom (to_atom c)) ts /\ here t = true.
Proof.
  induction text as [|x text IH]; cbn [matchstar]; destruct (here _) eqn:Eh.
  - split; [intros _|done]. by exists [], [].
  - split; [done|]. intros ([|] & [|] & E & _ & H); try done. congruence.
  - split; [intros _|done]. by exists [], (x :: text).
  - assert (Hx : (x =? c) || (c =? DOT) = true <-> is_atom (to_atom c) x).
    { rewrite to_atom_spec, (Z.eqb_sym x c), orb_comm. done. }
    split.
    + destruct ((x =? c) || (c =? DOT)) eqn:Ex; [|done]. intros (ts & t & -> & Hf & H)%IH.
      exists (x :: ts), t. split; [done|]. split; [|done]. constructor; [by apply Hx|done].
    + intros (ts & t & E & Hf & H). destruct ts as [|y ts]; [cbn in E; subst t; congruence|].
      injection E as <- ->. apply Forall_cons in Hf as [Hy Hf]. apply Hx in Hy. rewrite Hy.
      apply IH. eauto.
Qed.

Lemma prefix_one a p text :
  prefix_match (One a :: p.1, p.2) text <-> exists x t, text = x :: t /\ is_atom a x /\ prefix_match p t.
Proof.
  split.
  - intros (mid & post & -> & Hl & He). inversion Hl as [|? ? x t Ha Hl'|]; subst. exists x, (t ++ post).
    split; [done|]. split; [done|]. by exists t, post.
  - intros (x & t & -> & Ha & mid & post & -> & Hl & He). exists (x :: mid), post.
    split; [done|]. split; [by constructor|done].
Qed.

Lemma prefix_many a p text :
  prefix_match (Many a :: p.1, p.2) text <-> exists ts t, text = ts ++ t /\ Forall (is_atom a) ts /\ prefix_match p t.
Proof.
  split.
  - intros (mid & post & -> & Hl & He). inversion Hl as [| |? ? ts t Ha Hl']; subst. exists ts, (t ++ post).
    split; [by rewrite app_assoc|]. split; [done|]. by exists t, post.
  - intros (ts & t & -> & Ha & mid & post & -> & Hl & He). exists (ts ++ mid), post.
    split; [by rewrite app_assoc|]. split; [by constructor|done].
Qed.

Lemma prefix_end text : prefix_match ([], true) text <-> text = [].
Proof.
  split.
  - intros (mid & post & -> & Hl & He). inversion Hl; subst. by apply He.
  - intros ->. exists [], []. split; [done|]. split; [constructor|done].
Qed.

Lemma one_spec c re1 text (IH : forall t, matchhere re1 t = true <-> prefix_match (items re1) t) :
  (if (c =? DOLLAR) && bool_decide (re1 = []) then bool_decide (text = [])
   else match text with x :: text' => if (c =? DOT) || (c =? x) then matchhere re1 text' else false | [] => false end) = true <->
  prefix_match (if (c =? DOLLAR) && bool_decide (re1 = []) then ([], true)
                else let '(l, e) := items re1 in (One (to_atom c) :: l, e)) text.
Proof.
  destruct ((c =? DOLLAR) && bool_decide (re1 = [])).
  - rewrite prefix_end. by rewrite bool_decide_eq_true.
  - replace (let '(l, e) := items re1 in (One (to_atom c) :: l, e)) with (One (to_atom c) :: (items re1).1, (items re1).2)
      by (by destruct (items re1)).
    rewrite prefix_one. split.
    + destruct text as [|x text]; [done|]. destruct ((c =? DOT) || (c =? x)) eqn:Ex; [|done]. intros H%IH.
      exists x, text. split; [done|]. split; [by apply to_atom_spec|done].
    + intros (x & t & -> & Ha & Hp). apply to_atom_spec in Ha. rewrite Ha. by apply IH.
Qed.

Lemma matchhere_spec re text : matchhere re text = true <-> prefix_match (items re) text.
Proof.
  revert text. induction re as [re IH] using (induction_ltof1 _ (@length Z)); unfold ltof in IH; intros text.
  destruct re as [|c re1].
  - split; [|done]. intros _. exists [], text. split; [done|]. split; [constructor|done].
  - cbn [matchhere items]. destruct re1 as [|s re2].
    + apply (one_spec c [] text). intros t. apply IH. simpl. lia.
    + destruct (Z.eqb_spec s STAR) as [->|Hs].
      * rewrite matchstar_spec.
        replace (let '(l, e) := items re2 in (Many (to_atom c) :: l, e)) with (Many (to_atom c) :: (items re2).1, (items re2).2)
          by (by destruct (items re2)).
        rewrite prefix_many. split; intros (ts & t & E & Hf & H); exists ts, t; (split; [done|]; split; [done|]);
          apply IH in H; try done; simpl; lia.
      * apply (one_spec c (s :: re2) text). intros t. apply IH. simpl. lia.
Qed.

Lemma match_loop_spec re text :
  match_loop re text = true <-> exists pre rest, text = pre ++ rest /\ prefix_match (items re) rest.
Proof.
  induction text as [|x text IH]; cbn [match_loop]; destruct (matchhere re _) eqn:Eh.
  - split; [intros _|done]. exists [], []. split; [done|]. by apply matchhere_spec.
  - split; [done|]. intros ([|] & [|] & E & H); try done. apply matchhere_spec in H. congruence.
  - split; [intros _|done]. exists [], (x :: text). split; [done|]. by apply matchhere_spec.
  - rewrite IH. split.
    + intros (pre & rest & -> & H). by exists (x :: pre), rest.
    + intros (pre & rest & E & H). destruct pre as [|y pre].
      * cbn in E. subst rest. apply matchhere_spec in H. congruence.
      * injection E as <- ->. by exists pre, rest.
Qed.

(** C36. The matcher of grep decides the language of its pattern.  match(re, text) is 1
    exactly when text has a part in the language of the pattern, a sequence of
    characters, dots and starred characters or dots; the part begins the text when the
    pattern begins with ^ and ends it when the pattern ends in $. *)
Theorem grep_match_correct re text :
  grep_match re text = true <->
  exists pre mid post, text = pre ++ mid ++ post /\ lang (items (body re)).1 mid /\
    (anchored re = true -> pre = []) /\ ((items (body re)).2 = true -> post = []).
Proof.
  assert (Hl : match_loop re text = true <-> exists pre mid post, text = pre ++ mid ++ post /\ lang (items re).1 mid /\
    ((items re).2 = true -> post = [])).
  { rewrite match_loop_spec. split.
    - intros (pre & rest & -> & mid & post & -> & Hl & He). by exists pre, mid, post.
    - intros (pre & mid & post & -> & Hl & He). exists pre, (mid ++ post). split; [done|]. by exists mid, post. }
  unfold grep_match, body, anchored. destruct re as [|c re1]; [|destruct (c =? CARET)].
  - rewrite Hl. split.
    + intros (pre & mid & post & -> & H & He). by exists pre, mid, post.
    + intros (pre & mid & post & -> & H & _ & He). by exists pre, mid, post.
  - cbn [tail]. rewrite matchhere_spec. split.
    + intros (mid & post & -> & H & He). by exists [], mid, post.
    + intros (pre & mid & post & -> & H & Hp & He). rewrite Hp by done. by exists mid, post.
  - rewrite Hl. split.
    + intros (pre & mid & post & -> & H & He). by exists pre, mid, post.
    + intros (pre & mid & post & -> & H & _ & He). by exists pre, mid, post.
Qed.

(** ** The loop

    The buffer is the m bytes in it; the loop keeps what is left of an unfinished
    line at its front. *)

Definition BUFSZ : nat := 1024.

(** strchr(p, '\n'): the line before the first newline and what is after it; a NUL
    hides what follows it. *)
Fixpoint find_nl (p : list Z) : option (list Z * list Z) :=
  match p with
  | [] => None
  | x :: p' =>
      if x =? 0 then None
      else if x =? NL then Some ([], p')
      else match find_nl p' with Some (l, r) => Some (x :: l, r) | None => None end
  end.

(** The inner while loop: it leaves the rest of the buffer.  Every line takes a byte of
    the buffer at least. *)
Fixpoint grep_lines (fuel : nat) (pattern p : list Z) : uprog (list Z) :=
  match fuel with
  | O => Umore
  | S f =>
      match find_nl p with
      | None => mret p
      | Some (line, p') =>
          (if grep_match pattern line then sys (Swrite 1 (line ++ [NL])) ;; mret tt else mret tt) ;;
          grep_lines f pattern p'
      end
  end.

Fixpoint grep_loop (fuel : nat) (pattern : list Z) (fd : Z) (buf : list Z) : uprog unit :=
  r ← sys (Sread fd (Z.of_nat BUFSZ - Z.of_nat (length buf) - 1));
  if 0 <? r.1 then
    rest ← grep_lines BUFSZ pattern (buf ++ r.2);
    match fuel with O => Umore | S f => grep_loop f pattern fd rest end
  else mret tt.

Definition grep (fuel : nat) (pattern : list Z) (fd : Z) : uprog unit := grep_loop fuel pattern fd [].

Definition grep_main (fuel : nat) (argv : list (list Z)) : uprog Z :=
  match argv with
  | [] | [_] => fprintf 2 (line "usage: grep pattern [file ...]") [] ;; exit 1
  | [_; pattern] => grep fuel pattern 0 ;; exit 0
  | _ :: pattern :: files =>
      ueach files (fun a =>
        fd ← sys (Sopen a O_RDONLY);
        if fd <? 0 then printf (line "grep: cannot open %s") [UStr (Some a)] ;; exit 1
        else grep fuel pattern fd ;; sys (Sclose fd) ;; mret tt) ;;
      exit 0
  end.

(** *** What it prints *)

(** The complete lines of a text and what follows the last newline. *)
Fixpoint split_lines (t : list Z) : list (list Z) * list Z :=
  match t with
  | [] => ([], [])
  | x :: t' =>
      let '(ls, last) := split_lines t' in
      if x =? NL then ([] :: ls, last)
      else match ls with [] => ([], x :: last) | l :: ls' => ((x :: l) :: ls', last) end
  end.

Definition matching (pattern : list Z) (ls : list (list Z)) : list Z :=
  concat ((fun l => if grep_match pattern l then l ++ [NL] else []) <$> ls).

Definition no_nul (t : list Z) : Prop := Forall (fun x => x ≠ 0) t.

Lemma find_nl_none p : no_nul p -> find_nl p = None -> split_lines p = ([], p).
Proof.
  induction 1 as [|x p Hx _ IH]; [done|]. cbn [find_nl split_lines]. destruct (Z.eqb_spec x 0); [done|].
  destruct (x =? NL); [done|]. destruct (find_nl p) as [[l r]|]; [done|]. intros _. by rewrite IH.
Qed.

Lemma find_nl_some p l r :
  no_nul p -> find_nl p = Some (l, r) ->
  p = l ++ NL :: r /\ split_lines p = (l :: (split_lines r).1, (split_lines r).2).
Proof.
  intros Hn. revert l. induction Hn as [|x p Hx _ IH]; intros l; [done|]. cbn [find_nl split_lines].
  destruct (Z.eqb_spec x 0); [done|]. destruct (Z.eqb_spec x NL) as [->|].
  - intros [= <- <-]. split; [done|]. by destruct (split_lines p).
  - destruct (find_nl p) as [[l' r']|] eqn:E; [|done]. intros [= <- <-]. destruct (IH l' eq_refl) as [-> IH2].
    split; [done|]. by rewrite IH2.
Qed.

Lemma no_nul_app p q : no_nul (p ++ q) <-> no_nul p /\ no_nul q.
Proof. apply Forall_app. Qed.

Lemma grep_lines_run fd fuel pattern p s :
  no_nul p -> (length p < fuel)%nat ->
  urun (stream_handle fd) (grep_lines fuel pattern p) s =
    Returned (split_lines p).2 (emit (matching pattern (split_lines p).1) s).
Proof.
  revert p s. induction fuel as [|f IH]; intros p s Hn Hf; [lia|]. cbn [grep_lines].
  destruct (find_nl p) as [[l r]|] eqn:E.
  - destruct (find_nl_some p l r Hn E) as [-> ->]. apply no_nul_app in Hn as [_ Hr]. apply Forall_cons in Hr as [_ Hr].
    rewrite length_app in Hf. simpl in Hf. cbn [fst snd]. unfold matching. cbn [fmap list_fmap concat].
    destruct (grep_match pattern l).
    + rewrite urun_bind, run_write. cbn [urun mret uprog_ret]. rewrite IH by (done || lia). by rewrite emit_emit.
    + rewrite urun_bind. cbn [urun mret uprog_ret]. rewrite IH by (done || lia). done.
  - rewrite (find_nl_none p Hn E). unfold emit. cbn. rewrite app_nil_r. by destruct s.
Qed.

(** Lines go on where the rest of a buffer left off. *)
Lemma split_lines_app p q :
  split_lines (p ++ q) =
    ((split_lines p).1 ++ (split_lines ((split_lines p).2 ++ q)).1, (split_lines ((split_lines p).2 ++ q)).2).
Proof.
  induction p as [|x p IH]; [simpl; by destruct (split_lines q)|]. cbn [app split_lines]. rewrite IH.
  destruct (split_lines p) as [ls last]. cbn [fst snd]. destruct (Z.eqb_spec x NL) as [->|Hx]; [done|].
  destruct ls as [|l ls]; [|done]. cbn [app fst snd split_lines].
  destruct (split_lines (last ++ q)) as [ls' last']. destruct (Z.eqb_spec x NL); [done|].
  by destruct ls'.
Qed.

Lemma split_rest p : split_lines (split_lines p).2 = ([], (split_lines p).2).
Proof.
  induction p as [|x p IH]; [done|]. cbn [split_lines]. destruct (split_lines p) as [ls last]. cbn [snd] in *.
  destruct (Z.eqb_spec x NL); [done|]. destruct ls; cbn [snd]; [|done]. cbn [split_lines]. rewrite IH.
  by destruct (Z.eqb_spec x NL).
Qed.

Lemma split_prefix r q :
  split_lines r = ([], r) ->
  (exists l ls, (split_lines (r ++ q)).1 = (r ++ l) :: ls) \/ exists l, split_lines (r ++ q) = ([], r ++ l).
Proof.
  induction r as [|x r IH]; intros Hr.
  - cbn [app]. destruct (split_lines q) as [[|l ls] last]; [right; by exists last|left; by exists l, ls].
  - cbn [app split_lines] in *. destruct (split_lines r) as [ls last] eqn:Er. destruct (x =? NL); [done|].
    destruct ls; [|done]. injection Hr as ->. destruct (IH eq_refl) as [(l & ls & E)|(l & E)].
    + left. destruct (split_lines (r ++ q)) as [ls' last']. cbn in E. subst ls'. by exists l, ls.
    + right. rewrite E. by exists l.
Qed.

(** Every line and the unfinished one shorter than [n]. *)
Definition short (n : nat) (t : list Z) : Prop :=
  Forall (fun l => (length l < n)%nat) (split_lines t).1 /\ (length (split_lines t).2 < n)%nat.

Lemma short_rest n p q : short n (p ++ q) -> short n ((split_lines p).2 ++ q) /\ (length (split_lines p).2 < n)%nat.
Proof.
  unfold short. rewrite split_lines_app. cbn [fst snd]. intros [Hf Hl]. apply Forall_app in Hf as [_ Hf]. split; [done|].
  destruct (split_prefix (split_lines p).2 q (split_rest p)) as [(l & ls & E)|(l & E)].
  - rewrite E in Hf. apply Forall_cons in Hf as [Hf _]. rewrite length_app in Hf. lia.
  - rewrite E in Hl. cbn in Hl. rewrite length_app in Hl. lia.
Qed.

Lemma matching_app pattern ls ls' : matching pattern (ls ++ ls') = matching pattern ls ++ matching pattern ls'.
Proof. unfold matching. by rewrite fmap_app, concat_app. Qed.

Lemma no_nul_rest p : no_nul p -> no_nul (split_lines p).2.
Proof.
  induction 1 as [|x p Hx _ IH]; [constructor|]. cbn [split_lines]. destruct (split_lines p) as [ls last]. cbn [snd] in *.
  destruct (x =? NL); [done|]. destruct ls as [|l ls]; [by constructor|done].
Qed.

Lemma grep_loop_run fuel pattern fd buf s :
  no_nul (buf ++ s.(st_in)) -> short (BUFSZ - 1) (buf ++ s.(st_in)) -> split_lines buf = ([], buf) ->
  (length s.(st_in) <= fuel)%nat ->
  exists cuts, urun (stream_handle fd) (grep_loop fuel pattern fd buf) s =
    Returned tt (mkstream [] cuts (s.(st_out) ++ matching pattern (split_lines (buf ++ s.(st_in))).1)).
Proof.
  revert buf s. induction fuel as [|f IH]; intros buf s Hn Hs Hb Hf; cbn [grep_loop]; rewrite run_read;
    assert (Hbl : (length buf < BUFSZ - 1)%nat) by (pose proof (short_rest _ buf s.(st_in) Hs) as H; rewrite Hb in H; apply H);
    (destruct (stream_read_spec (Z.of_nat BUFSZ - Z.of_nat (length buf) - 1) s) as (bs & rest & cuts & -> & E & Hnil & Hle); [lia|]);
    cbn [fst snd]; (destruct bs as [|b bs];
      [rewrite (Hnil eq_refl) in *; destruct rest; [|done]; exists cuts; by rewrite app_nil_r, Hb, app_nil_r|]).
  - rewrite E in Hf. cbn in Hf. lia.
  - destruct (Z.ltb_spec 0 (Z.of_nat (length (b :: bs)))) as [_|Hx]; [|cbn [length] in Hx; lia].
    rewrite E, app_assoc in Hn, Hs. pose proof (proj1 (no_nul_app _ _) Hn) as [Hn1 Hn2]. destruct (short_rest _ _ _ Hs) as [Hs1 Hl1].
    rewrite urun_bind, grep_lines_run; [|done|rewrite length_app; lia].
    destruct (IH (split_lines (buf ++ b :: bs)).2
                (emit (matching pattern (split_lines (buf ++ b :: bs)).1) (mkstream rest cuts s.(st_out)))) as (cuts' & ->).
    + apply no_nul_app. split; [by apply no_nul_rest|done].
    + done.
    + apply split_rest.
    + apply (f_equal length) in E. rewrite length_app in E. cbn [length st_in emit] in *. lia.
    + exists cuts'. cbn [st_in st_out emit]. rewrite E, (app_assoc buf), (split_lines_app (buf ++ b :: bs)). cbn [fst].
      by rewrite matching_app, app_assoc.
Qed.

(** C37. grep prints the matching lines, in order, whatever the sizes of the reads.  For a
    text without NULs whose lines fit its buffer the loop ends and writes exactly the
    newline-terminated lines match() accepts; what follows the last newline is not
    searched.  Without a file argument main() does so with the standard input, and
    exits with status 0. *)
Theorem grep_prints_matching fuel pattern fd s :
  no_nul s.(st_in) -> short (BUFSZ - 1) s.(st_in) -> (length s.(st_in) <= fuel)%nat ->
  let out := s.(st_out) ++ matching pattern (split_lines s.(st_in)).1 in
  (exists cuts, urun (stream_handle fd) (grep fuel pattern fd) s = Returned tt (mkstream [] cuts out)) /\
  forall a0, exists cuts, urun (stream_handle 0) (grep_main fuel [a0; pattern]) s = Exited 0 (mkstream [] cuts out).
Proof.
  intros Hn Hs Hf out. split; [by apply (grep_loop_run fuel pattern fd [] s)|]. intros a0.
  destruct (grep_loop_run fuel pattern 0 [] s) as (cuts & E); [done..|]. exists cuts.
  cbn [grep_main]. unfold grep. by rewrite urun_bind, E.
Qed.

(** "hello\nworld\nhelp" searched for "^hel*o$", four bytes at a time. *)
Lemma grep_prints_matching_witness : exists cuts,
  urun (stream_handle 0) (grep 20 (bytes "^hel*o$") 0) (mkstream (line "hello" ++ line "world" ++ bytes "help") (replicate 5 3%nat) []) =
  Returned tt (mkstream [] cuts (line "hello")).
Proof.
  destruct (grep_prints_matching 20 (bytes "^hel*o$") 0
              (mkstream (line "hello" ++ line "world" ++ bytes "help") (replicate 5 3%nat) [])) as [[cuts E] _].
  - repeat constructor; done.
  - split; [repeat constructor|]; apply Nat.ltb_lt; vm_compute; reflexivity.
  - cbn. lia.
  - exists cuts. exact E.
Defined.
