(* ===== verification/Umalloc.v ===== *)
(** * The allocator of user programs (user/umalloc.c)

    The free list of Kernighan and Ritchie, in the memory of the process: every
    block starts with a 16-byte header, the address of the next free block and the
    size of the block in units of 16 bytes.  [base] is the address of the static
    header; sbrk() is a system call and a parameter. *)

From Stdlib Require Import ZArith Lia.
From stdpp Require Import base numbers list strings.
From S2P Require Import Prelude Mem.
Open Scope Z_scope.

Record heap := mkheap {
  u_mem : mem;
  u_freep : Z;   (* freep *)
  u_brk : Z      (* the end of the process's memory *)
}.
Definition set_umem x h := mkheap x h.(u_freep) h.(u_brk).
Definition set_freep x h := mkheap h.(u_mem) x h.(u_brk).

(** sizeof(Header) *)
Definition HDR : Z := 16.
Definition SBRK_ERROR : Z := u64 (-1).

(** p->s.ptr and p->s.size *)
Definition hptr (p : Z) : M heap Z := gets (fun h => load64 h.(u_mem) p).
Definition hsize (p : Z) : M heap Z := gets (fun h => load 4 h.(u_mem) (p + 8)).
Definition set_hptr (p v : Z) : M heap unit := modify (fun h => set_umem (store64 h.(u_mem) p v) h).
Definition set_hsize (p v : Z) : M heap unit := modify (fun h => set_umem (store 4 h.(u_mem) (p + 8) v) h).

(** p + n of a Header *p *)
Definition plus (p n : Z) : Z := u64 (p + HDR * n).

(** Every block of the list has a header below the end of memory. *)
Definition rounds (h : heap) : nat := S (Z.to_nat (h.(u_brk) / HDR)).

(** The for loop of [free]. *)
Fixpoint free_loop (fuel : nat) (bp p : Z) : M heap Z :=
  nx ← hptr p;
  if (p <? bp) && (bp <? nx) then mret p
  else if (nx <=? p) && ((p <? bp) || (bp <? nx)) then mret p
  else match fuel with O => nofuel | S f => free_loop f bp nx end.

(** if(bp + bp->s.size == p->s.ptr) ...: the block joins the one above it, or comes
    before it. *)
Definition join_upper (bp p : Z) : M heap unit :=
  nx ← hptr p;
  sz ← hsize bp;
  if plus bp sz =? nx then
    s ← hsize nx;
    set_hsize bp (sz + s) ;;
    q ← hptr nx;
    set_hptr bp q
  else set_hptr bp nx.

(** if(p + p->s.size == bp) ...: the block below takes it in, or points to it. *)
Definition join_lower (p bp : Z) : M heap unit :=
  ps ← hsize p;
  if plus p ps =? bp then
    s ← hsize bp;
    set_hsize p (ps + s) ;;
    q ← hptr bp;
    set_hptr p q
  else set_hptr p bp.

(** free, from bp = (Header* )ap - 1 on *)
Definition free_block (bp : Z) : M heap unit :=
  fp ← gets u_freep;
  fuel ← gets rounds;
  p ← free_loop fuel bp fp;
  join_upper bp p ;;
  join_lower p bp ;;
  modify (set_freep p).

Definition free (ap : Z) : M heap unit := free_block (u64 (ap - HDR)).

Section umalloc.
Context (base : Z) (sbrk : Z -> M heap Z).

(** nu * sizeof(Header) is a 64-bit number, the argument of sbrk an int. *)
Definition morecore (nu : Z) : M heap Z :=
  let nu := if nu <? 4096 then 4096 else nu in
  p ← sbrk (i32 (nu * HDR));
  if p =? SBRK_ERROR then mret 0
  else
    set_hsize p nu ;;
    free (plus p 1) ;;
    gets u_freep.

(** The body of if(p->s.size >= nunits): the whole block, or the tail of it. *)
Definition take (nunits prevp p sz : Z) : M heap Z :=
  p' ← (if sz =? nunits then q ← hptr p; set_hptr prevp q ;; mret p
        else
          set_hsize p (sz - nunits) ;;
          set_hsize (plus p (sz - nunits)) nunits ;;
          mret (plus p (sz - nunits)));
  modify (set_freep prevp) ;;
  mret (plus p' 1).

(** The for loop of [malloc]. *)
Fixpoint malloc_loop (fuel : nat) (nunits prevp p : Z) : M heap Z :=
  sz ← hsize p;
  if nunits <=? sz then take nunits prevp p sz
  else
    match fuel with
    | O => nofuel
    | S f =>
        fp ← gets u_freep;
        if p =? fp then
          p' ← morecore nunits;
          if p' =? 0 then mret 0
          else nx ← hptr p'; malloc_loop f nunits p' nx
        else nx ← hptr p; malloc_loop f nunits p nx
    end.

Definition malloc (nbytes : Z) : M heap Z :=
  let nunits := u32 (u64 (nbytes + HDR - 1) / HDR + 1) in
  fp ← gets u_freep;
  prevp ← (if fp =? 0 then
             modify (set_freep base) ;;
             set_hptr base base ;;
             set_hsize base 0 ;;
             mret base
           else mret fp);
  p ← hptr prevp;
  fuel ← gets rounds;
  malloc_loop (2 * fuel + 4) nunits prevp p.
End umalloc.
