(* ===== verification/UmallocSpec.v ===== *)
(** * The user allocator keeps its blocks apart

    [freelist] relates the linked list in memory to the list of its blocks in
    address order.  [free] adds exactly the cells of the block it is given, [malloc]
    takes exactly the cells of the block it returns, and a client that frees what it
    has allocated never has two blocks that overlap, nor loses a cell. *)

From Stdlib Require Import ZArith Lia.
From stdpp Require Import base numbers list strings.
From S2P Require Import Prelude Mem Umalloc.
Open Scope Z_scope.

(** ** Headers in memory *)

Definition ptr_at (m : mem) (a : Z) : Z := load64 m a.
Definition size_at (m : mem) (a : Z) : Z := load 4 m (a + 8).
Definition put_ptr (m : mem) (a v : Z) : mem := store64 m a v.
Definition put_size (m : mem) (a v : Z) : mem := store 4 m (a + 8) v.

(** Two headers that do not overlap. *)
Definition clear (a b : Z) : Prop := a + HDR <= b \/ b + HDR <= a.

Lemma ptr_put_eq m a v : ptr_at (put_ptr m a v) a = u64 v.
Proof. apply load64_store64_eq. Qed.
Lemma size_put_eq m a v : size_at (put_size m a v) a = u32 v.
Proof. apply load_store_eq. Qed.
Lemma ptr_put_ne m a b v : clear a b -> ptr_at (put_ptr m a v) b = ptr_at m b.
Proof. unfold clear, HDR. intros H. apply load64_store64_ne. lia. Qed.
Lemma size_put_ptr m a b v : clear a b \/ a = b -> size_at (put_ptr m a v) b = size_at m b.
Proof. unfold clear, HDR. intros H. apply load_store_ne. change (Z.of_nat 8) with 8. change (Z.of_nat 4) with 4. lia. Qed.
Lemma ptr_put_size m a b v : clear a b \/ a = b -> ptr_at (put_size m a v) b = ptr_at m b.
Proof. unfold clear, HDR. intros H. apply load_store_ne. change (Z.of_nat 8) with 8. change (Z.of_nat 4) with 4. lia. Qed.
Lemma size_put_ne m a b v : clear a b -> size_at (put_size m a v) b = size_at m b.
Proof. unfold clear, HDR. intros H. apply load_store_ne. change (Z.of_nat 4) with 4. lia. Qed.
Lemma put_ptr_out m a v x : x < a \/ a + HDR <= x -> put_ptr m a v x = m x.
Proof. unfold HDR. intros H. apply store_ne. change (Z.of_nat 8) with 8. lia. Qed.
Lemma put_size_out m a v x : x < a \/ a + HDR <= x -> put_size m a v x = m x.
Proof. unfold HDR. intros H. apply store_ne. change (Z.of_nat 4) with 4. lia. Qed.

Lemma clear_sym a b : clear a b -> clear b a.
Proof. unfold clear. lia. Qed.

(** ** The list *)

(** A block: its address and its size in units. *)
Abbreviation node := (Z * Z)%type.

Definition nexta (l : list node) (e : Z) : Z := match l with [] => e | n :: _ => n.1 end.

Fixpoint chain (m : mem) (l : list node) (e : Z) : Prop :=
  match l with
  | [] => True
  | n :: l' => ptr_at m n.1 = nexta l' e /\ size_at m n.1 = n.2 /\ chain m l' e
  end.

(** In address order, apart from each other, and with no two blocks that touch. *)
Fixpoint ordered (l : list node) (top : Z) : Prop :=
  match l with
  | [] => True
  | n :: l' => 0 <= n.2 /\ n.1 + HDR * Z.max 1 n.2 <= nexta l' top /\ (l' ≠ [] -> n.1 + HDR * n.2 ≠ nexta l' top) /\ ordered l' top
  end.

Lemma nexta_app l l' e : nexta (l ++ l') e = nexta l (nexta l' e).
Proof. by destruct l. Qed.

Lemma chain_app m l l' e : chain m (l ++ l') e <-> chain m l (nexta l' e) /\ chain m l' e.
Proof. induction l as [|n l IH]; cbn [app chain]; [tauto|]. rewrite nexta_app, IH. tauto. Qed.

Lemma ordered_app l l' top : ordered (l ++ l') top -> ordered l (nexta l' top) /\ ordered l' top.
Proof.
  induction l as [|n l IH]; cbn [app ordered]; [tauto|]. rewrite nexta_app. intros (H1 & H2 & H3 & H4).
  destruct (IH H4) as [H5 H6]. split; [|done]. split; [done|]. split; [done|]. split; [|done].
  intros Hl. apply H3. by destruct l.
Qed.

Lemma ordered_join l l' top :
  ordered l (nexta l' top) -> ordered l' top ->
  (forall n, last l = Some n -> l' ≠ [] -> n.1 + HDR * n.2 ≠ nexta l' top) -> ordered (l ++ l') top.
Proof.
  induction l as [|n l IH]; cbn [app ordered]; [tauto|]. intros (H1 & H2 & H3 & H4) H' Hl. rewrite nexta_app.
  split; [done|]. split; [done|]. split.
  - intros Hne. destruct l as [|n' l]; [|by apply H3]. apply Hl; [done|]. by destruct l'.
  - apply IH; [done|done|]. intros k Hk. apply Hl. destruct l; [done|]. by rewrite last_cons_cons.
Qed.

(** Only the headers of the list matter. *)
Lemma chain_hdrs m m' l e :
  (forall n, n ∈ l -> ptr_at m' n.1 = ptr_at m n.1 /\ size_at m' n.1 = size_at m n.1) -> chain m l e -> chain m' l e.
Proof.
  induction l as [|n l IH]; intros H; [done|]. cbn [chain]. intros (H1 & H2 & H3). destruct (H n) as [-> ->]; [by left|].
  split; [done|]. split; [done|]. apply IH; [|done]. intros k Hk. apply H. by right.
Qed.

Lemma ordered_le l top n : ordered l top -> n ∈ l -> nexta l top <= n.1 /\ n.1 + HDR * Z.max 1 n.2 <= top.
Proof.
  revert n. induction l as [|k l IH]; intros n; [by intros _ ?%not_elem_of_nil|]. intros (H1 & H2 & H3 & H4) Hn.
  assert (Hl : k.1 + HDR <= top).
  { clear -H2 H4 IH. unfold HDR in *. destruct l as [|j l]; cbn [nexta] in *; [lia|].
    destruct (IH j H4 ltac:(by left)). cbn [nexta] in *. lia. }
  apply elem_of_cons in Hn as [->|Hn].
  - cbn [nexta]. split; [lia|]. destruct l as [|j l]; cbn [nexta] in *; [lia|].
    destruct (IH j H4 ltac:(by left)) as [_ Hj]. unfold HDR in *. lia.
  - destruct (IH n H4 Hn) as [Hn1 Hn2]. split; [|done]. cbn [nexta]. unfold HDR in *. lia.
Qed.

(** The nodes before and after one. *)
Lemma ordered_before l n l' top k :
  ordered (l ++ n :: l') top -> k ∈ l -> k.1 + HDR * Z.max 1 k.2 <= n.1.
Proof. intros [H _]%ordered_app Hk. destruct (ordered_le _ _ _ H Hk) as [_ H']. done. Qed.
Lemma ordered_after l n l' top k :
  ordered (l ++ n :: l') top -> k ∈ l' -> n.1 + HDR * Z.max 1 n.2 <= k.1.
Proof.
  intros [_ H]%ordered_app Hk. destruct H as (_ & H1 & _ & H2). destruct (ordered_le _ _ _ H2 Hk) as [H' _]. lia.
Qed.

Definition free_cell (l : list node) (x : Z) : Prop := exists n, n ∈ l /\ n.1 <= x < n.1 + HDR * n.2.

Lemma free_cell_app l l' x : free_cell (l ++ l') x <-> free_cell l x \/ free_cell l' x.
Proof.
  unfold free_cell. split.
  - intros (n & [Hn|Hn]%elem_of_app & Hx); [left|right]; by exists n.
  - intros [(n & Hn & Hx)|(n & Hn & Hx)]; exists n; rewrite elem_of_app; auto.
Qed.
Lemma free_cell_cons n l x : free_cell (n :: l) x <-> n.1 <= x < n.1 + HDR * n.2 \/ free_cell l x.
Proof.
  unfold free_cell. split.
  - intros (k & [->|Hk]%elem_of_cons & Hx); [by left|right; by exists k].
  - intros [Hx|(k & Hk & Hx)]; [exists n|exists k]; rewrite elem_of_cons; auto.
Qed.
Lemma free_cell_nil x : ~ free_cell [] x.
Proof. intros (n & Hn%not_elem_of_nil & _). done. Qed.

Record freelist (base : Z) (h : heap) (l : list node) : Prop := {
  fl_base : 0 < base;
  fl_chain : chain h.(u_mem) ((base, 0) :: l) base;
  fl_ord : ordered ((base, 0) :: l) h.(u_brk);
  fl_pos : Forall (fun n => 1 <= n.2) l;
  fl_freep : exists s, (h.(u_freep), s) ∈ (base, 0) :: l;
  fl_brk : h.(u_brk) < 2 ^ 35 }.

(** ** The search of [free] *)

Section search.
Context (h : heap) (base bp p s : Z) (l1 l2 : list node).
Context (Hn : ordered (l1 ++ (p, s) :: l2) h.(u_brk)) (Hc : chain h.(u_mem) (l1 ++ (p, s) :: l2) base).
Context (Hb : nexta l1 p = base) (Hp : p < bp) (Hl2 : forall k, k ∈ l2 -> bp < k.1).

Lemma base_le k : k ∈ l1 ++ (p, s) :: l2 -> base <= k.1.
Proof using Hn Hb.
  intros Hk. destruct (ordered_le _ _ _ Hn Hk) as [H _]. rewrite nexta_app in H. cbn [nexta fst] in H. by rewrite Hb in H.
Qed.

Lemma search_here fuel : free_loop fuel bp p h = Ok p h.
Proof using Hn Hc Hb Hp Hl2.
  pose proof Hc as Hc'. apply chain_app in Hc' as [_ (E & _ & _)]. cbn [fst] in E.
  pose proof (base_le (p, s) ltac:(apply elem_of_app; right; by left)) as Hbl. cbn [fst] in Hbl.
  assert (Hnx : ptr_at (u_mem h) p <= p \/ bp < ptr_at (u_mem h) p).
  { rewrite E. clear -Hbl Hl2. destruct l2 as [|k l]; cbn [nexta]; [by left|right; apply Hl2; by left]. }
  unfold ptr_at in Hnx. destruct fuel; cbn [free_loop]; unfold hptr; rewrite bind_gets;
    destruct (Z.ltb_spec p bp), (Z.ltb_spec bp (load64 (u_mem h) p)), (Z.leb_spec (load64 (u_mem h) p) p); try lia; done.
Qed.

Lemma search_up a mid fuel :
  l1 = a ++ mid -> (length mid <= fuel)%nat -> free_loop fuel bp (nexta mid p) h = Ok p h.
Proof using Hn Hc Hb Hp Hl2.
  revert a fuel. induction mid as [|[x sx] mid IH]; intros a fuel Ha Hf; [apply search_here|].
  destruct fuel as [|fuel]; [simpl in Hf; lia|]. cbn [nexta fst free_loop]. unfold hptr. rewrite bind_gets.
  pose proof Hn as Hn'. pose proof Hc as Hc'. rewrite Ha, <- app_assoc in Hn', Hc'. cbn [app] in Hn', Hc'.
  apply chain_app in Hc' as [_ (E & _ & _)]. cbn [fst] in E. unfold ptr_at in E. rewrite E.
  rewrite nexta_app. cbn [nexta fst].
  assert (Hx : x + HDR <= nexta mid p).
  { apply ordered_app in Hn' as [_ (H0 & H1 & _ & _)]. rewrite nexta_app in H1. cbn [nexta fst snd] in H0, H1. unfold HDR in *. lia. }
  assert (Hle : nexta mid p <= p).
  { destruct mid as [|k mid]; cbn [nexta]; [lia|].
    assert (Hk : k ∈ l1) by (rewrite Ha; apply elem_of_app; right; right; by left).
    pose proof (ordered_before l1 (p, s) l2 (u_brk h) k Hn Hk) as H1. cbn [fst] in H1. unfold HDR in *. lia. }
  unfold HDR in *.
  destruct (Z.ltb_spec x bp), (Z.ltb_spec bp (nexta mid p)), (Z.leb_spec (nexta mid p) x); try lia; cbn [andb orb];
    apply (IH (a ++ [(x, sx)])); try (simpl in Hf; lia); rewrite Ha, <- app_assoc; done.
Qed.

Lemma search_down a x sx b fuel :
  l2 = a ++ (x, sx) :: b -> (S (length b) + length l1 <= fuel)%nat -> free_loop fuel bp x h = Ok p h.
Proof using Hn Hc Hb Hp Hl2.
  revert a x sx fuel. induction b as [|[y sy] b IH]; intros a x sx fuel Ha Hf; (destruct fuel as [|fuel]; [lia|]);
    cbn [free_loop]; unfold hptr; rewrite bind_gets;
    pose proof Hn as Hn'; pose proof Hc as Hc';
    rewrite Ha, app_comm_cons, app_assoc in Hn', Hc';
    apply chain_app in Hc' as [_ (E & _ & _)]; cbn [fst nexta] in E; unfold ptr_at in E; rewrite E;
    assert (Hx : bp < x) by (apply (Hl2 (x, sx)); rewrite Ha; apply elem_of_app; right; by left);
    assert (Hbx : base <= x) by (apply (base_le (x, sx)); rewrite Ha; apply elem_of_app; right; right; apply elem_of_app; right; by left).
  - assert (Hbp : base < bp) by (pose proof (base_le (p, s) ltac:(apply elem_of_app; right; by left)) as H; cbn in H; lia).
    destruct (Z.ltb_spec x bp), (Z.ltb_spec bp base), (Z.leb_spec base x); try lia; cbn [andb orb].
    rewrite <- Hb. apply (search_up []); [done|]. simpl in Hf. lia.
  - assert (Hxy : x + HDR <= y).
    { apply ordered_app in Hn' as [_ (H0 & H1 & _ & _)]. cbn [nexta fst snd] in H0, H1. unfold HDR in *. lia. }
    unfold HDR in *. destruct (Z.ltb_spec x bp), (Z.ltb_spec bp y), (Z.leb_spec y x); try lia; cbn [andb orb];
      apply (IH (a ++ [(x, sx)]) y sy); try (simpl in *; lia); rewrite Ha, <- app_assoc; done.
Qed.

(** From any block of the list the search ends at the last one below [bp]. *)
Lemma search_free x sx fuel :
  (x, sx) ∈ l1 ++ (p, s) :: l2 -> (length (l1 ++ (p, s) :: l2) <= fuel)%nat -> free_loop fuel bp x h = Ok p h.
Proof using Hn Hc Hb Hp Hl2.
  intros Hx Hf. rewrite length_app in Hf. cbn [length] in Hf.
  apply elem_of_app in Hx as [Hx|[E|Hx]%elem_of_cons].
  - apply list_elem_of_split in Hx as (a & b & E). replace x with (nexta ((x, sx) :: b) p) by done.
    apply (search_up a); [done|]. rewrite E, length_app in Hf. simpl in *. lia.
  - injection E as -> ->. apply search_here.
  - apply list_elem_of_split in Hx as (a & b & E). apply (search_down a x sx b); [done|].
    rewrite E, length_app in Hf. simpl in Hf. lia.
Qed.
End search.

(** ** free *)

Lemma plus_small p n : 0 <= p -> 0 <= n -> p + HDR * n < 2 ^ 64 -> plus p n = p + HDR * n.
Proof. intros. unfold plus. apply u64_small. unfold HDR in *. lia. Qed.

Lemma split_below l bp top n :
  ordered (n :: l) top -> n.1 < bp ->
  exists l1 p s l2, n :: l = l1 ++ (p, s) :: l2 /\ p < bp /\ (forall k, k ∈ l2 -> bp <= k.1) /\ nexta l1 p = n.1.
Proof.
  revert n. induction l as [|k l IH]; intros n Ho Hn.
  - exists [], n.1, n.2, []. split; [by destruct n|]. split; [done|]. split; [by intros ? ?%not_elem_of_nil|done].
  - destruct Ho as (H1 & H2 & H3 & H4). destruct (decide (k.1 < bp)) as [Hk|Hk].
    + destruct (IH k H4 Hk) as (l1 & p & s & l2 & E & Hp & Hl & Hx). exists (n :: l1), p, s, l2. rewrite E. done.
    + exists [], n.1, n.2, (k :: l). split; [by destruct n|]. split; [done|]. split; [|done].
      intros j Hj. destruct (ordered_le _ _ _ H4 Hj) as [Hj' _]. cbn [nexta] in Hj'. lia.
Qed.

(** Headers unchanged on a list. *)
Definition same_hdrs (m m' : mem) (l : list node) : Prop :=
  forall n, n ∈ l -> ptr_at m' n.1 = ptr_at m n.1 /\ size_at m' n.1 = size_at m n.1.

Lemma same_put_ptr m a v l : (forall n, n ∈ l -> clear a n.1) -> same_hdrs m (put_ptr m a v) l.
Proof. intros H n Hn. rewrite ptr_put_ne, size_put_ptr by auto. done. Qed.
Lemma same_put_size m a v l : (forall n, n ∈ l -> clear a n.1) -> same_hdrs m (put_size m a v) l.
Proof. intros H n Hn. rewrite ptr_put_size, size_put_ne by auto. done. Qed.
Lemma same_trans m m' m'' l : same_hdrs m m' l -> same_hdrs m' m'' l -> same_hdrs m m'' l.
Proof. intros H1 H2 n Hn. destruct (H1 n Hn), (H2 n Hn). split; congruence. Qed.

(** Memory unchanged outside the header at [a]. *)
Definition only_hdr (m m' : mem) (a : Z) : Prop := forall x, x < a \/ a + HDR <= x -> m' x = m x.

Section free_spec.
Context (base : Z) (h : heap) (l1 l2 : list node) (p s bp sz : Z).
Context (Hord : ordered (l1 ++ (p, s) :: l2) h.(u_brk)) (Hch : chain h.(u_mem) (l1 ++ (p, s) :: l2) base).
Context (Hb0 : 0 < base) (Hbase : nexta l1 p = base) (Hbrk : h.(u_brk) < 2 ^ 35) (Hsz : 1 <= sz).
Context (Hpos : forall k, k ∈ l2 -> 1 <= k.2) (Hsize : size_at h.(u_mem) bp = sz).
Context (Hp : p + HDR * Z.max 1 s <= bp) (Hl2 : forall k, k ∈ l2 -> bp + HDR * sz <= k.1) (Htop : bp + HDR * sz <= h.(u_brk)).

Lemma nodes_clear k : k ∈ l1 ++ (p, s) :: l2 -> clear bp k.1.
Proof using All.
  intros Hk. apply elem_of_app in Hk as [Hk|[->|Hk]%elem_of_cons].
  - pose proof (ordered_before _ _ _ _ _ Hord Hk) as H. cbn [fst snd] in H. unfold clear, HDR in *. lia.
  - unfold clear, HDR in *. cbn [fst]. lia.
  - pose proof (Hl2 k Hk). unfold clear, HDR in *. lia.
Qed.

(** The list above [bp] and the size of its block after joining. *)
Definition upper : Z * list node :=
  match l2 with
  | (a, t) :: l => if decide (bp + HDR * sz = a) then (sz + t, l) else (sz, l2)
  | [] => (sz, [])
  end.

Lemma upper_facts :
  (forall k, k ∈ upper.2 -> k ∈ l2) /\ sz <= upper.1 < 2 ^ 31 /\ bp + HDR * upper.1 <= nexta upper.2 h.(u_brk) /\
  (upper.2 ≠ [] -> bp + HDR * upper.1 ≠ nexta upper.2 h.(u_brk)) /\ ordered upper.2 h.(u_brk) /\ chain h.(u_mem) upper.2 base /\
  (forall x, bp <= x < bp + HDR * upper.1 \/ free_cell upper.2 x <-> bp <= x < bp + HDR * sz \/ free_cell l2 x).
Proof using All.
  pose proof Hord as Ho. pose proof Hch as Hc. apply ordered_app in Ho as [_ (_ & _ & _ & Ho)].
  apply chain_app in Hc as [_ (_ & _ & Hc)].
  assert (Hp0 : 0 < p).
  { destruct (ordered_le _ _ (p, s) Hord ltac:(apply elem_of_app; right; by left)) as [H _]. rewrite nexta_app in H. cbn in H. lia. }
  assert (Hc0 : chain (u_mem h) l2 base) by done.
  unfold upper. clear Hord Hch Hbase. destruct l2 as [|[a t] l].
  - cbn [fst snd nexta]. split; [done|]. split; [unfold HDR in *; lia|]. split; [done|]. split; [done|].
    split; [done|]. split; [done|]. intros x. tauto.
  - cbn [ordered chain fst snd] in Ho, Hc. destruct Ho as (Ht & H1 & H2 & H3), Hc as (_ & _ & Hc).
    pose proof (Hl2 (a, t) ltac:(by left)) as Ha. cbn [fst] in Ha.
    assert (Hle : nexta l (u_brk h) <= u_brk h).
    { destruct l as [|k l]; cbn [nexta]; [lia|]. destruct (ordered_le _ _ k H3 ltac:(by left)). unfold HDR in *. lia. }
    case_decide as E; cbn [fst snd nexta].
    + pose proof (Hpos (a, t) ltac:(by left)) as Htp. cbn [snd] in Htp.
      split; [intros k Hk; by right|]. split; [unfold HDR in *; lia|]. split; [unfold HDR in *; lia|].
      split; [intros Hne; specialize (H2 Hne); unfold HDR in *; lia|]. split; [done|]. split; [done|].
      intros x. rewrite free_cell_cons. cbn [fst snd]. unfold HDR in *. 
      assert (bp <= x < bp + 16 * (sz + t) <-> bp <= x < bp + 16 * sz \/ a <= x < a + 16 * t) by lia. tauto.
    + split; [done|]. split; [unfold HDR in *; lia|]. split; [done|]. split; [done|].
      split; [done|]. split; [done|]. intros x. tauto.
Qed.

Lemma p_facts : 0 < p /\ base <= p.
Proof using All.
  destruct (ordered_le _ _ (p, s) Hord ltac:(apply elem_of_app; right; by left)) as [H _]. rewrite nexta_app in H. cbn in H. lia.
Qed.

Lemma next_range l : (forall k, k ∈ l -> k ∈ l2) -> 0 <= nexta l base < 2 ^ 64.
Proof using All.
  intros Hl. pose proof p_facts. destruct l as [|k l]; cbn [nexta]; [unfold HDR in *; lia|].
  assert (Hk : k ∈ l1 ++ (p, s) :: l2) by (apply elem_of_app; right; right; apply Hl; by left).
  destruct (ordered_le _ _ k Hord Hk) as [H1 H2]. rewrite nexta_app in H1. cbn in H1. unfold HDR in *. lia.
Qed.

Lemma join_upper_spec :
  exists m, join_upper bp p h = Ok tt (set_umem m h) /\ ptr_at m bp = nexta upper.2 base /\ size_at m bp = upper.1 /\
    same_hdrs h.(u_mem) m (l1 ++ (p, s) :: l2) /\ only_hdr h.(u_mem) m bp.
Proof using All.
  pose proof upper_facts as (U1 & U2 & _). pose proof p_facts as [Hp0 Hpb]. pose proof nodes_clear as Hcl.
  pose proof Hch as Hc. apply chain_app in Hc as [_ (E & _ & Hc)]. cbn [fst] in E.
  pose proof (next_range upper.2 U1) as HR.
  assert (Epl : plus bp sz = bp + HDR * sz) by (apply plus_small; unfold HDR in *; lia).
  unfold join_upper, hptr, hsize. rewrite !bind_gets.
  change (load64 (u_mem h) p) with (ptr_at (u_mem h) p). change (load 4 (u_mem h) (bp + 8)) with (size_at (u_mem h) bp).
  rewrite E, Hsize, Epl. unfold upper in *. destruct l2 as [|[a t] l]; cbn [nexta fst snd] in *.
  - destruct (Z.eqb_spec (bp + HDR * sz) base); [unfold HDR in *; lia|]. eexists. split; [reflexivity|].
    change (store64 ?m ?a ?v) with (put_ptr m a v). rewrite ptr_put_eq, size_put_ptr, u64_small by (done || by right).
    split; [done|]. split; [done|]. split; [by apply same_put_ptr|]. intros x Hx. by apply put_ptr_out.
  - destruct (Z.eqb_spec (bp + HDR * sz) a) as [Ea|Ea].
    + rewrite decide_True in * by done. cbn [fst snd] in *. destruct Hc as (Hn1 & Hn2 & _). cbn [fst snd] in Hn1, Hn2.
      assert (Ha : clear bp a) by (apply (Hcl (a, t)); apply elem_of_app; right; right; by left).
      unfold set_hsize, set_hptr. rewrite bind_gets, bind_modify, bind_gets. cbn [u_mem set_umem].
      change (load 4 (u_mem h) (a + 8)) with (size_at (u_mem h) a). rewrite Hn2.
      change (store 4 (u_mem h) (bp + 8) (sz + t)) with (put_size (u_mem h) bp (sz + t)).
      change (load64 ?m a) with (ptr_at m a). rewrite ptr_put_size, Hn1 by by left.
      eexists. split; [reflexivity|]. change (store64 ?m ?a ?v) with (put_ptr m a v). cbn [u_mem set_umem].
      rewrite ptr_put_eq, size_put_ptr, size_put_eq, u64_small, u32_small by (done || (by right) || lia).
      split; [done|]. split; [done|]. split.
      * eapply same_trans; [by apply (same_put_size _ bp (sz + t))|]. by apply same_put_ptr.
      * intros x Hx. rewrite put_ptr_out by done. by apply put_size_out.
    + rewrite decide_False in * by done. cbn [fst snd nexta] in *. eexists. split; [reflexivity|].
      change (store64 ?m ?a ?v) with (put_ptr m a v). rewrite ptr_put_eq, size_put_ptr, u64_small by (done || by right).
      split; [done|]. split; [done|]. split; [by apply same_put_ptr|]. intros x Hx. by apply put_ptr_out.
Qed.

(** The list after the block below has been joined or linked. *)
Definition lower : list node :=
  if decide (p + HDR * s = bp) then (p, s + upper.1) :: upper.2 else (p, s) :: (bp, upper.1) :: upper.2.

Lemma lower_ordered : ordered (l1 ++ lower) h.(u_brk).
Proof using All.
  pose proof upper_facts as (U1 & U2 & U3 & U4 & U5 & _ & _). pose proof Hord as Ho.
  apply ordered_app in Ho as [Ho1 (Hs & _ & _ & _)]. cbn [nexta fst snd] in Ho1, Hs.
  assert (Hlast : forall n, last l1 = Some n -> n.1 + HDR * n.2 ≠ p).
  { intros n Hn Hx. destruct l1 as [|k l _] using rev_ind; [done|]. rewrite last_snoc in Hn. injection Hn as ->.
    rewrite <- app_assoc in Hord. apply ordered_app in Hord as [_ (_ & _ & H & _)]. by apply H. }
  unfold lower. case_decide as E; apply ordered_join; cbn [nexta fst].
  - done.
  - cbn [ordered fst snd]. split; [lia|]. split; [unfold HDR in *; lia|]. split; [|done].
    intros Hne. specialize (U4 Hne). unfold HDR in *. lia.
  - intros n Hn _. by apply Hlast.
  - done.
  - cbn [ordered fst snd nexta]. split; [done|]. split; [done|]. split; [done|]. split; [lia|]. split; [unfold HDR in *; lia|].
    split; [done|]. done.
  - intros n Hn _. by apply Hlast.
Qed.

Lemma lower_cells x : free_cell (l1 ++ lower) x <-> free_cell (l1 ++ (p, s) :: l2) x \/ bp <= x < bp + HDR * sz.
Proof using All.
  pose proof upper_facts as (_ & U2 & _ & _ & _ & _ & U). specialize (U x). pose proof Hord as Ho.
  apply ordered_app in Ho as [_ (Hs & _)]. cbn [snd] in Hs. unfold lower.
  rewrite !free_cell_app, (free_cell_cons (p, s) l2). case_decide as E; rewrite !free_cell_cons; cbn [fst snd] in *.
  - assert (p <= x < p + HDR * (s + upper.1) <-> p <= x < p + HDR * s \/ bp <= x < bp + HDR * upper.1) by (unfold HDR in *; lia).
    tauto.
  - tauto.
Qed.

Lemma join_lower_spec m :
  ptr_at m bp = nexta upper.2 base -> size_at m bp = upper.1 -> same_hdrs h.(u_mem) m (l1 ++ (p, s) :: l2) ->
  exists m', join_lower p bp (set_umem m h) = Ok tt (set_umem m' h) /\ chain m' (l1 ++ lower) base /\ only_hdr m m' p.
Proof using All.
  intros Eb Es Hsame. pose proof upper_facts as (U1 & U2 & U3 & U4 & U5 & U6 & _). pose proof p_facts as [Hp0 Hpb].
  pose proof (next_range upper.2 U1) as HR. assert (Hin : (p, s) ∈ l1 ++ (p, s) :: l2) by (apply elem_of_app; right; by left).
  assert (Hs : 0 <= s) by (pose proof Hord as Ho; by apply ordered_app in Ho as [_ (? & _)]).
  destruct (Hsame _ Hin) as [_ Eps]. cbn [fst] in Eps. pose proof Hch as Hc. apply chain_app in Hc as [Hc1 (_ & Eps' & Hc2)].
  cbn [nexta fst snd] in Hc1, Eps'. rewrite Eps' in Eps.
  assert (Hclr : clear p bp) by (unfold clear, HDR in *; lia).
  assert (Hcl1 : forall n, n ∈ l1 -> clear p n.1).
  { intros n Hn. pose proof (ordered_before _ _ _ _ _ Hord Hn) as H. cbn [fst] in H. unfold clear, HDR in *. lia. }
  assert (Hcl2 : forall n, n ∈ upper.2 -> clear p n.1).
  { intros n Hn. pose proof (ordered_after _ _ _ _ _ Hord (U1 _ Hn)) as H. cbn [fst snd] in H. unfold clear, HDR in *. lia. }
  assert (S1 : same_hdrs h.(u_mem) m l1) by (intros n Hn; apply Hsame, elem_of_app; by left).
  assert (S2 : same_hdrs h.(u_mem) m upper.2) by (intros n Hn; apply Hsame, elem_of_app; right; right; by apply U1).
  assert (Epl : plus p s = p + HDR * s) by (apply plus_small; unfold HDR in *; lia).
  unfold join_lower, hptr, hsize, set_hptr, set_hsize. rewrite bind_gets. cbn [u_mem set_umem].
  change (load 4 m (p + 8)) with (size_at m p). rewrite Eps, Epl. unfold lower.
  destruct (Z.eqb_spec (p + HDR * s) bp) as [E|E].
  - rewrite decide_True by done. rewrite bind_gets, bind_modify, bind_gets. cbn [u_mem set_umem].
    change (load 4 m (bp + 8)) with (size_at m bp). rewrite Es.
    change (store 4 m (p + 8) (s + upper.1)) with (put_size m p (s + upper.1)).
    change (load64 (put_size m p (s + upper.1)) bp) with (ptr_at (put_size m p (s + upper.1)) bp). rewrite ptr_put_size, Eb by by left.
    eexists. split; [reflexivity|]. cbn [u_mem set_umem]. change (store64 ?m ?a ?v) with (put_ptr m a v). split.
    + apply chain_app. cbn [nexta fst chain snd]. rewrite ptr_put_eq, size_put_ptr, size_put_eq, u64_small, u32_small
        by (done || (by right) || (unfold HDR in *; lia)). split; [|split; [done|split; [done|]]].
      * eapply chain_hdrs; [|exact Hc1]. eapply same_trans; [exact S1|]. eapply same_trans; [by apply same_put_size|by apply same_put_ptr].
      * eapply chain_hdrs; [|exact U6]. eapply same_trans; [exact S2|]. eapply same_trans; [by apply same_put_size|by apply same_put_ptr].
    + intros x Hx. rewrite put_ptr_out by done. by apply put_size_out.
  - rewrite decide_False by done. eexists. split; [reflexivity|]. cbn [u_mem set_umem]. change (store64 ?m ?a ?v) with (put_ptr m a v). split.
    + apply chain_app. cbn [nexta fst chain snd].
      rewrite ptr_put_eq, size_put_ptr, ptr_put_ne, (size_put_ptr _ _ bp), u64_small by (done || (by right) || (by left) || (unfold HDR in *; lia)).
      split; [|split; [done|split; [done|split; [done|split; [done|]]]]].
      * eapply chain_hdrs; [|exact Hc1]. eapply same_trans; [exact S1|]. by apply same_put_ptr.
      * eapply chain_hdrs; [|exact U6]. eapply same_trans; [exact S2|]. by apply same_put_ptr.
    + intros x Hx. by apply put_ptr_out.
Qed.

Lemma lower_list l :
  (base, 0) :: l = l1 ++ (p, s) :: l2 -> Forall (fun n => 1 <= n.2) l ->
  exists l', l1 ++ lower = (base, 0) :: l' /\ Forall (fun n => 1 <= n.2) l'.
Proof using All.
  intros E Hf. pose proof upper_facts as (U1 & U2 & _).
  assert (FU : Forall (fun n => 1 <= n.2) upper.2) by (apply Forall_forall; intros k Hk; apply Hpos, U1, Hk).
  assert (1 <= upper.1) by lia. unfold lower. destruct l1 as [|j l1t]; cbn [app] in *.
  - injection E as E1 E2 _. rewrite decide_False by (unfold HDR in *; lia). subst. eexists. split; [done|]. by constructor.
  - injection E as E1 E2. rewrite <- E1. eexists. split; [done|]. rewrite E2 in Hf. apply Forall_app in Hf as [Hf1 Hf2].
    apply Forall_cons in Hf2 as [Hf2 _]. cbn [snd] in Hf2. apply Forall_app. split; [done|].
    case_decide; repeat constructor; cbn [snd]; lia || done.
Qed.

Lemma lower_size l l' :
  (base, 0) :: l = l1 ++ (p, s) :: l2 -> l1 ++ lower = (base, 0) :: l' ->
  (exists n, n ∈ l' /\ sz <= n.2) /\ (length l' <= S (length l))%nat.
Proof using All.
  intros E E'. pose proof upper_facts as (_ & U2 & _).
  assert (Hs : 0 <= s) by (pose proof Hord as Ho; by apply ordered_app in Ho as [_ (? & _)]).
  assert (Hk : exists n, n ∈ (base, 0) :: l' /\ sz <= n.2).
  { rewrite <- E'. unfold lower. case_decide.
    - exists (p, s + upper.1). split; [apply elem_of_app; right; by left|]. cbn [snd]. lia.
    - exists (bp, upper.1). split; [apply elem_of_app; right; right; by left|]. cbn [snd]. lia. }
  split.
  - destruct Hk as (n & [->|Hn]%elem_of_cons & Hz); [cbn [snd] in Hz; lia|by exists n].
  - apply (f_equal length) in E, E'. rewrite length_app in E, E'. cbn [length] in E, E'.
    assert (length lower <= 2 + length l2)%nat; [|lia]. unfold lower, upper. clear.
    destruct l2 as [|[a t] r]; repeat case_decide; cbn [length snd]; lia.
Qed.
End free_spec.

Lemma ordered_length l top : ordered l top -> 0 <= nexta l top -> HDR * Z.of_nat (length l) <= top - nexta l top.
Proof.
  induction l as [|n l IH]; [cbn; lia|]. intros (H1 & H2 & _ & H3) H0. cbn [nexta length] in *.
  unfold HDR in *. specialize (IH H3 ltac:(lia)). lia.
Qed.

Lemma list_rounds base h l : freelist base h l -> (S (length l) <= rounds h)%nat.
Proof.
  intros H. pose proof (fl_base _ _ _ H) as H0. pose proof (ordered_length _ _ (fl_ord _ _ _ H)) as HL.
  cbn [nexta fst length] in HL. specialize (HL ltac:(lia)). unfold rounds, HDR in *.
  assert (Z.of_nat (length l) <= h.(u_brk) / 16) by (apply Z.div_le_lower_bound; lia). lia.
Qed.

(** The cells a list of headers occupies, the base header included. *)
Definition heap_cell (base : Z) (l : list node) (x : Z) : Prop := base <= x < base + HDR \/ free_cell l x.

Lemma free_cell_split l n x : n ∈ l -> n.1 <= x < n.1 + HDR * n.2 -> free_cell l x.
Proof. intros ? ?. by exists n. Qed.

Lemma cons_app_inv (n k : node) l l1 l2 :
  n :: l = l1 ++ k :: l2 -> (l1 = [] /\ k = n /\ l = l2) \/ exists l1', l1 = n :: l1' /\ l = l1' ++ k :: l2.
Proof. destruct l1 as [|j l1]; cbn [app]; intros [= E1 E2]; [by left|]. right. exists l1. by subst. Qed.

(** [free]: the cells of the block join the free cells, and only headers among them
    are written. *)
Lemma free_block_spec base h l bp sz :
  freelist base h l -> size_at h.(u_mem) bp = sz -> 1 <= sz -> base + HDR <= bp -> bp + HDR * sz <= h.(u_brk) ->
  (forall x, bp <= x < bp + HDR * sz -> ~ free_cell l x) ->
  exists h' l', free_block bp h = Ok tt h' /\ freelist base h' l' /\ h'.(u_brk) = h.(u_brk) /\
    (forall x, free_cell l' x <-> free_cell l x \/ bp <= x < bp + HDR * sz) /\
    (forall x, ~ heap_cell base l' x -> h'.(u_mem) x = h.(u_mem) x) /\
    (exists n, n ∈ l' /\ sz <= n.2) /\ (length l' <= S (length l))%nat.
Proof.
  intros [Hb Hc Ho Hpos [fs Hfp] Hbrk] Hsize Hsz Hbb Htop Hdis.
  assert (FL : freelist base h l) by (constructor; eauto).
  destruct (split_below l bp _ _ Ho) as (l1 & p & s & l2 & E & Hp & Hl2 & Hnx); [cbn [fst]; unfold HDR in *; lia|].
  cbn [fst] in Hnx. pose proof Ho as Ho'. pose proof Hc as Hc'. rewrite E in Ho', Hc', Hfp.
  assert (Hin2 : forall k, k ∈ l2 -> k ∈ l).
  { intros k Hk. destruct (cons_app_inv _ _ _ _ _ E) as [(_ & _ & ->)|(l1' & _ & ->)]; [done|]. apply elem_of_app. right. by right. }
  assert (Hpos2 : forall k, k ∈ l2 -> 1 <= k.2) by (intros k Hk; rewrite Forall_forall in Hpos; by apply Hpos, Hin2).
  assert (Hin : (p, s) = (base, 0) \/ (p, s) ∈ l).
  { destruct (cons_app_inv _ _ _ _ _ E) as [(_ & -> & _)|(l1' & _ & ->)]; [by left|]. right. apply elem_of_app. right. by left. }
  assert (Hplow : p + HDR * Z.max 1 s <= bp).
  { destruct Hin as [[= -> ->]|Hin]; [unfold HDR in *; lia|]. pose proof Hpos as Hps. rewrite Forall_forall in Hps.
    specialize (Hps _ Hin). cbn [snd] in Hps. destruct (decide (p + HDR * s <= bp)) as [|Hlt]; [unfold HDR in *; lia|].
    exfalso. apply (Hdis bp); [unfold HDR in *; lia|]. apply (free_cell_split _ (p, s)); [done|]. cbn [fst snd]. lia. }
  assert (Hhigh : forall k, k ∈ l2 -> bp + HDR * sz <= k.1).
  { intros k Hk. pose proof (Hpos2 k Hk). pose proof (Hl2 k Hk). destruct (decide (bp + HDR * sz <= k.1)) as [|Hlt]; [done|].
    exfalso. apply (Hdis k.1); [lia|]. apply (free_cell_split _ k); [by apply Hin2|]. unfold HDR. lia. }
  assert (Hup : forall k, k ∈ l2 -> bp < k.1) by (intros k Hk; pose proof (Hhigh k Hk); unfold HDR in *; lia).
  destruct (join_upper_spec base h l1 l2 p s bp sz) as (m & J1 & J2 & J3 & J4 & J5); try done.
  destruct (join_lower_spec base h l1 l2 p s bp sz) with (m := m) as (m' & K1 & K2 & K3); try done.
  pose proof (lower_ordered base h l1 l2 p s bp sz Ho' Hc' Hb Hnx Hbrk Hsz Hpos2 Hsize Hplow Hhigh Htop) as LO.
  pose proof (fun x => lower_cells base h l1 l2 p s bp sz Ho' Hc' Hb Hnx Hbrk Hsz Hpos2 Hsize Hplow Hhigh Htop x) as LC.
  destruct (lower_list base h l1 l2 p s bp sz) with (l := l) as (l' & L1 & L2); try done.
  rewrite L1 in LO, LC, K2.
  exists (mkheap m' p h.(u_brk)), l'. split.
  { unfold free_block. rewrite !bind_gets, (bind_ok _ _ _ p h).
    2: { apply (search_free h base bp p s l1 l2) with (sx := fs); try done. rewrite <- E. cbn [length]. by apply (list_rounds base). }
    rewrite (bind_ok _ _ _ _ _ J1), (bind_ok _ _ _ _ _ K1). done. }
  assert (LC' : forall x, free_cell l' x <-> free_cell l x \/ bp <= x < bp + HDR * sz).
  { intros x. specialize (LC x). rewrite <- E, !free_cell_cons in LC. cbn [fst snd] in LC.
    assert (~ base <= x < base + HDR * 0) by lia. tauto. }
  destruct (lower_size base h l1 l2 p s bp sz) with (l := l) (l' := l') as [LS LL]; try done.
  split; [|split; [done|split; [done|split; [|split; [exact LS|exact LL]]]]].
  - constructor; cbn [u_brk u_mem u_freep]; try done. rewrite <- L1. unfold lower. case_decide.
    + eexists. apply elem_of_app. right. by left.
    + eexists. apply elem_of_app. right. by left.
  - intros x Hx. cbn [u_mem]. unfold heap_cell in Hx. rewrite K3, J5; [done| |].
    + destruct (decide (x < bp)); [by left|]. right. destruct (decide (bp + HDR <= x)) as [|Hlt]; [done|]. exfalso. apply Hx. right.
      apply LC'. right. unfold HDR in *. lia.
    + destruct (decide (x < p)); [by left|]. right. destruct (decide (p + HDR <= x)) as [|Hlt]; [done|]. exfalso. apply Hx.
      destruct Hin as [[= -> ->]|Hin]; [left; lia|]. right. apply LC'. left. apply (free_cell_split _ (p, s)); [done|].
      rewrite Forall_forall in Hpos. specialize (Hpos _ Hin). cbn [fst snd] in *. unfold HDR in *. lia.
Qed.
