(* ===== verification/MallocSpec.v ===== *)
(** * malloc of the user allocator and its clients

    [malloc] walks the ring of free blocks from the one after freep, takes the first
    block that is large enough, and asks for more memory when it is back at freep.
    A client that frees what it has allocated never has two blocks that overlap, and
    the allocator never loses a cell nor touches what the client has written. *)

From Stdlib Require Import ZArith Lia.
From stdpp Require Import base numbers list strings gmap.
From S2P Require Import Prelude Mem Umalloc UmallocSpec.
Open Scope Z_scope.

(** ** Taking a block *)

(** What [malloc] promises of the block at [q]: its cells were free and are not any
    more, its header has its size, and nothing but free cells and the headers of the
    list has been written. *)
Definition taken (base : Z) (h : heap) (l : list node) (nunits q : Z) (h' : heap) (l' : list node) : Prop :=
  freelist base h' l' /\ h'.(u_brk) = h.(u_brk) /\ size_at h'.(u_mem) q = nunits /\ base + HDR <= q /\
  (forall x, q <= x < q + HDR * nunits -> free_cell l x) /\
  (forall x, free_cell l' x <-> free_cell l x /\ ~ (q <= x < q + HDR * nunits)) /\
  (forall x, ~ heap_cell base l x -> h'.(u_mem) x = h.(u_mem) x).

Section take.
Context (base : Z) (h : heap) (l a b : list node) (pv ps n sz nunits : Z).
Context (Hfl : freelist base h l) (HL : (base, 0) :: l = a ++ (pv, ps) :: (n, sz) :: b).
Context (Hu : 1 <= nunits <= sz).

Lemma take_facts :
  ordered (a ++ (pv, ps) :: (n, sz) :: b) h.(u_brk) /\ chain h.(u_mem) (a ++ (pv, ps) :: (n, sz) :: b) base /\
  base <= pv /\ 0 <= ps /\ pv + HDR * Z.max 1 ps <= n /\ n + HDR * sz <= h.(u_brk) /\ n + HDR * sz <= nexta b h.(u_brk) /\ (n, sz) ∈ l /\
  (forall k, k ∈ a -> k.1 + HDR <= pv) /\ (forall k, k ∈ b -> n + HDR * sz <= k.1).
Proof using All.
  pose proof (fl_ord _ _ _ Hfl) as Ho. pose proof (fl_chain _ _ _ Hfl) as Hc. rewrite HL in Ho, Hc.
  split; [done|]. split; [done|].
  assert (Hpv : (pv, ps) ∈ a ++ (pv, ps) :: (n, sz) :: b) by (apply elem_of_app; right; by left).
  destruct (ordered_le _ _ _ Ho Hpv) as [H1 _]. rewrite <- HL in H1. cbn [nexta fst] in H1.
  pose proof Ho as Ho'. apply ordered_app in Ho' as [_ (Hps & H2 & _ & H3 & H4 & _)]. cbn [nexta fst snd] in *.
  destruct (ordered_le _ _ (n, sz) Ho) as [_ H5]; [apply elem_of_app; right; right; by left|]. cbn [fst snd] in H5.
  split; [done|]. split; [done|]. split; [done|]. split; [unfold HDR in *; lia|]. split; [unfold HDR in *; lia|]. split.
  { destruct (cons_app_inv _ _ _ _ _ HL) as [(_ & _ & ->)|(a' & _ & ->)]; [by left|]. apply elem_of_app. right. right. by left. }
  split; intros k Hk.
  - pose proof (ordered_before _ _ _ _ _ Ho Hk) as H. cbn [fst] in H. unfold HDR in *. lia.
  - change (a ++ (pv, ps) :: (n, sz) :: b) with (a ++ [(pv, ps)] ++ (n, sz) :: b) in Ho. rewrite app_assoc in Ho.
    pose proof (ordered_after _ _ _ _ _ Ho Hk) as H. cbn [fst snd] in H. unfold HDR in *. lia.
Qed.

(** The list without the cells of the block: the node goes, or shrinks. *)
Definition rest : list node := if decide (sz = nunits) then b else (n, sz - nunits) :: b.
Definition given : Z := n + HDR * (sz - nunits).

Lemma rest_ordered : ordered (a ++ (pv, ps) :: rest) h.(u_brk).
Proof using All.
  destruct take_facts as (Ho & _ & _ & Hps & Hpn & _ & Hnb & _). pose proof Ho as Ho'.
  apply ordered_app in Ho' as [Ho1 (_ & _ & Ho2 & _ & _ & Ho3 & Ho4)]. cbn [nexta fst snd] in *.
  assert (Hlast : forall k, last a = Some k -> k.1 + HDR * k.2 ≠ pv).
  { intros k Hk Hx. destruct a as [|j l' _] using rev_ind; [done|]. rewrite last_snoc in Hk. injection Hk as ->.
    rewrite <- app_assoc in Ho. apply ordered_app in Ho as [_ (_ & _ & H & _)]. by apply H. }
  apply ordered_join; [done| |intros k Hk _; by apply Hlast].
  unfold rest. case_decide; cbn [ordered nexta fst snd].
  - split; [done|]. split; [unfold HDR in *; lia|]. split; [unfold HDR in *; lia|]. done.
  - split; [done|]. split; [done|]. split; [intros _; by apply Ho2|]. split; [lia|]. split; [unfold HDR in *; lia|].
    split; [intros Hb; specialize (Ho3 Hb); unfold HDR in *; lia|]. done.
Qed.

Lemma rest_cells x :
  free_cell ((pv, ps) :: rest) x <-> free_cell ((pv, ps) :: (n, sz) :: b) x /\ ~ (given <= x < given + HDR * nunits).
Proof using All.
  destruct take_facts as (_ & _ & _ & Hps & Hpn & _ & _ & _ & _ & Hb). unfold rest, given.
  assert (Hbx : free_cell b x -> n + HDR * sz <= x) by (intros (k & Hk & Hx); specialize (Hb k Hk); lia).
  rewrite !free_cell_cons. cbn [fst snd]. case_decide as E0; rewrite ?free_cell_cons; cbn [fst snd]; unfold HDR in *.
  - split; [intros [H|H]; [split; [by left|lia]|split; [tauto|specialize (Hbx H); lia]]|].
    intros [[H|[H|H]] Hn]; [by left|lia|by right].
  - split; [intros [H|[H|H]]; [split; [by left|lia]|split; [right; left; lia|lia]|split; [tauto|specialize (Hbx H); lia]]|].
    intros [[H|[H|H]] Hn]; [by left|right; left; lia|tauto].
Qed.

Lemma rest_before x : free_cell a x -> ~ (given <= x < given + HDR * nunits).
Proof using All.
  destruct take_facts as (Ho & _ & _ & Hps & Hpn & _). unfold given. intros (k & Hk & Hx).
  pose proof (ordered_before _ _ _ _ _ Ho Hk) as H. cbn [fst] in H. unfold HDR in *. lia.
Qed.

Lemma rest_list : exists l', a ++ (pv, ps) :: rest = (base, 0) :: l' /\ Forall (fun k => 1 <= k.2) l'.
Proof using All.
  pose proof (fl_pos _ _ _ Hfl) as Hf.
  assert (Hr : forall a', Forall (fun k => 1 <= k.2) (a' ++ (n, sz) :: b) -> Forall (fun k => 1 <= k.2) (a' ++ rest)).
  { intros a' [H1 [H2 H3]%Forall_cons]%Forall_app. apply Forall_app. split; [done|]. unfold rest. case_decide; [done|].
    constructor; [cbn [snd] in *; lia|done]. }
  destruct (cons_app_inv _ _ _ _ _ HL) as [(-> & -> & E)|(a' & -> & E)]; rewrite E in Hf.
  - eexists. split; [done|]. by apply (Hr []).
  - exists (a' ++ [(pv, ps)] ++ rest). split; [done|]. rewrite app_assoc. apply Hr.
    by rewrite <- app_assoc.
Qed.

(** The memory after [take]. *)
Definition take_mem : mem :=
  if decide (sz = nunits) then put_ptr h.(u_mem) pv (nexta b base)
  else put_size (put_size h.(u_mem) n (sz - nunits)) given nunits.

Lemma take_run : take nunits pv n sz h = Ok (given + HDR) (mkheap take_mem pv h.(u_brk)).
Proof using All.
  destruct take_facts as (Ho & Hc & Hbp & Hps & Hpn & Htop & _). pose proof (fl_base _ _ _ Hfl). pose proof (fl_brk _ _ _ Hfl).
  apply chain_app in Hc as [_ (_ & _ & Hn & _)]. cbn [nexta fst snd] in *.
  assert (E1 : plus n (sz - nunits) = given) by (apply plus_small; unfold HDR in *; lia).
  assert (E2 : plus given 1 = given + HDR) by (rewrite plus_small; unfold given, HDR in *; lia).
  unfold take, take_mem, hptr, set_hptr, set_hsize. rewrite E1. destruct (Z.eqb_spec sz nunits) as [E|E].
  - rewrite decide_True by done. assert (Eg : given = n) by (unfold given, HDR; lia). rewrite Eg in *.
    rewrite (bind_ok _ _ _ n (set_umem (put_ptr h.(u_mem) pv (nexta b base)) h)); [by rewrite bind_modify, E2|].
    rewrite bind_gets, bind_modify. change (load64 (u_mem h) n) with (ptr_at (u_mem h) n). by rewrite Hn.
  - rewrite decide_False by done.
    rewrite (bind_ok _ _ _ given (set_umem (put_size (put_size h.(u_mem) n (sz - nunits)) given nunits) h)); [by rewrite bind_modify, E2|].
    rewrite !bind_modify. done.
Qed.

Lemma take_chain : chain take_mem (a ++ (pv, ps) :: rest) base /\ size_at take_mem given = nunits.
Proof using All.
  destruct take_facts as (Ho & Hc & Hbp & Hps & Hpn & Htop & Hnb & _ & Ha & Hb).
  pose proof (fl_base _ _ _ Hfl). pose proof (fl_brk _ _ _ Hfl).
  pose proof Hc as Hc'. apply chain_app in Hc as [Hc1 (Hp1 & Hp2 & Hn1 & Hn2 & Hc3)]. cbn [nexta fst snd] in *.
  unfold take_mem, rest, given in *. case_decide as E.
  - assert (Hcl : clear pv n) by (unfold clear, HDR in *; lia).
    assert (Hr : 0 <= nexta b base < 2 ^ 64).
    { destruct b as [|k b']; cbn [nexta]; [unfold HDR in *; lia|]. specialize (Hb k ltac:(by left)). cbn [nexta] in Hnb.
      pose proof (ordered_le _ _ k Ho ltac:(apply elem_of_app; right; right; right; by left)) as [_ Hk]. unfold HDR in *. lia. }
    split; [|rewrite E, Z.sub_diag, Z.mul_0_r, Z.add_0_r, size_put_ptr by (by left); congruence].
    apply chain_app. split; [|split; [|split]]; cbn [fst snd nexta].
    + eapply chain_hdrs; [|exact Hc1]. apply same_put_ptr. intros k Hk. specialize (Ha k Hk). unfold clear. lia.
    + by rewrite ptr_put_eq, u64_small.
    + rewrite size_put_ptr by (by right). done.
    + eapply chain_hdrs; [|exact Hc3]. apply same_put_ptr. intros k Hk. specialize (Hb k Hk). unfold clear, HDR in *. lia.
  - set (g := n + HDR * (sz - nunits)). assert (Hg : n + HDR <= g /\ g + HDR <= n + HDR * sz) by (unfold g, HDR in *; lia).
    assert (Hng : clear g n) by (unfold clear; lia). split; [|rewrite size_put_eq; apply u32_small; unfold HDR in *; lia].
    assert (Hcl : forall k : node, k.1 + HDR <= n \/ n + HDR * sz <= k.1 -> clear n k.1 /\ clear g k.1) by (intros k Hk; unfold clear, HDR in *; lia).
    assert (Hs : forall l', (forall k : node, k ∈ l' -> k.1 + HDR <= n \/ n + HDR * sz <= k.1) ->
      same_hdrs (u_mem h) (put_size (put_size (u_mem h) n (sz - nunits)) g nunits) l').
    { intros l' Hl. eapply same_trans; apply same_put_size; intros k Hk; by apply Hcl, Hl. }
    assert (Hpv := Hs [(pv, ps)] ltac:(intros k ->%list_elem_of_singleton; cbn [fst]; unfold HDR in *; lia) (pv, ps) ltac:(by left)).
    cbn [fst] in Hpv. apply chain_app. split; [|split; [|split; [|split; [|split]]]]; cbn [fst snd nexta].
    + eapply chain_hdrs; [|exact Hc1]. apply Hs. intros k Hk. specialize (Ha k Hk). unfold HDR in *. lia.
    + by rewrite (proj1 Hpv).
    + by rewrite (proj2 Hpv).
    + rewrite ptr_put_size, ptr_put_size by ((by left) || by right). done.
    + rewrite size_put_ne, size_put_eq by done. apply u32_small. unfold HDR in *. lia.
    + eapply chain_hdrs; [|exact Hc3]. apply Hs. intros k Hk. right. by apply Hb.
Qed.

Lemma take_mem_out x : ~ heap_cell base l x -> take_mem x = h.(u_mem) x.
Proof using All.
  destruct take_facts as (Ho & _ & Hbp & Hps & Hpn & Htop & Hnb & Hn & Ha & Hb). unfold heap_cell. intros Hx.
  assert (Hxn : ~ (n <= x < n + HDR * sz)) by (intros H; apply Hx; right; by apply (free_cell_split _ (n, sz))).
  unfold take_mem, given. case_decide as E.
  - apply put_ptr_out. destruct (decide (pv <= x < pv + HDR)) as [Hp|]; [|lia]. exfalso. apply Hx.
    destruct (cons_app_inv _ _ _ _ _ HL) as [(_ & E' & _)|(a' & _ & E')]; [injection E' as E1 E2; left; lia|right].
    assert (Hin : (pv, ps) ∈ l) by (rewrite E'; apply elem_of_app; right; by left).
    apply (free_cell_split _ (pv, ps)); [done|]. pose proof (fl_pos _ _ _ Hfl) as Hf. rewrite Forall_forall in Hf. specialize (Hf _ Hin).
    cbn [fst snd] in *. unfold HDR in *. lia.
  - rewrite !put_size_out; [done| |]; unfold HDR in *; lia.
Qed.

Lemma take_spec : exists h' l', take nunits pv n sz h = Ok (given + HDR) h' /\ taken base h l nunits given h' l'.
Proof using All.
  destruct take_chain as [Hc Hs], rest_list as (l' & El & Hpos'). pose proof rest_ordered as Ho'. rewrite El in Ho', Hc.
  exists (mkheap take_mem pv h.(u_brk)), l'. split; [apply take_run|].
  destruct take_facts as (_ & _ & Hbp & Hps & Hpn & Htop & Hnb & Hn & _ & _).
  unfold taken. cbn [u_mem u_brk]. split; [|split; [done|split; [done|split; [unfold given, HDR in *; lia|split; [|split]]]]].
  - constructor; cbn [u_mem u_brk u_freep]; try done; [apply (fl_base _ _ _ Hfl)| |apply (fl_brk _ _ _ Hfl)].
    exists ps. rewrite <- El. apply elem_of_app. right. by left.
  - intros x Hx. apply (free_cell_split _ (n, sz)); [done|]. cbn [fst snd]. unfold given, HDR in *. lia.
  - intros x. assert (H1 : free_cell ((base, 0) :: l) x <-> free_cell l x).
    { rewrite free_cell_cons. cbn [fst snd]. assert (~ base <= x < base + HDR * 0) by lia. tauto. }
    assert (H2 : free_cell ((base, 0) :: l') x <-> free_cell l' x).
    { rewrite free_cell_cons. cbn [fst snd]. assert (~ base <= x < base + HDR * 0) by lia. tauto. }
    rewrite <- H1, <- H2, <- El, HL, !free_cell_app, rest_cells. pose proof (rest_before x). tauto.
  - apply take_mem_out.
Qed.
End take.

(** ** The walk *)

Lemma chain_ring m a b e : chain m (a ++ b) (nexta (a ++ b) e) -> chain m (b ++ a) (nexta (b ++ a) e).
Proof.
  rewrite !chain_app, !nexta_app. intros [H1 H2]. destruct a as [|n a], b as [|k b]; done.
Qed.

(** The address of the block before the one after [d]. *)
Definition before (d : list node) (f : Z) : Z := match last d with Some k => k.1 | None => f end.

Lemma before_cons k d f : before (k :: d) f = before d k.1.
Proof. unfold before. destruct d as [|j d]; [done|]. rewrite last_cons_cons. destruct (last (j :: d)) eqn:E; [done|]. by apply last_None in E. Qed.

Section walk.
Context (sbrk : Z -> M heap Z) (h : heap) (nunits e : Z).

Lemma walk_found d n sz r prev fuel e' :
  chain h.(u_mem) (d ++ (n, sz) :: r) e -> (forall k, k ∈ d -> k.2 < nunits /\ k.1 ≠ h.(u_freep)) -> nunits <= sz ->
  (length d <= fuel)%nat ->
  malloc_loop sbrk fuel nunits prev (nexta (d ++ (n, sz) :: r) e') h = take nunits (before d prev) n sz h.
Proof.
  revert prev fuel e'. induction d as [|k d IH]; intros prev fuel e' Hc Hd Hz Hf.
  - destruct Hc as (_ & Hs & _). cbn [app nexta fst snd] in *. unfold before. cbn [last].
    destruct fuel; cbn [malloc_loop]; unfold hsize; rewrite bind_gets; change (load 4 (u_mem h) (n + 8)) with (size_at (u_mem h) n);
      rewrite Hs; by destruct (Z.leb_spec nunits sz); [|lia].
  - destruct fuel as [|fuel]; [simpl in Hf; lia|]. destruct Hc as (Hp & Hs & Hc). destruct (Hd k ltac:(by left)) as [Hk Hne].
    cbn [app nexta malloc_loop]. unfold hsize. rewrite bind_gets. change (load 4 (u_mem h) (k.1 + 8)) with (size_at (u_mem h) k.1).
    rewrite Hs. destruct (Z.leb_spec nunits k.2); [lia|]. rewrite bind_gets. destruct (Z.eqb_spec k.1 (u_freep h)); [done|].
    unfold hptr. rewrite bind_gets. change (load64 (u_mem h) k.1) with (ptr_at (u_mem h) k.1). rewrite Hp, before_cons.
    apply IH; [done| |done|simpl in Hf; lia]. intros j Hj. apply Hd. by right.
Qed.

Lemma walk_none d fs prev fuel e' :
  chain h.(u_mem) (d ++ [(h.(u_freep), fs)]) e -> (forall k, k ∈ d -> k.2 < nunits /\ k.1 ≠ h.(u_freep)) -> fs < nunits ->
  malloc_loop sbrk (length d + S fuel) nunits prev (nexta (d ++ [(h.(u_freep), fs)]) e') h =
  (p' ← morecore sbrk nunits; if p' =? 0 then mret 0 else nx ← hptr p'; malloc_loop sbrk fuel nunits p' nx) h.
Proof.
  revert prev e'. induction d as [|k d IH]; intros prev e' Hc Hd Hz.
  - destruct Hc as (_ & Hs & _). cbn [app nexta fst snd length Nat.add malloc_loop] in *. unfold hsize. rewrite bind_gets.
    change (load 4 (u_mem h) (u_freep h + 8)) with (size_at (u_mem h) (u_freep h)). rewrite Hs.
    destruct (Z.leb_spec nunits fs); [lia|]. rewrite bind_gets, Z.eqb_refl. done.
  - destruct Hc as (Hp & Hs & Hc). destruct (Hd k ltac:(by left)) as [Hk Hne].
    cbn [app nexta length Nat.add malloc_loop]. unfold hsize at 1. rewrite bind_gets. change (load 4 (u_mem h) (k.1 + 8)) with (size_at (u_mem h) k.1).
    rewrite Hs. destruct (Z.leb_spec nunits k.2); [lia|]. rewrite bind_gets. destruct (Z.eqb_spec k.1 (u_freep h)); [done|].
    unfold hptr at 1. rewrite bind_gets. change (load64 (u_mem h) k.1) with (ptr_at (u_mem h) k.1). rewrite Hp.
    apply IH; [done| |done]. intros j Hj. apply Hd. by right.
Qed.
End walk.

Lemma first_fit (nunits : Z) (r : list node) :
  (forall k, k ∈ r -> k.2 < nunits) \/
  exists d n sz t, r = d ++ (n, sz) :: t /\ (forall k, k ∈ d -> k.2 < nunits) /\ nunits <= sz.
Proof.
  induction r as [|[a s] r IH]; [left; by intros k ?%not_elem_of_nil|].
  destruct (decide (nunits <= s)); [right; exists [], a, s, r; split; [done|]; split; [by intros k ?%not_elem_of_nil|done]|].
  destruct IH as [IH|(d & m & sz & t & -> & Hd & Hz)].
  - left. intros k [->|Hk]%elem_of_cons; [cbn; lia|by apply IH].
  - right. exists ((a, s) :: d), m, sz, t. split; [done|]. split; [|done]. intros k [->|Hk]%elem_of_cons; [cbn; lia|by apply Hd].
Qed.

Lemma prefix_snoc (d t x : list node) k j : d ++ k :: t = x ++ [j] -> forall y, y ∈ d -> y ∈ x.
Proof.
  intros E y Hy. destruct t as [|j' t' _] using rev_ind.
  - apply app_inj_tail in E as [-> _]. done.
  - rewrite app_comm_cons, app_assoc in E. apply app_inj_tail in E as [<- _]. apply elem_of_app. by left.
Qed.

(** The block before the one found is its predecessor in address order too: the first
    block of the ring is the static header, which is never found. *)
Lemma ring_pred base l a b f fs d n sz t :
  (base, 0) :: l = a ++ (f, fs) :: b -> b ++ a ++ [(f, fs)] = d ++ (n, sz) :: t -> 1 <= sz ->
  exists a' ps b', (base, 0) :: l = a' ++ (before d f, ps) :: (n, sz) :: b'.
Proof.
  intros E R Hz. unfold before.
  assert (Hd : d = [] \/ exists d0 k, d = d0 ++ [k]) by (destruct d as [|k d0 _] using rev_ind; [by left|right; by exists d0, k]).
  apply app_eq_inv in R as [(b2 & -> & R)|(d2 & -> & R)].
  - destruct b2 as [|k2 b2]; cbn [app] in R.
    + rewrite app_nil_r in *. exfalso. destruct a as [|[? ?] a]; injection E as E1 E2; injection R; intros; subst; try congruence; lia.
    + injection R as <- ->. rewrite E. destruct Hd as [->|(d0 & [y ys] & ->)].
      * by exists a, fs, b2.
      * rewrite last_snoc. exists (a ++ (f, fs) :: d0), ys, b2. by rewrite <- !app_assoc.
  - change ((f, fs) :: b) with ([(f, fs)] ++ b) in E. rewrite app_assoc, R in E. destruct d2 as [|k2 d2 _] using rev_ind.
    + exfalso. injection E as E1 E2 _. lia.
    + rewrite app_assoc, last_snoc. destruct k2 as [y ys]. rewrite <- !app_assoc in E. by exists d2, ys, (t ++ b).
Qed.

Section ring.
Context (sbrk : Z -> M heap Z) (base : Z) (h : heap) (l : list node) (nunits : Z).
Context (Hfl : freelist base h l) (Hu : 1 <= nunits).

(** From freep on, the ring visits every block once and freep last. *)
Lemma ring_split : exists d fs,
  chain h.(u_mem) (d ++ [(h.(u_freep), fs)]) (nexta (d ++ [(h.(u_freep), fs)]) base) /\
  ptr_at h.(u_mem) h.(u_freep) = nexta (d ++ [(h.(u_freep), fs)]) base /\ length d = length l /\
  (forall k, k ∈ d -> k.1 ≠ h.(u_freep)) /\ (forall k, k ∈ d ++ [(h.(u_freep), fs)] <-> k ∈ (base, 0) :: l) /\
  (forall d' n sz t, d ++ [(h.(u_freep), fs)] = d' ++ (n, sz) :: t -> 1 <= sz ->
     exists a ps b, (base, 0) :: l = a ++ (before d' h.(u_freep), ps) :: (n, sz) :: b).
Proof using All.
  destruct Hfl as [Hb Hc Ho _ [fs Hf] _]. apply list_elem_of_split in Hf as (a & b & E). exists (b ++ a), fs.
  rewrite <- app_assoc. pose proof Ho as Ho'. rewrite E in Ho'.
  assert (Hc' : chain h.(u_mem) (b ++ a ++ [(h.(u_freep), fs)]) (nexta (b ++ a ++ [(h.(u_freep), fs)]) base)).
  { apply (chain_ring _ _ b). rewrite <- app_assoc. cbn [app]. rewrite <- E. done. }
  split; [done|]. split.
  { rewrite app_assoc in Hc'. apply chain_app in Hc' as [_ (H & _)]. cbn [fst nexta] in H. by rewrite <- app_assoc in H. }
  split; [apply (f_equal length) in E; rewrite length_app in *; cbn in E; lia|]. split; [|split].
  - intros k [Hk|Hk]%elem_of_app.
    + pose proof (ordered_after _ _ _ _ _ Ho' Hk) as H. cbn [fst] in H. unfold HDR in *. lia.
    + pose proof (ordered_before _ _ _ _ _ Ho' Hk) as H. cbn [fst] in H. unfold HDR in *. lia.
  - intros k. rewrite E. rewrite !elem_of_app, !elem_of_cons, elem_of_nil. tauto.
  - intros d' n sz t R Hz. by apply (ring_pred _ _ a b _ fs _ _ _ t).
Qed.

Lemma search_fit fuel :
  (exists k, k ∈ l /\ nunits <= k.2) -> (length l <= fuel)%nat ->
  exists q h' l', malloc_loop sbrk fuel nunits h.(u_freep) (ptr_at h.(u_mem) h.(u_freep)) h = Ok (q + HDR) h' /\
    taken base h l nunits q h' l'.
Proof using All.
  intros (k & Hk & Hz) Hf. destruct ring_split as (d & fs & Hc & -> & Hlen & Hne & Hin & Hpred).
  destruct (first_fit nunits (d ++ [(h.(u_freep), fs)])) as [Hno|(d' & n & sz & t & R & Hd & Hn)].
  { exfalso. specialize (Hno k (proj2 (Hin k) ltac:(by right))). lia. }
  destruct (Hpred _ _ _ _ R ltac:(lia)) as (a & ps & b & HL). pose proof R as R'. rewrite R' in Hc |- *.
  destruct (take_spec base h l a b (before d' h.(u_freep)) ps n sz nunits Hfl HL ltac:(lia)) as (h' & l' & Ht & HT).
  eexists _, h', l'. split; [|exact HT]. erewrite walk_found; [exact Ht|exact Hc| |exact Hn|].
  - intros j Hj. split; [by apply Hd|]. apply Hne. by apply (prefix_snoc _ _ _ _ _ (eq_sym R)).
  - apply (f_equal length) in R. rewrite !length_app in R. cbn in R. lia.
Qed.

Lemma search_none fuel :
  (forall k, k ∈ l -> k.2 < nunits) ->
  malloc_loop sbrk (length l + S fuel) nunits h.(u_freep) (ptr_at h.(u_mem) h.(u_freep)) h =
  (p' ← morecore sbrk nunits; if p' =? 0 then mret 0 else nx ← hptr p'; malloc_loop sbrk fuel nunits p' nx) h.
Proof using All.
  intros Hno. destruct ring_split as (d & fs & Hc & -> & <- & Hne & Hin & _).
  assert (Hno' : forall k, k ∈ d ++ [(h.(u_freep), fs)] -> k.2 < nunits).
  { intros k [->|Hk]%Hin%elem_of_cons; [cbn; lia|by apply Hno]. }
  eapply walk_none; [exact Hc| |].
  - intros k Hk. split; [|by apply Hne]. apply Hno', elem_of_app. by left.
  - apply (Hno' (u_freep h, fs)), elem_of_app. right. by left.
Qed.
End ring.

(** ** malloc *)

(** sbrk(n) with n > 0: SBRK_ERROR and nothing changed, or the old end of memory,
    which moves up by n.  All other memory and the variables of the program stay. *)
Record sbrk_ok (sbrk : Z -> M heap Z) : Prop := {
  sb_run n h : 0 < n -> 0 <= h.(u_brk) ->
    sbrk n h = Ok SBRK_ERROR h \/
    exists m, sbrk n h = Ok h.(u_brk) (mkheap m h.(u_freep) (h.(u_brk) + n)) /\ h.(u_brk) + n < 2 ^ 35 /\
      (forall x, x < h.(u_brk) \/ h.(u_brk) + n <= x -> m x = h.(u_mem) x) }.

Lemma ordered_top l top top' : top <= top' -> ordered l top -> ordered l top'.
Proof.
  intros Ht. induction l as [|n l IH]; [done|]. intros (H1 & H2 & H3 & H4). split; [done|].
  destruct l as [|k l]; cbn [nexta] in *; [split; [lia|]; split; [by intros []|by apply IH]|]. split; [done|]. split; [done|]. by apply IH.
Qed.

(** Memory has grown from [h] to [h']: the new cells are free. *)
Definition grown (base : Z) (h : heap) (l : list node) (h' : heap) (l' : list node) : Prop :=
  freelist base h' l' /\ h.(u_brk) <= h'.(u_brk) /\
  (forall x, free_cell l' x <-> free_cell l x \/ h.(u_brk) <= x < h'.(u_brk)) /\
  (forall x, ~ heap_cell base l' x -> h'.(u_mem) x = h.(u_mem) x).

Section malloc.
Context (base : Z) (sbrk : Z -> M heap Z) (Hsb : sbrk_ok sbrk).

Lemma freelist_mem m brk' h l :
  freelist base h l -> same_hdrs h.(u_mem) m ((base, 0) :: l) -> h.(u_brk) <= brk' < 2 ^ 35 -> freelist base (mkheap m h.(u_freep) brk') l.
Proof.
  intros [H1 H2 H3 H4 H5 H6] Hs Hb. constructor; cbn [u_mem u_freep u_brk]; try done; [by eapply chain_hdrs|apply (ordered_top _ h.(u_brk)); [lia|done]|lia].
Qed.

Lemma same_below m m' top l : (forall x, x < top -> m' x = m x) -> ordered l top -> same_hdrs m m' l.
Proof.
  intros H Ho n Hn. destruct (ordered_le _ _ _ Ho Hn) as [_ Ht]. unfold ptr_at, size_at, load64.
  rewrite !(load_ext _ m' m) by (intros x Hx; apply H; unfold HDR in *; lia). done.
Qed.

Lemma free_cell_range h l x : freelist base h l -> free_cell l x -> base + HDR <= x < h.(u_brk).
Proof.
  intros Hfl (n & Hn & Hx). pose proof (fl_ord _ _ _ Hfl) as Ho. pose proof (ordered_after [] _ _ _ _ Ho Hn) as H1.
  destruct (ordered_le _ _ n Ho ltac:(by right)) as [_ H2]. cbn [fst snd] in *. unfold HDR in *. lia.
Qed.

Lemma morecore_spec h l nunits :
  freelist base h l -> 1 <= nunits -> HDR * nunits < 2 ^ 31 ->
  (morecore sbrk nunits h = Ok 0 h /\ exists n, 0 < n /\ sbrk n h = Ok SBRK_ERROR h) \/
  exists h' l', morecore sbrk nunits h = Ok h'.(u_freep) h' /\ grown base h l h' l' /\ h'.(u_freep) ≠ 0 /\
    (exists k, k ∈ l' /\ nunits <= k.2) /\ (length l' <= S (length l))%nat.
Proof using Hsb.
  intros Hfl Hu Hm. unfold morecore.
  set (nu := if nunits <? 4096 then 4096 else nunits).
  assert (Hnu : 1 <= nunits <= nu /\ HDR * nu < 2 ^ 31) by (unfold nu, HDR in *; destruct (Z.ltb_spec nunits 4096); lia).
  rewrite i32_small by (unfold HDR in *; lia).
  pose proof (fl_base _ _ _ Hfl) as Hb. pose proof (fl_ord _ _ _ Hfl) as Ho. pose proof (fl_brk _ _ _ Hfl) as Hbrk.
  pose proof (ordered_le _ _ (base, 0) Ho ltac:(by left)) as [_ Hbt]. cbn [fst snd] in Hbt.
  destruct (sb_run _ Hsb (nu * HDR) h) as [E|(m & E & Hlim & Hm')]; [unfold HDR in *; lia|unfold HDR in *; lia| |].
  { left. split; [rewrite (bind_ok _ _ _ _ _ E); done|]. exists (nu * HDR). split; [unfold HDR in *; lia|done]. }
  right. set (brk := h.(u_brk)) in *. assert (Hne : brk ≠ SBRK_ERROR) by (change SBRK_ERROR with 18446744073709551615; lia).
  set (h1 := mkheap (put_size m brk nu) h.(u_freep) (brk + nu * HDR)).
  assert (F1 : freelist base h1 l).
  { apply freelist_mem; [done| |fold brk; unfold HDR in *; lia]. apply (same_below _ _ brk); [|done].
    intros x Hx. rewrite put_size_out by lia. apply Hm'. by left. }
  assert (Fc : forall x, free_cell l x -> base + HDR <= x < brk) by (intros x; by apply free_cell_range).
  destruct (free_block_spec base h1 l brk nu) as (h' & l' & R & F' & Eb & C' & M' & K' & L'); try done.
  - unfold h1. cbn [u_mem]. rewrite size_put_eq. apply u32_small. unfold HDR in *. lia.
  - lia.
  - unfold h1. cbn [u_brk]. unfold HDR in *. lia.
  - intros x Hx Hf. specialize (Fc x Hf). lia.
  - exists h', l'. unfold h1 in Eb, M'. cbn [u_brk u_mem] in Eb, M'. split; [|split; [|split; [|split; [|done]]]].
    + rewrite (bind_ok _ _ _ _ _ E). destruct (Z.eqb_spec brk SBRK_ERROR); [done|]. unfold set_hsize. rewrite bind_modify.
      assert (Ep : u64 (plus brk 1 - HDR) = brk) by (rewrite plus_small, u64_small; unfold HDR in *; lia).
      unfold free. rewrite Ep. fold h1. rewrite (bind_ok _ _ _ _ _ R). done.
    + split; [done|]. split; [unfold HDR in *; lia|]. split.
      * intros x. rewrite C', Eb. unfold HDR in *. assert (brk + nu * 16 = brk + 16 * nu) as -> by lia. fold brk. tauto.
      * intros x Hx. rewrite M' by done. unfold heap_cell in Hx. rewrite C' in Hx.
        assert (x < brk \/ brk + HDR * nu <= x) by lia. rewrite put_size_out by (unfold HDR in *; lia).
        apply Hm'. unfold HDR in *. lia.
    + destruct (fl_freep _ _ _ F') as [s Hs]. pose proof (ordered_le _ _ _ (fl_ord _ _ _ F') Hs) as [H _]. cbn [nexta fst] in H. lia.
    + destruct K' as (k & Hk & Hz). exists k. split; [done|]. lia.
Qed.

(** Before the first malloc, and after it. *)
Definition heap_ok (h : heap) (l : list node) : Prop :=
  (h.(u_freep) = 0 /\ l = [] /\ 0 < base /\ base + HDR <= h.(u_brk) < 2 ^ 35) \/ freelist base h l.

(** malloc's number of units: the bytes rounded up, and one for the header. *)
Definition units (nbytes : Z) : Z := (nbytes + HDR - 1) / HDR + 1.

Lemma units_range nbytes : 0 <= nbytes -> 1 <= units nbytes /\ nbytes + HDR <= HDR * units nbytes < nbytes + 2 * HDR.
Proof.
  intros H. unfold units, HDR in *. pose proof (Z.div_mod (nbytes + 16 - 1) 16 ltac:(lia)).
  pose proof (Z.mod_pos_bound (nbytes + 16 - 1) 16 ltac:(lia)). lia.
Qed.

(** The outcome of malloc: out of memory and nothing changed, or a block taken after
    memory has grown. *)
Definition malloc_out (nbytes : Z) (h : heap) (l : list node) : Prop :=
  (exists h', malloc base sbrk nbytes h = Ok 0 h' /\ freelist base h' l /\ h'.(u_brk) = h.(u_brk) /\
     (forall x, ~ heap_cell base l x -> h'.(u_mem) x = h.(u_mem) x) /\ exists n, 0 < n /\ sbrk n h' = Ok SBRK_ERROR h') \/
  exists q h1 l1 h' l', malloc base sbrk nbytes h = Ok (q + HDR) h' /\ grown base h l h1 l1 /\ taken base h1 l1 (units nbytes) q h' l'.

Lemma grown_refl h l : freelist base h l -> grown base h l h l.
Proof. intros H. split; [done|]. split; [done|]. split; [|done]. intros x. intuition lia. Qed.

(** malloc with the static header in place. *)
Lemma malloc_ring h l nunits fuel :
  freelist base h l -> 1 <= nunits -> HDR * nunits < 2 ^ 31 -> (2 * length l + 4 <= fuel)%nat ->
  (malloc_loop sbrk fuel nunits h.(u_freep) (ptr_at h.(u_mem) h.(u_freep)) h = Ok 0 h /\ exists n, 0 < n /\ sbrk n h = Ok SBRK_ERROR h) \/
  exists q h1 l1 h' l', malloc_loop sbrk fuel nunits h.(u_freep) (ptr_at h.(u_mem) h.(u_freep)) h = Ok (q + HDR) h' /\
    grown base h l h1 l1 /\ taken base h1 l1 nunits q h' l'.
Proof using Hsb.
  intros Hfl Hu Hm Hf. destruct (first_fit nunits l) as [Hno|(d & n & sz & t & E & _ & Hn)].
  - replace fuel with (length l + S (fuel - length l - 1))%nat by lia. rewrite (search_none sbrk base h l) by done.
    destruct (morecore_spec h l nunits Hfl Hu Hm) as [[E HE]|(h1 & l1 & E & HG & Hne & HK & HLen)].
    + left. split; [|done]. by rewrite (bind_ok _ _ _ _ _ E).
    + right. rewrite (bind_ok _ _ _ _ _ E). destruct (Z.eqb_spec (u_freep h1) 0); [done|]. unfold hptr. rewrite bind_gets.
      change (load64 (u_mem h1) (u_freep h1)) with (ptr_at (u_mem h1) (u_freep h1)).
      destruct (search_fit sbrk base h1 l1 nunits (proj1 HG) Hu (fuel - length l - 1)) as (q & h' & l' & E' & HT); [done|lia|].
      by exists q, h1, l1, h', l'.
  - right. destruct (search_fit sbrk base h l nunits Hfl Hu fuel) as (q & h' & l' & E' & HT); [|lia|].
    + exists (n, sz). split; [rewrite E; apply elem_of_app; right; by left|done].
    + exists q, h, l, h', l'. split; [done|]. split; [by apply grown_refl|done].
Qed.

Lemma malloc_spec nbytes h l : heap_ok h l -> 0 <= nbytes <= 2 ^ 31 - 32 -> malloc_out nbytes h l.
Proof using Hsb.
  intros Hok Hn. pose proof (units_range nbytes ltac:(lia)) as [Hu1 Hu2]. unfold malloc_out, malloc.
  assert (Eu : u32 (u64 (nbytes + HDR - 1) / HDR + 1) = units nbytes).
  { rewrite u64_small by (unfold HDR; lia). apply u32_small. fold (units nbytes). unfold HDR in *. lia. }
  rewrite Eu. rewrite bind_gets.
  assert (Hm : HDR * units nbytes < 2 ^ 31) by (unfold HDR in *; lia).
  destruct Hok as [(Hf & -> & Hb & Hbrk)|Hfl].
  - set (h0 := mkheap (put_size (put_ptr h.(u_mem) base base) base 0) base h.(u_brk)).
    assert (F0 : freelist base h0 []).
    { constructor; cbn [h0 u_mem u_freep u_brk]; try done; [| |by exists 0; left|lia].
      - split; [|split; [|done]]; cbn [fst snd nexta].
        + rewrite ptr_put_size, ptr_put_eq by (by right). apply u64_small. unfold HDR in *. lia.
        + by rewrite size_put_eq.
      - cbn [ordered fst snd nexta]. unfold HDR in *. split; [lia|]. split; [lia|]. split; [by intros []|done]. }
    assert (Hmem : forall x, ~ heap_cell base [] x -> h0.(u_mem) x = h.(u_mem) x).
    { intros x Hx. unfold heap_cell in Hx. unfold h0. cbn [u_mem]. rewrite put_size_out, put_ptr_out by (unfold HDR in *; lia). done. }
    rewrite Hf. cbn [Z.eqb]. rewrite (bind_ok _ _ _ base h0) by done. unfold hptr. rewrite !bind_gets.
    destruct (malloc_ring h0 [] (units nbytes) (2 * rounds h0 + 4) F0 Hu1 Hm ltac:(cbn [length]; lia)) as [[E HE]|(q & h1 & l1 & h' & l' & E & HG & HT)].
    + left. exists h0. by split.
    + right. exists q, h1, l1, h', l'. split; [exact E|]. split; [|exact HT]. destruct HG as (G1 & G2 & G3 & G4).
      split; [done|]. split; [exact G2|]. split; [exact G3|]. intros x Hx. rewrite G4 by done. apply Hmem. intros [H|H]; apply Hx; [by left|by destruct (free_cell_nil x)].
  - destruct (fl_freep _ _ _ Hfl) as [fs Hs]. pose proof (ordered_le _ _ _ (fl_ord _ _ _ Hfl) Hs) as [H _]. cbn [nexta fst] in H.
    pose proof (fl_base _ _ _ Hfl). destruct (Z.eqb_spec (u_freep h) 0); [lia|]. rewrite bind_ret. unfold hptr. rewrite !bind_gets.
    pose proof (list_rounds _ _ _ Hfl).
    destruct (malloc_ring h l (units nbytes) (2 * rounds h + 4) Hfl Hu1 Hm ltac:(lia)) as [[E HE]|(q & h1 & l1 & h' & l' & E & HG & HT)].
    + left. exists h. by split.
    + right. by exists q, h1, l1, h', l'.
Qed.
End malloc.
