(* ===== verification/MallocClient.v ===== *)
(** * Programs that use malloc and free

    A client allocates, frees what it has allocated and writes into its blocks, in
    any order.  Whatever the sequence of calls, malloc and free return, the blocks of
    the client do not overlap, they hold what the client wrote last, and every cell
    that has come from sbrk is in exactly one block, free or allocated. *)

From Stdlib Require Import ZArith Lia.
From stdpp Require Import base numbers list strings gmap.
From S2P Require Import Prelude Mem Umalloc UmallocSpec MallocSpec.
Open Scope Z_scope.

(** A block of the client: what malloc returned, the bytes asked for, and what has
    been written into it by offset. *)
Record chunk := mkchunk { c_addr : Z; c_len : Z; c_data : gmap Z Z }.

Inductive call := Cmalloc (nbytes : Z) | Cfree (i : nat) | Cwrite (i : nat) (off v : Z).

Section inv.
Context (base : Z).

(** The cells of a block, its header included. *)
Definition head (k : chunk) : Z := k.(c_addr) - HDR.
Definition size (k : chunk) : Z := HDR * units k.(c_len).
Definition chunk_cell (k : chunk) (x : Z) : Prop := head k <= x < head k + size k.

Record chunk_ok (h : heap) (l : list node) (k : chunk) : Prop := {
  ck_len : 0 <= k.(c_len) <= 2 ^ 31 - 32;
  ck_base : base + HDR <= head k;
  ck_top : head k + size k <= h.(u_brk);
  ck_size : size_at h.(u_mem) (head k) = units k.(c_len);
  ck_cells x : chunk_cell k x -> ~ free_cell l x;
  ck_data off v : k.(c_data) !! off = Some v -> 0 <= off < k.(c_len) /\ h.(u_mem) (k.(c_addr) + off) = v }.

(** The blocks of the client and the free blocks share out the heap. *)
Record heap_inv (brk0 : Z) (h : heap) (cs : list chunk) (l : list node) : Prop := {
  hi_ok : heap_ok base h l;
  hi_brk : brk0 <= h.(u_brk);
  hi_used : cs ≠ [] -> freelist base h l;
  hi_chunks k : k ∈ cs -> chunk_ok h l k;
  hi_apart i j ki kj x : cs !! i = Some ki -> cs !! j = Some kj -> chunk_cell ki x -> chunk_cell kj x -> i = j;
  hi_all x : brk0 <= x < h.(u_brk) <-> free_cell l x \/ exists k, k ∈ cs /\ chunk_cell k x }.

Lemma chunk_keep h h' l l' k :
  chunk_ok h l k -> h.(u_brk) <= h'.(u_brk) -> (forall x, chunk_cell k x -> ~ free_cell l' x) ->
  (forall x, chunk_cell k x -> h'.(u_mem) x = h.(u_mem) x) -> chunk_ok h' l' k.
Proof.
  intros [H1 H2 H3 H4 H5 H6] Hb Hf Hm. pose proof (units_range k.(c_len) ltac:(lia)) as [Hu1 Hu2].
  constructor; try done; try lia.
  - rewrite <- H4. unfold size_at. apply load_ext. intros x Hx. apply Hm. unfold chunk_cell, size, HDR in *. lia.
  - intros off v Ho. destruct (H6 off v Ho) as [Hr <-]. split; [done|]. apply Hm. unfold chunk_cell, head, size, HDR in *. lia.
Qed.

Lemma chunk_not_heap h l k x : chunk_ok h l k -> chunk_cell k x -> ~ heap_cell base l x.
Proof. intros Hk Hx [Hb|Hf]; [|by apply (ck_cells _ _ _ Hk x)]. pose proof (ck_base _ _ _ Hk). unfold chunk_cell in Hx. lia. Qed.

Lemma store_1 m a v : store 1 m a v a = u8 v.
Proof. unfold store, u8. rewrite Z.leb_refl, Z.sub_diag, Z.div_1_r. by destruct (Z.ltb_spec a (a + Z.of_nat 1)); [|lia]. Qed.

Section steps.
Context (brk0 : Z) (h : heap) (cs : list chunk) (l : list node) (Hinv : heap_inv brk0 h cs l).

(** Blocks stay what they are when the allocator has only written to cells that are
    not theirs. *)
Lemma fail_inv h' :
  freelist base h' l -> h'.(u_brk) = h.(u_brk) -> (forall x, ~ heap_cell base l x -> h'.(u_mem) x = h.(u_mem) x) -> heap_inv brk0 h' cs l.
Proof using Hinv.
  intros Hfl Hb Hm. destruct Hinv as [H1 H2 H3 H4 H5 H6]. constructor; try done; [by right|lia| |by rewrite Hb].
  intros k Hk. apply (chunk_keep h h' l l); [by apply H4|lia|by apply (ck_cells _ _ _ (H4 k Hk))|].
  intros x Hx. apply Hm. exact (chunk_not_heap h l k x (H4 k Hk) Hx).
Qed.

Lemma taken_inv n q h1 l1 h' l' :
  0 <= n <= 2 ^ 31 - 32 -> grown base h l h1 l1 -> taken base h1 l1 (units n) q h' l' ->
  heap_inv brk0 h' (mkchunk (q + HDR) n ∅ :: cs) l'.
Proof using Hinv.
  intros Hn (G1 & G2 & G3 & G4) (T1 & T2 & T3 & T4 & T5 & T6 & T7). destruct Hinv as [_ H2 _ H4 H5 H6].
  pose proof (units_range n ltac:(lia)) as [Hu1 Hu2]. set (k0 := mkchunk (q + HDR) n ∅).
  assert (C0 : forall x, chunk_cell k0 x <-> q <= x < q + HDR * units n)
    by (intros x; unfold chunk_cell, head, size, k0; cbn [c_addr c_len]; lia).
  assert (Hold : forall k x, k ∈ cs -> chunk_cell k x -> ~ free_cell l1 x).
  { intros k x Hk Hx. rewrite G3. pose proof (ck_cells _ _ _ (H4 k Hk) x Hx). pose proof (ck_top _ _ _ (H4 k Hk)).
    unfold chunk_cell in Hx. intros [?|?]; [done|lia]. }
  constructor.
  - by right.
  - lia.
  - done.
  - intros k [->|Hk]%elem_of_cons.
    + constructor; unfold head, size, k0; cbn [c_addr c_len c_data]; try done; try lia.
      * rewrite T2. pose proof (free_cell_range base h1 l1 (q + HDR * units n - 1) G1 (T5 (q + HDR * units n - 1) ltac:(unfold HDR in *; lia))). lia.
      * by replace (q + HDR - HDR) with q by lia.
      * intros x Hx%C0. rewrite T6. tauto.
    + apply (chunk_keep h h' l l'); [by apply H4|lia| |].
      * intros x Hx. rewrite T6. pose proof (Hold k x Hk Hx). tauto.
      * intros x Hx. assert (~ heap_cell base l1 x).
        { intros [Hb|Hf]; [|by apply (Hold k x)]. pose proof (ck_base _ _ _ (H4 k Hk)). unfold chunk_cell in Hx. lia. }
        rewrite T7, G4 by done. done.
  - intros i j ki kj x Hi Hj Hx Hy. destruct i as [|i], j as [|j]; cbn [lookup list_lookup] in Hi, Hj; [done| | |].
    + injection Hi as <-. exfalso. apply (Hold kj x); [by eapply list_elem_of_lookup_2|done|]. by apply T5, C0.
    + injection Hj as <-. exfalso. apply (Hold ki x); [by eapply list_elem_of_lookup_2|done|]. by apply T5, C0.
    + f_equal. by apply (H5 i j ki kj x).
  - intros x. rewrite T2, T6, G3. specialize (H6 x).
    assert (E : brk0 <= x < h1.(u_brk) <-> brk0 <= x < h.(u_brk) \/ h.(u_brk) <= x < h1.(u_brk)) by lia. rewrite E, H6.
    assert (Hc : (exists k, k ∈ k0 :: cs /\ chunk_cell k x) <-> q <= x < q + HDR * units n \/ exists k, k ∈ cs /\ chunk_cell k x).
    { rewrite <- C0. split.
      - intros (k & [->|Hk]%elem_of_cons & Hx); [by left|right; by exists k].
      - intros [Hx|(k & Hk & Hx)]; [exists k0|exists k]; rewrite elem_of_cons; auto. }
    rewrite Hc. specialize (T5 x). rewrite G3 in T5.
    destruct (decide (q <= x < q + HDR * units n)); tauto.
Qed.

Lemma delete_lookup i j k : delete i cs !! j = Some k -> cs !! (if decide (j < i)%nat then j else S j) = Some k.
Proof. intros H. case_decide; [rewrite list_lookup_delete_lt in H by done|rewrite list_lookup_delete_ge in H by lia]; exact H. Qed.

Lemma freed_inv i k h' l' :
  cs !! i = Some k -> freelist base h' l' -> h'.(u_brk) = h.(u_brk) ->
  (forall x, free_cell l' x <-> free_cell l x \/ chunk_cell k x) ->
  (forall x, ~ heap_cell base l' x -> h'.(u_mem) x = h.(u_mem) x) -> heap_inv brk0 h' (delete i cs) l'.
Proof using Hinv.
  intros Hi F' Eb C' M'. destruct Hinv as [_ H2 _ H4 H5 H6].
  assert (Hj : forall j kj, delete i cs !! j = Some kj -> kj ∈ cs /\ forall x, chunk_cell kj x -> ~ chunk_cell k x).
  { intros j kj Hj%delete_lookup. split; [by eapply list_elem_of_lookup_2|]. intros x Hx Hk.
    pose proof (H5 _ _ _ _ x Hj Hi Hx Hk) as E. case_decide; lia. }
  constructor; [by right|lia|done| | |].
  - intros kj [j Hk]%list_elem_of_lookup_1. destruct (Hj j kj Hk) as [Hin Hd]. specialize (H4 kj Hin).
    assert (Hnf : forall x, chunk_cell kj x -> ~ free_cell l' x).
    { intros x Hx. rewrite C'. pose proof (ck_cells _ _ _ H4 x Hx). specialize (Hd x Hx). tauto. }
    apply (chunk_keep h h' l l'); [done|lia|done|]. intros x Hx. apply M'. intros [Hb|Hf]; [|by apply (Hnf x)].
    pose proof (ck_base _ _ _ H4). unfold chunk_cell in Hx. lia.
  - intros a b ka kb x Ha%delete_lookup Hb%delete_lookup Hx Hy. pose proof (H5 _ _ _ _ x Ha Hb Hx Hy). repeat case_decide; lia.
  - intros x. rewrite Eb, C', H6. split; [|intros [[Hf|Hk]|(kj & Hk & Hx)]].
    + intros [Hf|(kj & [j Hkj]%list_elem_of_lookup_1 & Hx)]; [tauto|]. destruct (decide (j = i)) as [->|Hne]; [left; right; congruence|].
      right. exists kj. split; [|done]. apply (list_elem_of_lookup_2 _ (if decide (j < i)%nat then j else pred j)).
      case_decide; [by rewrite list_lookup_delete_lt|]. rewrite list_lookup_delete_ge by lia. by replace (S (pred j)) with j by lia.
    + by left.
    + right. exists k. split; [by eapply list_elem_of_lookup_2|done].
    + right. apply list_elem_of_lookup_1 in Hk as [j Hk]. exists kj. split; [by apply (Hj j)|done].
Qed.

Lemma written_inv i k off v :
  cs !! i = Some k -> 0 <= off < k.(c_len) ->
  heap_inv brk0 (set_umem (store 1 h.(u_mem) (k.(c_addr) + off) v) h)
    (<[i := mkchunk k.(c_addr) k.(c_len) (<[off := u8 v]> k.(c_data))]> cs) l.
Proof using Hinv.
  intros Hi Ho. destruct Hinv as [_ H2 H3 H4 H5 H6]. assert (Hk : k ∈ cs) by (by eapply list_elem_of_lookup_2).
  pose proof (H4 k Hk) as Kk. pose proof (units_range k.(c_len) ltac:(lia)) as [Hu1 Hu2].
  assert (Hfl : freelist base h l) by (apply H3; by intros ->).
  set (a := k.(c_addr) + off). set (k' := mkchunk _ _ _).
  assert (Ha : chunk_cell k a /\ head k + HDR <= a) by (unfold a, chunk_cell, head, size, HDR in *; lia).
  assert (Hm : forall x, x ≠ a -> store 1 h.(u_mem) a v x = h.(u_mem) x) by (intros x Hx; apply store_ne; lia).
  assert (Hs : same_hdrs h.(u_mem) (store 1 h.(u_mem) a v) ((base, 0) :: l)).
  { intros n Hn. assert (Hna : forall x, n.1 <= x < n.1 + HDR -> x ≠ a).
    { intros x Hx ->. pose proof (ck_base _ _ _ Kk). apply elem_of_cons in Hn as [->|Hn]; [cbn [fst] in Hx; lia|].
      apply (ck_cells _ _ _ Kk a (proj1 Ha)), (free_cell_split _ n); [done|]. pose proof (fl_pos _ _ _ Hfl) as Hp.
      rewrite Forall_forall in Hp. specialize (Hp n Hn). unfold HDR in *. cbn [snd] in Hp. lia. }
    unfold ptr_at, size_at, load64. rewrite !(load_ext _ (store 1 h.(u_mem) a v) h.(u_mem)) by (intros x Hx; apply Hm, Hna; unfold HDR; lia). done. }
  assert (Hfl' : freelist base (set_umem (store 1 h.(u_mem) a v) h) l).
  { apply freelist_mem; [done|done|]. pose proof (fl_brk _ _ _ Hfl). lia. }
  assert (Hl : forall j kj, <[i := k']> cs !! j = Some kj -> exists kj0, cs !! j = Some kj0 /\ head kj = head kj0 /\ size kj = size kj0).
  { intros j kj. destruct (decide (j = i)) as [->|Hne].
    - rewrite list_lookup_insert_eq by (by eapply lookup_lt_Some). intros [= <-]. by exists k.
    - rewrite list_lookup_insert_ne by done. intros Hj. by exists kj. }
  assert (Hc : forall kj kj0 x, head kj = head kj0 -> size kj = size kj0 -> chunk_cell kj x <-> chunk_cell kj0 x)
    by (intros kj kj0 x E1 E2; unfold chunk_cell; by rewrite E1, E2).
  constructor; [by right|done|done| | |].
  - intros kj [j Hj]%list_elem_of_lookup_1. destruct (decide (j = i)) as [->|Hne].
    + rewrite list_lookup_insert_eq in Hj by (by eapply lookup_lt_Some). injection Hj as <-. destruct Kk as [K1 K2 K3 K4 K5 K6].
      constructor; try done.
      * etransitivity; [|exact K4]. unfold size_at. cbn [u_mem set_umem]. apply load_ext. intros x Hx. apply Hm. unfold head, k', HDR in *. cbn [c_addr] in Hx. lia.
      * intros o w. unfold k'. cbn [c_data c_len c_addr u_mem set_umem]. destruct (decide (o = off)) as [->|Hno].
        -- rewrite lookup_insert_eq. intros [= <-]. split; [done|]. fold a. apply store_1.
        -- rewrite lookup_insert_ne by done. intros Hw. destruct (K6 o w Hw) as [Hr <-]. split; [done|]. apply Hm. unfold a. lia.
    + rewrite list_lookup_insert_ne in Hj by done. assert (Hin : kj ∈ cs) by (by eapply list_elem_of_lookup_2).
      apply (chunk_keep h _ l l); [by apply H4|done|by apply (ck_cells _ _ _ (H4 kj Hin))|].
      intros x Hx. apply Hm. intros ->. apply Hne. exact (H5 j i kj k a Hj Hi Hx (proj1 Ha)).
  - intros i1 i2 k1 k2 x E1 E2 Hx Hy. destruct (Hl _ _ E1) as (k1' & E1' & Ha1 & Hb1), (Hl _ _ E2) as (k2' & E2' & Ha2 & Hb2).
    apply (H5 i1 i2 k1' k2' x); [done|done|by apply (Hc k1)|by apply (Hc k2)].
  - intros x. cbn [u_brk set_umem]. rewrite H6. split; (intros [Hf|(kj & [j Hj]%list_elem_of_lookup_1 & Hx)]; [by left|right]).
    + destruct (decide (j = i)) as [->|Hne].
      * exists k'. split; [apply (list_elem_of_lookup_2 _ i); apply list_lookup_insert_eq; by eapply lookup_lt_Some|].
        assert (kj = k) as -> by congruence. by apply (Hc k' k).
      * exists kj. split; [|done]. apply (list_elem_of_lookup_2 _ j). by rewrite list_lookup_insert_ne.
    + destruct (Hl _ _ Hj) as (k0 & E0 & Ha0 & Hb0). exists k0. split; [by eapply list_elem_of_lookup_2|by apply (Hc kj k0)].
Qed.
End steps.
End inv.

Section client.
Context (base : Z) (sbrk : Z -> M heap Z).

(** One call; the index is that of a block the client has, a call with no such block
    or with an offset outside it is not made. *)
Definition client_step (c : call) (st : heap * list chunk) : option (heap * list chunk) :=
  let '(h, cs) := st in
  match c with
  | Cmalloc n =>
      match malloc base sbrk n h with
      | Ok a h' => Some (h', if a =? 0 then cs else mkchunk a n ∅ :: cs)
      | _ => None
      end
  | Cfree i =>
      match cs !! i with
      | Some k => match free k.(c_addr) h with Ok _ h' => Some (h', delete i cs) | _ => None end
      | None => Some st
      end
  | Cwrite i off v =>
      match cs !! i with
      | Some k =>
          if (0 <=? off) && (off <? k.(c_len)) then
            Some (set_umem (store 1 h.(u_mem) (k.(c_addr) + off) v) h,
                  <[i := mkchunk k.(c_addr) k.(c_len) (<[off := u8 v]> k.(c_data))]> cs)
          else Some st
      | None => Some st
      end
  end.

Fixpoint client (calls : list call) (st : heap * list chunk) : option (heap * list chunk) :=
  match calls with [] => Some st | c :: cs => match client_step c st with Some st' => client cs st' | None => None end end.

(** The size in the header stays an int number of bytes. *)
Definition call_ok (c : call) : Prop := match c with Cmalloc n => 0 <= n <= 2 ^ 31 - 32 | _ => True end.


Context (Hsb : sbrk_ok sbrk).

Lemma client_step_inv brk0 c h cs l :
  call_ok c -> heap_inv base brk0 h cs l -> exists h' cs' l', client_step c (h, cs) = Some (h', cs') /\ heap_inv base brk0 h' cs' l'.
Proof using Hsb.
  intros Hc Hinv. destruct c as [n|i|i off v]; cbn [client_step call_ok] in *.
  - destruct (malloc_spec base sbrk Hsb n h l (hi_ok _ _ _ _ _ Hinv) Hc) as [(h' & -> & F' & Eb & M' & _)|(q & h1 & l1 & h' & l' & -> & G & T)].
    + exists h', cs, l. split; [done|]. by apply (fail_inv base brk0 h).
    + assert (q + HDR ≠ 0) by (destruct G as (G & _), T as (_ & _ & _ & T & _); pose proof (fl_base _ _ _ G); unfold HDR in *; lia).
      destruct (Z.eqb_spec (q + HDR) 0); [done|]. eexists h', _, l'. split; [done|]. by apply (taken_inv base brk0 h cs l Hinv n q h1 l1).
  - destruct (cs !! i) as [k|] eqn:E; [|by exists h, cs, l]. assert (Hk : k ∈ cs) by (by eapply list_elem_of_lookup_2).
    pose proof (hi_chunks _ _ _ _ _ Hinv k Hk) as [K1 K2 K3 K4 K5 K6]. pose proof (units_range k.(c_len) ltac:(lia)) as [Hu1 _].
    assert (Hfl : freelist base h l) by (apply (hi_used _ _ _ _ _ Hinv); by intros ->).
    destruct (free_block_spec base h l (head k) (units k.(c_len)) Hfl K4 Hu1 K2 K3 K5) as (h' & l' & R & F' & Eb & C' & M' & _).
    exists h', (delete i cs), l'. split; [|by apply (freed_inv base brk0 h cs l Hinv i k)].
    unfold free. rewrite u64_small; [unfold head in R; by rewrite R|]. pose proof (fl_brk _ _ _ Hfl). pose proof (fl_base _ _ _ Hfl).
    unfold head, size, HDR in *. lia.
  - destruct (cs !! i) as [k|] eqn:E; [|by exists h, cs, l].
    destruct (Z.leb_spec 0 off), (Z.ltb_spec off k.(c_len)); cbn [andb]; try by exists h, cs, l.
    eexists _, _, l. split; [done|]. by apply (written_inv base brk0 h cs l Hinv).
Qed.

Lemma client_inv brk0 calls h cs l :
  Forall call_ok calls -> heap_inv base brk0 h cs l -> exists h' cs' l', client calls (h, cs) = Some (h', cs') /\ heap_inv base brk0 h' cs' l'.
Proof using Hsb.
  revert h cs l. induction calls as [|c calls IH]; intros h cs l Hf Hinv; [by exists h, cs, l|].
  apply Forall_cons in Hf as [Hc Hf]. destruct (client_step_inv brk0 c h cs l Hc Hinv) as (h' & cs' & l' & E & Hinv').
  cbn [client]. rewrite E. by apply (IH h' cs' l').
Qed.
End client.

Lemma fresh_inv base h : h.(u_freep) = 0 -> 0 < base -> base + HDR <= h.(u_brk) < 2 ^ 35 -> heap_inv base h.(u_brk) h [] [].
Proof.
  intros Hf Hb Ht. constructor; try done; [by left|by intros k ?%not_elem_of_nil|]. intros x. split; [lia|].
  intros [?%free_cell_nil|(k & ?%not_elem_of_nil & _)]; done.
Qed.

(** C8. Every program that allocates at most 2^31 - 32 bytes at a time with malloc, frees
    each block it was given at most once and writes inside its blocks runs without the
    allocator looping or failing; its live blocks never share a byte, each holds what
    the program wrote to it last, and each byte that sbrk has delivered belongs to
    exactly one block, free or live: nothing is lost or handed out twice, whatever the
    order of the calls.  The program starts with an empty allocator and a break below
    2^35.  The bound on the sizes ([call_ok]) is needed: beyond it the
    argument of sbrk does not fit the int it is passed in. *)
Theorem umalloc_safe base sbrk calls h :
  sbrk_ok sbrk -> h.(u_freep) = 0 -> 0 < base -> base + HDR <= h.(u_brk) < 2 ^ 35 -> Forall call_ok calls ->
  exists h' cs l, client base sbrk calls (h, []) = Some (h', cs) /\ heap_inv base h.(u_brk) h' cs l /\
    (forall i j ki kj a b, cs !! i = Some ki -> cs !! j = Some kj -> 0 <= a < ki.(c_len) -> 0 <= b < kj.(c_len) ->
       ki.(c_addr) + a = kj.(c_addr) + b -> i = j) /\
    (forall k off v, k ∈ cs -> k.(c_data) !! off = Some v -> h'.(u_mem) (k.(c_addr) + off) = v).
Proof.
  intros Hsb Hf Hb Ht Hc.
  destruct (client_inv base sbrk Hsb h.(u_brk) calls h [] [] Hc (fresh_inv base h Hf Hb Ht)) as (h' & cs & l & E & Hinv).
  exists h', cs, l. split; [done|]. split; [done|]. destruct Hinv as [_ _ _ H4 H5 _]. split.
  - intros i j ki kj a b Hi Hj Ha Hb' Eq. apply (H5 i j ki kj (ki.(c_addr) + a) Hi Hj).
    + pose proof (units_range ki.(c_len) ltac:(lia)). unfold chunk_cell, head, size. lia.
    + rewrite Eq. pose proof (units_range kj.(c_len) ltac:(lia)). unfold chunk_cell, head, size. lia.
  - intros k off v Hk Hv. by apply (ck_data _ _ _ _ (H4 k Hk)).
Qed.

(** ** A program of six calls *)

Definition demo_sbrk (n : Z) : M heap Z := fun h =>
  if (h.(u_brk) + n <? 2 ^ 30) then Ok h.(u_brk) (mkheap h.(u_mem) h.(u_freep) (h.(u_brk) + n)) else Ok SBRK_ERROR h.
Definition demo_heap : heap := mkheap (fun _ => 0) 0 20480.
Definition demo_calls : list call := [Cmalloc 100; Cmalloc 5000; Cwrite 0 7 42; Cfree 1; Cmalloc 40; Cmalloc 70000].

Lemma demo_sbrk_ok : sbrk_ok demo_sbrk.
Proof.
  constructor. intros n h Hn Hb. unfold demo_sbrk. destruct (Z.ltb_spec (h.(u_brk) + n) (2 ^ 30)); [right|by left].
  exists h.(u_mem). split; [done|]. split; [lia|done].
Qed.

Lemma umalloc_safe_witness :
  (exists h' cs, client 16384 demo_sbrk demo_calls (demo_heap, []) = Some (h', cs) /\ map c_addr cs = [86032; 85968; 80880] /\
     forall k off v, k ∈ cs -> k.(c_data) !! off = Some v -> h'.(u_mem) (k.(c_addr) + off) = v).
Proof.
  destruct (umalloc_safe 16384 demo_sbrk demo_calls demo_heap demo_sbrk_ok) as (h' & cs & l & E & _ & _ & H);
    [done|done|cbn; unfold HDR; lia|unfold demo_calls; repeat constructor; cbn; lia|].
  exists h', cs. split; [exact E|]. split; [|exact H].
  assert (E2 : option_map (fun st => map c_addr st.2) (client 16384 demo_sbrk demo_calls (demo_heap, [])) = Some [86032; 85968; 80880])
    by (vm_compute; reflexivity).
  rewrite E in E2. by injection E2.
Defined.
