(* ===== verification/Mkfs.v ===== *)
(** * The file system image builder (mkfs/mkfs.c)

    The image is the list of the blocks of the host file; writing past its end fills the
    gap with zeroes, reading there dies.  Other errors of the host's file operations are not
    modelled.  The files to store are arguments: a name, as on the command line, and the
    pieces the host's read() returns their contents in.

    Values that the program converts with xshort and xint are little-endian in the image;
    the model's host is little-endian like the machines xv6 is built on. *)

From Stdlib Require Import ZArith Lia.
From stdpp Require Import base list numbers strings.
From S2P Require Import Prelude Types Mem Str Layout Kalloc Vm State Fs.
Open Scope Z_scope.

Definition NINODES : Z := 200.
Definition nbitmap : Z := FSSIZE / BPB + 1.
Definition ninodeblocks : Z := NINODES / IPB + 1.
Definition nlog : Z := LOGBLOCKS + 1.
Definition nmeta : Z := 2 + nlog + ninodeblocks + nbitmap.
Definition nblocks : Z := FSSIZE - nmeta.

(** The image file, freeinode and freeblock. *)
Record mkfs := mkmkfs { m_img : list block; m_freeinode : Z; m_freeblock : Z }.
Definition set_img x s := mkmkfs x s.(m_freeinode) s.(m_freeblock).
Definition set_freeinode x s := mkmkfs s.(m_img) x s.(m_freeblock).
Definition set_freeblock x s := mkmkfs s.(m_img) s.(m_freeinode) x.

(** The bytes a[0], a[1], ... of the result, read by a little-endian host. *)
Definition xshort (x : Z) : Z := u8 x + 256 * u8 (Z.shiftr x 8).
Definition xint (x : Z) : Z :=
  u8 x + 256 * (u8 (Z.shiftr x 8) + 256 * (u8 (Z.shiftr x 16) + 256 * u8 (Z.shiftr x 24))).

Definition mkfs_sb : superblock :=
  mksb FSMAGIC (xint FSSIZE) (xint nblocks) (xint NINODES) (xint nlog) (xint 2) (xint (2 + nlog)) (xint (2 + nlog + ninodeblocks)).

Definition zeroes : block := fun _ => 0.

Definition wsect (sec : Z) (buf : block) : M mkfs unit :=
  modify (fun s =>
    let i := Z.to_nat sec in
    if Nat.ltb i (length s.(m_img)) then set_img (<[i := buf]> s.(m_img)) s
    else set_img (s.(m_img) ++ replicate (i - length s.(m_img)) zeroes ++ [buf]) s).

Definition rsect (sec : Z) : M mkfs block :=
  o ← gets (fun s => s.(m_img) !! Z.to_nat sec);
  match o with Some b => mret b | None => panic "read" end.

Definition winode (inum : Z) (ip : inode) : M mkfs unit :=
  let bn := IBLOCK inum mkfs_sb in
  buf ← rsect bn;
  wsect bn (write_dinode ip (inum mod IPB * DINODE_SIZE) buf).

Definition rinode (inum : Z) : M mkfs inode :=
  let bn := IBLOCK inum mkfs_sb in
  buf ← rsect bn;
  mret (read_dinode buf (inum mod IPB * DINODE_SIZE) zero_inode).

Definition ialloc (type : Z) : M mkfs Z :=
  inum ← gets m_freeinode;
  modify (fun s => set_freeinode (u32 (inum + 1)) s) ;;
  winode inum (set_size (xint 0) (set_nlink (xshort 1) (set_type (xshort type) zero_inode))) ;;
  mret inum.

(** x = freeblock++ *)
Definition next_block : M mkfs Z :=
  x ← gets m_freeblock;
  modify (fun s => set_freeblock (u32 (x + 1)) s) ;;
  mret x.

(** addrs[i], allocated if it is missing. *)
Definition find_addr (din : inode) (i : nat) : M mkfs inode :=
  if xint (din.(i_addrs) !!! i) =? 0 then
    x ← next_block; mret (set_addrs (<[i := xint x]> din.(i_addrs)) din)
  else mret din.

(** The entry of the indirect block for [fbn], allocated if it is missing. *)
Definition find_entry (din : inode) (fbn : Z) : M mkfs Z :=
  let a := xint (din.(i_addrs) !!! Z.to_nat NDIRECT) in
  let o := 4 * (fbn - NDIRECT) in
  indirect ← rsect a;
  if load 4 indirect o =? 0 then
    x ← next_block;
    let indirect := store 4 indirect o (xint x) in
    wsect a indirect ;;
    mret (xint (load 4 indirect o))
  else mret (xint (load 4 indirect o)).

(** The block of the file at [fbn] and the inode with it. *)
Definition find_block (din : inode) (fbn : Z) : M mkfs (Z * inode) :=
  if fbn <? NDIRECT then
    din ← find_addr din (Z.to_nat fbn);
    mret (xint (din.(i_addrs) !!! Z.to_nat fbn), din)
  else
    din ← find_addr din (Z.to_nat NDIRECT);
    x ← find_entry din fbn;
    mret (x, din).

(** while(n > 0): [p] are the n bytes left; the loop takes at least one each time. *)
Fixpoint iappend_loop (fuel : nat) (p : list Z) (off : Z) (din : inode) : M mkfs (Z * inode) :=
  let n := Z.of_nat (length p) in
  if n >? 0 then
    let fbn := off / BSIZE in
    if negb (fbn <? MAXFILE) then panic "assert"
    else
      xd ← find_block din fbn;
      let n1 := Z.min n ((fbn + 1) * BSIZE - off) in
      buf ← rsect xd.1;
      wsect xd.1 (write_bytes buf (off - fbn * BSIZE) (take (Z.to_nat n1) p)) ;;
      match fuel with
      | O => nofuel
      | S f => iappend_loop f (drop (Z.to_nat n1) p) (u32 (off + n1)) xd.2
      end
  else mret (off, din).

Definition iappend (inum : Z) (p : list Z) : M mkfs unit :=
  din ← rinode inum;
  od ← iappend_loop (length p) p (xint din.(i_size)) din;
  winode inum (set_size (xint od.1) od.2).

(** Mark the first [used] blocks. *)
Definition balloc (used : Z) : M mkfs unit :=
  if negb (used <? BPB) then panic "assert"
  else
    let buf := foldl (fun buf i => upd buf (i / 8) (u8 (Z.lor (buf (i / 8)) (Z.shiftl 1 (i mod 8))))) zeroes (seqZ 0 used) in
    wsect mkfs_sb.(sb_bmapstart) buf.

(** struct dirent with the name in its DIRSIZ bytes *)
Definition dirent (inum : Z) (name : list Z) : list Z :=
  [u8 inum; u8 (Z.shiftr inum 8)] ++ take DIRSIZ (name ++ replicate DIRSIZ 0).

(** The name in the image: without user/ and a leading underscore. *)
Definition user_slash : list Z := bytes "user/".
Definition short_name (arg : list Z) : M mkfs (list Z) :=
  let shortname := if decide (take 5 arg = user_slash) then drop 5 arg else arg in
  if bool_decide (47 ∈ shortname) then panic "assert"
  else
    let shortname := match shortname with 95 :: r => r | _ => shortname end in
    if Nat.leb (length shortname) DIRSIZ then mret shortname else panic "assert".

(** The block of the super block. *)
Definition sb_block : block :=
  store_words zeroes 0 [mkfs_sb.(sb_magic); mkfs_sb.(sb_size); mkfs_sb.(sb_nblocks); mkfs_sb.(sb_ninodes);
    mkfs_sb.(sb_nlog); mkfs_sb.(sb_logstart); mkfs_sb.(sb_inodestart); mkfs_sb.(sb_bmapstart)].

(** The body of the loop over the files. *)
Definition add_file (rootino : Z) (f : list Z * list (list Z)) : M mkfs unit :=
  name ← short_name f.1;
  inum ← ialloc T_FILE;
  iappend rootino (dirent (xshort inum) name) ;;
  foreach f.2 (iappend inum).

(** fix size of root inode dir *)
Definition fix_root (rootino : Z) : M mkfs unit :=
  din ← rinode rootino;
  let off := xint din.(i_size) in
  let off := u32 ((off / BSIZE + 1) * BSIZE) in
  winode rootino (set_size (xint off) din).

(** main() from the layout on *)
Definition build (files : list (list Z * list (list Z))) : M mkfs unit :=
  modify (set_freeblock nmeta) ;;
  foreach (seqZ 0 FSSIZE) (fun i => wsect i zeroes) ;;
  wsect 1 sb_block ;;
  rootino ← ialloc T_DIR;
  if negb (rootino =? ROOTINO) then panic "assert"
  else
    iappend rootino (dirent (xshort rootino) (bytes ".")) ;;
    iappend rootino (dirent (xshort rootino) (bytes "..")) ;;
    foreach files (add_file rootino) ;;
    fix_root rootino ;;
    used ← gets m_freeblock;
    balloc used.

(** The program starts with an empty image file and freeinode = 1. *)
Definition mkfs_main (files : list (list Z * list (list Z))) : res mkfs unit := build files (mkmkfs [] 1 0).
