(* ===== verification/MkfsSpec.v ===== *)
(** * What mkfs keeps of the image while it builds it

    [holds s v]: the image stores the inodes [v], a type and contents each, from number 1
    on.  [iappend] and [ialloc] change the inodes as they should; the theorems about the
    finished image follow. *)

From Stdlib Require Import ZArith Lia.
From stdpp Require Import base list numbers strings.
From S2P Require Import Prelude Types Mem Str Layout Kalloc Vm VmCopy State Fs Mkfs FsInode.
Open Scope Z_scope.

(** ** Numbers *)

Lemma xint_small x : 0 <= x < 2 ^ 32 -> xint x = x.
Proof.
  intros Hx. unfold xint, u8. rewrite !Z.shiftr_div_pow2 by lia.
  change (2 ^ 8) with 256. change (2 ^ 16) with (256 * 256). change (2 ^ 24) with (256 * (256 * 256)).
  rewrite <- !Z.div_div by lia.
  pose proof (Z.div_mod x 256). pose proof (Z.div_mod (x / 256) 256). pose proof (Z.div_mod (x / 256 / 256) 256).
  rewrite (Z.mod_small (x / 256 / 256 / 256)); [lia|].
  change (2 ^ 32) with (256 * 256 * 256 * 256) in Hx. split; [repeat apply Z.div_pos; lia|].
  repeat (apply Z.div_lt_upper_bound; [lia|]). lia.
Qed.

Lemma xshort_small x : 0 <= x < 2 ^ 16 -> xshort x = x.
Proof.
  intros Hx. unfold xshort, u8. rewrite Z.shiftr_div_pow2 by lia. change (2 ^ 8) with 256. change (2 ^ 16) with (256 * 256) in Hx.
  pose proof (Z.div_mod x 256). rewrite (Z.mod_small (x / 256)); [lia|].
  split; [apply Z.div_pos; lia|apply Z.div_lt_upper_bound; lia].
Qed.

(** ** The image *)

Definition img_at (img : list block) (n : Z) : block := default zeroes (img !! Z.to_nat n).
Definition put (n : Z) (b : block) (s : mkfs) : mkfs := set_img (<[Z.to_nat n := b]> s.(m_img)) s.

Lemma wsect_in n b s : 0 <= n < Z.of_nat (length s.(m_img)) -> wsect n b s = Ok tt (put n b s).
Proof. intros H. unfold wsect, modify. destruct (Nat.ltb_spec (Z.to_nat n) (length (m_img s))); [done|lia]. Qed.

Lemma rsect_in n s : 0 <= n < Z.of_nat (length s.(m_img)) -> rsect n s = Ok (img_at s.(m_img) n) s.
Proof.
  intros H. unfold rsect. mstep. unfold img_at. destruct (lookup_lt_is_Some_2 (m_img s) (Z.to_nat n)) as [b Hb]; [lia|].
  by rewrite Hb.
Qed.

Lemma put_at n b s m : 0 <= n < Z.of_nat (length s.(m_img)) -> 0 <= m ->
  img_at (put n b s).(m_img) m = if m =? n then b else img_at s.(m_img) m.
Proof.
  intros Hn Hm. unfold img_at, put. simpl. destruct (Z.eqb_spec m n) as [->|Hne].
  - rewrite list_lookup_insert_eq by lia. done.
  - rewrite list_lookup_insert_ne by lia. done.
Qed.

Lemma put_img_len n b s : length (put n b s).(m_img) = length s.(m_img).
Proof. apply length_insert. Qed.

(** ** Inodes on the disk *)

(** The inode that mkfs writes for a file. *)
Definition din_of (ty size : Z) (addrs : list Z) : inode := mkinode 0 0 0 false ty 0 0 1 size addrs.

Lemma dinode_roundtrip ty size addrs o b :
  0 <= ty < 2 ^ 15 -> 0 <= size < 2 ^ 32 -> length addrs = 13%nat -> Forall (fun x => 0 <= x < 2 ^ 32) addrs ->
  read_dinode (write_dinode (din_of ty size addrs) o b) o zero_inode = din_of ty size addrs.
Proof.
  intros Hty Hsz Hlen Ha. rewrite read_write_dinode; [done|]. split; cbn; unfold short_ok; first [done | lia].
Qed.

Lemma dinode_other ip o o' b :
  length ip.(i_addrs) = 13%nat -> o' + 64 <= o \/ o + 64 <= o' ->
  read_dinode (write_dinode ip o b) o' zero_inode = read_dinode b o' zero_inode.
Proof.
  apply read_write_dinode_ne.
Qed.

(** ** Files in the image *)

Lemma nmeta_val : nmeta = 47.
Proof. reflexivity. Qed.
Lemma MAXFILE_val : MAXFILE = 268.
Proof. reflexivity. Qed.

(** A file: its type, contents, data blocks in order and indirect block (0 for none). *)
Record ifile := mkif { x_ty : Z; x_data : list Z; x_blks : list Z; x_ind : Z }.
Definition own (f : ifile) : list Z := x_blks f ++ (if x_ind f =? 0 then [] else [x_ind f]).
Definition addrs_of (f : ifile) : list Z := take 12 (x_blks f ++ replicate 12 0) ++ [x_ind f].

(** The blocks of a file hold its contents, and zeroes behind them. *)
Record content (img : list block) (f : ifile) : Prop := {
  t_max : Z.of_nat (length (x_blks f)) <= MAXFILE;
  t_room : Z.of_nat (length (x_data f)) <= BSIZE * Z.of_nat (length (x_blks f));
  t_direct : x_ind f = 0 -> (length (x_blks f) <= 12)%nat;
  t_ind : x_ind f <> 0 -> forall j, (j < 256)%nat -> load 4 (img_at img (x_ind f)) (4 * Z.of_nat j) = nth (12 + j) (x_blks f) 0;
  t_data : forall i b x, x_blks f !! i = Some b -> 0 <= x < BSIZE ->
    img_at img b x = nth (Z.to_nat (BSIZE * Z.of_nat i + x)) (x_data f) 0
}.

Lemma own_blks f b : b ∈ x_blks f -> b ∈ own f.
Proof. intros H. unfold own. apply elem_of_app. by left. Qed.
Lemma own_ind f : x_ind f <> 0 -> x_ind f ∈ own f.
Proof. intros H. unfold own. destruct (Z.eqb_spec (x_ind f) 0); [done|]. apply elem_of_app. right. by left. Qed.

Lemma content_ext img img' f :
  (forall n, n ∈ own f -> forall x, img_at img' n x = img_at img n x) -> content img f -> content img' f.
Proof.
  intros E []. split; try done.
  - intros H j Hj. rewrite <- t_ind0 by done. apply load_ext. intros x _. apply E. by apply own_ind.
  - intros i b x Hb Hx. rewrite E; [by apply t_data0|]. apply own_blks. by eapply list_elem_of_lookup_2.
Qed.

Record space (s : mkfs) (fs : list ifile) : Prop := {
  sp_len : Z.of_nat (length s.(m_img)) = FSSIZE;
  sp_nodup : NoDup (fs ≫= own);
  sp_bound : forall b, b ∈ fs ≫= own -> nmeta <= b < s.(m_freeblock);
  sp_free : s.(m_freeblock) = nmeta + Z.of_nat (length (fs ≫= own));
  sp_max : s.(m_freeblock) <= FSSIZE;
  sp_fresh : forall n x, s.(m_freeblock) <= n < FSSIZE -> img_at s.(m_img) n x = 0;
  sp_content : forall f, f ∈ fs -> content s.(m_img) f
}.

Lemma split_at {A} (l : list A) k x : l !! k = Some x -> exists l1 l2, l = l1 ++ x :: l2 /\ length l1 = k /\ forall y, <[k := y]> l = l1 ++ y :: l2.
Proof.
  intros H. exists (take k l), (drop (S k) l). pose proof (lookup_lt_Some _ _ _ H). split; [by rewrite take_drop_middle|].
  split; [rewrite length_take; lia|]. intros y. by rewrite insert_take_drop.
Qed.

(** The file [k] changes to [f'], which has the blocks [new] in addition. *)
Lemma space_change s s' fs k f f' new :
  space s fs -> fs !! k = Some f -> own f' ≡ₚ new ++ own f -> (new = [] \/ new = [s.(m_freeblock)]) ->
  length s'.(m_img) = length s.(m_img) -> s'.(m_freeblock) = s.(m_freeblock) + Z.of_nat (length new) -> s'.(m_freeblock) <= FSSIZE ->
  (forall n x, 0 <= n < FSSIZE -> n ∉ own f' -> img_at s'.(m_img) n x = img_at s.(m_img) n x) ->
  content s'.(m_img) f' -> space s' (<[k := f']> fs).
Proof.
  intros [] Hk Ho Hnew Hlen Hfree Hmax Hout Hc. destruct (split_at fs k f Hk) as (l1 & l2 & -> & Hl1 & Hins). rewrite Hins.
  assert ((l1 ++ f' :: l2) ≫= own ≡ₚ new ++ ((l1 ++ f :: l2) ≫= own)) as Ep.
  { rewrite !bind_app, !bind_cons, Ho. solve_Permutation. }
  assert (forall b, b ∈ new -> b = m_freeblock s /\ m_freeblock s' = m_freeblock s + 1) as Hn.
  { intros b Hb. destruct Hnew as [->| ->]; [by apply elem_of_nil in Hb|]. apply list_elem_of_singleton in Hb. split; [done|]. simpl in Hfree. lia. }
  assert (NoDup (new ++ ((l1 ++ f :: l2) ≫= own))) as Hnd.
  { apply NoDup_app. split; [destruct Hnew as [->| ->]; [apply NoDup_nil_2|apply NoDup_singleton]|]. split; [|done].
    intros b Hb Hin. apply Hn in Hb as [-> _]. apply sp_bound0 in Hin. lia. }
  rewrite <- Ep in Hnd. split.
  - by rewrite Hlen.
  - done.
  - intros b. rewrite Ep, elem_of_app. intros [Hb|Hb].
    + destruct (Hn b Hb) as [-> ->]. rewrite sp_free0. lia.
    + apply sp_bound0 in Hb. lia.
  - rewrite Hfree, Ep, length_app, sp_free0. lia.
  - done.
  - intros n x Hx. rewrite Hout; [apply sp_fresh0; lia|pose proof nmeta_val; lia|].
    rewrite Ho, elem_of_app. intros [Hb|Hb].
    + destruct (Hn n Hb). lia.
    + assert (nmeta <= n < m_freeblock s); [|lia]. apply sp_bound0. rewrite bind_app, bind_cons, !elem_of_app. tauto.
  - intros g Hg. rewrite elem_of_app, elem_of_cons in Hg.
    assert (g ∈ l1 \/ g ∈ l2 -> content (m_img s') g) as Hother; [|destruct Hg as [?|[->|?]]; [tauto|done|tauto]].
    intros Hg'. apply (content_ext (m_img s)); [|apply sp_content0; rewrite elem_of_app, elem_of_cons; tauto].
    intros n Hin x. apply Hout.
    + assert (nmeta <= n < m_freeblock s); [|pose proof nmeta_val; lia]. apply sp_bound0.
      rewrite bind_app, bind_cons, !elem_of_app, !list_elem_of_bind. destruct Hg'; [left|right; right]; eauto.
    + intros Hf. assert ((l1 ++ f' :: l2) ≫= own ≡ₚ own f' ++ ((l1 ++ l2) ≫= own)) as Eo by (rewrite !bind_app, bind_cons; solve_Permutation).
      rewrite Eo in Hnd. apply NoDup_app in Hnd as (_ & Hd & _). apply (Hd n Hf). apply list_elem_of_bind. exists g. rewrite elem_of_app. tauto.
Qed.

(** ** A block more *)

Lemma load_zero n (m : mem) a : (forall x, m x = 0) -> load n m a = 0.
Proof. intros H. revert a. induction n as [|n IH]; intros a; [done|]. cbn [load]. by rewrite H, IH. Qed.

Definition with_ind (f : ifile) (x : Z) : ifile := mkif (x_ty f) (x_data f) (x_blks f) x.
Definition grown (f : ifile) (x : Z) : ifile := mkif (x_ty f) (x_data f) (x_blks f ++ [x]) (x_ind f).
Definition took_block (s : mkfs) : mkfs := set_freeblock (s.(m_freeblock) + 1) s.

Lemma own_grown f x : own (grown f x) ≡ₚ [x] ++ own f.
Proof. unfold own, grown. simpl. solve_Permutation. Qed.

Section change.
Context (s : mkfs) (fs : list ifile) (k : nat) (f : ifile) (H : space s fs) (Hk : fs !! k = Some f).

Lemma file_content : content s.(m_img) f.
Proof using H Hk. apply (sp_content _ _ H). by eapply list_elem_of_lookup_2. Qed.

Lemma file_bound b : b ∈ own f -> nmeta <= b < s.(m_freeblock).
Proof using H Hk. intros Hb. apply (sp_bound _ _ H). apply list_elem_of_bind. exists f. split; [done|]. by eapply list_elem_of_lookup_2. Qed.

Lemma file_nodup : NoDup (own f).
Proof using H Hk.
  destruct (split_at fs k f Hk) as (l1 & l2 & -> & _). pose proof (sp_nodup _ _ H) as Hn.
  rewrite bind_app, bind_cons in Hn. apply NoDup_app in Hn as (_ & _ & Hn). by apply NoDup_app in Hn as (? & _ & _).
Qed.

Lemma free_pos : nmeta <= s.(m_freeblock).
Proof using H. rewrite (sp_free _ _ H). lia. Qed.

Lemma alloc_ind :
  x_ind f = 0 -> length (x_blks f) = 12%nat -> s.(m_freeblock) < FSSIZE ->
  space (took_block s) (<[k := with_ind f s.(m_freeblock)]> fs).
Proof using H Hk.
  intros H0 H12 Hmax. pose proof free_pos. pose proof nmeta_val. pose proof file_content as [].
  apply (space_change s _ fs k f _ [s.(m_freeblock)]); try done.
  - unfold own, with_ind. cbn [x_blks x_ind]. rewrite H0. destruct (Z.eqb_spec (m_freeblock s) 0); [lia|]. simpl. solve_Permutation.
  - by right.
  - simpl. lia.
  - split; try done; cbn [with_ind x_blks x_data x_ind]; [lia|].
    intros _ j Hj. rewrite nth_overflow by lia. apply load_zero. intros x. apply (sp_fresh _ _ H). lia.
Qed.

Lemma fresh_data x i b y : x = s.(m_freeblock) -> s.(m_freeblock) < FSSIZE -> x_blks (grown f x) !! i = Some b -> 0 <= y < BSIZE ->
  (x_blks f !! i = Some b \/ (b = x /\ img_at s.(m_img) b y = nth (Z.to_nat (BSIZE * Z.of_nat i + y)) (x_data f) 0)).
Proof using H Hk.
  intros -> Hmax Hi Hy. pose proof file_content as []. simpl in Hi. apply lookup_app_Some in Hi as [Hi|[Hge Hi]]; [by left|right].
  apply list_lookup_singleton_Some in Hi as [Hi <-]. split; [done|]. rewrite nth_overflow by (unfold BSIZE in *; lia). apply (sp_fresh _ _ H). lia.
Qed.

Lemma alloc_direct :
  (length (x_blks f) < 12)%nat -> s.(m_freeblock) < FSSIZE -> space (took_block s) (<[k := grown f s.(m_freeblock)]> fs).
Proof using H Hk.
  intros H12 Hmax. pose proof file_content as [].
  apply (space_change s _ fs k f _ [s.(m_freeblock)]); try done.
  - apply own_grown.
  - by right.
  - simpl. lia.
  - change (content (m_img s) (grown f (m_freeblock s))). split; cbn [grown x_blks x_data x_ind]; rewrite ?length_app; cbn [length]; try (rewrite ?MAXFILE_val; unfold BSIZE in *; lia).
    + intros Hi j Hj. rewrite (t_ind0 Hi j Hj), !nth_overflow; [done|rewrite length_app; simpl; lia|lia].
    + intros i b x Hi Hx. destruct (fresh_data _ i b x eq_refl Hmax Hi Hx) as [Hi'|[_ ?]]; [by apply t_data0|done].
Qed.

Lemma alloc_indirect :
  x_ind f <> 0 -> (12 <= length (x_blks f))%nat -> Z.of_nat (length (x_blks f)) < MAXFILE -> s.(m_freeblock) < FSSIZE ->
  let o := 4 * (Z.of_nat (length (x_blks f)) - NDIRECT) in
  space (put (x_ind f) (store 4 (img_at s.(m_img) (x_ind f)) o s.(m_freeblock)) (took_block s)) (<[k := grown f s.(m_freeblock)]> fs).
Proof using H Hk.
  intros Hi H12 Hm Hmax o. pose proof free_pos. pose proof nmeta_val. pose proof file_content as []. pose proof (sp_len _ _ H) as Hlen.
  pose proof (file_bound _ (own_ind f Hi)) as Hb. pose proof file_nodup as Hnd.
  assert (forall n, 0 <= n -> img_at (m_img (put (x_ind f) (store 4 (img_at s.(m_img) (x_ind f)) o s.(m_freeblock)) (took_block s))) n =
    if n =? x_ind f then store 4 (img_at s.(m_img) (x_ind f)) o s.(m_freeblock) else img_at s.(m_img) n) as Hat.
  { intros n Hn. rewrite put_at by (simpl; lia). done. }
  apply (space_change s _ fs k f _ [s.(m_freeblock)]); try done.
  - apply own_grown.
  - by right.
  - by rewrite put_img_len.
  - simpl. lia.
  - intros n x Hn Hout. rewrite Hat by lia. destruct (Z.eqb_spec n (x_ind f)) as [->|]; [|done]. exfalso. apply Hout. by apply (own_ind (grown f _)).
  - split; cbn [grown x_blks x_data x_ind]; rewrite ?length_app; cbn [length].
    + lia.
    + unfold BSIZE in *. lia.
    + done.
    + intros _ j Hj. rewrite Hat, Z.eqb_refl by lia. unfold o, NDIRECT in *. destruct (decide (12 + j = length (x_blks f))%nat) as [E|E].
      * replace (4 * Z.of_nat j) with (4 * (Z.of_nat (length (x_blks f)) - 12)) by lia. rewrite load_store_eq, app_nth2, E, Nat.sub_diag by lia.
        simpl. apply Z.mod_small. unfold FSSIZE in *. lia.
      * rewrite load_store_ne by lia. rewrite (t_ind0 Hi j Hj). destruct (decide (12 + j < length (x_blks f))%nat) as [Hl|Hl].
        -- by rewrite app_nth1.
        -- rewrite !nth_overflow; [done|rewrite length_app; simpl; lia|lia].
    + intros i b x Hib Hx. destruct (fresh_data _ i b x eq_refl Hmax Hib Hx) as [Hi'|[-> Hz]].
      * assert (b ∈ x_blks f) as Hin by (by eapply list_elem_of_lookup_2). pose proof (file_bound _ (own_blks f b Hin)).
        rewrite Hat by lia. destruct (Z.eqb_spec b (x_ind f)) as [->|]; [|by apply t_data0].
        exfalso. unfold own in Hnd. rewrite (proj2 (Z.eqb_neq _ _) Hi) in Hnd. apply NoDup_app in Hnd as (_ & Hd & _). apply (Hd _ Hin). by left.
      * rewrite Hat by lia. destruct (Z.eqb_spec (m_freeblock s) (x_ind f)); [lia|done].
Qed.

(** ** More contents *)

Lemma append_data b bs i :
  x_blks f !! i = Some b -> S i = length (x_blks f) -> (length (x_data f) + length bs <= Z.to_nat BSIZE * S i)%nat ->
  (Z.to_nat BSIZE * i <= length (x_data f))%nat ->
  let o := Z.of_nat (length (x_data f)) - BSIZE * Z.of_nat i in
  space (put b (write_bytes (img_at s.(m_img) b) o bs) s) (<[k := mkif (x_ty f) (x_data f ++ bs) (x_blks f) (x_ind f)]> fs).
Proof using H Hk.
  intros Hb Hi Hroom Hge o. pose proof nmeta_val. pose proof file_content as []. pose proof (sp_len _ _ H) as Hlen.
  assert (b ∈ x_blks f) as Hin by (by eapply list_elem_of_lookup_2). pose proof (file_bound _ (own_blks f b Hin)) as Hbb.
  pose proof (sp_max _ _ H) as Hmax. pose proof file_nodup as Hnd.
  assert (forall n, 0 <= n -> img_at (m_img (put b (write_bytes (img_at s.(m_img) b) o bs) s)) n =
    if n =? b then write_bytes (img_at s.(m_img) b) o bs else img_at s.(m_img) n) as Hat by (intros n Hn; apply put_at; lia).
  apply (space_change s _ fs k f _ []); try done.
  - by left.
  - by rewrite put_img_len.
  - simpl. lia.
  - intros n x Hn Hout. rewrite Hat by lia. destruct (Z.eqb_spec n b) as [->|]; [|done]. exfalso. apply Hout. by apply (own_blks (mkif _ _ (x_blks f) _)).
  - unfold own in Hnd. split; cbn [x_blks x_data x_ind]; rewrite ?length_app; try done.
    + unfold BSIZE in *. lia.
    + intros Hi0 j Hj. pose proof (file_bound _ (own_ind f Hi0)). rewrite Hat by lia.
      destruct (Z.eqb_spec (x_ind f) b) as [E|]; [|by apply t_ind0].
      exfalso. rewrite (proj2 (Z.eqb_neq _ _) Hi0) in Hnd. apply NoDup_app in Hnd as (_ & Hd & _). apply (Hd _ Hin). rewrite E. by left.
    + intros i' b' x Hb' Hx. assert (b' ∈ x_blks f) as Hin' by (by eapply list_elem_of_lookup_2).
      pose proof (file_bound _ (own_blks f b' Hin')). rewrite Hat by lia. apply NoDup_app in Hnd as (Hnd & _ & _).
      pose proof (lookup_lt_Some _ _ _ Hb') as Hi'.
      destruct (Z.eqb_spec b' b) as [->|Hne].
      * assert (i' = i) as -> by (by eapply NoDup_lookup). unfold write_bytes. pose proof (t_data0 i b x Hb Hx) as Hold.
        unfold o, BSIZE in *. destruct (Z.leb_spec (Z.of_nat (length (x_data f)) - 1024 * Z.of_nat i) x) as [Hle|Hlt]; simpl.
        -- rewrite app_nth2 by lia. destruct (Z.ltb_spec x (Z.of_nat (length (x_data f)) - 1024 * Z.of_nat i + Z.of_nat (length bs))).
           ++ f_equal. lia.
           ++ rewrite Hold, !nth_overflow by lia. done.
        -- rewrite app_nth1 by lia. done.
      * rewrite (t_data0 i' b' x Hb' Hx). assert (i' <> i) by (intros ->; congruence). rewrite app_nth1; [done|]. unfold BSIZE in *. lia.
Qed.
End change.
