(* ===== verification/MkfsAppend.v ===== *)
(** * iappend appends *)

From Stdlib Require Import ZArith Lia.
From stdpp Require Import base list numbers strings.
From S2P Require Import Prelude Types Mem Str Layout Kalloc Vm VmCopy State Fs Mkfs MkfsSpec.
Open Scope Z_scope.

(** ** The addresses in an inode *)

Lemma addrs_direct f i : (i < 12)%nat -> addrs_of f !!! i = nth i (x_blks f) 0.
Proof.
  intros Hi. apply list_lookup_total_correct. unfold addrs_of.
  assert (length (take 12 (x_blks f ++ replicate 12 0)) = 12%nat) as Hl by (rewrite length_take, length_app, length_replicate; lia).
  rewrite lookup_app_l by lia. rewrite lookup_take_lt by lia. destruct (decide (i < length (x_blks f))%nat) as [H|H].
  - rewrite lookup_app_l by lia. destruct (lookup_lt_is_Some_2 _ _ H) as [b Hb]. rewrite Hb. f_equal. symmetry. by apply nth_lookup_Some.
  - rewrite lookup_app_r by lia. rewrite nth_overflow by lia. apply lookup_replicate_2. lia.
Qed.

Lemma length_addrs f : length (addrs_of f) = 13%nat.
Proof. unfold addrs_of. rewrite length_app, length_take, length_app, length_replicate. cbn [length]. lia. Qed.

Lemma addrs_ind f : addrs_of f !!! 12%nat = x_ind f.
Proof.
  apply list_lookup_total_correct. unfold addrs_of. rewrite lookup_app_r; rewrite length_take, length_app, length_replicate.
  - by replace (12 - _)%nat with 0%nat by lia.
  - lia.
Qed.

Lemma addrs_grown f x : (length (x_blks f) < 12)%nat -> <[length (x_blks f) := x]> (addrs_of f) = addrs_of (grown f x).
Proof.
  intros H. unfold addrs_of, grown. cbn [x_blks x_ind]. rewrite insert_app_l by (rewrite length_take, length_app, length_replicate; lia).
  f_equal. rewrite !take_app_ge by (rewrite ?length_app; simpl; lia). rewrite !take_replicate, length_app. simpl.
  rewrite insert_app_r_alt by lia. rewrite Nat.sub_diag. replace (12 - length (x_blks f))%nat with (S (11 - length (x_blks f))) by lia.
  replace (Nat.min _ 12) with (S (11 - length (x_blks f))) by lia. cbn. rewrite <- app_assoc. do 3 f_equal. lia.
Qed.

Lemma addrs_with_ind f x : <[12%nat := x]> (addrs_of f) = addrs_of (with_ind f x).
Proof.
  unfold addrs_of, with_ind. cbn [x_blks x_ind].
  assert (length (take 12 (x_blks f ++ replicate 12 0)) = 12%nat) as Hl by (rewrite length_take, length_app, length_replicate; lia).
  rewrite insert_app_r_alt by lia. by rewrite Hl.
Qed.

Lemma addrs_grown_ind f x : (12 <= length (x_blks f))%nat -> addrs_of (grown f x) = addrs_of f.
Proof.
  intros H. unfold addrs_of, grown. cbn [x_blks x_ind]. f_equal. rewrite !take_app_le by (rewrite ?length_app; lia). done.
Qed.

(** ** The space files need *)

(** As many blocks as the contents need. *)
Definition tight (f : ifile) : Prop :=
  Z.of_nat (length (x_blks f)) = (Z.of_nat (length (x_data f)) + (BSIZE - 1)) / BSIZE /\ (x_ind f <> 0 -> (12 < length (x_blks f))%nat).

(** The data blocks and the indirect block of a file of [n] bytes. *)
Definition needed (n : Z) : Z := (n + (BSIZE - 1)) / BSIZE + (if n >? NDIRECT * BSIZE then 1 else 0).

Lemma ceil_block n : 0 <= n -> (n + (BSIZE - 1)) / BSIZE = n / BSIZE + (if n mod BSIZE =? 0 then 0 else 1).
Proof.
  intros Hn. unfold BSIZE. change (1024 - 1) with 1023. pose proof (Z.div_mod n 1024). pose proof (Z.mod_pos_bound n 1024).
  destruct (Z.eqb_spec (n mod 1024) 0).
  - symmetry. apply (Z.div_unique _ _ _ 1023); lia.
  - symmetry. apply (Z.div_unique _ _ _ (n mod 1024 - 1)); lia.
Qed.

Lemma needed_mono n m : 0 <= n <= m -> needed n <= needed m.
Proof.
  intros H. unfold needed. assert ((n + (BSIZE - 1)) / BSIZE <= (m + (BSIZE - 1)) / BSIZE) by (apply Z.div_le_mono; unfold BSIZE; lia).
  destruct (Z.gtb_spec n (NDIRECT * BSIZE)), (Z.gtb_spec m (NDIRECT * BSIZE)); lia.
Qed.

Lemma own_needed img f : content img f -> tight f -> Z.of_nat (length (own f)) = needed (Z.of_nat (length (x_data f))).
Proof.
  intros [] [Hc Hi]. unfold own, needed. rewrite length_app, Nat2Z.inj_add, Hc. f_equal.
  assert ((length (x_blks f) <= 12)%nat <-> Z.of_nat (length (x_data f)) <= NDIRECT * BSIZE) as Hd.
  { rewrite ceil_block in Hc by lia. unfold BSIZE, NDIRECT in *. pose proof (Z.div_mod (Z.of_nat (length (x_data f))) 1024).
    pose proof (Z.mod_pos_bound (Z.of_nat (length (x_data f))) 1024). destruct (Z.eqb_spec (Z.of_nat (length (x_data f)) mod 1024) 0); lia. }
  destruct (Z.eqb_spec (x_ind f) 0) as [E|E]; destruct (Z.gtb_spec (Z.of_nat (length (x_data f))) (NDIRECT * BSIZE)); try done; exfalso.
  - specialize (t_direct E). lia.
  - specialize (Hi E). lia.
Qed.

(** ** The block to write to *)

Definition same_meta (s s' : mkfs) : Prop :=
  s'.(m_freeinode) = s.(m_freeinode) /\ length s'.(m_img) = length s.(m_img) /\
  forall n, 0 <= n < nmeta -> img_at s'.(m_img) n = img_at s.(m_img) n.

#[global] Instance same_meta_refl : Reflexive same_meta.
Proof. by intros s. Qed.
#[global] Instance same_meta_trans : Transitive same_meta.
Proof.
  intros s1 s2 s3 (A1 & A2 & A3) (B1 & B2 & B3). split; [congruence|]. split; [congruence|]. intros n Hn. by rewrite B3, A3.
Qed.

Lemma same_meta_put n b s : nmeta <= n < Z.of_nat (length s.(m_img)) -> same_meta s (put n b s).
Proof.
  intros Hn. split; [done|]. split; [apply put_img_len|]. intros m Hm. pose proof nmeta_val. rewrite put_at by lia. destruct (Z.eqb_spec m n); [lia|done].
Qed.

Lemma next_block_run s : 0 <= s.(m_freeblock) < FSSIZE -> next_block s = Ok s.(m_freeblock) (took_block s).
Proof. intros H. unfold next_block. mstep. unfold took_block. rewrite u32_small by (unfold FSSIZE in *; lia). done. Qed.

Lemma set_addrs_same din : set_addrs (i_addrs din) din = din.
Proof. by destruct din. Qed.

(** The file [k] has a block for the byte at the end of its contents. *)
Definition has_block (s : mkfs) (fs : list ifile) (k : nat) (f : ifile) (b : Z) (s' : mkfs) (f' : ifile) : Prop :=
  space s' (<[k := f']> fs) /\ same_meta s s' /\ x_data f' = x_data f /\ x_ty f' = x_ty f /\
  x_blks f' !! Z.to_nat (Z.of_nat (length (x_data f)) / BSIZE) = Some b /\
  Z.of_nat (length (x_blks f')) = Z.of_nat (length (x_data f)) / BSIZE + 1 /\ (x_ind f' <> 0 -> (12 < length (x_blks f'))%nat).

Section find.
Context (s : mkfs) (fs : list ifile) (k : nat) (f : ifile) (din : inode).
Context (H : space s fs) (Hk : fs !! k = Some f) (Ht : tight f) (Hd : i_addrs din = addrs_of f).
Let n := Z.of_nat (length (x_data f)).
Let fbn := n / BSIZE.

Lemma blk_nth i b : x_blks f !! i = Some b -> nth i (x_blks f) 0 = b /\ nmeta <= b < FSSIZE.
Proof using H Hk.
  intros Hb. split; [by apply nth_lookup_Some|]. pose proof (sp_max _ _ H).
  assert (nmeta <= b < m_freeblock s); [|lia]. apply (file_bound s fs k f H Hk). apply own_blks. by eapply list_elem_of_lookup_2.
Qed.

(** An address that is there. *)
Lemma find_addr_there i b : addrs_of f !!! i = b -> nmeta <= b < FSSIZE -> find_addr din i s = Ok din s.
Proof using Hd.
  intros Hi Hb. pose proof nmeta_val. unfold find_addr. rewrite Hd, Hi, xint_small by (unfold FSSIZE in *; lia).
  by destruct (Z.eqb_spec b 0); [lia|].
Qed.

Lemma find_entry_there j b : x_ind f <> 0 -> x_blks f !! (12 + j)%nat = Some b -> find_entry din (12 + Z.of_nat j) s = Ok b s.
Proof using H Hk Hd.
  intros Hi Hb. destruct (blk_nth _ _ Hb) as [Hn Hbb]. pose proof (file_content s fs k f H Hk) as []. pose proof nmeta_val.
  pose proof (file_bound s fs k f H Hk _ (own_ind f Hi)) as Hib. pose proof (sp_len _ _ H). pose proof (sp_max _ _ H).
  pose proof (lookup_lt_Some _ _ _ Hb). rewrite MAXFILE_val in t_max.
  unfold find_entry. change (Z.to_nat NDIRECT) with 12%nat. rewrite Hd, addrs_ind, xint_small by (unfold FSSIZE in *; lia).
  rewrite (bind_ok _ _ _ _ _ (rsect_in (x_ind f) s ltac:(lia))).
  replace (4 * (12 + Z.of_nat j - NDIRECT)) with (4 * Z.of_nat j) by (unfold NDIRECT; lia). rewrite (t_ind Hi), Hn by lia.
  destruct (Z.eqb_spec b 0); [lia|]. rewrite xint_small by (unfold FSSIZE in *; lia). done.
Qed.

(** The last block has room. *)
Lemma find_block_partial : n mod BSIZE <> 0 ->
  exists b f', find_block din fbn s = Ok (b, set_addrs (addrs_of f') din) s /\ has_block s fs k f b s f'.
Proof using H Hk Ht Hd.
  intros Hm. destruct Ht as [Hlen Hind]. pose proof (file_content s fs k f H Hk) as [].
  rewrite ceil_block in Hlen by lia. fold n in Hlen. fold fbn in Hlen. destruct (Z.eqb_spec (n mod BSIZE) 0); [done|].
  assert (0 <= fbn) by (apply Z.div_pos; unfold BSIZE; lia).
  destruct (lookup_lt_is_Some_2 (x_blks f) (Z.to_nat fbn)) as [b Hb]; [lia|]. destruct (blk_nth _ _ Hb) as [Hn Hbb].
  exists b, f. pose proof nmeta_val. pose proof (sp_max _ _ H). rewrite <- Hd, set_addrs_same. split.
  - unfold find_block. destruct (Z.ltb_spec fbn NDIRECT) as [Hlt|Hge]; unfold NDIRECT in *.
    + assert (addrs_of f !!! Z.to_nat fbn = b) as Ha by (rewrite addrs_direct by lia; done).
      rewrite (bind_ok _ _ _ _ _ (find_addr_there _ _ Ha Hbb)), Hd, Ha, xint_small by (unfold FSSIZE in *; lia). done.
    + assert (x_ind f <> 0) as Hi by (intros E; specialize (t_direct E); lia).
      pose proof (file_bound s fs k f H Hk _ (own_ind f Hi)) as Hib. change (Z.to_nat 12) with 12%nat.
      rewrite (bind_ok _ _ _ _ _ (find_addr_there 12 (x_ind f) (addrs_ind f) ltac:(lia))).
      replace (Z.to_nat fbn) with (12 + (Z.to_nat fbn - 12))%nat in Hb by lia.
      pose proof (find_entry_there _ _ Hi Hb) as E. replace (12 + Z.of_nat (Z.to_nat fbn - 12)) with fbn in E by lia.
      by rewrite (bind_ok _ _ _ _ _ E).
  - split; [by rewrite list_insert_id|]. do 3 (split; [done|]). split; [fold n; fold fbn; done|]. split; [fold n; fold fbn; lia|done].
Qed.

(** An address that is not. *)
Lemma find_addr_missing i : (i < 13)%nat -> addrs_of f !!! i = 0 -> 0 <= s.(m_freeblock) < FSSIZE ->
  find_addr din i s = Ok (set_addrs (<[i := s.(m_freeblock)]> (addrs_of f)) din) (took_block s).
Proof using Hd.
  intros Hi H0 Hf. unfold find_addr. rewrite Hd, H0. change (xint 0 =? 0) with true. cbv match.
  rewrite (bind_ok _ _ _ _ _ (next_block_run s Hf)), xint_small by (unfold FSSIZE in *; lia). done.
Qed.

Lemma find_entry_missing : x_ind f <> 0 -> (12 <= length (x_blks f))%nat -> Z.of_nat (length (x_blks f)) < MAXFILE -> s.(m_freeblock) < FSSIZE ->
  let o := 4 * (Z.of_nat (length (x_blks f)) - NDIRECT) in
  find_entry din (Z.of_nat (length (x_blks f))) s = Ok s.(m_freeblock)
    (put (x_ind f) (store 4 (img_at s.(m_img) (x_ind f)) o s.(m_freeblock)) (took_block s)).
Proof using H Hk Hd.
  intros Hi H12 Hm Hf o. pose proof (file_content s fs k f H Hk) as []. pose proof nmeta_val. pose proof (free_pos s fs H).
  pose proof (file_bound s fs k f H Hk _ (own_ind f Hi)) as Hib. pose proof (sp_len _ _ H). rewrite MAXFILE_val in Hm.
  unfold find_entry. change (Z.to_nat NDIRECT) with 12%nat. rewrite Hd, addrs_ind, xint_small by (unfold FSSIZE in *; lia).
  rewrite (bind_ok _ _ _ _ _ (rsect_in (x_ind f) s ltac:(lia))). fold o.
  replace o with (4 * Z.of_nat (length (x_blks f) - 12)) by (unfold o, NDIRECT; lia).
  rewrite (t_ind Hi), nth_overflow by lia. change (0 =? 0) with true. cbv match.
  rewrite (bind_ok _ _ _ _ _ (next_block_run s ltac:(lia))). rewrite (xint_small (m_freeblock s)) by (unfold FSSIZE in *; lia).
  rewrite (bind_ok _ _ _ _ _ (wsect_in (x_ind f) _ (took_block s) ltac:(simpl; lia))).
  rewrite load_store_eq, Z.mod_small, xint_small by (unfold FSSIZE in *; lia). done.
Qed.
End find.

(** The entry and the block, when there is an indirect block. *)
Lemma find_block_entry s fs k f din :
  space s fs -> fs !! k = Some f -> i_addrs din = addrs_of f -> x_ind f <> 0 ->
  let n := Z.of_nat (length (x_data f)) in
  Z.of_nat (length (x_blks f)) = n / BSIZE -> NDIRECT <= n / BSIZE < MAXFILE -> s.(m_freeblock) < FSSIZE ->
  exists b f' s', find_entry din (n / BSIZE) s = Ok b s' /\ addrs_of f' = addrs_of f /\ has_block s fs k f b s' f'.
Proof.
  intros H Hk Hd Hi n Hlen [Hge Hlt] Hf. pose proof nmeta_val. pose proof (free_pos s fs H). unfold NDIRECT in Hge.
  pose proof (file_bound s fs k f H Hk _ (own_ind f Hi)) as Hib. pose proof (sp_len _ _ H).
  eexists _, (grown f s.(m_freeblock)), _. split; [rewrite <- Hlen; apply (find_entry_missing s fs k f din); [done|done|done|done|lia|lia|done]|].
  split; [apply addrs_grown_ind; lia|]. split; [apply alloc_indirect; [done|done|done|lia|lia|done]|].
  split; [etrans; [|apply same_meta_put]; [done|simpl; lia]|]. split; [done|]. split; [done|]. fold n. rewrite <- Hlen, Nat2Z.id.
  unfold grown. cbn [x_blks x_ind]. rewrite length_app. cbn [length]. split; [by rewrite list_lookup_middle|]. lia.
Qed.

(** The end of the contents is the end of a block: there is a new one. *)
Lemma find_block_new s fs k f din :
  space s fs -> fs !! k = Some f -> tight f -> i_addrs din = addrs_of f ->
  let n := Z.of_nat (length (x_data f)) in
  n mod BSIZE = 0 -> n < MAXFILE * BSIZE -> s.(m_freeblock) + (if n =? NDIRECT * BSIZE then 2 else 1) <= FSSIZE ->
  exists b f' s', find_block din (n / BSIZE) s = Ok (b, set_addrs (addrs_of f') din) s' /\ has_block s fs k f b s' f'.
Proof.
  intros H Hk [Hlen Hind] Hd n Hm Hn Hmax. pose proof (file_content s fs k f H Hk) as []. pose proof nmeta_val. pose proof (free_pos s fs H).
  rewrite ceil_block in Hlen by lia. fold n in Hlen. rewrite Hm in Hlen. cbn [Z.eqb] in Hlen. rewrite Z.add_0_r in Hlen.
  assert (s.(m_freeblock) < FSSIZE) as Hf by (destruct (n =? _); lia).
  assert (n / BSIZE < MAXFILE) as Hfb by (apply Z.div_lt_upper_bound; [done|by rewrite Z.mul_comm]).
  assert (Z.to_nat (n / BSIZE) = length (x_blks f)) as Hnat by lia.
  unfold find_block. destruct (Z.ltb_spec (n / BSIZE) NDIRECT) as [Hlt|Hge]; unfold NDIRECT in *.
  - exists s.(m_freeblock), (grown f s.(m_freeblock)), (took_block s). split.
    + rewrite Hnat. assert (addrs_of f !!! length (x_blks f) = 0) as Hz by (rewrite addrs_direct, nth_overflow by lia; done).
      rewrite (bind_ok _ _ _ _ _ (find_addr_missing s f din Hd (length (x_blks f)) ltac:(lia) Hz ltac:(lia))), addrs_grown by lia.
      cbn [set_addrs i_addrs]. rewrite addrs_direct by lia. unfold grown. cbn [x_blks]. rewrite app_nth2, Nat.sub_diag by lia.
      cbn [nth]. rewrite xint_small by (unfold FSSIZE in *; lia). done.
    + split; [apply alloc_direct; [done|done|lia|lia]|]. split; [done|]. split; [done|]. split; [done|]. fold n. rewrite Hnat.
      unfold grown. cbn [x_blks x_ind]. rewrite length_app. cbn [length].
      split; [by rewrite list_lookup_middle|]. split; [lia|]. intros E. specialize (Hind E). lia.
  - change (Z.to_nat 12) with 12%nat. destruct (Z.eqb_spec (x_ind f) 0) as [E0|E0].
    + assert (length (x_blks f) = 12%nat) as H12 by (specialize (t_direct E0); lia).
      assert ((n =? 12 * BSIZE) = true) as En by (apply Z.eqb_eq; pose proof (Z.div_mod n BSIZE); unfold BSIZE in *; lia). rewrite En in Hmax.
      set (s1 := took_block s). set (f1 := with_ind f s.(m_freeblock)).
      assert (addrs_of f !!! 12%nat = 0) as Hz by (by rewrite addrs_ind).
      rewrite (bind_ok _ _ _ _ _ (find_addr_missing s f din Hd 12 ltac:(lia) Hz ltac:(lia))), addrs_with_ind. fold f1 s1.
      destruct (find_block_entry s1 (<[k := f1]> fs) k f1 (set_addrs (addrs_of f1) din)) as (b & f' & s' & Ef & Ea & Hs & Hm' & Hrest).
      * by apply alloc_ind.
      * apply list_lookup_insert_eq. by eapply lookup_lt_Some.
      * done.
      * simpl. lia.
      * simpl. fold n. lia.
      * exact (conj Hge Hfb).
      * simpl. lia.
      * exists b, f', s'. simpl in Ef. fold n in Ef. rewrite (bind_ok _ _ _ _ _ Ef). rewrite <- Ea. split; [done|].
        rewrite list_insert_insert_eq in Hs. split; [done|]. split; [etrans; [|exact Hm']; done|exact Hrest].
    + destruct (find_block_entry s fs k f din H Hk Hd E0) as (b & f' & s' & Ef & Ea & Hb); [exact Hlen|exact (conj Hge Hfb)|done|].
      pose proof (file_bound s fs k f H Hk _ (own_ind f E0)) as Hib. pose proof (sp_max _ _ H).
      exists b, f', s'. rewrite (bind_ok _ _ _ _ _ (find_addr_there s f din Hd 12 (x_ind f) (addrs_ind f) ltac:(lia))).
      fold n in Ef. rewrite (bind_ok _ _ _ _ _ Ef), Ea, <- Hd, set_addrs_same. done.
Qed.

(** ** The loop *)

(** The inodes of an image: types and contents. *)
Definition view (fs : list ifile) : list (Z * list Z) := (fun f => (x_ty f, x_data f)) <$> fs.
Fixpoint room (v : list (Z * list Z)) : Z :=
  match v with [] => 0 | (_, d) :: v' => needed (Z.of_nat (length d)) + room v' end.

Lemma room_insert v k ty d ty' d' : v !! k = Some (ty, d) ->
  room (<[k := (ty', d')]> v) = room v - needed (Z.of_nat (length d)) + needed (Z.of_nat (length d')).
Proof.
  revert k. induction v as [|[ty0 d0] v IH]; intros k Hk; [done|]. destruct k as [|k].
  - injection Hk as -> ->. cbn [room]. change (needed (Z.of_nat (length d')) + room v = needed (Z.of_nat (length d)) + room v - needed (Z.of_nat (length d)) + needed (Z.of_nat (length d'))). lia.
  - specialize (IH k Hk). change (needed (Z.of_nat (length d0)) + room (<[k := (ty', d')]> v) =
      needed (Z.of_nat (length d0)) + room v - needed (Z.of_nat (length d)) + needed (Z.of_nat (length d'))). lia.
Qed.

Lemma free_room s fs : space s fs -> Forall tight fs -> s.(m_freeblock) = nmeta + room (view fs).
Proof.
  intros H Ht. rewrite (sp_free _ _ H). f_equal. pose proof (sp_content _ _ H) as Hc. clear H.
  induction fs as [|f fs IH]; [done|]. apply Forall_cons in Ht as [Hf Ht]. rewrite bind_cons, length_app. cbn [view fmap list_fmap room].
  rewrite Nat2Z.inj_add, (own_needed (m_img s) f), IH; [done|done| |apply Hc; by left|done]. intros g Hg. apply Hc. by right.
Qed.

Lemma needed_next n : 0 <= n -> n mod BSIZE = 0 -> needed n + (if n =? NDIRECT * BSIZE then 2 else 1) <= needed (n + 1).
Proof.
  intros Hn Hm. unfold needed. rewrite (ceil_block n), Hm by done. rewrite ceil_block by lia.
  assert ((n + 1) / BSIZE = n / BSIZE /\ (n + 1) mod BSIZE = 1) as [-> ->].
  { pose proof (Z.div_mod n BSIZE ltac:(done)). split; symmetry; [apply (Z.div_unique _ _ _ 1)|apply (Z.mod_unique _ _ (n / BSIZE))]; unfold BSIZE in *; lia. }
  cbn [Z.eqb]. unfold NDIRECT, BSIZE. destruct (Z.eqb_spec n (12 * 1024)), (Z.gtb_spec n (12 * 1024)), (Z.gtb_spec (n + 1) (12 * 1024)); lia.
Qed.

(** A block for the end of the file, whichever case it is. *)
Lemma find_block_spec s fs k f din m :
  space s fs -> Forall tight fs -> fs !! k = Some f -> i_addrs din = addrs_of f ->
  let n := Z.of_nat (length (x_data f)) in
  n < m -> n < MAXFILE * BSIZE -> nmeta + room (view fs) - needed n + needed m <= FSSIZE ->
  exists b f' s', find_block din (n / BSIZE) s = Ok (b, set_addrs (addrs_of f') din) s' /\ has_block s fs k f b s' f'.
Proof.
  intros H Ht Hk Hd n Hnm Hmax Hroom. assert (tight f) as Hf by (by eapply Forall_lookup_1).
  destruct (decide (n mod BSIZE = 0)) as [E|E].
  - apply find_block_new; [done..|]. rewrite (free_room s fs H Ht). pose proof (needed_next n ltac:(lia) E). pose proof (needed_mono (n + 1) m ltac:(lia)).
    fold n. lia.
  - destruct (find_block_partial s fs k f din H Hk Hf Hd E) as (b & f' & Ef & Hb). by exists b, f', s.
Qed.

Lemma tight_after n n1 : 0 <= n -> 1 <= n1 <= (n / BSIZE + 1) * BSIZE - n -> (n + n1 + (BSIZE - 1)) / BSIZE = n / BSIZE + 1.
Proof.
  intros Hn Hn1. pose proof (Z.div_mod n BSIZE ltac:(done)). pose proof (Z.mod_pos_bound n BSIZE ltac:(done)). unfold BSIZE in *.
  symmetry. apply (Z.div_unique _ _ _ (n + n1 + 1023 - 1024 * (n / 1024 + 1))); lia.
Qed.

(** What one call of iappend has done to file [k]. *)
Definition appended (s : mkfs) (fs : list ifile) (k : nat) (f : ifile) (p : list Z) (s' : mkfs) (f' : ifile) : Prop :=
  space s' (<[k := f']> fs) /\ tight f' /\ x_data f' = x_data f ++ p /\ x_ty f' = x_ty f /\ same_meta s s'.

(** One block. *)
Lemma append_block s fs k f din p :
  space s fs -> Forall tight fs -> fs !! k = Some f -> i_addrs din = addrs_of f -> p <> [] ->
  let n := Z.of_nat (length (x_data f)) in
  let n1 := Z.min (Z.of_nat (length p)) ((n / BSIZE + 1) * BSIZE - n) in
  n < MAXFILE * BSIZE -> nmeta + room (view fs) - needed n + needed (n + Z.of_nat (length p)) <= FSSIZE ->
  exists b f' s1, let s' := put b (write_bytes (img_at s1.(m_img) b) (n - n / BSIZE * BSIZE) (take (Z.to_nat n1) p)) s1 in
    find_block din (n / BSIZE) s = Ok (b, set_addrs (addrs_of f') din) s1 /\ 0 <= b < Z.of_nat (length s1.(m_img)) /\
    appended s fs k f (take (Z.to_nat n1) p) s' f'.
Proof.
  intros H Ht Hk Hd Hp n n1 Hmax Hroom. assert (1 <= Z.of_nat (length p)) by (destruct p; [done|simpl; lia]).
  destruct (find_block_spec s fs k f din (n + Z.of_nat (length p)) H Ht Hk Hd) as (b & f1 & s1 & Ef & Hs & Hm & Ed & Ety & Eb & El & Ei); [fold n; lia|done|done|].
  fold n in Ef, Eb, El. assert (0 <= n / BSIZE) by (apply Z.div_pos; [lia|done]).
  pose proof (Z.div_mod n BSIZE ltac:(done)) as Hdm. pose proof (Z.mod_pos_bound n BSIZE ltac:(done)) as Hmb.
  assert (1 <= n1 <= (n / BSIZE + 1) * BSIZE - n) as Hn1 by (unfold n1, BSIZE in *; lia).
  assert (Z.of_nat (length (take (Z.to_nat n1) p)) = n1) as Hlen by (rewrite length_take; unfold n1 in *; lia).
  assert (<[k := f1]> fs !! k = Some f1) as Hk1 by (apply list_lookup_insert_eq; by eapply lookup_lt_Some).
  assert (b ∈ own f1) as Hown by (apply own_blks; by eapply list_elem_of_lookup_2).
  pose proof (file_bound s1 _ k f1 Hs Hk1 b Hown) as Hb. pose proof (sp_max _ _ Hs). pose proof (sp_len _ _ Hs). pose proof nmeta_val.
  exists b, (mkif (x_ty f1) (x_data f1 ++ take (Z.to_nat n1) p) (x_blks f1) (x_ind f1)), s1. split; [exact Ef|]. split; [lia|].
  split; [|split; [|split; [by rewrite Ed|split; [done|]]]].
  - pose proof (append_data s1 _ k f1 Hs Hk1 b (take (Z.to_nat n1) p) (Z.to_nat (n / BSIZE)) Eb) as Ha.
    rewrite list_insert_insert_eq, Ed, Z2Nat.id, (Z.mul_comm BSIZE) in Ha by lia. fold n in Ha. rewrite Ed. apply Ha; [lia| |]; unfold BSIZE in *; lia.
  - split; [|done]. cbn [x_blks x_data]. rewrite length_app, Ed, Nat2Z.inj_add, Hlen, El. fold n. symmetry. apply tight_after; lia.
  - etrans; [exact Hm|]. apply same_meta_put. lia.
Qed.

Lemma view_insert fs k f : view (<[k := f]> fs) = <[k := (x_ty f, x_data f)]> (view fs).
Proof. apply (list_fmap_insert (fun f => (x_ty f, x_data f))). Qed.

Lemma view_lookup fs k f : fs !! k = Some f -> view fs !! k = Some (x_ty f, x_data f).
Proof. intros H. unfold view. by rewrite list_lookup_fmap, H. Qed.

Lemma iappend_loop_spec fuel p s fs k f din :
  (length p <= fuel)%nat -> space s fs -> Forall tight fs -> fs !! k = Some f -> i_addrs din = addrs_of f ->
  let n := Z.of_nat (length (x_data f)) in
  n + Z.of_nat (length p) <= MAXFILE * BSIZE -> nmeta + room (view fs) - needed n + needed (n + Z.of_nat (length p)) <= FSSIZE ->
  exists f' s', iappend_loop fuel p n din s = Ok (n + Z.of_nat (length p), set_addrs (addrs_of f') din) s' /\ appended s fs k f p s' f'.
Proof.
  revert p s fs f din. induction fuel as [|fuel IH]; intros p s fs f din Hfuel H Ht Hk Hd n Hmax Hroom.
  all: destruct (decide (p = [])) as [->|Hp].
  1, 3: exists f, s; cbn; rewrite Z.add_0_r, <- Hd, set_addrs_same; split; [done|]; unfold appended;
    rewrite list_insert_id, app_nil_r by done; split; [done|]; split; [by eapply Forall_lookup_1|done].
  { destruct p; [done|]. simpl in Hfuel. lia. }
  assert (1 <= Z.of_nat (length p)) by (destruct p; [done|simpl; lia]).
  destruct (append_block s fs k f din p H Ht Hk Hd Hp) as (b & f1 & s1 & Ef & Hb & Hs & Ht1 & Ed & Ety & Hm); [fold n; lia|fold n; lia|].
  set (n1 := Z.min (Z.of_nat (length p)) ((n / BSIZE + 1) * BSIZE - n)) in *. fold n in Ef, Hs, Hm, Ed.
  set (p1 := take (Z.to_nat n1) p) in *. set (s2 := put _ _ s1) in *.
  pose proof (Z.div_mod n BSIZE ltac:(done)). pose proof (Z.mod_pos_bound n BSIZE ltac:(done)).
  assert (1 <= n1 <= Z.of_nat (length p)) by (unfold n1, BSIZE in *; lia).
  assert (Z.of_nat (length (x_data f1)) = n + n1) as Hn1.
  { rewrite Ed, length_app, Nat2Z.inj_add. unfold p1. rewrite length_take. fold n. lia. }
  assert (Z.of_nat (length (drop (Z.to_nat n1) p)) = Z.of_nat (length p) - n1) as Hrest by (rewrite length_drop; lia).
  assert (k < length fs)%nat by (by eapply lookup_lt_Some).
  destruct (IH (drop (Z.to_nat n1) p) s2 (<[k := f1]> fs) f1 (set_addrs (addrs_of f1) din)) as (f' & s' & El & Hs' & Ht' & Ed' & Ety' & Hm').
  - lia.
  - done.
  - by apply Forall_insert.
  - by apply list_lookup_insert_eq.
  - done.
  - rewrite Hn1, Hrest. lia.
  - rewrite view_insert, (room_insert _ _ (x_ty f) (x_data f)) by (by apply view_lookup). fold n. rewrite Hn1, Hrest.
    replace (n + n1 + (Z.of_nat (length p) - n1)) with (n + Z.of_nat (length p)) by lia. lia.
  - exists f', s'. split.
    + cbn [iappend_loop]. destruct (Z.gtb_spec (Z.of_nat (length p)) 0); [|lia].
      assert (n / BSIZE < MAXFILE) as Hf by (apply Z.div_lt_upper_bound; [done|lia]). destruct (Z.ltb_spec (n / BSIZE) MAXFILE); [|lia].
      cbn [negb]. rewrite (bind_ok _ _ _ _ _ Ef). cbn [fst snd]. fold n1.
      rewrite (bind_ok _ _ _ _ _ (rsect_in b s1 Hb)), (bind_ok _ _ _ _ _ (wsect_in b _ s1 Hb)). fold p1 s2.
      rewrite Hn1, Hrest in El. rewrite u32_small by (rewrite MAXFILE_val in Hmax; unfold BSIZE in *; lia). etrans; [exact El|]. do 2 f_equal. lia.
    + unfold appended. rewrite list_insert_insert_eq in Hs'. split; [done|]. split; [done|]. split; [|split; [congruence|by etrans]].
      rewrite Ed', Ed, <- app_assoc. f_equal. apply take_drop.
Qed.
