(* ===== verification/MkfsImage.v ===== *)
(** * The operations of mkfs on an image with its inodes *)

From Stdlib Require Import ZArith Lia.
From stdpp Require Import base list numbers strings.
From S2P Require Import Prelude Types Mem Str Layout Kalloc Vm VmCopy State Fs Mkfs MkfsSpec MkfsAppend.
Open Scope Z_scope.

(** ** Inodes in the image *)

(** The on-disk inode, as the kernel reads it. *)
Definition dinode_at (img : list block) (inum : Z) : inode :=
  read_dinode (img_at img (IBLOCK inum mkfs_sb)) (inum mod IPB * DINODE_SIZE) zero_inode.

Lemma IBLOCK_val inum : 0 <= inum < 208 -> IBLOCK inum mkfs_sb = inum / 16 + 33 /\ 33 <= IBLOCK inum mkfs_sb < 46.
Proof.
  intros H. unfold IBLOCK. change (sb_inodestart mkfs_sb) with 33. change IPB with 16.
  pose proof (Z.div_mod inum 16). pose proof (Z.mod_pos_bound inum 16). rewrite u32_small; lia.
Qed.

Definition put_inode (inum : Z) (ip : inode) (s : mkfs) : mkfs :=
  put (IBLOCK inum mkfs_sb) (write_dinode ip (inum mod IPB * DINODE_SIZE) (img_at s.(m_img) (IBLOCK inum mkfs_sb))) s.

Section inodes.
Context (s : mkfs) (Hlen : Z.of_nat (length s.(m_img)) = FSSIZE).

Lemma winode_run inum ip : 0 <= inum < 208 -> winode inum ip s = Ok tt (put_inode inum ip s).
Proof using Hlen.
  intros Hi. destruct (IBLOCK_val inum Hi) as [_ Hb]. unfold winode. unfold FSSIZE in *.
  rewrite (bind_ok _ _ _ _ _ (rsect_in (IBLOCK inum mkfs_sb) s ltac:(lia))). apply wsect_in. lia.
Qed.

Lemma rinode_run inum : 0 <= inum < 208 -> rinode inum s = Ok (dinode_at s.(m_img) inum) s.
Proof using Hlen.
  intros Hi. destruct (IBLOCK_val inum Hi) as [_ Hb]. unfold rinode. unfold FSSIZE in *.
  by rewrite (bind_ok _ _ _ _ _ (rsect_in (IBLOCK inum mkfs_sb) s ltac:(lia))).
Qed.

Lemma put_inode_at inum ip n : 0 <= inum < 208 -> 0 <= n -> n <> IBLOCK inum mkfs_sb -> img_at (put_inode inum ip s).(m_img) n = img_at s.(m_img) n.
Proof using Hlen.
  intros Hi Hn Hne. destruct (IBLOCK_val inum Hi) as [_ Hb]. unfold put_inode. rewrite put_at by (unfold FSSIZE in *; lia).
  by rewrite (proj2 (Z.eqb_neq _ _) Hne).
Qed.

Lemma dinode_put_same inum ty size addrs :
  0 <= inum < 208 -> 0 <= ty < 2 ^ 15 -> 0 <= size < 2 ^ 32 -> length addrs = 13%nat -> Forall (fun x => 0 <= x < 2 ^ 32) addrs ->
  dinode_at (put_inode inum (din_of ty size addrs) s).(m_img) inum = din_of ty size addrs.
Proof using Hlen.
  intros Hi Hty Hsz Hl Ha. destruct (IBLOCK_val inum Hi) as [_ Hb]. unfold dinode_at, put_inode.
  rewrite put_at, Z.eqb_refl by (unfold FSSIZE in *; lia). by apply dinode_roundtrip.
Qed.

Lemma dinode_put_other inum ip inum' :
  0 <= inum < 208 -> 0 <= inum' < 208 -> inum <> inum' -> length ip.(i_addrs) = 13%nat ->
  dinode_at (put_inode inum ip s).(m_img) inum' = dinode_at s.(m_img) inum'.
Proof using Hlen.
  intros Hi Hi' Hne Hl. destruct (IBLOCK_val inum Hi) as [E Hb]. destruct (IBLOCK_val inum' Hi') as [E' Hb'].
  unfold dinode_at, put_inode. rewrite put_at by (unfold FSSIZE in *; lia). destruct (Z.eqb_spec (IBLOCK inum' mkfs_sb) (IBLOCK inum mkfs_sb)) as [Eb|]; [|done].
  rewrite <- Eb. apply dinode_other; [done|]. change IPB with 16. unfold DINODE_SIZE.
  pose proof (Z.div_mod inum 16). pose proof (Z.div_mod inum' 16). pose proof (Z.mod_pos_bound inum 16). pose proof (Z.mod_pos_bound inum' 16). lia.
Qed.
End inodes.

(** Only the blocks behind the inodes matter to [space]. *)
Lemma space_meta s s' fs :
  space s fs -> length s'.(m_img) = length s.(m_img) -> s'.(m_freeblock) = s.(m_freeblock) ->
  (forall n, nmeta <= n -> img_at s'.(m_img) n = img_at s.(m_img) n) -> space s' fs.
Proof.
  intros [] Hl Hf Hat. split; rewrite ?Hl, ?Hf; try done.
  - intros n x Hn. rewrite Hat by lia. by apply sp_fresh.
  - intros f Hin. apply (content_ext (m_img s)); [|by apply sp_content]. intros n Hn x. rewrite Hat; [done|].
    assert (nmeta <= n < m_freeblock s); [|lia]. apply sp_bound, list_elem_of_bind. eauto.
Qed.

(** ** An image that holds files *)

Record disk_ok (s : mkfs) (fs : list ifile) : Prop := {
  k_space : space s fs;
  k_tight : Forall tight fs;
  k_types : Forall (fun f => 0 <= x_ty f < 2 ^ 15) fs;
  k_sizes : Forall (fun f => Z.of_nat (length (x_data f)) <= MAXFILE * BSIZE) fs;
  k_inums : s.(m_freeinode) = 1 + Z.of_nat (length fs) /\ (length fs <= 199)%nat;
  k_super : img_at s.(m_img) 1 = sb_block;
  k_dinodes : forall k f, fs !! k = Some f ->
    dinode_at s.(m_img) (Z.of_nat k + 1) = din_of (x_ty f) (Z.of_nat (length (x_data f))) (addrs_of f)
}.

Definition holds (s : mkfs) (v : list (Z * list Z)) : Prop := exists fs, disk_ok s fs /\ view fs = v.

Lemma addrs_range s fs k f : space s fs -> fs !! k = Some f -> Forall (fun x => 0 <= x < 2 ^ 32) (addrs_of f).
Proof.
  intros H Hk. assert (forall b, b ∈ own f -> 0 <= b < 2 ^ 32) as Hown.
  { intros b Hb. pose proof (file_bound s fs k f H Hk b Hb). pose proof (sp_max _ _ H). pose proof nmeta_val. unfold FSSIZE in *. lia. }
  unfold addrs_of. apply Forall_app. split.
  - apply Forall_take, Forall_app. split; [|by apply Forall_replicate].
    apply Forall_forall. intros b Hb. apply Hown. by apply own_blks.
  - apply Forall_singleton. destruct (decide (x_ind f = 0)) as [->|E]; [done|]. by apply Hown, own_ind.
Qed.

Lemma view_inv fs k ty d : view fs !! k = Some (ty, d) -> exists f, fs !! k = Some f /\ x_ty f = ty /\ x_data f = d.
Proof. unfold view. rewrite list_lookup_fmap. destruct (fs !! k) as [f|]; [|done]. intros [= <- <-]. eauto. Qed.

(** iappend(inum, p, n) *)
Lemma iappend_spec s v k ty d p :
  holds s v -> v !! k = Some (ty, d) -> Z.of_nat (length (d ++ p)) <= MAXFILE * BSIZE ->
  nmeta + room (<[k := (ty, d ++ p)]> v) <= FSSIZE ->
  exists s', iappend (Z.of_nat k + 1) p s = Ok tt s' /\ holds s' (<[k := (ty, d ++ p)]> v).
Proof.
  intros (fs & H & <-) Hk Hmax Hroom. destruct (view_inv _ _ _ _ Hk) as (f & Hf & <- & <-).
  destruct H as [Hs Ht Hty Hsz [Hino H199] Hsb Hdin]. pose proof (lookup_lt_Some _ _ _ Hf) as Hlt.
  assert (0 <= Z.of_nat k + 1 < 208) as Hi by lia. rewrite length_app, Nat2Z.inj_add in Hmax.
  rewrite (room_insert _ _ _ _ _ _ Hk), length_app, Nat2Z.inj_add in Hroom.
  set (n := Z.of_nat (length (x_data f))) in *. set (din := din_of (x_ty f) n (addrs_of f)).
  destruct (iappend_loop_spec (length p) p s fs k f din) as (f' & s' & El & Hs' & Ht' & Ed & Ety & Hm1 & Hm2 & Hm3); [done|done|done|done|done|fold n; lia|fold n; lia|].
  fold n in El. assert (<[k := f']> fs !! k = Some f') as Hf' by (by apply list_lookup_insert_eq).
  pose proof (sp_len _ _ Hs') as Hlen'. rewrite MAXFILE_val in Hmax.
  set (sz := n + Z.of_nat (length p)) in *. assert (0 <= sz < 2 ^ 32) by (unfold sz, BSIZE in *; lia).
  assert (Z.of_nat (length (x_data f')) = sz) as Hsz' by (rewrite Ed, length_app, Nat2Z.inj_add; done).
  assert (0 <= x_ty f < 2 ^ 15) as Hty0 by (by apply (Forall_lookup_1 _ _ _ _ Hty Hf)).
  exists (put_inode (Z.of_nat k + 1) (din_of (x_ty f') sz (addrs_of f')) s'). split.
  - unfold iappend. rewrite (bind_ok _ _ _ _ _ (rinode_run s (sp_len _ _ Hs) _ Hi)), (Hdin k f Hf). fold n din.
    change (i_size din) with n. rewrite (xint_small n) by lia. rewrite (bind_ok _ _ _ _ _ El).
    cbn [fst snd]. rewrite (xint_small sz), Ety by done. by apply winode_run.
  - exists (<[k := f']> fs). rewrite view_insert, Ed, Ety. split; [|done].
    destruct (IBLOCK_val _ Hi) as [_ Hb]. pose proof nmeta_val. split.
    + apply (space_meta s'); [done|by apply put_img_len|done|]. intros m Hm. apply put_inode_at; [done|done|lia|lia].
    + by apply Forall_insert.
    + apply Forall_insert; [done|by rewrite Ety].
    + apply Forall_insert; [done|]. rewrite Hsz', MAXFILE_val. done.
    + rewrite length_insert. split; [|done]. simpl. by rewrite Hm1.
    + rewrite put_inode_at by (done || lia). by rewrite Hm3 by lia.
    + intros j g Hj. rewrite list_lookup_insert_Some in Hj. destruct Hj as [(<- & -> & _)|(Hne & Hj)].
      * rewrite Hsz', Ety. apply dinode_put_same; [done|done|done|done|apply length_addrs|by apply (addrs_range s' (<[k := g]> fs) k)].
      * pose proof (lookup_lt_Some _ _ _ Hj). rewrite dinode_put_other; [|done|done|lia|lia|apply length_addrs]. rewrite <- (Hdin j g Hj).
        unfold dinode_at. destruct (IBLOCK_val (Z.of_nat j + 1)) as [_ Hbj]; [lia|]. by rewrite Hm3 by lia.
Qed.

(** ialloc(type) *)
Lemma ialloc_spec s v ty :
  holds s v -> (length v < 199)%nat -> 0 <= ty < 2 ^ 15 ->
  exists s', ialloc ty s = Ok (Z.of_nat (length v) + 1) s' /\ holds s' (v ++ [(ty, [])]).
Proof.
  intros (fs & H & <-) Hv Hty. unfold view in Hv. rewrite length_fmap in Hv.
  destruct H as [Hs Ht Hty' Hsz [Hino H199] Hsb Hdin]. set (inum := Z.of_nat (length fs) + 1). set (f := mkif ty [] [] 0).
  assert (0 <= inum < 208) as Hi by (unfold inum; lia). destruct (IBLOCK_val _ Hi) as [_ Hb]. pose proof nmeta_val.
  set (s1 := set_freeinode (inum + 1) s). assert (Z.of_nat (length (m_img s1)) = FSSIZE) as Hlen by apply Hs.
  exists (put_inode inum (din_of ty 0 (addrs_of f)) s1). split.
  - unfold ialloc. mstep. rewrite Hino. replace (1 + Z.of_nat (length fs)) with inum by (unfold inum; lia).
    rewrite u32_small by lia. fold s1. rewrite (xshort_small ty) by lia.
    rewrite (bind_ok _ _ _ tt (put_inode inum (din_of ty 0 (addrs_of f)) s1)); [|by apply winode_run].
    unfold view. by rewrite length_fmap.
  - exists (fs ++ [f]). split; [|unfold view; by rewrite fmap_app]. split.
    + apply (space_meta s); [|exact (put_img_len _ _ s1)|done|intros m Hm; apply (put_inode_at s1); [done|done|lia|lia]].
      destruct Hs. assert ((fs ++ [f]) ≫= own = fs ≫= own) as Eo by (rewrite bind_app; simpl; by rewrite app_nil_r).
      split; rewrite ?Eo; try done. intros g [Hg|Hg]%elem_of_app; [by apply sp_content|]. apply list_elem_of_singleton in Hg as ->.
      split; try done; simpl; lia.
    + apply Forall_app. split; [done|]. apply Forall_singleton. done.
    + apply Forall_app. split; [done|]. by apply Forall_singleton.
    + apply Forall_app. split; [done|]. by apply Forall_singleton.
    + rewrite length_app. simpl. unfold inum. lia.
    + rewrite put_inode_at by (done || lia). exact Hsb.
    + intros k g Hk. apply lookup_app_Some in Hk as [Hk|[Hge Hk]].
      * pose proof (lookup_lt_Some _ _ _ Hk). rewrite dinode_put_other; [|done|done|lia|unfold inum; lia|done].
        by apply Hdin.
      * apply list_lookup_singleton_Some in Hk as [Hk <-]. replace k with (length fs) by lia. fold inum.
        apply dinode_put_same; [done|done|done|done|done|]. change (addrs_of f) with (replicate 13 0). by apply Forall_replicate.
Qed.

(** ** Capacity *)

Lemma needed_pos n : 0 <= n -> 0 <= needed n.
Proof. intros H. unfold needed. assert (0 <= (n + (BSIZE - 1)) / BSIZE) by (apply Z.div_pos; unfold BSIZE; lia). destruct (n >? _); lia. Qed.

Lemma room_app v w : room (v ++ w) = room v + room w.
Proof. induction v as [|[ty d] v IH]; [done|]. cbn [app room]. rewrite IH. lia. Qed.

Lemma room_pos v : 0 <= room v.
Proof. induction v as [|[ty d] v IH]; cbn [room]; [lia|]. pose proof (needed_pos (Z.of_nat (length d)) ltac:(lia)). lia. Qed.

Lemma room_le v k ty d ty' d' p : v !! k = Some (ty', d') -> room (<[k := (ty, d)]> v) <= room (<[k := (ty, d ++ p)]> v).
Proof.
  intros Hk. rewrite !(room_insert _ _ _ _ _ _ Hk), length_app. pose proof (needed_mono (Z.of_nat (length d)) (Z.of_nat (length d + length p)) ltac:(lia)). lia.
Qed.

(** while((cc = read(fd, buf, sizeof(buf))) > 0) iappend(inum, buf, cc); *)
Lemma append_all chunks s v k ty d :
  holds s v -> v !! k = Some (ty, d) -> Z.of_nat (length (d ++ concat chunks)) <= MAXFILE * BSIZE ->
  nmeta + room (<[k := (ty, d ++ concat chunks)]> v) <= FSSIZE ->
  exists s', foreach chunks (iappend (Z.of_nat k + 1)) s = Ok tt s' /\ holds s' (<[k := (ty, d ++ concat chunks)]> v).
Proof.
  revert s v d. induction chunks as [|p chunks IH]; intros s v d H Hk Hmax Hroom.
  - exists s. rewrite app_nil_r, list_insert_id by done. done.
  - cbn [concat] in *. rewrite app_assoc in *. pose proof (lookup_lt_Some _ _ _ Hk).
    destruct (iappend_spec s v k ty d p H Hk) as (s1 & E1 & H1).
    + rewrite length_app in Hmax. lia.
    + pose proof (room_le v k ty (d ++ p) ty d (concat chunks) Hk). lia.
    + destruct (IH s1 (<[k := (ty, d ++ p)]> v) (d ++ p) H1) as (s' & E' & H').
      * by apply list_lookup_insert_eq.
      * done.
      * by rewrite list_insert_insert_eq.
      * rewrite list_insert_insert_eq in H'. exists s'. cbn [foreach]. by rewrite (bind_ok _ _ _ _ _ E1).
Qed.

(** ** The files of the command line *)

(** The directory entries for the names from inode [i] on. *)
Fixpoint entries (i : Z) (names : list (list Z)) : list Z :=
  match names with [] => [] | nm :: r => dirent i nm ++ entries (i + 1) r end.

Definition file_inode (f : list Z * list (list Z)) : Z * list Z := (T_FILE, concat f.2).

Lemma length_dirent i nm : length (dirent i nm) = 16%nat.
Proof. unfold dirent. rewrite length_app, length_take, length_app, length_replicate. unfold DIRSIZ. cbn [length]. lia. Qed.

Lemma length_entries i names : length (entries i names) = (16 * length names)%nat.
Proof. revert i. induction names as [|nm r IH]; intros i; [done|]. cbn [entries length]. rewrite length_app, length_dirent, IH. lia. Qed.

Definition named (f : list Z * list (list Z)) (nm : list Z) : Prop := forall s, short_name f.1 s = Ok nm s.

Lemma add_file_spec s root v f nm :
  holds s ((T_DIR, root) :: v) -> named f nm -> (length v < 198)%nat ->
  Z.of_nat (length root + 16) <= MAXFILE * BSIZE -> Z.of_nat (length (concat f.2)) <= MAXFILE * BSIZE ->
  let v' := (T_DIR, root ++ dirent (Z.of_nat (length v) + 2) nm) :: v ++ [file_inode f] in
  nmeta + room v' <= FSSIZE ->
  exists s', add_file ROOTINO f s = Ok tt s' /\ holds s' v'.
Proof.
  intros H Hnm Hv Hroot Hf v' Hroom. set (inum := Z.of_nat (length v) + 2). set (de := dirent inum nm).
  assert (length de = 16%nat) as Hde by apply length_dirent.
  unfold v' in Hroom. cbn [room] in Hroom. rewrite room_app in Hroom. cbn [room file_inode] in Hroom.
  pose proof (needed_pos (Z.of_nat (length (concat f.2))) ltac:(lia)).
  destruct (ialloc_spec s _ T_FILE H) as (s1 & E1 & H1); [simpl; lia|done|].
  change (((T_DIR, root) :: v) ++ [(T_FILE, [])]) with ((T_DIR, root) :: (v ++ [(T_FILE, [])])) in H1.
  destruct (iappend_spec s1 _ 0 T_DIR root de H1) as (s2 & E2 & H2); [done|rewrite length_app; lia| |].
  { change (nmeta + room ((T_DIR, root ++ de) :: (v ++ [(T_FILE, [])])) <= FSSIZE). cbn [room]. rewrite room_app. cbn [room].
    change (needed (Z.of_nat (length []))) with 0. fold inum de in Hroom. lia. }
  change (holds s2 ((T_DIR, root ++ de) :: (v ++ [(T_FILE, [])]))) in H2.
  destruct (append_all f.2 s2 _ (S (length v)) T_FILE [] H2) as (s3 & E3 & H3).
  - change ((v ++ [(T_FILE, [])]) !! length v = Some (T_FILE, [])). by apply list_lookup_middle.
  - done.
  - change (nmeta + room ((T_DIR, root ++ de) :: <[length v := file_inode f]> (v ++ [(T_FILE, [])])) <= FSSIZE).
    rewrite insert_app_r_alt, Nat.sub_diag by lia. cbn [room]. rewrite room_app. fold inum de in Hroom. cbn. cbn in Hroom. lia.
  - change (holds s3 ((T_DIR, root ++ de) :: <[length v := file_inode f]> (v ++ [(T_FILE, [])]))) in H3.
    rewrite insert_app_r_alt, Nat.sub_diag in H3 by lia. exists s3. split; [|exact H3].
    unfold add_file. rewrite (bind_ok _ _ _ _ _ (Hnm s)), (bind_ok _ _ _ _ _ E1).
    replace (Z.of_nat (length ((T_DIR, root) :: v)) + 1) with inum by (unfold inum; simpl length; lia).
    rewrite (xshort_small inum) by (unfold inum; lia). fold de. change ROOTINO with (Z.of_nat 0 + 1). rewrite (bind_ok _ _ _ _ _ E2).
    replace inum with (Z.of_nat (S (length v)) + 1) by (unfold inum; lia). exact E3.
Qed.

Lemma add_files files names s root v :
  holds s ((T_DIR, root) :: v) -> Forall2 named files names -> (length v + length files <= 198)%nat ->
  Z.of_nat (length root) + 16 * Z.of_nat (length files) <= MAXFILE * BSIZE ->
  Forall (fun f => Z.of_nat (length (concat f.2)) <= MAXFILE * BSIZE) files ->
  let v' := (T_DIR, root ++ entries (Z.of_nat (length v) + 2) names) :: v ++ (file_inode <$> files) in
  nmeta + room v' <= FSSIZE ->
  exists s', foreach files (add_file ROOTINO) s = Ok tt s' /\ holds s' v'.
Proof.
  intros H Hn. revert s root v H. induction Hn as [|f nm files names Hf Hn IH]; intros s root v H Hv Hroot Hsz v' Hroom.
  - exists s. unfold v'. cbn [entries fmap list_fmap]. rewrite !app_nil_r. done.
  - cbn [length entries fmap list_fmap] in *. apply Forall_cons in Hsz as [Hsz1 Hsz].
    set (de := dirent (Z.of_nat (length v) + 2) nm).
    assert (v' = (T_DIR, (root ++ de) ++ entries (Z.of_nat (length (v ++ [file_inode f])) + 2) names) :: (v ++ [file_inode f]) ++ (file_inode <$> files)) as Ev.
    { unfold v', de. rewrite length_app, <- !app_assoc. cbn [length app fmap list_fmap entries].
      replace (Z.of_nat (length v + 1) + 2) with (Z.of_nat (length v) + 2 + 1) by lia. done. }
    rewrite Ev in *. set (rest := entries (Z.of_nat (length (v ++ [file_inode f])) + 2) names) in *. cbn [room] in Hroom. rewrite room_app in Hroom. pose proof (room_pos (file_inode <$> files)).
    destruct (add_file_spec s root v f nm H Hf) as (s1 & E1 & H1); [lia|lia|done| |].
    + fold de. cbn [room]. assert (needed (Z.of_nat (length (root ++ de))) <= needed (Z.of_nat (length ((root ++ de) ++ rest)))).
      { apply needed_mono. rewrite (length_app (root ++ de)). lia. }
      lia.
    + fold de in H1. destruct (IH s1 (root ++ de) (v ++ [file_inode f]) H1) as (s' & E' & H'); [rewrite length_app; simpl; lia| |done| |].
      * rewrite length_app. unfold de. rewrite length_dirent. lia.
      * fold rest. cbn [room]. rewrite room_app. lia.
      * exists s'. cbn [foreach]. by rewrite (bind_ok _ _ _ _ _ E1).
Qed.
