(* ===== verification/MkfsBuild.v ===== *)
(** * The finished image

    What the kernel finds in the image that mkfs has written: the files, the root directory,
    the super block, and a bitmap that marks exactly the blocks in use. *)

From Stdlib Require Import ZArith Lia.
From stdpp Require Import base list numbers strings.
From S2P Require Import Prelude Types Mem Str Layout Kalloc Vm VmCopy State Fs Mkfs MkfsSpec MkfsAppend MkfsImage.
Open Scope Z_scope.

(** ** Reading the image as the kernel does *)

(** The number of block [bn] of a file, as bmap() finds it. *)
Definition data_block (img : list block) (d : inode) (bn : Z) : Z :=
  if bn <? NDIRECT then d.(i_addrs) !!! Z.to_nat bn
  else load 4 (img_at img (d.(i_addrs) !!! Z.to_nat NDIRECT)) (4 * (bn - NDIRECT)).

(** The first [n] bytes of a file, as readi() reads them. *)
Definition file_bytes (img : list block) (d : inode) (n : Z) : list Z :=
  (fun j => img_at img (data_block img d (j / BSIZE)) (j mod BSIZE)) <$> seqZ 0 n.

(** The blocks of a file, as itrunc() frees them. *)
Definition blocks_of (img : list block) (d : inode) : list Z :=
  let ind := d.(i_addrs) !!! Z.to_nat NDIRECT in
  filter (fun b => b <> 0) (take (Z.to_nat NDIRECT) d.(i_addrs)) ++
  (if ind =? 0 then [] else filter (fun b => b <> 0) ((fun j => load 4 (img_at img ind) (4 * j)) <$> seqZ 0 NINDIRECT) ++ [ind]).

(** The bit of a block in the bitmap, as balloc() tests it. *)
Definition used_bit (img : list block) (b : Z) : bool :=
  Z.testbit (img_at img (BBLOCK b mkfs_sb) (b mod BPB / 8)) (b mod 8).

(** The super block, as readsb() reads it. *)
Definition super_of (img : list block) : superblock :=
  let w j := load 4 (img_at img 1) (4 * j) in mksb (w 0) (w 1) (w 2) (w 3) (w 4) (w 5) (w 6) (w 7).

Lemma content_bytes img f ty sz : content img f -> file_bytes img (din_of ty sz (addrs_of f)) (Z.of_nat (length (x_data f))) = x_data f.
Proof.
  intros []. apply list_eq. intros j. unfold file_bytes. rewrite list_lookup_fmap.
  destruct (x_data f !! j) as [y|] eqn:Hj.
  2: { apply lookup_ge_None in Hj. by rewrite lookup_seqZ_ge by lia. }
  pose proof (lookup_lt_Some _ _ _ Hj). rewrite lookup_seqZ_lt by lia. cbn [fmap option_fmap option_map]. rewrite Z.add_0_l. f_equal.
  set (x := Z.of_nat j). assert (0 <= x / BSIZE) as Hq by (apply Z.div_pos; [lia|done]).
  pose proof (Z.mod_pos_bound x BSIZE ltac:(done)) as Hm. pose proof (Z.div_mod x BSIZE ltac:(done)) as Hdm.
  destruct (lookup_lt_is_Some_2 (x_blks f) (Z.to_nat (x / BSIZE))) as [b Hb]; [unfold BSIZE in *; lia|].
  assert (data_block img (din_of ty sz (addrs_of f)) (x / BSIZE) = b) as ->.
  { pose proof (lookup_lt_Some _ _ _ Hb) as Hl. unfold data_block, NDIRECT. cbn [din_of i_addrs]. destruct (Z.ltb_spec (x / BSIZE) 12) as [Hd|Hd].
    - rewrite addrs_direct by lia. by apply nth_lookup_Some.
    - change (Z.to_nat 12) with 12%nat. rewrite addrs_ind. rewrite MAXFILE_val in t_max. assert (x_ind f <> 0) as Hi by (intros E; specialize (t_direct E); lia).
      replace (4 * (x / BSIZE - 12)) with (4 * Z.of_nat (Z.to_nat (x / BSIZE) - 12)) by lia. rewrite (t_ind Hi) by lia.
      replace (12 + (Z.to_nat (x / BSIZE) - 12))%nat with (Z.to_nat (x / BSIZE)) by lia. by apply nth_lookup_Some. }
  rewrite (t_data _ b _ Hb Hm). replace (Z.to_nat (BSIZE * Z.of_nat (Z.to_nat (x / BSIZE)) + x mod BSIZE)) with j; [by apply nth_lookup_Some|].
  rewrite Z2Nat.id by done. lia.
Qed.

Lemma filter_zeroes (l : list Z) n : Forall (fun b => b <> 0) l -> filter (fun b => b <> 0) (l ++ replicate n 0) = l.
Proof.
  intros H. rewrite filter_app. replace (filter (fun b => b <> 0) (replicate n 0)) with ([] : list Z).
  - rewrite app_nil_r. induction H as [|x l Hx Hl IH]; [done|]. rewrite filter_cons_True by done. by rewrite IH.
  - induction n as [|n IH]; [done|]. cbn [replicate]. by rewrite filter_cons_False by (intros []; done).
Qed.

Lemma pad_nth (l : list Z) n : (length l <= n)%nat -> (fun j => nth j l 0) <$> seq 0 n = l ++ replicate (n - length l) 0.
Proof.
  intros Hn. apply list_eq. intros j. rewrite list_lookup_fmap. destruct (decide (j < n)%nat) as [Hj|Hj].
  - rewrite lookup_seq_lt by done. simpl. destruct (decide (j < length l)%nat) as [Hl|Hl].
    + rewrite lookup_app_l by done. destruct (lookup_lt_is_Some_2 _ _ Hl) as [x Hx]. rewrite Hx. f_equal. by apply nth_lookup_Some.
    + rewrite lookup_app_r by lia. rewrite nth_overflow by lia. symmetry. apply lookup_replicate_2. lia.
  - rewrite lookup_seq_ge by lia. symmetry. apply lookup_ge_None. rewrite length_app, length_replicate. lia.
Qed.

Lemma content_blocks img f ty sz : content img f -> Forall (fun b => b <> 0) (x_blks f) -> blocks_of img (din_of ty sz (addrs_of f)) ≡ₚ own f.
Proof.
  intros [] Hnz. unfold blocks_of, own. cbn [din_of i_addrs]. change (Z.to_nat NDIRECT) with 12%nat. rewrite addrs_ind.
  rewrite MAXFILE_val in t_max. unfold addrs_of. rewrite take_app_le, take_take by (rewrite length_take, length_app, length_replicate; lia).
  change (Nat.min 12 12) with 12%nat. rewrite <- (take_drop 12 (x_blks f)) in Hnz. apply Forall_app in Hnz as [Hnz1 Hnz2].
  assert (take 12 (x_blks f ++ replicate 12 0) = take 12 (x_blks f) ++ replicate (12 - length (x_blks f)) 0) as ->.
  { rewrite take_app, take_replicate. do 2 f_equal. lia. }
  rewrite filter_zeroes by done. destruct (Z.eqb_spec (x_ind f) 0) as [E|E].
  - rewrite take_ge by (by apply t_direct). done.
  - assert ((fun j => load 4 (img_at img (x_ind f)) (4 * j)) <$> seqZ 0 NINDIRECT = drop 12 (x_blks f) ++ replicate (256 - length (drop 12 (x_blks f))) 0) as ->.
    { rewrite <- pad_nth by (rewrite length_drop; lia). change (seqZ 0 NINDIRECT) with ((fun i => Z.of_nat i + 0) <$> seq 0 256). rewrite <- list_fmap_compose.
      apply list_fmap_ext. intros i j Hj. apply lookup_seq in Hj as [-> Hi]. unfold compose. rewrite Z.add_0_r, (t_ind E) by lia. by rewrite !nth_lookup, lookup_drop. }
    rewrite filter_zeroes by done. rewrite app_assoc, take_drop. done.
Qed.

(** ** The bitmap *)

Definition mark (buf : block) (i : Z) : block := upd buf (i / 8) (u8 (Z.lor (buf (i / 8)) (Z.shiftl 1 (i mod 8)))).

Lemma mark_bit buf i b : 0 <= i -> 0 <= b -> Z.testbit (mark buf i (b / 8)) (b mod 8) = (b =? i) || Z.testbit (buf (b / 8)) (b mod 8).
Proof.
  intros Hi Hb. pose proof (Z.mod_pos_bound b 8 ltac:(lia)). pose proof (Z.mod_pos_bound i 8 ltac:(lia)).
  pose proof (Z.div_mod b 8 ltac:(lia)). pose proof (Z.div_mod i 8 ltac:(lia)).
  unfold mark, upd. destruct (Z.eqb_spec (b / 8) (i / 8)) as [E|E].
  - unfold u8. rewrite Z.mod_pow2_bits_low, Z.lor_spec, Z.shiftl_1_l, Z.pow2_bits_eqb, E by lia. rewrite orb_comm. f_equal.
    destruct (Z.eqb_spec (i mod 8) (b mod 8)), (Z.eqb_spec b i); first [done | lia].
  - destruct (Z.eqb_spec b i) as [->|]; [done|done].
Qed.

Lemma bitmap_bit n b : 0 <= b -> Z.testbit (foldl mark zeroes (seqZ 0 (Z.of_nat n)) (b / 8)) (b mod 8) = (b <? Z.of_nat n).
Proof.
  intros Hb. induction n as [|n IH].
  - change (foldl mark zeroes (seqZ 0 (Z.of_nat 0)) (b / 8)) with 0. rewrite Z.bits_0. destruct (Z.ltb_spec b (Z.of_nat 0)); [lia|done].
  - replace (Z.of_nat (S n)) with (Z.of_nat n + 1) by lia. rewrite seqZ_app by lia. rewrite foldl_app. change (seqZ (0 + Z.of_nat n) 1) with [0 + Z.of_nat n].
    cbn [foldl]. rewrite Z.add_0_l, mark_bit, IH by lia. destruct (Z.eqb_spec b (Z.of_nat n)), (Z.ltb_spec b (Z.of_nat n)), (Z.ltb_spec b (Z.of_nat n + 1)); first [done | lia].
Qed.

(** ** From the empty file to the finished image *)

Lemma fill m img fi fb :
  foreach (seqZ (Z.of_nat (length img)) (Z.of_nat m)) (fun i => wsect i zeroes) (mkmkfs img fi fb) = Ok tt (mkmkfs (img ++ replicate m zeroes) fi fb).
Proof.
  revert img. induction m as [|m IH]; intros img; [by rewrite app_nil_r|].
  rewrite seqZ_cons by lia. cbn [foreach].
  rewrite (bind_ok _ _ _ tt (mkmkfs (img ++ [zeroes]) fi fb)).
  - replace (Z.succ (Z.of_nat (length img))) with (Z.of_nat (length (img ++ [zeroes]))) by (rewrite length_app; simpl; lia).
    replace (Z.pred (Z.of_nat (S m))) with (Z.of_nat m) by lia. rewrite IH, <- app_assoc. done.
  - unfold wsect, modify. cbn [m_img]. rewrite Nat2Z.id. destruct (Nat.ltb_spec (length img) (length img)); [lia|]. by rewrite Nat.sub_diag.
Qed.

Definition blank : mkfs := put 1 sb_block (mkmkfs (replicate (Z.to_nat FSSIZE) zeroes) 1 nmeta).

Lemma blank_at n x : n <> 1 -> 0 <= n -> img_at blank.(m_img) n x = 0.
Proof.
  intros Hn Hn0. unfold blank. rewrite put_at by (cbn [m_img]; rewrite ?length_replicate; unfold FSSIZE; lia).
  rewrite (proj2 (Z.eqb_neq _ _) Hn). cbn [m_img]. unfold img_at. destruct (replicate (Z.to_nat FSSIZE) zeroes !! Z.to_nat n) as [b|] eqn:E; [|done].
  apply lookup_replicate in E as [-> _]. done.
Qed.

Lemma blank_holds : holds blank [].
Proof.
  exists []. split; [|done]. split; try done.
  - split; try done.
    + apply NoDup_nil_2.
    + intros b Hb. by apply elem_of_nil in Hb.
    + intros n x Hn. apply blank_at; cbn in Hn; pose proof nmeta_val; lia.
    + intros f Hf. by apply elem_of_nil in Hf.
  - split; [done|simpl; lia].
Qed.

(** The inodes of the finished image. *)
Definition root_entries (names : list (list Z)) : list Z := dirent 1 (bytes ".") ++ dirent 1 (bytes "..") ++ entries 2 names.
Definition inodes (files : list (list Z * list (list Z))) (names : list (list Z)) : list (Z * list Z) :=
  (T_DIR, root_entries names) :: (file_inode <$> files).

(** Files whose names are accepted and which fit in the file system. *)
Record mkfs_input (files : list (list Z * list (list Z))) (names : list (list Z)) : Prop := {
  n_names : Forall2 named files names;
  n_count : (length files <= 198)%nat;
  n_sizes : Forall (fun f => Z.of_nat (length (concat f.2)) <= MAXFILE * BSIZE) files;
  n_room : nmeta + room (inodes files names) <= FSSIZE
}.

Lemma length_root names : length (root_entries names) = (16 * (2 + length names))%nat.
Proof. unfold root_entries. rewrite !length_app, !length_dirent, length_entries. lia. Qed.

(** Up to the directory's size and the bitmap. *)
Lemma build_files files names : mkfs_input files names ->
  exists s, holds s (inodes files names) /\
    mkfs_main files = (fix_root ROOTINO ;; used ← gets m_freeblock; balloc used) s.
Proof.
  intros [Hnames Hcount Hsizes Hroom]. pose proof (length_root names) as Hroot. pose proof (Forall2_length _ _ _ Hnames) as Hl. 
  assert (Hr0 : forall d, (length d <= length (root_entries names))%nat -> nmeta + room [(T_DIR, d)] <= FSSIZE).
  { intros d Hd. unfold inodes in Hroom. cbn [room] in *. pose proof (room_pos (file_inode <$> files)).
    pose proof (needed_mono (Z.of_nat (length d)) (Z.of_nat (length (root_entries names))) ltac:(lia)). lia. }
  destruct (ialloc_spec blank [] T_DIR blank_holds) as (s1 & E1 & H1); [simpl; lia|done|].
  set (d1 := dirent 1 (bytes ".")). set (d2 := dirent 1 (bytes "..")).
  assert (length d1 = 16%nat /\ length d2 = 16%nat) as [L1 L2] by (split; apply length_dirent).
  destruct (iappend_spec s1 [(T_DIR, [])] 0 T_DIR [] d1 H1) as (s2 & E2 & H2); [done|cbn [app]; rewrite MAXFILE_val; unfold BSIZE; lia|apply (Hr0 d1); lia|].
  destruct (iappend_spec s2 [(T_DIR, d1)] 0 T_DIR d1 d2 H2) as (s3 & E3 & H3); [done|rewrite length_app, MAXFILE_val; unfold BSIZE; lia|apply (Hr0 (d1 ++ d2)); rewrite length_app; lia|].
  destruct (add_files files names s3 (d1 ++ d2) [] H3) as (s4 & E4 & H4); [done|simpl; lia| |done| |].
  - rewrite length_app, MAXFILE_val. unfold BSIZE. lia.
  - cbn [length app]. change (Z.of_nat 0 + 2) with 2. rewrite <- app_assoc. exact Hroom.
  - exists s4. split.
    + cbn [length app] in H4. change (Z.of_nat 0 + 2) with 2 in H4. rewrite <- app_assoc in H4. exact H4.
    + unfold mkfs_main, build. mstep. pose proof (fill (Z.to_nat FSSIZE) [] 1 nmeta) as Ef. rewrite Z2Nat.id in Ef by done.
      change (set_freeblock nmeta (mkmkfs [] 1 0)) with (mkmkfs [] 1 nmeta). rewrite (bind_ok _ _ _ _ _ Ef).
      rewrite (bind_ok _ _ _ tt blank) by (apply wsect_in; cbn [m_img app]; rewrite length_replicate; unfold FSSIZE; lia).
      rewrite (bind_ok _ _ _ _ _ E1). change (negb (Z.of_nat (length []) + 1 =? ROOTINO)) with false. cbv match.
      change (Z.of_nat (length []) + 1) with (Z.of_nat 0 + 1). change (xshort (Z.of_nat 0 + 1)) with 1. fold d1 d2.
      rewrite (bind_ok _ _ _ _ _ E2), (bind_ok _ _ _ _ _ E3), (bind_ok _ _ _ _ _ E4). done.
Qed.

(** The image at the end: the inodes [fs], the root's with its size rounded. *)
Record finished (s : mkfs) (fs : list ifile) (files : list (list Z * list (list Z))) (names : list (list Z)) : Prop := {
  e_space : space s fs;
  e_view : view fs = inodes files names;
  e_tight : Forall tight fs;
  e_super : img_at s.(m_img) 1 = sb_block;
  e_dinode : forall k f, fs !! k = Some f -> exists size, dinode_at s.(m_img) (Z.of_nat k + 1) = din_of (x_ty f) size (addrs_of f) /\
    size = if decide (k = 0%nat) then (Z.of_nat (length (x_data f)) / BSIZE + 1) * BSIZE else Z.of_nat (length (x_data f));
  e_bitmap : forall b, 0 <= b < FSSIZE -> used_bit s.(m_img) b = (b <? s.(m_freeblock))
}.

Lemma mkfs_finished files names : mkfs_input files names -> exists s fs, mkfs_main files = Ok tt s /\ finished s fs files names.
Proof.
  intros Hin. destruct (build_files files names Hin) as (s & (fs & Hok & Hv) & E). destruct Hok as [Hs Ht Hty Hsz Hino Hsb Hdin].
  pose proof (sp_len _ _ Hs) as Hlen. pose proof (sp_max _ _ Hs) as Hmax. pose proof nmeta_val. pose proof (free_pos s fs Hs).
  assert (exists f0, fs !! 0%nat = Some f0 /\ x_ty f0 = T_DIR /\ x_data f0 = root_entries names) as (f0 & Hf0 & Ety & Ed).
  { apply view_inv. by rewrite Hv. }
  pose proof (length_root names) as Hroot. pose proof (Forall2_length _ _ _ (n_names _ _ Hin)) as Hl. pose proof (n_count _ _ Hin) as Hc.
  set (n := Z.of_nat (length (x_data f0))). assert (n = 16 * (2 + Z.of_nat (length names))) as Hn by (unfold n; rewrite Ed, Hroot; lia).
  pose proof (Z.div_mod n BSIZE ltac:(done)) as Hdm. pose proof (Z.mod_pos_bound n BSIZE ltac:(done)) as Hmb.
  set (sz := (n / BSIZE + 1) * BSIZE). assert (0 <= sz < 2 ^ 32) as Hszr by (unfold sz, BSIZE in *; lia).
  set (s1 := put_inode ROOTINO (din_of T_DIR sz (addrs_of f0)) s).
  assert (0 <= ROOTINO < 208) as Hroot1 by (unfold ROOTINO; lia). destruct (IBLOCK_val ROOTINO Hroot1) as [_ Hb].
  assert (Z.of_nat (length (m_img s1)) = FSSIZE) as Hlen1 by (unfold s1, put_inode; by rewrite put_img_len).
  set (bm := foldl mark zeroes (seqZ 0 s.(m_freeblock))). set (s2 := put 46 bm s1).
  assert (forall m, 0 <= m -> m <> 46 -> img_at s2.(m_img) m = img_at s1.(m_img) m) as Hat.
  { intros m Hm Hne. unfold s2. rewrite put_at by (unfold FSSIZE in *; lia). by rewrite (proj2 (Z.eqb_neq _ _) Hne). }
  assert (forall m, 0 <= m -> m <> 46 -> m <> IBLOCK ROOTINO mkfs_sb -> img_at s2.(m_img) m = img_at s.(m_img) m) as Hat0.
  { intros m Hm Hne Hni. rewrite (Hat m Hm Hne). exact (put_inode_at s Hlen ROOTINO _ m Hroot1 Hm Hni). }
  exists s2, fs. split.
  - rewrite E. unfold fix_root.
    assert (rinode ROOTINO s = Ok (din_of T_DIR n (addrs_of f0)) s) as Er.
    { rewrite rinode_run by done. f_equal. rewrite <- Ety. apply (Hdin 0%nat f0 Hf0). }
    rewrite (bind_ok _ _ _ tt s1).
    + mstep. unfold balloc. change (m_freeblock s1) with (m_freeblock s). destruct (Z.ltb_spec (m_freeblock s) BPB) as [_|Hbad]; [|unfold BPB, BSIZE, FSSIZE in *; lia].
      cbn [negb]. change (sb_bmapstart mkfs_sb) with 46. apply wsect_in. unfold FSSIZE in *. lia.
    + rewrite (bind_ok _ _ _ _ _ Er). cbn [din_of i_size]. rewrite (xint_small n) by lia. fold (sz). rewrite u32_small, (xint_small sz) by done. by apply winode_run.
  - split.
    + apply (space_meta s); [done|unfold s2, s1, put_inode; by rewrite !put_img_len|done|]. intros m Hm. apply Hat0; lia.
    + done.
    + done.
    + rewrite Hat0 by lia. done.
    + intros k f Hk. pose proof (lookup_lt_Some _ _ _ Hk) as Hkl. assert (0 <= Z.of_nat k + 1 < 208) as Hk1 by (destruct Hino; lia).
      destruct (IBLOCK_val _ Hk1) as [_ Hbk].
      assert (dinode_at (m_img s2) (Z.of_nat k + 1) = dinode_at (m_img s1) (Z.of_nat k + 1)) as -> by (unfold dinode_at; by rewrite Hat by lia).
      destruct (decide (k = 0%nat)) as [->|Hne].
      * rewrite Hf0 in Hk. injection Hk as <-. exists sz. split; [|done]. rewrite Ety.
        exact (dinode_put_same s Hlen ROOTINO T_DIR sz (addrs_of f0) Hroot1 ltac:(unfold T_DIR; lia) Hszr (length_addrs f0) (addrs_range s fs 0 f0 Hs Hf0)).
      * eexists. split; [|reflexivity]. rewrite <- (Hdin k f Hk).
        apply (dinode_put_other s Hlen ROOTINO); [done|done|unfold ROOTINO; lia|apply length_addrs].
    + intros b Hbb. unfold used_bit, FSSIZE in *. unfold BBLOCK. change (sb_bmapstart mkfs_sb) with 46. change BPB with 8192.
      rewrite (Z.div_small b), (Z.mod_small b) by lia. change (u32 (0 + 46)) with 46. unfold s2. rewrite put_at by lia.
      rewrite Z.eqb_refl. unfold bm. rewrite <- (Z2Nat.id (m_freeblock s)) by lia. rewrite bitmap_bit, Z2Nat.id by lia. reflexivity.
Qed.

(** ** The theorems *)

Lemma finished_file s fs files names k ty d : finished s fs files names -> inodes files names !! k = Some (ty, d) ->
  let din := dinode_at s.(m_img) (Z.of_nat k + 1) in
  i_type din = ty /\ i_nlink din = 1 /\ file_bytes s.(m_img) din (Z.of_nat (length d)) = d /\
  i_size din = if decide (k = 0%nat) then (Z.of_nat (length d) / BSIZE + 1) * BSIZE else Z.of_nat (length d).
Proof.
  intros H Hk din. rewrite <- (e_view _ _ _ _ H) in Hk. destruct (view_inv _ _ _ _ Hk) as (f & Hf & <- & <-).
  destruct (e_dinode _ _ _ _ H k f Hf) as (size & E & Es). unfold din. rewrite E. split; [done|]. split; [done|]. split; [|exact Es].
  apply content_bytes. exact (file_content s fs k f (e_space _ _ _ _ H) Hf).
Qed.

(** C14. mkfs stores the files it is given.  When their names are accepted and they fit, it
    ends with an image from which the kernel reads back, inode by inode, the contents of
    every file as its reads returned them, and a root directory of ".", ".." and the names in
    order with their inodes, its size rounded to whole blocks; the super block describes the
    layout. *)
Theorem mkfs_roundtrip files names : mkfs_input files names ->
  exists s, mkfs_main files = Ok tt s /\ super_of s.(m_img) = mkfs_sb /\
  (forall k f, files !! k = Some f ->
     let d := dinode_at s.(m_img) (Z.of_nat k + 2) in
     i_type d = T_FILE /\ i_nlink d = 1 /\ file_bytes s.(m_img) d (i_size d) = concat f.2) /\
  let r := dinode_at s.(m_img) ROOTINO in
  let n := 16 * (Z.of_nat (length names) + 2) in
  i_type r = T_DIR /\ i_nlink r = 1 /\ i_size r = (n / BSIZE + 1) * BSIZE /\ file_bytes s.(m_img) r n = root_entries names.
Proof.
  intros Hin. destruct (mkfs_finished files names Hin) as (s & fs & E & H). exists s. split; [done|]. split.
  - unfold super_of. rewrite (e_super _ _ _ _ H). reflexivity.
  - split.
    + intros k f Hf. destruct (finished_file s fs files names (S k) T_FILE (concat f.2) H) as (H1 & H2 & H3 & H4).
      { change ((file_inode <$> files) !! k = Some (T_FILE, concat f.2)). by rewrite list_lookup_fmap, Hf. }
      replace (Z.of_nat (S k) + 1) with (Z.of_nat k + 2) in * by lia.
      destruct (decide (S k = 0%nat)); [done|]. cbv zeta. rewrite H4. exact (conj H1 (conj H2 H3)).
    + destruct (finished_file s fs files names 0 T_DIR (root_entries names) H eq_refl) as (H1 & H2 & H3 & H4).
      rewrite length_root in H3, H4. replace (Z.of_nat (16 * (2 + length names))) with (16 * (Z.of_nat (length names) + 2)) in H3, H4 by lia.
      exact (conj H1 (conj H2 (conj H4 H3))).
Qed.

Lemma bind_seq (g : Z -> list Z) fs j :
  (forall k f, fs !! k = Some f -> g (j + Z.of_nat k) ≡ₚ own f) -> seqZ j (Z.of_nat (length fs)) ≫= g ≡ₚ fs ≫= own.
Proof.
  revert j. induction fs as [|f fs IH]; intros j H; [done|]. rewrite seqZ_cons by (cbn [length]; lia). rewrite !bind_cons.
  replace (Z.pred (Z.of_nat (length (f :: fs)))) with (Z.of_nat (length fs)) by (cbn [length]; lia).
  rewrite (IH (Z.succ j)).
  - specialize (H 0%nat f eq_refl). rewrite Z.add_0_r in H. by rewrite H.
  - intros k g' Hk. rewrite <- (H (S k) g' Hk). by replace (Z.succ j + Z.of_nat k) with (j + Z.of_nat (S k)) by lia.
Qed.

(** The blocks of the inodes are the data blocks up to freeblock. *)
Lemma space_used s fs b : space s fs -> b ∈ fs ≫= own <-> nmeta <= b < s.(m_freeblock).
Proof.
  intros []. split; [apply sp_bound|]. intros Hb. assert (fs ≫= own ≡ₚ seqZ nmeta (s.(m_freeblock) - nmeta)) as ->.
  - apply submseteq_length_Permutation.
    + apply NoDup_submseteq; [done|]. intros x Hx. apply elem_of_seqZ. apply sp_bound in Hx. lia.
    + rewrite length_seqZ. lia.
  - apply elem_of_seqZ. lia.
Qed.

(** C28. The image is a well-formed file system: in its FSSIZE blocks, no block belongs to two
    inodes or twice to one, all of them are data blocks, and the bitmap marks exactly the
    blocks in front of the data and those that belong to an inode. *)
Theorem mkfs_wellformed files names : mkfs_input files names ->
  exists s, mkfs_main files = Ok tt s /\ Z.of_nat (length s.(m_img)) = FSSIZE /\
  let used := seqZ 1 (Z.of_nat (length files) + 1) ≫= (fun i => blocks_of s.(m_img) (dinode_at s.(m_img) i)) in
  NoDup used /\ (forall b, b ∈ used -> nmeta <= b < FSSIZE) /\
  forall b, 0 <= b < FSSIZE -> used_bit s.(m_img) b = bool_decide (b < nmeta \/ b ∈ used).
Proof.
  intros Hin. destruct (mkfs_finished files names Hin) as (s & fs & E & H). pose proof (e_space _ _ _ _ H) as Hs.
  exists s. split; [done|]. split; [apply Hs|]. pose proof nmeta_val. pose proof (sp_max _ _ Hs).
  assert (length fs = S (length files)) as Hl.
  { transitivity (length (view fs)); [unfold view; by rewrite length_fmap|]. rewrite (e_view _ _ _ _ H). unfold inodes. cbn [length]. by rewrite length_fmap. }
  assert (seqZ 1 (Z.of_nat (length files) + 1) ≫= (fun i => blocks_of s.(m_img) (dinode_at s.(m_img) i)) ≡ₚ fs ≫= own) as Ep.
  { replace (Z.of_nat (length files) + 1) with (Z.of_nat (length fs)) by lia. apply bind_seq. intros k f Hf.
    destruct (e_dinode _ _ _ _ H k f Hf) as (size & Ed & _). rewrite (Z.add_comm 1), Ed. apply content_blocks; [exact (file_content s fs k f Hs Hf)|].
    apply Forall_forall. intros b Hb. pose proof (file_bound s fs k f Hs Hf b (own_blks f b Hb)). lia. }
  cbv zeta. split; [rewrite Ep; apply Hs|]. split.
  - intros b. rewrite Ep. intros Hb. apply (sp_bound _ _ Hs) in Hb. lia.
  - intros b Hb. rewrite (e_bitmap _ _ _ _ H b Hb). destruct (Z.ltb_spec b (m_freeblock s)) as [Hlt|Hge]; symmetry; [apply bool_decide_eq_true_2|apply bool_decide_eq_false_2];
      rewrite Ep, (space_used s fs b Hs); pose proof (free_pos s fs Hs); lia.
Qed.

(** ** Two files, the second one with an indirect block *)

Definition demo_files : list (list Z * list (list Z)) :=
  [(bytes "user/_cat", [[1; 2; 3]; [4]]); (bytes "README", replicate 14 (replicate 1024 7))].
Definition demo_names : list (list Z) := [bytes "cat"; bytes "README"].

Lemma demo_input : mkfs_input demo_files demo_names.
Proof.
  split.
  - repeat constructor.
  - simpl. lia.
  - repeat constructor; vm_compute; discriminate.
  - vm_compute. discriminate.
Qed.

Lemma mkfs_roundtrip_witness : exists s, mkfs_main demo_files = Ok tt s /\
  file_bytes s.(m_img) (dinode_at s.(m_img) 2) (i_size (dinode_at s.(m_img) 2)) = [1; 2; 3; 4] /\
  file_bytes s.(m_img) (dinode_at s.(m_img) ROOTINO) 64 = root_entries demo_names.
Proof.
  destruct (mkfs_roundtrip demo_files demo_names demo_input) as (s & E & _ & Hf & _ & _ & _ & Hr).
  exists s. split; [exact E|]. destruct (Hf 0%nat _ eq_refl) as (_ & _ & Hd). split; [exact Hd|exact Hr].
Defined.

Lemma mkfs_wellformed_witness : exists s, mkfs_main demo_files = Ok tt s /\ used_bit s.(m_img) 46 = true.
Proof.
  destruct (mkfs_wellformed demo_files demo_names demo_input) as (s & E & _ & _ & _ & Hb).
  exists s. split; [exact E|]. rewrite (Hb 46) by (unfold FSSIZE; lia). apply bool_decide_eq_true_2. left. reflexivity.
Defined.
